(* ===== verification/_CoqProject ===== *)
-Q . S2P
Prelude.v
Sha256.v
CanonicalJson.v
JsonDecode.v
Frames.v
Time.v
Ipv4.v
Identities.v
Contracts.v
JsonSize.v
CoverageGrammar.v
EvidenceStore.v
CoverageReducer.v
CoverageState.v
SpecialUse.v
Egress.v
Candidates.v
Policy.v
DecisionClock.v
PolicyClient.v
DecisionIntent.v
ActuatorClient.v
IntentDelivery.v
DecisionJournal.v
ActuatorRecords.v
ActuatorProtocol.v
ActuatorMirror.v
ActuatorHonest.v
PccContracts.v
Correlation.v
Historical.v
FalcoParser.v
FalcoRuntime.v
FalcoEpisodes.v
AckJournal.v
AckDurability.v
AckOrder.v
