(* ===== verification/Prelude.v ===== *)
(** * AGmind-SAIS Core: a verification development

    AGmind-SAIS watches one host for suspicious outbound connections of containers and
    proposes a temporary egress deny that an operator approves.  Its Core
    ([core/agmind_immune] of the repository) receives signed observer events, stores
    them as evidence, decides whether the host is covered well enough to act, correlates
    a connection with the inventory into a containment candidate, asks a policy service
    about it, records the decision durably, hands the resulting intent to an actuator and
    mirrors what the actuator signs about it.  This library models that path as executable
    functions and proves what each part promises to the next.

    ** The files, in dependency order

    Foundations:
    - [Prelude]: results ([Ok]/[Err], a Python call that returns or raises), checks,
      lists and strings of code points, sorting, the tactics [inv_ok] and [breflect].
    - [Sha256]: [hashlib.sha256], executable.
    - [CanonicalJson]: [canonicaljson.py], the encoder of AGmind Canonical JSON.
    - [JsonDecode]: [contracts.py], [decode_strict] and its hooks over the standard
      library's JSON scanner.
    - [Frames]: [evidence/frames.py], the hash-chained AGF1 frames of every journal.
    - [Time]: RFC 3339 nanosecond instants and coverage windows
      ([correlation/primitives.py], [coverage/grammar.py]).
    - [Ipv4]: the part of [ipaddress] the code uses.
    - [Identities]: [canonicaljson.py], identifiers, domain-separated digests, signing
      messages and signature checks.

    Evidence and coverage:
    - [Contracts]: [contracts.py], the strict models of events, coverage records, boot
      boundaries and key transitions.
    - [JsonSize]: bounds on the size of canonical JSON and the texts that can be written, for
      statements about deliveries.
    - [CoverageGrammar]: [coverage/grammar.py], the closed grammar of coverage records.
    - [EvidenceStore]: [evidence/segments.py] as coverage sees it, behind the type class
      [CoverageEvidence].
    - [CoverageReducer]: the pure snapshot transition of [coverage/state.py].
    - [CoverageState]: the state object, its recovery and fence, the acknowledgement
      barrier and mutation readiness with its digest.
    - [AckJournal]: [ingest/ack_journal.py] and what it asks of [evidence/segments.py]: the
      pending and confirmed acknowledgements of evidence, their journal and the commitment
      beside it, from creation to recovery and closing.  [AckDurability] relates the disk to
      a history of acknowledgements, [AckOrder] follows it through a whole world of steps.

    From a candidate to the actuator:
    - [SpecialUse]: [correlation/primitives.py], the pinned IANA registry.
    - [Egress]: [contracts.py], intents and prepared plans, and their exact bytes
      ([actions/client.py]).
    - [Candidates]: [incidents/models.py], containment candidates.
    - [Policy], [DecisionClock], [PolicyClient]: [policy/models.py],
      [policy/client.py] and [clock.py]: what is asked of the policy service, what may
      be believed of its answer, and one whole evaluation.
    - [DecisionIntent]: [actions/models.py], the durable decision record.
    - [DecisionJournal]: [actions/journal.py], its journal.
    - [ActuatorClient], [IntentDelivery]: [actions/client.py] and
      [actions/state_machine.py], delivery of the intent and its single outcome.

    Back from the actuator:
    - [ActuatorRecords]: [actions/actuator_records.py], the signed chain of reservations,
      attempts and action records and the projection that accepts it.
    - [ActuatorProtocol]: [actions/actuator_protocol.py], the verified extension fetched
      page by page, and the status of one intent.
    - [ActuatorMirror]: [actions/actuator_mirror.py], the durable mirror and its
      synchronisation.
    - [ActuatorHonest]: an actuator that serves its journal, against which the client and
      the mirror are complete.

    Correlation:
    - [PccContracts]: [contracts.py] and [canonicaljson.py], requests, retained triggers,
      Docker networks (with IPv6 text), boot transition chains, correlation snapshots.
    - [Correlation]: [correlation/pcc.py] and [incidents/models.py], the kernel from an
      authenticated snapshot and its context to an incident and maybe a candidate.
    - [Historical]: [coverage/historical.py] and [evidence/dedup.py], the coverage of a past
      decision reduced from the authenticated records, and what late coverage does to it.

    The sensor side:
    - [FalcoParser]: [falco_adapter/parser.py], [falco_adapter/redaction.py] and
      [FalcoConnectV1] of [contracts.py], from a received body to a redacted event or a
      metrics heartbeat.
    - [FalcoRuntime]: [falco_adapter/main.py], the outbox, the heartbeat watchdog, intake,
      coverage reports, the delivery task and the intake route, in a state and exception
      monad; [FalcoEpisodes] proves what they promise.

    ** How the model follows the code

    A function is a Rocq function with the source's name (without the leading
    underscore) and its branches in the same order; a method takes the object's state
    and returns the new state with its result.  A strict pydantic model is a record, a
    validator from the decoded document and a dump; a violation is a [ValueError].
    Strings are lists of code points, bytes lists of bytes, integers [Z] with the code's
    bounds as checks, floats IEEE doubles ([SpecFloat]), [decimal] a coefficient and an
    exponent rounded to 28 digits.  Object identity is equality of tokens.  What the
    operating system, SQLite or the network may do is an argument of the operation: short
    reads, a failing call, an append that stops part way, a transaction that was or was
    not applied.  Third-party code is a parameter: CRC32C, Ed25519 and the header lookup
    of httpx.  Statements about digests mention an explicit SHA-256 [collision].

    ** What the theorems show

    - Encodings: canonical JSON and strict decoding invert each other and the encoder
      refuses exactly what it should; frames survive short reads and crashes and their
      head hash commits to the history; timestamps, envelopes, intents, plans and
      decision records have one exact spelling each.
    - Coverage: the classification is the closed grammar; sequence gaps, critical
      intervals and Docker generations of reachable snapshots are sound; a bound
      reducer follows the store record by record; failures fence the object for good;
      readiness says ready exactly when every condition holds and its digest binds the
      decision.
    - Acknowledgements: every step of the journal, with failing writes, crashes and
      reopening, is at most one step of a two-step specification ([ack_spec]): evidence is
      acknowledged in its order without a gap, a record that was reported is never lost, a
      journal that was created opens again, and one that was rolled back is refused.
    - Decisions: an accepted evaluation never widens the candidate's authority, the
      age of evidence covers the time since its creation and the stated uncertainty of the
      clock (exactly within the decimal context), a response is read within its bounds, and what the
      client returns is accepted by the committer; a durable record carries an intent
      exactly when it may.
    - Durability: the decision journal is recovered exactly from its file, a torn append
      is undone or kept as a whole, each candidate has at most one record; the delivery
      outbox stores one outcome per intent, answers a repeated delivery from it, and
      latches read-only when durability is in doubt.
    - The actuator: each delivery has exactly the outcome its answer calls for; a plan's recorded states follow the lifecycle, and no kernel effect is
      recorded, fetched, stored or shown without a local approval of the same plan inside
      its window; a fetch ends whatever is answered; a synchronisation is a transaction
      over projection and file; the mirror survives restarts and torn writes, and catches
      up with an honest actuator.
    - Correlation: a candidate is created only when every condition of the rule holds, and
      on authenticated inputs the kernel always returns a well-formed result; an accepted
      chain of boot transitions is a history without repetition.  With the coverage reduced
      from the evidence, a created candidate had no outage on record at any instant of its
      window, and the cheap filter for late coverage misses no record that matters.
    - Falco: an accepted event transcribes the received fields and claims no authority, its
      time is the same instant, and its bytes fit a delivery and read back exactly.  In every
      reachable state of the adapter its reports form proper episodes that the coverage
      grammar understands, its queues are bounded, no body is lost in silence, and it claims
      readiness only without an open outage.  Two concrete runs show where this ends: a clock
      that goes back ends the delivery task, and a pending closing can be overwritten by the
      next opening.

    ** Bounds and fuel

    The JSON scanner and the frame loop recurse on a fuel one larger than the length of
    their input, which every step shortens.  Bounds such as the number of journal records
    are the code's own constants.  An acknowledgement journal is recovered while its size
    fits 64 bits, the width of the size in its commitment.  States of the Falco adapter are
    those reached with fewer than 2^63 - 1 items, far beyond the life of a process; its counters then stay in range.

    ** Not modelled

    The segment files of the evidence store with sealing, repair and retention
    ([evidence/segments.py], [repair.py], [retention.py], [manifest.py]), the SQLite
    projections and their publication, the ingest service, its envelope checks and its
    correlation journal, the captures of the acknowledgement journal that retention and
    replay compare and its temporary file, the issuance of correlation inputs and contexts
    ([correlation/authority.py], weak references and live fingerprints of
    [correlation/pcc.py]), the digests historical coverage memoises for replay, the
    connection of the Falco adapter to the observer, the hunter, the controller, runtime,
    API and command-line wiring.  These are protocols over files, SQLite and descriptors
    whose state is mostly that of the operating system, or pure input and output.  The Go
    programs and the legacy [app] package are outside this library. *)

From stdpp Require Export base list strings numbers sorting.
From Stdlib Require Export ZArith Lia.

Declare Scope agmind_scope.
Delimit Scope agmind_scope with agmind.
Open Scope Z_scope.
Open Scope agmind_scope.

(** ** Results: a Python call either returns or raises *)

Inductive result (E A : Type) : Type :=
| Ok (a : A)
| Err (e : E).
Arguments Ok {E A} a.
Arguments Err {E A} e.

(** The built-in exception classes that the modelled code raises or catches. *)
Inductive py_exn := ValueError | TypeError | OverflowError.

#[export] Instance py_exn_eq_dec : EqDecision py_exn.
Proof. solve_decision. Defined.

Definition rbind {E A B} (r : result E A) (k : A -> result E B) : result E B :=
  match r with Ok a => k a | Err e => Err e end.

(** [guard b e] raises [e] unless [b] holds: the model of
    [if not b: raise e]. *)
Definition guard {E} (b : bool) (e : E) : result E unit :=
  if b then Ok tt else Err e.

(** [catch_with f r] re-raises every exception of [r] through [f]. *)
Definition catch_with {E F A} (f : E -> F) (r : result E A) : result F A :=
  match r with Ok a => Ok a | Err e => Err (f e) end.

Definition of_option {E A} (e : E) (o : option A) : result E A :=
  match o with Some a => Ok a | None => Err e end.

Definition is_ok {E A} (r : result E A) : bool :=
  match r with Ok _ => true | Err _ => false end.

Notation "'let*' x := r 'in' k" := (rbind r (fun x => k))
  (at level 10, x pattern, r at level 100, k at level 200) : agmind_scope.
Notation "r ;;* k" := (rbind r (fun _ => k))
  (at level 199, right associativity) : agmind_scope.

Section MapRes.
Context {E A B : Type} (f : A -> result E B).

(** Evaluate [f] on each element in order; the first exception wins. *)
Fixpoint map_res (l : list A) : result E (list B) :=
  match l with
  | [] => Ok []
  | x :: l => let* y := f x in let* ys := map_res l in Ok (y :: ys)
  end.
End MapRes.

Lemma rbind_ok {E A B} (r : result E A) (k : A -> result E B) b :
  rbind r k = Ok b <-> exists a, r = Ok a /\ k a = Ok b.
Proof.
  destruct r as [a|e]; simpl; split; [by eauto | by intros (? & [= <-] & ?) | done
  | by intros (? & ? & ?)].
Qed.

Lemma guard_ok {E} b (e : E) x : guard b e = Ok x <-> b = true.
Proof. unfold guard. destruct b, x; naive_solver. Qed.

Lemma catch_ok {E F A} (f : E -> F) (r : result E A) a :
  catch_with f r = Ok a <-> r = Ok a.
Proof. destruct r; simpl; naive_solver. Qed.

Lemma of_option_ok {E A} (e : E) (o : option A) a :
  of_option e o = Ok a <-> o = Some a.
Proof. destruct o; simpl; naive_solver. Qed.

Lemma map_res_ok {E A B} (f : A -> result E B) l ys :
  map_res f l = Ok ys <-> Forall2 (fun x y => f x = Ok y) l ys.
Proof.
  revert ys. induction l as [|x l IH]; intros ys; simpl.
  - split; [intros [= <-]; constructor | intros H; by inversion H].
  - rewrite rbind_ok. split.
    + intros (y & Hy & H). apply rbind_ok in H as (zs & Hz & [= <-]).
      constructor; [done|]. by apply IH.
    + intros H. inversion H as [|? y ? zs Hy Hz]; subst.
      exists y. split; [done|]. apply IH in Hz. by rewrite Hz.
Qed.

(** Invert every [Ok] equation built from the monad in the context. *)
Ltac inv_ok :=
  repeat match goal with
  | H : Ok _ = Ok _ |- _ => injection H as H
  | H : Ok _ = Err _ |- _ => discriminate H
  | H : Err _ = Ok _ |- _ => discriminate H
  | H : Some _ = Some _ |- _ => injection H as H
  | H : Some _ = None |- _ => discriminate H
  | H : None = Some _ |- _ => discriminate H
  | H : rbind _ _ = Ok _ |- _ =>
      let x := fresh "x" in let H1 := fresh "Hr" in
      apply rbind_ok in H as (x & H1 & H)
  | H : guard _ _ = Ok _ |- _ => apply guard_ok in H
  | H : catch_with _ _ = Ok _ |- _ => apply catch_ok in H
  | H : of_option _ _ = Ok _ |- _ => apply of_option_ok in H
  end.

(** Split boolean conjunctions and reflect decisions in the context. *)
Ltac breflect :=
  repeat match goal with
  | H : andb _ _ = true |- _ => apply andb_true_iff in H as [? ?]
  | H : orb _ _ = false |- _ => apply orb_false_iff in H as [? ?]
  | H : negb _ = true |- _ => apply negb_true_iff in H
  | H : negb _ = false |- _ => apply negb_false_iff in H
  | H : bool_decide _ = true |- _ => apply bool_decide_eq_true in H
  | H : bool_decide _ = false |- _ => apply bool_decide_eq_false in H
  | H : Z.leb _ _ = true |- _ => apply Z.leb_le in H
  | H : Z.leb _ _ = false |- _ => apply Z.leb_gt in H
  | H : Z.ltb _ _ = true |- _ => apply Z.ltb_lt in H
  | H : Z.ltb _ _ = false |- _ => apply Z.ltb_ge in H
  | H : Z.eqb _ _ = true |- _ => apply Z.eqb_eq in H
  | H : Z.eqb _ _ = false |- _ => apply Z.eqb_neq in H
  end.

Create HintDb agmind.
#[export] Hint Resolve Z.mod_pos_bound : agmind.

(** A decidable property of the integers below a bound, checked by evaluation. *)
Lemma forallb_below (P : Z -> bool) (n : nat) (z : Z) :
  0 <= z < Z.of_nat n -> forallb (fun k => P (Z.of_nat k)) (seq 0 n) = true -> P z = true.
Proof.
  intros Hz H. rewrite forallb_forall in H. specialize (H (Z.to_nat z)).
  rewrite Z2Nat.id in H by lia. apply H, in_seq. lia.
Qed.

Lemma decide_below (P : Z -> Prop) `{forall z, Decision (P z)} (n : nat) (z : Z) :
  0 <= z < Z.of_nat n ->
  forallb (fun k => bool_decide (P (Z.of_nat k))) (seq 0 n) = true -> P z.
Proof.
  intros Hz Hall.
  pose proof (forallb_below (fun z => bool_decide (P z)) n z Hz Hall) as E.
  by apply bool_decide_eq_true in E.
Qed.

(** ** Machine bounds *)

Definition MAX_UINT64 : Z := 2 ^ 64 - 1.
Definition MIN_INT64 : Z := - 2 ^ 63.
Definition MAX_INT64 : Z := 2 ^ 63 - 1.

Definition is_uint64 (z : Z) : bool := (0 <=? z) && (z <=? MAX_UINT64).

(** ** Python strings: sequences of code points *)

Abbreviation pystr := (list Z).
Abbreviation bytes := (list Byte.byte).

(** ASCII literals as Python strings. *)
Definition u (s : string) : pystr :=
  map (fun c => Z.of_N (Ascii.N_of_ascii c)) (String.list_ascii_of_string s).

Definition byte_val (b : Byte.byte) : Z := Z.of_N (Byte.to_N b).

Definition byte_of (z : Z) : Byte.byte :=
  match Byte.of_N (Z.to_N (z mod 256)) with Some b => b | None => Byte.x00 end.

(** Byte-string literals such as [b"AGF1"]. *)
Definition bstr (s : string) : bytes := String.list_byte_of_string s.

#[export] Instance byte_eq_dec : EqDecision Byte.byte := Byte.byte_eq_dec.

Lemma byte_val_range x : 0 <= byte_val x < 256.
Proof.
  unfold byte_val. split; [apply N2Z.is_nonneg|].
  pose proof (Byte.to_N_bounded x). lia.
Qed.

Lemma byte_of_val x : byte_of (byte_val x) = x.
Proof.
  unfold byte_of. pose proof (byte_val_range x).
  rewrite Z.mod_small by lia. unfold byte_val.
  by rewrite N2Z.id, Byte.of_to_N.
Qed.

Lemma byte_val_of z : byte_val (byte_of z) = z mod 256.
Proof.
  unfold byte_of. pose proof (Z.mod_pos_bound z 256 eq_refl).
  destruct (Byte.of_N (Z.to_N (z mod 256))) eqn:E.
  - apply Byte.to_of_N in E. unfold byte_val. rewrite E. lia.
  - apply Byte.of_N_None_iff in E. lia.
Qed.

Lemma byte_val_inj x y : byte_val x = byte_val y -> x = y.
Proof. intros H. by rewrite <- (byte_of_val x), H, byte_of_val. Qed.

(** ** Big-endian integers: [int.to_bytes(n, "big")] and [struct] [">I"] *)

Fixpoint be_encode (n : nat) (z : Z) : bytes :=
  match n with
  | O => []
  | S n => byte_of (z / 256 ^ Z.of_nat n) :: be_encode n z
  end.

Definition be_decode (l : bytes) : Z :=
  fold_left (fun acc x => acc * 256 + byte_val x) l 0.

Lemma be_encode_length n z : length (be_encode n z) = n.
Proof. induction n; simpl; congruence. Qed.

Lemma be_decode_acc l acc :
  fold_left (fun acc x => acc * 256 + byte_val x) l acc
  = acc * 256 ^ Z.of_nat (length l) + be_decode l.
Proof.
  unfold be_decode. revert acc. induction l as [|x l IH]; intros acc.
  - simpl. lia.
  - cbn [fold_left length]. rewrite IH, (IH (0 * 256 + byte_val x)).
    rewrite Nat2Z.inj_succ, Z.pow_succ_r by lia. ring.
Qed.

Lemma be_decode_encode n z :
  0 <= z < 256 ^ Z.of_nat n -> be_decode (be_encode n z) = z.
Proof.
  intros Hz.
  enough (Hg : forall z, 0 <= z -> be_decode (be_encode n z) = z mod 256 ^ Z.of_nat n).
  { rewrite Hg by lia. by apply Z.mod_small. }
  clear z Hz. induction n as [|n IH]; intros z Hz.
  - cbn. by rewrite Z.mod_1_r.
  - cbn [be_encode]. unfold be_decode. cbn [fold_left].
    rewrite be_decode_acc, IH, be_encode_length, byte_val_of by lia.
    rewrite Nat2Z.inj_succ, Z.pow_succ_r by lia.
    rewrite (Z.mul_comm 256), Z.rem_mul_r by lia. lia.
Qed.

Lemma be_decode_range l : 0 <= be_decode l < 256 ^ Z.of_nat (length l).
Proof.
  induction l as [|x l IH]; [cbn; lia|].
  unfold be_decode. cbn [fold_left length].
  rewrite be_decode_acc, Nat2Z.inj_succ, Z.pow_succ_r by lia.
  pose proof (byte_val_range x). nia.
Qed.

Lemma be_encode_decode l : be_encode (length l) (be_decode l) = l.
Proof.
  induction l as [|x l IH]; [done|].
  unfold be_decode. cbn [be_encode length fold_left].
  rewrite be_decode_acc. pose proof (be_decode_range l) as Hr.
  pose proof (byte_val_range x) as Hx.
  set (m := 256 ^ Z.of_nat (length l)) in *.
  assert (Hsplit : ((0 * 256 + byte_val x) * m + be_decode l) / m = byte_val x).
  { rewrite Z.div_add_l by lia. rewrite Z.div_small by lia. lia. }
  rewrite Hsplit, byte_of_val. f_equal.
  transitivity (be_encode (length l) (be_decode l)); [|exact IH].
  clear IH Hsplit.
  enough (Hg : forall n z k, (n <= length l)%nat ->
            be_encode n (k * m + z) = be_encode n z) by (by apply Hg).
  intros n z k. induction n as [|n IHn]; intros Hn; [done|].
  cbn [be_encode]. f_equal; [|apply IHn; lia].
  apply byte_val_inj. rewrite !byte_val_of.
  replace m with (256 ^ Z.of_nat (length l - n) * 256 ^ Z.of_nat n).
  2:{ rewrite <- Z.pow_add_r by lia. unfold m. f_equal. lia. }
  rewrite Z.mul_assoc, Z.div_add_l by lia.
  replace (length l - n)%nat with (S (length l - S n)) by lia.
  rewrite Nat2Z.inj_succ, Z.pow_succ_r by lia.
  replace (k * (256 * 256 ^ Z.of_nat (length l - S n)))
    with ((k * 256 ^ Z.of_nat (length l - S n)) * 256) by ring.
  by rewrite Z.add_comm, Z.mod_add by lia.
Qed.

Lemma be_encode_decode_n n l : length l = n -> be_encode n (be_decode l) = l.
Proof. intros <-. apply be_encode_decode. Qed.

(** ** Ordering of Python strings and [sorted] *)

(** Code-point lexicographic order, the [<=] of Python's [str]. *)
Fixpoint str_leb (s t : pystr) : bool :=
  match s, t with
  | [], _ => true
  | _ :: _, [] => false
  | x :: s, y :: t => if x <? y then true else if x =? y then str_leb s t else false
  end.

Definition str_ltb (s t : pystr) : bool := negb (str_leb t s).

Lemma str_leb_refl s : str_leb s s = true.
Proof. induction s as [|x s IH]; simpl; [done|]. by rewrite Z.ltb_irrefl, Z.eqb_refl. Qed.

Lemma str_leb_total s t : str_leb s t = true \/ str_leb t s = true.
Proof.
  revert t. induction s as [|x s IH]; intros [|y t]; simpl; auto.
  destruct (Z.ltb_spec x y), (Z.ltb_spec y x), (Z.eqb_spec x y), (Z.eqb_spec y x);
    auto; lia.
Qed.

Lemma str_leb_antisym s t : str_leb s t = true -> str_leb t s = true -> s = t.
Proof.
  revert t. induction s as [|x s IH]; intros [|y t]; simpl; try done.
  destruct (Z.ltb_spec x y), (Z.ltb_spec y x), (Z.eqb_spec x y), (Z.eqb_spec y x);
    try done; try lia; subst. intros. f_equal. by apply IH.
Qed.

Lemma str_leb_trans s t w :
  str_leb s t = true -> str_leb t w = true -> str_leb s w = true.
Proof.
  revert t w. induction s as [|x s IH]; intros [|y t] [|z w]; simpl; try done.
  destruct (Z.ltb_spec x y), (Z.ltb_spec y z), (Z.ltb_spec x z),
    (Z.eqb_spec x y), (Z.eqb_spec y z), (Z.eqb_spec x z); try done; try lia.
  apply IH.
Qed.

Section PySort.
Context {A : Type} (leb : A -> A -> bool).

Fixpoint sort_insert (x : A) (l : list A) : list A :=
  match l with
  | [] => [x]
  | y :: l' => if leb x y then x :: l else y :: sort_insert x l'
  end.

(** Stable insertion sort: the list [sorted] returns, for an order given as
    a boolean [<=]. *)
Definition py_sort (l : list A) : list A := foldr sort_insert [] l.

Definition LeB (x y : A) : Prop := leb x y = true.

Lemma sort_insert_perm x l : sort_insert x l ≡ₚ x :: l.
Proof.
  induction l as [|y l IH]; simpl; [done|].
  destruct (leb x y); [done|]. rewrite IH. apply Permutation_swap.
Qed.

Lemma py_sort_perm l : py_sort l ≡ₚ l.
Proof. induction l as [|x l IH]; simpl; [done|]. by rewrite sort_insert_perm, IH. Qed.

Context (Htot : forall x y, leb x y = true \/ leb y x = true)
        (Htrans : forall x y z, leb x y = true -> leb y z = true -> leb x z = true).

Lemma sort_insert_sorted x l :
  StronglySorted LeB l -> StronglySorted LeB (sort_insert x l).
Proof.
  induction 1 as [|y l Hs IH Hy]; simpl; [repeat constructor|].
  destruct (leb x y) eqn:E.
  - constructor; [by constructor|]. constructor; [done|].
    eapply Forall_impl; [exact Hy|]. intros z Hz. by eapply Htrans.
  - constructor; [done|]. rewrite sort_insert_perm. constructor; [|done].
    destruct (Htot x y); [congruence|done].
Qed.

Lemma py_sort_sorted l : StronglySorted LeB (py_sort l).
Proof. induction l; simpl; [constructor|]. by apply sort_insert_sorted. Qed.

Lemma py_sort_id l : StronglySorted LeB l -> py_sort l = l.
Proof.
  induction 1 as [|x l Hs IH Hx]; simpl; [done|]. rewrite IH.
  destruct l as [|y l]; simpl; [done|].
  by inversion Hx as [|? ? Hxy]; subst; rewrite Hxy.
Qed.
End PySort.

(** [sorted(xs)] and [set(xs)] for strings. *)
Definition sort_str (l : list pystr) : list pystr := py_sort str_leb l.

Lemma sort_str_perm l : sort_str l ≡ₚ l.
Proof. apply py_sort_perm. Qed.

Lemma sort_str_sorted l : StronglySorted (LeB str_leb) (sort_str l).
Proof. apply py_sort_sorted; [apply str_leb_total | apply str_leb_trans]. Qed.

(** [values == sorted(set(values))]: the check behind every "unique and sorted"
    field. *)
Definition is_sorted_unique (l : list pystr) : bool :=
  bool_decide (l = sort_str (remove_dups l)).

Lemma is_sorted_unique_spec l :
  is_sorted_unique l = true <-> NoDup l /\ StronglySorted (LeB str_leb) l.
Proof.
  unfold is_sorted_unique. rewrite bool_decide_eq_true. split.
  - intros H. rewrite H. split; [|apply sort_str_sorted].
    rewrite sort_str_perm. apply NoDup_remove_dups.
  - intros [Hnd Hs].
    assert (Hrd : remove_dups l = l).
    { clear Hs. induction Hnd as [|x l Hx Hnd IH]; [done|]. simpl.
      rewrite IH. by case_decide. }
    rewrite Hrd. symmetry. by apply py_sort_id.
Qed.

(** ** Hexadecimal and decimal text *)

Definition hex_char (n : Z) : Z := if n <? 10 then 48 + n else 87 + n.

(** [bytes.hex()] *)
Definition hex_encode (l : bytes) : pystr :=
  flat_map (fun x => [hex_char (byte_val x / 16); hex_char (byte_val x mod 16)]) l.

Definition hex_value (c : Z) : option Z :=
  if (48 <=? c) && (c <=? 57) then Some (c - 48)
  else if (97 <=? c) && (c <=? 102) then Some (c - 87)
  else if (65 <=? c) && (c <=? 70) then Some (c - 55)
  else None.

Definition is_ascii_space (c : Z) : bool := ((9 <=? c) && (c <=? 13)) || (c =? 32).

(** [bytes.fromhex]: pairs of digits, ASCII white space allowed between pairs. *)
Fixpoint hex_decode (s : pystr) : option bytes :=
  match s with
  | [] => Some []
  | c :: s' =>
      if is_ascii_space c then hex_decode s'
      else match s' with
           | [] => None
           | d :: s'' =>
               match hex_value c, hex_value d, hex_decode s'' with
               | Some h, Some l, Some rest => Some (byte_of (16 * h + l) :: rest)
               | _, _, _ => None
               end
           end
  end.

(** Lowercase hexadecimal digit, the class [[0-9a-f]]. *)
Definition is_hex_lower (c : Z) : bool :=
  ((48 <=? c) && (c <=? 57)) || ((97 <=? c) && (c <=? 102)).

Definition is_digit (c : Z) : bool := (48 <=? c) && (c <=? 57).

(** [^[0-9a-f]{n}$] used with [fullmatch]. *)
Definition is_hex (n : nat) (s : pystr) : bool :=
  bool_decide (length s = n) && forallb is_hex_lower s.

(** [prefix[0-9a-f]{n}] used with [fullmatch]. *)
Definition is_prefixed_hex (prefix : string) (n : nat) (s : pystr) : bool :=
  bool_decide (take (length (u prefix)) s = u prefix)
  && is_hex n (drop (length (u prefix)) s).

Lemma hex_char_lower n : 0 <= n < 16 -> is_hex_lower (hex_char n) = true.
Proof.
  intros H. unfold is_hex_lower, hex_char.
  destruct (Z.ltb_spec n 10); apply orb_true_iff; [left|right];
    apply andb_true_iff; split; apply Z.leb_le; lia.
Qed.

Lemma hex_value_char n : 0 <= n < 16 -> hex_value (hex_char n) = Some n.
Proof.
  intros H. exact (decide_below (fun n => hex_value (hex_char n) = Some n) 16 n H eq_refl).
Qed.

Lemma hex_char_not_space n : 0 <= n < 16 -> is_ascii_space (hex_char n) = false.
Proof.
  intros H. unfold is_ascii_space, hex_char.
  destruct (Z.ltb_spec n 10); apply orb_false_iff; split;
    rewrite ?andb_false_iff, ?Z.leb_gt, ?Z.eqb_neq; lia.
Qed.

Lemma hex_encode_length l : length (hex_encode l) = (2 * length l)%nat.
Proof. induction l as [|x l IH]; simpl; [done|]. rewrite IH. lia. Qed.

Lemma hex_encode_is_hex l : is_hex (2 * length l) (hex_encode l) = true.
Proof.
  unfold is_hex. rewrite hex_encode_length, bool_decide_eq_true_2 by done. simpl.
  induction l as [|x l IH]; simpl; [done|]. pose proof (byte_val_range x).
  rewrite !hex_char_lower; [done| |].
  - apply Z.mod_pos_bound. lia.
  - split; [apply Z.div_pos; lia | apply Z.div_lt_upper_bound; lia].
Qed.

(** [bytes.fromhex(x.hex()) == x]. *)
Lemma hex_decode_encode l : hex_decode (hex_encode l) = Some l.
Proof.
  induction l as [|x l IH]; [done|]. cbn [hex_encode flat_map app].
  change (flat_map _ l) with (hex_encode l).
  pose proof (byte_val_range x).
  assert (0 <= byte_val x / 16 < 16).
  { split; [apply Z.div_pos; lia | apply Z.div_lt_upper_bound; lia]. }
  pose proof (Z.mod_pos_bound (byte_val x) 16 eq_refl).
  cbn [hex_decode]. rewrite hex_char_not_space, !hex_value_char, IH by lia.
  do 2 f_equal. rewrite <- Z.div_mod by lia. apply byte_of_val.
Qed.

Lemma hex_encode_inj l1 l2 : hex_encode l1 = hex_encode l2 -> l1 = l2.
Proof.
  intros H. apply (f_equal hex_decode) in H. rewrite !hex_decode_encode in H.
  congruence.
Qed.
