(* ===== verification/Sha256.v ===== *)
(** * SHA-256

    The standard library's [hashlib.sha256], executable, so that every digest the
    Core computes is a concrete function of the model and no property of the hash
    has to be assumed.  Only its output length is ever needed; statements about
    distinct inputs are phrased with an explicit [collision]. *)

From S2P Require Import Prelude.

Local Open Scope Z_scope.
Local Open Scope agmind_scope.

(** 32-bit words: the low bits of an integer *)
Definition MASK32 : Z := 0xFFFFFFFF.
Definition add32 (x y : Z) : Z := Z.land (x + y) MASK32.
Definition rotr32 (n x : Z) : Z :=
  Z.lor (Z.shiftr x n) (Z.land (Z.shiftl x (32 - n)) MASK32).
Definition not32 (x : Z) : Z := Z.lxor x MASK32.

(** The round constants and the initial state are the first 32 bits of the
    fractional parts of the cube and square roots of the first primes. *)
Definition is_prime (n : nat) : bool :=
  forallb (fun d => negb (Nat.eqb (Nat.modulo n d) 0)) (seq 2 (n - 2)).

Definition first_primes : list Z :=
  Eval vm_compute in map Z.of_nat (List.filter is_prime (seq 2 310)).

(** The integer cube root of [n], bit by bit from [2^b]. *)
Fixpoint cbrt_from (b : nat) (n r : Z) : Z :=
  let r' := r + 2 ^ Z.of_nat b in
  let r := if r' ^ 3 <=? n then r' else r in
  match b with O => r | S b => cbrt_from b n r end.

Definition sha_k : list Z :=
  Eval vm_compute in map (fun p => cbrt_from 35 (p * 2 ^ 96) 0 mod 2 ^ 32) first_primes.

Record sha_state := ShaState {
  sa : Z; sb : Z; sc : Z; sd : Z; se : Z; sf : Z; sg : Z; sh : Z }.

Definition sha_init : sha_state :=
  Eval vm_compute in
    let h i := Z.sqrt (nth i first_primes 0 * 2 ^ 64) mod 2 ^ 32 in
    ShaState (h 0%nat) (h 1%nat) (h 2%nat) (h 3%nat) (h 4%nat) (h 5%nat) (h 6%nat) (h 7%nat).

Definition sha_round (s : sha_state) (kw : Z) : sha_state :=
  let s1 := Z.lxor (Z.lxor (rotr32 6 (se s)) (rotr32 11 (se s))) (rotr32 25 (se s)) in
  let ch := Z.lxor (Z.land (se s) (sf s)) (Z.land (not32 (se s)) (sg s)) in
  let t1 := add32 (add32 (add32 (sh s) s1) ch) kw in
  let s0 := Z.lxor (Z.lxor (rotr32 2 (sa s)) (rotr32 13 (sa s))) (rotr32 22 (sa s)) in
  let mj := Z.lxor (Z.lxor (Z.land (sa s) (sb s)) (Z.land (sa s) (sc s)))
                   (Z.land (sb s) (sc s)) in
  let t2 := add32 s0 mj in
  ShaState (add32 t1 t2) (sa s) (sb s) (sc s) (add32 (sd s) t1) (se s) (sf s) (sg s).

(** The message schedule, kept newest first. *)
Fixpoint sha_extend (n : nat) (w : list Z) : list Z :=
  match n with
  | O => w
  | S n =>
      let w15 := nth 14 w 0 in
      let w2 := nth 1 w 0 in
      let g0 := Z.lxor (Z.lxor (rotr32 7 w15) (rotr32 18 w15)) (Z.shiftr w15 3) in
      let g1 := Z.lxor (Z.lxor (rotr32 17 w2) (rotr32 19 w2)) (Z.shiftr w2 10) in
      sha_extend n (add32 (add32 (nth 15 w 0) g0) (add32 (nth 6 w 0) g1) :: w)
  end.

Definition sha_compress (s : sha_state) (block : list Z) : sha_state :=
  let w := rev (sha_extend 48 (rev block)) in
  let r := foldl sha_round s (zip_with add32 sha_k w) in
  ShaState (add32 (sa s) (sa r)) (add32 (sb s) (sb r)) (add32 (sc s) (sc r))
           (add32 (sd s) (sd r)) (add32 (se s) (se r)) (add32 (sf s) (sf r))
           (add32 (sg s) (sg r)) (add32 (sh s) (sh r)).

Definition sha_pad (m : bytes) : bytes :=
  let n := Z.of_nat (length m) in
  m ++ byte_of 128 :: repeat (byte_of 0) (Z.to_nat ((55 - n) mod 64))
    ++ be_encode 8 (8 * n).

Fixpoint be_words (n : nat) (l : bytes) : list Z :=
  match n with
  | O => []
  | S n => be_decode (take 4 l) :: be_words n (drop 4 l)
  end.

Fixpoint sha_blocks (n : nat) (s : sha_state) (l : bytes) : sha_state :=
  match n with
  | O => s
  | S n => sha_blocks n (sha_compress s (be_words 16 l)) (drop 64 l)
  end.

Definition sha256 (m : bytes) : bytes :=
  let p := sha_pad m in
  let s := sha_blocks (length p / 64) sha_init p in
  flat_map (be_encode 4) [sa s; sb s; sc s; sd s; se s; sf s; sg s; sh s].

#[global] Arguments sha256 : simpl never.

(** [hashlib.sha256(m).hexdigest()] *)
Definition sha256_hex (m : bytes) : pystr := hex_encode (sha256 m).

(** Two different inputs with the same digest. *)
Definition collision (x y : bytes) : Prop := x <> y /\ sha256 x = sha256 y.

Lemma sha256_length m : length (sha256 m) = 32%nat.
Proof. unfold sha256. cbn [flat_map]. by rewrite !length_app, !be_encode_length. Qed.

Lemma sha256_hex_is_hex m : is_hex 64 (sha256_hex m) = true.
Proof.
  unfold sha256_hex. pose proof (hex_encode_is_hex (sha256 m)) as H.
  by rewrite sha256_length in H.
Qed.

Lemma sha256_hex_length m : length (sha256_hex m) = 64%nat.
Proof. unfold sha256_hex. by rewrite hex_encode_length, sha256_length. Qed.

(** Equal digests come from equal inputs, or exhibit a collision. *)
Lemma sha256_hex_inj x y : sha256_hex x = sha256_hex y -> x = y \/ collision x y.
Proof.
  intros H. apply hex_encode_inj in H.
  destruct (decide (x = y)); [by left | by right].
Qed.

Example sha256_abc :
  sha256_hex (bstr "abc")
  = u "ba7816bf8f01cfea414140de5dae2223b00361a396177a9cb410ff61f20015ad".
Proof. vm_compute. reflexivity. Qed.

Example sha256_two_blocks :
  sha256_hex (bstr "abcdbcdecdefdefgefghfghighijhijkijkljklmklmnlmnomnopnopq")
  = u "248d6a61d20638b8e5c026930c3e6039a33ce45964ff2167f6ecedd419db06c1".
Proof. vm_compute. reflexivity. Qed.

(** Proofs never look inside the digest; evaluation by [vm_compute] still does. *)
#[global] Strategy opaque [sha256].
