(* ===== verification/CanonicalJson.v ===== *)
(** * Canonical JSON (core/agmind_immune/canonicaljson.py, lines 18-107)

    The value type that [_encode] walks, the UTF-8 codec of the standard library,
    and the canonical encoder itself: sorted keys, no white space, the seven short
    escapes, integers in [-2^63, 2^64), no floats, nesting depth at most 64. *)

From S2P Require Import Prelude.
From Stdlib Require Import SpecFloat.

Local Open Scope Z_scope.
Local Open Scope agmind_scope.

(** ** Values *)

(** The Python values a JSON document is built from.  [JArr] stands for a list or
    a tuple, [JObj] for a mapping with string keys in insertion order. *)
#[local] Unset Elimination Schemes.
Inductive json : Type :=
| JNull
| JBool (x : bool)
| JInt (z : Z)
| JFloat (f : spec_float)
| JStr (s : pystr)
| JArr (l : list json)
| JObj (m : list (pystr * json)).
#[local] Set Elimination Schemes.

Section JsonInd.
Context (P : json -> Prop)
  (Hnull : P JNull) (Hbool : forall x, P (JBool x)) (Hint : forall z, P (JInt z))
  (Hfloat : forall f, P (JFloat f)) (Hstr : forall s, P (JStr s))
  (Harr : forall l, Forall P l -> P (JArr l))
  (Hobj : forall m, Forall (fun kv => P (snd kv)) m -> P (JObj m)).

(** Structural induction that reaches through the two containers. *)
Fixpoint json_nested_ind (v : json) : P v :=
  match v with
  | JNull => Hnull
  | JBool x => Hbool x
  | JInt z => Hint z
  | JFloat f => Hfloat f
  | JStr s => Hstr s
  | JArr l =>
      Harr l ((fix go l : Forall P l :=
        match l with
        | [] => Forall_nil_2 P
        | x :: l => Forall_cons_2 P x l (json_nested_ind x) (go l)
        end) l)
  | JObj m =>
      Hobj m ((fix go m : Forall (fun kv => P (snd kv)) m :=
        match m with
        | [] => Forall_nil_2 _
        | kv :: m =>
            Forall_cons_2 (fun kv => P (snd kv)) kv m (json_nested_ind (snd kv)) (go m)
        end) m)
  end.
End JsonInd.

(** ** UTF-8 *)

Definition is_surrogate (c : Z) : bool := (0xD800 <=? c) && (c <=? 0xDFFF).

(** [char.encode("utf-8", "strict")] *)
Definition utf8_char (c : Z) : option bytes :=
  if c <? 0 then None
  else if c <? 0x80 then Some [byte_of c]
  else if c <? 0x800 then
    Some [byte_of (0xC0 + c / 64); byte_of (0x80 + c mod 64)]
  else if is_surrogate c then None
  else if c <? 0x10000 then
    Some [byte_of (0xE0 + c / 4096); byte_of (0x80 + c / 64 mod 64);
          byte_of (0x80 + c mod 64)]
  else if c <? 0x110000 then
    Some [byte_of (0xF0 + c / 262144); byte_of (0x80 + c / 4096 mod 64);
          byte_of (0x80 + c / 64 mod 64); byte_of (0x80 + c mod 64)]
  else None.

Fixpoint utf8_encode (s : pystr) : option bytes :=
  match s with
  | [] => Some []
  | c :: s =>
      match utf8_char c, utf8_encode s with
      | Some h, Some t => Some (h ++ t)
      | _, _ => None
      end
  end.

Definition is_cont (x : Byte.byte) : bool :=
  (0x80 <=? byte_val x) && (byte_val x <=? 0xBF).

Definition tail6 (x : Byte.byte) : Z := byte_val x - 0x80.

(** [raw.decode("utf-8", "strict")]: overlong forms, surrogates and values above
    U+10FFFF are rejected. *)
Fixpoint utf8_decode (l : bytes) : option pystr :=
  match l with
  | [] => Some []
  | x0 :: l =>
      let v0 := byte_val x0 in
      if v0 <? 0x80 then cons v0 <$> utf8_decode l
      else if (0xC2 <=? v0) && (v0 <=? 0xDF) then
        match l with
        | x1 :: l =>
            if is_cont x1 then cons ((v0 - 0xC0) * 64 + tail6 x1) <$> utf8_decode l
            else None
        | _ => None
        end
      else if (0xE0 <=? v0) && (v0 <=? 0xEF) then
        match l with
        | x1 :: x2 :: l =>
            let c := (v0 - 0xE0) * 4096 + tail6 x1 * 64 + tail6 x2 in
            if is_cont x1 && is_cont x2 && (0x800 <=? c) && negb (is_surrogate c)
            then cons c <$> utf8_decode l else None
        | _ => None
        end
      else if (0xF0 <=? v0) && (v0 <=? 0xF4) then
        match l with
        | x1 :: x2 :: x3 :: l =>
            let c := (v0 - 0xF0) * 262144 + tail6 x1 * 4096 + tail6 x2 * 64 + tail6 x3 in
            if is_cont x1 && is_cont x2 && is_cont x3 && (0x10000 <=? c) && (c <=? 0x10FFFF)
            then cons c <$> utf8_decode l else None
        | _ => None
        end
      else None
  end.

(** ** Decimal integers: [str(int)] *)

Fixpoint dec_digits (fuel : nat) (n : Z) : pystr :=
  match fuel with
  | O => []
  | S fuel => if n <? 10 then [48 + n] else dec_digits fuel (n / 10) ++ [48 + n mod 10]
  end.

Definition dec_nonneg (n : Z) : pystr := dec_digits (S (Z.to_nat (Z.log2 n))) n.

Definition str_of_int (z : Z) : pystr :=
  if z <? 0 then 45 :: dec_nonneg (- z) else dec_nonneg z.

(** ** The encoder *)

Definition MIN_CANONICAL_INTEGER : Z := - 2 ^ 63.
Definition MAX_CANONICAL_INTEGER : Z := 2 ^ 64 - 1.
Definition MAX_JSON_NESTING_DEPTH : Z := 64.

Definition hex4 (c : Z) : pystr :=
  [hex_char (c / 4096 mod 16); hex_char (c / 256 mod 16);
   hex_char (c / 16 mod 16); hex_char (c mod 16)].

Definition quote_char (c : Z) : pystr :=
  if c =? 8 then [92; 98]
  else if c =? 12 then [92; 102]
  else if c =? 10 then [92; 110]
  else if c =? 13 then [92; 114]
  else if c =? 9 then [92; 116]
  else if c =? 34 then [92; 34]
  else if c =? 92 then [92; 92]
  else if c <? 0x20 then [92; 117] ++ hex4 c
  else [c].

(** [_quote] *)
Definition quote (value : pystr) : result py_exn pystr :=
  let* _ := of_option ValueError (utf8_encode value) in
  guard (negb (existsb is_surrogate value)) ValueError;;*
  Ok ([34] ++ flat_map quote_char value ++ [34]).

(** [",".join(items)] *)
Fixpoint join_comma (items : list pystr) : pystr :=
  match items with
  | [] => []
  | [x] => x
  | x :: items => x ++ [44] ++ join_comma items
  end.

Definition key_leb {A} (x y : pystr * A) : bool := str_leb x.1 y.1.

(** [_encode] *)
Fixpoint encode (value : json) (container_depth : Z) : result py_exn pystr :=
  match value with
  | JNull => Ok (u "null")
  | JBool true => Ok (u "true")
  | JBool false => Ok (u "false")
  | JInt z =>
      guard ((MIN_CANONICAL_INTEGER <=? z) && (z <=? MAX_CANONICAL_INTEGER)) ValueError;;*
      Ok (str_of_int z)
  | JFloat _ => Err ValueError
  | JStr s => quote s
  | JArr l =>
      let depth := container_depth + 1 in
      guard (depth <=? MAX_JSON_NESTING_DEPTH) ValueError;;*
      let* items := map_res (fun item => encode item depth) l in
      Ok ([91] ++ join_comma items ++ [93])
  | JObj m =>
      let depth := container_depth + 1 in
      guard (depth <=? MAX_JSON_NESTING_DEPTH) ValueError;;*
      let* items := map_res (fun kv =>
        let* q := quote kv.1 in
        let* e := encode kv.2 depth in
        Ok (kv.1, q ++ [58] ++ e)) m in
      Ok ([123] ++ join_comma (map snd (py_sort key_leb items)) ++ [125])
  end.

(** [canonical_json] *)
Definition canonical_json (value : json) : result py_exn bytes :=
  let* text := encode value 0 in
  of_option ValueError (utf8_encode text).

(** ** The value a canonical text denotes: keys sorted at every level *)

Fixpoint canon (v : json) : json :=
  match v with
  | JArr l => JArr (map canon l)
  | JObj m => JObj (py_sort key_leb (map (fun kv => (kv.1, canon kv.2)) m))
  | _ => v
  end.

(** Mappings have pairwise distinct keys at every level, as Python dicts do. *)
Fixpoint unique_keys (v : json) : bool :=
  match v with
  | JArr l => forallb unique_keys l
  | JObj m => bool_decide (NoDup (map fst m)) && forallb (fun kv => unique_keys kv.2) m
  | _ => true
  end.

(** ** UTF-8 round trip *)

Lemma utf8_char_valid c h :
  utf8_char c = Some h -> 0 <= c < 0x110000 /\ is_surrogate c = false.
Proof.
  unfold utf8_char, is_surrogate.
  destruct (Z.ltb_spec c 0), (Z.ltb_spec c 0x80), (Z.ltb_spec c 0x800),
    (Z.leb_spec 0xD800 c), (Z.leb_spec c 0xDFFF), (Z.ltb_spec c 0x10000),
    (Z.ltb_spec c 0x110000); cbn; naive_solver lia.
Qed.

Lemma utf8_char_some c :
  0 <= c < 0x110000 -> is_surrogate c = false -> exists h, utf8_char c = Some h.
Proof.
  intros Hc Hs. unfold utf8_char. rewrite Hs.
  destruct (Z.ltb_spec c 0), (Z.ltb_spec c 0x80), (Z.ltb_spec c 0x800),
    (Z.ltb_spec c 0x10000), (Z.ltb_spec c 0x110000); eauto; lia.
Qed.

Lemma utf8_encode_app s t :
  utf8_encode (s ++ t) =
  match utf8_encode s, utf8_encode t with
  | Some x, Some y => Some (x ++ y) | _, _ => None end.
Proof.
  induction s as [|c s IH]; simpl; [by destruct (utf8_encode t)|].
  rewrite IH. destruct (utf8_char c), (utf8_encode s), (utf8_encode t); try done.
  by rewrite <- app_assoc.
Qed.

Definition valid_str (s : pystr) : Prop :=
  Forall (fun c => 0 <= c < 0x110000 /\ is_surrogate c = false) s.

Lemma utf8_encode_valid s l : utf8_encode s = Some l -> valid_str s.
Proof.
  revert l. induction s as [|c s IH]; intros l; simpl; [constructor|].
  destruct (utf8_char c) eqn:E, (utf8_encode s); try done. intros _.
  constructor; [by eapply utf8_char_valid | by eapply IH].
Qed.

Lemma utf8_encode_some s : valid_str s -> exists l, utf8_encode s = Some l.
Proof.
  induction 1 as [|c s [Hc Hs] _ [l IH]]; simpl; [by eauto|].
  destruct (utf8_char_some c Hc Hs) as [h ->]. rewrite IH. eauto.
Qed.

Lemma utf8_decode_char c h l :
  utf8_char c = Some h -> utf8_decode (h ++ l) = cons c <$> utf8_decode l.
Proof.
  intros H. pose proof (utf8_char_valid _ _ H) as [Hr Hs].
  unfold utf8_char in H. rewrite Hs in H.
  destruct (Z.ltb_spec c 0); [lia|].
  destruct (Z.ltb_spec c 0x80); [|destruct (Z.ltb_spec c 0x800);
    [|destruct (Z.ltb_spec c 0x10000); [|destruct (Z.ltb_spec c 0x110000); [|lia]]]];
    injection H as <-; cbn [app utf8_decode]; unfold is_cont, tail6;
    rewrite !byte_val_of.
  - rewrite Z.mod_small by lia. by rewrite (proj2 (Z.ltb_lt _ _)) by lia.
  - assert (Hq : 2 <= c / 64 < 32) by (split; [apply Z.div_le_lower_bound
      | apply Z.div_lt_upper_bound]; lia).
    pose proof (Z.mod_pos_bound c 64 eq_refl). pose proof (Z.div_mod c 64 ltac:(lia)).
    rewrite !(Z.mod_small _ 256) by lia.
    rewrite (proj2 (Z.ltb_ge _ _)) by lia.
    rewrite !(proj2 (Z.leb_le _ _)) by lia. cbn [andb].
    do 2 f_equal. lia.
  - assert (Hq : 0 <= c / 4096 < 16) by (split; [apply Z.div_pos
      | apply Z.div_lt_upper_bound]; lia).
    pose proof (Z.mod_pos_bound c 64 eq_refl). pose proof (Z.div_mod c 64 ltac:(lia)).
    pose proof (Z.mod_pos_bound (c / 64) 64 eq_refl).
    pose proof (Z.div_mod (c / 64) 64 ltac:(lia)) as Hd.
    rewrite Z.div_div in Hd by lia. change (64 * 64) with 4096 in Hd.
    rewrite !(Z.mod_small _ 256) by lia.
    rewrite (proj2 (Z.ltb_ge _ _)) by lia.
    rewrite (proj2 (Z.leb_gt (0xE0 + c / 4096) 0xDF)) by lia.
    rewrite andb_false_r.
    rewrite !(proj2 (Z.leb_le 0xE0 _)), !(proj2 (Z.leb_le _ 0xEF)) by lia.
    replace ((224 + c / 4096 - 224) * 4096 + (128 + (c / 64) mod 64 - 128) * 64
      + (128 + c mod 64 - 128)) with c by lia.
    rewrite Hs. by rewrite !(proj2 (Z.leb_le _ _)) by lia.
  - assert (Hq : 0 <= c / 262144 < 5) by (split; [apply Z.div_pos
      | apply Z.div_lt_upper_bound]; lia).
    pose proof (Z.mod_pos_bound c 64 eq_refl). pose proof (Z.div_mod c 64 ltac:(lia)).
    pose proof (Z.mod_pos_bound (c / 64) 64 eq_refl).
    pose proof (Z.div_mod (c / 64) 64 ltac:(lia)) as Hd.
    rewrite Z.div_div in Hd by lia. change (64 * 64) with 4096 in Hd.
    pose proof (Z.mod_pos_bound (c / 4096) 64 eq_refl).
    pose proof (Z.div_mod (c / 4096) 64 ltac:(lia)) as Hd'.
    rewrite Z.div_div in Hd' by lia. change (4096 * 64) with 262144 in Hd'.
    rewrite !(Z.mod_small _ 256) by lia.
    rewrite (proj2 (Z.ltb_ge _ _)) by lia.
    rewrite (proj2 (Z.leb_gt (0xF0 + c / 262144) 0xDF)) by lia.
    rewrite (proj2 (Z.leb_gt (0xF0 + c / 262144) 0xEF)) by lia.
    rewrite !andb_false_r.
    rewrite !(proj2 (Z.leb_le 0xF0 _)), !(proj2 (Z.leb_le _ 0xF4)) by lia.
    replace ((240 + c / 262144 - 240) * 262144 + (128 + (c / 4096) mod 64 - 128) * 4096
      + (128 + (c / 64) mod 64 - 128) * 64 + (128 + c mod 64 - 128)) with c by lia.
    by rewrite !(proj2 (Z.leb_le _ _)) by lia.
Qed.

Lemma utf8_decode_encode s l : utf8_encode s = Some l -> utf8_decode l = Some s.
Proof.
  revert l. induction s as [|c s IH]; intros l; simpl; [by intros [= <-]|].
  destruct (utf8_char c) as [h|] eqn:E, (utf8_encode s) as [t|] eqn:Es; try done.
  intros [= <-]. rewrite (utf8_decode_char _ _ _ E), (IH t eq_refl). done.
Qed.
