(* ===== verification/JsonDecode.v ===== *)
(** * Strict JSON decoding (core/agmind_immune/contracts.py, lines 68-172)

    [decode_strict] and its hooks, with the standard library's JSON scanner it
    drives.  The scanner is written with a fuel argument; [decode_json] supplies
    one more than the length of the text, and the round-trip theorem shows that
    this is enough for every canonical document. *)

From S2P Require Import Prelude CanonicalJson.

Local Open Scope Z_scope.
Local Open Scope agmind_scope.

(** ** Hooks *)

Definition starts_with_minus (token : pystr) : bool :=
  match token with c :: _ => c =? 45 | [] => false end.

Definition digits_value (s : pystr) : Z := fold_left (fun acc c => acc * 10 + (c - 48)) s 0.

(** [int(token)] on a token of the JSON integer grammar. *)
Definition int_of_token (token : pystr) : Z :=
  if starts_with_minus token then - digits_value (tail token) else digits_value token.

(** [_parse_integer] *)
Definition parse_integer (token : pystr) : result py_exn Z :=
  guard (negb (bool_decide (token = u "-0"))) ValueError;;*
  let negative := starts_with_minus token in
  let magnitude := if negative then tail token else token in
  let limit := if negative then str_of_int (- MIN_INT64) else str_of_int MAX_UINT64 in
  guard (negb (bool_decide (length limit < length magnitude)%nat
               || (bool_decide (length magnitude = length limit)
                   && str_ltb limit magnitude))) ValueError;;*
  Ok (int_of_token token).

(** [_unique_object] *)
Fixpoint unique_object (acc pairs : list (pystr * json))
    : result py_exn (list (pystr * json)) :=
  match pairs with
  | [] => Ok acc
  | (key, value) :: pairs =>
      guard (bool_decide (key ∉ map fst acc)) ValueError;;*
      unique_object (acc ++ [(key, value)]) pairs
  end.

Definition is_open (c : Z) : bool := (c =? 91) || (c =? 123).
Definition is_close (c : Z) : bool := (c =? 93) || (c =? 125).

(** [_validate_json_depth]: the loop over the text with its three variables. *)
Fixpoint depth_scan (depth : Z) (in_string escaped : bool) (text : pystr)
    : result py_exn unit :=
  match text with
  | [] => Ok tt
  | char :: text =>
      if in_string then
        if escaped then depth_scan depth true false text
        else if char =? 92 then depth_scan depth true true text
        else if char =? 34 then depth_scan depth false escaped text
        else depth_scan depth true escaped text
      else if char =? 34 then depth_scan depth true escaped text
      else if is_open char then
        guard (depth + 1 <=? MAX_JSON_NESTING_DEPTH) ValueError;;*
        depth_scan (depth + 1) false escaped text
      else if is_close char then depth_scan (depth - 1) false escaped text
      else depth_scan depth false escaped text
  end.

Definition validate_json_depth (text : pystr) : result py_exn unit :=
  depth_scan 0 false false text.

Definition check_str (s : pystr) : result py_exn unit :=
  guard (negb (existsb is_surrogate s)) ValueError;;*
  let* _ := of_option ValueError (utf8_encode s) in Ok tt.

(** [_validate_unicode] *)
Fixpoint validate_unicode (value : json) : result py_exn unit :=
  match value with
  | JStr s => check_str s
  | JArr l => let* _ := map_res validate_unicode l in Ok tt
  | JObj m =>
      let* _ := map_res (fun kv => check_str kv.1;;* validate_unicode kv.2) m in Ok tt
  | _ => Ok tt
  end.

(** ** The standard library's scanner *)

Definition is_ws (c : Z) : bool := (c =? 32) || (c =? 9) || (c =? 13) || (c =? 10).

Fixpoint skip_ws (t : pystr) : pystr :=
  match t with
  | c :: t' => if is_ws c then skip_ws t' else t
  | [] => []
  end.

Fixpoint span_digits (t : pystr) : pystr * pystr :=
  match t with
  | c :: t' =>
      if is_digit c then let '(d, r) := span_digits t' in (c :: d, r) else ([], t)
  | [] => ([], [])
  end.

Definition starts_digit (t : pystr) : bool :=
  match t with c :: _ => is_digit c | [] => false end.

(** A fraction or an exponent follows: the token is handed to [parse_float]. *)
Definition float_follows (t : pystr) : bool :=
  match t with
  | c :: t =>
      if c =? 46 then starts_digit t
      else if (c =? 101) || (c =? 69) then
        match t with
        | d :: t' => if (d =? 43) || (d =? 45) then starts_digit t' else is_digit d
        | [] => false
        end
      else false
  | [] => false
  end.

Definition scan_unsigned (t : pystr) : option (pystr * pystr) :=
  match t with
  | c :: t' =>
      if c =? 48 then Some ([48], t')
      else if is_digit c then Some (span_digits t)
      else None
  | [] => None
  end.

(** The fraction and the exponent of a number *)
Definition span_fraction (t : pystr) : pystr * pystr :=
  match t with
  | c :: t' =>
      if (c =? 46) && starts_digit t' then let '(d, r) := span_digits t' in (c :: d, r) else ([], t)
  | [] => ([], [])
  end.

Definition span_exponent (t : pystr) : pystr * pystr :=
  match t with
  | c :: t' =>
      if (c =? 101) || (c =? 69) then
        match t' with
        | d :: t'' =>
            if ((d =? 43) || (d =? 45)) && starts_digit t'' then
              let '(ds, r) := span_digits t'' in (c :: d :: ds, r)
            else if is_digit d then let '(ds, r) := span_digits t' in (c :: ds, r)
            else ([], t)
        | [] => ([], t)
        end
      else ([], t)
  | [] => ([], [])
  end.

Definition span_float (t : pystr) : pystr * pystr :=
  let '(fraction, t) := span_fraction t in
  let '(exponent, t) := span_exponent t in (fraction ++ exponent, t).

Definition hex4_value (a b c d : Z) : option Z :=
  match hex_value a, hex_value b, hex_value c, hex_value d with
  | Some x, Some y, Some z, Some w => Some (((x * 16 + y) * 16 + z) * 16 + w)
  | _, _, _, _ => None
  end.

Definition is_high (c : Z) : bool := (0xD800 <=? c) && (c <=? 0xDBFF).
Definition is_low (c : Z) : bool := (0xDC00 <=? c) && (c <=? 0xDFFF).

Definition short_escape (e : Z) : option Z :=
  if e =? 34 then Some 34
  else if e =? 92 then Some 92
  else if e =? 47 then Some 47
  else if e =? 98 then Some 8
  else if e =? 102 then Some 12
  else if e =? 110 then Some 10
  else if e =? 114 then Some 13
  else if e =? 116 then Some 9
  else None.

Definition push (c : Z) (r : option (pystr * pystr)) : option (pystr * pystr) :=
  match r with Some (s, rest) => Some (c :: s, rest) | None => None end.

(** The body of a string, after its opening quote. *)
Fixpoint scan_string (t : pystr) : option (pystr * pystr) :=
  match t with
  | [] => None
  | c :: t =>
      if c =? 34 then Some ([], t)
      else if c =? 92 then
        match t with
        | [] => None
        | e :: t =>
            if e =? 117 then
              match t with
              | h1 :: h2 :: h3 :: h4 :: t =>
                  match hex4_value h1 h2 h3 h4 with
                  | None => None
                  | Some x =>
                      match t with
                      | b1 :: b2 :: g1 :: g2 :: g3 :: g4 :: t' =>
                          if is_high x && (b1 =? 92) && (b2 =? 117) then
                            match hex4_value g1 g2 g3 g4 with
                            | None => None
                            | Some y =>
                                if is_low y
                                then push (0x10000 + (x - 0xD800) * 1024 + (y - 0xDC00))
                                       (scan_string t')
                                else push x (scan_string t)
                            end
                          else push x (scan_string t)
                      | _ => push x (scan_string t)
                      end
                  end
              | _ => None
              end
            else
              match short_escape e with
              | Some x => push x (scan_string t)
              | None => None
              end
        end
      else if c <? 0x20 then None
      else push c (scan_string t)
  end.

Fixpoint strip_prefix (p t : pystr) : option pystr :=
  match p, t with
  | [], _ => Some t
  | x :: p, y :: t => if x =? y then strip_prefix p t else None
  | _, _ => None
  end.

Definition scan_literal (p : string) (v : json) (t : pystr) : result py_exn (json * pystr) :=
  let* rest := of_option ValueError (strip_prefix (u p) t) in Ok (v, rest).

(** The hook for numbers with a fraction or an exponent *)
Section Scanner.
Variable parse_float : pystr -> result py_exn json.

Definition scan_number (t : pystr) : result py_exn (json * pystr) :=
  let negative := starts_with_minus t in
  let body := if negative then tail t else t in
  let* (digits, rest) := of_option ValueError (scan_unsigned body) in
  let token := if negative then 45 :: digits else digits in
  if float_follows rest then
    let '(suffix, rest) := span_float rest in
    let* v := parse_float (token ++ suffix) in Ok (v, rest)
  else let* z := parse_integer token in Ok (JInt z, rest).

Fixpoint scan_once (fuel : nat) (t : pystr) {struct fuel} : result py_exn (json * pystr) :=
  match fuel with
  | O => Err ValueError
  | S fuel =>
      match t with
      | [] => Err ValueError
      | c :: t' =>
          if c =? 34 then
            let* (s, rest) := of_option ValueError (scan_string t') in Ok (JStr s, rest)
          else if c =? 123 then
            match skip_ws t' with
            | [] => Err ValueError
            | d :: t'' =>
                if d =? 125 then let* m := unique_object [] [] in Ok (JObj m, t'')
                else
                  let* (pairs, rest) := scan_members fuel (skip_ws t') in
                  let* m := unique_object [] pairs in
                  Ok (JObj m, rest)
            end
          else if c =? 91 then
            match skip_ws t' with
            | [] => Err ValueError
            | d :: t'' =>
                if d =? 93 then Ok (JArr [], t'')
                else let* (l, rest) := scan_items fuel (skip_ws t') in Ok (JArr l, rest)
            end
          else if c =? 110 then scan_literal "null" JNull t
          else if c =? 116 then scan_literal "true" (JBool true) t
          else if c =? 102 then scan_literal "false" (JBool false) t
          else scan_number t
      end
  end
with scan_items (fuel : nat) (t : pystr) {struct fuel} : result py_exn (list json * pystr) :=
  match fuel with
  | O => Err ValueError
  | S fuel =>
      let* (v, r) := scan_once fuel t in
      match skip_ws r with
      | [] => Err ValueError
      | d :: r =>
          if d =? 44 then
            let* (l, rest) := scan_items fuel (skip_ws r) in Ok (v :: l, rest)
          else if d =? 93 then Ok ([v], r)
          else Err ValueError
      end
  end
with scan_members (fuel : nat) (t : pystr) {struct fuel}
    : result py_exn (list (pystr * json) * pystr) :=
  match fuel with
  | O => Err ValueError
  | S fuel =>
      match t with
      | [] => Err ValueError
      | q :: t =>
          guard (q =? 34) ValueError;;*
          let* (key, r) := of_option ValueError (scan_string t) in
          match skip_ws r with
          | [] => Err ValueError
          | k :: r =>
              guard (k =? 58) ValueError;;*
              let* (v, r) := scan_once fuel (skip_ws r) in
              match skip_ws r with
              | [] => Err ValueError
              | d :: r =>
                  if d =? 44 then
                    let* (m, rest) := scan_members fuel (skip_ws r) in
                    Ok ((key, v) :: m, rest)
                  else if d =? 125 then Ok ([(key, v)], r)
                  else Err ValueError
              end
          end
      end
  end.

(** One JSON object and nothing else: size, UTF-8, depth, scanner, Unicode *)
Definition decode_object (raw : bytes) (max_bytes : Z)
    : result py_exn (list (pystr * json)) :=
  guard (negb ((max_bytes <? 1) || (max_bytes <? Z.of_nat (length raw)))) ValueError;;*
  let* text := of_option ValueError (utf8_decode raw) in
  validate_json_depth text;;*
  let* (value, rest) := scan_once (S (length text)) (skip_ws text) in
  guard (bool_decide (skip_ws rest = [])) ValueError;;*
  match value with
  | JObj m => validate_unicode value;;* Ok m
  | _ => Err ValueError
  end.
End Scanner.

(** Equality of Python values: the order of the keys of an object does not matter. *)
Definition same_value (v w : json) : Prop := canon v = canon w.

(** ** [decode_strict] *)

(** [_reject_float] *)
Definition reject_float (_ : pystr) : result py_exn json := Err ValueError.

(** The JSON part of [decode_strict]: everything before the model fields are
    looked at. *)
Definition decode_json (raw : bytes) (max_bytes : Z) : result py_exn (list (pystr * json)) :=
  decode_object reject_float raw max_bytes.

Definition is_null (v : json) : bool := match v with JNull => true | _ => false end.

(** [decode_strict(raw, model, max_bytes)], for a model given by the names of its
    required fields and its [model_validate]. *)
Definition decode_strict {T} (required : list pystr)
    (model_validate : list (pystr * json) -> result py_exn T)
    (raw : bytes) (max_bytes : Z) : result py_exn T :=
  let* value := decode_json raw max_bytes in
  guard (forallb (fun f => bool_decide (f ∈ map fst value)) required) ValueError;;*
  guard (negb (existsb (fun kv => is_null kv.2) value)) ValueError;;*
  model_validate value.


(** ** Round trip: strings *)

Lemma quote_ok s t :
  quote s = Ok t <-> valid_str s /\ t = [34] ++ flat_map quote_char s ++ [34].
Proof.
  unfold quote. split.
  - intros H. inv_ok. split; [by eapply utf8_encode_valid | done].
  - intros [Hv ->]. destruct (utf8_encode_some s Hv) as [l ->]. simpl.
    assert (Hs : existsb is_surrogate s = false).
    { induction Hv as [|c s [_ Hc] _ IH]; simpl; [done|]. by rewrite Hc, IH. }
    by rewrite Hs.
Qed.

Lemma check_str_ok s : valid_str s -> check_str s = Ok tt.
Proof.
  intros Hv. unfold check_str. destruct (utf8_encode_some s Hv) as [l ->].
  assert (Hs : existsb is_surrogate s = false).
  { clear l. induction Hv as [|c s [_ Hc] _ IH]; simpl; [done|]. by rewrite Hc, IH. }
  by rewrite Hs.
Qed.

Lemma hex4_value_hex4 c a :
  0 <= c < 65536 ->
  match hex4 c with [h1; h2; h3; h4] => hex4_value h1 h2 h3 h4 = Some c | _ => a end.
Proof.
  intros Hc. unfold hex4, hex4_value.
  rewrite !hex_value_char by (apply Z.mod_pos_bound; lia).
  f_equal.
  replace (c / 256) with (c / 16 / 16) by (rewrite Z.div_div by lia; done).
  replace (c / 4096) with (c / 16 / 16 / 16) by (rewrite !Z.div_div by lia; done).
  pose proof (Z.div_mod c 16 ltac:(lia)).
  pose proof (Z.div_mod (c / 16) 16 ltac:(lia)).
  pose proof (Z.div_mod (c / 16 / 16) 16 ltac:(lia)).
  assert (Hd : c / 16 / 16 / 16 < 16).
  { rewrite !Z.div_div by lia. apply Z.div_lt_upper_bound; lia. }
  assert (0 <= c / 16 / 16 / 16) by (repeat apply Z.div_pos; lia).
  rewrite (Z.mod_small (c / 16 / 16 / 16)) by lia. lia.
Qed.

(** The scanner inverts the quoting of one character. *)
Lemma scan_string_char c t :
  0 <= c < 0x110000 -> is_surrogate c = false ->
  scan_string (quote_char c ++ t) = push c (scan_string t).
Proof.
  intros Hc Hs. unfold quote_char.
  destruct (Z.eqb_spec c 8) as [->|]; [done|].
  destruct (Z.eqb_spec c 12) as [->|]; [done|].
  destruct (Z.eqb_spec c 10) as [->|]; [done|].
  destruct (Z.eqb_spec c 13) as [->|]; [done|].
  destruct (Z.eqb_spec c 9) as [->|]; [done|].
  destruct (Z.eqb_spec c 34) as [->|]; [done|].
  destruct (Z.eqb_spec c 92) as [->|]; [done|].
  destruct (Z.ltb_spec c 0x20) as [Hlt|Hge].
  - pose proof (hex4_value_hex4 c False ltac:(lia)) as Hx. unfold hex4 in *.
    cbn [app scan_string]. change (92 =? 34) with false. change (92 =? 92) with true.
    change (117 =? 117) with true. cbn iota. rewrite Hx.
    assert (Hh : is_high c = false) by (unfold is_high; rewrite (proj2 (Z.leb_gt 0xD800 c)); [done|lia]).
    rewrite Hh. simpl. by repeat case_match.
  - cbn [app scan_string].
    rewrite (proj2 (Z.eqb_neq c 34)), (proj2 (Z.eqb_neq c 92)) by done.
    by rewrite (proj2 (Z.ltb_ge c 0x20)) by done.
Qed.

Lemma scan_string_quote s t :
  valid_str s -> scan_string (flat_map quote_char s ++ 34 :: t) = Some (s, t).
Proof.
  induction 1 as [|c s [Hc Hs] _ IH]; [done|].
  cbn [flat_map]. rewrite <- app_assoc, scan_string_char, IH by done. done.
Qed.

(** ** Round trip: integers *)

Lemma dec_digits_spec fuel n :
  0 <= n < 2 ^ Z.of_nat fuel ->
  digits_value (dec_digits fuel n) = n
  /\ Forall (fun c => is_digit c = true) (dec_digits fuel n)
  /\ (0 < n -> exists c l, dec_digits fuel n = c :: l /\ c <> 48).
Proof.
  revert n. induction fuel as [|fuel IH]; intros n Hn; cbn [dec_digits].
  { simpl in Hn. assert (n = 0) as -> by lia. repeat split; [constructor|lia]. }
  destruct (Z.ltb_spec n 10).
  - split; [unfold digits_value; cbn [fold_left]; lia|]. split.
    + repeat constructor. unfold is_digit. apply andb_true_iff.
      split; apply Z.leb_le; lia.
    + intros Hp. exists (48 + n), []. split; [done|lia].
  - rewrite Nat2Z.inj_succ, Z.pow_succ_r in Hn by lia.
    pose proof (Z.div_mod n 10 ltac:(lia)). pose proof (Z.mod_pos_bound n 10 eq_refl).
    destruct (IH (n / 10) ltac:(lia)) as (Hv & Hd & Hh). split; [|split].
    + unfold digits_value in *. rewrite fold_left_app. cbn [fold_left]. rewrite Hv. lia.
    + apply Forall_app. split; [done|]. repeat constructor. unfold is_digit.
      apply andb_true_iff. split; apply Z.leb_le; lia.
    + intros _. destruct Hh as (c & l & -> & Hc); [lia|]. by exists c, (l ++ [48 + n mod 10]).
Qed.

Lemma dec_nonneg_spec n :
  0 <= n ->
  digits_value (dec_nonneg n) = n
  /\ Forall (fun c => is_digit c = true) (dec_nonneg n)
  /\ (n = 0 /\ dec_nonneg n = [48]
      \/ 0 < n /\ exists c l, dec_nonneg n = c :: l /\ c <> 48).
Proof.
  intros Hn. unfold dec_nonneg.
  destruct (Z.eq_dec n 0) as [->|Hnz].
  { repeat split; [repeat constructor|]. by left. }
  destruct (dec_digits_spec (S (Z.to_nat (Z.log2 n))) n) as (Hv & Hd & Hh).
  { pose proof (Z.log2_spec n ltac:(lia)). pose proof (Z.log2_nonneg n).
    rewrite Nat2Z.inj_succ, Z2Nat.id by lia. lia. }
  repeat split; [done..|]. right. split; [lia|]. apply Hh. lia.
Qed.

Abbreviation digits s := (Forall (fun c => is_digit c = true) s).

Lemma is_digit_range c : is_digit c = true <-> 48 <= c <= 57.
Proof. unfold is_digit. rewrite andb_true_iff, !Z.leb_le. lia. Qed.

Lemma digits_value_acc s acc :
  fold_left (fun acc c => acc * 10 + (c - 48)) s acc
  = acc * 10 ^ Z.of_nat (length s) + digits_value s.
Proof.
  unfold digits_value. revert acc. induction s as [|c s IH]; intros acc; [simpl; lia|].
  cbn [fold_left length]. rewrite IH, (IH (0 * 10 + (c - 48))).
  rewrite Nat2Z.inj_succ, Z.pow_succ_r by lia. ring.
Qed.

Lemma digits_value_cons c s :
  digits_value (c :: s) = (c - 48) * 10 ^ Z.of_nat (length s) + digits_value s.
Proof. unfold digits_value at 1. cbn [fold_left]. by rewrite digits_value_acc. Qed.

Lemma digits_value_range s : digits s -> 0 <= digits_value s < 10 ^ Z.of_nat (length s).
Proof.
  induction 1 as [|c s Hc _ IH]; [done|]. apply is_digit_range in Hc.
  rewrite digits_value_cons. cbn [length]. rewrite Nat2Z.inj_succ, Z.pow_succ_r by lia.
  nia.
Qed.

Lemma digits_value_inj s t :
  digits s -> digits t -> length s = length t -> digits_value s = digits_value t -> s = t.
Proof.
  intros Hs. revert t. induction Hs as [|c s Hc Hs IH]; intros [|d t] Ht Hl; try done.
  inversion Ht as [|? ? Hd Ht']; subst. simpl in Hl. injection Hl as Hl.
  rewrite !digits_value_cons, <- Hl. intros Heq.
  pose proof (digits_value_range s Hs). pose proof (digits_value_range t Ht').
  rewrite <- Hl in *. assert (c = d) as <- by nia. f_equal. apply IH; [done..|]. lia.
Qed.

(** Decimal text without a leading zero is the one [str] prints. *)
Lemma dec_nonneg_digits s :
  digits s -> s = [48] \/ (exists c l, s = c :: l /\ c <> 48) ->
  dec_nonneg (digits_value s) = s.
Proof.
  intros Hs Hh. pose proof (digits_value_range s Hs) as Hr.
  destruct (dec_nonneg_spec (digits_value s) ltac:(lia)) as (Hv & Hd & Hh').
  destruct Hh as [->|(c & l & -> & Hc)]; [done|].
  apply digits_value_inj; [done..| |done].
  inversion Hs as [|? ? Hcd Hl]; subst. apply is_digit_range in Hcd.
  pose proof (digits_value_range l Hl). rewrite digits_value_cons in *.
  destruct Hh' as [[Hz0 _]|(Hpos & e & l' & E & He)]; [nia|]. rewrite E in *.
  inversion Hd as [|? ? Hed Hld]; subst. apply is_digit_range in Hed.
  rewrite digits_value_cons in Hv. pose proof (digits_value_range l' Hld). cbn [length].
  f_equal. destruct (Nat.lt_trichotomy (length l') (length l)) as [Hlt|[?|Hlt]]; [|done|].
  - assert (10 * 10 ^ Z.of_nat (length l') <= 10 ^ Z.of_nat (length l)).
    { rewrite <- Z.pow_succ_r by lia. apply Z.pow_le_mono_r; lia. } nia.
  - assert (10 * 10 ^ Z.of_nat (length l) <= 10 ^ Z.of_nat (length l')).
    { rewrite <- Z.pow_succ_r by lia. apply Z.pow_le_mono_r; lia. } nia.
Qed.

(** A digit string that precedes another of the same length has a smaller value. *)
Lemma str_ltb_value s t :
  digits s -> digits t -> length s = length t -> str_ltb s t = true ->
  digits_value s < digits_value t.
Proof.
  unfold str_ltb. intros Hs. revert t. induction Hs as [|c s Hc Hs IH];
    intros [|d t] Ht Hl H; try done.
  inversion Ht as [|? ? Hd Ht']; subst. injection Hl as Hl.
  apply negb_true_iff in H. simpl in H.
  pose proof (digits_value_range s Hs). pose proof (digits_value_range t Ht').
  rewrite !digits_value_cons, <- Hl in *.
  destruct (Z.ltb_spec d c); [done|]. destruct (Z.eqb_spec d c) as [->|].
  - specialize (IH t Ht' Hl). rewrite H in IH. specialize (IH eq_refl). lia.
  - nia.
Qed.

Lemma within_limit s t :
  digits s -> digits t -> digits_value s <= digits_value t ->
  s = [48] /\ t <> [] \/ (exists c l, s = c :: l /\ c <> 48) ->
  negb (bool_decide (length t < length s)%nat
        || (bool_decide (length s = length t) && str_ltb t s)) = true.
Proof.
  intros Hs Ht Hle Hh. apply negb_true_iff, orb_false_iff. split.
  - apply bool_decide_eq_false. intros Hlen.
    destruct Hh as [[-> Hne] | (c & l & -> & Hc)].
    { destruct t; [done|simpl in Hlen; lia]. }
    pose proof (digits_value_range t Ht). inversion Hs as [|? ? Hd Hl]; subst.
    pose proof (digits_value_range l Hl). apply is_digit_range in Hd.
    rewrite digits_value_cons in Hle. cbn [length] in Hlen.
    assert (10 ^ Z.of_nat (length t) <= 10 ^ Z.of_nat (length l))
      by (apply Z.pow_le_mono_r; lia). nia.
  - destruct (bool_decide_reflect (length s = length t)) as [Hlen|]; [|done]. simpl.
    destruct (str_ltb t s) eqn:E; [|done].
    pose proof (str_ltb_value t s Ht Hs ltac:(done) E). lia.
Qed.


Lemma parse_integer_neg n :
  0 < n <= - MIN_INT64 -> parse_integer (45 :: dec_nonneg n) = Ok (- n).
Proof.
  intros Hn. destruct (dec_nonneg_spec n ltac:(lia)) as (Hv & Hd & Hh).
  destruct (dec_nonneg_spec (- MIN_INT64) ltac:(done)) as (Hv' & Hd' & _).
  unfold parse_integer, int_of_token. rewrite bool_decide_eq_false_2.
  2:{ intros [= H]. rewrite H in Hv. cbn in Hv. lia. }
  cbn [starts_with_minus tail]. change (45 =? 45) with true. cbn iota.
  change (str_of_int (- MIN_INT64)) with (dec_nonneg (- MIN_INT64)).
  cbn [negb guard rbind].
  rewrite within_limit; [cbn [guard rbind]; by rewrite Hv | done | done | lia |].
  right. destruct Hh as [[? _]|[_ ?]]; [lia|done].
Qed.

Lemma parse_integer_nonneg n :
  0 <= n <= MAX_UINT64 -> parse_integer (dec_nonneg n) = Ok n.
Proof.
  intros Hn. destruct (dec_nonneg_spec n ltac:(lia)) as (Hv & Hd & Hh).
  destruct (dec_nonneg_spec MAX_UINT64 ltac:(done)) as (Hv' & Hd' & Hm').
  assert (Hm : starts_with_minus (dec_nonneg n) = false).
  { destruct (dec_nonneg n) as [|c l]; [done|]. simpl.
    inversion Hd as [|? ? Hc]; subst. apply is_digit_range in Hc. apply Z.eqb_neq. lia. }
  unfold parse_integer, int_of_token. rewrite Hm, bool_decide_eq_false_2.
  2:{ intros H. by rewrite H in Hm. }
  change (str_of_int MAX_UINT64) with (dec_nonneg MAX_UINT64).
  cbn [negb guard rbind].
  rewrite within_limit; [cbn [guard rbind]; by rewrite Hv | done | done | lia |].
  destruct Hh as [[_ ->]|[_ ?]]; [left | by right]. split; [done|].
  destruct Hm' as [[H _]|[_ (c & l & E & _)]]; [unfold MAX_UINT64 in H; lia|].
  rewrite E. discriminate.
Qed.

Lemma span_digits_app s t :
  digits s -> starts_digit t = false -> span_digits (s ++ t) = (s, t).
Proof.
  intros Hs Ht. induction Hs as [|c s Hc _ IH]; simpl.
  - destruct t as [|c t]; [done|]. simpl in *. by rewrite Ht.
  - by rewrite Hc, IH.
Qed.

(** What may follow a value inside a canonical text. *)
Definition sep (rest : pystr) : Prop :=
  match rest with [] => True | c :: _ => c = 44 \/ c = 93 \/ c = 125 end.

Lemma sep_facts rest :
  sep rest -> skip_ws rest = rest /\ starts_digit rest = false /\ float_follows rest = false.
Proof. destruct rest as [|c t]; [done|]. intros [->|[->| ->]]; done. Qed.

Lemma scan_unsigned_dec n rest :
  0 <= n -> sep rest -> scan_unsigned (dec_nonneg n ++ rest) = Some (dec_nonneg n, rest).
Proof.
  intros Hn Hr. destruct (sep_facts rest Hr) as (_ & Hd & _).
  destruct (dec_nonneg_spec n Hn) as (_ & Hds & [[_ ->]|[_ (c & l & E & Hc)]]); [done|].
  rewrite E in *. unfold scan_unsigned. cbn [app].
  rewrite (proj2 (Z.eqb_neq c 48)) by done.
  inversion Hds as [|? ? Hcd Hl]; subst. rewrite Hcd.
  change (c :: l ++ rest) with ((c :: l) ++ rest). by rewrite span_digits_app.
Qed.

Section Readback.
Variable parse_float : pystr -> result py_exn json.

(** Every integer the encoder accepts is read back by the scanner. *)
Lemma scan_number_str z rest :
  MIN_CANONICAL_INTEGER <= z <= MAX_CANONICAL_INTEGER -> sep rest ->
  scan_number parse_float (str_of_int z ++ rest) = Ok (JInt z, rest).
Proof.
  unfold MIN_CANONICAL_INTEGER, MAX_CANONICAL_INTEGER. intros Hz Hr.
  destruct (sep_facts rest Hr) as (_ & _ & Hf).
  unfold scan_number, str_of_int. destruct (Z.ltb_spec z 0) as [Hneg|Hpos].
  - cbn [app starts_with_minus tail]. change (45 =? 45) with true. cbn iota.
    rewrite scan_unsigned_dec by (lia || done). cbn [of_option rbind]. rewrite Hf.
    rewrite parse_integer_neg by (unfold MIN_INT64; lia).
    cbn [rbind]. do 3 f_equal. lia.
  - destruct (dec_nonneg_spec z Hpos) as (_ & Hds & _).
    assert (Hm : starts_with_minus (dec_nonneg z ++ rest) = false).
    { destruct (dec_nonneg z) as [|c l]; simpl.
      - destruct rest as [|c t]; [done|]. destruct Hr as [->|[->| ->]]; done.
      - inversion Hds as [|? ? Hc]; subst. apply is_digit_range in Hc.
        apply Z.eqb_neq. lia. }
    rewrite Hm, scan_unsigned_dec by (lia || done). cbn [of_option rbind]. rewrite Hf.
    by rewrite parse_integer_nonneg by (unfold MAX_UINT64; lia).
Qed.

(** ** Round trip: whole values *)

Lemma py_sort_Forall2 {A B} (R : pystr * A -> pystr * B -> Prop) l l' :
  (forall x y, R x y -> x.1 = y.1) ->
  Forall2 R l l' -> Forall2 R (py_sort key_leb l) (py_sort key_leb l').
Proof.
  intros Hk. induction 1 as [|x y l l' Hxy _ IH]; simpl; [constructor|].
  induction IH as [|x' y' m m' Hxy' Hm IHm]; simpl; [by repeat constructor|].
  unfold key_leb at 1 3. rewrite (Hk _ _ Hxy), (Hk _ _ Hxy').
  destruct (str_leb y.1 y'.1); repeat constructor; done.
Qed.

Lemma py_sort_map {A B} (f : pystr * A -> pystr * B) l :
  (forall x, (f x).1 = x.1) ->
  py_sort key_leb (map f l) = map f (py_sort key_leb l).
Proof.
  intros Hf. induction l as [|x l IH]; simpl; [done|]. rewrite IH.
  generalize (py_sort key_leb l) as m. induction m as [|y m IHm]; simpl; [done|].
  unfold key_leb at 1 3. rewrite !Hf. destruct (str_leb x.1 y.1); simpl; congruence.
Qed.

Lemma unique_object_ok acc pairs :
  NoDup (map fst (acc ++ pairs)) -> unique_object acc pairs = Ok (acc ++ pairs).
Proof.
  revert acc. induction pairs as [|[k v] pairs IH]; intros acc Hnd; simpl.
  - by rewrite app_nil_r.
  - rewrite bool_decide_eq_true_2.
    + simpl. rewrite IH; [by rewrite <- app_assoc|]. by rewrite <- app_assoc.
    + rewrite map_app in Hnd. apply NoDup_app in Hnd as (_ & Hd & _).
      intros Hin. apply (Hd k Hin). simpl. left.
Qed.

Lemma quote_head s t : quote s = Ok t -> exists t', t = 34 :: t' /\ length t' <> O.
Proof.
  intros [_ ->]%quote_ok. eexists. split; [done|]. rewrite length_app. simpl. lia.
Qed.

(** First character of an encoded value: not white space, not a closing bracket. *)
Lemma encode_head v d t :
  encode v d = Ok t -> exists c t', t = c :: t' /\ is_ws c = false /\ is_close c = false.
Proof.
  destruct v as [|[]|z|f|s|l|m]; cbn [encode]; intros H; inv_ok; subst.
  1-3: by repeat eexists.
  - breflect. unfold str_of_int. destruct (Z.ltb_spec z 0); [by repeat eexists|].
    destruct (dec_nonneg_spec z ltac:(done)) as (_ & Hd & Hh).
    destruct (dec_nonneg z) as [|c l]; [by destruct Hh as [[? ?]|[? (? & ? & ? & ?)]]|].
    inversion Hd as [|? ? Hc]; subst. apply is_digit_range in Hc.
    exists c, l. unfold is_ws, is_close. split; [done|].
    split; rewrite ?orb_false_iff, ?Z.eqb_neq; lia.
  - apply quote_head in H as (t' & -> & _). by repeat eexists.
  - by repeat eexists.
  - by repeat eexists.
Qed.

Lemma skip_ws_encode v d t rest : encode v d = Ok t -> skip_ws (t ++ rest) = t ++ rest.
Proof. intros (c & t' & -> & Hc & _)%encode_head. simpl. by rewrite Hc. Qed.

(** The scanner reads [v] back from its encoding: the statement proved by
    induction on [v]. *)
Definition reads_back (v : json) : Prop :=
  forall d t fuel rest,
    encode v d = Ok t -> unique_keys v = true -> (length t < fuel)%nat -> sep rest ->
    scan_once parse_float fuel (t ++ rest) = Ok (canon v, rest).

Lemma scan_items_ok l d items fuel rest :
  Forall reads_back l -> forallb unique_keys l = true -> l <> [] ->
  Forall2 (fun v t => encode v d = Ok t) l items ->
  (length (join_comma items) + 1 < fuel)%nat ->
  scan_items parse_float fuel (join_comma items ++ 93 :: rest) = Ok (map canon l, rest).
Proof.
  intros Hl Huk Hne Hf. revert fuel Hl Huk Hne.
  induction Hf as [|v t l items Hv Hf IH]; intros fuel Hl Huk Hne Hfuel; [done|].
  inversion Hl as [|? ? Hrv Hrl]; subst. simpl in Huk. breflect.
  destruct fuel as [|fuel]; [lia|]. cbn [scan_items].
  destruct Hf as [|w t' l items Hw Hf].
  - cbn [join_comma] in *. rewrite (Hrv d t fuel (93 :: rest)); [|done|done|lia|simpl; auto].
    done.
  - assert (Hj : join_comma (t :: t' :: items) = t ++ [44] ++ join_comma (t' :: items)) by done.
    rewrite Hj in *. rewrite !length_app in Hfuel. simpl in Hfuel.
    rewrite <- !app_assoc. rewrite (Hrv d t fuel); [|done|done|lia|simpl; auto].
    cbn [rbind app skip_ws]. change (is_ws 44) with false. change (44 =? 44) with true.
    cbn iota.
    assert (Hsk : skip_ws (join_comma (t' :: items) ++ 93 :: rest)
                  = join_comma (t' :: items) ++ 93 :: rest).
    { destruct (encode_head _ _ _ Hw) as (c & t'' & -> & Hc & _).
      destruct items; simpl; by rewrite Hc. }
    rewrite Hsk, IH; [done|done|done|done|].
    destruct (encode_head _ _ _ Hv) as (c & t'' & -> & _). simpl in *. lia.
Qed.

Lemma scan_members_ok m d items fuel rest :
  Forall (fun kv => reads_back kv.2) m -> forallb (fun kv => unique_keys kv.2) m = true ->
  m <> [] ->
  Forall2 (fun kv it => it.1 = kv.1 /\ exists q e, quote kv.1 = Ok q
             /\ encode kv.2 d = Ok e /\ it.2 = q ++ [58] ++ e) m items ->
  (length (join_comma (map snd items)) + 1 < fuel)%nat ->
  scan_members parse_float fuel (join_comma (map snd items) ++ 125 :: rest)
  = Ok (map (fun kv => (kv.1, canon kv.2)) m, rest).
Proof.
  intros Hl Huk Hne Hf. revert fuel Hl Huk Hne.
  induction Hf as [|kv it m items (_ & q & e & Hq & He & Hit) Hf IH];
    intros fuel Hl Huk Hne Hfuel; [done|].
  inversion Hl as [|? ? Hrv Hrl]; subst. simpl in Huk. breflect.
  destruct fuel as [|fuel]; [lia|].
  apply quote_ok in Hq as [Hval ->].
  (* one member followed by [tl] *)
  assert (Hmem : forall tl, sep tl -> (length e < fuel)%nat ->
    scan_members parse_float (S fuel) (it.2 ++ tl) =
      match tl with
      | [] => Err ValueError
      | c :: r =>
          if c =? 44 then
            let* (m, rest) := scan_members parse_float fuel (skip_ws r) in
            Ok ((kv.1, canon kv.2) :: m, rest)
          else if c =? 125 then Ok ([(kv.1, canon kv.2)], r) else Err ValueError
      end).
  { intros tl Htl Hlen. rewrite Hit, <- !app_assoc. cbn [app scan_members].
    change (34 =? 34) with true. cbn [guard rbind]. cbn iota.
    rewrite scan_string_quote by done.
    cbn [of_option rbind skip_ws]. change (is_ws 58) with false.
    change (58 =? 58) with true. cbn [guard rbind]. cbn iota.
    rewrite (skip_ws_encode _ _ _ _ He), (Hrv d e fuel tl) by done.
    cbn [rbind]. by rewrite (proj1 (sep_facts tl Htl)). }
  assert (Hlen2 : (length e + 3 <= length it.2)%nat).
  { rewrite Hit, !length_app. cbn [length]. lia. }
  destruct Hf as [|kv' it' m items Hw Hf].
  - cbn [map join_comma] in *. rewrite Hmem; [done|simpl; auto|lia].
  - assert (Hj : join_comma (map snd (it :: it' :: items))
        = it.2 ++ [44] ++ join_comma (map snd (it' :: items))) by done.
    rewrite Hj in *. rewrite !length_app in Hfuel. simpl in Hfuel.
    rewrite <- !app_assoc. rewrite Hmem; [|simpl; auto|lia].
    cbn [app]. change (44 =? 44) with true. cbn iota.
    assert (Hsk : skip_ws (join_comma (map snd (it' :: items)) ++ 125 :: rest)
                  = join_comma (map snd (it' :: items)) ++ 125 :: rest).
    { destruct Hw as (_ & q' & e' & Hq' & _ & Hit').
      apply quote_head in Hq' as (t'' & -> & _).
      simpl. rewrite Hit'. by destruct items. }
    rewrite Hsk, IH; [done|done|done|done|]. simpl. lia.
Qed.

Lemma encode_obj_items m depth items :
  map_res (fun kv => let* q := quote kv.1 in let* e := encode kv.2 depth in
                     Ok (kv.1, q ++ [58] ++ e)) m = Ok items ->
  Forall2 (fun kv it => it.1 = kv.1 /\ exists q e, quote kv.1 = Ok q
             /\ encode kv.2 depth = Ok e /\ it.2 = q ++ [58] ++ e) m items.
Proof.
  intros H%map_res_ok. eapply Forall2_impl; [exact H|].
  intros kv it H'. simpl in H'. inv_ok. subst. simpl. eauto 10.
Qed.

Lemma unique_keys_obj m :
  unique_keys (JObj m) = true ->
  NoDup (map fst (py_sort key_leb m))
  /\ forallb (fun kv => unique_keys kv.2) (py_sort key_leb m) = true.
Proof.
  cbn [unique_keys]. intros H. breflect.
  split; [by rewrite (Permutation_map fst (py_sort_perm _ _))|].
  apply forallb_forall. intros x Hx. apply list_elem_of_In in Hx.
  rewrite py_sort_perm in Hx. apply list_elem_of_In in Hx.
  by apply (proj1 (forallb_forall (fun kv : pystr * json => unique_keys kv.2) m)).
Qed.

Lemma reads_back_obj m :
  Forall (fun kv => reads_back kv.2) m -> reads_back (JObj m).
Proof.
  intros Hm d t fuel rest He Huk Hfuel Hsep. cbn [encode] in He. inv_ok. subst t.
  match goal with H : map_res _ _ = Ok _ |- _ => apply encode_obj_items in H as Hf end.
  apply py_sort_Forall2 in Hf; [|by intros ? ? [? _]].
  pose proof (unique_keys_obj m Huk) as [Hnd Hul].
  assert (Hms : Forall (fun kv => reads_back kv.2) (py_sort key_leb m))
    by (by rewrite py_sort_perm).
  cbn [canon]. rewrite py_sort_map by done.
  destruct fuel as [|fuel]; [lia|]. cbn [app] in *. rewrite <- app_assoc in *.
  cbn [scan_once app] in *. change (123 =? 34) with false. change (123 =? 123) with true.
  cbn iota.
  set (sm := py_sort key_leb m) in *. set (si := py_sort key_leb x0) in *.
  destruct (decide (sm = [])) as [E|Hne].
  { rewrite E in *. inversion Hf as [Hsi|]. done. }
  assert (Hhd : exists t', join_comma (map snd si) = 34 :: t').
  { inversion Hf as [|kv it ? its (_ & q & e & Hq & _ & Hit)]; subst; [congruence|].
    apply quote_head in Hq as (t' & -> & _). simpl. rewrite Hit.
    destruct its; simpl; eauto. }
  destruct Hhd as [t' Ht']. rewrite Ht'. cbn [app skip_ws].
  change (is_ws 34) with false. cbn iota. change (34 =? 125) with false. cbn iota.
  change (34 :: t' ++ 125 :: rest) with ((34 :: t') ++ 125 :: rest). rewrite <- Ht'.
  rewrite (scan_members_ok sm (d + 1)); [|done|done|done|done|].
  2:{ simpl in Hfuel. rewrite length_app in Hfuel. simpl in Hfuel. lia. }
  cbn [rbind]. rewrite unique_object_ok; [done|]. cbn [app].
  by rewrite map_map.
Qed.

Lemma reads_back_arr l : Forall reads_back l -> reads_back (JArr l).
Proof.
  intros Hl d t fuel rest He Huk Hfuel Hsep. cbn [encode] in He. inv_ok. subst t.
  match goal with H : map_res _ _ = Ok _ |- _ => apply map_res_ok in H as Hf end.
  destruct fuel as [|fuel]; [lia|]. cbn [app] in *. rewrite <- app_assoc in *.
  cbn [scan_once app canon] in *. change (91 =? 34) with false.
  change (91 =? 123) with false. change (91 =? 91) with true. cbn iota.
  destruct (decide (l = [])) as [->|Hne].
  { inversion Hf; subst. done. }
  assert (Hhd : exists c t', join_comma x0 = c :: t' /\ is_ws c = false /\ is_close c = false).
  { inversion Hf as [|v it ? its Hv]; subst; [congruence|].
    destruct (encode_head _ _ _ Hv) as (c & t' & -> & Hc & Hc').
    destruct its; simpl; eauto 10. }
  destruct Hhd as (c & t' & Ht' & Hc & Hc'). rewrite Ht'. cbn [app skip_ws].
  rewrite Hc. unfold is_close in Hc'. apply orb_false_iff in Hc' as [Hc1 _].
  rewrite Hc1. change (c :: t' ++ 93 :: rest) with ((c :: t') ++ 93 :: rest).
  rewrite <- Ht', (scan_items_ok l (d + 1)); [done|done|done|done|done|].
  simpl in Hfuel. rewrite length_app in Hfuel. simpl in Hfuel. lia.
Qed.

Lemma scan_literal_ok p v rest : scan_literal p v (u p ++ rest) = Ok (v, rest).
Proof.
  unfold scan_literal. enough (strip_prefix (u p) (u p ++ rest) = Some rest) as -> by done.
  induction (u p) as [|c l IH]; simpl; [done|]. by rewrite Z.eqb_refl.
Qed.

(** The standard library's scanner inverts [_encode]. *)
Lemma scan_once_encode v : reads_back v.
Proof.
  induction v as [|x|z|f|s|l Hl|m Hm] using json_nested_ind.
  - intros d t [|fuel] rest He _ Hf Hs; [lia|]. injection He as <-.
    apply (scan_literal_ok "null").
  - intros d t [|fuel] rest He _ Hf Hs; [lia|].
    destruct x; injection He as <-; apply scan_literal_ok.
  - intros d t [|fuel] rest He _ Hf Hs; [lia|]. cbn [encode] in He. inv_ok. breflect.
    subst t. cbn [canon]. rewrite <- (scan_number_str z rest) by (done || lia).
    destruct (encode_head (JInt z) 0 (str_of_int z)) as (c & t' & E & Hc & _).
    { cbn [encode]. by rewrite !(proj2 (Z.leb_le _ _)) by lia. }
    assert (Hd : is_digit c = true \/ c = 45).
    { unfold str_of_int in E. destruct (Z.ltb_spec z 0); [right; congruence|left].
      destruct (dec_nonneg_spec z ltac:(done)) as (_ & Hds & _). rewrite E in Hds.
      by inversion Hds. }
    rewrite E. cbn [app scan_once]. rewrite is_digit_range in Hd.
    by rewrite !(proj2 (Z.eqb_neq c _)) by lia.
  - intros d t fuel rest He. discriminate He.
  - intros d t [|fuel] rest He _ Hf Hs; [lia|]. cbn [encode] in He.
    apply quote_ok in He as [Hv ->]. rewrite <- !app_assoc. cbn [app scan_once].
    change (34 =? 34) with true. cbn iota. by rewrite scan_string_quote.
  - by apply reads_back_arr.
  - by apply reads_back_obj.
Qed.
End Readback.

(** ** Round trip: the text-level checks *)

Lemma depth_scan_quoted d s t :
  valid_str s ->
  depth_scan d true false (flat_map quote_char s ++ 34 :: t) = depth_scan d false false t.
Proof.
  induction 1 as [|c s [Hc _] _ IH]; [done|].
  cbn [flat_map]. rewrite <- app_assoc, <- IH.
  generalize (flat_map quote_char s ++ 34 :: t) as w. intros w. unfold quote_char.
  do 7 (match goal with |- context [if c =? ?k then _ else _] =>
          destruct (Z.eqb_spec c k) as [->|]; [done|] end).
  destruct (Z.ltb_spec c 0x20).
  - unfold hex4. cbn [app depth_scan]. change (92 =? 92) with true. cbn iota.
    assert (Hh : forall k, 0 <= k < 16 ->
      (hex_char k =? 92) = false /\ (hex_char k =? 34) = false).
    { intros k Hk. unfold hex_char. destruct (Z.ltb_spec k 10); rewrite !Z.eqb_neq; lia. }
    by repeat match goal with |- context [hex_char ?n] =>
      destruct (Hh n (Z.mod_pos_bound _ 16 eq_refl)) as [-> ->] end.
  - cbn [app depth_scan]. by rewrite !(proj2 (Z.eqb_neq c _)) by done.
Qed.

Lemma depth_scan_plain d s t :
  Forall (fun c => c <> 34 /\ is_open c = false /\ is_close c = false) s ->
  depth_scan d false false (s ++ t) = depth_scan d false false t.
Proof.
  induction 1 as [|c s (Hq & Ho & Hc) _ IH]; [done|].
  cbn [app depth_scan]. by rewrite (proj2 (Z.eqb_neq c 34)), Ho, Hc by done.
Qed.

Lemma digit_plain c :
  is_digit c = true -> c <> 34 /\ is_open c = false /\ is_close c = false.
Proof.
  intros H%is_digit_range. unfold is_open, is_close.
  rewrite !orb_false_iff, !Z.eqb_neq. lia.
Qed.

Lemma str_of_int_plain z :
  Forall (fun c => c <> 34 /\ is_open c = false /\ is_close c = false) (str_of_int z).
Proof.
  unfold str_of_int. destruct (Z.ltb_spec z 0); [constructor; [done|]|].
  all: eapply Forall_impl; [apply (dec_nonneg_spec _); lia | apply digit_plain].
Qed.

(** Scanning an encoded value leaves the depth counter where it was. *)
Definition depth_neutral (v : json) : Prop :=
  forall d t rest, encode v d = Ok t ->
    depth_scan d false false (t ++ rest) = depth_scan d false false rest.

Lemma depth_scan_join d items rest :
  Forall (fun t => forall rest, depth_scan d false false (t ++ rest)
                                = depth_scan d false false rest) items ->
  depth_scan d false false (join_comma items ++ rest) = depth_scan d false false rest.
Proof.
  induction 1 as [|t items Ht Hf IH]; [done|].
  destruct Hf as [|t' items Ht' Hf]; [apply Ht|].
  change (join_comma (t :: t' :: items)) with (t ++ 44 :: join_comma (t' :: items)).
  rewrite <- app_assoc, Ht. cbn [app depth_scan]. exact IH.
Qed.

Lemma depth_scan_quote d s q rest :
  quote s = Ok q -> depth_scan d false false (q ++ rest) = depth_scan d false false rest.
Proof.
  intros [Hv ->]%quote_ok. cbn [app]. rewrite <- app_assoc. cbn [app depth_scan].
  by apply depth_scan_quoted.
Qed.

Lemma encode_depth_neutral v : depth_neutral v.
Proof.
  induction v as [|x|z|f|s|l Hl|m Hm] using json_nested_ind; intros d t rest He;
    cbn [encode] in He.
  - injection He as <-. by apply depth_scan_plain; repeat constructor.
  - destruct x; injection He as <-; by apply depth_scan_plain; repeat constructor.
  - inv_ok. subst t. apply depth_scan_plain, str_of_int_plain.
  - discriminate He.
  - by eapply depth_scan_quote.
  - inv_ok. subst t. breflect.
    match goal with H : map_res _ _ = Ok _ |- _ => apply map_res_ok in H as Hf end.
    cbn [app]. rewrite <- app_assoc. cbn [app depth_scan].
    change (91 =? 34) with false. change (is_open 91) with true. cbn iota.
    rewrite (proj2 (Z.leb_le _ _)) by done. cbn [guard rbind].
    rewrite depth_scan_join; [cbn; f_equal; lia|].
    eapply Forall2_Forall_r; [exact Hf|]. eapply Forall_impl; [exact Hl|].
    intros v Hv t Ht r. by apply Hv.
  - inv_ok. subst t. breflect.
    match goal with H : map_res _ _ = Ok _ |- _ => apply encode_obj_items in H as Hf end.
    cbn [app]. rewrite <- app_assoc. cbn [app depth_scan].
    change (123 =? 34) with false. change (is_open 123) with true. cbn iota.
    rewrite (proj2 (Z.leb_le _ _)) by done. cbn [guard rbind].
    rewrite depth_scan_join; [cbn; f_equal; lia|].
    apply Forall_fmap. rewrite py_sort_perm.
    eapply Forall2_Forall_r; [exact Hf|]. eapply Forall_impl; [exact Hm|].
    intros kv Hv it (_ & q & e & Hq & He & Hit) r. simpl. rewrite Hit, <- !app_assoc.
    rewrite (depth_scan_quote _ _ _ _ Hq). cbn [app depth_scan]. by apply Hv.
Qed.

Lemma encode_valid v d t : encode v d = Ok t -> validate_unicode (canon v) = Ok tt.
Proof.
  revert d t. induction v as [|x|z|f|s|l Hl|m Hm] using json_nested_ind; intros d t He;
    cbn [encode] in He; try done.
  - apply quote_ok in He as [Hv _]. by apply check_str_ok.
  - inv_ok. cbn [canon validate_unicode].
    match goal with H : map_res _ _ = Ok _ |- _ => apply map_res_ok in H as Hf end.
    enough (map_res validate_unicode (map canon l) = Ok (map (fun _ => tt) l)) as -> by done.
    clear -Hl Hf. induction Hf as [|v t l ts Hv Hf IH]; [done|].
    inversion Hl as [|? ? Hvv Hll]; subst. cbn [map map_res].
    rewrite (Hvv _ _ Hv). cbn [rbind]. by rewrite IH.
  - inv_ok. cbn [canon validate_unicode].
    match goal with H : map_res _ _ = Ok _ |- _ => apply encode_obj_items in H as Hf end.
    rewrite py_sort_map by done.
    set (f := fun kv : pystr * json => _).
    assert (Hk : Forall (fun kv => f (kv.1, canon kv.2) = Ok tt) m).
    { clear -Hm Hf. induction Hf as [|kv it m its (_ & q & e & Hq & He & _) Hf IH];
        [constructor|]. inversion Hm as [|? ? Hvv Hll]; subst.
      constructor; [|by apply IH]. unfold f. simpl. apply quote_ok in Hq as [Hq _].
      rewrite (check_str_ok _ Hq). simpl. by eapply Hvv. }
    rewrite <- (py_sort_perm key_leb) in Hk.
    enough (map_res f (map (fun kv => (kv.1, canon kv.2)) (py_sort key_leb m))
            = Ok (map (fun _ => tt) (py_sort key_leb m))) as -> by done.
    clearbody f. revert Hk. generalize (py_sort key_leb m) as sm. clear. intros sm Hk.
    induction Hk as [|kv sm' Hkv _ IH]; [done|]. cbn [map map_res].
    rewrite Hkv. cbn [rbind]. by rewrite IH.
Qed.

(** *** The encoded text is ordinary Unicode *)

Lemma valid_str_ascii s : Forall (fun c => 0 <= c < 128) s -> valid_str s.
Proof.
  intros Hs. eapply Forall_impl; [exact Hs|]. intros c [H1 H2]. split; [lia|].
  unfold is_surrogate. rewrite (proj2 (Z.leb_gt 0xD800 c)) by lia. done.
Qed.

Lemma valid_str_cons c t : 0 <= c < 128 -> valid_str t -> valid_str (c :: t).
Proof.
  intros Hc Ht. apply (Forall_app _ [c] t). split; [|done].
  apply valid_str_ascii. by repeat constructor; lia.
Qed.

Lemma valid_str_snoc c t : 0 <= c < 128 -> valid_str t -> valid_str (t ++ [c]).
Proof.
  intros Hc Ht. apply Forall_app. split; [done|].
  apply valid_str_cons; [done|constructor].
Qed.

Lemma quote_char_valid c :
  0 <= c < 0x110000 -> is_surrogate c = false -> valid_str (quote_char c).
Proof.
  intros Hc Hs. unfold quote_char.
  do 7 (match goal with |- context [if c =? ?k then _ else _] =>
          destruct (c =? k); [apply valid_str_ascii; repeat constructor; lia|] end).
  destruct (Z.ltb_spec c 0x20); [|by repeat constructor; lia || done].
  apply valid_str_ascii. unfold hex4, hex_char.
  repeat constructor; try lia;
    match goal with |- context [?a mod 16] =>
      pose proof (Z.mod_pos_bound a 16 eq_refl); destruct (Z.ltb_spec (a mod 16) 10) end; lia.
Qed.

Lemma quote_valid s q : quote s = Ok q -> valid_str q.
Proof.
  intros [Hv ->]%quote_ok. apply valid_str_cons; [lia|]. apply valid_str_snoc; [lia|].
  induction Hv as [|c s [Hc Hs] _ IH]; [constructor|]. cbn [flat_map].
  apply Forall_app. split; [by apply quote_char_valid|done].
Qed.

Lemma join_comma_valid items : Forall valid_str items -> valid_str (join_comma items).
Proof.
  induction 1 as [|t items Ht Hf IH]; [constructor|].
  destruct Hf; [done|]. apply Forall_app. split; [done|]. by apply valid_str_cons; [lia|].
Qed.

Lemma str_of_int_valid z : valid_str (str_of_int z).
Proof.
  apply valid_str_ascii. unfold str_of_int.
  destruct (Z.ltb_spec z 0); [constructor; [lia|]|];
    (eapply Forall_impl; [apply dec_nonneg_spec; lia|]); intros c Hd%is_digit_range; lia.
Qed.

(** An encoded text always has a UTF-8 form: [canonical_json] raises only when
    [_encode] does. *)
Lemma encode_utf8 v d t : encode v d = Ok t -> valid_str t.
Proof.
  revert d t. induction v as [|x|z|f|s|l Hl|m Hm] using json_nested_ind; intros d t He;
    cbn [encode] in He; [| |inv_ok; subst t; apply str_of_int_valid|done
    |by eapply quote_valid| |].
  - injection He as <-. apply valid_str_ascii. by repeat constructor.
  - destruct x; injection He as <-; apply valid_str_ascii; by repeat constructor.
  - inv_ok. subst t. apply valid_str_cons, valid_str_snoc, join_comma_valid; [lia|lia|].
    match goal with H : map_res _ _ = Ok _ |- _ => apply map_res_ok in H as Hf end.
    eapply Forall2_Forall_r; [exact Hf|]. eapply Forall_impl; [exact Hl|]. eauto.
  - inv_ok. subst t. apply valid_str_cons, valid_str_snoc, join_comma_valid; [lia|lia|].
    match goal with H : map_res _ _ = Ok _ |- _ => apply encode_obj_items in H as Hf end.
    apply Forall_fmap. rewrite py_sort_perm.
    eapply Forall2_Forall_r; [exact Hf|]. eapply Forall_impl; [exact Hm|].
    intros kv Hv it (_ & q & e & Hq & He' & Hit). simpl. rewrite Hit.
    apply Forall_app. split; [by eapply quote_valid|]. apply valid_str_cons; [lia|]. eauto.
Qed.

Lemma canonical_json_ok v raw :
  canonical_json v = Ok raw <-> exists t, encode v 0 = Ok t /\ utf8_encode t = Some raw.
Proof.
  unfold canonical_json. rewrite rbind_ok. by setoid_rewrite of_option_ok.
Qed.

(** ** Canonical form is independent of insertion order *)

Lemma map_res_err {E A B} (f : A -> result E B) l e :
  map_res f l = Err e -> exists x, x ∈ l /\ f x = Err e.
Proof.
  induction l as [|x l IH]; simpl; [done|].
  destruct (f x) as [y|e'] eqn:Ex; simpl.
  - destruct (map_res f l) as [ys|e''] eqn:El; simpl; [done|]. intros [= ->].
    destruct IH as (z & Hz & ?); [done|]. exists z. split; [by right|done].
  - intros [= ->]. exists x. split; [left|done].
Qed.

Lemma encode_err v d e : encode v d = Err e -> e = ValueError.
Proof.
  assert (Hq : forall s e, quote s = Err e -> e = ValueError).
  { intros s e'. unfold quote. destruct (utf8_encode s); simpl; [|by intros [= ->]].
    destruct (existsb _ _); simpl; naive_solver. }
  revert d e. induction v as [|x|z|f|s|l Hl|m Hm] using json_nested_ind; intros d e;
    cbn [encode]; try (by destruct x); try (by intros [= <-]); try (by apply Hq).
  - destruct (_ && _); simpl; naive_solver.
  - destruct (d + 1 <=? _); simpl; [|by intros [= <-]].
    destruct (map_res _ _) as [ys|e'] eqn:E; simpl; [done|]. intros [= ->].
    apply map_res_err in E as (x & Hx & He). rewrite Forall_forall in Hl. eauto.
  - destruct (d + 1 <=? _); simpl; [|by intros [= <-]].
    destruct (map_res _ _) as [ys|e'] eqn:E; simpl; [done|]. intros [= ->].
    apply map_res_err in E as (x & Hx & He). rewrite Forall_forall in Hm.
    destruct (quote x.1) eqn:Hqx; simpl in He; [|by injection He as ->; eauto].
    destruct (encode x.2 (d + 1)) eqn:Hex; simpl in He; [done|]. injection He as ->. eauto.
Qed.

Lemma map_res_ext {E A A' B} (f : A -> result E B) (g : A' -> result E B) h l :
  Forall (fun x => g (h x) = f x) l -> map_res g (map h l) = map_res f l.
Proof. induction 1 as [|x l Hx _ IH]; simpl; [done|]. by rewrite Hx, IH. Qed.

(** Sorting before or after a key-preserving traversal gives the same items. *)
Lemma map_res_sort {A B} (f : pystr * A -> result py_exn (pystr * B)) l :
  (forall x y, f x = Ok y -> x.1 = y.1) ->
  (forall x e, f x = Err e -> e = ValueError) ->
  (let* ys := map_res f (py_sort key_leb l) in Ok (py_sort key_leb ys))
  = (let* ys := map_res f l in Ok (py_sort key_leb ys)).
Proof.
  intros Hk He.
  assert (Hex : forall e, map_res f l = Err e ->
    exists e', map_res f (py_sort key_leb l) = Err e').
  { intros e (x & Hx & Hfx)%map_res_err.
    destruct (map_res f (py_sort key_leb l)) as [ys|e'] eqn:E; [|by eauto].
    apply map_res_ok in E. exfalso. rewrite <- (py_sort_perm key_leb) in Hx.
    apply list_elem_of_lookup in Hx as [i Hi].
    destruct (Forall2_lookup_l _ _ _ _ _ E Hi) as (y & _ & Hy). congruence. }
  destruct (map_res f l) as [ys|e] eqn:E; simpl.
  - apply map_res_ok in E. apply py_sort_Forall2 in E; [|done].
    apply map_res_ok in E. rewrite E. simpl. f_equal.
    apply py_sort_id. apply py_sort_sorted; unfold key_leb;
      [intros; apply str_leb_total | intros ? ? ?; apply str_leb_trans].
  - destruct (Hex e eq_refl) as [e' E']. rewrite E'. simpl.
    apply map_res_err in E as (x & _ & Hx), E' as (x' & _ & Hx').
    by rewrite (He _ _ Hx), (He _ _ Hx').
Qed.

(** The canonical value encodes to the same text as the value it came from. *)
Lemma encode_canon v d : encode (canon v) d = encode v d.
Proof.
  revert d. induction v as [|x|z|f|s|l Hl|m Hm] using json_nested_ind; intros d; try done.
  - cbn [canon encode]. erewrite map_res_ext; [done|].
    eapply Forall_impl; [exact Hl|]. simpl. auto.
  - cbn [canon encode]. rewrite py_sort_map by done.
    destruct (guard (d + 1 <=? _) ValueError); simpl; [|done].
    set (f := fun kv : pystr * json => let* q := quote kv.1 in
                let* e := encode kv.2 (d + 1) in Ok (kv.1, q ++ 58 :: e)).
    rewrite (map_res_ext f).
    2:{ rewrite (py_sort_perm key_leb). eapply Forall_impl; [exact Hm|].
        intros kv Hkv. unfold f. simpl. by rewrite Hkv. }
    assert (Hk : forall kv y, f kv = Ok y -> kv.1 = y.1).
    { intros kv y Hy. unfold f in Hy. inv_ok. by subst. }
    assert (Hve : forall kv e, f kv = Err e -> e = ValueError).
    { intros kv e Hy. unfold f in Hy. destruct (quote kv.1) eqn:Eq; simpl in Hy.
      - destruct (encode kv.2 (d + 1)) eqn:Ee; simpl in Hy; [done|].
        injection Hy as <-. by eapply encode_err.
      - injection Hy as <-. by apply (encode_err (JStr kv.1) 0). }
    pose proof (map_res_sort f m Hk Hve) as Hs.
    destruct (map_res f (py_sort key_leb m)), (map_res f m); simpl in *; try done; congruence.
Qed.

(** ** Properties *)

(** The mapping [decode_json] returns for the canonical bytes of [m]. *)
Definition canon_obj (m : list (pystr * json)) : list (pystr * json) :=
  py_sort key_leb (map (fun kv => (kv.1, canon kv.2)) m).

Lemma canonical_json_roundtrip_aux m raw max_bytes :
  unique_keys (JObj m) = true ->
  canonical_json (JObj m) = Ok raw ->
  Z.of_nat (length raw) <= max_bytes ->
  decode_json raw max_bytes = Ok (canon_obj m).
Proof.
  intros Huk (t & He & Hu)%canonical_json_ok Hmax.
  assert (Hne : raw <> []).
  { destruct (encode_head _ _ _ He) as (c & t' & -> & _). simpl in Hu.
    destruct (utf8_char c) as [h|] eqn:Eh, (utf8_encode t'); try done. injection Hu as <-.
    unfold utf8_char in Eh. intros [-> _]%app_nil. repeat case_match; done. }
  unfold decode_json, decode_object. destruct raw as [|x raw]; [done|].
  rewrite !(proj2 (Z.ltb_ge _ _)) by (simpl in *; lia). cbn [orb negb guard rbind].
  rewrite (utf8_decode_encode _ _ Hu). cbn [of_option rbind].
  unfold validate_json_depth. pose proof (encode_depth_neutral _ 0 t [] He) as Hd.
  rewrite app_nil_r in Hd. rewrite Hd. cbn [rbind].
  pose proof (skip_ws_encode _ _ _ [] He) as Hsk. rewrite app_nil_r in Hsk. rewrite Hsk.
  pose proof (scan_once_encode reject_float _ 0 t (S (length t)) [] He Huk ltac:(lia) I) as Hsc.
  rewrite app_nil_r in Hsc. rewrite Hsc. cbn [rbind skip_ws].
  rewrite bool_decide_eq_true_2 by done. cbn [guard rbind canon].
  pose proof (encode_valid _ _ _ He) as Hv. cbn [canon] in Hv. by rewrite Hv.
Qed.

(** C39: decoding the canonical bytes of any mapping succeeds whenever the byte
    limit admits them, and returns exactly that mapping with the keys of every
    level sorted; the scanner's fuel, the depth scan, the integer hook, the
    duplicate-key hook and the Unicode check never reject a canonical document. *)
Theorem canonical_json_roundtrip m raw max_bytes :
  unique_keys (JObj m) = true ->
  canonical_json (JObj m) = Ok raw ->
  Z.of_nat (length raw) <= max_bytes ->
  decode_json raw max_bytes = Ok (canon_obj m).
Proof. apply canonical_json_roundtrip_aux. Qed.

Lemma canonical_json_injective_aux v w raw :
  unique_keys v = true -> unique_keys w = true -> canonical_json v = Ok raw ->
  (canonical_json w = Ok raw <-> canon w = canon v).
Proof.
  intros Hv Hw (t & Ht & Hr)%canonical_json_ok. split.
  - intros (t' & Ht' & Hr')%canonical_json_ok.
    apply utf8_decode_encode in Hr, Hr'. assert (t' = t) as -> by congruence.
    pose proof (scan_once_encode reject_float v 0 t (S (length t)) [] Ht Hv ltac:(lia) I) as H1.
    pose proof (scan_once_encode reject_float w 0 t (S (length t)) [] Ht' Hw ltac:(lia) I) as H2.
    congruence.
  - intros Hc. apply canonical_json_ok. exists t. split; [|done].
    by rewrite <- encode_canon, Hc, encode_canon.
Qed.

(** Canonical bytes identify a value up to the order of mapping keys: two
    values with distinct keys have the same canonical bytes exactly when they are
    the same document, so a signature or digest over canonical bytes binds the
    whole document and does not depend on insertion order. *)
Theorem canonical_json_injective v w raw :
  unique_keys v = true -> unique_keys w = true -> canonical_json v = Ok raw ->
  (canonical_json w = Ok raw <-> same_value w v).
Proof. apply canonical_json_injective_aux. Qed.

(** What [_encode] accepts: no floats, integers in range, ordinary Unicode text,
    at most 64 nested containers. *)
Fixpoint encodable (v : json) (depth : Z) : bool :=
  match v with
  | JNull | JBool _ => true
  | JInt z => (MIN_CANONICAL_INTEGER <=? z) && (z <=? MAX_CANONICAL_INTEGER)
  | JFloat _ => false
  | JStr s => bool_decide (is_Some (utf8_encode s))
  | JArr l => (depth <? MAX_JSON_NESTING_DEPTH) && forallb (fun v => encodable v (depth + 1)) l
  | JObj m =>
      (depth <? MAX_JSON_NESTING_DEPTH)
      && forallb (fun kv => bool_decide (is_Some (utf8_encode kv.1))
                            && encodable kv.2 (depth + 1)) m
  end.

Lemma quote_accepts s : is_ok (quote s) = bool_decide (is_Some (utf8_encode s)).
Proof.
  destruct (bool_decide_reflect (is_Some (utf8_encode s))) as [[l Hl]|Hn].
  - apply utf8_encode_valid in Hl.
    by rewrite (proj2 (quote_ok s ([34] ++ flat_map quote_char s ++ [34]))).
  - destruct (quote s) as [q|] eqn:E; [|done]. apply quote_ok in E as [Hv _].
    apply utf8_encode_some in Hv as [l Hl]. destruct Hn. by exists l.
Qed.

Lemma map_res_is_ok {E A B} (f : A -> result E B) l :
  is_ok (map_res f l) = forallb (fun x => is_ok (f x)) l.
Proof.
  induction l as [|x l IH]; simpl; [done|].
  destruct (f x); simpl; [|done]. by destruct (map_res f l).
Qed.

Lemma guard_is_ok {E A} c (e : E) (k : result E A) :
  is_ok (guard c e;;* k) = c && is_ok k.
Proof. by destruct c. Qed.

Lemma rbind_is_ok {E A B} (r : result E A) (f : A -> B) :
  is_ok (let* x := r in Ok (f x)) = is_ok r.
Proof. by destruct r. Qed.

Lemma forallb_ext_Forall {A} (f g : A -> bool) l :
  Forall (fun x => f x = g x) l -> forallb f l = forallb g l.
Proof. induction 1 as [|x l Hx _ IH]; simpl; [done|]. by rewrite Hx, IH. Qed.

Lemma encode_is_ok v d : is_ok (encode v d) = encodable v d.
Proof.
  revert d. induction v as [|x|z|f|s|l Hl|m Hm] using json_nested_ind; intros d;
    cbn [encode encodable]; try done; try (by destruct x).
  - rewrite guard_is_ok. by rewrite andb_true_r.
  - apply quote_accepts.
  - rewrite guard_is_ok, rbind_is_ok, map_res_is_ok.
    f_equal; [apply eq_bool_prop_intro; rewrite !Is_true_true, Z.leb_le, Z.ltb_lt; lia|].
    apply forallb_ext_Forall. eapply Forall_impl; [exact Hl|]. simpl. auto.
  - rewrite guard_is_ok, rbind_is_ok, map_res_is_ok.
    f_equal; [apply eq_bool_prop_intro; rewrite !Is_true_true, Z.leb_le, Z.ltb_lt; lia|].
    apply forallb_ext_Forall. eapply Forall_impl; [exact Hm|]. intros kv Hkv. simpl.
    rewrite <- quote_accepts, <- Hkv. destruct (quote kv.1); simpl; [|done].
    by destruct (encode kv.2 (d + 1)).
Qed.

Lemma canonical_json_encodable v : is_ok (canonical_json v) = encodable v 0.
Proof.
  rewrite <- encode_is_ok. unfold canonical_json.
  destruct (encode v 0) as [t|e] eqn:E; cbn [rbind is_ok]; [|done].
  by destruct (utf8_encode_some t (encode_utf8 _ _ _ E)) as [l ->].
Qed.

(** [canonical_json] returns bytes exactly on float-free values whose integers
    lie in [-2^63, 2^64), whose strings are ordinary Unicode and whose containers
    nest at most 64 deep, and raises [ValueError] on every other value. *)
Theorem canonical_json_accepts v :
  if encodable v 0 then exists raw, canonical_json v = Ok raw
  else canonical_json v = Err ValueError.
Proof.
  pose proof (encode_is_ok v 0) as H. unfold canonical_json.
  destruct (encode v 0) as [t|e] eqn:E; simpl in H; rewrite <- H; simpl.
  - destruct (utf8_encode_some t (encode_utf8 _ _ _ E)) as [l ->]. by exists l.
  - by rewrite (encode_err _ _ _ E).
Qed.

(** ** Soundness of strict decoding *)

(** Unique keys at every level, integers in the canonical range, no floats. *)
Fixpoint strict_value (v : json) : bool :=
  match v with
  | JInt z => (MIN_INT64 <=? z) && (z <=? MAX_UINT64)
  | JFloat _ => false
  | JArr l => forallb strict_value l
  | JObj m => bool_decide (NoDup (map fst m)) && forallb (fun kv => strict_value kv.2) m
  | _ => true
  end.

Lemma not_ltb_value s t :
  digits s -> digits t -> length s = length t -> str_ltb t s = false ->
  digits_value s <= digits_value t.
Proof.
  intros Hs Ht Hl H. unfold str_ltb in H. apply negb_false_iff in H.
  destruct (str_ltb s t) eqn:E.
  - apply Z.lt_le_incl. by apply str_ltb_value.
  - unfold str_ltb in E. apply negb_false_iff in E.
    by rewrite (str_leb_antisym s t).
Qed.

Lemma limit_sound s t :
  digits s -> digits t -> (exists c l, t = c :: l /\ c <> 48) ->
  negb (bool_decide (length t < length s)%nat
        || (bool_decide (length s = length t) && str_ltb t s)) = true ->
  digits_value s <= digits_value t.
Proof.
  intros Hs Ht (c & l & -> & Hc) H. breflect.
  destruct (decide (length s = length (c :: l))) as [Hl|Hl].
  - rewrite (bool_decide_eq_true_2 _ Hl) in *. by apply not_ltb_value.
  - pose proof (digits_value_range s Hs). inversion Ht as [|? ? Hd Hl']; subst.
    pose proof (digits_value_range l Hl'). apply is_digit_range in Hd.
    rewrite digits_value_cons. simpl in *.
    assert (10 ^ Z.of_nat (length s) <= 10 ^ Z.of_nat (length l))
      by (apply Z.pow_le_mono_r; lia). nia.
Qed.

Lemma dec_nonneg_limit n :
  0 < n -> digits (dec_nonneg n) /\ (exists c l, dec_nonneg n = c :: l /\ c <> 48)
           /\ digits_value (dec_nonneg n) = n.
Proof.
  intros Hn. destruct (dec_nonneg_spec n ltac:(lia)) as (Hv & Hd & [[? _]|[_ ?]]); [lia|done].
Qed.

Lemma parse_integer_range ds (negative : bool) z :
  digits ds -> parse_integer (if negative then 45 :: ds else ds) = Ok z ->
  MIN_INT64 <= z <= MAX_UINT64.
Proof.
  intros Hd H. pose proof (digits_value_range ds Hd). unfold parse_integer in H. inv_ok.
  destruct (dec_nonneg_limit (- MIN_INT64) ltac:(done)) as (Hd1 & Hh1 & Hv1).
  destruct (dec_nonneg_limit MAX_UINT64 ltac:(done)) as (Hd2 & Hh2 & Hv2).
  unfold int_of_token in H. destruct negative.
  - cbn [starts_with_minus tail] in *. change (45 =? 45) with true in *. cbn iota in *.
    change (str_of_int (- MIN_INT64)) with (dec_nonneg (- MIN_INT64)) in *.
    match goal with H : negb (bool_decide (_ < _)%nat || _) = true |- _ =>
      apply limit_sound in H; [|done..] end.
    unfold MAX_UINT64. lia.
  - assert (Hm : starts_with_minus ds = false).
    { destruct Hd as [|c l Hc]; [done|]. apply is_digit_range in Hc. apply Z.eqb_neq. lia. }
    rewrite Hm in *.
    change (str_of_int MAX_UINT64) with (dec_nonneg MAX_UINT64) in *.
    match goal with H : negb (bool_decide (_ < _)%nat || _) = true |- _ =>
      apply limit_sound in H; [|done..] end.
    unfold MIN_INT64. lia.
Qed.

Lemma scan_unsigned_digits t ds rest : scan_unsigned t = Some (ds, rest) -> digits ds.
Proof.
  destruct t as [|c t]; simpl; [done|].
  destruct (Z.eqb_spec c 48); [intros [= <- _]; by repeat constructor|].
  destruct (is_digit c) eqn:Hc; [|done]. destruct (span_digits t) as [d r] eqn:E.
  intros [= <- <-]. constructor; [done|]. clear -E. revert d r E.
  induction t as [|x t IH]; simpl; intros d r E; [by injection E as <- <-|].
  destruct (is_digit x) eqn:Hx; [|by injection E as <- <-].
  destruct (span_digits t) as [d' r']. injection E as <- <-. constructor; [done|]. by eapply IH.
Qed.

Lemma unique_object_nodup acc pairs m :
  NoDup (map fst acc) -> unique_object acc pairs = Ok m ->
  m = acc ++ pairs /\ NoDup (map fst m).
Proof.
  revert acc. induction pairs as [|[k v] pairs IH]; intros acc Hnd; simpl.
  - intros [= <-]. by rewrite app_nil_r.
  - intros H. inv_ok. breflect. apply IH in H.
    + by rewrite <- app_assoc in H.
    + rewrite map_app. apply NoDup_app. split; [done|]. split; [|apply NoDup_singleton].
      intros k0 Hx Hin. apply list_elem_of_singleton in Hin as ->. contradiction.
Qed.

(** Every value the scanner returns is strict, whatever the input text. *)
Lemma scan_sound fuel :
  (forall t v rest, scan_once reject_float fuel t = Ok (v, rest) -> strict_value v = true)
  /\ (forall t l rest, scan_items reject_float fuel t = Ok (l, rest) -> forallb strict_value l = true)
  /\ (forall t m rest, scan_members reject_float fuel t = Ok (m, rest) ->
        forallb (fun kv => strict_value kv.2) m = true).
Proof.
  induction fuel as [|fuel (IH1 & IH2 & IH3)]; [done|]. split; [|split].
  - intros [|c t] v rest; cbn [scan_once]; [done|].
    destruct (c =? 34); [intros H; inv_ok; destruct x; by simplify_eq/=|].
    destruct (c =? 123).
    { destruct (skip_ws t) as [|d t']; [done|].
      destruct (d =? 125); [intros H; inv_ok; by simplify_eq/=|].
      intros H. inv_ok. destruct x as [pairs r]. inv_ok. simplify_eq/=.
      apply unique_object_nodup in Hr0 as [-> Hnd]; [|constructor]. simpl in *.
      rewrite bool_decide_eq_true_2 by done. by eapply IH3. }
    destruct (c =? 91).
    { destruct (skip_ws t) as [|d t']; [done|].
      destruct (d =? 93); [intros H; inv_ok; by simplify_eq/=|].
      intros H. inv_ok. destruct x. inv_ok. simplify_eq/=. by eapply IH2. }
    destruct (c =? 110); [unfold scan_literal; intros H; inv_ok; by simplify_eq/=|].
    destruct (c =? 116); [unfold scan_literal; intros H; inv_ok; by simplify_eq/=|].
    destruct (c =? 102); [unfold scan_literal; intros H; inv_ok; by simplify_eq/=|].
    unfold scan_number. intros H. inv_ok. destruct x as [ds r]. cbv zeta in H.
    destruct (float_follows r); [by destruct (span_float r)|]. inv_ok. simplify_eq/=.
    apply scan_unsigned_digits in Hr. apply parse_integer_range in Hr0; [|done].
    apply andb_true_iff. split; apply Z.leb_le; lia.
  - intros t l rest. cbn [scan_items]. intros H. inv_ok. destruct x as [v r].
    apply IH1 in Hr. destruct (skip_ws r) as [|d r']; [done|].
    destruct (d =? 44).
    + inv_ok. destruct x as [l' r'']. inv_ok. simplify_eq/=. rewrite Hr. by eapply IH2.
    + destruct (d =? 93); [|done]. inv_ok. simplify_eq/=. by rewrite Hr.
  - intros [|q t] m rest; cbn [scan_members]; [done|]. intros H. inv_ok.
    destruct x0 as [key r]. destruct (skip_ws r) as [|k r']; [done|]. inv_ok.
    destruct x1 as [v r'']. apply IH1 in Hr2. destruct (skip_ws r'') as [|d r3]; [done|].
    destruct (d =? 44).
    + inv_ok. destruct x1 as [m' r4]. inv_ok. simplify_eq/=. rewrite Hr2. by eapply IH3.
    + destruct (d =? 125); [|done]. inv_ok. simplify_eq/=. by rewrite Hr2.
Qed.

(** Whatever bytes arrive, a document that strict decoding accepts is within
    the byte limit, has pairwise distinct keys in every object, carries no floats
    and only integers in [-2^63, 2^64), and every string in it is ordinary
    Unicode; so a decoded document never holds a value that JSON left ambiguous. *)
Theorem decode_json_sound raw max_bytes m :
  decode_json raw max_bytes = Ok m ->
  Z.of_nat (length raw) <= max_bytes
  /\ strict_value (JObj m) = true /\ validate_unicode (JObj m) = Ok tt.
Proof.
  unfold decode_json, decode_object. intros H. inv_ok. destruct x2 as [v r].
  apply scan_sound in Hr2. inv_ok. destruct v; try done. inv_ok. subst.
  breflect. repeat split; [lia|done|]. by repeat match goal with x : unit |- _ => destruct x end.
Qed.

(** ** Witnesses *)

Definition sample_doc : list (pystr * json) :=
  [(u "kind", JStr (u "observer_start")); (u "n", JInt (-5));
   (u "a", JArr [JBool true; JNull; JObj []])].

Lemma canonical_json_roundtrip_witness : exists raw,
  canonical_json (JObj sample_doc) = Ok raw
  /\ decode_json raw 1024 = Ok (canon_obj sample_doc).
Proof.
  eexists. split; [vm_compute; reflexivity|].
  apply canonical_json_roundtrip; [reflexivity|vm_compute; reflexivity|].
  apply Z.leb_le. vm_compute. reflexivity.
Defined.

Lemma canonical_json_injective_witness : exists raw,
  canonical_json (JObj sample_doc) = Ok raw
  /\ (canonical_json (JObj (rev sample_doc)) = Ok raw
      <-> same_value (JObj (rev sample_doc)) (JObj sample_doc)).
Proof.
  eexists. split; [vm_compute; reflexivity|].
  apply canonical_json_injective; [reflexivity|reflexivity|vm_compute; reflexivity].
Defined.

Lemma decode_json_sound_witness : exists raw m,
  decode_json raw 64 = Ok m
  /\ Z.of_nat (length raw) <= 64
  /\ strict_value (JObj m) = true /\ validate_unicode (JObj m) = Ok tt.
Proof.
  exists (bstr "{ }"), []. split; [vm_compute; reflexivity|].
  apply decode_json_sound. vm_compute. reflexivity.
Defined.
