(* ===== verification/Frames.v ===== *)
(** * AGF1 frames (core/agmind_immune/evidence/frames.py)

    The append-only journal format: [magic | length | previous hash | payload |
    CRC32C | SHA-256], each record hash chained into the next frame.  CRC32C comes
    from a third-party package and is a parameter with its documented range; the
    stream hands out its bytes in arbitrary short reads. *)

From S2P Require Import Prelude Sha256.

Local Open Scope Z_scope.
Local Open Scope agmind_scope.

Definition MAGIC : bytes := bstr "AGF1".
Definition HEADER_SIZE : nat := 40.
Definition OVERHEAD : nat := 76.
Definition HASH_DOMAIN : bytes := bstr "AGMIND_FRAME_V1" ++ [byte_of 0].

Inductive frame_exn := FrameValueError | JournalCorrupt | TornTail (verified_bytes : nat).

Record FrameRecord := mkFrame {
  payload : bytes;
  previous_hash : bytes;
  record_hash : bytes;
  offset : nat;
  size : nat }.

Record DecodedFrames := mkDecoded {
  records : list FrameRecord;
  torn_tail : bool;
  verified_bytes : nat }.

(** ** Streams *)

(** A binary stream: the bytes not yet read, and for each of the next reads the
    largest chunk it may return (at least one byte; unlimited when exhausted). *)
Record stream := mkStream { unread : bytes; chunk_limits : list positive }.

(** [stream.read(n)] *)
Definition stream_read (n : nat) (s : stream) : bytes * stream :=
  match chunk_limits s with
  | [] => (take n (unread s), mkStream (drop n (unread s)) [])
  | k :: ks =>
      let n := Nat.min n (Pos.to_nat k) in
      (take n (unread s), mkStream (drop n (unread s)) ks)
  end.

(** The loop of [_read_exact]; each round reads at least one byte or stops. *)
Fixpoint read_exact_loop (fuel remaining : nat) (s : stream) : bytes * stream :=
  match fuel with
  | O => ([], s)
  | S fuel =>
      if bool_decide (remaining = 0%nat) then ([], s)
      else
        let '(chunk, s) := stream_read remaining s in
        if bool_decide (chunk = []) then ([], s)
        else
          let '(chunks, s) := read_exact_loop fuel (remaining - length chunk) s in
          (chunk ++ chunks, s)
  end.

(** [_read_exact] *)
Definition read_exact (n : nat) (s : stream) : bytes * stream := read_exact_loop (S n) n s.

(** [_validate_max_frame] *)
Definition validate_max_frame (max_frame : Z) : result frame_exn unit :=
  guard (0 <? max_frame) FrameValueError;;*
  guard (max_frame <=? 0xFFFFFFFF) FrameValueError.

Section Codec.
(** [google_crc32c.value] *)
Context (crc32c : bytes -> Z).

(** [encode_frame] *)
Definition encode_frame (payload previous_hash : bytes) (max_frame : Z)
    : result frame_exn bytes :=
  validate_max_frame max_frame;;*
  guard (bool_decide (length previous_hash = 32%nat)) FrameValueError;;*
  guard (Z.of_nat (length payload) <=? max_frame) FrameValueError;;*
  let header := MAGIC ++ be_encode 4 (Z.of_nat (length payload)) ++ previous_hash in
  let crc_input := header ++ payload in
  let crc := be_encode 4 (crc32c crc_input) in
  let record_hash := sha256 (HASH_DOMAIN ++ crc_input ++ crc) in
  Ok (crc_input ++ crc ++ record_hash).

Inductive frame_step := Yield (r : FrameRecord) (s : stream) | Stop | Raise (e : frame_exn).

(** One round of the loop of [iter_frames]. *)
Definition next_frame (max_frame : Z) (expected_previous : bytes) (off : nat) (s : stream)
    : frame_step :=
  let '(magic, s) := read_exact 4 s in
  if bool_decide (magic = []) then Stop
  else if bool_decide (length magic < 4)%nat then Raise (TornTail off)
  else if negb (bool_decide (magic = MAGIC)) then Raise JournalCorrupt
  else
    let '(header_tail, s) := read_exact (HEADER_SIZE - 4) s in
    if negb (bool_decide (length header_tail = HEADER_SIZE - 4)%nat) then Raise (TornTail off)
    else
      let header := magic ++ header_tail in
      let payload_length := be_decode (take 4 (drop 4 header)) in
      if max_frame <? payload_length then Raise JournalCorrupt
      else
        let n := Z.to_nat payload_length in
        let '(body, s) := read_exact (n + (OVERHEAD - HEADER_SIZE)) s in
        if negb (bool_decide (length body = n + (OVERHEAD - HEADER_SIZE))%nat)
        then Raise (TornTail off)
        else
          let frame := header ++ body in
          let previous_hash := take 32 (drop 8 header) in
          if negb (bool_decide (previous_hash = expected_previous)) then Raise JournalCorrupt
          else
            let crc_offset := (HEADER_SIZE + n)%nat in
            let stored_crc := be_decode (take 4 (drop crc_offset frame)) in
            let computed_crc := crc32c (take crc_offset frame) in
            if negb (stored_crc =? computed_crc) then Raise JournalCorrupt
            else
              let stored_hash := drop (crc_offset + 4) frame in
              let computed_hash := sha256 (HASH_DOMAIN ++ take (crc_offset + 4) frame) in
              if negb (bool_decide (stored_hash = computed_hash)) then Raise JournalCorrupt
              else
                Yield (mkFrame (take n (drop HEADER_SIZE frame)) previous_hash stored_hash
                         off (OVERHEAD + n)) s.

Inductive stream_end := Finished | Raised (e : frame_exn).

(** [iter_frames]: the records it yields before it returns or raises.  Each round
    consumes at least one byte, so the length of the stream bounds the rounds. *)
Fixpoint iter_frames_loop (fuel : nat) (max_frame : Z) (expected_previous : bytes)
    (off : nat) (s : stream) : list FrameRecord * stream_end :=
  match fuel with
  | O => ([], Finished)
  | S fuel =>
      match next_frame max_frame expected_previous off s with
      | Stop => ([], Finished)
      | Raise e => ([], Raised e)
      | Yield r s =>
          let '(rs, e) := iter_frames_loop fuel max_frame (record_hash r) (off + size r) s in
          (r :: rs, e)
      end
  end.

Definition zero_hash : bytes := repeat (byte_of 0) 32.

Definition iter_frames (s : stream) (max_frame : Z) : list FrameRecord * stream_end :=
  match validate_max_frame max_frame with
  | Err e => ([], Raised e)
  | Ok _ => iter_frames_loop (S (length (unread s))) max_frame zero_hash 0 s
  end.

(** [read_frames] *)
Definition read_frames (s : stream) (max_frame : Z) : result frame_exn DecodedFrames :=
  match iter_frames s max_frame with
  | (rs, Raised (TornTail n)) => Ok (mkDecoded rs true n)
  | (rs, Raised e) => Err e
  | (rs, Finished) =>
      Ok (mkDecoded rs false
            (match last rs with Some r => offset r + size r | None => 0 end)%nat)
  end.

(** [decode_frames] *)
Definition decode_frames (raw : bytes) (max_frame : Z) : result frame_exn DecodedFrames :=
  read_frames (mkStream raw []) max_frame.

(** The writer's use of [encode_frame]: each frame carries the hash of the last. *)
Fixpoint encode_chain (max_frame : Z) (prev : bytes) (payloads : list bytes)
    : result frame_exn bytes :=
  match payloads with
  | [] => Ok []
  | p :: payloads =>
      let* frame := encode_frame p prev max_frame in
      let* rest := encode_chain max_frame (drop (44 + length p) frame) payloads in
      Ok (frame ++ rest)
  end.

(** ** Short reads *)

Lemma read_exact_loop_spec fuel n s :
  (n < fuel)%nat -> exists ks,
  read_exact_loop fuel n s = (take n (unread s), mkStream (drop n (unread s)) ks).
Proof.
  revert n s. induction fuel as [|fuel IH]; intros n s Hf; [lia|]. cbn [read_exact_loop].
  destruct (bool_decide_reflect (n = 0%nat)) as [->|Hn].
  { destruct s as [d ks]. by exists ks. }
  assert (Hr : exists k ks, (0 < k <= n)%nat
    /\ stream_read n s = (take k (unread s), mkStream (drop k (unread s)) ks)).
  { unfold stream_read.
    destruct (chunk_limits s) as [|k ks]; [exists n, []; split; [lia|done]|].
    exists (Nat.min n (Pos.to_nat k)), ks. split; [lia|done]. }
  destruct Hr as (k & ks & Hk & ->).
  destruct (bool_decide_reflect (take k (unread s) = [])) as [E|E].
  - exists ks. assert (unread s = []) as ->.
    { destruct (unread s); [done|]. destruct k; [lia|done]. }
    by rewrite !take_nil, !drop_nil.
  - destruct (IH (n - length (take k (unread s)))%nat
                (mkStream (drop k (unread s)) ks)) as (ks' & ->).
    { destruct (take k (unread s)); [done|simpl; lia]. }
    exists ks'. cbn [unread]. rewrite length_take.
    destruct (decide (k <= length (unread s))%nat) as [Hle|Hgt].
    + rewrite Nat.min_l by lia. rewrite take_take_drop, drop_drop.
      by replace (k + (n - k))%nat with n by lia.
    + rewrite (drop_ge _ k), take_nil, drop_nil, app_nil_r by lia.
      by rewrite !take_ge, drop_ge by lia.
Qed.

Lemma read_exact_spec n s : exists ks,
  read_exact n s = (take n (unread s), mkStream (drop n (unread s)) ks).
Proof. apply read_exact_loop_spec. lia. Qed.

(** ** One frame *)

Lemma MAGIC_length : length MAGIC = 4%nat.
Proof. reflexivity. Qed.

(** The bytes of a frame. *)
Definition frame_body (p prev : bytes) : bytes :=
  MAGIC ++ be_encode 4 (Z.of_nat (length p)) ++ prev ++ p.

Definition frame_of (p prev : bytes) : bytes :=
  let c := frame_body p prev ++ be_encode 4 (crc32c (frame_body p prev)) in
  c ++ sha256 (HASH_DOMAIN ++ c).

Definition hash_of (p prev : bytes) : bytes :=
  sha256 (HASH_DOMAIN ++ frame_body p prev ++ be_encode 4 (crc32c (frame_body p prev))).

Lemma encode_frame_ok p prev max f :
  encode_frame p prev max = Ok f <->
  0 < max <= 0xFFFFFFFF /\ length prev = 32%nat /\ Z.of_nat (length p) <= max
  /\ f = frame_of p prev.
Proof.
  unfold encode_frame, validate_max_frame, frame_of, frame_body. split.
  - intros H. inv_ok. breflect. subst. rewrite <- !app_assoc. repeat split; auto.
  - intros ((H1 & H2) & H3 & H4 & ->).
    rewrite (proj2 (Z.ltb_lt _ _)), !(proj2 (Z.leb_le _ _)) by done. simpl.
    rewrite bool_decide_eq_true_2 by done. simpl. by rewrite <- !app_assoc.
Qed.

Lemma frame_body_length p prev :
  length prev = 32%nat -> length (frame_body p prev) = (40 + length p)%nat.
Proof.
  intros H. unfold frame_body. rewrite !length_app, be_encode_length, H. simpl. lia.
Qed.

Lemma frame_of_length p prev :
  length prev = 32%nat -> length (frame_of p prev) = (76 + length p)%nat.
Proof.
  intros H. unfold frame_of.
  rewrite !length_app, be_encode_length, sha256_length, frame_body_length by done. lia.
Qed.

Lemma frame_of_split p prev :
  frame_of p prev =
  frame_body p prev ++ be_encode 4 (crc32c (frame_body p prev)) ++ hash_of p prev.
Proof. unfold frame_of, hash_of. by rewrite <- app_assoc. Qed.

Lemma hash_of_length p prev : length (hash_of p prev) = 32%nat.
Proof. apply sha256_length. Qed.

Lemma frame_of_hash p prev :
  length prev = 32%nat -> drop (44 + length p) (frame_of p prev) = hash_of p prev.
Proof.
  intros H. rewrite frame_of_split, app_assoc. apply drop_app_length'.
  rewrite length_app, be_encode_length, frame_body_length by done. lia.
Qed.

Lemma take_drop_app_mid {A} (l1 l2 l3 : list A) n k :
  length l1 = n -> length l2 = k -> take k (drop n (l1 ++ l2 ++ l3)) = l2.
Proof. intros <- <-. by rewrite drop_app_length, take_app_length. Qed.

Context (crc_range : forall x, 0 <= crc32c x < 2 ^ 32).

(** ** One round on contiguous bytes *)

Inductive flat_step := FYield (r : FrameRecord) (rest : bytes) | FStop | FRaise (e : frame_exn).

Definition erase (st : frame_step) : flat_step :=
  match st with
  | Yield r s => FYield r (unread s)
  | Stop => FStop
  | Raise e => FRaise e
  end.

(** Reference reading of one frame from the front of [d]. *)
Definition flat_frame (max_frame : Z) (prev : bytes) (off : nat) (d : bytes) : flat_step :=
  let len := be_decode (take 4 (drop 4 d)) in
  let n := Z.to_nat len in
  if bool_decide (d = []) then FStop
  else if bool_decide (length d < 4)%nat then FRaise (TornTail off)
  else if negb (bool_decide (take 4 d = MAGIC)) then FRaise JournalCorrupt
  else if bool_decide (length d < 40)%nat then FRaise (TornTail off)
  else if max_frame <? len then FRaise JournalCorrupt
  else if bool_decide (length d < 76 + n)%nat then FRaise (TornTail off)
  else if negb (bool_decide (take 32 (drop 8 d) = prev)) then FRaise JournalCorrupt
  else if negb (be_decode (take 4 (drop (40 + n) d)) =? crc32c (take (40 + n) d))
  then FRaise JournalCorrupt
  else if negb (bool_decide (take 32 (drop (44 + n) d)
                             = sha256 (HASH_DOMAIN ++ take (44 + n) d)))
  then FRaise JournalCorrupt
  else FYield (mkFrame (take n (drop 40 d)) (take 32 (drop 8 d)) (take 32 (drop (44 + n) d))
                off (76 + n)) (drop (76 + n) d).

Lemma take_of_take {A} (l : list A) i n k :
  (i + n <= k)%nat -> take n (drop i (take k l)) = take n (drop i l).
Proof.
  intros H. replace k with (i + (k - i))%nat by lia.
  rewrite <- take_drop_commute, take_take. f_equal. lia.
Qed.

Lemma drop_of_take {A} (l : list A) i n k :
  (i + n = k)%nat -> drop i (take k l) = take n (drop i l).
Proof. intros <-. symmetry. apply take_drop_commute. Qed.

Lemma take_ok {A} (l : list A) n : bool_decide (length (take n l) = n) = negb (bool_decide (length l < n)%nat).
Proof.
  rewrite length_take. destruct (bool_decide_reflect (length l < n)%nat).
  - apply bool_decide_eq_false_2. lia.
  - apply bool_decide_eq_true_2. lia.
Qed.

(** The round of [iter_frames] sees only the bytes, not how reads were split. *)
Lemma next_frame_flat max prev off s :
  erase (next_frame max prev off s) = flat_frame max prev off (unread s).
Proof.
  unfold next_frame, flat_frame. set (d := unread s).
  destruct (read_exact_spec 4 s) as [k1 ->]. fold d.
  assert (Hnil : bool_decide (take 4 d = []) = bool_decide (d = [])).
  { destruct d; [done|]. by rewrite !bool_decide_eq_false_2. }
  rewrite Hnil. destruct (bool_decide_reflect (d = [])); [done|].
  assert (H4 : bool_decide (length (take 4 d) < 4)%nat = bool_decide (length d < 4)%nat).
  { apply bool_decide_ext. rewrite length_take. lia. }
  rewrite H4. destruct (bool_decide_reflect (length d < 4)%nat); [done|].
  destruct (negb (bool_decide (take 4 d = MAGIC))); [done|].
  destruct (read_exact_spec (HEADER_SIZE - 4) (mkStream (drop 4 d) k1)) as [k2 ->].
  cbn [unread]. rewrite take_ok, negb_involutive, length_drop.
  rewrite (bool_decide_ext (length d - 4 < HEADER_SIZE - 4)%nat (length d < 40)%nat)
    by (unfold HEADER_SIZE; lia).
  destruct (bool_decide_reflect (length d < 40)%nat); [done|].
  rewrite take_take_drop, (take_of_take d 4 4) by (unfold HEADER_SIZE; lia).
  set (len := be_decode (take 4 (drop 4 d))). destruct (max <? len); [done|].
  set (np := Z.to_nat len).
  destruct (read_exact_spec (np + (OVERHEAD - HEADER_SIZE))
    (mkStream (drop (HEADER_SIZE - 4) (drop 4 d)) k2)) as [k3 ->].
  cbn [unread]. rewrite drop_drop. change (4 + (HEADER_SIZE - 4))%nat with 40%nat.
  rewrite take_ok, negb_involutive, length_drop.
  rewrite (bool_decide_ext (length d - 40 < np + (OVERHEAD - HEADER_SIZE))%nat
            (length d < 76 + np)%nat) by (unfold OVERHEAD, HEADER_SIZE; lia).
  destruct (bool_decide_reflect (length d < 76 + np)%nat); [done|].
  rewrite (take_of_take d 8 32) by lia.
  destruct (negb (bool_decide (take 32 (drop 8 d) = prev))); [done|].
  rewrite take_take_drop. unfold OVERHEAD, HEADER_SIZE.
  replace (40 + (np + (76 - 40)))%nat with (76 + np)%nat by lia.
  replace (40 + np + 4)%nat with (44 + np)%nat by lia.
  rewrite (take_of_take d (40 + np) 4), !take_take by lia.
  rewrite !Nat.min_l by lia.
  destruct (negb (_ =? _)); [done|].
  rewrite (drop_of_take d (44 + np) 32) by lia.
  destruct (negb (bool_decide _)); [done|]. cbn [erase unread].
  rewrite (take_of_take d 40 np), drop_drop by lia. do 2 f_equal. lia.
Qed.

Definition frame_ok (max : Z) (prev p : bytes) : Prop :=
  0 < max <= 0xFFFFFFFF /\ length prev = 32%nat /\ Z.of_nat (length p) <= max.

(** The fields of a frame, found by position. *)
Lemma frame_of_fields p prev rest :
  length prev = 32%nat -> Z.of_nat (length p) <= 0xFFFFFFFF ->
  let d := frame_of p prev ++ rest in
  take 4 d = MAGIC
  /\ be_decode (take 4 (drop 4 d)) = Z.of_nat (length p)
  /\ take 32 (drop 8 d) = prev
  /\ take (length p) (drop 40 d) = p
  /\ take (40 + length p) d = frame_body p prev
  /\ take 4 (drop (40 + length p) d) = be_encode 4 (crc32c (frame_body p prev))
  /\ take 32 (drop (44 + length p) d) = hash_of p prev.
Proof.
  intros Hprev Hp d. pose proof (frame_body_length p prev Hprev) as Hbl.
  assert (Hd : d = frame_body p prev ++ be_encode 4 (crc32c (frame_body p prev))
                   ++ hash_of p prev ++ rest).
  { unfold d. rewrite frame_of_split. by rewrite <- !app_assoc. }
  assert (Hd' : exists tl, d = MAGIC ++ be_encode 4 (Z.of_nat (length p)) ++ prev ++ p ++ tl).
  { rewrite Hd. unfold frame_body at 1. rewrite <- !app_assoc. eauto. }
  destruct Hd' as [tl Hd']. split_and!.
  - rewrite Hd'. by apply take_app_length'.
  - rewrite Hd', take_drop_app_mid; [|done|apply be_encode_length].
    apply be_decode_encode. simpl. lia.
  - rewrite Hd', app_assoc. apply take_drop_app_mid; [|done].
    by rewrite length_app, be_encode_length.
  - rewrite Hd', !app_assoc, <- (app_assoc _ p tl). apply take_drop_app_mid; [|done].
    rewrite !length_app, be_encode_length, Hprev. done.
  - rewrite Hd. by apply take_app_length'.
  - rewrite Hd. by apply take_drop_app_mid; [|apply be_encode_length].
  - rewrite Hd, app_assoc. apply take_drop_app_mid; [|apply hash_of_length].
    rewrite length_app, be_encode_length, Hbl. lia.
Qed.

Lemma take_44 p prev rest :
  length prev = 32%nat ->
  take (44 + length p) (frame_of p prev ++ rest)
  = frame_body p prev ++ be_encode 4 (crc32c (frame_body p prev)).
Proof.
  intros Hprev. unfold frame_of. rewrite <- app_assoc. apply take_app_length'.
  rewrite length_app, be_encode_length, frame_body_length by done. lia.
Qed.

(** A frame written for the expected hash is read back whole. *)
Lemma flat_complete max prev off p rest :
  frame_ok max prev p ->
  flat_frame max prev off (frame_of p prev ++ rest)
  = FYield (mkFrame p prev (hash_of p prev) off (76 + length p)) rest.
Proof.
  intros (Hmax & Hprev & Hp). pose proof (frame_of_length p prev Hprev) as Hlen.
  destruct (frame_of_fields p prev rest Hprev ltac:(lia))
    as (H1 & H2 & H3 & H4 & H5 & H6 & H7).
  unfold flat_frame. rewrite H1, H2, Nat2Z.id, H3, H4, H5, H6, H7, take_44 by done.
  rewrite (bool_decide_eq_false_2 (_ = [])).
  2:{ intros [E _]%app_nil. rewrite E in Hlen. simpl in Hlen. lia. }
  rewrite !(bool_decide_eq_false_2 (_ < _)%nat) by (rewrite length_app, Hlen; lia).
  rewrite !bool_decide_eq_true_2 by done. rewrite (proj2 (Z.ltb_ge _ _)) by done.
  rewrite be_decode_encode by (specialize (crc_range (frame_body p prev)); simpl; lia).
  rewrite Z.eqb_refl. cbn [negb]. f_equal. by apply drop_app_length'.
Qed.

(** A frame cut anywhere inside is a torn tail, never corruption. *)
Lemma flat_torn max prev off p k :
  frame_ok max prev p -> (0 < k < length (frame_of p prev))%nat ->
  flat_frame max prev off (take k (frame_of p prev)) = FRaise (TornTail off).
Proof.
  intros (Hmax & Hprev & Hp) Hk. pose proof (frame_of_length p prev Hprev) as Hlen.
  destruct (frame_of_fields p prev [] Hprev ltac:(lia)) as (H1 & H2 & _).
  rewrite app_nil_r in *. set (f := frame_of p prev) in *.
  unfold flat_frame. rewrite length_take, Nat.min_l by lia.
  rewrite (bool_decide_eq_false_2 (_ = [])).
  2:{ intros E%(f_equal length). rewrite length_take in E. simpl in E. lia. }
  destruct (bool_decide_reflect (k < 4)%nat) as [|H4]; [done|].
  rewrite take_take, Nat.min_l, H1, bool_decide_eq_true_2 by (done || lia). cbn [negb].
  destruct (bool_decide_reflect (k < 40)%nat) as [|H40]; [done|].
  rewrite (take_of_take f 4 4), H2, (proj2 (Z.ltb_ge _ _)), Nat2Z.id by lia.
  by rewrite bool_decide_eq_true_2 by lia.
Qed.

(** Whatever is accepted as a frame is the encoding of its payload. *)
Lemma flat_sound max prev off d r d' :
  0 < max <= 0xFFFFFFFF -> flat_frame max prev off d = FYield r d' ->
  frame_ok max prev (payload r)
  /\ d = frame_of (payload r) prev ++ d'
  /\ r = mkFrame (payload r) prev (hash_of (payload r) prev) off (76 + length (payload r)).
Proof.
  intros Hmax H. unfold flat_frame in H.
  set (len := be_decode (take 4 (drop 4 d))) in *. set (np := Z.to_nat len) in *.
  repeat match type of H with (if ?c then _ else _) = _ => destruct c eqn:?; [done|] end.
  injection H as <- <-. breflect. cbn [payload].
  assert (Hlen0 : 0 <= len) by apply be_decode_range.
  assert (Hpl : length (take np (drop 40 d)) = np) by (rewrite length_take, length_drop; lia).
  assert (Hprev : length prev = 32%nat).
  { match goal with H : take 32 _ = prev |- _ => rewrite <- H end.
    rewrite length_take, length_drop. lia. }
  assert (Hbody : take (40 + np) d = frame_body (take np (drop 40 d)) prev).
  { unfold frame_body. rewrite Hpl. unfold np at 2. rewrite Z2Nat.id by done. unfold len.
    rewrite be_encode_decode_n by (rewrite length_take, length_drop; lia).
    repeat match goal with H : take _ _ = MAGIC |- _ => rewrite <- H; clear H
      | H : take 32 (drop 8 d) = prev |- _ => rewrite <- H; clear H end.
    replace (drop 40 d) with (drop 32 (drop 8 d)) by (by rewrite drop_drop).
    rewrite take_take_drop.
    replace (drop 8 d) with (drop 4 (drop 4 d)) by (by rewrite drop_drop).
    rewrite take_take_drop, take_take_drop. done. }
  assert (Hcrc : take 4 (drop (40 + np) d)
                 = be_encode 4 (crc32c (frame_body (take np (drop 40 d)) prev))).
  { rewrite <- Hbody. match goal with H : be_decode _ = crc32c _ |- _ => rewrite <- H end.
    by rewrite be_encode_decode_n by (rewrite length_take, length_drop; lia). }
  assert (H44 : take (44 + np) d = frame_body (take np (drop 40 d)) prev
                 ++ be_encode 4 (crc32c (frame_body (take np (drop 40 d)) prev))).
  { rewrite <- Hcrc, <- Hbody, take_take_drop. f_equal. lia. }
  assert (Hhash : take 32 (drop (44 + np) d) = hash_of (take np (drop 40 d)) prev).
  { unfold hash_of. rewrite <- H44. done. }
  split_and!; [split_and!; [lia|lia|done|] | |].
  - rewrite Hpl. unfold np. lia.
  - rewrite frame_of_split, <- Hhash, <- Hcrc, <- Hbody.
    rewrite <- !app_assoc.
    rewrite <- (take_drop (40 + np) d) at 1. f_equal.
    rewrite <- (take_drop 4 (drop (40 + np) d)) at 1. f_equal.
    rewrite drop_drop. replace (40 + np + 4)%nat with (44 + np)%nat by lia.
    rewrite <- (take_drop 32 (drop (44 + np) d)) at 1. f_equal.
    rewrite drop_drop. f_equal. lia.
  - rewrite <- Hhash, Hpl. f_equal. done.
Qed.

(** ** Whole journals *)

Fixpoint flat_iter (fuel : nat) (max : Z) (prev : bytes) (off : nat) (d : bytes)
    : list FrameRecord * stream_end :=
  match fuel with
  | O => ([], Finished)
  | S fuel =>
      match flat_frame max prev off d with
      | FStop => ([], Finished)
      | FRaise e => ([], Raised e)
      | FYield r d =>
          let '(rs, e) := flat_iter fuel max (record_hash r) (off + size r) d in (r :: rs, e)
      end
  end.

Lemma iter_frames_flat fuel max prev off s :
  iter_frames_loop fuel max prev off s = flat_iter fuel max prev off (unread s).
Proof.
  revert prev off s. induction fuel as [|fuel IH]; intros prev off s; [done|].
  cbn [iter_frames_loop flat_iter].
  pose proof (next_frame_flat max prev off s) as H.
  destruct (next_frame max prev off s); simpl in H; rewrite <- H; [|done|done].
  by rewrite IH.
Qed.

(** The journal written for a list of payloads, and the records it holds. *)
Fixpoint journal_of (prev : bytes) (ps : list bytes) : bytes :=
  match ps with
  | [] => []
  | p :: ps => frame_of p prev ++ journal_of (hash_of p prev) ps
  end.

Fixpoint frames_of (prev : bytes) (off : nat) (ps : list bytes) : list FrameRecord :=
  match ps with
  | [] => []
  | p :: ps =>
      mkFrame p prev (hash_of p prev) off (76 + length p)
      :: frames_of (hash_of p prev) (off + (76 + length p)) ps
  end.

Definition payloads_ok (max : Z) (ps : list bytes) : Prop :=
  Forall (fun p => Z.of_nat (length p) <= max) ps.

Lemma encode_chain_ok max prev ps raw :
  0 < max <= 0xFFFFFFFF -> length prev = 32%nat ->
  encode_chain max prev ps = Ok raw <-> payloads_ok max ps /\ raw = journal_of prev ps.
Proof.
  intros Hmax. revert prev raw. induction ps as [|p ps IH]; intros prev raw Hprev; simpl.
  - split; [intros [= <-]; split; [constructor|done] | by intros [_ ->]].
  - rewrite rbind_ok. split.
    + intros (f & Hf & H). apply encode_frame_ok in Hf as (_ & _ & Hp & ->). inv_ok. subst.
      change (drop _ _) with (drop (44 + length p) (frame_of p prev)) in Hr.
      rewrite (frame_of_hash p prev Hprev) in Hr.
      apply IH in Hr as [Hps ->]; [|apply hash_of_length]. split; [by constructor|done].
    + intros [Hps ->]. inversion Hps as [|? ? Hp Hps']; subst. exists (frame_of p prev).
      split; [by apply encode_frame_ok|].
      change (drop _ _) with (drop (44 + length p) (frame_of p prev)).
      rewrite (frame_of_hash p prev Hprev).
      by rewrite (proj2 (IH _ _ (hash_of_length p prev)) (conj Hps' eq_refl)).
Qed.

Lemma take_app_split {A} (l1 l2 : list A) k :
  (length l1 <= k)%nat -> take k (l1 ++ l2) = l1 ++ take (k - length l1) l2.
Proof. intros H. rewrite take_app. by rewrite (take_ge l1) by lia. Qed.

(** Reading any prefix of a written journal. *)
Lemma flat_iter_prefix max ps fuel prev off k :
  0 < max <= 0xFFFFFFFF -> length prev = 32%nat -> payloads_ok max ps ->
  (k <= length (journal_of prev ps))%nat -> (k < fuel)%nat ->
  exists j,
    (j <= length ps)%nat
    /\ (length (journal_of prev (take j ps)) <= k)%nat
    /\ ((j < length ps)%nat -> (k < length (journal_of prev (take (S j) ps)))%nat)
    /\ flat_iter fuel max prev off (take k (journal_of prev ps))
       = (frames_of prev off (take j ps),
          if bool_decide (k = length (journal_of prev (take j ps))) then Finished
          else Raised (TornTail (off + length (journal_of prev (take j ps))))).
Proof.
  intros Hmax Hprev Hps. revert fuel prev off k Hprev.
  induction Hps as [|p ps Hp Hps IH]; intros fuel prev off k Hprev Hk Hf.
  { exists O. simpl in *. assert (k = O) as -> by lia. destruct fuel; [lia|].
    cbn. by split_and!; [lia|lia|lia|]. }
  assert (Hok : frame_ok max prev p) by done.
  pose proof (frame_of_length p prev Hprev) as Hlen.
  destruct fuel as [|fuel]; [lia|]. cbn [journal_of] in *. rewrite length_app in Hk.
  destruct (decide (length (frame_of p prev) <= k)%nat) as [Hle|Hgt].
  - destruct (IH fuel (hash_of p prev) (off + (76 + length p))%nat
                (k - length (frame_of p prev))%nat) as (j & Hj & Hlo & Hhi & Heq);
      [apply hash_of_length|lia|lia|].
    exists (S j). cbn [length take journal_of frames_of].
    rewrite length_app. split_and!; [lia|lia| |].
    { intros Hjl. rewrite length_app. assert (Hjl' : (j < length ps)%nat) by lia.
      specialize (Hhi Hjl'). lia. }
    rewrite take_app_split by done. cbn [flat_iter]. rewrite flat_complete by done.
    cbn [record_hash size]. rewrite Heq. f_equal.
    rewrite (bool_decide_ext (k = _)%nat
      ((k - length (frame_of p prev))%nat = length (journal_of (hash_of p prev) (take j ps))))
      by lia.
    destruct (bool_decide _); [done|]. do 2 f_equal. lia.
  - exists O. cbn [take journal_of frames_of length]. split_and!; [lia|lia| |].
    { intros _. rewrite app_nil_r. lia. }
    rewrite take_app_le by lia. destruct (decide (k = O)) as [->|Hk0].
    + by cbn.
    + rewrite bool_decide_eq_false_2 by done. cbn [flat_iter].
      rewrite flat_torn by (done || lia). by rewrite Nat.add_0_r.
Qed.

Lemma decode_flat raw ks max :
  read_frames (mkStream raw ks) max =
  (let* _ := validate_max_frame max in
   match flat_iter (S (length raw)) max zero_hash 0 raw with
   | (rs, Raised (TornTail n)) => Ok (mkDecoded rs true n)
   | (rs, Raised e) => Err e
   | (rs, Finished) =>
       Ok (mkDecoded rs false
             (match last rs with Some r => offset r + size r | None => 0 end)%nat)
   end).
Proof.
  unfold read_frames, iter_frames. destruct (validate_max_frame max) as [[]|e] eqn:E; cbn [rbind].
  - by rewrite iter_frames_flat.
  - unfold validate_max_frame, guard in E. repeat case_match; simplify_eq/=; done.
Qed.

Lemma validate_max_frame_ok max x :
  validate_max_frame max = Ok x <-> 0 < max <= 0xFFFFFFFF.
Proof.
  unfold validate_max_frame. split; [intros H; inv_ok; breflect; lia|].
  intros [H1 H2]. rewrite (proj2 (Z.ltb_lt _ _)), (proj2 (Z.leb_le _ _)) by done.
  by destruct x.
Qed.

Lemma frames_of_end prev off ps r :
  length prev = 32%nat -> last (frames_of prev off ps) = Some r ->
  (offset r + size r)%nat = (off + length (journal_of prev ps))%nat.
Proof.
  revert prev off. induction ps as [|p ps IH]; intros prev off Hprev Hl; [done|].
  cbn [journal_of]. rewrite length_app, frame_of_length by done.
  destruct ps as [|p' ps].
  - cbn [frames_of last] in Hl. injection Hl as <-. cbn [offset size journal_of length]. lia.
  - cbn [frames_of] in Hl. rewrite last_cons_cons in Hl.
    apply IH in Hl; [|apply hash_of_length]. lia.
Qed.

(** An AGF1 journal written by chaining [encode_frame] over any payloads
    within the frame limit is decoded back to exactly those payloads, in order,
    with their offsets, sizes and hash links, no torn tail, and every byte
    verified. *)
Theorem journal_roundtrip max ps raw :
  0 < max <= 0xFFFFFFFF ->
  encode_chain max zero_hash ps = Ok raw ->
  decode_frames raw max = Ok (mkDecoded (frames_of zero_hash 0 ps) false (length raw)).
Proof.
  intros Hmax (Hps & ->)%encode_chain_ok; [|done|reflexivity].
  unfold decode_frames. rewrite decode_flat, (proj2 (validate_max_frame_ok max tt) Hmax).
  cbn [rbind]. set (raw := journal_of zero_hash ps).
  destruct (flat_iter_prefix max ps (S (length raw)) zero_hash 0 (length raw))
    as (j & Hj & Hlo & Hhi & Heq); [done|reflexivity|done|done|lia|].
  assert (j = length ps) as ->.
  { destruct (decide (j < length ps)%nat) as [Hlt|]; [|lia]. specialize (Hhi Hlt).
    assert (Hmono : (length (journal_of zero_hash (take (S j) ps)) <= length raw)%nat); [|lia].
    unfold raw. rewrite <- (take_drop (S j) ps) at 2. clear.
    generalize zero_hash as h. generalize (take (S j) ps) as a.
    induction a as [|x a IH]; intros h; simpl; [lia|]. rewrite !length_app.
    specialize (IH (hash_of x h)). lia. }
  rewrite (take_ge ps) in Heq by lia. fold raw in Heq.
  rewrite bool_decide_eq_true_2 in Heq by done.
  rewrite take_ge in Heq by done. rewrite Heq. do 2 f_equal.
  destruct (last (frames_of zero_hash 0 ps)) as [r|] eqn:El.
  - by rewrite (frames_of_end _ _ _ _ (eq_refl : length zero_hash = 32%nat) El).
  - apply last_None in El. by destruct ps.
Qed.

(** Decoding any prefix of a written journal. *)
Lemma decode_frames_prefix max ps k :
  0 < max <= 0xFFFFFFFF -> payloads_ok max ps -> (k <= length (journal_of zero_hash ps))%nat ->
  exists j, (j <= length ps)%nat /\ (length (journal_of zero_hash (take j ps)) <= k)%nat
    /\ ((j < length ps)%nat -> (k < length (journal_of zero_hash (take (S j) ps)))%nat)
    /\ decode_frames (take k (journal_of zero_hash ps)) max
       = Ok (mkDecoded (frames_of zero_hash 0 (take j ps))
               (bool_decide (k <> length (journal_of zero_hash (take j ps))))
               (length (journal_of zero_hash (take j ps)))).
Proof.
  intros Hmax Hps Hk.
  destruct (flat_iter_prefix max ps (S k) zero_hash 0 k)
    as (j & Hj & Hlo & Hhi & Heq); [done|reflexivity|done|done|lia|].
  exists j. split_and!; [done..|].
  unfold decode_frames. rewrite decode_flat, (proj2 (validate_max_frame_ok max tt) Hmax).
  cbn [rbind]. rewrite length_take, Nat.min_l, Heq by done.
  destruct (bool_decide_reflect (k = length (journal_of zero_hash (take j ps)))) as [E|E].
  - rewrite bool_decide_eq_false_2 by auto. do 2 f_equal.
    destruct (last (frames_of zero_hash 0 (take j ps))) as [r|] eqn:El.
    + by rewrite (frames_of_end _ _ _ _ (eq_refl : length zero_hash = 32%nat) El).
    + apply last_None in El. by destruct (take j ps).
  - by rewrite bool_decide_eq_true_2.
Qed.

(** C35: a crash that leaves any prefix of a written journal never reads as
    corruption: exactly the frames that fit whole are returned, [verified_bytes]
    is the end of the last of them, and [torn_tail] is set exactly when bytes of
    an incomplete frame follow. *)
Theorem journal_crash_prefix max ps raw k :
  0 < max <= 0xFFFFFFFF ->
  encode_chain max zero_hash ps = Ok raw -> (k <= length raw)%nat ->
  exists j whole,
    encode_chain max zero_hash (take j ps) = Ok whole
    /\ (length whole <= k)%nat
    /\ (forall next, (j < length ps)%nat ->
          encode_chain max zero_hash (take (S j) ps) = Ok next -> (k < length next)%nat)
    /\ decode_frames (take k raw) max
       = Ok (mkDecoded (frames_of zero_hash 0 (take j ps))
               (bool_decide (k <> length whole)) (length whole)).
Proof.
  intros Hmax (Hps & ->)%encode_chain_ok Hk; [|done|reflexivity].
  destruct (decode_frames_prefix max ps k Hmax Hps Hk) as (j & Hj & Hlo & Hhi & Heq).
  exists j, (journal_of zero_hash (take j ps)). split_and!; [|done| |done].
  - apply encode_chain_ok; [done|reflexivity|]. split; [|done]. by apply Forall_take.
  - intros nx Hlt (_ & ->)%encode_chain_ok; [auto|done|reflexivity].
Qed.

Lemma flat_iter_sound fuel max prev off d rs e :
  0 < max <= 0xFFFFFFFF -> length prev = 32%nat -> (length d < fuel)%nat ->
  flat_iter fuel max prev off d = (rs, e) ->
  payloads_ok max (map payload rs)
  /\ rs = frames_of prev off (map payload rs)
  /\ (exists tl, d = journal_of prev (map payload rs) ++ tl /\ (e = Finished -> tl = []))
  /\ (forall n, e = Raised (TornTail n) ->
        n = off + length (journal_of prev (map payload rs)))%nat.
Proof.
  intros Hmax. revert prev off d rs. induction fuel as [|fuel IH];
    intros prev off d rs Hprev Hf H; [lia|]. cbn [flat_iter] in H.
  destruct (flat_frame max prev off d) as [r d'| |ex] eqn:E.
  - apply flat_sound in E as (Hok & -> & Hr); [|done].
    rewrite length_app, frame_of_length in Hf by done.
    destruct (flat_iter fuel max (record_hash r) (off + size r) d') as [rs' e'] eqn:E'.
    injection H as <- <-. rewrite Hr in E'. cbn [record_hash size] in E'.
    apply IH in E' as (H1 & H2 & (tl & -> & H3) & H4); [|apply hash_of_length|lia].
    cbn [map]. split_and!.
    + constructor; [by destruct Hok as (_ & _ & ?)|done].
    + cbn [frames_of]. f_equal; done.
    + exists tl. cbn [journal_of]. by rewrite <- app_assoc.
    + intros n ->. cbn [journal_of]. rewrite length_app, frame_of_length by done.
      rewrite (H4 n eq_refl). lia.
  - injection H as <- <-. unfold flat_frame in E.
    destruct (bool_decide_reflect (d = [])) as [->|]; [|by repeat case_match].
    split_and!; [constructor|done|by exists []|done].
  - injection H as <- <-. split_and!; [constructor|done|by exists d|].
    intros n [= ->]. unfold flat_frame in E. repeat case_match; simplify_eq/=; lia.
Qed.

Lemma decode_frames_sound_aux raw max d :
  decode_frames raw max = Ok d ->
  encode_chain max zero_hash (map payload (records d)) = Ok (take (verified_bytes d) raw)
  /\ records d = frames_of zero_hash 0 (map payload (records d))
  /\ (verified_bytes d <= length raw)%nat
  /\ (torn_tail d = false -> verified_bytes d = length raw).
Proof.
  unfold decode_frames. rewrite decode_flat. intros H. inv_ok.
  apply validate_max_frame_ok in Hr as Hmax.
  destruct (flat_iter (S (length raw)) max zero_hash 0 raw) as [rs e] eqn:E.
  apply flat_iter_sound in E as (H1 & H2 & (tl & -> & H3) & H4); [|done|reflexivity|lia].
  assert (Hv : verified_bytes d = length (journal_of zero_hash (map payload rs))
               /\ records d = rs /\ (torn_tail d = false -> e = Finished)).
  { destruct e as [|[| |n]]; inv_ok; subst; cbn; split_and!; try done.
    - destruct (last rs) as [r|] eqn:El.
      + rewrite H2 in El.
        by rewrite (frames_of_end _ _ _ _ (eq_refl : length zero_hash = 32%nat) El).
      + apply last_None in El. by subst.
    - by apply H4. }
  destruct Hv as (Hv & -> & Ht). rewrite Hv, length_app. split_and!; [|done|lia|].
  - apply encode_chain_ok; [done|reflexivity|]. split; [done|]. by apply take_app_length.
  - intros Hnt. rewrite (H3 (Ht Hnt)). simpl. lia.
Qed.

(** Everything [decode_frames] accepts is exactly a journal of AGF1 frames:
    re-encoding the returned payloads with the hash chain starting from 32 zero
    bytes reproduces the verified bytes, and without a torn tail the verified
    bytes are the whole input; no two byte strings share a decoding. *)
Theorem decode_frames_sound raw max d :
  decode_frames raw max = Ok d ->
  encode_chain max zero_hash (map payload (records d)) = Ok (take (verified_bytes d) raw)
  /\ records d = frames_of zero_hash 0 (map payload (records d))
  /\ (verified_bytes d <= length raw)%nat
  /\ (torn_tail d = false -> verified_bytes d = length raw).
Proof. apply decode_frames_sound_aux. Qed.

(** How the stream splits its data into short reads never changes what is
    read: [read_frames] on any chunking agrees with [decode_frames] on the bytes. *)
Theorem read_frames_chunking raw ks max :
  read_frames (mkStream raw ks) max = decode_frames raw max.
Proof. unfold decode_frames. by rewrite !decode_flat. Qed.

(** ** The hash chain binds the history *)

(** The hash a journal ends with. *)
Definition chain_head (prev : bytes) (ps : list bytes) : bytes :=
  foldl (fun h p => hash_of p h) prev ps.

Lemma journal_of_app prev ps qs :
  journal_of prev (ps ++ qs) = journal_of prev ps ++ journal_of (chain_head prev ps) qs.
Proof.
  revert prev. induction ps as [|p ps IH]; intros prev; [done|].
  cbn [app journal_of]. rewrite IH. unfold chain_head. cbn [foldl]. by rewrite app_assoc.
Qed.

Lemma last_hash prev off ps r :
  last (frames_of prev off ps) = Some r -> record_hash r = chain_head prev ps.
Proof.
  revert prev off. induction ps as [|p [|p' ps] IH]; intros prev off H; [done| |].
  - by injection H as <-.
  - cbn [frames_of] in H. rewrite last_cons_cons in H. by apply IH in H.
Qed.

Lemma chain_head_length prev ps : length prev = 32%nat -> length (chain_head prev ps) = 32%nat.
Proof.
  intros H. destruct ps as [|p ps] using rev_ind; [done|].
  unfold chain_head. rewrite foldl_app. apply hash_of_length.
Qed.

Lemma frame_body_inj p q h k :
  length h = 32%nat -> length k = 32%nat ->
  Z.of_nat (length p) <= 0xFFFFFFFF -> Z.of_nat (length q) <= 0xFFFFFFFF ->
  frame_body p h ++ be_encode 4 (crc32c (frame_body p h))
  = frame_body q k ++ be_encode 4 (crc32c (frame_body q k)) -> p = q /\ h = k.
Proof.
  intros Hh Hk Hp Hq E. unfold frame_body in E. rewrite <- !app_assoc in E.
  apply app_inj_1 in E as [_ E]; [|done].
  apply app_inj_1 in E as [El E]; [|by rewrite !be_encode_length].
  apply (f_equal be_decode) in El. rewrite !be_decode_encode in El by (simpl; lia).
  apply app_inj_1 in E as [-> E]; [|congruence].
  apply app_inj_1 in E as [-> _]; [|lia]. done.
Qed.

(** What the hash of a frame is computed from. *)
Definition hash_preimage (p prev : bytes) : bytes :=
  HASH_DOMAIN ++ frame_body p prev ++ be_encode 4 (crc32c (frame_body p prev)).

Definition record_preimage (r : FrameRecord) : bytes :=
  hash_preimage (payload r) (previous_hash r).

Lemma frames_of_length prev off ps : length (frames_of prev off ps) = length ps.
Proof. revert prev off. induction ps; simpl; auto. Qed.

Lemma frames_of_snoc prev off ps p :
  exists o, frames_of prev off (ps ++ [p])
            = frames_of prev off ps
              ++ [mkFrame p (chain_head prev ps) (hash_of p (chain_head prev ps)) o
                    (76 + length p)].
Proof.
  revert prev off. induction ps as [|q ps IH]; intros prev off; [by exists off|].
  cbn [app frames_of]. destruct (IH (hash_of q prev) (off + (76 + length q))%nat) as [o ->].
  by exists o.
Qed.

Lemma chain_head_inj max ps qs :
  max <= 0xFFFFFFFF -> payloads_ok max ps -> payloads_ok max qs ->
  length ps = length qs -> chain_head zero_hash ps = chain_head zero_hash qs ->
  ps = qs
  \/ exists k r1 r2, frames_of zero_hash 0 ps !! k = Some r1
       /\ frames_of zero_hash 0 qs !! k = Some r2
       /\ collision (record_preimage r1) (record_preimage r2).
Proof.
  intros Hmax. revert qs. induction ps as [|p ps IH] using rev_ind; intros qs Hp Hq Hl Hh.
  { by destruct qs; [left|]. }
  destruct qs as [|q qs _] using rev_ind; [rewrite length_app in Hl; simpl in Hl; lia|].
  unfold chain_head in Hh. rewrite !foldl_app in Hh. cbn [foldl] in Hh.
  fold (chain_head zero_hash ps) (chain_head zero_hash qs) in Hh.
  apply Forall_app in Hp as [Hps Hp1], Hq as [Hqs Hq1].
  apply Forall_cons in Hp1 as [Hp1 _], Hq1 as [Hq1 _].
  rewrite !length_app in Hl. simpl in Hl.
  destruct (frames_of_snoc zero_hash 0 ps p) as [o1 F1], (frames_of_snoc zero_hash 0 qs q) as [o2 F2].
  unfold hash_of in Hh. apply (f_equal hex_encode) in Hh.
  apply sha256_hex_inj in Hh as [E|C].
  - apply app_inv_head, frame_body_inj in E as [-> E];
      [|by apply chain_head_length..|lia|lia].
    destruct (IH qs Hps Hqs ltac:(lia) E) as [->|(k & r1 & r2 & K1 & K2 & C)]; [by left|].
    right. exists k, r1, r2. rewrite F1, F2.
    by rewrite !lookup_app_l by (by eapply lookup_lt_Some).
  - right. exists (length ps). do 2 eexists. rewrite F1, F2. split; [|split].
    + apply list_lookup_middle. by rewrite frames_of_length.
    + apply list_lookup_middle. rewrite frames_of_length. lia.
    + exact C.
Qed.

(** The last record hash of a journal commits to its whole history: two
    accepted journals with the same number of records and the same last record
    hash hold the same payloads, hence the same verified bytes, unless the bytes
    hashed for two records at the same position are a SHA-256 collision. *)
Theorem head_hash_binds_history raw1 raw2 max d1 d2 r1 r2 :
  decode_frames raw1 max = Ok d1 -> decode_frames raw2 max = Ok d2 ->
  length (records d1) = length (records d2) ->
  last (records d1) = Some r1 -> last (records d2) = Some r2 ->
  record_hash r1 = record_hash r2 ->
  take (verified_bytes d1) raw1 = take (verified_bytes d2) raw2
  \/ exists k s1 s2, records d1 !! k = Some s1 /\ records d2 !! k = Some s2
       /\ collision (record_preimage s1) (record_preimage s2).
Proof.
  intros H1 H2 Hl L1 L2 Hh.
  assert (Hmax : 0 < max <= 0xFFFFFFFF).
  { unfold decode_frames in H1. rewrite decode_flat in H1. inv_ok.
    by eapply validate_max_frame_ok. }
  apply decode_frames_sound_aux in H1 as (E1 & F1 & _), H2 as (E2 & F2 & _).
  apply encode_chain_ok in E1 as [P1 ->], E2 as [P2 ->]; [|done|reflexivity|done|reflexivity].
  rewrite F1 in L1. rewrite F2 in L2. apply last_hash in L1, L2.
  destruct (chain_head_inj max _ _ (proj2 Hmax) P1 P2) as [->|C]; [| |by left|].
  - by rewrite !length_map.
  - congruence.
  - right. by rewrite <- F1, <- F2 in C.
Qed.
End Codec.

(** A bitwise CRC32C (Castagnoli, reflected), used to instantiate the parameter. *)
Definition crc32c_bitwise (x : bytes) : Z :=
  let step c := if Z.odd c then Z.lxor (Z.shiftr c 1) 0x82F63B78 else Z.shiftr c 1 in
  let byte c y := Nat.iter 8 step (Z.lxor c (byte_val y)) in
  Z.lxor (foldl byte 0xFFFFFFFF x) 0xFFFFFFFF mod 2 ^ 32.

Lemma crc32c_bitwise_range x : 0 <= crc32c_bitwise x < 2 ^ 32.
Proof. by apply Z.mod_pos_bound. Qed.

Example crc32c_check : crc32c_bitwise (bstr "123456789") = 0xE3069283.
Proof. vm_compute. reflexivity. Qed.

Definition sample_payloads : list bytes := [bstr "hello"; []; bstr "{}"].

Lemma journal_roundtrip_witness : exists raw,
  encode_chain crc32c_bitwise 1024 zero_hash sample_payloads = Ok raw
  /\ decode_frames crc32c_bitwise raw 1024
     = Ok (mkDecoded (frames_of crc32c_bitwise zero_hash 0 sample_payloads) false (length raw)).
Proof.
  eexists. split; [vm_compute; reflexivity|].
  apply (journal_roundtrip crc32c_bitwise crc32c_bitwise_range); [lia|].
  vm_compute. reflexivity.
Defined.

Lemma journal_crash_prefix_witness : exists raw,
  encode_chain crc32c_bitwise 1024 zero_hash sample_payloads = Ok raw
  /\ exists j whole,
    encode_chain crc32c_bitwise 1024 zero_hash (take j sample_payloads) = Ok whole
    /\ (length whole <= 100)%nat
    /\ (forall next, (j < length sample_payloads)%nat ->
          encode_chain crc32c_bitwise 1024 zero_hash (take (S j) sample_payloads) = Ok next ->
          (100 < length next)%nat)
    /\ decode_frames crc32c_bitwise (take 100 raw) 1024
       = Ok (mkDecoded (frames_of crc32c_bitwise zero_hash 0 (take j sample_payloads))
               (bool_decide (100%nat <> length whole)) (length whole)).
Proof.
  eexists. split; [vm_compute; reflexivity|].
  apply (journal_crash_prefix crc32c_bitwise crc32c_bitwise_range);
    [lia|vm_compute; reflexivity|apply Nat.leb_le; vm_compute; reflexivity].
Defined.

Lemma decode_frames_sound_witness : exists raw d,
  decode_frames crc32c_bitwise raw 1024 = Ok d
  /\ encode_chain crc32c_bitwise 1024 zero_hash (map payload (records d))
     = Ok (take (verified_bytes d) raw)
  /\ records d = frames_of crc32c_bitwise zero_hash 0 (map payload (records d))
  /\ (verified_bytes d <= length raw)%nat
  /\ (torn_tail d = false -> verified_bytes d = length raw).
Proof.
  exists (frame_of crc32c_bitwise (bstr "hi") zero_hash ++ bstr "AGF"). eexists.
  split; [vm_compute; reflexivity|].
  apply (decode_frames_sound crc32c_bitwise).
  vm_compute. reflexivity.
Defined.

Lemma head_hash_binds_history_witness : exists raw1 raw2 d1 d2,
  raw1 <> raw2
  /\ decode_frames crc32c_bitwise raw1 1024 = Ok d1
  /\ decode_frames crc32c_bitwise raw2 1024 = Ok d2
  /\ (take (verified_bytes d1) raw1 = take (verified_bytes d2) raw2
      \/ exists k s1 s2, records d1 !! k = Some s1 /\ records d2 !! k = Some s2
           /\ collision (record_preimage crc32c_bitwise s1)
                (record_preimage crc32c_bitwise s2)).
Proof.
  exists (frame_of crc32c_bitwise (bstr "hi") zero_hash),
         (frame_of crc32c_bitwise (bstr "hi") zero_hash ++ bstr "AGF").
  do 2 eexists. split; [|split; [vm_compute; reflexivity|split; [vm_compute; reflexivity|]]].
  - intros H%(f_equal length). vm_compute in H. discriminate.
  - eapply (head_hash_binds_history crc32c_bitwise _ _ 1024);
      [vm_compute; reflexivity|vm_compute; reflexivity|reflexivity|reflexivity|reflexivity
      |reflexivity].
Defined.
