(* ===== verification/Time.v ===== *)
(** * RFC 3339 timestamps with nanoseconds

    [parse_rfc3339nano_utc_ns] of [correlation/primitives.py] (with
    [_is_leap_year] and [_days_from_civil]), [_format_rfc3339nano_utc_ns], the
    historical coverage window and the interval test of [coverage/grammar.py].
    [date.fromordinal] is the proleptic Gregorian conversion of Python's
    [datetime] module.  The theorems: formatting and parsing invert each other on
    the whole range of years 0001 to 9999, and the window test decides
    intersection of real intervals. *)

From S2P Require Import Prelude CanonicalJson JsonDecode.
Local Open Scope Z_scope.
Local Open Scope agmind_scope.

(** Linear arithmetic with divisions by constants throughout this file. *)
Local Ltac Zify.zify_post_hook ::= Z.div_mod_to_equations.

Definition NANOSECONDS_PER_SECOND : Z := 1000000000.
Definition SECONDS_PER_DAY : Z := 86400.

(** ** Parsing *)

Definition is_leap_year (year : Z) : bool :=
  (year mod 4 =? 0) && (negb (year mod 100 =? 0) || (year mod 400 =? 0)).

Definition days_from_civil (year month day : Z) : Z :=
  let adjusted_year := year - (if month <=? 2 then 1 else 0) in
  let era := adjusted_year / 400 in
  let year_of_era := adjusted_year - era * 400 in
  let shifted_month := month + (if 2 <? month then -3 else 9) in
  let day_of_year := (153 * shifted_month + 2) / 5 + day - 1 in
  let day_of_era :=
    year_of_era * 365 + year_of_era / 4 - year_of_era / 100 + day_of_year in
  era * 146097 + day_of_era - 719468.

(** [[0-9]{n}] at the head of the text. *)
Fixpoint take_digits (n : nat) (t : pystr) : option (pystr * pystr) :=
  match n, t with
  | O, _ => Some ([], t)
  | S n, c :: t =>
      if is_digit c then
        match take_digits n t with
        | Some (ds, rest) => Some (c :: ds, rest)
        | None => None
        end
      else None
  | S _, [] => None
  end.

Definition expect (c : Z) (t : pystr) : option pystr :=
  match t with d :: t => if c =? d then Some t else None | [] => None end.

(** The groups of the timestamp pattern. *)
Record timestamp_match := mkTimestamp {
  m_year : pystr; m_month : pystr; m_day : pystr;
  m_hour : pystr; m_minute : pystr; m_second : pystr;
  m_fraction : option pystr }.

(** [(?:\.([0-9]{1,9}))?Z] up to the end of the text. *)
Definition match_fraction (t : pystr) : option (option pystr) :=
  match t with
  | c :: t' =>
      if c =? 46 then
        let (ds, rest) := span_digits t' in
        if bool_decide (1 <= length ds <= 9)%nat && bool_decide (rest = u "Z")
        then Some (Some ds) else None
      else if bool_decide (t = u "Z") then Some None else None
  | [] => None
  end.

(** [_TIMESTAMP.fullmatch] *)
Definition match_timestamp (value : pystr) : option timestamp_match :=
  y ← take_digits 4 value; t ← expect 45 y.2;
  mo ← take_digits 2 t; t ← expect 45 mo.2;
  d ← take_digits 2 t; t ← expect 84 d.2;
  h ← take_digits 2 t; t ← expect 58 h.2;
  mi ← take_digits 2 t; t ← expect 58 mi.2;
  s ← take_digits 2 t;
  f ← match_fraction s.2;
  Some (mkTimestamp y.1 mo.1 d.1 h.1 mi.1 s.1 f).

Definition month_lengths (year : Z) : list Z :=
  [31; if is_leap_year year then 29 else 28; 31; 30; 31; 30; 31; 31; 30; 31; 30; 31].

Definition month_length (year month : Z) : Z :=
  nth (Z.to_nat (month - 1)) (month_lengths year) 0.

(** [s.ljust(9, "0")] *)
Definition ljust9 (s : pystr) : pystr := s ++ repeat 48 (9 - length s).

Definition parse_rfc3339nano_utc_ns (value : pystr) : result py_exn Z :=
  let* m := of_option ValueError (match_timestamp value) in
  let year := digits_value (m_year m) in
  let month := digits_value (m_month m) in
  let day := digits_value (m_day m) in
  let hour := digits_value (m_hour m) in
  let minute := digits_value (m_minute m) in
  let second := digits_value (m_second m) in
  guard ((1 <=? year) && (year <=? 9999) && ((1 <=? month) && (month <=? 12))) ValueError ;;*
  guard ((1 <=? day) && (day <=? month_length year month)
         && ((0 <=? hour) && (hour <=? 23))
         && ((0 <=? minute) && (minute <=? 59))
         && ((0 <=? second) && (second <=? 59))) ValueError ;;*
  let nanosecond :=
    match m_fraction m with None => 0 | Some f => digits_value (ljust9 f) end in
  let days := days_from_civil year month day in
  let seconds := ((days * 24 + hour) * 60 + minute) * 60 + second in
  Ok (seconds * NANOSECONDS_PER_SECOND + nanosecond).

(** ** Formatting *)

(** [date(1970, 1, 1).toordinal()] *)
Definition UNIX_EPOCH_ORDINAL : Z := 719163.

(** The values of [_MIN_TIMESTAMP_NS] and [_MAX_TIMESTAMP_NS]; the code computes
    them by parsing, see [min_timestamp_parsed] and [max_timestamp_parsed]. *)
Definition MIN_TIMESTAMP_NS : Z := -62135596800000000000.
Definition MAX_TIMESTAMP_NS : Z := 253402300799999999999.

Definition days_before_month (leap : bool) (month : Z) : Z :=
  nth (Z.to_nat (month - 1)) [0; 31; 59; 90; 120; 151; 181; 212; 243; 273; 304; 334] 0
  + (if (2 <? month) && leap then 1 else 0).

Definition days_in_month (leap : bool) (month : Z) : Z :=
  nth (Z.to_nat (month - 1)) [31; 28; 31; 30; 31; 30; 31; 31; 30; 31; 30; 31] 0
  + (if (month =? 2) && leap then 1 else 0).

(** Month and day of a zero-based day of the year. *)
Definition month_day (leap : bool) (n : Z) : Z * Z :=
  let month := Z.shiftr (n + 50) 5 in
  let preceding := days_before_month leap month in
  if n <? preceding then
    let month := month - 1 in
    let preceding := preceding - days_in_month leap month in
    (month, n - preceding + 1)
  else (month, n - preceding + 1).

(** [date.fromordinal]: year, month and day of a one-based ordinal. *)
Definition fromordinal (ordinal : Z) : Z * (Z * Z) :=
  let n := ordinal - 1 in
  let n400 := n / 146097 in
  let n := n mod 146097 in
  let n100 := n / 36524 in
  let n := n mod 36524 in
  let n4 := n / 1461 in
  let n := n mod 1461 in
  let n1 := n / 365 in
  let n := n mod 365 in
  let year := n400 * 400 + 1 + n100 * 100 + n4 * 4 + n1 in
  if (n1 =? 4) || (n100 =? 4) then (year - 1, (12, 31))
  else
    let leap := (n1 =? 3) && (negb (n4 =? 24) || (n100 =? 3)) in
    (year, month_day leap n).

(** [f"{n:0wd}"] for a non-negative [n] *)
Definition pad (w : nat) (n : Z) : pystr :=
  let s := dec_nonneg n in repeat 48 (w - length s) ++ s.

(** [s.rstrip("0")] *)
Fixpoint rstrip0 (s : pystr) : pystr :=
  match s with
  | [] => []
  | c :: s =>
      match rstrip0 s with
      | [] => if c =? 48 then [] else [c]
      | s' => c :: s'
      end
  end.

Definition format_rfc3339nano_utc_ns (value : Z) : result py_exn pystr :=
  guard ((MIN_TIMESTAMP_NS <=? value) && (value <=? MAX_TIMESTAMP_NS)) ValueError ;;*
  let seconds := value / NANOSECONDS_PER_SECOND in
  let nanosecond := value mod NANOSECONDS_PER_SECOND in
  let days := seconds / SECONDS_PER_DAY in
  let second_of_day := seconds mod SECONDS_PER_DAY in
  let calendar := fromordinal (days + UNIX_EPOCH_ORDINAL) in
  let hour := second_of_day / 3600 in
  let remainder := second_of_day mod 3600 in
  let minute := remainder / 60 in
  let second := remainder mod 60 in
  let rendered :=
    pad 4 calendar.1 ++ [45] ++ pad 2 calendar.2.1 ++ [45] ++ pad 2 calendar.2.2
    ++ [84] ++ pad 2 hour ++ [58] ++ pad 2 minute ++ [58] ++ pad 2 second in
  Ok (rendered
      ++ (if nanosecond =? 0 then [] else [46] ++ rstrip0 (pad 9 nanosecond))
      ++ [90]).

(** ** Historical coverage window *)

Record HistoricalCoverageWindow := mkWindow {
  window_start : option pystr; window_end : pystr;
  window_start_ns : option Z; window_end_ns : Z; complete : bool }.

Definition historical_coverage_window (trigger_event_time : pystr)
    (clock_uncertainty_ms : Z) (decision_time : pystr)
  : result py_exn HistoricalCoverageWindow :=
  guard ((0 <=? clock_uncertainty_ms) && (clock_uncertainty_ms <=? 2000)) ValueError ;;*
  let* trigger_ns := parse_rfc3339nano_utc_ns trigger_event_time in
  let* end_ns := parse_rfc3339nano_utc_ns decision_time in
  let start_ns := trigger_ns - clock_uncertainty_ms * 1000000 in
  if start_ns <? MIN_TIMESTAMP_NS then
    Ok (mkWindow None decision_time None end_ns false)
  else
    let* start := format_rfc3339nano_utc_ns start_ns in
    Ok (mkWindow (Some start) decision_time (Some start_ns) end_ns (start_ns <=? end_ns)).

(** [None if x is None else parse(x)] *)
Definition parse_optional_ns (value : option pystr) : result py_exn (option Z) :=
  match value with
  | None => Ok None
  | Some s => let* ns := parse_rfc3339nano_utc_ns s in Ok (Some ns)
  end.

Definition interval_intersects_window (opened_at : pystr) (closed_at : option pystr)
    (window : HistoricalCoverageWindow) : result py_exn bool :=
  match window_start_ns window with
  | Some start_ns =>
      if complete window then
        let* opened_at_ns := parse_rfc3339nano_utc_ns opened_at in
        let* closed_at_ns := parse_optional_ns closed_at in
        guard (match closed_at_ns with Some c => opened_at_ns <=? c | None => true end)
          ValueError ;;*
        Ok ((opened_at_ns <=? window_end_ns window)
            && match closed_at_ns with Some c => start_ns <=? c | None => true end)
      else Ok false
  | None => Ok false
  end.

(** The two bounds are what the module computes at import time. *)
Lemma min_timestamp_parsed :
  parse_rfc3339nano_utc_ns (u "0001-01-01T00:00:00Z") = Ok MIN_TIMESTAMP_NS.
Proof. vm_compute. reflexivity. Qed.

Lemma max_timestamp_parsed :
  parse_rfc3339nano_utc_ns (u "9999-12-31T23:59:59.999999999Z") = Ok MAX_TIMESTAMP_NS.
Proof. vm_compute. reflexivity. Qed.

Example format_sample :
  format_rfc3339nano_utc_ns 1789000000123400000 = Ok (u "2026-09-10T00:26:40.1234Z").
Proof. vm_compute. reflexivity. Qed.

(** ** Calendar arithmetic *)

(** Days before the first of January of [year]. *)
Definition days_before_year (year : Z) : Z :=
  let p := year - 1 in 365 * p + p / 4 - p / 100 + p / 400.

(** A date of the proleptic Gregorian calendar. *)
Definition valid_date (year month day : Z) : Prop :=
  1 <= year /\ 1 <= month <= 12 /\ 1 <= day <= month_length year month.

Lemma month_cases month :
  1 <= month <= 12 ->
  month = 1 \/ month = 2 \/ month = 3 \/ month = 4 \/ month = 5 \/ month = 6 \/ month = 7
  \/ month = 8 \/ month = 9 \/ month = 10 \/ month = 11 \/ month = 12.
Proof. lia. Qed.

Lemma month_length_eq year month :
  1 <= month <= 12 -> month_length year month = days_in_month (is_leap_year year) month.
Proof.
  intros Hm. apply month_cases in Hm. unfold month_length, month_lengths, days_in_month.
  by repeat (destruct Hm as [->|Hm]); [..|subst]; destruct (is_leap_year year).
Qed.

Lemma is_leap_year_spec year :
  is_leap_year year = true
  <-> year mod 4 = 0 /\ (year mod 100 <> 0 \/ year mod 400 = 0).
Proof.
  unfold is_leap_year.
  rewrite andb_true_iff, orb_true_iff, negb_true_iff, !Z.eqb_eq, Z.eqb_neq. done.
Qed.

Lemma days_before_year_succ year :
  days_before_year (year + 1)
  = days_before_year year + 365 + (if is_leap_year year then 1 else 0).
Proof.
  unfold days_before_year. pose proof (is_leap_year_spec year) as Hl.
  destruct (is_leap_year year).
  - destruct (proj1 Hl eq_refl) as [? [?|?]]; lia.
  - assert (~ (year mod 4 = 0 /\ (year mod 100 <> 0 \/ year mod 400 = 0)))
      by (by rewrite <- Hl). lia.
Qed.

(** The era decomposition of [_days_from_civil] counts leap days. *)
Lemma era_days p :
  p / 400 * 146097 + ((p - p / 400 * 400) * 365 + (p - p / 400 * 400) / 4
                      - (p - p / 400 * 400) / 100)
  = 365 * p + p / 4 - p / 100 + p / 400.
Proof. lia. Qed.

Lemma shifted_days leap month :
  1 <= month <= 12 ->
  (153 * (month + (if 2 <? month then -3 else 9)) + 2) / 5
  = days_before_month leap month
    + (if month <=? 2 then 306 else -59 - (if leap then 1 else 0)).
Proof.
  intros Hm. apply month_cases in Hm.
  by repeat (destruct Hm as [->|Hm]); [..|subst]; destruct leap.
Qed.

Lemma days_from_civil_spec year month day :
  1 <= month <= 12 ->
  days_from_civil year month day
  = days_before_year year + days_before_month (is_leap_year year) month + day
    - UNIX_EPOCH_ORDINAL.
Proof.
  intros Hm. unfold days_from_civil. cbv zeta.
  rewrite (shifted_days (is_leap_year year)) by done.
  set (p := year - (if month <=? 2 then 1 else 0)).
  pose proof (era_days p) as He.
  pose proof (days_before_year_succ year) as Hs.
  unfold days_before_year, UNIX_EPOCH_ORDINAL in *.
  replace (year + 1 - 1) with year in Hs by lia.
  assert (Hp : p = if month <=? 2 then year - 1 else year)
    by (unfold p; destruct (month <=? 2); lia).
  clearbody p. destruct (month <=? 2), (is_leap_year year); subst p; lia.
Qed.

(** [month_day] returns a day of its month, at the right distance. *)
Definition month_day_ok (leap : bool) (n : Z) : bool :=
  let md := month_day leap n in
  (1 <=? md.1) && (md.1 <=? 12) && (1 <=? md.2) && (md.2 <=? days_in_month leap md.1)
  && (days_before_month leap md.1 + md.2 - 1 =? n).

(** Every zero-based day of a year has one month and day. *)
Lemma month_day_valid (leap : bool) n :
  0 <= n < 365 + (if leap then 1 else 0) ->
  let md := month_day leap n in
  1 <= md.1 <= 12 /\ 1 <= md.2 <= days_in_month leap md.1
  /\ days_before_month leap md.1 + md.2 - 1 = n.
Proof.
  intros Hn. enough (H : month_day_ok leap n = true).
  { unfold month_day_ok in H. cbv zeta in *. breflect. lia. }
  apply (forallb_below (month_day_ok leap) (if leap then 366 else 365)%nat);
    [destruct leap; lia|destruct leap; vm_compute; reflexivity].
Qed.

Lemma days_before_year_parts a b c d :
  0 <= b <= 3 -> 0 <= c <= 24 -> 0 <= d <= 3 ->
  days_before_year (a * 400 + 1 + b * 100 + c * 4 + d)
  = 146097 * a + 36524 * b + 1461 * c + 365 * d.
Proof. unfold days_before_year. lia. Qed.

Lemma is_leap_year_parts a b c d :
  0 <= b <= 3 -> 0 <= c <= 24 -> 0 <= d <= 3 ->
  is_leap_year (a * 400 + 1 + b * 100 + c * 4 + d)
  = (d =? 3) && (negb (c =? 24) || (b =? 3)).
Proof.
  intros. apply eq_bool_prop_intro. rewrite !Is_true_true, is_leap_year_spec.
  rewrite andb_true_iff, orb_true_iff, negb_true_iff, !Z.eqb_eq, Z.eqb_neq.
  set (y := a * 400 + 1 + b * 100 + c * 4 + d).
  assert (H4 : y mod 4 = 0 <-> d = 3) by (unfold y; lia).
  assert (H100 : d = 3 -> (y mod 100 = 0 <-> c = 24))
    by (intros ->; unfold y; split; lia).
  assert (H400 : d = 3 -> (y mod 400 = 0 <-> c = 24 /\ b = 3)).
  { intros ->. assert (Hb : b = 0 \/ b = 1 \/ b = 2 \/ b = 3) by lia.
    unfold y. destruct Hb as [->|[->|[->| ->]]]; split; lia. }
  clearbody y. destruct (decide (d = 3)) as [Hd|Hd]; [|tauto].
  specialize (H100 Hd). specialize (H400 Hd).
  destruct (decide (c = 24)), (decide (b = 3)); tauto.
Qed.

(** The last day of a leap year is its 366th. *)
Lemma leap_year_end year :
  1 <= year -> is_leap_year year = true ->
  valid_date year 12 31
  /\ days_from_civil year 12 31 = days_before_year year + 366 - UNIX_EPOCH_ORDINAL.
Proof.
  intros Hy Hl. rewrite days_from_civil_spec, Hl by lia. split.
  - unfold valid_date. rewrite month_length_eq, Hl by lia. change (days_in_month true 12) with 31. lia.
  - change (days_before_month true 12) with 335. lia.
Qed.

Lemma fromordinal_spec ordinal :
  1 <= ordinal ->
  let date := fromordinal ordinal in
  valid_date date.1 date.2.1 date.2.2
  /\ days_from_civil date.1 date.2.1 date.2.2 = ordinal - UNIX_EPOCH_ORDINAL.
Proof.
  intros Ho. unfold fromordinal. cbv zeta.
  set (n := ordinal - 1). set (n400 := n / 146097). set (r1 := n mod 146097).
  set (n100 := r1 / 36524). set (r2 := r1 mod 36524). set (n4 := r2 / 1461).
  set (r3 := r2 mod 1461). set (n1 := r3 / 365). set (r4 := r3 mod 365).
  assert (H1 : n = 146097 * n400 + r1 /\ 0 <= r1 < 146097 /\ 0 <= n400)
    by (unfold n400, r1; subst n; lia).
  assert (H2 : r1 = 36524 * n100 + r2 /\ 0 <= r2 < 36524 /\ 0 <= n100)
    by (unfold n100, r2; clearbody r1; lia).
  assert (H3 : r2 = 1461 * n4 + r3 /\ 0 <= r3 < 1461 /\ 0 <= n4)
    by (unfold n4, r3; clearbody r2; lia).
  assert (H4 : r3 = 365 * n1 + r4 /\ 0 <= r4 < 365 /\ 0 <= n1)
    by (unfold n1, r4; clearbody r3; lia).
  assert (Ho' : ordinal = n + 1) by (unfold n; lia).
  clearbody n400 n100 n4 n1 r1 r2 r3 r4 n.
  destruct ((n1 =? 4) || (n100 =? 4)) eqn:Ee.
  - apply orb_true_iff in Ee.
    set (year := n400 * 400 + 1 + n100 * 100 + n4 * 4 + n1 - 1).
    assert (Hyl : 1 <= year /\ is_leap_year year = true
                  /\ days_before_year year + 366 = ordinal).
    { unfold days_before_year. rewrite is_leap_year_spec.
      destruct Ee as [?%Z.eqb_eq|?%Z.eqb_eq]; unfold year; lia. }
    destruct Hyl as (Hy & Hl & <-). by apply leap_year_end.
  - breflect. set (year := n400 * 400 + 1 + n100 * 100 + n4 * 4 + n1).
    assert (Hb : 0 <= n100 <= 3 /\ 0 <= n4 <= 24 /\ 0 <= n1 <= 3) by lia.
    destruct Hb as (Hb & Hc & Hd).
    pose proof (days_before_year_parts n400 _ _ _ Hb Hc Hd) as Hby.
    pose proof (is_leap_year_parts n400 _ _ _ Hb Hc Hd) as Hlp.
    rewrite <- Hlp. fold year in Hby, Hlp |- *.
    destruct (month_day_valid (is_leap_year year) r4) as (Hm & Hday & Heq);
      [destruct (is_leap_year year); lia|].
    cbn [fst snd]. rewrite days_from_civil_spec, Hby by done. unfold valid_date.
    rewrite month_length_eq by done. split; [|lia].
    split; [unfold year; lia|done].
Qed.

Lemma days_before_year_mono y1 y2 :
  y1 < y2 ->
  days_before_year y1 + 365 + (if is_leap_year y1 then 1 else 0) <= days_before_year y2.
Proof.
  intros Hlt. rewrite <- days_before_year_succ. unfold days_before_year. lia.
Qed.

(** Months of a year follow each other without overlap and fill it. *)
Definition months_ok (leap : bool) (m1 m2 : Z) : bool :=
  (0 <=? days_before_month leap m1)
  && (days_before_month leap m1 + days_in_month leap m1 <=? 365 + (if leap then 1 else 0))
  && ((m2 <=? m1) || (days_before_month leap m1 + days_in_month leap m1
                      <=? days_before_month leap m2)).

Lemma months_follow leap m1 m2 :
  1 <= m1 <= 12 -> 1 <= m2 <= 12 -> months_ok leap m1 m2 = true.
Proof.
  intros H1 H2.
  assert (Hall : forallb (fun i : nat => forallb (fun j : nat =>
    months_ok leap (Z.of_nat i) (Z.of_nat j)) (seq 1 12)) (seq 1 12) = true)
    by (destruct leap; vm_compute; reflexivity).
  rewrite forallb_forall in Hall. specialize (Hall (Z.to_nat m1)).
  rewrite forallb_forall, Z2Nat.id in Hall by lia.
  rewrite <- (Z2Nat.id m2) by lia. apply Hall; apply in_seq; lia.
Qed.

Lemma day_of_year_range leap month day :
  1 <= month <= 12 -> 1 <= day <= days_in_month leap month ->
  0 <= days_before_month leap month + day - 1 < 365 + (if leap then 1 else 0).
Proof.
  intros Hm Hd. pose proof (months_follow leap month month Hm Hm) as H.
  unfold months_ok in H. breflect. lia.
Qed.

Lemma day_of_year_inj leap m1 d1 m2 d2 :
  1 <= m1 <= 12 -> 1 <= m2 <= 12 ->
  1 <= d1 <= days_in_month leap m1 -> 1 <= d2 <= days_in_month leap m2 ->
  days_before_month leap m1 + d1 = days_before_month leap m2 + d2 -> m1 = m2 /\ d1 = d2.
Proof.
  intros H1 H2 Hd1 Hd2 Heq.
  pose proof (months_follow leap m1 m2 H1 H2) as Ha.
  pose proof (months_follow leap m2 m1 H2 H1) as Hb.
  unfold months_ok in *. breflect.
  destruct (Z.lt_trichotomy m1 m2) as [Hlt|[->|Hlt]]; [|lia|];
    [rewrite (proj2 (Z.leb_gt m2 m1)) in * by done | rewrite (proj2 (Z.leb_gt m1 m2)) in * by done];
    cbn [orb] in *; breflect; lia.
Qed.

(** The civil-to-days conversion is strictly monotone in the date. *)
Lemma days_from_civil_inj y1 m1 d1 y2 m2 d2 :
  valid_date y1 m1 d1 -> valid_date y2 m2 d2 ->
  days_from_civil y1 m1 d1 = days_from_civil y2 m2 d2 -> y1 = y2 /\ m1 = m2 /\ d1 = d2.
Proof.
  intros (Hy1 & Hm1 & Hd1) (Hy2 & Hm2 & Hd2).
  rewrite month_length_eq in Hd1, Hd2 by done. rewrite !days_from_civil_spec by done.
  intros Heq. pose proof (day_of_year_range _ _ _ Hm1 Hd1). pose proof (day_of_year_range _ _ _ Hm2 Hd2).
  assert (y1 = y2) as <-.
  { destruct (Z.lt_trichotomy y1 y2) as [Hlt|[?|Hlt]]; [|done|];
      apply days_before_year_mono in Hlt; lia. }
  split; [done|]. eapply day_of_year_inj; [done..|]. lia.
Qed.

Lemma fromordinal_civil year month day :
  valid_date year month day ->
  fromordinal (days_from_civil year month day + UNIX_EPOCH_ORDINAL) = (year, (month, day)).
Proof.
  intros Hv. destruct (fromordinal_spec (days_from_civil year month day + UNIX_EPOCH_ORDINAL))
    as [Hv' Heq].
  - destruct Hv as (Hy & Hm & Hd). rewrite month_length_eq in Hd by done.
    rewrite days_from_civil_spec by done. pose proof (day_of_year_range _ _ _ Hm Hd).
    unfold days_before_year. lia.
  - rewrite Z.add_simpl_r in Heq. symmetry in Heq.
    destruct (days_from_civil_inj _ _ _ _ _ _ Hv Hv' Heq) as (E1 & E2 & E3).
    destruct (fromordinal _) as [y [m d]]. simpl in *. congruence.
Qed.

(** ** Decimal fields *)

Lemma digits_value_zeros k s : digits_value (repeat 48 k ++ s) = digits_value s.
Proof.
  induction k as [|k IH]; [done|]. cbn [repeat app]. rewrite digits_value_cons. lia.
Qed.

Lemma digits_repeat k : digits (repeat 48 k).
Proof. induction k; [constructor|]. by constructor. Qed.

(** A padded field has its width, its digits and its value. *)
Lemma pad_spec w n :
  (0 < w)%nat -> 0 <= n < 10 ^ Z.of_nat w ->
  digits (pad w n) /\ length (pad w n) = w /\ digits_value (pad w n) = n.
Proof.
  intros Hw Hn. destruct (dec_nonneg_spec n ltac:(lia)) as (Hv & Hd & Hh). unfold pad.
  split; [apply Forall_app; split; [apply digits_repeat|done]|].
  rewrite digits_value_zeros. split; [|done]. rewrite length_app, repeat_length.
  enough (length (dec_nonneg n) <= w)%nat by lia.
  destruct Hh as [[_ ->]|(Hpos & c & l & E & Hc)]; [simpl; lia|].
  rewrite E in *. inversion Hd as [|? ? Hcd Hl]; subst. apply is_digit_range in Hcd.
  rewrite digits_value_cons in *. pose proof (digits_value_range l Hl). cbn [length].
  destruct (decide (S (length l) <= w)%nat); [done|].
  assert (10 ^ Z.of_nat w <= 10 ^ Z.of_nat (length l)) by (apply Z.pow_le_mono_r; lia). nia.
Qed.

Lemma pad_unique w s :
  (0 < w)%nat -> digits s -> length s = w -> pad w (digits_value s) = s.
Proof.
  intros Hw Hs Hl. pose proof (digits_value_range s Hs) as Hr. rewrite Hl in Hr.
  destruct (pad_spec w _ Hw Hr) as (Hd & Hlen & Hv). apply digits_value_inj; [done..| |done].
  by rewrite Hlen.
Qed.

Lemma take_digits_app s rest :
  digits s -> take_digits (length s) (s ++ rest) = Some (s, rest).
Proof. induction 1 as [|c s Hc _ IH]; simpl; [done|]. by rewrite Hc, IH. Qed.

Lemma take_digits_sound n t ds rest :
  take_digits n t = Some (ds, rest) -> digits ds /\ length ds = n /\ t = ds ++ rest.
Proof.
  revert t ds rest. induction n as [|n IH]; intros t ds rest; simpl.
  - intros [= <- <-]. by split; [constructor|].
  - destruct t as [|c t]; [done|]. destruct (is_digit c) eqn:Hc; [|done].
    destruct (take_digits n t) as [[ds' r]|] eqn:E; [|done]. intros [= <- <-].
    apply IH in E as (Hd & Hl & ->). split; [by constructor|]. simpl. by rewrite Hl.
Qed.

Lemma expect_sound c t rest : expect c t = Some rest -> t = c :: rest.
Proof.
  destruct t as [|d t]; simpl; [done|]. destruct (Z.eqb_spec c d); [|done].
  intros [= <-]. by subst.
Qed.

Lemma span_digits_sound t ds rest : span_digits t = (ds, rest) -> digits ds /\ t = ds ++ rest.
Proof.
  revert ds rest. induction t as [|c t IH]; simpl; intros ds rest.
  - intros [= <- <-]. by split; [constructor|].
  - destruct (is_digit c) eqn:Hc; [|intros [= <- <-]; by split; [constructor|]].
    destruct (span_digits t) as [d r]. intros [= <- <-].
    destruct (IH d r eq_refl) as [Hd ->]. by split; [constructor|].
Qed.

Lemma span_digits_Z ds : digits ds -> span_digits (ds ++ u "Z") = (ds, u "Z").
Proof. induction 1 as [|c s Hc _ IH]; simpl in *; [done|]. by rewrite Hc, IH. Qed.

(** ** The timestamp pattern *)

Definition field_ok (w : nat) (s : pystr) : Prop := digits s /\ length s = w.

Definition fraction_ok (f : option pystr) : Prop :=
  match f with None => True | Some f => digits f /\ (1 <= length f <= 9)%nat end.

Definition fraction_text (f : option pystr) : pystr :=
  match f with None => u "Z" | Some f => [46] ++ f ++ u "Z" end.

Definition match_ok (m : timestamp_match) : Prop :=
  field_ok 4 (m_year m) /\ field_ok 2 (m_month m) /\ field_ok 2 (m_day m)
  /\ field_ok 2 (m_hour m) /\ field_ok 2 (m_minute m) /\ field_ok 2 (m_second m)
  /\ fraction_ok (m_fraction m).

Definition match_text (m : timestamp_match) : pystr :=
  m_year m ++ [45] ++ m_month m ++ [45] ++ m_day m ++ [84] ++ m_hour m ++ [58]
  ++ m_minute m ++ [58] ++ m_second m ++ fraction_text (m_fraction m).

Lemma match_fraction_spec t f :
  match_fraction t = Some f <-> fraction_ok f /\ t = fraction_text f.
Proof.
  split.
  - unfold match_fraction. destruct t as [|c t]; [done|].
    destruct (Z.eqb_spec c 46) as [->|Hc].
    + destruct (span_digits t) as [ds rest] eqn:E.
      destruct (_ && _) eqn:Hb; [|done]. intros [= <-].
      apply andb_true_iff in Hb as [H1%bool_decide_eq_true H2%bool_decide_eq_true].
      apply span_digits_sound in E as [Hd ->]. split; [done|]. simpl. by rewrite H2.
    + case_bool_decide as Hz; [|done]. by intros [= <-].
  - intros [Hok ->]. destruct f as [f|]; [|done]. destruct Hok as [Hd Hl].
    unfold match_fraction, fraction_text. cbn [app]. rewrite Z.eqb_refl, span_digits_Z by done.
    by rewrite !bool_decide_eq_true_2.
Qed.

Lemma take_field w s rest : field_ok w s -> take_digits w (s ++ rest) = Some (s, rest).
Proof. intros [Hd <-]. by apply take_digits_app. Qed.

Lemma match_timestamp_text m : match_ok m -> match_timestamp (match_text m) = Some m.
Proof.
  intros (Hy & Hmo & Hd & Hh & Hmi & Hs & Hf). unfold match_timestamp, match_text.
  repeat (rewrite take_field by done; cbn [mbind option_bind fst snd app expect];
          rewrite ?Z.eqb_refl; cbn [mbind option_bind]).
  rewrite (proj2 (match_fraction_spec _ _) (conj Hf eq_refl)). by destruct m.
Qed.

Lemma match_timestamp_sound value m :
  match_timestamp value = Some m -> match_ok m /\ value = match_text m.
Proof.
  unfold match_timestamp. intros H.
  repeat match goal with
  | H : mbind _ _ = Some _ |- _ =>
      let x := fresh "x" in let E := fresh "E" in
      apply bind_Some in H as (x & E & H)
  end.
  injection H as <-. destruct_and?.
  repeat match goal with
  | p : (pystr * pystr)%type |- _ => destruct p; cbn [fst snd] in *
  | E : take_digits _ _ = Some _ |- _ => apply take_digits_sound in E as (? & ? & ->)
  | E : expect _ _ = Some _ |- _ => apply expect_sound in E as ->
  | E : match_fraction _ = Some _ |- _ => apply match_fraction_spec in E as [? ->]
  end.
  split; [by unfold match_ok, field_ok|]. unfold match_text. simpl. by rewrite <- ?app_assoc.
Qed.

(** ** Round trips *)

Lemma rstrip0_spec s : exists k, s = rstrip0 s ++ repeat 48 k.
Proof.
  induction s as [|c s (k & IH)]; [by exists 0%nat|]. cbn [rstrip0].
  destruct (rstrip0 s) as [|d r] eqn:E.
  - destruct (Z.eqb_spec c 48) as [->|].
    + exists (S k). simpl. by rewrite IH at 1.
    + exists k. simpl. by rewrite IH at 1.
  - exists k. simpl in *. by rewrite IH at 1.
Qed.

Lemma rstrip0_zeros s k :
  (forall c, last s = Some c -> c <> 48) -> rstrip0 (s ++ repeat 48 k) = s.
Proof.
  assert (Hz : forall j, rstrip0 (repeat 48 j) = []).
  { induction j as [|j IH]; simpl; [done|]. by rewrite IH. }
  induction s as [|c s IH]; intros Hl; cbn [app rstrip0]; [apply Hz|].
  destruct s as [|d s].
  - cbn [app]. rewrite Hz. destruct (Z.eqb_spec c 48); [|done]. by destruct (Hl c).
  - rewrite IH by (intros x Hx; apply Hl; by rewrite last_cons, Hx). done.
Qed.

Lemma rstrip0_last f c : last (rstrip0 f) = Some c -> c <> 48.
Proof.
  revert c. induction f as [|d f IH]; [done|]. intros c. cbn [rstrip0].
  destruct (rstrip0 f) as [|e r] eqn:E.
  - destruct (Z.eqb_spec d 48); [done|]. by intros [= <-].
  - rewrite last_cons_cons. apply IH.
Qed.

Lemma ljust9_rstrip0 s : length s = 9%nat -> ljust9 (rstrip0 s) = s.
Proof.
  intros Hl. destruct (rstrip0_spec s) as [k Hk]. unfold ljust9. rewrite Hk at 3. f_equal.
  f_equal. apply (f_equal length) in Hk. rewrite length_app, repeat_length in Hk. lia.
Qed.

(** What the fields of a valid timestamp are worth. *)
Definition civil_ns (year month day hour minute second ns : Z) : Z :=
  (((days_from_civil year month day * 24 + hour) * 60 + minute) * 60 + second)
  * NANOSECONDS_PER_SECOND + ns.

Definition fields_ok (year month day hour minute second ns : Z) : Prop :=
  valid_date year month day /\ year <= 9999 /\ 0 <= hour <= 23 /\ 0 <= minute <= 59
  /\ 0 <= second <= 59 /\ 0 <= ns < NANOSECONDS_PER_SECOND.

Definition fraction_ns (f : option pystr) : Z :=
  match f with None => 0 | Some f => digits_value (ljust9 f) end.

Lemma fraction_ns_range f : fraction_ok f -> 0 <= fraction_ns f < NANOSECONDS_PER_SECOND.
Proof.
  destruct f as [f|]; [|by unfold NANOSECONDS_PER_SECOND]. intros [Hd Hl]. simpl.
  assert (Hr : digits (ljust9 f)) by (apply Forall_app; split; [done|apply digits_repeat]).
  apply digits_value_range in Hr. unfold ljust9 in *.
  rewrite length_app, repeat_length in Hr.
  by replace (length f + (9 - length f))%nat with 9%nat in Hr by lia.
Qed.

Lemma parse_spec value ns :
  parse_rfc3339nano_utc_ns value = Ok ns <->
  exists m, match_ok m /\ value = match_text m
    /\ fields_ok (digits_value (m_year m)) (digits_value (m_month m)) (digits_value (m_day m))
         (digits_value (m_hour m)) (digits_value (m_minute m)) (digits_value (m_second m))
         (fraction_ns (m_fraction m))
    /\ ns = civil_ns (digits_value (m_year m)) (digits_value (m_month m))
         (digits_value (m_day m)) (digits_value (m_hour m)) (digits_value (m_minute m))
         (digits_value (m_second m)) (fraction_ns (m_fraction m)).
Proof.
  unfold parse_rfc3339nano_utc_ns, fields_ok, valid_date. split.
  - intros H. inv_ok. apply match_timestamp_sound in Hr as [Hok ->]. breflect.
    exists x. split_and!; try done; try lia; by apply fraction_ns_range, Hok.
  - intros (m & Hok & -> & Hf & ->). rewrite match_timestamp_text by done. cbn [of_option rbind].
    unfold guard. rewrite !(proj2 (Z.leb_le _ _)) by lia. done.
Qed.

Lemma civil_range year month day :
  valid_date year month day -> year <= 9999 ->
  1 <= days_from_civil year month day + UNIX_EPOCH_ORDINAL <= 3652059.
Proof.
  intros (Hy & Hm & Hd) H9. rewrite month_length_eq in Hd by done.
  rewrite days_from_civil_spec by done. pose proof (day_of_year_range _ _ _ Hm Hd).
  pose proof (days_before_year_mono year 10000 ltac:(lia)) as Hu.
  change (days_before_year 10000) with 3652059 in Hu.
  assert (0 <= days_before_year year) by (unfold days_before_year; lia). lia.
Qed.

Lemma fromordinal_year ordinal :
  1 <= ordinal <= 3652059 -> (fromordinal ordinal).1 <= 9999.
Proof.
  intros Ho. destruct (fromordinal_spec ordinal) as [(Hy & Hm & Hd) Heq]; [lia|].
  destruct (fromordinal ordinal) as [y [m d]]. simpl in *.
  rewrite month_length_eq in Hd by done. rewrite days_from_civil_spec in Heq by done.
  pose proof (day_of_year_range _ _ _ Hm Hd).
  destruct (decide (y <= 9999)); [done|].
  assert (3652059 <= days_before_year y) by (unfold days_before_year; lia). lia.
Qed.

(** The match of the canonical text of some fields. *)
Definition stamp (year month day hour minute second ns : Z) : timestamp_match :=
  mkTimestamp (pad 4 year) (pad 2 month) (pad 2 day) (pad 2 hour) (pad 2 minute)
    (pad 2 second) (if ns =? 0 then None else Some (rstrip0 (pad 9 ns))).

Lemma format_civil year month day hour minute second ns :
  fields_ok year month day hour minute second ns ->
  format_rfc3339nano_utc_ns (civil_ns year month day hour minute second ns)
  = Ok (match_text (stamp year month day hour minute second ns)).
Proof.
  intros (Hv & H9 & Hh & Hmi & Hs & Hns).
  pose proof (civil_range _ _ _ Hv H9) as Hr. pose proof (fromordinal_civil _ _ _ Hv) as Hf.
  unfold format_rfc3339nano_utc_ns, civil_ns.
  unfold NANOSECONDS_PER_SECOND, SECONDS_PER_DAY, MIN_TIMESTAMP_NS, MAX_TIMESTAMP_NS in *.
  set (days := days_from_civil year month day) in *. clearbody days.
  unfold UNIX_EPOCH_ORDINAL in Hr.
  set (secs := ((days * 24 + hour) * 60 + minute) * 60 + second).
  assert (Hsecs : days * 86400 <= secs < (days + 1) * 86400) by (unfold secs; lia).
  replace ((secs * 1000000000 + ns) / 1000000000) with secs by (clearbody secs; lia).
  replace ((secs * 1000000000 + ns) mod 1000000000) with ns by (clearbody secs; lia).
  replace (secs / 86400) with days by (clearbody secs; lia).
  replace (secs mod 86400) with ((hour * 60 + minute) * 60 + second) by (unfold secs; lia).
  unfold guard. rewrite !(proj2 (Z.leb_le _ _)) by (clearbody secs; lia).
  cbn [andb rbind]. rewrite Hf. cbn [fst snd].
  replace (((hour * 60 + minute) * 60 + second) / 3600) with hour by lia.
  replace (((hour * 60 + minute) * 60 + second) mod 3600) with (minute * 60 + second) by lia.
  replace ((minute * 60 + second) / 60) with minute by lia.
  replace ((minute * 60 + second) mod 60) with second by lia.
  unfold match_text, stamp. cbn [m_year m_month m_day m_hour m_minute m_second m_fraction].
  f_equal. rewrite <- !app_assoc. by destruct (ns =? 0).
Qed.

Lemma rstrip0_nonempty s : digits_value s <> 0 -> (1 <= length (rstrip0 s))%nat.
Proof.
  intros Hnz. destruct (rstrip0_spec s) as [k Hk]. destruct (rstrip0 s); [|simpl; lia].
  simpl in Hk. subst s. destruct Hnz.
  by rewrite <- (app_nil_r (repeat 48 k)), digits_value_zeros.
Qed.

Lemma rstrip0_digits s : digits s -> digits (rstrip0 s) /\ (length (rstrip0 s) <= length s)%nat.
Proof.
  intros Hd. destruct (rstrip0_spec s) as [k Hk]. rewrite Hk in Hd at 1.
  apply Forall_app in Hd as [? _]. split; [done|].
  apply (f_equal length) in Hk. rewrite length_app in Hk. lia.
Qed.

Lemma stamp_ok year month day hour minute second ns :
  fields_ok year month day hour minute second ns ->
  let m := stamp year month day hour minute second ns in
  match_ok m /\ digits_value (m_year m) = year /\ digits_value (m_month m) = month
  /\ digits_value (m_day m) = day /\ digits_value (m_hour m) = hour
  /\ digits_value (m_minute m) = minute /\ digits_value (m_second m) = second
  /\ fraction_ns (m_fraction m) = ns.
Proof.
  intros ((Hy & Hm & Hd) & H9 & Hh & Hmi & Hs & Hns).
  assert (Hd31 : day <= 31).
  { rewrite month_length_eq in Hd by done.
    enough (days_in_month (is_leap_year year) month <= 31) by lia.
    apply month_cases in Hm. repeat (destruct Hm as [->|Hm]); [..|subst];
      by destruct (is_leap_year year). }
  destruct (pad_spec 4 year) as (? & ? & ?); [lia|lia|].
  destruct (pad_spec 2 month) as (? & ? & ?); [lia|lia|].
  destruct (pad_spec 2 day) as (? & ? & ?); [lia|lia|].
  destruct (pad_spec 2 hour) as (? & ? & ?); [lia|lia|].
  destruct (pad_spec 2 minute) as (? & ? & ?); [lia|lia|].
  destruct (pad_spec 2 second) as (? & ? & ?); [lia|lia|].
  destruct (pad_spec 9 ns) as (Hfd & Hfl & Hfv); [lia|unfold NANOSECONDS_PER_SECOND in Hns; lia|].
  unfold match_ok, field_ok. cbn [stamp m_year m_month m_day m_hour m_minute m_second m_fraction].
  split_and!; try done; destruct (Z.eqb_spec ns 0) as [->|Hnz]; try done.
  - destruct (rstrip0_digits _ Hfd). split; [done|].
    split; [apply rstrip0_nonempty; lia|lia].
  - simpl. by rewrite ljust9_rstrip0.
Qed.

Lemma parse_stamp year month day hour minute second ns :
  fields_ok year month day hour minute second ns ->
  parse_rfc3339nano_utc_ns (match_text (stamp year month day hour minute second ns))
  = Ok (civil_ns year month day hour minute second ns).
Proof.
  intros Hf. destruct (stamp_ok _ _ _ _ _ _ _ Hf) as (Hok & E1 & E2 & E3 & E4 & E5 & E6 & E7).
  apply parse_spec. eexists. split; [exact Hok|]. split; [done|].
  by rewrite E1, E2, E3, E4, E5, E6, E7.
Qed.

(** Every nanosecond of the range is some civil time. *)
Lemma civil_of_ns value :
  MIN_TIMESTAMP_NS <= value <= MAX_TIMESTAMP_NS ->
  exists year month day hour minute second ns,
    fields_ok year month day hour minute second ns
    /\ value = civil_ns year month day hour minute second ns.
Proof.
  intros Hv. unfold MIN_TIMESTAMP_NS, MAX_TIMESTAMP_NS in Hv.
  set (seconds := value / NANOSECONDS_PER_SECOND).
  set (sod := seconds mod SECONDS_PER_DAY).
  set (ordinal := seconds / SECONDS_PER_DAY + UNIX_EPOCH_ORDINAL).
  assert (Ho : 1 <= ordinal <= 3652059).
  { unfold ordinal, seconds, SECONDS_PER_DAY, NANOSECONDS_PER_SECOND, UNIX_EPOCH_ORDINAL.
    lia. }
  destruct (fromordinal_spec ordinal) as [Hd Heq]; [lia|].
  pose proof (fromordinal_year _ Ho) as H9.
  destruct (fromordinal ordinal) as [year [month day]]. cbn [fst snd] in *.
  exists year, month, day, (sod / 3600), (sod mod 3600 / 60), (sod mod 60),
    (value mod NANOSECONDS_PER_SECOND).
  unfold fields_ok, civil_ns. rewrite Heq.
  replace (ordinal - UNIX_EPOCH_ORDINAL) with (seconds / SECONDS_PER_DAY)
    by (unfold ordinal; lia).
  assert (Hval : value = seconds * NANOSECONDS_PER_SECOND + value mod NANOSECONDS_PER_SECOND).
  { unfold seconds, NANOSECONDS_PER_SECOND. lia. }
  assert (Hsec : seconds = seconds / SECONDS_PER_DAY * SECONDS_PER_DAY + sod
                 /\ 0 <= sod < SECONDS_PER_DAY) by (unfold sod, SECONDS_PER_DAY; lia).
  clearbody sod seconds. unfold SECONDS_PER_DAY, NANOSECONDS_PER_SECOND in *.
  split; [split_and!; try done; lia|].
  rewrite Hval at 1. f_equal. f_equal. lia.
Qed.

(** ** Properties *)

(** C40: every nanosecond instant of the years 0001 to 9999 is rendered, and the
    rendered text parses back to exactly that instant; every other integer is
    refused with [ValueError]. *)
Theorem timestamp_roundtrip value :
  if (MIN_TIMESTAMP_NS <=? value) && (value <=? MAX_TIMESTAMP_NS)
  then exists text, format_rfc3339nano_utc_ns value = Ok text
                    /\ parse_rfc3339nano_utc_ns text = Ok value
  else format_rfc3339nano_utc_ns value = Err ValueError.
Proof.
  destruct (_ && _) eqn:E.
  - breflect. destruct (civil_of_ns value) as (y & mo & d & h & mi & s & ns & Hf & ->); [lia|].
    eexists. split; [by apply format_civil|by apply parse_stamp].
  - unfold format_rfc3339nano_utc_ns. by rewrite E.
Qed.

(** No fraction, or one that does not end in a zero. *)
Definition canonical_fraction (value : pystr) : bool :=
  match match_timestamp value with
  | Some m =>
      match m_fraction m with
      | None => true
      | Some f => bool_decide (last f <> Some 48)
      end
  | None => false
  end.

Lemma canonical_fraction_text f :
  fraction_ok f ->
  (fraction_text (if fraction_ns f =? 0 then None else Some (rstrip0 (pad 9 (fraction_ns f))))
   = fraction_text f
   <-> match f with None => true | Some f => bool_decide (last f <> Some 48) end = true).
Proof.
  destruct f as [f|]; [|done]. intros [Hd Hl]. rewrite bool_decide_eq_true.
  assert (Hj : digits (ljust9 f) /\ length (ljust9 f) = 9%nat).
  { unfold ljust9. split; [apply Forall_app; split; [done|apply digits_repeat]|].
    rewrite length_app, repeat_length. lia. }
  destruct Hj as [Hjd Hjl]. cbn [fraction_ns]. rewrite pad_unique by (done || lia).
  assert (Hlast : last f <> Some 48 -> rstrip0 (ljust9 f) = f).
  { intros Hn. apply rstrip0_zeros. intros c Hc ->. done. }
  destruct (Z.eqb_spec (digits_value (ljust9 f)) 0) as [Hz|Hnz].
  - split; [done|]. intros Hn. exfalso.
    assert (E : ljust9 f = repeat 48 9).
    { apply digits_value_inj; [done|apply digits_repeat|by rewrite Hjl, repeat_length|].
      rewrite Hz. done. }
    specialize (Hlast Hn). rewrite E in Hlast. subst f. simpl in Hl. lia.
  - split; [|intros Hn; by rewrite Hlast]. cbn [fraction_text app]. intros [= E].
    apply app_inv_tail in E. intros Hn. destruct f as [|c f] using rev_ind; [simpl in Hl; lia|].
    rewrite last_snoc in Hn. injection Hn as ->. clear IHf.
    assert (Hs : rstrip0 (ljust9 (f ++ [48])) = rstrip0 f).
    { unfold ljust9. destruct (rstrip0_spec f) as [k Hk].
      rewrite Hk at 1. rewrite <- app_assoc, <- app_assoc.
      change [48] with (repeat 48 1). rewrite <- !repeat_app.
      by apply rstrip0_zeros, rstrip0_last. }
    rewrite Hs in E. apply (f_equal length) in E. rewrite length_app in E. simpl in E.
    assert (length (rstrip0 f) <= length f)%nat; [|lia].
    destruct (rstrip0_spec f) as [k Hk]. apply (f_equal length) in Hk.
    rewrite length_app in Hk. lia.
Qed.

(** Whatever text the parser accepts denotes an instant within the years 0001
    to 9999, and formatting that instant gives the same text back exactly when its
    fraction carries no trailing zero; so two accepted texts without trailing
    zeros denote the same instant only when they are equal. *)
Theorem timestamp_canonical value ns :
  parse_rfc3339nano_utc_ns value = Ok ns ->
  MIN_TIMESTAMP_NS <= ns <= MAX_TIMESTAMP_NS
  /\ (format_rfc3339nano_utc_ns ns = Ok value <-> canonical_fraction value = true).
Proof.
  intros (m & Hok & -> & Hf & ->)%parse_spec. split.
  - destruct Hf as (Hv & H9 & Hh & Hmi & Hs & Hns). pose proof (civil_range _ _ _ Hv H9).
    unfold civil_ns, MIN_TIMESTAMP_NS, MAX_TIMESTAMP_NS, NANOSECONDS_PER_SECOND,
      UNIX_EPOCH_ORDINAL in *. lia.
  - rewrite (format_civil _ _ _ _ _ _ _ Hf). unfold canonical_fraction.
    rewrite match_timestamp_text by done.
    destruct Hok as ([Hy1 Hy2] & [Hmo1 Hmo2] & [Hd1 Hd2] & [Hh1 Hh2] & [Hmi1 Hmi2] & [Hs1 Hs2] & Hfr).
    rewrite <- (canonical_fraction_text _ Hfr). unfold match_text, stamp.
    cbn [m_year m_month m_day m_hour m_minute m_second m_fraction].
    rewrite !pad_unique by (done || lia).
    split; [intros [= E]|intros E; by rewrite E].
    by repeat (apply app_inv_head in E; try injection E as E).
Qed.

Lemma historical_window_ok trigger unc decision w :
  historical_coverage_window trigger unc decision = Ok w ->
  exists trigger_ns end_ns,
    parse_rfc3339nano_utc_ns trigger = Ok trigger_ns
    /\ parse_rfc3339nano_utc_ns decision = Ok end_ns
    /\ let start_ns := trigger_ns - unc * 1000000 in
       window_end_ns w = end_ns
       /\ window_start_ns w = (if start_ns <? MIN_TIMESTAMP_NS then None else Some start_ns)
       /\ complete w = negb (start_ns <? MIN_TIMESTAMP_NS) && (start_ns <=? end_ns).
Proof.
  unfold historical_coverage_window. intros H. inv_ok.
  exists x0, x1. split; [done|]. split; [done|]. cbv zeta.
  destruct (_ <? MIN_TIMESTAMP_NS); inv_ok; by subst w.
Qed.

(** A coverage interval is reported to intersect the decision window exactly
    when some instant lies in both: between its opening and its closing (never,
    while it is open) and between the trigger time less the clock uncertainty and
    the decision time, both ends included; a window that would start before year
    0001 intersects nothing. *)
Theorem window_intersection trigger unc decision w opened closed hit :
  historical_coverage_window trigger unc decision = Ok w ->
  interval_intersects_window opened closed w = Ok hit ->
  hit = true <->
  exists trigger_ns end_ns opened_ns t,
    parse_rfc3339nano_utc_ns trigger = Ok trigger_ns
    /\ parse_rfc3339nano_utc_ns decision = Ok end_ns
    /\ parse_rfc3339nano_utc_ns opened = Ok opened_ns
    /\ MIN_TIMESTAMP_NS <= trigger_ns - unc * 1000000
    /\ trigger_ns - unc * 1000000 <= t <= end_ns
    /\ opened_ns <= t
    /\ (forall c closed_ns, closed = Some c ->
           parse_rfc3339nano_utc_ns c = Ok closed_ns -> t <= closed_ns).
Proof.
  intros (tn & en & Ht & Hd & Hend & Hstart & Hcomp)%historical_window_ok.
  unfold interval_intersects_window. rewrite Hstart, Hcomp, Hend. clear Hstart Hcomp Hend w.
  destruct (Z.ltb_spec (tn - unc * 1000000) MIN_TIMESTAMP_NS) as [Hlt|Hge]; cbn [negb andb].
  { intros [= <-]. split; [done|]. intros (? & ? & ? & ? & ? & ? & ? & ? & ?).
    simplify_eq. rewrite Ht in *. simplify_eq. lia. }
  destruct (Z.leb_spec (tn - unc * 1000000) en) as [Hle|Hgt].
  2:{ intros [= <-]. split; [done|]. intros (? & ? & ? & ? & ? & ? & ? & ? & ? & ?).
      rewrite Ht, Hd in *. simplify_eq. lia. }
  intros H. inv_ok. rename x into o. destruct closed as [c|]; cbn [parse_optional_ns] in *.
  - inv_ok. subst. breflect. rename x into cn. rewrite andb_true_iff, !Z.leb_le. split.
    + intros [? ?]. exists tn, en, o, (Z.max o (tn - unc * 1000000)).
      split_and!; try done; try lia. intros ? ? [= <-] E.
      rewrite Hr2 in E. injection E as <-. lia.
    + intros (? & ? & ? & t & ? & ? & ? & ? & ? & ? & Hc).
      rewrite Ht, Hd, Hr in *.
      specialize (Hc c cn eq_refl Hr2). simplify_eq. lia.
  - inv_ok. subst. cbn iota. rewrite andb_true_r, Z.leb_le. split.
    + intros ?. exists tn, en, o, (Z.max o (tn - unc * 1000000)).
      split_and!; try done; lia.
    + intros (? & ? & ? & t & ? & ? & ? & ? & ? & ? & _).
      rewrite Ht, Hd, Hr in *.
      simplify_eq. lia.
Qed.

(** ** Witnesses *)

Lemma timestamp_canonical_witness : exists ns,
  parse_rfc3339nano_utc_ns (u "2024-02-29T12:00:00.5Z") = Ok ns
  /\ MIN_TIMESTAMP_NS <= ns <= MAX_TIMESTAMP_NS
  /\ (format_rfc3339nano_utc_ns ns = Ok (u "2024-02-29T12:00:00.5Z")
      <-> canonical_fraction (u "2024-02-29T12:00:00.5Z") = true).
Proof.
  eexists. split; [vm_compute; reflexivity|].
  apply timestamp_canonical. vm_compute. reflexivity.
Defined.

Lemma window_intersection_witness : exists w hit,
  historical_coverage_window (u "2026-01-01T00:00:10Z") 500 (u "2026-01-01T00:00:20Z") = Ok w
  /\ interval_intersects_window (u "2026-01-01T00:00:01Z")
       (Some (u "2026-01-01T00:00:09.5Z")) w = Ok hit
  /\ (hit = true <->
      exists trigger_ns end_ns opened_ns t,
        parse_rfc3339nano_utc_ns (u "2026-01-01T00:00:10Z") = Ok trigger_ns
        /\ parse_rfc3339nano_utc_ns (u "2026-01-01T00:00:20Z") = Ok end_ns
        /\ parse_rfc3339nano_utc_ns (u "2026-01-01T00:00:01Z") = Ok opened_ns
        /\ MIN_TIMESTAMP_NS <= trigger_ns - 500 * 1000000
        /\ trigger_ns - 500 * 1000000 <= t <= end_ns
        /\ opened_ns <= t
        /\ (forall c closed_ns, Some (u "2026-01-01T00:00:09.5Z") = Some c ->
               parse_rfc3339nano_utc_ns c = Ok closed_ns -> t <= closed_ns)).
Proof.
  do 2 eexists. split; [vm_compute; reflexivity|]. split; [vm_compute; reflexivity|].
  eapply (window_intersection (u "2026-01-01T00:00:10Z") 500 (u "2026-01-01T00:00:20Z") _
    (u "2026-01-01T00:00:01Z") (Some (u "2026-01-01T00:00:09.5Z"))).
  - vm_compute. reflexivity.
  - vm_compute. reflexivity.
Defined.
