(* ===== verification/Ipv4.v ===== *)
(** * IPv4 addresses and networks as text

    The part of Python's [ipaddress] that the modelled code relies on: parsing
    and printing of dotted decimal addresses and of networks in prefix notation,
    with the canonical-form checks built from them ([_valid_ipv4] of
    [contracts.py], [_canonical_ipv4_address] of [correlation/primitives.py]). *)

From S2P Require Import Prelude CanonicalJson JsonDecode.
Local Open Scope Z_scope.
Local Open Scope agmind_scope.

(** [s.split(sep)] for a one-character separator *)
Fixpoint split_on (sep : Z) (s : pystr) : list pystr :=
  match s with
  | [] => [[]]
  | c :: s =>
      if c =? sep then [] :: split_on sep s
      else match split_on sep s with
           | p :: ps => (c :: p) :: ps
           | [] => [[c]]
           end
  end.

(** [IPv4Address._parse_octet] *)
Definition parse_octet (s : pystr) : option Z :=
  if bool_decide (s = []) then None
  else if negb (forallb is_digit s) then None
  else if (3 <? length s)%nat then None
  else if negb (bool_decide (s = u "0")) && bool_decide (head s = Some 48) then None
  else let v := digits_value s in if 255 <? v then None else Some v.

(** [int(ipaddress.IPv4Address(s))] *)
Definition ipv4_of_text (s : pystr) : option Z :=
  match split_on 46 s with
  | [a; b; c; d] =>
      a ← parse_octet a; b ← parse_octet b; c ← parse_octet c; d ← parse_octet d;
      Some (((a * 256 + b) * 256 + c) * 256 + d)
  | _ => None
  end.

(** [str(ipaddress.IPv4Address(n))] *)
Definition ipv4_text (n : Z) : pystr :=
  str_of_int (n / 256 ^ 3 mod 256) ++ [46] ++ str_of_int (n / 256 ^ 2 mod 256) ++ [46]
  ++ str_of_int (n / 256 mod 256) ++ [46] ++ str_of_int (n mod 256).

Record ipv4_network := mkNet { network_address : Z; prefixlen : Z }.

#[export] Instance ipv4_network_eq_dec : EqDecision ipv4_network.
Proof. solve_decision. Defined.

Definition netmask (prefixlen : Z) : Z := 2 ^ 32 - 2 ^ (32 - prefixlen).

(** [_count_righthand_zero_bits(n, 32)] *)
Fixpoint righthand_zero_bits (fuel : nat) (n : Z) : Z :=
  match fuel with
  | O => 0
  | S fuel => if Z.odd n then 0 else 1 + righthand_zero_bits fuel (n / 2)
  end.

(** [_prefix_from_ip_int] *)
Definition prefix_from_ip_int (ip : Z) : option Z :=
  let zeros := righthand_zero_bits 32 ip in
  let prefixlen := 32 - zeros in
  if Z.shiftr ip zeros =? 2 ^ prefixlen - 1 then Some prefixlen else None.

(** [_make_netmask]: a prefix length in decimal digits, or a net or host mask. *)
Definition make_prefixlen (s : pystr) : option Z :=
  if negb (bool_decide (s = [])) && forallb is_digit s && (digits_value s <=? 32)
  then Some (digits_value s)
  else
    match ipv4_of_text s with
    | Some ip =>
        match prefix_from_ip_int ip with
        | Some p => Some p
        | None => prefix_from_ip_int (Z.lxor ip (2 ^ 32 - 1))
        end
    | None => None
    end.

(** [ipaddress.ip_network(s, strict=True)], when it is an [IPv4Network] *)
Definition ipv4_network_of_text (s : pystr) : option ipv4_network :=
  match split_on 47 s with
  | [addr] => a ← ipv4_of_text addr; Some (mkNet a 32)
  | [addr; mask] =>
      a ← ipv4_of_text addr; p ← make_prefixlen mask;
      if Z.land a (netmask p) =? a then Some (mkNet a p) else None
  | _ => None
  end.

(** [str(network)] *)
Definition ipv4_network_text (net : ipv4_network) : pystr :=
  ipv4_text (network_address net) ++ [47] ++ str_of_int (prefixlen net).

(** [address in network] *)
Definition in_network (address : Z) (net : ipv4_network) : bool :=
  Z.shiftr address (32 - prefixlen net) =? Z.shiftr (network_address net) (32 - prefixlen net).

(** The canonical address: [type(x) is IPv4Address and str(x) == value]. *)
Definition canonical_ipv4_address (value : pystr) : result py_exn Z :=
  let* address := of_option ValueError (ipv4_of_text value) in
  guard (bool_decide (ipv4_text address = value)) ValueError ;;*
  Ok address.

(** The canonical network: [type(x) is IPv4Network and str(x) == value]. *)
Definition canonical_ipv4_network (value : pystr) : result py_exn ipv4_network :=
  let* net := of_option ValueError (ipv4_network_of_text value) in
  guard (bool_decide (ipv4_network_text net = value)) ValueError ;;*
  Ok net.

(** ** Splitting and joining *)

Lemma split_on_no_sep sep s : sep ∉ s -> split_on sep s = [s].
Proof.
  induction s as [|c s IH]; intros Hs; simpl; [done|].
  rewrite not_elem_of_cons in Hs. destruct Hs as [Hc Hs].
  destruct (Z.eqb_spec c sep); [congruence|]. by rewrite IH.
Qed.

Lemma split_on_app sep s t : sep ∉ s -> split_on sep (s ++ sep :: t) = s :: split_on sep t.
Proof.
  induction s as [|c s IH]; intros Hs; simpl; [by rewrite Z.eqb_refl|].
  rewrite not_elem_of_cons in Hs. destruct Hs as [Hc Hs].
  destruct (Z.eqb_spec c sep); [congruence|]. by rewrite IH.
Qed.

(** [sep.join(s.split(sep)) == s] *)
Fixpoint join_on (sep : Z) (ps : list pystr) : pystr :=
  match ps with
  | [] => []
  | [p] => p
  | p :: ps => p ++ sep :: join_on sep ps
  end.

Lemma split_on_nonempty sep s : split_on sep s <> [].
Proof. destruct s as [|c s]; simpl; [done|]. repeat case_match; done. Qed.

Lemma join_split sep s : join_on sep (split_on sep s) = s.
Proof.
  induction s as [|c s IH]; simpl; [done|].
  pose proof (split_on_nonempty sep s).
  destruct (Z.eqb_spec c sep) as [->|]; destruct (split_on sep s) as [|p [|q ps]];
    simpl in *; congruence.
Qed.

(** ** Octets *)

Definition octet_ok (n : Z) : bool :=
  bool_decide (parse_octet (str_of_int n) = Some n) && forallb is_digit (str_of_int n).

Lemma dec_octet n :
  0 <= n < 256 ->
  parse_octet (str_of_int n) = Some n /\ (46 ∉ str_of_int n) /\ (47 ∉ str_of_int n).
Proof.
  intros Hn. pose proof (forallb_below octet_ok 256 n Hn ltac:(vm_compute; reflexivity)) as H.
  unfold octet_ok in H. apply andb_true_iff in H as [Hp Hd]. breflect.
  rewrite forallb_forall in Hd.
  split; [done|].
  split; intros Hin; apply list_elem_of_In, Hd, is_digit_range in Hin; lia.
Qed.

Lemma parse_octet_sound s v : parse_octet s = Some v -> 0 <= v < 256 /\ str_of_int v = s.
Proof.
  unfold parse_octet. case_bool_decide as Hne; [done|].
  destruct (forallb is_digit s) eqn:Hd; [|done]. cbn [negb].
  destruct (3 <? length s)%nat eqn:Hlen; [done|]. apply Nat.ltb_ge in Hlen.
  destruct (_ && _) eqn:Hz; [done|]. destruct (Z.ltb_spec 255 (digits_value s)); [done|].
  intros [= <-]. assert (Hds : digits s).
  { apply List.Forall_forall. intros c Hc. rewrite forallb_forall in Hd. by apply Hd. }
  pose proof (digits_value_range s Hds). split; [lia|].
  unfold str_of_int. destruct (Z.ltb_spec (digits_value s) 0); [lia|].
  apply dec_nonneg_digits; [done|]. destruct s as [|c s]; [done|].
  apply andb_false_iff in Hz as [Hz|Hz].
  - left. by apply negb_false_iff, bool_decide_eq_true in Hz.
  - right. apply bool_decide_eq_false in Hz. simpl in Hz. exists c, s. split; congruence.
Qed.

(** ** Addresses *)

Lemma mod_256_low x y : 0 <= y < 256 -> (x * 256 + y) mod 256 = y.
Proof. intros. rewrite Z.add_comm, Z.mod_add by lia. by apply Z.mod_small. Qed.

Lemma ipv4_text_octets a b c d :
  0 <= a < 256 -> 0 <= b < 256 -> 0 <= c < 256 -> 0 <= d < 256 ->
  ipv4_text (((a * 256 + b) * 256 + c) * 256 + d)
  = str_of_int a ++ [46] ++ str_of_int b ++ [46] ++ str_of_int c ++ [46] ++ str_of_int d.
Proof.
  intros Ha Hb Hc Hd. unfold ipv4_text. set (n := ((a * 256 + b) * 256 + c) * 256 + d).
  assert (H0 : n mod 256 = d).
  { by apply mod_256_low. }
  assert (H1 : n / 256 = (a * 256 + b) * 256 + c).
  { unfold n. rewrite Z.div_add_l by lia. rewrite (Z.div_small d) by lia. lia. }
  assert (H2 : n / 256 ^ 2 = a * 256 + b).
  { change (256 ^ 2) with (256 * 256). rewrite <- Z.div_div, H1 by lia.
    rewrite Z.div_add_l by lia. rewrite (Z.div_small c) by lia. lia. }
  assert (H3 : n / 256 ^ 3 = a).
  { change (256 ^ 3) with (256 ^ 2 * 256). rewrite <- Z.div_div, H2 by lia.
    rewrite Z.div_add_l by lia. rewrite (Z.div_small b) by lia. lia. }
  rewrite H0, H1, H2, H3, (Z.mod_small a) by lia.
  by rewrite !mod_256_low by lia.
Qed.

Lemma ipv4_of_text_octets a b c d :
  0 <= a < 256 -> 0 <= b < 256 -> 0 <= c < 256 -> 0 <= d < 256 ->
  ipv4_of_text (str_of_int a ++ [46] ++ str_of_int b ++ [46] ++ str_of_int c ++ [46]
                ++ str_of_int d)
  = Some (((a * 256 + b) * 256 + c) * 256 + d).
Proof.
  intros Ha Hb Hc Hd.
  destruct (dec_octet a Ha) as (Pa & Na & _), (dec_octet b Hb) as (Pb & Nb & _),
    (dec_octet c Hc) as (Pc & Nc & _), (dec_octet d Hd) as (Pd & Nd & _).
  unfold ipv4_of_text. cbn [app]. rewrite !split_on_app, split_on_no_sep by done.
  by rewrite Pa, Pb, Pc, Pd.
Qed.

Lemma ipv4_octets n :
  0 <= n < 2 ^ 32 -> exists a b c d,
    0 <= a < 256 /\ 0 <= b < 256 /\ 0 <= c < 256 /\ 0 <= d < 256
    /\ n = ((a * 256 + b) * 256 + c) * 256 + d.
Proof.
  intros Hn. exists (n / 256 / 256 / 256), (n / 256 / 256 mod 256), (n / 256 mod 256), (n mod 256).
  Z.to_euclidean_division_equations. lia.
Qed.

Lemma ipv4_of_text_text n : 0 <= n < 2 ^ 32 -> ipv4_of_text (ipv4_text n) = Some n.
Proof.
  intros (a & b & c & d & Ha & Hb & Hc & Hd & ->)%ipv4_octets.
  by rewrite ipv4_text_octets, ipv4_of_text_octets.
Qed.

Lemma ipv4_of_text_sound s n : ipv4_of_text s = Some n -> 0 <= n < 2 ^ 32 /\ ipv4_text n = s.
Proof.
  unfold ipv4_of_text. pose proof (join_split 46 s) as Hj.
  destruct (split_on 46 s) as [|a [|b [|c [|d [|]]]]]; try done. intros H.
  apply bind_Some in H as (x & Ex & H). apply bind_Some in H as (y & Ey & H).
  apply bind_Some in H as (z & Ez & H). apply bind_Some in H as (w & Ew & [= <-]).
  apply parse_octet_sound in Ex as [Hx Ex], Ey as [Hy Ey], Ez as [Hz Ez], Ew as [Hw Ew].
  split; [lia|]. rewrite ipv4_text_octets by done. rewrite Ex, Ey, Ez, Ew. by rewrite <- Hj.
Qed.

Lemma canonical_ipv4_address_ok value n :
  canonical_ipv4_address value = Ok n <-> 0 <= n < 2 ^ 32 /\ value = ipv4_text n.
Proof.
  unfold canonical_ipv4_address. split.
  - intros H. inv_ok. subst. apply ipv4_of_text_sound in Hr as [? <-]. done.
  - intros [Hn ->]. rewrite ipv4_of_text_text by done. cbn [of_option rbind guard].
    by rewrite bool_decide_eq_true_2.
Qed.

(** ** Networks *)

Lemma netmask_shift p : 0 <= p <= 32 -> netmask p = Z.shiftl (Z.ones p) (32 - p).
Proof.
  intros Hp. unfold netmask. rewrite Z.shiftl_mul_pow2, Z.ones_equiv by lia.
  replace 32 with (p + (32 - p)) at 1 by lia. rewrite Z.pow_add_r by lia. lia.
Qed.

Lemma land_netmask a p :
  0 <= a < 2 ^ 32 -> 0 <= p <= 32 ->
  Z.land a (netmask p) = Z.shiftl (Z.shiftr a (32 - p)) (32 - p).
Proof.
  intros Ha Hp. rewrite netmask_shift by done. apply Z.bits_inj'. intros i Hi.
  rewrite Z.land_spec, !Z.shiftl_spec by lia.
  destruct (Z.ltb_spec i (32 - p)).
  - rewrite !(Z.testbit_neg_r _ (i - (32 - p))) by lia. by rewrite andb_false_r.
  - rewrite Z.shiftr_spec by lia. replace (i - (32 - p) + (32 - p)) with i by lia.
    destruct (Z.ltb_spec i 32).
    + rewrite Z.ones_spec_low by lia. by rewrite andb_true_r.
    + rewrite Z.ones_spec_high by lia. rewrite andb_false_r. symmetry.
      apply Z.bits_above_log2; [lia|]. destruct (decide (a = 0)) as [->|]; [simpl; lia|].
      apply Z.log2_lt_pow2; [lia|]. apply Z.lt_le_trans with (2 ^ 32); [lia|].
      apply Z.pow_le_mono_r; lia.
Qed.

Lemma no_host_bits a p :
  0 <= a < 2 ^ 32 -> 0 <= p <= 32 ->
  (Z.land a (netmask p) =? a) = (a mod 2 ^ (32 - p) =? 0).
Proof.
  intros Ha Hp. rewrite land_netmask, Z.shiftl_mul_pow2, Z.shiftr_div_pow2 by lia.
  pose proof (Z.div_mod a (2 ^ (32 - p)) ltac:(lia)).
  apply eq_bool_prop_intro. rewrite !Is_true_true, !Z.eqb_eq. lia.
Qed.

(** A network in prefix notation without host bits. *)
Definition network_ok (net : ipv4_network) : Prop :=
  0 <= network_address net < 2 ^ 32 /\ 0 <= prefixlen net <= 32
  /\ network_address net mod 2 ^ (32 - prefixlen net) = 0.

Lemma righthand_zero_bits_range fuel n : 0 <= righthand_zero_bits fuel n <= Z.of_nat fuel.
Proof.
  revert n. induction fuel as [|fuel IH]; intros n; cbn [righthand_zero_bits]; [lia|].
  destruct (Z.odd n); [lia|]. specialize (IH (n / 2)). lia.
Qed.

Lemma make_prefixlen_range s p : make_prefixlen s = Some p -> 0 <= p <= 32.
Proof.
  unfold make_prefixlen. destruct (_ && _) eqn:E.
  - intros [= <-]. breflect. split; [|done].
    assert (Hds : digits s); [|apply digits_value_range in Hds; lia].
    apply List.Forall_forall. intros c Hc.
    match goal with H : forallb _ _ = true |- _ => rewrite forallb_forall in H; by apply H end.
  - assert (Hp : forall ip q, prefix_from_ip_int ip = Some q -> 0 <= q <= 32).
    { intros ip q. unfold prefix_from_ip_int.
      pose proof (righthand_zero_bits_range 32 ip) as Hz.
      generalize dependent (righthand_zero_bits 32 ip). intros zeros Hz.
      case_match; [|done]. intros [= <-]. lia. }
    destruct (ipv4_of_text s) as [ip|]; [|done].
    destruct (prefix_from_ip_int ip) eqn:E1; intros H; [injection H as <-|]; by eapply Hp.
Qed.

Lemma dec_prefixlen p :
  0 <= p <= 32 -> make_prefixlen (str_of_int p) = Some p /\ 47 ∉ str_of_int p.
Proof.
  intros Hp. split; [|apply dec_octet; lia].
  apply (decide_below (fun p => make_prefixlen (str_of_int p) = Some p) 33);
    [lia|vm_compute; reflexivity].
Qed.

Lemma slash_free n : 0 <= n < 2 ^ 32 -> 47 ∉ ipv4_text n.
Proof.
  intros (a & b & c & d & Ha & Hb & Hc & Hd & ->)%ipv4_octets.
  rewrite ipv4_text_octets by done. rewrite !elem_of_app, !list_elem_of_singleton.
  pose proof (dec_octet a Ha). pose proof (dec_octet b Hb). pose proof (dec_octet c Hc).
  pose proof (dec_octet d Hd). intuition lia.
Qed.

Lemma canonical_ipv4_network_ok value net :
  canonical_ipv4_network value = Ok net <-> network_ok net /\ value = ipv4_network_text net.
Proof.
  unfold canonical_ipv4_network. split.
  - intros H. inv_ok. subst. apply bool_decide_eq_true in Hr0. split; [|done].
    unfold ipv4_network_of_text in Hr.
    destruct (split_on 47 value) as [|addr [|mask [|]]]; [done| | |done].
    + apply bind_Some in Hr as (a & [Ha _]%ipv4_of_text_sound & [= <-]).
      unfold network_ok. cbn [network_address prefixlen]. rewrite Z.mod_1_r. lia.
    + apply bind_Some in Hr as (a & [Ha _]%ipv4_of_text_sound & Hr).
      apply bind_Some in Hr as (p & Hp%make_prefixlen_range & Hr).
      rewrite no_host_bits in Hr by done.
      destruct (Z.eqb_spec (a mod 2 ^ (32 - p)) 0); [|done]. by injection Hr as <-.
  - intros [(Ha & Hp & Hm) ->]. destruct net as [a p]. cbn [network_address prefixlen] in *.
    destruct (dec_prefixlen p Hp) as [Ep Np].
    unfold ipv4_network_of_text. unfold ipv4_network_text at 1.
    cbn [network_address prefixlen app].
    rewrite split_on_app by (by apply slash_free). rewrite split_on_no_sep by done.
    rewrite ipv4_of_text_text by done. cbn [mbind option_bind]. rewrite Ep.
    cbn [mbind option_bind]. rewrite no_host_bits, Hm by done. cbn [Z.eqb of_option rbind].
    by rewrite bool_decide_eq_true_2.
Qed.

(** Membership is an interval test. *)
Lemma in_network_spec address net :
  network_ok net ->
  in_network address net = true
  <-> network_address net <= address < network_address net + 2 ^ (32 - prefixlen net).
Proof.
  intros (Ha & Hp & Hm). unfold in_network. rewrite !Z.shiftr_div_pow2, Z.eqb_eq by lia.
  set (k := 2 ^ (32 - prefixlen net)) in *. assert (0 < k) by (unfold k; lia). clearbody k.
  pose proof (Z.div_mod (network_address net) k ltac:(lia)).
  pose proof (Z.div_mod address k ltac:(lia)). pose proof (Z.mod_pos_bound address k ltac:(lia)).
  nia.
Qed.
