(* ===== verification/Identities.v ===== *)
(** * Locked identity derivations, digests and signatures

    The second half of [canonicaljson.py]: content-derived identifiers (events,
    releases, incidents, candidates, intents, plans, actions, action records),
    domain-separated digests and signing messages over canonical JSON, and the
    signature checks.  Ed25519 comes from the [cryptography] package and is the
    parameter [ed25519_verify] of the verification section.

    The theorems say what an identifier commits to: two inputs with the same
    identifier are equal or exhibit a SHA-256 collision (on the first 16 bytes
    for the identifiers the code truncates to 32 hex digits), and messages of
    different kinds are never the same bytes. *)

From S2P Require Import Prelude Sha256 CanonicalJson JsonDecode Ipv4.
Local Open Scope Z_scope.
Local Open Scope agmind_scope.

Abbreviation document := (list (pystr * json)).

Definition NUL : bytes := [byte_of 0].

(** [value.encode("ascii")] *)
Definition ascii_encode (value : pystr) : option bytes :=
  if forallb (fun c => (0 <=? c) && (c <? 128)) value then Some (map byte_of value) else None.

(** [_ascii] *)
Definition ascii_bytes (value : pystr) : result py_exn bytes :=
  of_option ValueError (ascii_encode value).

(** [bytes.fromhex(s)], with its [ValueError] *)
Definition fromhex (s : pystr) : result py_exn bytes := of_option ValueError (hex_decode s).

(** ** Identifiers *)

Definition key_id (public_key : bytes) : result py_exn pystr :=
  guard (bool_decide (length public_key = 32%nat)) ValueError ;;*
  Ok (take 32 (sha256_hex public_key)).

(** [n.to_bytes(8, "big", signed=False)], [OverflowError] re-raised *)
Definition uint64_bytes (n : Z) : result py_exn bytes :=
  guard (is_uint64 n) ValueError ;;* Ok (be_encode 8 n).

Definition EVENT_ID_DOMAIN : bytes := bstr "AGMIND_EVENT_ID_V1" ++ NUL.

Definition event_id_preimage (host boot numbers digest : bytes) : bytes :=
  EVENT_ID_DOMAIN ++ host ++ NUL ++ boot ++ NUL ++ numbers ++ digest.

(** [event_id], on the fields of the envelope it reads *)
Definition event_id (host_id boot_id : pystr) (key_epoch source_sequence : Z)
    (normalized_fields_sha256 : pystr) : result py_exn pystr :=
  let* normalized_digest := fromhex normalized_fields_sha256 in
  guard (bool_decide (length normalized_digest = 32%nat)) ValueError ;;*
  let* epoch := uint64_bytes key_epoch in
  let* sequence := uint64_bytes source_sequence in
  let* host := ascii_bytes host_id in
  let* boot := ascii_bytes boot_id in
  Ok (u "evt_" ++ sha256_hex
        (event_id_preimage host boot (epoch ++ sequence) normalized_digest)).

Definition release_id (image_id immutable_spec_sha256 : pystr) : result py_exn pystr :=
  let* image := ascii_bytes image_id in
  let* spec := ascii_bytes immutable_spec_sha256 in
  Ok (u "rel_" ++ take 32 (sha256_hex (bstr "AGMIND_RELEASE_ID_V1" ++ NUL ++ image ++ NUL ++ spec))).

Definition incident_id (primary_event_id : pystr) : result py_exn pystr :=
  let* primary := ascii_bytes primary_event_id in
  Ok (u "inc_" ++ sha256_hex (bstr "AGMIND_INCIDENT_ID_V1" ++ NUL ++ primary)).

(** [b"\0".join(values)] *)
Fixpoint join_nul (values : list bytes) : bytes :=
  match values with
  | [] => []
  | [x] => x
  | x :: values => x ++ NUL ++ join_nul values
  end.

Definition candidate_id (event_id_value docker_container_id docker_started_at
    destination_ipv4 detector_bundle_sha256 : pystr) : result py_exn pystr :=
  let* fields := map_res ascii_bytes
    [event_id_value; docker_container_id; docker_started_at; destination_ipv4;
     detector_bundle_sha256] in
  Ok (u "cand_" ++ sha256_hex (bstr "AGMIND_CANDIDATE_ID_V1" ++ NUL ++ join_nul fields)).

Definition intent_id (candidate_id_value policy_bundle_sha256 : pystr) (ttl_seconds : Z)
  : result py_exn pystr :=
  guard (is_uint64 ttl_seconds) ValueError ;;*
  let* candidate := ascii_bytes candidate_id_value in
  let* policy := ascii_bytes policy_bundle_sha256 in
  let* ttl := ascii_bytes (str_of_int ttl_seconds) in
  Ok (u "int_" ++ take 32 (sha256_hex
        (bstr "AGMIND_INTENT_ID_V1" ++ NUL ++ candidate ++ NUL ++ policy ++ NUL ++ ttl))).

Definition plan_id (intent_id_value : pystr) (nonce : bytes) : result py_exn pystr :=
  guard (bool_decide (length nonce = 32%nat)) ValueError ;;*
  let* intent := ascii_bytes intent_id_value in
  Ok (u "plan_" ++ take 32 (sha256_hex (bstr "AGMIND_PLAN_ID_V1" ++ NUL ++ intent ++ NUL ++ nonce))).

Definition action_id (plan_hash_value : pystr) : result py_exn pystr :=
  let* digest := fromhex plan_hash_value in
  guard (bool_decide (length digest = 32%nat)) ValueError ;;*
  Ok (u "act_" ++ take 32 (sha256_hex (bstr "AGMIND_ACTION_ID_V1" ++ NUL ++ digest))).

Definition action_record_id (record_sha256 : pystr) : result py_exn pystr :=
  guard (is_hex 64 record_sha256) ValueError ;;*
  Ok (u "ar_" ++ take 32 record_sha256).

(** ** Documents: digests and signing messages *)

(** [document.pop(key, None)] *)
Definition pop (key : pystr) (doc : document) : document :=
  filter (fun kv => kv.1 <> key) doc.

(** [document.get(key)] *)
Fixpoint get (key : pystr) (doc : document) : option json :=
  match doc with
  | [] => None
  | (k, v) :: doc => if bool_decide (k = key) then Some v else get key doc
  end.

Definition plan_hash (plan : document) : result py_exn pystr :=
  let* canonical := canonical_json (JObj (pop (u "plan_hash") plan)) in
  Ok (sha256_hex (bstr "AGMIND_PLAN_HASH_V1" ++ NUL ++ canonical)).

Definition action_record_hash (record : document) : result py_exn pystr :=
  let doc := pop (u "actuator_signature") (pop (u "record_sha256") (pop (u "record_id") record)) in
  let* canonical := canonical_json (JObj doc) in
  Ok (sha256_hex (bstr "AGMIND_ACTION_RECORD_HASH_V1" ++ NUL ++ canonical)).

Definition event_signing_message (envelope : document) : result py_exn bytes :=
  let* canonical := canonical_json (JObj (pop (u "source_signature") envelope)) in
  Ok (bstr "AGMIND_EVENT_ENVELOPE_V1" ++ NUL ++ canonical).

Definition action_record_signing_message (record : document) : result py_exn bytes :=
  let* canonical := canonical_json (JObj (pop (u "actuator_signature") record)) in
  Ok (bstr "AGMIND_ACTION_RECORD_V1" ++ NUL ++ canonical).

Definition key_transition_signing_message (transition : document) : result py_exn bytes :=
  let doc := pop (u "new_signature") (pop (u "old_signature") transition) in
  let* canonical := canonical_json (JObj doc) in
  Ok (bstr "AGMIND_KEY_TRANSITION_V1" ++ NUL ++ canonical).

(** ** Detector bundle and denylists *)

Definition pcc_detector_bundle_sha256 (rule_file_bytes : bytes) : pystr :=
  sha256_hex
    (bstr "AGMIND_DETECTOR_BUNDLE_V1" ++ NUL
     ++ flat_map (fun value => be_encode 8 (Z.of_nat (length value)) ++ value)
          [rule_file_bytes; bstr "agmind.falco-connect.v1"; bstr "0.44.1"]).

Definition PCC_MAX_DENYLIST_ITEMS : nat := 128.

(** [_pcc_ipv4_tuple] *)
Definition pcc_ipv4_tuple (values : list pystr) (network : bool)
  : result py_exn (list pystr) :=
  guard (bool_decide (length values <= PCC_MAX_DENYLIST_ITEMS)%nat) ValueError ;;*
  guard (is_sorted_unique values) ValueError ;;*
  map_res (fun value =>
    if network then canonical_ipv4_network value ;;* Ok value
    else canonical_ipv4_address value ;;* Ok value) values.

(** [_pcc_denylist_sha256] *)
Definition pcc_denylist_sha256 (domain : bytes) (denied_networks denied_addresses : list pystr)
  : result py_exn pystr :=
  let* addresses := pcc_ipv4_tuple denied_addresses false in
  let* networks := pcc_ipv4_tuple denied_networks true in
  let* canonical := canonical_json
    (JObj [(u "denied_addresses", JArr (map JStr addresses));
           (u "denied_networks", JArr (map JStr networks))]) in
  Ok (sha256_hex (domain ++ canonical)).

Definition pcc_operator_denylist_sha256 : list pystr -> list pystr -> result py_exn pystr :=
  pcc_denylist_sha256 (bstr "AGMIND_OPERATOR_DENYLIST_V1" ++ NUL).

Definition pcc_management_denylist_sha256 : list pystr -> list pystr -> result py_exn pystr :=
  pcc_denylist_sha256 (bstr "AGMIND_MANAGEMENT_DENYLIST_V1" ++ NUL).

(** ** Signatures *)

Inductive signature_exn := SigValueError | SigTypeError | InvalidSignature.

Definition sig_exn (e : py_exn) : signature_exn :=
  match e with TypeError => SigTypeError | _ => SigValueError end.

(** [x = document.get(key); if not isinstance(x, str): raise TypeError] *)
Definition get_text (key : pystr) (doc : document) : result signature_exn pystr :=
  match get key doc with Some (JStr s) => Ok s | _ => Err SigTypeError end.

(** [document.get(key) == text] *)
Definition field_is (key text : pystr) (doc : document) : bool :=
  match get key doc with Some (JStr s) => bool_decide (s = text) | _ => false end.

Section Signatures.

(** [Ed25519PublicKey.from_public_bytes(pk).verify(signature, message)]: whether
    it returns or raises [InvalidSignature]. *)
Context (ed25519_verify : bytes -> bytes -> bytes -> bool).

Definition ed25519_check (public_key signature message : bytes) : result signature_exn unit :=
  guard (ed25519_verify public_key signature message) InvalidSignature.

Definition verify_event_signature (envelope : document) (public_key : bytes)
  : result signature_exn unit :=
  let* expected := catch_with sig_exn (key_id public_key) in
  guard (field_is (u "key_id") expected envelope) SigValueError ;;*
  let* signature_text := get_text (u "source_signature") envelope in
  let* signature := catch_with sig_exn (fromhex signature_text) in
  let* message := catch_with sig_exn (event_signing_message envelope) in
  ed25519_check public_key signature message.

Definition verify_action_record (record : document) (public_key : bytes)
  : result signature_exn unit :=
  let* expected := catch_with sig_exn (key_id public_key) in
  guard (field_is (u "actuator_key_id") expected record) SigValueError ;;*
  let* expected_hash := catch_with sig_exn (action_record_hash record) in
  guard (field_is (u "record_sha256") expected_hash record) SigValueError ;;*
  let* expected_id := catch_with sig_exn (action_record_id expected_hash) in
  guard (field_is (u "record_id") expected_id record) SigValueError ;;*
  let* signature_text := get_text (u "actuator_signature") record in
  let* signature := catch_with sig_exn (fromhex signature_text) in
  let* message := catch_with sig_exn (action_record_signing_message record) in
  ed25519_check public_key signature message.

Definition verify_key_transition (transition : document) (old_public_key : bytes)
  : result signature_exn unit :=
  let* expected_old := catch_with sig_exn (key_id old_public_key) in
  guard (field_is (u "old_key_id") expected_old transition) SigValueError ;;*
  let* new_public_text := get_text (u "new_public_key") transition in
  let* new_public_key := catch_with sig_exn (fromhex new_public_text) in
  let* expected_new := catch_with sig_exn (key_id new_public_key) in
  guard (field_is (u "new_key_id") expected_new transition) SigValueError ;;*
  let* old_signature_text := get_text (u "old_signature") transition in
  let* new_signature_text := get_text (u "new_signature") transition in
  let* old_signature := catch_with sig_exn (fromhex old_signature_text) in
  let* new_signature := catch_with sig_exn (fromhex new_signature_text) in
  let* message := catch_with sig_exn (key_transition_signing_message transition) in
  ed25519_check old_public_key old_signature message ;;*
  ed25519_check new_public_key new_signature message.

End Signatures.

(** ** Injectivity of the preimages *)

(** Two inputs whose SHA-256 agree on the first 16 bytes, all that a 32-digit
    identifier keeps. *)
Definition collision128 (x y : bytes) : Prop :=
  x <> y /\ take 16 (sha256 x) = take 16 (sha256 y).

Lemma hex_encode_take n l : take (2 * n) (hex_encode l) = hex_encode (take n l).
Proof.
  revert l. induction n as [|n IH]; intros [|x l]; try done.
  replace (2 * S n)%nat with (S (S (2 * n))) by lia. cbn [hex_encode flat_map app firstn].
  do 2 f_equal. apply IH.
Qed.

Lemma sha256_hex_prefix_eq x y :
  take 32 (sha256_hex x) = take 32 (sha256_hex y) -> x = y \/ collision128 x y.
Proof.
  unfold sha256_hex. rewrite !(hex_encode_take 16). intros H%hex_encode_inj.
  destruct (decide (x = y)); [by left|by right].
Qed.

Lemma ascii_encode_sound s l :
  ascii_encode s = Some l -> l = map byte_of s /\ Forall (fun c => 0 <= c < 128) s.
Proof.
  unfold ascii_encode. destruct (forallb _ s) eqn:E; [|done]. intros [= <-]. split; [done|].
  apply List.Forall_forall. intros c Hc. rewrite forallb_forall in E. apply E in Hc.
  breflect. lia.
Qed.

Lemma byte_of_inj x y : 0 <= x < 256 -> 0 <= y < 256 -> byte_of x = byte_of y -> x = y.
Proof.
  intros Hx Hy H. apply (f_equal byte_val) in H. rewrite !byte_val_of in H.
  by rewrite !Z.mod_small in H by lia.
Qed.

Lemma ascii_encode_inj s t l : ascii_encode s = Some l -> ascii_encode t = Some l -> s = t.
Proof.
  intros [-> Hs]%ascii_encode_sound [E Ht]%ascii_encode_sound.
  revert t Ht E. induction Hs as [|c s Hc Hs IH]; intros [|d t] Ht E; try done.
  inversion Ht; subst. injection E as E1 E2. f_equal; [apply byte_of_inj; [lia..|done]|].
  by apply IH.
Qed.

(** Text without NUL encodes to bytes without NUL. *)
Lemma ascii_no_nul s l : ascii_encode s = Some l -> 0 ∉ s -> byte_of 0 ∉ l.
Proof.
  intros [-> Hs]%ascii_encode_sound H0 (c & Hc & Hin)%list_elem_of_fmap.
  rewrite Forall_forall in Hs. specialize (Hs c Hin).
  apply byte_of_inj in Hc; [|lia..]. congruence.
Qed.

Lemma nul_split (x y r t : bytes) :
  byte_of 0 ∉ x -> byte_of 0 ∉ y -> x ++ NUL ++ r = y ++ NUL ++ t -> x = y /\ r = t.
Proof.
  revert y. induction x as [|c x IH]; intros [|d y] Hx Hy H; cbn [app NUL] in H.
  - by injection H.
  - injection H as H _. rewrite not_elem_of_cons in Hy. by destruct Hy as [[] _].
  - injection H as H _. rewrite not_elem_of_cons in Hx. by destruct Hx as [[] _].
  - injection H as -> H. rewrite not_elem_of_cons in Hx, Hy.
    destruct (IH y) as [-> ->]; [tauto|tauto|done|]. done.
Qed.

Lemma join_nul_inj (xs ys : list bytes) :
  length xs = length ys -> Forall (fun x => byte_of 0 ∉ x) xs -> Forall (fun x => byte_of 0 ∉ x) ys ->
  join_nul xs = join_nul ys -> xs = ys.
Proof.
  intros Hl Hx. revert ys Hl. induction Hx as [|x xs Hx Hxs IH]; intros [|y ys] Hl Hy H; try done.
  inversion Hy; subst. injection Hl as Hl.
  destruct xs as [|x' xs], ys as [|y' ys]; try done.
  - simpl in H. by subst.
  - change (x ++ NUL ++ join_nul (x' :: xs) = y ++ NUL ++ join_nul (y' :: ys)) in H.
    apply nul_split in H as [-> H]; [|done..]. f_equal. by apply IH.
Qed.

Lemma be_encode_8_inj x y : is_uint64 x = true -> is_uint64 y = true ->
  be_encode 8 x = be_encode 8 y -> x = y.
Proof.
  unfold is_uint64, MAX_UINT64. intros Hx Hy H. breflect.
  rewrite <- (be_decode_encode 8 x), <- (be_decode_encode 8 y), H by (split; [lia|]; lia). done.
Qed.

Lemma app_eq_len {A} (x y r t : list A) : length x = length y -> x ++ r = y ++ t -> x = y /\ r = t.
Proof. intros Hl H. by apply app_inj_1 in H. Qed.

(** ** What identifiers commit to *)

Lemma ascii_bytes_ok s l : ascii_bytes s = Ok l <-> ascii_encode s = Some l.
Proof. unfold ascii_bytes. apply of_option_ok. Qed.

(** The bytes [event_id] hashes for these fields. *)
Definition event_preimage (host_id boot_id : pystr) (key_epoch source_sequence : Z)
    (normalized_fields_sha256 : pystr) : result py_exn bytes :=
  let* normalized_digest := fromhex normalized_fields_sha256 in
  guard (bool_decide (length normalized_digest = 32%nat)) ValueError ;;*
  let* epoch := uint64_bytes key_epoch in
  let* sequence := uint64_bytes source_sequence in
  let* host := ascii_bytes host_id in
  let* boot := ascii_bytes boot_id in
  Ok (event_id_preimage host boot (epoch ++ sequence) normalized_digest).

Lemma event_id_of_preimage h c e s d i :
  event_id h c e s d = Ok i <->
  exists m, event_preimage h c e s d = Ok m /\ i = u "evt_" ++ sha256_hex m.
Proof.
  unfold event_id, event_preimage. split.
  - destruct (fromhex d); [|done]. cbn [rbind]. destruct (guard _ _); [|done]. cbn [rbind].
    destruct (uint64_bytes e), (uint64_bytes s), (ascii_bytes h), (ascii_bytes c); try done.
    cbn [rbind]. intros [= <-]. eauto.
  - destruct (fromhex d); [|by intros (? & ? & ?)]. cbn [rbind].
    destruct (guard _ _); [|by intros (? & ? & ?)]. cbn [rbind].
    destruct (uint64_bytes e), (uint64_bytes s), (ascii_bytes h), (ascii_bytes c);
      cbn [rbind]; try (by intros (? & ? & ?)). intros (m & [= <-] & ->). done.
Qed.

Lemma uint64_bytes_ok n l : uint64_bytes n = Ok l -> is_uint64 n = true /\ l = be_encode 8 n.
Proof.
  unfold uint64_bytes, guard. destruct (is_uint64 n); [|done]. cbn [rbind].
  generalize (be_encode 8 n). intros ? [= <-]. done.
Qed.

Lemma event_preimage_sound h c e s d m :
  event_preimage h c e s d = Ok m -> exists dg hb cb,
    hex_decode d = Some dg /\ length dg = 32%nat /\ is_uint64 e = true /\ is_uint64 s = true
    /\ ascii_encode h = Some hb /\ ascii_encode c = Some cb
    /\ m = event_id_preimage hb cb (be_encode 8 e ++ be_encode 8 s) dg.
Proof.
  unfold event_preimage. intros H.
  apply rbind_ok in H as (dg & Hd & H). apply rbind_ok in H as (? & Hl%guard_ok & H).
  apply rbind_ok in H as (eb & He & H). apply rbind_ok in H as (sb & Hs & H).
  apply rbind_ok in H as (hb & Hh%ascii_bytes_ok & H).
  apply rbind_ok in H as (cb & Hc%ascii_bytes_ok & H).
  apply uint64_bytes_ok in He as [He ->], Hs as [Hs ->].
  apply bool_decide_eq_true in Hl. apply of_option_ok in Hd.
  exists dg, hb, cb. split_and!; try done. congruence.
Qed.

Lemma event_preimage_inj h1 c1 e1 s1 d1 h2 c2 e2 s2 d2 m :
  0 ∉ h1 -> 0 ∉ c1 -> 0 ∉ h2 -> 0 ∉ c2 ->
  event_preimage h1 c1 e1 s1 d1 = Ok m -> event_preimage h2 c2 e2 s2 d2 = Ok m ->
  h1 = h2 /\ c1 = c2 /\ e1 = e2 /\ s1 = s2 /\ fromhex d1 = fromhex d2.
Proof.
  intros N1 N2 N3 N4
    (g1 & hb1 & cb1 & D1 & L1 & E1 & S1 & H1 & C1 & ->)%event_preimage_sound
    (g2 & hb2 & cb2 & D2 & L2 & E2 & S2 & H2 & C2 & H)%event_preimage_sound.
  unfold event_id_preimage in H. apply app_inv_head in H.
  apply nul_split in H as [-> H]; [|by eapply ascii_no_nul..].
  apply nul_split in H as [-> H]; [|by eapply ascii_no_nul..].
  apply app_eq_len in H as [Hn ->]; [|by rewrite !length_app, !be_encode_length].
  apply app_eq_len in Hn as [He Hs]; [|by rewrite !be_encode_length].
  apply be_encode_8_inj in He, Hs; [|done..]. unfold fromhex. rewrite D1, D2.
  split_and!; [by eapply ascii_encode_inj|by eapply ascii_encode_inj|done..].
Qed.

(** An event identifier commits to the host, the boot, the key epoch, the
    source sequence and the digest of the normalized fields: two derivations
    (from host and boot identifiers without NUL) that agree on the identifier
    agree on all five, unless the two hashed preimages are a SHA-256 collision. *)
Theorem event_id_binds h1 c1 e1 s1 d1 h2 c2 e2 s2 d2 i :
  0 ∉ h1 -> 0 ∉ c1 -> 0 ∉ h2 -> 0 ∉ c2 ->
  event_id h1 c1 e1 s1 d1 = Ok i -> event_id h2 c2 e2 s2 d2 = Ok i ->
  (h1 = h2 /\ c1 = c2 /\ e1 = e2 /\ s1 = s2 /\ fromhex d1 = fromhex d2)
  \/ exists m1 m2, event_preimage h1 c1 e1 s1 d1 = Ok m1
       /\ event_preimage h2 c2 e2 s2 d2 = Ok m2 /\ collision m1 m2.
Proof.
  intros N1 N2 N3 N4 (m1 & H1 & ->)%event_id_of_preimage (m2 & H2 & E)%event_id_of_preimage.
  apply app_inv_head in E. apply sha256_hex_inj in E as [->|C].
  - left. by eapply event_preimage_inj.
  - right. by exists m1, m2.
Qed.

Lemma ascii_fields_inj (xs ys : list pystr) (fs gs : list bytes) :
  length xs = length ys -> Forall (fun s => 0 ∉ s) xs -> Forall (fun s => 0 ∉ s) ys ->
  map_res ascii_bytes xs = Ok fs -> map_res ascii_bytes ys = Ok gs ->
  join_nul fs = join_nul gs -> xs = ys.
Proof.
  rewrite !map_res_ok. intros Hl Nx Ny Hx Hy Hj.
  assert (Nof : forall (zs : list pystr) (hs : list bytes), Forall (fun s => 0 ∉ s) zs ->
    Forall2 (fun x y => ascii_bytes x = Ok y) zs hs -> Forall (fun x => byte_of 0 ∉ x) hs).
  { intros zs hs Hz H. induction H as [|x y zs hs Hxy _ IH]; [constructor|].
    apply Forall_cons in Hz as [Hz1 Hz2]. constructor; [|by apply IH].
    apply ascii_bytes_ok in Hxy. by eapply ascii_no_nul. }
  apply join_nul_inj in Hj;
    [|by rewrite <- (Forall2_length _ _ _ Hx), <- (Forall2_length _ _ _ Hy)
     |exact (Nof _ _ Nx Hx)|exact (Nof _ _ Ny Hy)].
  subst gs. clear -Hx Hy. revert ys Hy. induction Hx as [|x f xs fs Hxf _ IH]; intros ys Hy.
  - by inversion Hy.
  - inversion Hy as [|y ? ys' ? Hyf Hys]; subst. rewrite ascii_bytes_ok in *.
    f_equal; [by eapply ascii_encode_inj|by apply IH].
Qed.

Definition candidate_fields (event container started dest bundle : pystr) : list pystr :=
  [event; container; started; dest; bundle].

Definition candidate_preimage (fields : list bytes) : bytes :=
  bstr "AGMIND_CANDIDATE_ID_V1" ++ NUL ++ join_nul fields.

(** A candidate identifier commits to the triggering event, the container, its
    start time, the destination address and the detector bundle: equal
    identifiers come from equal fields (none containing NUL), unless the two
    hashed preimages are a SHA-256 collision. *)
Theorem candidate_id_binds v1 c1 s1 d1 g1 v2 c2 s2 d2 g2 i :
  Forall (fun s => 0 ∉ s) (candidate_fields v1 c1 s1 d1 g1) ->
  Forall (fun s => 0 ∉ s) (candidate_fields v2 c2 s2 d2 g2) ->
  candidate_id v1 c1 s1 d1 g1 = Ok i -> candidate_id v2 c2 s2 d2 g2 = Ok i ->
  candidate_fields v1 c1 s1 d1 g1 = candidate_fields v2 c2 s2 d2 g2
  \/ exists f1 f2,
       map_res ascii_bytes (candidate_fields v1 c1 s1 d1 g1) = Ok f1
       /\ map_res ascii_bytes (candidate_fields v2 c2 s2 d2 g2) = Ok f2
       /\ collision (candidate_preimage f1) (candidate_preimage f2).
Proof.
  intros N1 N2 H1 H2. unfold candidate_id in *.
  change [v1; c1; s1; d1; g1] with (candidate_fields v1 c1 s1 d1 g1) in H1.
  change [v2; c2; s2; d2; g2] with (candidate_fields v2 c2 s2 d2 g2) in H2.
  apply rbind_ok in H1 as (f1 & F1 & E1), H2 as (f2 & F2 & E2).
  assert (E : sha256_hex (candidate_preimage f1) = sha256_hex (candidate_preimage f2)).
  { apply (app_inv_head (u "cand_")). unfold candidate_preimage. congruence. }
  apply sha256_hex_inj in E as [E|C].
  - left. apply app_inv_head, app_inv_head in E. by apply (ascii_fields_inj _ _ f1 f2).
  - right. by exists f1, f2.
Qed.

Lemma str_of_int_inj n k : 0 <= n -> 0 <= k -> str_of_int n = str_of_int k -> n = k.
Proof.
  intros Hn Hk. unfold str_of_int.
  destruct (Z.ltb_spec n 0), (Z.ltb_spec k 0); try lia. intros E.
  rewrite <- (proj1 (dec_nonneg_spec n Hn)), <- (proj1 (dec_nonneg_spec k Hk)). by rewrite E.
Qed.

Lemma str_of_int_no_nul n : 0 <= n -> 0 ∉ str_of_int n.
Proof.
  intros Hn. unfold str_of_int. destruct (Z.ltb_spec n 0); [lia|].
  destruct (dec_nonneg_spec n Hn) as (_ & Hd & _). intros Hin.
  rewrite Forall_forall in Hd. apply Hd, is_digit_range in Hin. lia.
Qed.

Definition intent_fields (candidate policy : pystr) (ttl : Z) : list pystr :=
  [candidate; policy; str_of_int ttl].

Definition intent_preimage (fields : list bytes) : bytes :=
  bstr "AGMIND_INTENT_ID_V1" ++ NUL ++ join_nul fields.

Lemma intent_id_fields c p t i :
  intent_id c p t = Ok i -> 0 <= t /\ exists f,
    map_res ascii_bytes (intent_fields c p t) = Ok f
    /\ i = u "int_" ++ take 32 (sha256_hex (intent_preimage f)).
Proof.
  unfold intent_id, intent_fields. intros H. apply rbind_ok in H as (? & Hu%guard_ok & H).
  unfold is_uint64 in Hu. breflect. split; [done|].
  apply rbind_ok in H as (fx & Hx & H). apply rbind_ok in H as (fy & Hy & H).
  apply rbind_ok in H as (fz & Hz & H). exists [fx; fy; fz].
  cbn [map_res]. rewrite Hx, Hy, Hz. cbn [rbind]. split; [done|]. by injection H.
Qed.

(** An intent identifier commits to the candidate, the policy bundle and the
    time to live: equal identifiers come from equal inputs (no NUL in the two
    texts), unless the two hashed preimages collide on the 16 digest bytes the
    identifier keeps. *)
Theorem intent_id_binds c1 p1 t1 c2 p2 t2 i :
  Forall (fun s => 0 ∉ s) [c1; p1] -> Forall (fun s => 0 ∉ s) [c2; p2] ->
  intent_id c1 p1 t1 = Ok i -> intent_id c2 p2 t2 = Ok i ->
  (c1 = c2 /\ p1 = p2 /\ t1 = t2)
  \/ exists f1 f2,
       map_res ascii_bytes (intent_fields c1 p1 t1) = Ok f1
       /\ map_res ascii_bytes (intent_fields c2 p2 t2) = Ok f2
       /\ collision128 (intent_preimage f1) (intent_preimage f2).
Proof.
  intros N1 N2 (T1 & f1 & F1 & ->)%intent_id_fields (T2 & f2 & F2 & E)%intent_id_fields.
  apply app_inv_head in E. apply sha256_hex_prefix_eq in E as [E|C].
  - left. apply app_inv_head, app_inv_head in E.
    apply (ascii_fields_inj (intent_fields c1 p1 t1) (intent_fields c2 p2 t2)) in E;
      [|done| | |done|done].
    + injection E as -> -> E. split_and!; [done..|]. by apply str_of_int_inj.
    + rewrite Forall_cons, Forall_singleton in N1. unfold intent_fields.
      rewrite !Forall_cons. destruct N1.
      split_and!; [done..|by apply str_of_int_no_nul|constructor].
    + rewrite Forall_cons, Forall_singleton in N2. unfold intent_fields.
      rewrite !Forall_cons. destruct N2.
      split_and!; [done..|by apply str_of_int_no_nul|constructor].
  - right. by exists f1, f2.
Qed.

(** ** Documents *)

Lemma unique_keys_pop k d : unique_keys (JObj d) = true -> unique_keys (JObj (pop k d)) = true.
Proof.
  cbn [unique_keys]. rewrite !andb_true_iff, !bool_decide_eq_true, !forallb_forall.
  intros [Hnd Hu]. unfold pop. split.
  - induction d as [|kv d IH]; [constructor|]. cbn [map] in Hnd.
    apply NoDup_cons in Hnd as [Hin Hnd]. cbn [filter list_filter].
    assert (IHd : NoDup (map fst (filter (fun kv => kv.1 <> k) d))).
    { apply IH; [done|]. intros kv' Hkv. apply Hu. by right. }
    case_decide; [|done]. cbn [map]. constructor; [|done]. intros Hx. apply Hin.
    apply list_elem_of_fmap in Hx as (kv' & E & Hf). apply list_elem_of_filter in Hf as [_ Hf].
    apply list_elem_of_fmap. by exists kv'.
  - intros kv Hkv%list_elem_of_In. apply list_elem_of_filter in Hkv as [_ Hkv].
    apply Hu. by apply list_elem_of_In.
Qed.

#[export] Hint Resolve unique_keys_pop : agmind.

(** Domain-separated canonical bytes determine the document. *)
Lemma domain_message_inj (domain : bytes) d1 d2 c1 c2 :
  unique_keys (JObj d1) = true -> unique_keys (JObj d2) = true ->
  canonical_json (JObj d1) = Ok c1 -> canonical_json (JObj d2) = Ok c2 ->
  domain ++ c1 = domain ++ c2 -> canon (JObj d1) = canon (JObj d2).
Proof.
  intros U1 U2 C1 C2 E. apply app_inv_head in E. subst c2.
  by apply (proj1 (canonical_json_injective_aux _ _ _ U2 U1 C2)).
Qed.

(** A plan hash commits to every field of the plan except the hash itself: two
    plans with the same hash are the same document, up to the order of keys, once
    [plan_hash] is removed, unless the hashed bytes are a SHA-256 collision. *)
Theorem plan_hash_binds p1 p2 h :
  unique_keys (JObj p1) = true -> unique_keys (JObj p2) = true ->
  plan_hash p1 = Ok h -> plan_hash p2 = Ok h ->
  canon (JObj (pop (u "plan_hash") p1)) = canon (JObj (pop (u "plan_hash") p2))
  \/ exists c1 c2, canonical_json (JObj (pop (u "plan_hash") p1)) = Ok c1
       /\ canonical_json (JObj (pop (u "plan_hash") p2)) = Ok c2
       /\ collision (bstr "AGMIND_PLAN_HASH_V1" ++ NUL ++ c1)
                    (bstr "AGMIND_PLAN_HASH_V1" ++ NUL ++ c2).
Proof.
  intros U1 U2 H1 H2. unfold plan_hash in *.
  apply rbind_ok in H1 as (c1 & C1 & E1), H2 as (c2 & C2 & E2).
  assert (E : sha256_hex (bstr "AGMIND_PLAN_HASH_V1" ++ NUL ++ c1)
              = sha256_hex (bstr "AGMIND_PLAN_HASH_V1" ++ NUL ++ c2)) by congruence.
  apply sha256_hex_inj in E as [E|C]; [left|right; by exists c1, c2].
  rewrite !(app_assoc _ NUL) in E. eapply domain_message_inj; eauto with agmind.
Qed.

(** The three signed message kinds never coincide: no event envelope, action
    record and key transition share signing bytes, so a signature made for one
    kind is no signature for another. *)
Theorem signing_domains_disjoint d1 d2 m :
  (event_signing_message d1 = Ok m -> action_record_signing_message d2 <> Ok m)
  /\ (event_signing_message d1 = Ok m -> key_transition_signing_message d2 <> Ok m)
  /\ (action_record_signing_message d1 = Ok m -> key_transition_signing_message d2 <> Ok m).
Proof.
  unfold event_signing_message, action_record_signing_message, key_transition_signing_message.
  split_and!; intros H1 H2; apply rbind_ok in H1 as (c1 & _ & E1), H2 as (c2 & _ & E2);
    injection E1 as <-; injection E2 as E2; discriminate E2.
Qed.

(** ** Signature checks *)

Lemma field_is_true key text doc : field_is key text doc = true <-> get key doc = Some (JStr text).
Proof.
  unfold field_is. destruct (get key doc) as [[]|]; try done.
  rewrite bool_decide_eq_true. naive_solver.
Qed.

Lemma get_text_ok key doc s : get_text key doc = Ok s <-> get key doc = Some (JStr s).
Proof. unfold get_text. destruct (get key doc) as [[]|]; naive_solver. Qed.

Lemma key_id_ok pk k :
  key_id pk = Ok k <-> length pk = 32%nat /\ k = take 32 (sha256_hex pk).
Proof.
  unfold key_id. split.
  - intros H. apply rbind_ok in H as (? & Hg%guard_ok & H). breflect. split; [done|]. congruence.
  - intros [Hl ->]. by rewrite bool_decide_eq_true_2.
Qed.

(** [m] is the signing bytes of at most one document, up to key order, once the
    fields [keys] are removed. *)
Definition binds_document (message : document -> result py_exn bytes) (keys : list pystr)
    (doc : document) (m : bytes) : Prop :=
  forall other, unique_keys (JObj other) = true -> message other = Ok m ->
    canon (JObj (foldl (fun d k => pop k d) other keys))
    = canon (JObj (foldl (fun d k => pop k d) doc keys)).

Lemma message_binds domain message keys doc m :
  (forall d, message d = (let* c := canonical_json (JObj (foldl (fun d k => pop k d) d keys)) in
                          Ok (domain ++ NUL ++ c))) ->
  unique_keys (JObj doc) = true -> message doc = Ok m -> binds_document message keys doc m.
Proof.
  intros Hm Hu Hdoc other Ho Hother. rewrite Hm in Hdoc, Hother.
  apply rbind_ok in Hdoc as (c1 & C1 & E1), Hother as (c2 & C2 & E2).
  assert (Hfold : forall d, unique_keys (JObj d) = true ->
    unique_keys (JObj (foldl (fun d k => pop k d) d keys)) = true).
  { clear. induction keys as [|k keys IH]; intros d Hd; [done|]. apply IH. by apply unique_keys_pop. }
  apply (domain_message_inj (domain ++ NUL) _ _ c2 c1); [by apply Hfold..|done|done|].
  rewrite <- !app_assoc. congruence.
Qed.

Section SignatureTheorems.
Context (ed25519_verify : bytes -> bytes -> bytes -> bool).

Lemma ed25519_check_ok pk s m x :
  ed25519_check ed25519_verify pk s m = Ok x -> ed25519_verify pk s m = true.
Proof. apply guard_ok. Qed.

(** An accepted event envelope names the key it was checked with, and its
    signature verifies over bytes that determine the whole envelope except the
    signature itself: no other envelope content passes with those bytes. *)
Theorem verify_event_signature_sound envelope public_key :
  unique_keys (JObj envelope) = true ->
  verify_event_signature ed25519_verify envelope public_key = Ok tt ->
  length public_key = 32%nat
  /\ get (u "key_id") envelope = Some (JStr (take 32 (sha256_hex public_key)))
  /\ exists text signature message,
       get (u "source_signature") envelope = Some (JStr text)
       /\ hex_decode text = Some signature
       /\ event_signing_message envelope = Ok message
       /\ ed25519_verify public_key signature message = true
       /\ binds_document event_signing_message [u "source_signature"] envelope message.
Proof.
  intros Hu H. unfold verify_event_signature, fromhex in H. inv_ok.
  apply key_id_ok in Hr as [Hl ->]. apply field_is_true in Hr0. apply get_text_ok in Hr1.
  apply ed25519_check_ok in H. split_and!; [done..|].
  exists x1, x2, x3. split_and!; [done..|].
  by apply (message_binds (bstr "AGMIND_EVENT_ENVELOPE_V1")).
Qed.

(** An accepted key transition is signed by the old and by the new key over
    the same bytes; those bytes determine every field but the two signatures, and
    the new key identifier is derived from the new public key the record carries. *)
Theorem verify_key_transition_sound transition old_public_key :
  unique_keys (JObj transition) = true ->
  verify_key_transition ed25519_verify transition old_public_key = Ok tt ->
  get (u "old_key_id") transition = Some (JStr (take 32 (sha256_hex old_public_key)))
  /\ exists new_public_key message old_signature new_signature text,
       get (u "new_public_key") transition = Some (JStr text)
       /\ hex_decode text = Some new_public_key
       /\ length old_public_key = 32%nat /\ length new_public_key = 32%nat
       /\ get (u "new_key_id") transition = Some (JStr (take 32 (sha256_hex new_public_key)))
       /\ key_transition_signing_message transition = Ok message
       /\ ed25519_verify old_public_key old_signature message = true
       /\ ed25519_verify new_public_key new_signature message = true
       /\ binds_document key_transition_signing_message [u "old_signature"; u "new_signature"]
            transition message.
Proof.
  intros Hu H. unfold verify_key_transition, fromhex in H. inv_ok.
  apply key_id_ok in Hr as [Hl ->], Hr3 as [Hl' ->]. apply field_is_true in Hr0, Hr4.
  apply get_text_ok in Hr1. apply ed25519_check_ok in H.
  match goal with C : ed25519_check _ _ _ _ = Ok _ |- _ => apply ed25519_check_ok in C end.
  split; [done|]. do 5 eexists. split_and!; try eassumption.
  by apply (message_binds (bstr "AGMIND_KEY_TRANSITION_V1")).
Qed.

(** An accepted action record carries the hash of its own content and the
    identifier derived from that hash, names the actuator key it was checked
    with, and its signature verifies over bytes that determine every field of the
    record except the signature. *)
Theorem verify_action_record_sound record public_key :
  unique_keys (JObj record) = true ->
  verify_action_record ed25519_verify record public_key = Ok tt ->
  exists hash signature message,
    action_record_hash record = Ok hash
    /\ get (u "record_sha256") record = Some (JStr hash)
    /\ get (u "record_id") record = Some (JStr (u "ar_" ++ take 32 hash))
    /\ get (u "actuator_key_id") record = Some (JStr (take 32 (sha256_hex public_key)))
    /\ action_record_signing_message record = Ok message
    /\ ed25519_verify public_key signature message = true
    /\ binds_document action_record_signing_message [u "actuator_signature"] record message.
Proof.
  intros Hu H. unfold verify_action_record, fromhex in H. inv_ok.
  apply key_id_ok in Hr as [Hl ->]. apply field_is_true in Hr0, Hr2, Hr4.
  unfold action_record_id in Hr3. inv_ok. subst. apply ed25519_check_ok in H.
  do 3 eexists. split_and!; try eassumption.
  by apply (message_binds (bstr "AGMIND_ACTION_RECORD_V1")).
Qed.
End SignatureTheorems.

(** ** Witnesses *)

Definition sample_host : pystr := u "11111111-1111-4111-8111-111111111111".
Definition sample_boot : pystr := u "22222222-2222-4222-8222-222222222222".
Definition sample_digest : pystr := sha256_hex (bstr "{}").

Lemma event_id_binds_witness :
  (sample_host = sample_host /\ sample_boot = sample_boot /\ 1 = 1 /\ 7 = 7
   /\ fromhex sample_digest = fromhex sample_digest)
  \/ exists m1 m2, event_preimage sample_host sample_boot 1 7 sample_digest = Ok m1
       /\ event_preimage sample_host sample_boot 1 7 sample_digest = Ok m2 /\ collision m1 m2.
Proof.
  assert (Hh : 0 ∉ sample_host) by (apply (bool_decide_eq_true (0 ∉ sample_host)); vm_compute; reflexivity).
  assert (Hc : 0 ∉ sample_boot) by (apply (bool_decide_eq_true (0 ∉ sample_boot)); vm_compute; reflexivity).
  eapply (event_id_binds sample_host sample_boot 1 7 sample_digest
            sample_host sample_boot 1 7 sample_digest);
    [exact Hh|exact Hc|exact Hh|exact Hc|vm_compute; reflexivity|vm_compute; reflexivity].
Defined.

Definition sample_candidate : list pystr :=
  candidate_fields (u "evt_1") (u "c0ffee") (u "2026-01-01T00:00:00Z") (u "203.0.113.9") (u "ab").

Lemma candidate_id_binds_witness :
  sample_candidate = sample_candidate
  \/ exists f1 f2,
       map_res ascii_bytes sample_candidate = Ok f1
       /\ map_res ascii_bytes sample_candidate = Ok f2
       /\ collision (candidate_preimage f1) (candidate_preimage f2).
Proof.
  assert (Hn : Forall (fun s => 0 ∉ s) sample_candidate)
    by (apply (bool_decide_eq_true (Forall (fun s : pystr => 0 ∉ s) sample_candidate));
        vm_compute; reflexivity).
  eapply (candidate_id_binds (u "evt_1") (u "c0ffee") (u "2026-01-01T00:00:00Z")
            (u "203.0.113.9") (u "ab") (u "evt_1") (u "c0ffee") (u "2026-01-01T00:00:00Z")
            (u "203.0.113.9") (u "ab"));
    [exact Hn|exact Hn|vm_compute; reflexivity|vm_compute; reflexivity].
Defined.

Lemma intent_id_binds_witness :
  (u "cand_1" = u "cand_1" /\ u "ab" = u "ab" /\ 60 = 60)
  \/ exists f1 f2,
       map_res ascii_bytes (intent_fields (u "cand_1") (u "ab") 60) = Ok f1
       /\ map_res ascii_bytes (intent_fields (u "cand_1") (u "ab") 60) = Ok f2
       /\ collision128 (intent_preimage f1) (intent_preimage f2).
Proof.
  assert (Hn : Forall (fun s => 0 ∉ s) [u "cand_1"; u "ab"])
    by (apply (bool_decide_eq_true (Forall (fun s : pystr => 0 ∉ s) [u "cand_1"; u "ab"]));
        vm_compute; reflexivity).
  eapply (intent_id_binds (u "cand_1") (u "ab") 60 (u "cand_1") (u "ab") 60);
    [exact Hn|exact Hn|vm_compute; reflexivity|vm_compute; reflexivity].
Defined.

Definition sample_plan : document :=
  [(u "plan_hash", JStr (u "x")); (u "ttl_seconds", JInt 60); (u "nonce", JStr (u "00"))].

Lemma plan_hash_binds_witness :
  canon (JObj (pop (u "plan_hash") sample_plan))
  = canon (JObj (pop (u "plan_hash") (rev sample_plan)))
  \/ exists c1 c2, canonical_json (JObj (pop (u "plan_hash") sample_plan)) = Ok c1
       /\ canonical_json (JObj (pop (u "plan_hash") (rev sample_plan))) = Ok c2
       /\ collision (bstr "AGMIND_PLAN_HASH_V1" ++ NUL ++ c1)
                    (bstr "AGMIND_PLAN_HASH_V1" ++ NUL ++ c2).
Proof.
  eapply plan_hash_binds; vm_compute; reflexivity.
Defined.

(** A stand-in for Ed25519 that a signer can compute with the public key. *)
Definition toy_signature (public_key message : bytes) : bytes := sha256 (public_key ++ message).
Definition toy_verify (public_key signature message : bytes) : bool :=
  bool_decide (signature = toy_signature public_key message).

Definition sign_field (key : string) (public_key : bytes) (message : result py_exn bytes)
  : pystr * json :=
  (u key, JStr (match message with Ok m => hex_encode (toy_signature public_key m) | Err _ => [] end)).

Definition key_a : bytes := repeat (byte_of 1) 32.
Definition key_b : bytes := repeat (byte_of 2) 32.

Definition sample_event : document :=
  let doc := [(u "key_id", JStr (take 32 (sha256_hex key_a))); (u "event_type", JStr (u "coverage"))] in
  sign_field "source_signature" key_a (event_signing_message doc) :: doc.

Lemma verify_event_signature_witness :
  verify_event_signature toy_verify sample_event key_a = Ok tt
  /\ get (u "key_id") sample_event = Some (JStr (take 32 (sha256_hex key_a))).
Proof.
  assert (Hv : verify_event_signature toy_verify sample_event key_a = Ok tt)
    by (vm_compute; reflexivity).
  split; [exact Hv|].
  destruct (verify_event_signature_sound toy_verify sample_event key_a) as (_ & Hk & _);
    [vm_compute; reflexivity|exact Hv|exact Hk].
Defined.

Definition sample_transition : document :=
  let doc := [(u "old_key_id", JStr (take 32 (sha256_hex key_a)));
              (u "new_key_id", JStr (take 32 (sha256_hex key_b)));
              (u "new_public_key", JStr (hex_encode key_b))] in
  let m := key_transition_signing_message doc in
  sign_field "old_signature" key_a m :: sign_field "new_signature" key_b m :: doc.

Lemma verify_key_transition_witness :
  verify_key_transition toy_verify sample_transition key_a = Ok tt
  /\ get (u "old_key_id") sample_transition = Some (JStr (take 32 (sha256_hex key_a))).
Proof.
  assert (Hv : verify_key_transition toy_verify sample_transition key_a = Ok tt)
    by (vm_compute; reflexivity).
  split; [exact Hv|].
  destruct (verify_key_transition_sound toy_verify sample_transition key_a) as (Hk & _);
    [vm_compute; reflexivity|exact Hv|exact Hk].
Defined.

Definition sample_record : document :=
  let doc := [(u "actuator_key_id", JStr (take 32 (sha256_hex key_a))); (u "state", JStr (u "APPLIED"))] in
  let hash := match action_record_hash doc with Ok h => h | Err _ => [] end in
  let doc := (u "record_sha256", JStr hash) :: (u "record_id", JStr (u "ar_" ++ take 32 hash)) :: doc in
  sign_field "actuator_signature" key_a (action_record_signing_message doc) :: doc.

Lemma verify_action_record_witness :
  verify_action_record toy_verify sample_record key_a = Ok tt
  /\ exists hash, get (u "record_sha256") sample_record = Some (JStr hash).
Proof.
  assert (Hv : verify_action_record toy_verify sample_record key_a = Ok tt)
    by (vm_compute; reflexivity).
  split; [exact Hv|].
  destruct (verify_action_record_sound toy_verify sample_record key_a)
    as (hash & _ & _ & _ & Hh & _); [vm_compute; reflexivity|exact Hv|]. exists hash. exact Hh.
Defined.
