(* ===== verification/Contracts.v ===== *)
(** * Wire contracts

    The strict models of [contracts.py] that the coverage, action and correlation
    components exchange: a Rocq record per model, a validator from the decoded
    JSON document to the record (the field types, the bounds of [Field], the
    [field_validator]s and the [model_validator]s), and the dump
    [model_dump(exclude_none=True)].

    The model machinery of pydantic is third party: what is modelled is the
    declared contract of a strict model that forbids extra fields.  Every
    violation is a [ValueError] (pydantic's [ValidationError] is one), so the
    order in which pydantic reports violations does not matter. *)

From S2P Require Import Prelude Sha256 CanonicalJson JsonDecode Time Ipv4 Identities.
Local Open Scope Z_scope.
Local Open Scope agmind_scope.

(** ** Field readers of a strict model *)

Definition check (b : bool) : result py_exn unit := guard b ValueError.

(** [extra="forbid"] *)
Definition no_extra (allowed : list pystr) (doc : document) : result py_exn unit :=
  check (forallb (fun kv => bool_decide (kv.1 ∈ allowed)) doc).

Definition str_field (key : pystr) (doc : document) : result py_exn pystr :=
  match get key doc with Some (JStr s) => Ok s | _ => Err ValueError end.

Definition opt_str_field (key : pystr) (doc : document) : result py_exn (option pystr) :=
  match get key doc with
  | None | Some JNull => Ok None
  | Some (JStr s) => Ok (Some s)
  | _ => Err ValueError
  end.

(** [int = Field(ge=lo, le=hi)] *)
Definition int_field (key : pystr) (lo hi : Z) (doc : document) : result py_exn Z :=
  match get key doc with
  | Some (JInt z) => check ((lo <=? z) && (z <=? hi)) ;;* Ok z
  | _ => Err ValueError
  end.

Definition opt_int_field (key : pystr) (lo hi : Z) (doc : document)
  : result py_exn (option Z) :=
  match get key doc with
  | None | Some JNull => Ok None
  | Some (JInt z) => check ((lo <=? z) && (z <=? hi)) ;;* Ok (Some z)
  | _ => Err ValueError
  end.

Definition as_str (v : json) : result py_exn pystr :=
  match v with JStr s => Ok s | _ => Err ValueError end.

(** [list[str] = Field(min_length=lo, max_length=hi)] *)
Definition str_list_field (key : pystr) (lo hi : nat) (doc : document)
  : result py_exn (list pystr) :=
  match get key doc with
  | Some (JArr l) =>
      check (bool_decide (lo <= length l)%nat && bool_decide (length l <= hi)%nat) ;;*
      map_res as_str l
  | _ => Err ValueError
  end.

(** [dict[str, Any]] *)
Definition dict_field (key : pystr) (doc : document) : result py_exn document :=
  match get key doc with Some (JObj m) => Ok m | _ => Err ValueError end.

(** [Literal[...]] of strings *)
Definition literal_field (key : pystr) (allowed : list pystr) (doc : document)
  : result py_exn pystr :=
  let* s := str_field key doc in check (bool_decide (s ∈ allowed)) ;;* Ok s.

(** [model_dump(exclude_none=True)] of a model with these fields, in their order *)
Fixpoint dump_of (fields : list (pystr * option json)) : document :=
  match fields with
  | [] => []
  | (k, Some v) :: fields => (k, v) :: dump_of fields
  | (_, None) :: fields => dump_of fields
  end.

(** ** Field validators *)

Definition HEX64 (s : pystr) : bool := is_hex 64 s.
Definition HEX32 (s : pystr) : bool := is_hex 32 s.
Definition HEX128 (s : pystr) : bool := is_hex 128 s.
Definition EVENT_ID (s : pystr) : bool := is_prefixed_hex "evt_" 64 s.

(** [^[0-9a-f]{8}-[0-9a-f]{4}-4[0-9a-f]{3}-[89ab][0-9a-f]{3}-[0-9a-f]{12}$] *)
Definition UUID4 (s : pystr) : bool :=
  match split_on 45 s with
  | [a; b; c; d; e] =>
      is_hex 8 a && is_hex 4 b
      && is_hex 4 c && bool_decide (head c = Some 52)
      && is_hex 4 d && match head d with Some x => bool_decide (x ∈ u "89ab") | None => false end
      && is_hex 12 e
  | _ => false
  end.

Definition opt_ok (p : pystr -> bool) (o : option pystr) : bool :=
  match o with None => true | Some s => p s end.

(** [_utf8] *)
Definition utf8_ok (maximum minimum : nat) (value : pystr) : bool :=
  match utf8_encode value with
  | Some l => bool_decide (minimum <= length l)%nat && bool_decide (length l <= maximum)%nat
  | None => false
  end.

(** [_ascii] of [contracts.py]: printable ASCII of bounded length *)
Definition ascii_ok (maximum minimum : nat) (value : pystr) : bool :=
  match ascii_encode value with
  | Some l =>
      bool_decide (minimum <= length l)%nat && bool_decide (length l <= maximum)%nat
      && forallb (fun c => (0x20 <=? c) && (c <=? 0x7E)) value
  | None => false
  end.

Definition short_ascii (value : pystr) : bool := ascii_ok 64 1 value.

(** [_valid_timestamp]: on text of the timestamp pattern, [fromisoformat] accepts
    exactly the dates and times of the calendar. *)
Definition valid_timestamp (value : pystr) : bool := is_ok (parse_rfc3339nano_utc_ns value).

(** [dt.datetime.fromisoformat] on a valid timestamp: microseconds, the digits
    beyond the sixth dropped. *)
Definition datetime_us (value : pystr) : Z :=
  match parse_rfc3339nano_utc_ns value with Ok ns => ns / 1000 | Err _ => 0 end.

(** [_valid_ipv4]: the pattern and [IPv4Address] agree with the canonical form *)
Definition valid_ipv4 (value : pystr) : bool := is_ok (canonical_ipv4_address value).

(** [_repo_digests] *)
Definition repo_digests_ok (values : list pystr) : bool :=
  is_sorted_unique values && forallb (utf8_ok 256 1) values.

Section BoundedNested.
Context (max_string max_items max_properties max_name : nat).

(** [_validate_bounded_nested] *)
Fixpoint bounded_nested (value : json) (container_depth : Z) : result py_exn unit :=
  match value with
  | JNull | JBool _ => Ok tt
  | JInt z => check ((MIN_INT64 <=? z) && (z <=? MAX_UINT64))
  | JFloat _ => Err ValueError
  | JStr s => check_str s ;;* check (bool_decide (length s <= max_string)%nat)
  | JArr l =>
      check (container_depth <=? MAX_JSON_NESTING_DEPTH) ;;*
      check (bool_decide (length l <= max_items)%nat) ;;*
      (let fix items l :=
         match l with
         | [] => Ok tt
         | v :: l => bounded_nested v (container_depth + 1) ;;* items l
         end in items l)
  | JObj m =>
      check (container_depth <=? MAX_JSON_NESTING_DEPTH) ;;*
      check (bool_decide (length m <= max_properties)%nat) ;;*
      (let fix members m :=
         match m with
         | [] => Ok tt
         | (k, v) :: m =>
             check_str k ;;*
             check (bool_decide (length k <= max_name)%nat) ;;*
             bounded_nested v (container_depth + 1) ;;* members m
         end in members m)
  end.
End BoundedNested.

(** ** [EventEnvelopeV1] *)

Record EventEnvelopeV1 := mkEnvelope {
  e_event_id : pystr; event_type : pystr; source_id : pystr; source_version : pystr;
  e_key_id : pystr; key_epoch : Z; host_id : pystr; boot_id : pystr; source_sequence : Z;
  event_time : pystr; ingest_time : pystr; clock_uncertainty_ms : Z;
  container_id : option pystr; container_start_time : option pystr;
  e_release_id : option pystr; inventory_generation : Z; inventory_revision : option Z;
  normalized_fields : document; normalized_fields_sha256 : pystr;
  redaction_flags : list pystr; coverage_flags : list pystr;
  source_payload_hash : pystr; source_signature : pystr }.

Definition ENVELOPE_SCHEMA : pystr := u "agmind.event-envelope.v1".

(** [flags_are_bounded] *)
Definition flags_ok (values : list pystr) : bool :=
  is_sorted_unique values && forallb short_ascii values.

(** The field validators of [EventEnvelopeV1]. *)
Definition envelope_fields_ok (e : EventEnvelopeV1) : bool :=
  EVENT_ID (e_event_id e)
  && short_ascii (event_type e) && short_ascii (source_version e)
  && utf8_ok 512 1 (source_id e)
  && HEX32 (e_key_id e)
  && UUID4 (host_id e) && UUID4 (boot_id e)
  && valid_timestamp (event_time e) && valid_timestamp (ingest_time e)
  && opt_ok valid_timestamp (container_start_time e)
  && opt_ok HEX64 (container_id e)
  && opt_ok (is_prefixed_hex "rel_" 32) (e_release_id e)
  && HEX64 (normalized_fields_sha256 e) && HEX64 (source_payload_hash e)
  && HEX128 (source_signature e)
  && flags_ok (redaction_flags e) && flags_ok (coverage_flags e).

(** [normalized_fields_are_bounded] *)
Definition normalized_fields_are_bounded (e : EventEnvelopeV1) : result py_exn unit :=
  let* canonical := canonical_json (JObj (normalized_fields e)) in
  check (bool_decide (length canonical <= N.to_nat 32768)%nat) ;;*
  bounded_nested (N.to_nat 8192) 128 128 512 (JObj (normalized_fields e)) 1 ;;*
  check (bool_decide (sha256_hex canonical = normalized_fields_sha256 e)) ;;*
  let* derived := event_id (host_id e) (boot_id e) (key_epoch e) (source_sequence e)
                    (normalized_fields_sha256 e) in
  check (bool_decide (derived = e_event_id e)).

(** All that validation requires of the values once their types are right. *)
Definition envelope_check (e : EventEnvelopeV1) : result py_exn unit :=
  check (envelope_fields_ok e) ;;* normalized_fields_are_bounded e.

Definition envelope_keys : list pystr :=
  map u ["schema_version"; "event_id"; "event_type"; "source_id"; "source_version"; "key_id";
         "key_epoch"; "host_id"; "boot_id"; "source_sequence"; "event_time"; "ingest_time";
         "clock_uncertainty_ms"; "container_id"; "container_start_time"; "release_id";
         "inventory_generation"; "inventory_revision"; "normalized_fields";
         "normalized_fields_sha256"; "redaction_flags"; "coverage_flags";
         "source_payload_hash"; "source_signature"]%string.

(** [EventEnvelopeV1.model_validate(doc, strict=True)] *)
Definition EventEnvelopeV1_validate (doc : document) : result py_exn EventEnvelopeV1 :=
  no_extra envelope_keys doc ;;*
  literal_field (u "schema_version") [ENVELOPE_SCHEMA] doc ;;*
  let* event_id := str_field (u "event_id") doc in
  let* event_type := str_field (u "event_type") doc in
  let* source_id := str_field (u "source_id") doc in
  let* source_version := str_field (u "source_version") doc in
  let* key_id := str_field (u "key_id") doc in
  let* key_epoch := int_field (u "key_epoch") 1 MAX_UINT64 doc in
  let* host_id := str_field (u "host_id") doc in
  let* boot_id := str_field (u "boot_id") doc in
  let* source_sequence := int_field (u "source_sequence") 1 MAX_UINT64 doc in
  let* event_time := str_field (u "event_time") doc in
  let* ingest_time := str_field (u "ingest_time") doc in
  let* clock_uncertainty_ms := int_field (u "clock_uncertainty_ms") 0 2000 doc in
  let* container_id := opt_str_field (u "container_id") doc in
  let* container_start_time := opt_str_field (u "container_start_time") doc in
  let* release_id := opt_str_field (u "release_id") doc in
  let* inventory_generation := int_field (u "inventory_generation") 0 MAX_UINT64 doc in
  let* inventory_revision := opt_int_field (u "inventory_revision") 0 MAX_UINT64 doc in
  let* normalized_fields := dict_field (u "normalized_fields") doc in
  let* normalized_fields_sha256 := str_field (u "normalized_fields_sha256") doc in
  let* redaction_flags := str_list_field (u "redaction_flags") 0 64 doc in
  let* coverage_flags := str_list_field (u "coverage_flags") 0 64 doc in
  let* source_payload_hash := str_field (u "source_payload_hash") doc in
  let* source_signature := str_field (u "source_signature") doc in
  let e := mkEnvelope event_id event_type source_id source_version key_id key_epoch host_id
    boot_id source_sequence event_time ingest_time clock_uncertainty_ms container_id
    container_start_time release_id inventory_generation inventory_revision normalized_fields
    normalized_fields_sha256 redaction_flags coverage_flags source_payload_hash
    source_signature in
  envelope_check e ;;* Ok e.

Definition envelope_fields (e : EventEnvelopeV1) : list (pystr * option json) :=
  [(u "schema_version", Some (JStr ENVELOPE_SCHEMA));
   (u "event_id", Some (JStr (e_event_id e)));
   (u "event_type", Some (JStr (event_type e)));
   (u "source_id", Some (JStr (source_id e)));
   (u "source_version", Some (JStr (source_version e)));
   (u "key_id", Some (JStr (e_key_id e)));
   (u "key_epoch", Some (JInt (key_epoch e)));
   (u "host_id", Some (JStr (host_id e)));
   (u "boot_id", Some (JStr (boot_id e)));
   (u "source_sequence", Some (JInt (source_sequence e)));
   (u "event_time", Some (JStr (event_time e)));
   (u "ingest_time", Some (JStr (ingest_time e)));
   (u "clock_uncertainty_ms", Some (JInt (clock_uncertainty_ms e)));
   (u "container_id", JStr <$> container_id e);
   (u "container_start_time", JStr <$> container_start_time e);
   (u "release_id", JStr <$> e_release_id e);
   (u "inventory_generation", Some (JInt (inventory_generation e)));
   (u "inventory_revision", JInt <$> inventory_revision e);
   (u "normalized_fields", Some (JObj (normalized_fields e)));
   (u "normalized_fields_sha256", Some (JStr (normalized_fields_sha256 e)));
   (u "redaction_flags", Some (JArr (map JStr (redaction_flags e))));
   (u "coverage_flags", Some (JArr (map JStr (coverage_flags e))));
   (u "source_payload_hash", Some (JStr (source_payload_hash e)));
   (u "source_signature", Some (JStr (source_signature e)))].

(** [envelope.model_dump(exclude_none=True)] *)
Definition envelope_dump (e : EventEnvelopeV1) : document := dump_of (envelope_fields e).

(** ** [CoverageEventV1] *)

Record CoverageEventV1 := mkCoverage {
  component : pystr; kind : pystr; severity : pystr; opened_at : pystr;
  closed_at : option pystr; affected_source_sequence_start : option Z;
  affected_source_sequence_end : option Z; dropped_count : option Z;
  reason_code : pystr; reconcile_generation : option Z }.

Definition SEVERITIES : list pystr := map u ["INFO"; "WARNING"; "CRITICAL"]%string.

(** The field validators and [intervals_are_ordered]. *)
Definition coverage_check (c : CoverageEventV1) : bool :=
  short_ascii (component c) && short_ascii (kind c) && short_ascii (reason_code c)
  && bool_decide (severity c ∈ SEVERITIES)
  && valid_timestamp (opened_at c) && opt_ok valid_timestamp (closed_at c)
  && match closed_at c with
     | Some closed => datetime_us (opened_at c) <=? datetime_us closed
     | None => true
     end
  && match affected_source_sequence_start c, affected_source_sequence_end c with
     | Some s, Some e => s <=? e
     | _, _ => true
     end.

Definition coverage_keys : list pystr :=
  map u ["component"; "kind"; "severity"; "opened_at"; "closed_at";
         "affected_source_sequence_start"; "affected_source_sequence_end"; "dropped_count";
         "reason_code"; "reconcile_generation"]%string.

(** [CoverageEventV1.model_validate(doc, strict=True)] *)
Definition CoverageEventV1_validate (doc : document) : result py_exn CoverageEventV1 :=
  no_extra coverage_keys doc ;;*
  let* component := str_field (u "component") doc in
  let* kind := str_field (u "kind") doc in
  let* severity := str_field (u "severity") doc in
  let* opened_at := str_field (u "opened_at") doc in
  let* closed_at := opt_str_field (u "closed_at") doc in
  let* start := opt_int_field (u "affected_source_sequence_start") 0 MAX_UINT64 doc in
  let* stop := opt_int_field (u "affected_source_sequence_end") 0 MAX_UINT64 doc in
  let* dropped_count := opt_int_field (u "dropped_count") 0 MAX_UINT64 doc in
  let* reason_code := str_field (u "reason_code") doc in
  let* generation := opt_int_field (u "reconcile_generation") 0 MAX_UINT64 doc in
  let c := mkCoverage component kind severity opened_at closed_at start stop dropped_count
    reason_code generation in
  check (coverage_check c) ;;* Ok c.

Definition coverage_fields (c : CoverageEventV1) : list (pystr * option json) :=
  [(u "component", Some (JStr (component c))); (u "kind", Some (JStr (kind c)));
   (u "severity", Some (JStr (severity c))); (u "opened_at", Some (JStr (opened_at c)));
   (u "closed_at", JStr <$> closed_at c);
   (u "affected_source_sequence_start", JInt <$> affected_source_sequence_start c);
   (u "affected_source_sequence_end", JInt <$> affected_source_sequence_end c);
   (u "dropped_count", JInt <$> dropped_count c);
   (u "reason_code", Some (JStr (reason_code c)));
   (u "reconcile_generation", JInt <$> reconcile_generation c)].

(** [coverage.model_dump(exclude_none=True)] *)
Definition coverage_dump (c : CoverageEventV1) : document := dump_of (coverage_fields c).

(** ** [ObserverBootBoundaryV1] *)

Record ObserverBootBoundaryV1 := mkBoundary {
  b_reason_code : pystr; previous_boot_id : option pystr; previous_source_sequence : Z }.

Definition boundary_check (b : ObserverBootBoundaryV1) : bool :=
  opt_ok UUID4 (previous_boot_id b)
  && (if bool_decide (b_reason_code b = u "observer_genesis")
      then bool_decide (previous_boot_id b = None) && (previous_source_sequence b =? 0)
      else negb (bool_decide (previous_boot_id b = None))
           && negb (previous_source_sequence b =? 0)).

Definition boundary_keys : list pystr :=
  map u ["schema_version"; "kind"; "reason_code"; "previous_boot_id";
         "previous_source_sequence"]%string.

Definition ObserverBootBoundaryV1_validate (doc : document)
  : result py_exn ObserverBootBoundaryV1 :=
  no_extra boundary_keys doc ;;*
  literal_field (u "schema_version") [u "agmind.observer-boot-boundary.v1"] doc ;;*
  literal_field (u "kind") [u "observer_boot_boundary"] doc ;;*
  let* reason := literal_field (u "reason_code")
                   [u "observer_genesis"; u "kernel_boot_id_changed"] doc in
  let* previous := opt_str_field (u "previous_boot_id") doc in
  let* sequence := int_field (u "previous_source_sequence") 0 MAX_UINT64 doc in
  let b := mkBoundary reason previous sequence in
  check (boundary_check b) ;;* Ok b.

(** ** [KeyTransitionV1] *)

Record KeyTransitionV1 := mkTransition {
  old_key_id : pystr; new_key_id : pystr; old_epoch : Z; new_epoch : Z;
  new_public_key : pystr; t_host_id : pystr; occurred_at : pystr;
  old_signature : pystr; new_signature : pystr }.

Definition transition_fields_ok (t : KeyTransitionV1) : bool :=
  HEX32 (old_key_id t) && HEX32 (new_key_id t) && HEX64 (new_public_key t)
  && UUID4 (t_host_id t) && valid_timestamp (occurred_at t)
  && HEX128 (old_signature t) && HEX128 (new_signature t).

(** [epochs_and_new_key_match] *)
Definition epochs_and_new_key_match (t : KeyTransitionV1) : result py_exn unit :=
  check (new_epoch t =? old_epoch t + 1) ;;*
  let* public_key := fromhex (new_public_key t) in
  let* derived := key_id public_key in
  check (bool_decide (new_key_id t = derived)) ;;*
  check (negb (bool_decide (old_key_id t = new_key_id t))).

Definition transition_keys : list pystr :=
  map u ["schema_version"; "old_key_id"; "new_key_id"; "old_epoch"; "new_epoch";
         "new_public_key"; "host_id"; "occurred_at"; "old_signature"; "new_signature"]%string.

Definition KeyTransitionV1_validate (doc : document) : result py_exn KeyTransitionV1 :=
  no_extra transition_keys doc ;;*
  literal_field (u "schema_version") [u "agmind.key-transition.v1"] doc ;;*
  let* old_key := str_field (u "old_key_id") doc in
  let* new_key := str_field (u "new_key_id") doc in
  let* old_epoch := int_field (u "old_epoch") 1 MAX_UINT64 doc in
  let* new_epoch := int_field (u "new_epoch") 2 MAX_UINT64 doc in
  let* new_public := str_field (u "new_public_key") doc in
  let* host := str_field (u "host_id") doc in
  let* occurred := str_field (u "occurred_at") doc in
  let* old_sig := str_field (u "old_signature") doc in
  let* new_sig := str_field (u "new_signature") doc in
  let t := mkTransition old_key new_key old_epoch new_epoch new_public host occurred old_sig
    new_sig in
  check (transition_fields_ok t) ;;*
  epochs_and_new_key_match t ;;* Ok t.

(** ** Documents are mappings

    Two documents with the same lookups are the same Python dict; validators read
    documents only through lookups. *)

Definition doc_equiv (d1 d2 : document) : Prop := forall k, get k d1 = get k d2.

#[export] Instance doc_equiv_equivalence : Equivalence doc_equiv.
Proof.
  split; [by intros d k|by intros d1 d2 H k|intros d1 d2 d3 H1 H2 k].
  by rewrite (H1 k), (H2 k).
Qed.

#[export] Instance str_field_proper k : Proper (doc_equiv ==> eq) (str_field k).
Proof. intros d1 d2 H. unfold str_field. by rewrite (H k). Qed.

#[export] Instance opt_str_field_proper k : Proper (doc_equiv ==> eq) (opt_str_field k).
Proof. intros d1 d2 H. unfold opt_str_field. by rewrite (H k). Qed.

#[export] Instance int_field_proper k lo hi : Proper (doc_equiv ==> eq) (int_field k lo hi).
Proof. intros d1 d2 H. unfold int_field. by rewrite (H k). Qed.

#[export] Instance opt_int_field_proper k lo hi :
  Proper (doc_equiv ==> eq) (opt_int_field k lo hi).
Proof. intros d1 d2 H. unfold opt_int_field. by rewrite (H k). Qed.

#[export] Instance str_list_field_proper k lo hi :
  Proper (doc_equiv ==> eq) (str_list_field k lo hi).
Proof. intros d1 d2 H. unfold str_list_field. by rewrite (H k). Qed.

#[export] Instance dict_field_proper k : Proper (doc_equiv ==> eq) (dict_field k).
Proof. intros d1 d2 H. unfold dict_field. by rewrite (H k). Qed.

#[export] Instance literal_field_proper k l : Proper (doc_equiv ==> eq) (literal_field k l).
Proof. intros d1 d2 H. unfold literal_field. by rewrite H. Qed.

Lemma get_in k (d : document) : get k d <> None <-> k ∈ map fst d.
Proof.
  induction d as [|[k' v] d IH]; simpl; [by rewrite elem_of_nil|].
  rewrite elem_of_cons, <- IH. case_bool_decide as E; simpl in *.
  - split; [by left|done].
  - split; [by right|]. intros [->|?]; congruence.
Qed.

Lemma no_extra_keys allowed d :
  no_extra allowed d = check (forallb (fun k => bool_decide (k ∈ allowed)) (map fst d)).
Proof.
  unfold no_extra. do 2 f_equal. induction d as [|kv d IH]; simpl; [done|]. by rewrite IH.
Qed.

#[export] Instance no_extra_proper l : Proper (doc_equiv ==> eq) (no_extra l).
Proof.
  intros d1 d2 H. rewrite !no_extra_keys. f_equal. apply eq_bool_prop_intro.
  rewrite !Is_true_true, !forallb_forall.
  assert (Hk : forall k, k ∈ map fst d1 <-> k ∈ map fst d2)
    by (intros k; by rewrite <- !get_in, (H k)).
  split; intros Hall k Hin%list_elem_of_In; apply Hall, list_elem_of_In; by apply Hk.
Qed.

(** Rewrite every read of one document into reads of an equivalent one. *)
Ltac reads H :=
  match type of H with doc_equiv ?d1 ?d2 =>
    repeat match goal with
    | |- context [str_field ?k d1] => rewrite (str_field_proper k d1 d2 H)
    | |- context [opt_str_field ?k d1] => rewrite (opt_str_field_proper k d1 d2 H)
    | |- context [int_field ?k ?lo ?hi d1] => rewrite (int_field_proper k lo hi d1 d2 H)
    | |- context [opt_int_field ?k ?lo ?hi d1] => rewrite (opt_int_field_proper k lo hi d1 d2 H)
    | |- context [str_list_field ?k ?lo ?hi d1] => rewrite (str_list_field_proper k lo hi d1 d2 H)
    | |- context [dict_field ?k d1] => rewrite (dict_field_proper k d1 d2 H)
    | |- context [literal_field ?k ?l d1] => rewrite (literal_field_proper k l d1 d2 H)
    | |- context [no_extra ?l d1] => rewrite (no_extra_proper l d1 d2 H)
    end
  end.

#[export] Instance envelope_validate_proper : Proper (doc_equiv ==> eq) EventEnvelopeV1_validate.
Proof. intros d1 d2 H. unfold EventEnvelopeV1_validate. by reads H. Qed.

#[export] Instance coverage_validate_proper : Proper (doc_equiv ==> eq) CoverageEventV1_validate.
Proof. intros d1 d2 H. unfold CoverageEventV1_validate. by reads H. Qed.

Lemma get_perm (d1 d2 : document) : NoDup (map fst d1) -> d1 ≡ₚ d2 -> doc_equiv d1 d2.
Proof.
  intros Hnd Hp k. induction Hp as [|[k1 v1] d1 d2 Hp IH|[k1 v1] [k2 v2] d|d1 d2 d3 H1 IH1 H2 IH2].
  - done.
  - cbn [map] in Hnd. apply NoDup_cons in Hnd as [_ Hnd]. simpl. by rewrite IH.
  - cbn [map] in Hnd. apply NoDup_cons in Hnd as [Hin _]. simpl.
    repeat case_bool_decide; try done. subst. destruct Hin. simpl. constructor.
  - rewrite IH1 by done. apply IH2. by rewrite <- H1.
Qed.

Lemma get_map_canon k (d : document) :
  get k (map (fun kv => (kv.1, canon kv.2)) d) = canon <$> get k d.
Proof. induction d as [|[k' v] d IH]; simpl; [done|]. by case_bool_decide. Qed.

Lemma get_canon_obj (d : document) :
  NoDup (map fst d) -> forall k, get k (canon_obj d) = canon <$> get k d.
Proof.
  intros Hnd k. rewrite <- get_map_canon. unfold canon_obj. apply get_perm.
  - rewrite (py_sort_perm key_leb). by rewrite map_map.
  - apply py_sort_perm.
Qed.

(** ** Envelopes on the wire *)

(** What the types and bounds of the model guarantee. *)
Definition envelope_ranges (e : EventEnvelopeV1) : Prop :=
  1 <= key_epoch e <= MAX_UINT64 /\ 1 <= source_sequence e <= MAX_UINT64
  /\ 0 <= clock_uncertainty_ms e <= 2000 /\ 0 <= inventory_generation e <= MAX_UINT64
  /\ (forall r, inventory_revision e = Some r -> 0 <= r <= MAX_UINT64)
  /\ (length (redaction_flags e) <= 64)%nat /\ (length (coverage_flags e) <= 64)%nat.

Lemma int_field_range k lo hi d z : int_field k lo hi d = Ok z -> lo <= z <= hi.
Proof.
  unfold int_field, check. destruct (get k d) as [[]|]; try done. intros H. inv_ok.
  subst. breflect. lia.
Qed.

Lemma opt_int_field_range k lo hi d o z :
  opt_int_field k lo hi d = Ok o -> o = Some z -> lo <= z <= hi.
Proof.
  unfold opt_int_field, check. destruct (get k d) as [[]|]; try (by intros [= <-]); try done.
  intros H ->. inv_ok. subst. breflect. lia.
Qed.

Lemma map_res_length {E A B} (f : A -> result E B) l ys :
  map_res f l = Ok ys -> length ys = length l.
Proof. intros H%map_res_ok%Forall2_length. done. Qed.

Lemma str_list_field_length k lo hi d l :
  str_list_field k lo hi d = Ok l -> (lo <= length l <= hi)%nat.
Proof.
  unfold str_list_field, check. destruct (get k d) as [[]|]; try done. intros H. inv_ok.
  apply map_res_length in H. breflect. lia.
Qed.

Lemma envelope_validate_ranges d e :
  EventEnvelopeV1_validate d = Ok e -> envelope_ranges e /\ envelope_check e = Ok tt.
Proof.
  unfold EventEnvelopeV1_validate. intros H.
  repeat (apply rbind_ok in H as (? & ? & H)). injection H as <-.
  repeat match goal with
  | H : int_field _ _ _ _ = Ok _ |- _ => apply int_field_range in H
  | H : str_list_field _ _ _ _ = Ok _ |- _ => apply str_list_field_length in H
  end.
  split; [|by match goal with H : envelope_check _ = Ok ?x |- _ => destruct x end].
  unfold envelope_ranges. cbn -[MAX_UINT64]. split_and!; try lia.
  intros r Hr. eapply opt_int_field_range; eassumption.
Qed.

Lemma check_true b : b = true -> check b = Ok tt.
Proof. by intros ->. Qed.

Lemma range_check lo hi z : lo <= z <= hi -> (lo <=? z) && (z <=? hi) = true.
Proof. intros. apply andb_true_iff. split; apply Z.leb_le; lia. Qed.

Lemma as_str_map l : map_res as_str (map JStr l) = Ok l.
Proof. induction l as [|s l IH]; simpl; [done|]. by rewrite IH. Qed.

Lemma int_field_eq k lo hi d z :
  get k d = Some (JInt z) -> lo <= z <= hi -> int_field k lo hi d = Ok z.
Proof. intros H Hz. unfold int_field. by rewrite H, check_true by (by apply range_check). Qed.

Lemma opt_int_field_eq k lo hi d o :
  get k d = JInt <$> o -> (forall z, o = Some z -> lo <= z <= hi) ->
  opt_int_field k lo hi d = Ok o.
Proof.
  intros H Hz. unfold opt_int_field. rewrite H. destruct o as [z|]; [|done]. simpl.
  by rewrite check_true by (apply range_check; by apply Hz).
Qed.

Lemma str_field_eq k d s : get k d = Some (JStr s) -> str_field k d = Ok s.
Proof. intros H. unfold str_field. by rewrite H. Qed.

Lemma opt_str_field_eq k d o : get k d = JStr <$> o -> opt_str_field k d = Ok o.
Proof. intros H. unfold opt_str_field. rewrite H. by destruct o. Qed.

Lemma str_list_field_eq k lo hi d l :
  get k d = Some (JArr (map JStr l)) -> (lo <= length l <= hi)%nat ->
  str_list_field k lo hi d = Ok l.
Proof.
  intros H Hl. unfold str_list_field. rewrite H. rewrite length_map.
  rewrite !bool_decide_eq_true_2 by lia. cbn [andb check guard rbind]. apply as_str_map.
Qed.

Lemma literal_field_eq k d s : get k d = Some (JStr s) -> literal_field k [s] d = Ok s.
Proof.
  intros H. unfold literal_field. rewrite (str_field_eq _ _ _ H). cbn [rbind].
  rewrite check_true; [done|]. apply bool_decide_eq_true. by constructor.
Qed.

Lemma dict_field_eq k d m : get k d = Some (JObj m) -> dict_field k d = Ok m.
Proof. intros H. unfold dict_field. by rewrite H. Qed.

(** The field table of a model, by name. *)
Fixpoint assoc (k : pystr) (fields : list (pystr * option json)) : option json :=
  match fields with
  | [] => None
  | (k', v) :: fields => if bool_decide (k' = k) then v else assoc k fields
  end.

Lemma dump_of_keys fields k : k ∈ map fst (dump_of fields) -> k ∈ map fst fields.
Proof.
  induction fields as [|[k' [v|]] fields IH]; simpl; [done| |].
  - rewrite !elem_of_cons. tauto.
  - rewrite elem_of_cons. tauto.
Qed.

Lemma get_dump_of fields k :
  NoDup (map fst fields) -> get k (dump_of fields) = assoc k fields.
Proof.
  induction fields as [|[k' [v|]] fields IH]; simpl; intros Hnd; [done| |];
    apply NoDup_cons in Hnd as [Hin Hnd]; case_bool_decide as E; subst; auto.
  destruct (get k (dump_of fields)) eqn:G; [|done]. destruct Hin.
  apply dump_of_keys, get_in. congruence.
Qed.

Lemma dump_of_nodup fields : NoDup (map fst fields) -> NoDup (map fst (dump_of fields)).
Proof.
  induction fields as [|[k' [v|]] fields IH]; simpl; intros Hnd; [done| |];
    apply NoDup_cons in Hnd as [Hin Hnd]; [|by apply IH].
  constructor; [|by apply IH]. intros H%dump_of_keys. done.
Qed.

Lemma no_extra_dump keys fields : map fst fields = keys -> no_extra keys (dump_of fields) = Ok tt.
Proof.
  intros <-. rewrite no_extra_keys. apply check_true, forallb_forall.
  intros k Hin%list_elem_of_In%dump_of_keys. by apply bool_decide_eq_true.
Qed.

Lemma rbind_step {E A B} (r : result E A) (k : A -> result E B) a res :
  r = Ok a -> k a = res -> rbind r k = res.
Proof. by intros -> <-. Qed.

(** One read of a dumped model: [Hnd] says its field names are distinct. *)
Ltac read_dump Hnd :=
  let by_table := (rewrite (get_dump_of _ _ Hnd); reflexivity) in
  eapply rbind_step;
  [ match goal with
    | |- no_extra _ _ = _ => apply no_extra_dump; reflexivity
    | |- literal_field _ _ _ = _ => eapply literal_field_eq; by_table
    | |- str_field _ _ = _ => eapply str_field_eq; by_table
    | |- opt_str_field _ _ = _ => eapply opt_str_field_eq; by_table
    | |- int_field _ _ _ _ = _ => eapply int_field_eq; [by_table|lia]
    | |- opt_int_field _ _ _ _ = _ => eapply opt_int_field_eq; [by_table|eassumption]
    | |- str_list_field _ _ _ _ = _ => eapply str_list_field_eq; [by_table|lia]
    | |- dict_field _ _ = _ => eapply dict_field_eq; by_table
    end
  | cbv beta ].

Lemma envelope_keys_nodup : NoDup envelope_keys.
Proof. apply (bool_decide_eq_true (NoDup envelope_keys)). vm_compute. reflexivity. Qed.

Lemma envelope_fields_nodup e : NoDup (map fst (envelope_fields e)).
Proof. exact envelope_keys_nodup. Qed.

(** Validation of a dump reads every field back. *)
Lemma envelope_validate_dump e :
  envelope_ranges e ->
  EventEnvelopeV1_validate (envelope_dump e) = (envelope_check e ;;* Ok e).
Proof.
  intros (H1 & H2 & H3 & H4 & H5 & H6 & H7). pose proof (envelope_fields_nodup e) as Hnd.
  unfold EventEnvelopeV1_validate, envelope_dump. repeat read_dump Hnd. by destruct e.
Qed.

Section BoundedNestedCanon.
Context (ms mi mp mn : nat).

(** The same bounds as one boolean, independent of the order of members. *)
Fixpoint bounded_ok (v : json) (d : Z) : bool :=
  match v with
  | JNull | JBool _ => true
  | JInt z => (MIN_INT64 <=? z) && (z <=? MAX_UINT64)
  | JFloat _ => false
  | JStr s => is_ok (check_str s) && bool_decide (length s <= ms)%nat
  | JArr l =>
      (d <=? MAX_JSON_NESTING_DEPTH) && bool_decide (length l <= mi)%nat
      && forallb (fun v => bounded_ok v (d + 1)) l
  | JObj m =>
      (d <=? MAX_JSON_NESTING_DEPTH) && bool_decide (length m <= mp)%nat
      && forallb (fun kv => is_ok (check_str kv.1) && bool_decide (length kv.1 <= mn)%nat
                            && bounded_ok kv.2 (d + 1)) m
  end.

Lemma is_ok_tt {E} (r : result E unit) : r = Ok tt <-> is_ok r = true.
Proof. by destruct r as [[]|]. Qed.

Lemma seq_is_ok {E A} (r : result E unit) (k : result E A) : is_ok (r ;;* k) = is_ok r && is_ok k.
Proof. by destruct r as [[]|]. Qed.

Lemma check_is_ok b : is_ok (check b) = b.
Proof. by destruct b. Qed.

Lemma bounded_nested_ok v d : is_ok (bounded_nested ms mi mp mn v d) = bounded_ok v d.
Proof.
  revert d. induction v as [|x|z|f|s|l Hl|m Hm] using json_nested_ind; intros d;
    cbn [bounded_nested bounded_ok]; try done; rewrite ?seq_is_ok, ?check_is_ok; try done.
  - rewrite <- andb_assoc. do 2 f_equal.
    induction Hl as [|v l Hv _ IH]; [done|]. rewrite seq_is_ok, Hv. cbn [forallb]. by f_equal.
  - rewrite <- andb_assoc. do 2 f_equal.
    induction Hm as [|[k v] m Hv _ IH]; [done|]. cbn [fst snd] in Hv.
    rewrite !seq_is_ok, check_is_ok, Hv. cbn [forallb fst snd].
    rewrite <- !andb_assoc. do 3 f_equal. exact IH.
Qed.

Lemma forallb_perm {A} (f : A -> bool) l1 l2 : l1 ≡ₚ l2 -> forallb f l1 = forallb f l2.
Proof.
  induction 1 as [|x l1 l2 _ IH|x y l|l1 l2 l3 _ IH1 _ IH2]; simpl; try congruence.
  by rewrite !andb_assoc, (andb_comm (f y)).
Qed.

Lemma forallb_map_eq {A B} (f : B -> bool) (g : A -> B) l :
  forallb f (map g l) = forallb (fun x => f (g x)) l.
Proof. induction l as [|x l IH]; simpl; [done|]. by rewrite IH. Qed.

Lemma bounded_ok_canon v d : bounded_ok (canon v) d = bounded_ok v d.
Proof.
  revert d. induction v as [|x|z|f|s|l Hl|m Hm] using json_nested_ind; intros d;
    cbn [canon bounded_ok]; try done.
  - rewrite length_map, forallb_map_eq. f_equal. apply forallb_ext_Forall.
    eapply Forall_impl; [exact Hl|]. auto.
  - rewrite (Permutation_length (py_sort_perm key_leb _)), length_map. f_equal.
    rewrite (forallb_perm _ _ _ (py_sort_perm key_leb _)), forallb_map_eq.
    apply forallb_ext_Forall. eapply Forall_impl; [exact Hm|]. intros kv Hkv. cbn [fst snd].
    by rewrite Hkv.
Qed.

Lemma bounded_nested_canon v d :
  bounded_nested ms mi mp mn v d = Ok tt -> bounded_nested ms mi mp mn (canon v) d = Ok tt.
Proof. rewrite !is_ok_tt, !bounded_nested_ok. by rewrite bounded_ok_canon. Qed.
End BoundedNestedCanon.

Lemma canonical_json_canon v : canonical_json (canon v) = canonical_json v.
Proof. unfold canonical_json. by rewrite encode_canon. Qed.

(** The same envelope with the keys of its normalized fields in canonical order. *)
Definition canonical_envelope (e : EventEnvelopeV1) : EventEnvelopeV1 :=
  mkEnvelope (e_event_id e) (event_type e) (source_id e) (source_version e) (e_key_id e)
    (key_epoch e) (host_id e) (boot_id e) (source_sequence e) (event_time e) (ingest_time e)
    (clock_uncertainty_ms e) (container_id e) (container_start_time e) (e_release_id e)
    (inventory_generation e) (inventory_revision e) (canon_obj (normalized_fields e))
    (normalized_fields_sha256 e) (redaction_flags e) (coverage_flags e)
    (source_payload_hash e) (source_signature e).

Lemma envelope_check_canonical e :
  envelope_check e = Ok tt -> envelope_check (canonical_envelope e) = Ok tt.
Proof.
  unfold envelope_check, normalized_fields_are_bounded. intros H.
  change (envelope_fields_ok (canonical_envelope e)) with (envelope_fields_ok e).
  change (JObj (normalized_fields (canonical_envelope e)))
    with (canon (JObj (normalized_fields e))).
  cbn [canonical_envelope host_id boot_id key_epoch source_sequence normalized_fields_sha256
       e_event_id]. rewrite canonical_json_canon.
  apply rbind_ok in H as (? & H1 & H). rewrite H1. cbn [rbind].
  apply rbind_ok in H as (c & H2 & H). rewrite H2. cbn [rbind].
  apply rbind_ok in H as (? & H3 & H). rewrite H3. cbn [rbind].
  apply rbind_ok in H as ([] & H4 & H). rewrite (bounded_nested_canon _ _ _ _ _ _ H4). done.
Qed.

Lemma canon_str_list l : canon (JArr (map JStr l)) = JArr (map JStr l).
Proof. cbn [canon]. rewrite map_map. done. Qed.

(** Sorting the keys of a dump, at every level, is the dump of the canonical
    envelope, as a mapping. *)
Lemma envelope_dump_canon e :
  doc_equiv (canon_obj (envelope_dump e)) (envelope_dump (canonical_envelope e)).
Proof.
  intros k. pose proof (envelope_fields_nodup e) as Hnd. unfold envelope_dump.
  rewrite get_canon_obj by (by apply dump_of_nodup).
  rewrite !get_dump_of by (apply envelope_fields_nodup || done). clear Hnd.
  unfold envelope_fields. cbn [assoc canonical_envelope e_event_id event_type source_id
    source_version e_key_id key_epoch host_id boot_id source_sequence event_time ingest_time
    clock_uncertainty_ms container_id container_start_time e_release_id inventory_generation
    inventory_revision normalized_fields normalized_fields_sha256 redaction_flags
    coverage_flags source_payload_hash source_signature].
  repeat match goal with
  | |- canon <$> (if bool_decide ?P then _ else _) = _ =>
      destruct (bool_decide P); [|]
  end; try reflexivity; try (match goal with |- canon <$> (_ <$> ?o) = _ => by destruct o end);
  exact (f_equal Some (canon_str_list _)).
Qed.

Definition envelope_required : list pystr :=
  map u ["schema_version"; "event_id"; "event_type"; "source_id"; "source_version"; "key_id";
         "key_epoch"; "host_id"; "boot_id"; "source_sequence"; "event_time"; "ingest_time";
         "clock_uncertainty_ms"; "inventory_generation"; "normalized_fields";
         "normalized_fields_sha256"; "redaction_flags"; "coverage_flags";
         "source_payload_hash"; "source_signature"]%string.

(** [decode_strict(raw, EventEnvelopeV1, max_bytes)] *)
Definition decode_envelope (raw : bytes) (max_bytes : Z) : result py_exn EventEnvelopeV1 :=
  decode_strict envelope_required EventEnvelopeV1_validate raw max_bytes.

(** Every name in [required] has a value, which is not null. *)
Lemma required_present required fields :
  NoDup (map fst fields) ->
  forallb (fun k => bool_decide (assoc k fields <> None)) required = true ->
  forallb (fun f => bool_decide (f ∈ map fst (canon_obj (dump_of fields)))) required = true.
Proof.
  intros Hnd H. rewrite forallb_forall in *. intros k Hk. specialize (H k Hk).
  apply bool_decide_eq_true in H. apply bool_decide_eq_true, get_in.
  rewrite get_canon_obj by (by apply dump_of_nodup). rewrite get_dump_of by done.
  by destruct (assoc k fields).
Qed.

Definition not_null_field (kv : pystr * option json) : bool :=
  match kv.2 with Some JNull => false | _ => true end.

Lemma no_nulls fields :
  forallb not_null_field fields = true ->
  existsb (fun kv => is_null kv.2) (canon_obj (dump_of fields)) = false.
Proof.
  intros H. apply not_true_iff_false. intros (kv & Hin & Hn)%existsb_exists.
  apply list_elem_of_In in Hin. unfold canon_obj in Hin. rewrite (py_sort_perm key_leb) in Hin.
  apply list_elem_of_fmap in Hin as ([k v] & -> & Hin). cbn [fst snd] in Hn.
  assert (Hv : v = JNull) by (by destruct v). subst v.
  induction fields as [|[k' [v'|]] fields IH]; simpl in *; [by apply elem_of_nil in Hin| |].
  - apply andb_true_iff in H as [H1 H2]. apply elem_of_cons in Hin as [[= -> <-]|Hin]; [done|].
    by apply IH.
  - by apply IH.
Qed.

Lemma envelope_not_null e : forallb not_null_field (envelope_fields e) = true.
Proof.
  unfold envelope_fields. cbn [forallb not_null_field snd].
  by destruct (container_id e), (container_start_time e), (e_release_id e),
    (inventory_revision e).
Qed.

Lemma forallb_const_true {A} (l : list A) : forallb (fun _ => true) l = true.
Proof. by induction l. Qed.

Lemma dump_unique_keys e :
  unique_keys (JObj (normalized_fields e)) = true ->
  unique_keys (JObj (envelope_dump e)) = true.
Proof.
  intros Hu. cbn [unique_keys]. apply andb_true_iff. split.
  - apply bool_decide_eq_true, dump_of_nodup, envelope_fields_nodup.
  - unfold envelope_dump, envelope_fields.
    destruct (container_id e), (container_start_time e), (e_release_id e),
      (inventory_revision e); cbn [fmap option_fmap option_map dump_of forallb snd];
    rewrite Hu; cbn [unique_keys andb];
    rewrite !forallb_map_eq; cbn [unique_keys];
    by rewrite !forallb_const_true.
Qed.

(** Values that canonical ordering leaves alone. *)
Definition flat_field (kv : pystr * option json) : Prop :=
  match kv.2 with Some v => canon v = v /\ unique_keys v = true | None => True end.

Lemma flat_strings l : canon (JArr (map JStr l)) = JArr (map JStr l)
  /\ unique_keys (JArr (map JStr l)) = true.
Proof.
  split; [apply canon_str_list|]. cbn [unique_keys]. rewrite forallb_map_eq. cbn [unique_keys].
  apply forallb_const_true.
Qed.

(** A model whose fields are flat survives the wire: its canonical bytes decode to
    whatever validation makes of its dump. *)
Lemma flat_model_roundtrip {T} (validate : document -> result py_exn T) required fields x raw max :
  Proper (doc_equiv ==> eq) validate -> NoDup (map fst fields) -> Forall flat_field fields ->
  forallb not_null_field fields = true ->
  forallb (fun k => bool_decide (assoc k fields <> None)) required = true ->
  validate (dump_of fields) = Ok x -> canonical_json (JObj (dump_of fields)) = Ok raw ->
  Z.of_nat (length raw) <= max -> decode_strict required validate raw max = Ok x.
Proof.
  intros Hproper Hnd Hflat Hnn Hreq Hv Hraw Hmax. unfold decode_strict.
  assert (Hf : Forall (fun kv => canon kv.2 = kv.2 /\ unique_keys kv.2 = true) (dump_of fields)).
  { clear -Hflat. induction Hflat as [|[k [v|]] fields Hk _ IH]; cbn [dump_of]; [done| |done].
    by constructor. }
  rewrite (canonical_json_roundtrip_aux (dump_of fields) raw max); [|  |done|done].
  2:{ cbn [unique_keys]. apply andb_true_iff. split; [by apply bool_decide_eq_true, dump_of_nodup|].
      apply forallb_forall. intros kv Hin. rewrite List.Forall_forall in Hf. by apply Hf. }
  cbn [rbind]. rewrite required_present by done. rewrite no_nulls by done. cbn [guard negb rbind].
  rewrite <- Hv. apply Hproper. intros k. rewrite get_canon_obj by (by apply dump_of_nodup).
  clear -Hf. induction Hf as [|[k' v] d [Hc _] _ IH]; cbn [get]; [done|].
  case_bool_decide; [by cbn in *; rewrite Hc|done].
Qed.

(** A validated event envelope survives the wire: its canonical bytes, if
    they fit the byte limit, decode to the same envelope with the keys of its
    normalized fields in canonical order; no field is lost, coerced or reordered
    in between. *)
Theorem envelope_wire_roundtrip doc e raw max_bytes :
  EventEnvelopeV1_validate doc = Ok e ->
  unique_keys (JObj (normalized_fields e)) = true ->
  canonical_json (JObj (envelope_dump e)) = Ok raw ->
  Z.of_nat (length raw) <= max_bytes ->
  decode_envelope raw max_bytes = Ok (canonical_envelope e).
Proof.
  intros (Hr & Hc)%envelope_validate_ranges Hu Hraw Hmax.
  unfold decode_envelope, decode_strict.
  rewrite (canonical_json_roundtrip_aux _ _ _ (dump_unique_keys _ Hu) Hraw Hmax).
  cbn [rbind]. unfold envelope_dump.
  rewrite required_present; [|apply envelope_fields_nodup|].
  2:{ apply forallb_forall. intros k Hk. apply bool_decide_eq_true.
      assert (Hall : Forall (fun k => assoc k (envelope_fields e) <> None) envelope_required)
        by (unfold envelope_required; cbn [map]; repeat constructor; cbv; done).
      rewrite Forall_forall in Hall. by apply Hall, list_elem_of_In. }
  rewrite no_nulls by apply envelope_not_null. cbn [guard negb rbind].
  fold (envelope_dump e). rewrite (envelope_dump_canon e).
  rewrite envelope_validate_dump by done. by rewrite envelope_check_canonical.
Qed.

(** Round trip of a coverage event through its document. *)
Definition coverage_ranges (c : CoverageEventV1) : Prop :=
  (forall z, affected_source_sequence_start c = Some z -> 0 <= z <= MAX_UINT64)
  /\ (forall z, affected_source_sequence_end c = Some z -> 0 <= z <= MAX_UINT64)
  /\ (forall z, dropped_count c = Some z -> 0 <= z <= MAX_UINT64)
  /\ (forall z, reconcile_generation c = Some z -> 0 <= z <= MAX_UINT64).

Lemma coverage_validate_sound d c :
  CoverageEventV1_validate d = Ok c -> coverage_ranges c /\ coverage_check c = true.
Proof.
  unfold CoverageEventV1_validate. intros H.
  repeat (apply rbind_ok in H as (? & ? & H)). injection H as <-.
  split; [|by match goal with H : check _ = Ok _ |- _ => apply guard_ok in H end].
  unfold coverage_ranges. cbn -[MAX_UINT64]. split_and!; intros z Hz;
    match goal with Hf : opt_int_field _ _ _ _ = Ok ?x, Hx : ?x = Some _ |- _ =>
      exact (opt_int_field_range _ _ _ _ _ _ Hf Hx) end.
Qed.

Lemma coverage_keys_nodup : NoDup coverage_keys.
Proof. apply (bool_decide_eq_true (NoDup coverage_keys)). vm_compute. reflexivity. Qed.

Lemma coverage_validate_dump c :
  coverage_ranges c -> coverage_check c = true ->
  CoverageEventV1_validate (coverage_dump c) = Ok c.
Proof.
  intros (H1 & H2 & H3 & H4) Hc. assert (Hnd : NoDup (map fst (coverage_fields c)))
    by exact coverage_keys_nodup.
  unfold CoverageEventV1_validate, coverage_dump. repeat read_dump Hnd.
  destruct c. by rewrite check_true.
Qed.

(** ** Sample envelopes *)

(** An envelope with its digests and identifier derived from its content. *)
Definition build_envelope (type : pystr) (sequence : Z) (time : pystr) (generation : Z)
    (fields : document) (flags : list pystr) : EventEnvelopeV1 :=
  let digest := match canonical_json (JObj fields) with Ok c => sha256_hex c | Err _ => [] end in
  let identifier :=
    match event_id sample_host sample_boot 1 sequence digest with Ok i => i | Err _ => [] end in
  mkEnvelope identifier type (u "agmind-observerd") (u "1.0") (take 32 (sha256_hex key_a)) 1
    sample_host sample_boot sequence time time 5 None None None generation None fields digest
    [] flags digest (hex_encode (repeat (byte_of 0) 64)).

Definition sample_envelope : EventEnvelopeV1 :=
  build_envelope (u "observer_start") 2 (u "2026-01-01T00:00:00.5Z") 0
    [(u "reconcile_required", JBool true); (u "kind", JStr (u "observer_start"))]
    [u "reconcile_required"].

Lemma envelope_wire_roundtrip_witness : exists raw,
  canonical_json (JObj (envelope_dump sample_envelope)) = Ok raw
  /\ decode_envelope raw 65536 = Ok (canonical_envelope sample_envelope).
Proof.
  eexists. split; [vm_compute; reflexivity|].
  apply (envelope_wire_roundtrip (envelope_dump sample_envelope));
    [vm_compute; reflexivity|vm_compute; reflexivity|vm_compute; reflexivity|].
  apply Z.leb_le. vm_compute. reflexivity.
Defined.
