(* ===== verification/JsonSize.v ===== *)
(** * The size of canonical JSON

    An upper bound on the number of bytes [canonical_json] writes, computed from the
    value alone: a character grows at most sixfold by quoting, an integer has at most
    21 characters.  With it a model whose fields are bounded is shown to fit the byte
    limit of its consumer. *)

From S2P Require Import Prelude CanonicalJson JsonDecode Time Ipv4 Identities Contracts.
Local Open Scope Z_scope.
Local Open Scope agmind_scope.

(** ** Bytes of a text *)

Definition char_len (c : Z) : Z :=
  if c <? 0x80 then 1 else if c <? 0x800 then 2 else if c <? 0x10000 then 3 else 4.

Fixpoint ulen (s : pystr) : Z := match s with [] => 0 | c :: s => char_len c + ulen s end.

Lemma char_len_pos c : 1 <= char_len c <= 4.
Proof. unfold char_len. repeat case_match; lia. Qed.

Lemma ulen_app s t : ulen (s ++ t) = ulen s + ulen t.
Proof. induction s as [|c s IH]; cbn [app ulen]; lia. Qed.

Lemma ulen_nonneg s : 0 <= ulen s.
Proof. induction s as [|c s IH]; cbn [ulen]; [done|]. pose proof (char_len_pos c). lia. Qed.

Lemma utf8_length s l : utf8_encode s = Some l -> Z.of_nat (length l) = ulen s.
Proof.
  revert l. induction s as [|c s IH]; intros l; [by intros [= <-]|]. cbn [utf8_encode].
  destruct (utf8_char c) as [h|] eqn:Ec; [|done]. destruct (utf8_encode s) as [t|]; [|done].
  intros [= <-]. rewrite length_app, Nat2Z.inj_add, (IH t eq_refl). cbn [ulen].
  enough (Z.of_nat (length h) = char_len c) by lia.
  unfold utf8_char, char_len in *. repeat case_match; simplify_eq; done.
Qed.

Lemma ulen_ascii s : Forall (fun c => 0 <= c < 128) s -> ulen s = Z.of_nat (length s).
Proof.
  induction 1 as [|c s Hc _ IH]; [done|]. cbn [ulen length].
  unfold char_len. rewrite (proj2 (Z.ltb_lt c 128)) by lia. lia.
Qed.

Lemma quote_char_len c : ulen (quote_char c) <= 6 * char_len c.
Proof.
  pose proof (char_len_pos c). unfold quote_char. repeat case_match;
    first [cbn [ulen]; lia | rewrite ulen_ascii by (repeat constructor; lia); cbn [length]; lia | idtac].
  rewrite ulen_app. change (ulen [92; 117]) with 2. enough (ulen (hex4 c) = 4) by lia. unfold hex4.
  assert (Hh : forall n, 0 <= n < 16 -> char_len (hex_char n) = 1)
    by (intros n Hn; exact (decide_below (fun n => char_len (hex_char n) = 1) 16 n Hn eq_refl)).
  cbn [ulen]. rewrite !Hh by (apply Z.mod_pos_bound; lia). done.
Qed.

Lemma quote_len s : ulen (flat_map quote_char s) <= 6 * ulen s.
Proof.
  induction s as [|c s IH]; [done|]. cbn [flat_map]. rewrite ulen_app. pose proof (quote_char_len c).
  cbn [ulen]. lia.
Qed.

(** ** The bound of a value *)

Fixpoint weight (v : json) : Z :=
  match v with
  | JNull => 4
  | JBool _ => 5
  | JInt _ => 21
  | JFloat _ => 0
  | JStr s => 2 + 6 * ulen s
  | JArr l => 2 + foldr (fun v n => 1 + weight v + n) 0 l
  | JObj m => 2 + foldr (fun kv n => 4 + 6 * ulen kv.1 + weight kv.2 + n) 0 m
  end.

Lemma dec_nonneg_length w n :
  (0 < w)%nat -> 0 <= n < 10 ^ Z.of_nat w -> (length (dec_nonneg n) <= w)%nat.
Proof.
  intros Hw Hn. destruct (pad_spec w n Hw Hn) as (_ & Hl & _). unfold pad in Hl.
  rewrite length_app in Hl. lia.
Qed.

Lemma str_of_int_len z :
  MIN_CANONICAL_INTEGER <= z <= MAX_CANONICAL_INTEGER -> ulen (str_of_int z) <= 21.
Proof.
  intros Hz. assert (Hd : forall n, 0 <= n < 10 ^ Z.of_nat 20 -> ulen (dec_nonneg n) <= 20).
  { intros n Hn. rewrite ulen_ascii.
    - pose proof (dec_nonneg_length 20 n ltac:(lia) Hn). lia.
    - destruct (dec_nonneg_spec n ltac:(lia)) as (_ & Hd & _). eapply Forall_impl; [exact Hd|].
      intros c Hc%is_digit_range. simpl. lia. }
  unfold MIN_CANONICAL_INTEGER, MAX_CANONICAL_INTEGER, MIN_INT64, MAX_UINT64 in Hz.
  change (10 ^ Z.of_nat 20) with 100000000000000000000 in Hd.
  unfold str_of_int. destruct (Z.ltb_spec z 0).
  - cbn [ulen]. change (char_len 45) with 1. specialize (Hd (- z)). lia.
  - specialize (Hd z). lia.
Qed.

Lemma join_comma_len items : ulen (join_comma items) <= foldr (fun x n => 1 + ulen x + n) 0 items.
Proof.
  induction items as [|x items IH]; [done|]. cbn [join_comma foldr]. destruct items as [|y items].
  - simpl. lia.
  - rewrite !ulen_app. change (ulen [44]) with 1. lia.
Qed.

Lemma foldr_sum_perm {A} (f : A -> Z) l1 l2 :
  l1 ≡ₚ l2 -> foldr (fun x n => f x + n) 0 l1 = foldr (fun x n => f x + n) 0 l2.
Proof. induction 1; simpl; lia. Qed.


(** The text of an encoded value is within its bound. *)
Lemma encode_weight v d t : encode v d = Ok t -> ulen t <= weight v.
Proof.
  revert d t. induction v as [|x|z|f|s|l Hl|m Hm] using json_nested_ind; intros d t; cbn [encode weight].
  - intros [= <-]. done.
  - destruct x; intros [= <-]; done.
  - intros H. inv_ok. breflect. subst t. apply str_of_int_len. lia.
  - done.
  - intros [_ ->]%quote_ok. rewrite !ulen_app. change (ulen [34]) with 1. pose proof (quote_len s). lia.
  - intros (? & _ & (x0 & Hr & [= <-])%rbind_ok)%rbind_ok. apply map_res_ok in Hr.
    cbn [ulen]. rewrite ulen_app. change (char_len 91) with 1. change (ulen [93]) with 1.
    enough (foldr (fun x n => 1 + ulen x + n) 0 x0 <= foldr (fun v n => 1 + weight v + n) 0 l)
      by (pose proof (join_comma_len x0); lia).
    clear -Hl Hr. induction Hr as [|v t l ts Ht _ IH]; [done|]. inversion Hl as [|? ? Hv Hl']; subst.
    cbn [foldr]. apply Hv in Ht. specialize (IH Hl'). lia.
  - intros (? & _ & (x0 & Hr & [= <-])%rbind_ok)%rbind_ok. apply encode_obj_items in Hr.
    cbn [ulen]. rewrite ulen_app. change (char_len 123) with 1. change (ulen [125]) with 1.
    pose proof (join_comma_len (map snd (py_sort key_leb x0))) as Hj.
    assert (E : foldr (fun x n => 1 + ulen x + n) 0 (map snd (py_sort key_leb x0))
                = foldr (fun x n => 1 + ulen x + n) 0 (map snd x0))
      by (apply (foldr_sum_perm (fun x => 1 + ulen x)); by rewrite py_sort_perm).
    rewrite E in Hj. enough (foldr (fun x n => 1 + ulen x + n) 0 (map snd x0)
      <= foldr (fun kv n => 4 + 6 * ulen kv.1 + weight kv.2 + n) 0 m) by lia.
    clear -Hm Hr. induction Hr as [|kv it m its (_ & q & e & Hq & He & Hi) _ IH]; [done|].
    inversion Hm as [|? ? Hv Hm']; subst. cbn [foldr map]. apply Hv in He. apply quote_ok in Hq as [_ ->].
    rewrite Hi, !ulen_app. change (ulen [34]) with 1. change (ulen [58]) with 1.
    pose proof (quote_len kv.1). specialize (IH Hm'). lia.
Qed.

Lemma canonical_json_weight v raw : canonical_json v = Ok raw -> Z.of_nat (length raw) <= weight v.
Proof.
  unfold canonical_json. intros (t & Ht & Hl%of_option_ok)%rbind_ok.
  rewrite (utf8_length t raw) by done. by eapply encode_weight.
Qed.

(** ** Models *)

(** The text encodes to at most [n] bytes. *)
Definition within (n : Z) (s : pystr) : Prop := is_Some (utf8_encode s) /\ ulen s <= n.

Definition field_weight (kv : pystr * option json) : Z :=
  match kv.2 with Some v => 4 + 6 * ulen kv.1 + weight v | None => 0 end.

Definition field_encodable (kv : pystr * option json) : bool :=
  match kv.2 with Some v => bool_decide (is_Some (utf8_encode kv.1)) && encodable v 1 | None => true end.

(** The field is encodable and at most [b]. *)
Definition field_within (kv : pystr * option json) (b : Z) : Prop :=
  field_encodable kv = true /\ field_weight kv <= b.

Lemma field_within_mono kv b b' : field_within kv b -> b <= b' -> field_within kv b'.
Proof. intros [He Hw] Hb. split; [done|lia]. Qed.

Lemma weight_dump fields : weight (JObj (dump_of fields)) = 2 + foldr (fun kv n => field_weight kv + n) 0 fields.
Proof.
  cbn [weight]. f_equal. induction fields as [|[k [v|]] fields IH]; [done| |];
    cbn [dump_of foldr field_weight fst snd]; rewrite IH; unfold field_weight; cbn [fst snd]; lia.
Qed.

Lemma encodable_dump fields : encodable (JObj (dump_of fields)) 0 = forallb field_encodable fields.
Proof.
  cbn [encodable]. change (0 <? MAX_JSON_NESTING_DEPTH) with true. cbn [andb].
  induction fields as [|[k [v|]] fields IH]; [done| |]; cbn [dump_of forallb]; unfold field_encodable at 1;
    cbn [fst snd andb]; by rewrite IH.
Qed.

Lemma encode_obj_nonempty m d t : encode (JObj m) d = Ok t -> 1 <= ulen t.
Proof.
  cbn [encode]. intros (? & _ & (x0 & _ & [= <-])%rbind_ok)%rbind_ok. cbn [ulen].
  change (char_len 123) with 1. pose proof (ulen_nonneg (join_comma (map snd (py_sort key_leb x0)) ++ [125])).
  lia.
Qed.

(** A model whose fields are encodable and within their bounds is written, in at most
    the sum of the bounds. *)
Lemma model_fits fields bounds limit :
  Forall2 field_within fields bounds ->
  2 + foldr Z.add 0 bounds <= limit ->
  exists raw, canonical_json (JObj (dump_of fields)) = Ok raw /\ 1 <= Z.of_nat (length raw) <= limit.
Proof.
  intros HF Hlimit. pose proof (canonical_json_accepts (JObj (dump_of fields))) as Ha.
  rewrite encodable_dump in Ha.
  assert (Hb : forallb field_encodable fields = true
               /\ foldr (fun kv n => field_weight kv + n) 0 fields <= foldr Z.add 0 bounds).
  { clear -HF. induction HF as [|kv b fields bounds [He Hw] _ [IH1 IH2]]; [done|].
    cbn [forallb foldr]. split; [by rewrite He|lia]. }
  destruct Hb as [He Hw]. rewrite He in Ha. destruct Ha as [raw Hr]. exists raw. split; [done|].
  pose proof (canonical_json_weight _ _ Hr) as Hle. rewrite weight_dump in Hle. split; [|lia].
  unfold canonical_json in Hr. apply rbind_ok in Hr as (t & Ht & Hl%of_option_ok).
  rewrite (utf8_length _ _ Hl). by eapply encode_obj_nonempty.
Qed.

(** ** Validated texts *)

Lemma within_utf8 m n s : utf8_ok m n s = true -> within (Z.of_nat m) s.
Proof.
  unfold utf8_ok, within. destruct (utf8_encode s) as [l|] eqn:E; [|done]. intros H. breflect.
  rewrite <- (utf8_length _ _ E). split; [done|lia].
Qed.

Lemma within_chars n s : Forall (fun c => 0 <= c < 128) s -> (length s <= n)%nat -> within (Z.of_nat n) s.
Proof.
  intros Hs Hl. split; [|rewrite ulen_ascii by done; lia].
  destruct (utf8_encode_some s (valid_str_ascii s Hs)) as [l ->]. done.
Qed.

Lemma forallb_Forall {A} (p : A -> bool) (P : A -> Prop) l :
  (forall x, p x = true -> P x) -> forallb p l = true -> Forall P l.
Proof. intros Hp. induction l as [|x l IH]; cbn [forallb]; intros H; [done|]. breflect. constructor; auto. Qed.

Lemma within_ascii m n s : ascii_ok m n s = true -> within (Z.of_nat m) s.
Proof.
  unfold ascii_ok, ascii_encode. destruct (forallb _ s) eqn:E; [|done]. intros H. breflect.
  rewrite length_map in *. apply within_chars; [|done].
  eapply forallb_Forall; [|exact E]. cbv beta. intros c Hc. breflect. lia.
Qed.

Lemma hex_chars s : forallb is_hex_lower s = true -> Forall (fun c => 0 <= c < 128) s.
Proof.
  apply forallb_Forall. unfold is_hex_lower. intros c [Hc|Hc]%orb_true_iff; breflect; lia.
Qed.

Lemma within_hex n s : is_hex n s = true -> within (Z.of_nat n) s.
Proof. unfold is_hex. intros H. breflect. apply within_chars; [by apply hex_chars|lia]. Qed.

Lemma within_prefixed p n s :
  Forall (fun c => 0 <= c < 128) (u p) -> is_prefixed_hex p n s = true ->
  within (Z.of_nat (length (u p) + n)) s.
Proof.
  unfold is_prefixed_hex, is_hex. intros Hp H. breflect.
  apply within_chars; [|rewrite length_drop in *; lia].
  rewrite <- (take_drop (length (u p)) s). apply Forall_app. split; [congruence|by apply hex_chars].
Qed.

Lemma digits_chars s : digits s -> Forall (fun c => 0 <= c < 128) s.
Proof. intros H. eapply Forall_impl; [exact H|]. intros c Hc%is_digit_range. simpl. lia. Qed.

Lemma within_timestamp s : valid_timestamp s = true -> within 30 s.
Proof.
  unfold valid_timestamp. destruct (parse_rfc3339nano_utc_ns s) as [ns|] eqn:E; [|done]. intros _.
  apply parse_spec in E as (m & (Y & Mo & D & H & Mi & S & F) & -> & _). apply (within_chars 30).
  - unfold match_text, field_ok in *.
    repeat apply Forall_app_2; try (by apply digits_chars; firstorder); try (repeat constructor; lia).
    destruct (m_fraction m) as [f|]; unfold fraction_text; [|by repeat constructor].
    repeat apply Forall_app_2; [by repeat constructor|apply digits_chars, F|by repeat constructor].
  - unfold match_text, field_ok in *. rewrite !length_app. cbn [length].
    assert (length (fraction_text (m_fraction m)) <= 11)%nat; [|lia].
    destruct (m_fraction m) as [f|]; cbn [fraction_text fraction_ok] in *; [|cbn; lia].
    rewrite !length_app. cbn. lia.
Qed.

Lemma within_octet n : 0 <= n < 256 -> Forall (fun c => 0 <= c < 128) (str_of_int n) /\ (length (str_of_int n) <= 3)%nat.
Proof.
  intros Hn. unfold str_of_int. destruct (Z.ltb_spec n 0); [lia|]. split.
  - apply digits_chars. by destruct (dec_nonneg_spec n ltac:(lia)) as (_ & ? & _).
  - apply dec_nonneg_length; lia.
Qed.

Lemma within_ipv4 s : valid_ipv4 s = true -> within 15 s.
Proof.
  unfold valid_ipv4. destruct (canonical_ipv4_address s) as [n|] eqn:E; [|done]. intros _.
  apply canonical_ipv4_address_ok in E as [_ ->]. unfold ipv4_text.
  assert (Ho : forall x, Forall (fun c => 0 <= c < 128) (str_of_int (x mod 256))
                         /\ (length (str_of_int (x mod 256)) <= 3)%nat)
    by (intros x; apply within_octet, Z.mod_pos_bound; lia).
  apply (within_chars 15).
  - repeat apply Forall_app_2; try apply Ho; by repeat constructor.
  - rewrite !length_app. cbn [length].
    pose proof (Ho (n / 256 ^ 3)). pose proof (Ho (n / 256 ^ 2)). pose proof (Ho (n / 256)).
    pose proof (Ho n). lia.
Qed.

(** ** Fields *)

Section Fields.
Context (k : pystr) (kb : Z) (Hk : within kb k).

Lemma str_within n s : within n s -> field_within (k, Some (JStr s)) (6 + 6 * kb + 6 * n).
Proof.
  intros [Hs Hn]. destruct Hk as [Hk1 Hk2]. unfold field_within, field_encodable, field_weight.
  cbn [fst snd encodable weight]. split; [by rewrite !bool_decide_eq_true_2|lia].
Qed.

Lemma opt_within {A} (f : A -> json) (o : option A) b :
  0 <= b -> (forall x, o = Some x -> field_within (k, Some (f x)) b) -> field_within (k, f <$> o) b.
Proof. intros Hb H. destruct o as [x|]; [by apply H|]. by split. Qed.

Lemma opt_str_within (p : pystr -> bool) n o :
  opt_ok p o = true -> (forall s, p s = true -> within n s) -> 0 <= kb -> 0 <= n ->
  field_within (k, JStr <$> o) (6 + 6 * kb + 6 * n).
Proof.
  intros Ho Hp Hb Hn. apply opt_within; [lia|]. intros s ->. apply str_within, Hp, Ho.
Qed.

Lemma bool_within x : field_within (k, Some (JBool x)) (9 + 6 * kb).
Proof.
  destruct Hk as [Hk1 Hk2]. split; [|unfold field_weight; cbn; lia].
  unfold field_encodable. cbn [fst snd encodable]. by rewrite bool_decide_eq_true_2.
Qed.

Lemma int_within z :
  MIN_CANONICAL_INTEGER <= z <= MAX_CANONICAL_INTEGER -> field_within (k, Some (JInt z)) (25 + 6 * kb).
Proof.
  intros Hz. destruct Hk as [Hk1 Hk2]. split; [|unfold field_weight; cbn; lia].
  unfold field_encodable. cbn [fst snd encodable]. rewrite bool_decide_eq_true_2 by done.
  by rewrite range_check.
Qed.

Lemma opt_int_within o lo hi :
  (forall z, o = Some z -> lo <= z <= hi) -> MIN_CANONICAL_INTEGER <= lo -> hi <= MAX_CANONICAL_INTEGER ->
  0 <= kb -> field_within (k, JInt <$> o) (25 + 6 * kb).
Proof.
  intros Ho Hlo Hhi Hb. apply opt_within; [lia|]. intros z ->. apply int_within.
  specialize (Ho z eq_refl). lia.
Qed.

Lemma strings_within (n m : Z) l :
  0 <= n -> Forall (within n) l -> Z.of_nat (length l) <= m ->
  field_within (k, Some (JArr (map JStr l))) (6 + 6 * kb + m * (3 + 6 * n)).
Proof.
  intros Hn Hl Hm. destruct Hk as [Hk1 Hk2].
  assert (Hb : forallb (fun v => encodable v (1 + 1)) (map JStr l) = true
    /\ foldr (fun v n => 1 + weight v + n) 0 (map JStr l) <= Z.of_nat (length l) * (3 + 6 * n)).
  { clear -Hl Hn. induction Hl as [|s l [Hs Hw] _ [IH1 IH2]]; [by cbn; lia|].
    cbn [map forallb foldr length encodable weight]. rewrite bool_decide_eq_true_2 by done.
    split; [done|lia]. }
  destruct Hb as [H1 H2]. split.
  - unfold field_encodable. cbn [fst snd encodable]. rewrite bool_decide_eq_true_2 by done. by rewrite H1.
  - unfold field_weight. cbn [fst snd weight]. nia.
Qed.
End Fields.

(** Names that are literals *)
Lemma literal_within s : forallb (fun c => (0 <=? c) && (c <? 128)) s = true -> within (Z.of_nat (length s)) s.
Proof. intros H. apply within_chars; [|done]. eapply forallb_Forall; [|exact H]. cbv beta. intros c Hc. breflect. lia. Qed.

Lemma opt_sat_range {o : option Z} {lo hi} :
  match o with Some z => (lo <=? z) && (z <=? hi) | None => true end = true ->
  forall z, o = Some z -> lo <= z <= hi.
Proof. intros H z ->. breflect. lia. Qed.

Create HintDb sizes discriminated.
#[export] Hint Constants Opaque : sizes.
#[export] Hint Resolve within_timestamp within_ipv4 within_utf8 within_ascii within_hex : sizes.
#[export] Hint Extern 5 (within _ (u _)) => apply literal_within; reflexivity : sizes.

(** One field of a model: its name is a literal, the bound of its value is a hypothesis. *)
Ltac bound_field :=
  lazymatch goal with
  | |- field_within (_, Some (JStr _)) _ =>
      eapply str_within; [apply literal_within; reflexivity|solve [eauto with sizes nocore]]
  | |- field_within (_, Some (JBool _)) _ => eapply bool_within; apply literal_within; reflexivity
  | |- field_within (_, JStr <$> _) _ =>
      eapply opt_str_within; [apply literal_within; reflexivity|eassumption|solve [eauto with sizes nocore]|lia|lia]
  | |- field_within (_, JInt <$> _) _ =>
      eapply opt_int_within;
      [apply literal_within; reflexivity|eapply opt_sat_range; eassumption|done|done|lia]
  | |- _ => idtac
  end.
