(* ===== verification/CoverageGrammar.v ===== *)
(** * Coverage grammar

    [coverage/grammar.py] from [_empty_security_context] to
    [_classify_coverage_record]: the closed grammar that turns one decoded
    envelope (and its typed coverage fields) into a coverage action, or refuses
    it with [ValueError].  Boundaries (boot, key epoch, observer start) are read
    from the envelope alone; coverage events go through five classifiers. *)

From S2P Require Import Prelude Sha256 CanonicalJson JsonDecode Time Ipv4 Identities Contracts.
Local Open Scope Z_scope.
Local Open Scope agmind_scope.

(** ** Python equality of JSON values

    [True == 1] and [False == 0]; dicts compare as mappings.  Floats do not occur
    in validated fields (canonical JSON refuses them) and equal only themselves. *)

Definition bool_int (b : bool) : Z := if b then 1 else 0.

Fixpoint py_eqb (v w : json) : bool :=
  match v, w with
  | JNull, JNull => true
  | JBool b, JBool c => eqb b c
  | JBool b, JInt z => bool_int b =? z
  | JInt z, JBool b => z =? bool_int b
  | JInt z, JInt t => z =? t
  | JFloat f, JFloat g => SpecFloat.SFeqb f g
  | JStr s, JStr t => bool_decide (s = t)
  | JArr l, JArr m =>
      (fix eq_list (l m : list json) : bool :=
         match l, m with
         | [], [] => true
         | v :: l, w :: m => py_eqb v w && eq_list l m
         | _, _ => false
         end) l m
  | JObj d, JObj e =>
      bool_decide (length d = length e)
      && forallb (fun kv =>
           match get kv.1 e with Some w => py_eqb kv.2 w | None => false end) d
  | _, _ => false
  end.

(** [document.get(key) == value] *)
Definition field_eq (key : pystr) (value : json) (doc : document) : bool :=
  match get key doc with Some v => py_eqb v value | None => false end.

(** [set(document) == {...}] *)
Definition keys_are (doc : document) (expected : list pystr) : bool :=
  forallb (fun kv => bool_decide (kv.1 ∈ expected)) doc
  && forallb (fun k => bool_decide (k ∈ map fst doc)) expected.

Definition keys (l : list string) : list pystr := map u l.

(** ** Classification *)

Inductive CoverageAction :=
| Ignore | BootBoundary | KeyTransition | ObserverStart | DockerOpen | DockerClose
| SequenceOpen | SequenceClose | FalcoStart | FalcoStop | FalcoLease | GenericOpen
| GenericClose | ObserverPressureRecovered | DockerLoggingDegraded.

#[export] Instance CoverageAction_eq_dec : EqDecision CoverageAction.
Proof. solve_decision. Defined.

Inductive CoverageScope := ProcessScope | HostScope.

#[export] Instance CoverageScope_eq_dec : EqDecision CoverageScope.
Proof. solve_decision. Defined.

Record CoverageClassification := mkClass {
  action : CoverageAction; scope : option CoverageScope; counter_required : bool;
  opened_at_ns : option Z; closed_at_ns : option Z }.

Definition IGNORE : CoverageClassification := mkClass Ignore None false None None.

(** [_CoverageClassification(action)] with the other fields at their defaults *)
Definition boundary (a : CoverageAction) : CoverageClassification := mkClass a None false None None.

Definition DOCKER_OPEN_REASONS : list pystr :=
  keys ["observer_startup"; "docker_event_stream_error"; "docker_event_reconcile_retry";
        "docker_inventory_event"]%string.

(** [_FALCO_OPEN_REASONS.get(kind)] *)
Definition falco_open_reasons (kind : pystr) : option (list pystr) :=
  if bool_decide (kind = u "falco_parse_rejection") then Some [u "invalid_falco_body"]
  else if bool_decide (kind = u "falco_queue_drop") then Some [u "routine_capacity_exceeded"]
  else if bool_decide (kind = u "falco_delivery_failure") then Some [u "observer_delivery_failed"]
  else if bool_decide (kind = u "falco_heartbeat_gap")
  then Some [u "awaiting_initial_heartbeat"; u "falco_heartbeat_timeout"]
  else if bool_decide (kind = u "falco_configuration_mismatch")
  then Some (keys ["falco_version_mismatch"; "falco_engine_mismatch";
                   "falco_config_hash_mismatch"; "falco_rules_hash_mismatch";
                   "falco_counter_rollback"]%string)
  else if bool_decide (kind = u "falco_kernel_event_drop")
  then Some [u "falco_kernel_drop_counter_increase"]
  else if bool_decide (kind = u "falco_outputs_queue_drop")
  then Some [u "falco_outputs_queue_counter_increase"]
  else None.

(** [_FALCO_CLOSE_REASONS[kind]] for the kinds above *)
Definition falco_close_reason (kind : pystr) : pystr :=
  if bool_decide (kind = u "falco_parse_rejection") then u "valid_heartbeat_recovered"
  else if bool_decide (kind = u "falco_queue_drop") then u "routine_queue_recovered"
  else if bool_decide (kind = u "falco_delivery_failure") then u "observer_delivery_recovered"
  else u "recovered".

Definition FALCO_COUNTED_KINDS : list pystr :=
  keys ["falco_parse_rejection"; "falco_queue_drop"; "falco_kernel_event_drop";
        "falco_outputs_queue_drop"]%string.

(** [_empty_security_context] *)
Definition empty_security_context (e : EventEnvelopeV1) : bool :=
  bool_decide (container_id e = None)
  && bool_decide (container_start_time e = None)
  && bool_decide (e_release_id e = None)
  && (inventory_generation e =? 0)
  && bool_decide (inventory_revision e = None)
  && bool_decide (redaction_flags e = [])
  && bool_decide (source_payload_hash e = normalized_fields_sha256 e).

(** [_coverage_context_is_empty] *)
Definition coverage_context_is_empty (e : EventEnvelopeV1) : bool :=
  bool_decide (container_id e = None)
  && bool_decide (container_start_time e = None)
  && bool_decide (e_release_id e = None)
  && bool_decide (inventory_revision e = None)
  && bool_decide (redaction_flags e = []).

Definition rotation_flags (flags : list pystr) : bool :=
  bool_decide (flags = [u "key_rotation"])
  || bool_decide (flags = [u "boot_transition"; u "key_rotation"]).

(** [_classify_boot_or_start] *)
Definition classify_boot_or_start (e : EventEnvelopeV1)
  : result py_exn (option CoverageClassification) :=
  if bool_decide (event_type e = u "observer_boot_boundary") then
    ObserverBootBoundaryV1_validate (normalized_fields e) ;;*
    check (bool_decide (coverage_flags e = [u "boot_transition"; u "reconcile_required"])
           && empty_security_context e) ;;*
    Ok (Some (boundary BootBoundary))
  else if bool_decide (event_type e = u "observer_key_transition") then
    KeyTransitionV1_validate (normalized_fields e) ;;*
    check (rotation_flags (coverage_flags e) && empty_security_context e) ;;*
    Ok (Some (boundary KeyTransition))
  else if bool_decide (event_type e = u "observer_key_epoch_start") then
    check (keys_are (normalized_fields e) (keys ["kind"; "key_id"; "key_epoch"]%string)
           && field_eq (u "kind") (JStr (u "observer_key_epoch_start")) (normalized_fields e)
           && field_eq (u "key_id") (JStr (e_key_id e)) (normalized_fields e)
           && field_eq (u "key_epoch") (JInt (key_epoch e)) (normalized_fields e)
           && rotation_flags (coverage_flags e) && empty_security_context e) ;;*
    Ok (Some (boundary KeyTransition))
  else if bool_decide (event_type e = u "observer_start") then
    check (py_eqb (JObj (normalized_fields e))
             (JObj [(u "kind", JStr (u "observer_start")); (u "reconcile_required", JBool true)])
           && bool_decide (coverage_flags e = [u "reconcile_required"])
           && empty_security_context e) ;;*
    Ok (Some (boundary ObserverStart))
  else Ok None.

(** [generation is not None and generation > 0 and inventory_generation == generation] *)
Definition generation_matches (c : CoverageEventV1) (e : EventEnvelopeV1) : bool :=
  match reconcile_generation c with
  | Some g => (0 <? g) && (inventory_generation e =? g)
  | None => false
  end.

Definition payload_is_fields (e : EventEnvelopeV1) : bool :=
  bool_decide (source_payload_hash e = normalized_fields_sha256 e).

(** [_classify_docker] *)
Definition classify_docker (e : EventEnvelopeV1) (c : CoverageEventV1)
  : result py_exn (option CoverageClassification) :=
  if negb (bool_decide (kind c = u "docker_reconcile_gap")
           || bool_decide (kind c = u "docker_reconcile_recovered"))
  then Ok None
  else
    let common :=
      bool_decide (component c = u "observer") && generation_matches c e
      && coverage_context_is_empty e
      && bool_decide (coverage_flags e = [u "docker_event_gap"; u "reconcile_required"])
      && payload_is_fields e in
    if bool_decide (kind c = u "docker_reconcile_gap") then
      check (common
             && keys_are (normalized_fields e)
                  (keys ["component"; "kind"; "severity"; "opened_at"; "reason_code";
                         "reconcile_generation"]%string)
             && bool_decide (severity c = u "CRITICAL")
             && bool_decide (closed_at c = None)
             && bool_decide (reason_code c ∈ DOCKER_OPEN_REASONS)
             && bool_decide (event_time e = opened_at c)) ;;*
      let* opened := parse_rfc3339nano_utc_ns (opened_at c) in
      Ok (Some (mkClass DockerOpen (Some HostScope) false (Some opened) None))
    else
      match closed_at c with
      | Some closed_at =>
          check (common
                 && keys_are (normalized_fields e)
                      (keys ["component"; "kind"; "severity"; "opened_at"; "closed_at";
                             "reason_code"; "reconcile_generation"]%string)
                 && bool_decide (severity c = u "INFO")
                 && bool_decide (reason_code c = u "docker_full_reconcile_succeeded")
                 && bool_decide (event_time e = closed_at)) ;;*
          let* opened := parse_rfc3339nano_utc_ns (opened_at c) in
          let* closed := parse_rfc3339nano_utc_ns closed_at in
          check (opened <=? closed) ;;*
          Ok (Some (mkClass DockerClose (Some HostScope) false (Some opened) (Some closed)))
      | None => Err ValueError
      end.

(** [start is not None and end is not None and start > 0 and end >= start] *)
Definition sequence_range_ok (c : CoverageEventV1) : bool :=
  match affected_source_sequence_start c, affected_source_sequence_end c with
  | Some start, Some stop => (0 <? start) && (start <=? stop)
  | _, _ => false
  end.

(** [_classify_sequence] *)
Definition classify_sequence (e : EventEnvelopeV1) (c : CoverageEventV1)
  : result py_exn (option CoverageClassification) :=
  if negb (bool_decide (kind c = u "observer_sequence_gap")) then Ok None
  else
    let common :=
      bool_decide (component c = u "observer") && sequence_range_ok c
      && coverage_context_is_empty e
      && bool_decide (coverage_flags e = [u "reconcile_required"; u "sequence_gap"])
      && payload_is_fields e in
    let open_fields :=
      keys ["component"; "kind"; "severity"; "opened_at"; "affected_source_sequence_start";
            "affected_source_sequence_end"; "reason_code"]%string in
    let close_fields := open_fields ++ keys ["closed_at"; "reconcile_generation"]%string in
    if common && keys_are (normalized_fields e) open_fields
       && bool_decide (severity c = u "CRITICAL")
       && bool_decide (reason_code c = u "reserved_sequence_not_published")
       && bool_decide (closed_at c = None)
       && bool_decide (reconcile_generation c = None)
       && bool_decide (event_time e = opened_at c)
       && (inventory_generation e =? 0)
    then
      let* opened := parse_rfc3339nano_utc_ns (opened_at c) in
      Ok (Some (mkClass SequenceOpen (Some HostScope) false (Some opened) None))
    else
      match closed_at c with
      | Some closed_at =>
          if common && keys_are (normalized_fields e) close_fields
             && bool_decide (severity c = u "INFO")
             && bool_decide (reason_code c = u "reserved_sequence_reconciled")
             && match reconcile_generation c with Some g => 0 <? g | None => false end
             && bool_decide (event_time e = closed_at)
             && bool_decide (Some (inventory_generation e) = reconcile_generation c)
          then
            let* opened := parse_rfc3339nano_utc_ns (opened_at c) in
            let* closed := parse_rfc3339nano_utc_ns closed_at in
            check (opened <=? closed) ;;*
            Ok (Some (mkClass SequenceClose (Some HostScope) false (Some opened) (Some closed)))
          else Err ValueError
      | None => Err ValueError
      end.

(** The point-in-time Falco lifecycle kinds: severity, reason and action *)
Definition falco_point (kind : pystr) : option (pystr * pystr * CoverageAction) :=
  if bool_decide (kind = u "falco_adapter_start")
  then Some (u "INFO", u "adapter_started", FalcoStart)
  else if bool_decide (kind = u "falco_adapter_stop")
  then Some (u "CRITICAL", u "adapter_stopping", FalcoStop)
  else if bool_decide (kind = u "falco_heartbeat_lease")
  then Some (u "INFO", u "valid_heartbeat", FalcoLease)
  else None.

(** [_classify_falco_point] *)
Definition classify_falco_point (e : EventEnvelopeV1) (c : CoverageEventV1)
  : result py_exn (option CoverageClassification) :=
  match falco_point (kind c) with
  | None => Ok None
  | Some (expected_severity, expected_reason, expected_action) =>
      check (keys_are (normalized_fields e)
               (keys ["component"; "kind"; "severity"; "opened_at"; "closed_at";
                      "reason_code"]%string)
             && bool_decide (component c = u "falco-adapter")
             && bool_decide (severity c = expected_severity)
             && bool_decide (reason_code c = expected_reason)
             && bool_decide (closed_at c = Some (opened_at c))
             && bool_decide (event_time e = opened_at c)
             && coverage_context_is_empty e
             && bool_decide (coverage_flags e = [])) ;;*
      let* point := parse_rfc3339nano_utc_ns (opened_at c) in
      Ok (Some (mkClass expected_action (Some ProcessScope) false (Some point) (Some point)))
  end.

(** [_classify_falco_generic] *)
Definition classify_falco_generic (e : EventEnvelopeV1) (c : CoverageEventV1)
  : result py_exn (option CoverageClassification) :=
  match falco_open_reasons (kind c) with
  | None => Ok None
  | Some open_reasons =>
      if negb (bool_decide (component c = u "falco-adapter")) then Ok None
      else
        let counted := bool_decide (kind c ∈ FALCO_COUNTED_KINDS) in
        let is_open := bool_decide (closed_at c = None) in
        let expected_fields :=
          keys ["component"; "kind"; "severity"; "opened_at"; "reason_code"]%string
          ++ (if counted then [u "dropped_count"] else [])
          ++ (if is_open then [] else [u "closed_at"]) in
        let valid_counter :=
          match dropped_count c with
          | Some n => counted && (0 <? n)
          | None => negb counted
          end in
        let expected_reason :=
          if is_open then bool_decide (reason_code c ∈ open_reasons)
          else bool_decide (reason_code c = falco_close_reason (kind c)) in
        let expected_flags := if is_open then [kind c] else [] in
        let expected_time := default (opened_at c) (closed_at c) in
        check (keys_are (normalized_fields e) expected_fields
               && bool_decide (severity c = u "CRITICAL")
               && valid_counter && expected_reason
               && bool_decide (event_time e = expected_time)
               && coverage_context_is_empty e
               && bool_decide (coverage_flags e = expected_flags)) ;;*
        let* opened := parse_rfc3339nano_utc_ns (opened_at c) in
        let* closed := parse_optional_ns (closed_at c) in
        check (match closed with Some t => opened <=? t | None => true end) ;;*
        Ok (Some (mkClass (if is_open then GenericOpen else GenericClose) (Some ProcessScope)
                    counted (Some opened) closed))
  end.

(** [_classify_observer_specific] *)
Definition classify_observer_specific (e : EventEnvelopeV1) (c : CoverageEventV1)
  : result py_exn (option CoverageClassification) :=
  let fields := normalized_fields e in
  if bool_decide (kind c = u "observer_spool_drop") then
    check (keys_are fields
             (keys ["component"; "kind"; "severity"; "opened_at"; "dropped_count";
                    "reason_code"]%string)
           && bool_decide (component c = u "observer")
           && bool_decide (severity c = u "CRITICAL")
           && bool_decide (closed_at c = None)
           && bool_decide (dropped_count c = Some 1)
           && bool_decide (reason_code c = u "routine_spool_quota")
           && bool_decide (event_time e = opened_at c)
           && (inventory_generation e =? 0)
           && coverage_context_is_empty e
           && bool_decide (coverage_flags e = [u "storage_pressure"])
           && payload_is_fields e) ;;*
    let* opened := parse_rfc3339nano_utc_ns (opened_at c) in
    Ok (Some (mkClass GenericOpen (Some HostScope) true (Some opened) None))
  else if bool_decide (kind c = u "observer_spool_drop_recovered") then
    check (keys_are fields
             (keys ["component"; "kind"; "severity"; "opened_at"; "closed_at"; "dropped_count";
                    "reason_code"]%string)
           && bool_decide (component c = u "observer")
           && bool_decide (severity c = u "INFO")
           && bool_decide (closed_at c = Some (opened_at c))
           && match dropped_count c with Some n => 0 <? n | None => false end
           && bool_decide (reason_code c = u "routine_spool_recovered")
           && bool_decide (event_time e = opened_at c)
           && (inventory_generation e =? 0)
           && coverage_context_is_empty e
           && bool_decide (coverage_flags e = [u "storage_pressure"])
           && payload_is_fields e) ;;*
    let* point := parse_rfc3339nano_utc_ns (opened_at c) in
    Ok (Some (mkClass ObserverPressureRecovered (Some HostScope) true (Some point) (Some point)))
  else if bool_decide (kind c = u "docker_logging_visibility_degraded") then
    check (keys_are fields
             (keys ["component"; "kind"; "severity"; "opened_at"; "reason_code";
                    "reconcile_generation"]%string)
           && bool_decide (component c = u "observer")
           && bool_decide (severity c = u "WARNING")
           && bool_decide (closed_at c = None)
           && bool_decide (reason_code c = u "docker_logging_unavailable")
           && generation_matches c e
           && bool_decide (event_time e = opened_at c)
           && coverage_context_is_empty e
           && bool_decide (coverage_flags e = [u "docker_logging_unavailable"])
           && payload_is_fields e) ;;*
    let* opened := parse_rfc3339nano_utc_ns (opened_at c) in
    Ok (Some (mkClass DockerLoggingDegraded (Some HostScope) false (Some opened) None))
  else Ok None.

Definition classifier := EventEnvelopeV1 -> CoverageEventV1
  -> result py_exn (option CoverageClassification).

Definition classifiers : list classifier :=
  [classify_docker; classify_sequence; classify_falco_point; classify_falco_generic;
   classify_observer_specific].

(** The loop over the classifiers: the first that selects wins. *)
Fixpoint first_selected (cs : list classifier) (e : EventEnvelopeV1) (c : CoverageEventV1)
  : result py_exn CoverageClassification :=
  match cs with
  | [] => Err ValueError
  | f :: cs =>
      let* selected := f e c in
      match selected with Some r => Ok r | None => first_selected cs e c end
  end.

(** [_classify_coverage_record] *)
Definition classify_coverage_record (e : EventEnvelopeV1) (coverage : option CoverageEventV1)
  : result py_exn CoverageClassification :=
  let* boundary := classify_boot_or_start e in
  match boundary, coverage with
  | Some _, Some _ => Err ValueError
  | Some r, None => Ok r
  | None, _ =>
      if bool_decide (event_type e <> u "coverage") then
        match coverage with Some _ => Err ValueError | None => Ok IGNORE end
      else
        match coverage with
        | None => Err ValueError
        | Some c =>
            check (py_eqb (JObj (coverage_dump c)) (JObj (normalized_fields e))) ;;*
            first_selected classifiers e c
        end
  end.

(** ** The classifiers do not overlap *)

(** The order of the classifiers does not matter when all that select or refuse
    agree. *)
Lemma first_selected_perm e c r l1 l2 :
  Forall (fun f : classifier => f e c = Ok None \/ f e c = r) l1 -> l1 ≡ₚ l2 ->
  first_selected l1 e c = first_selected l2 e c.
Proof.
  intros Hall Hp. induction Hp as [|f l1 l2 Hp IH|f g l|l1 l2 l3 H1 IH1 H2 IH2].
  - done.
  - apply Forall_cons in Hall as [_ Hall]. cbn [first_selected].
    destruct (f e c) as [[r'|]|]; cbn [rbind]; auto.
  - apply Forall_cons in Hall as [Hg Hall]. apply Forall_cons in Hall as [Hf _].
    cbn [first_selected]. destruct Hf as [->| ->], Hg as [->| ->]; try done;
      by destruct r as [[r'|]|].
  - rewrite IH1 by done. apply IH2. by rewrite <- H1.
Qed.

(** The kinds of coverage event each classifier decides. *)
Definition docker_kinds := keys ["docker_reconcile_gap"; "docker_reconcile_recovered"]%string.
Definition sequence_kinds := keys ["observer_sequence_gap"]%string.
Definition falco_point_kinds :=
  keys ["falco_adapter_start"; "falco_adapter_stop"; "falco_heartbeat_lease"]%string.
Definition falco_generic_kinds :=
  keys ["falco_parse_rejection"; "falco_queue_drop"; "falco_delivery_failure";
        "falco_heartbeat_gap"; "falco_configuration_mismatch"; "falco_kernel_event_drop";
        "falco_outputs_queue_drop"]%string.
Definition observer_specific_kinds :=
  keys ["observer_spool_drop"; "observer_spool_drop_recovered";
        "docker_logging_visibility_degraded"]%string.

Ltac not_kind :=
  repeat match goal with
  | H : ?k ∉ ?l |- _ => unfold l, keys in H; cbn [map] in H
  | H : ?k ∉ _ :: _ |- _ => apply not_elem_of_cons in H as [? H]
  end;
  rewrite ?bool_decide_eq_false_2 by done.

Lemma classify_docker_other e c : kind c ∉ docker_kinds -> classify_docker e c = Ok None.
Proof. intros H. unfold classify_docker. not_kind. done. Qed.

Lemma classify_sequence_other e c : kind c ∉ sequence_kinds -> classify_sequence e c = Ok None.
Proof. intros H. unfold classify_sequence. not_kind. done. Qed.

Lemma classify_falco_point_other e c :
  kind c ∉ falco_point_kinds -> classify_falco_point e c = Ok None.
Proof. intros H. unfold classify_falco_point, falco_point. not_kind. done. Qed.

Lemma classify_falco_generic_other e c :
  kind c ∉ falco_generic_kinds -> classify_falco_generic e c = Ok None.
Proof. intros H. unfold classify_falco_generic, falco_open_reasons. not_kind. done. Qed.

Lemma classify_observer_specific_other e c :
  kind c ∉ observer_specific_kinds -> classify_observer_specific e c = Ok None.
Proof. intros H. unfold classify_observer_specific. not_kind. done. Qed.

#[export] Hint Resolve classify_docker_other classify_sequence_other
  classify_falco_point_other classify_falco_generic_other classify_observer_specific_other
  : agmind.

(** The kinds of two different classifiers are different. *)
Lemma kinds_disjoint (k : pystr) (l1 l2 : list pystr) :
  forallb (fun x => negb (bool_decide (x ∈ l2))) l1 = true -> k ∈ l1 -> k ∉ l2.
Proof.
  intros H Hin. rewrite forallb_forall in H. apply list_elem_of_In, H in Hin. by breflect.
Qed.

#[export] Hint Extern 1 (kind _ ∉ _) =>
  (eapply kinds_disjoint; [|eassumption]; vm_compute; reflexivity) : agmind.

Lemma classifiers_agree e c : exists r,
  Forall (fun f : classifier => f e c = Ok None \/ f e c = r) classifiers.
Proof.
  unfold classifiers.
  destruct (decide (kind c ∈ docker_kinds)); [|destruct (decide (kind c ∈ sequence_kinds));
    [|destruct (decide (kind c ∈ falco_point_kinds));
      [|destruct (decide (kind c ∈ falco_generic_kinds))]]];
  [exists (classify_docker e c)|exists (classify_sequence e c)|exists (classify_falco_point e c)
  |exists (classify_falco_generic e c)|exists (classify_observer_specific e c)];
  repeat (apply Forall_cons_2; [auto with agmind|]); constructor.
Qed.

(** The five coverage classifiers decide disjoint kinds of event: trying them
    in any order gives the same classification or the same refusal. *)
Theorem classifier_order_irrelevant e c order :
  order ≡ₚ classifiers -> first_selected order e c = first_selected classifiers e c.
Proof.
  intros Hp. destruct (classifiers_agree e c) as [r Hr]. symmetry.
  by apply (first_selected_perm e c r).
Qed.

(** ** What an accepted classification says *)

(** Facts every accepted coverage event satisfies: its opening time is exact, a
    closing time is exact and not earlier, the envelope is stamped with the time
    of the reported transition and carries no container context, and a required
    counter is a positive one. *)
Definition classification_exact (e : EventEnvelopeV1) (c : CoverageEventV1)
    (cl : CoverageClassification) : Prop :=
  coverage_context_is_empty e = true
  /\ scope cl <> None
  /\ (exists opened, parse_rfc3339nano_utc_ns (opened_at c) = Ok opened
        /\ opened_at_ns cl = Some opened
        /\ match closed_at c with
           | Some t => exists closed, parse_rfc3339nano_utc_ns t = Ok closed
                         /\ closed_at_ns cl = Some closed /\ opened <= closed
                         /\ event_time e = t
           | None => closed_at_ns cl = None /\ event_time e = opened_at c
           end)
  /\ (counter_required cl = true -> exists n, dropped_count c = Some n /\ 0 < n).

(** Split the hypotheses a classifier checked. *)
Ltac checked :=
  unfold check in *; inv_ok;
  repeat match goal with
  | H : Some _ = Some _ |- _ => injection H as H
  | H : _ = Some _ |- _ => progress subst
  end; subst; breflect.

Lemma classify_docker_exact e c cl :
  classify_docker e c = Ok (Some cl) -> classification_exact e c cl.
Proof.
  unfold classify_docker. destruct (negb _); [done|].
  case_bool_decide; [|destruct (closed_at c) as [t|] eqn:Ec; [|done]]; intros Hres; checked;
    unfold classification_exact; (split_and!; [done|done| |done]); eexists;
    (split; [eassumption|split; [done|]]).
  - match goal with Hn : closed_at c = None |- _ => rewrite Hn end. done.
  - rewrite Ec. eexists. split_and!; [eassumption|done|lia|done].
Qed.

Lemma classify_sequence_exact e c cl :
  classify_sequence e c = Ok (Some cl) -> classification_exact e c cl.
Proof.
  unfold classify_sequence. destruct (negb _); [done|]. cbv zeta.
  match goal with |- context [if ?x then _ else _] => destruct x eqn:E1 end.
  - intros H. checked. unfold classification_exact. split_and!; [done|done| |done].
    eexists. split; [eassumption|split; [done|]].
    match goal with Hn : closed_at c = None |- _ => rewrite Hn end. done.
  - destruct (closed_at c) as [t|] eqn:Ec; [|done].
    match goal with |- context [if ?x then _ else _] => destruct x eqn:E2 end; [|done].
    intros H. checked. unfold classification_exact. split_and!; [done|done| |done].
    eexists. split; [eassumption|split; [done|]]. rewrite Ec.
    eexists. split_and!; [eassumption|done|lia|done].
Qed.

Lemma classify_falco_point_exact e c cl :
  classify_falco_point e c = Ok (Some cl) -> classification_exact e c cl.
Proof.
  unfold classify_falco_point. destruct (falco_point (kind c)) as [[[sev rea] act]|]; [|done].
  intros H. checked. unfold classification_exact. split_and!; [done|done| |done].
  eexists. split; [eassumption|split; [done|]].
  match goal with Hn : closed_at c = Some _ |- _ => rewrite Hn end.
  eexists. split_and!; [eassumption|done|lia|done].
Qed.

Lemma classify_falco_generic_exact e c cl :
  classify_falco_generic e c = Ok (Some cl) -> classification_exact e c cl.
Proof.
  unfold classify_falco_generic. destruct (falco_open_reasons (kind c)); [|done].
  destruct (negb _); [done|]. cbv zeta. intros H.
  destruct (closed_at c) as [t|] eqn:Ec; cbn [parse_optional_ns default from_option] in *;
    checked; unfold classification_exact; cbn [scope opened_at_ns closed_at_ns counter_required];
    (split_and!; [done|done| |]).
  - eexists. split; [eassumption|split; [done|]]. rewrite Ec.
    eexists. split_and!; [eassumption|done|lia|done].
  - intros Hc. destruct (dropped_count c) as [n|]; breflect; [eauto|congruence].
  - eexists. split; [eassumption|split; [done|]]. by rewrite Ec.
  - intros Hc. destruct (dropped_count c) as [n|]; breflect; [eauto|congruence].
Qed.

(** The timing part of an accepted form, leaving the counter. *)
Ltac exact_form :=
  checked; unfold classification_exact;
  cbn [scope opened_at_ns closed_at_ns counter_required];
  (split_and!; [done|done| |]);
  [eexists; (split; [eassumption|split; [done|]]);
   match goal with Hn : closed_at _ = _ |- _ => rewrite Hn end;
   first [by split | eexists; split_and!; [eassumption|done|lia|done]]
  |].

Lemma classify_observer_specific_exact e c cl :
  classify_observer_specific e c = Ok (Some cl) -> classification_exact e c cl.
Proof.
  unfold classify_observer_specific. cbv zeta.
  destruct (bool_decide (kind c = u "observer_spool_drop")); [intros Hres; exact_form|].
  { intros _. exists 1. by split. }
  destruct (bool_decide (kind c = u "observer_spool_drop_recovered")); [intros Hres; exact_form|].
  { intros _. destruct (dropped_count c) as [n|]; breflect; [eauto|done]. }
  destruct (bool_decide (kind c = u "docker_logging_visibility_degraded"));
    [intros Hres; exact_form; done|done].
Qed.

Lemma first_selected_exact e c cl :
  first_selected classifiers e c = Ok cl -> classification_exact e c cl.
Proof.
  unfold classifiers. cbn [first_selected]. intros H.
  apply rbind_ok in H as ([r|] & Hr & H); [injection H as ->; by apply classify_docker_exact|].
  apply rbind_ok in H as ([r|] & Hr1 & H); [injection H as ->; by apply classify_sequence_exact|].
  apply rbind_ok in H as ([r|] & Hr2 & H);
    [injection H as ->; by apply classify_falco_point_exact|].
  apply rbind_ok in H as ([r|] & Hr3 & H);
    [injection H as ->; by apply classify_falco_generic_exact|].
  apply rbind_ok in H as ([r|] & Hr4 & H);
    [injection H as ->; by apply classify_observer_specific_exact|].
  done.
Qed.

(** Every coverage event the grammar accepts is exact: its interval is ordered
    in nanoseconds, the envelope is stamped with the time of the reported
    transition, no container context rides along, a required loss counter is
    positive, and the event is a coverage event whose typed fields are the signed
    ones. *)
Theorem coverage_classification_exact e c cl :
  classify_coverage_record e (Some c) = Ok cl ->
  classification_exact e c cl /\ event_type e = u "coverage"
  /\ py_eqb (JObj (coverage_dump c)) (JObj (normalized_fields e)) = true.
Proof.
  unfold classify_coverage_record. intros H. apply rbind_ok in H as ([cl'|] & Hb & H); [done|].
  case_bool_decide as Ht; [done|].
  destruct (decide (event_type e = u "coverage")) as [Ht'|]; [|done].
  unfold check in H. inv_ok. split_and!; [by apply first_selected_exact|done|done].
Qed.

(** ** The forms the observer emits are accepted *)

Fixpoint no_floats (v : json) : bool :=
  match v with
  | JFloat _ => false
  | JArr l => forallb no_floats l
  | JObj m => forallb (fun kv => no_floats kv.2) m
  | _ => true
  end.

Lemma get_member (d : document) k v :
  NoDup (map fst d) -> (k, v) ∈ d -> get k d = Some v.
Proof.
  induction d as [|[k' v'] d IH]; simpl; intros Hnd Hin; [by apply elem_of_nil in Hin|].
  apply NoDup_cons in Hnd as [Hn Hnd]. apply elem_of_cons in Hin as [[= -> ->]|Hin].
  - by rewrite bool_decide_eq_true_2.
  - rewrite bool_decide_eq_false_2; [by apply IH|]. intros ->. destruct Hn.
    apply list_elem_of_fmap. by exists (k, v).
Qed.

Lemma py_eqb_refl v : unique_keys v = true -> no_floats v = true -> py_eqb v v = true.
Proof.
  induction v as [|x|z|f|s|l Hl|m Hm] using json_nested_ind; cbn [py_eqb unique_keys no_floats];
    intros Hu Hf; try done.
  - by destruct x.
  - apply Z.eqb_refl.
  - by apply bool_decide_eq_true.
  - induction Hl as [|v l Hv _ IH]; [done|]. cbn [forallb] in *. breflect.
    by rewrite Hv, IH.
  - apply andb_true_iff in Hu as [Hnd%bool_decide_eq_true Hu].
    rewrite bool_decide_eq_true_2 by done. cbn [andb].
    apply forallb_forall. intros [k v] Hin. rewrite forallb_forall in Hu, Hf.
    rewrite List.Forall_forall in Hm. specialize (Hm _ Hin). specialize (Hu _ Hin).
    specialize (Hf _ Hin). cbn [fst snd] in *. apply list_elem_of_In in Hin.
    rewrite (get_member _ _ _ Hnd Hin). auto.
Qed.

(** The coverage fields of a Docker reconcile gap, open or recovered. *)
Definition docker_coverage (opened : pystr) (closed : option pystr) (reason : pystr)
    (generation : Z) : CoverageEventV1 :=
  match closed with
  | None => mkCoverage (u "observer") (u "docker_reconcile_gap") (u "CRITICAL") opened None
              None None None reason (Some generation)
  | Some _ => mkCoverage (u "observer") (u "docker_reconcile_recovered") (u "INFO") opened closed
                None None None (u "docker_full_reconcile_succeeded") (Some generation)
  end.

(** An envelope that reports them: stamped with the transition, nothing else attached. *)
Definition reports (e : EventEnvelopeV1) (c : CoverageEventV1) (flags : list pystr) : Prop :=
  event_type e = u "coverage" /\ normalized_fields e = coverage_dump c
  /\ coverage_flags e = flags /\ event_time e = default (opened_at c) (closed_at c)
  /\ coverage_context_is_empty e = true
  /\ source_payload_hash e = normalized_fields_sha256 e.

Lemma coverage_dump_refl c :
  py_eqb (JObj (coverage_dump c)) (JObj (coverage_dump c)) = true.
Proof.
  apply py_eqb_refl.
  - cbn [unique_keys]. apply andb_true_iff. split.
    + apply bool_decide_eq_true, dump_of_nodup. exact coverage_keys_nodup.
    + destruct c as [? ? ? ? [] [] [] [] ? []]; reflexivity.
  - destruct c as [? ? ? ? [] [] [] [] ? []]; reflexivity.
Qed.

Lemma classify_coverage_event e c :
  event_type e = u "coverage" -> normalized_fields e = coverage_dump c ->
  classify_coverage_record e (Some c) = first_selected classifiers e c.
Proof.
  intros Ht Hf. unfold classify_coverage_record, classify_boot_or_start. rewrite Ht.
  rewrite !(bool_decide_eq_false_2 (u "coverage" = _)) by (vm_compute; discriminate).
  cbn [rbind]. rewrite (bool_decide_eq_false_2 (u "coverage" <> _)) by (intros Hn; by apply Hn).
  rewrite Hf, coverage_dump_refl. done.
Qed.

(** Every Docker reconcile gap the observer reports is accepted: with a
    positive generation, one of the four opening reasons, and ordered times, the
    open form is read as a host-wide opening and the recovered form as a closing,
    with the exact nanosecond times. *)
Theorem docker_forms_accepted e opened closed reason generation opened_ns closed_ns :
  0 < generation -> reason ∈ DOCKER_OPEN_REASONS ->
  inventory_generation e = generation ->
  parse_rfc3339nano_utc_ns opened = Ok opened_ns ->
  parse_optional_ns closed = Ok closed_ns ->
  match closed_ns with Some t => opened_ns <= t | None => True end ->
  reports e (docker_coverage opened closed reason generation)
    [u "docker_event_gap"; u "reconcile_required"] ->
  classify_coverage_record e (Some (docker_coverage opened closed reason generation))
  = Ok (mkClass (match closed with None => DockerOpen | Some _ => DockerClose end)
          (Some HostScope) false (Some opened_ns) closed_ns).
Proof.
  intros Hg Hreason Hgen Ho Hc Hle (Ht & Hf & Hfl & Het & Hctx & Hp).
  rewrite classify_coverage_event by done. unfold classifiers. cbn [first_selected].
  assert (Hgm : forall c, reconcile_generation c = Some generation -> generation_matches c e = true).
  { intros c Hcg. unfold generation_matches. rewrite Hcg, Hgen, Z.eqb_refl, andb_true_r.
    by apply Z.ltb_lt. }
  unfold classify_docker, payload_is_fields. rewrite Hfl, Hctx, Het, Hf.
  rewrite (bool_decide_eq_true_2 (source_payload_hash e = _)) by done.
  rewrite Hgm by (by destruct closed). destruct closed as [t|]; cbn [parse_optional_ns] in Hc.
  - apply rbind_ok in Hc as (tn & Htn & Hc). injection Hc as <-.
    cbn [docker_coverage kind component severity closed_at opened_at reason_code default
         from_option]. rewrite (bool_decide_eq_true_2 (t = t)) by done.
    rewrite Ho, Htn. cbn [rbind]. rewrite (proj2 (Z.leb_le _ _) Hle).
    reflexivity.
  - injection Hc as <-.
    cbn [docker_coverage kind component severity closed_at opened_at reason_code default
         from_option]. rewrite (bool_decide_eq_true_2 (opened = opened)) by done.
    rewrite (bool_decide_eq_true_2 (reason ∈ _)) by done. rewrite Ho. reflexivity.
Qed.

(** ** Witnesses *)

Definition sample_docker : CoverageEventV1 :=
  docker_coverage (u "2026-01-01T00:00:00Z") (Some (u "2026-01-01T00:00:01.5Z"))
    (u "observer_startup") 3.

(** The envelope that carries a coverage event of the observer. *)
Definition coverage_envelope (sequence generation : Z) (c : CoverageEventV1)
    (flags : list pystr) : EventEnvelopeV1 :=
  build_envelope (u "coverage") sequence (default (opened_at c) (closed_at c)) generation
    (coverage_dump c) flags.

Definition sample_docker_envelope : EventEnvelopeV1 :=
  coverage_envelope 4 3 sample_docker [u "docker_event_gap"; u "reconcile_required"].

Lemma classifier_order_witness :
  first_selected (rev classifiers) sample_docker_envelope sample_docker
  = first_selected classifiers sample_docker_envelope sample_docker.
Proof.
  apply (classifier_order_irrelevant sample_docker_envelope sample_docker (rev classifiers)).
  symmetry. apply Permutation_rev.
Defined.

Lemma coverage_classification_witness : exists cl,
  classify_coverage_record sample_docker_envelope (Some sample_docker) = Ok cl
  /\ classification_exact sample_docker_envelope sample_docker cl.
Proof.
  eexists. split; [vm_compute; reflexivity|].
  eapply (coverage_classification_exact sample_docker_envelope sample_docker).
  vm_compute. reflexivity.
Defined.

Lemma docker_forms_witness : exists opened closed,
  classify_coverage_record sample_docker_envelope (Some sample_docker)
  = Ok (mkClass DockerClose (Some HostScope) false (Some opened) (Some closed)).
Proof.
  do 2 eexists.
  apply (docker_forms_accepted sample_docker_envelope (u "2026-01-01T00:00:00Z")
           (Some (u "2026-01-01T00:00:01.5Z")) (u "observer_startup") 3 1767225600000000000
           (Some 1767225601500000000)).
  - lia.
  - apply (bool_decide_eq_true (u "observer_startup" ∈ DOCKER_OPEN_REASONS)).
    vm_compute. reflexivity.
  - vm_compute. reflexivity.
  - vm_compute. reflexivity.
  - vm_compute. reflexivity.
  - lia.
  - unfold reports. split_and!; vm_compute; reflexivity.
Defined.

(** The observer-start form is compared with Python's [!=], under which the
    integer 1 equals [True]: a start whose flag is the integer passes. *)
Definition integer_start : EventEnvelopeV1 :=
  build_envelope (u "observer_start") 2 (u "2026-01-01T00:00:00Z") 0
    [(u "kind", JStr (u "observer_start")); (u "reconcile_required", JInt 1)]
    [u "reconcile_required"].

Lemma observer_start_accepts_integer :
  EventEnvelopeV1_validate (envelope_dump integer_start) = Ok integer_start
  /\ classify_coverage_record integer_start None = Ok (boundary ObserverStart).
Proof. split; vm_compute; reflexivity. Qed.
