(* ===== verification/EvidenceStore.v ===== *)
(** * The evidence store, as the coverage reducer sees it

    The part of [evidence/segments.py] that coverage calls: evidence references
    and stored records with their exactness checks, the authenticated index of
    the recovered host, and the single coverage-state owner
    ([resolve_authenticated_ref], [iter_authenticated_records],
    [_acquire_coverage_state], [_resolve_next_coverage_record],
    [_validate_coverage_state_owner], [_release_coverage_state]).

    [CoverageEvidence] is the interface the reducer is written against; the store
    model is its instance.  Python object identity ([is]) is equality of
    [token]s. *)

From stdpp Require Import gmap.
From S2P Require Import Prelude Sha256 CanonicalJson JsonDecode Time Ipv4 Identities Contracts.
Local Open Scope Z_scope.
Local Open Scope agmind_scope.

Abbreviation token := Z.

Definition MAX_EVIDENCE_RECORD_BYTES : Z := 128 * 1024.
Definition MAX_SEGMENT_BYTES : Z := 64 * 1024 * 1024.

Inductive EvidencePriority := ROUTINE | PROTECTED.

#[export] Instance EvidencePriority_eq_dec : EqDecision EvidencePriority.
Proof. solve_decision. Defined.

Record EvidenceRef := mkRef {
  segment_id : pystr; segment_relative_path : pystr; frame_offset : Z; frame_size : Z;
  frame_sha256 : pystr; ref_event_id : pystr; ref_source_sequence : Z; content_sha256 : pystr }.

#[export] Instance EvidenceRef_eq_dec : EqDecision EvidenceRef.
Proof. solve_decision. Defined.

Record StoredEvidenceRecord := mkStored {
  stored_envelope : document; canonical_envelope : bytes; priority : EvidencePriority;
  accepted_at : pystr; ref : EvidenceRef }.

(** ** Exactness of references and records *)

(** [date.fromisoformat] on [YYYY-MM-DD] text: the date exists. *)
Definition date_exists (text : pystr) : bool :=
  match take_digits 4 text with
  | Some (y, t) =>
      match split_on 45 t with
      | [[]; m; d] =>
          let year := digits_value y in
          let month := digits_value m in
          let day := digits_value d in
          bool_decide (length m = 2%nat) && forallb is_digit m
          && bool_decide (length d = 2%nat) && forallb is_digit d
          && (1 <=? year) && (1 <=? month) && (month <=? 12)
          && (1 <=? day) && (day <=? month_length year month)
      | _ => false
      end
  | None => false
  end.

(** The segment path pattern: the first sequence and the segment identifier. *)
Definition match_segment_path (path : pystr) : option (pystr * Z * pystr) :=
  match split_on 47 path with
  | [root; date; name] =>
      if bool_decide (root = u "segments") then
        match take_digits 20 name with
        | Some (first, 45 :: rest) =>
            let segment := take 36 rest in
            if bool_decide (drop 36 rest = u ".agseg") && UUID4 segment
            then Some (date, digits_value first, segment) else None
        | _ => None
        end
      else None
  | _ => None
  end.

(** [_exact_coverage_ref_key]: the eight fields, once they are exact *)
Definition exact_coverage_ref_key (r : EvidenceRef) : result py_exn EvidenceRef :=
  check (UUID4 (segment_id r)) ;;*
  match match_segment_path (segment_relative_path r) with
  | Some (date, first_sequence, segment) =>
      check (bool_decide (segment = segment_id r)) ;;*
      check (date_exists date) ;;*
      check ((1 <=? first_sequence) && (first_sequence <=? ref_source_sequence r)
             && (ref_source_sequence r <=? MAX_UINT64)
             && (0 <=? frame_offset r)
             && (76 <? frame_size r) && (frame_size r <=? MAX_EVIDENCE_RECORD_BYTES + 76)
             && (frame_offset r + frame_size r <=? MAX_SEGMENT_BYTES)) ;;*
      check (HEX64 (frame_sha256 r) && EVENT_ID (ref_event_id r) && HEX64 (content_sha256 r)) ;;*
      Ok r
  | None => Err ValueError
  end.

(** [_same_exact_coverage_ref] *)
Definition same_exact_coverage_ref (left right : EvidenceRef) : result py_exn bool :=
  let* l := exact_coverage_ref_key left in
  let* r := exact_coverage_ref_key right in
  Ok (bool_decide (l = r)).

(** [_exact_coverage_record_key] *)
Definition exact_coverage_record_key (record : StoredEvidenceRecord)
  : result py_exn (bytes * EvidencePriority * pystr * EvidenceRef) :=
  let* encoded := canonical_json (JObj (stored_envelope record)) in
  check (bool_decide (encoded = canonical_envelope record)) ;;*
  let* r := exact_coverage_ref_key (ref record) in
  Ok (canonical_envelope record, priority record, accepted_at record, r).

(** [_same_exact_coverage_record] *)
Definition same_exact_coverage_record (left right : StoredEvidenceRecord) : result py_exn bool :=
  let* l := exact_coverage_record_key left in
  let* r := exact_coverage_record_key right in
  Ok (bool_decide (l = r)).

(** ** The interface *)

Inductive store_exn :=
| EvidenceStoreError | EvidenceSealError | EvidenceStoreBusy | EvidenceCorrupt | AckAuthorityError
| StorePyError (e : py_exn)
| LookupError.

(** What a coverage reducer may ask of its evidence. *)
Class CoverageEvidence (S : Type) := {
  acquire_coverage_state : S -> token -> result store_exn (token * S);
  (** A generator: what each [next] gives, up to the first exception. *)
  iter_authenticated_records : S -> list (result store_exn StoredEvidenceRecord);
  resolve_authenticated_ref : S -> EvidenceRef -> result store_exn StoredEvidenceRecord;
  resolve_next_coverage_record :
    S -> token -> token -> StoredEvidenceRecord -> option EvidenceRef
    -> result store_exn StoredEvidenceRecord;
  validate_coverage_state_owner :
    S -> token -> token -> option EvidenceRef -> result store_exn (option EvidenceRef);
  release_coverage_state : S -> token -> token -> result store_exn S;
  (** The identity of the store object. *)
  store_identity : S -> token }.

(** ** The store *)

Record SegmentStore := mkStore {
  store_token : token;                      (* the object itself *)
  store_closed : bool;
  verifier_ready : bool;                    (* a bound verifier and authority "ready" *)
  last_sequence : Z;                        (* verifier.fsm.last_sequence *)
  accepted_ref : gmap Z EvidenceRef;        (* verifier.accepted_ref *)
  sequences : list Z;                       (* _sequences_by_host[fsm.host_id] *)
  index : gmap Z EvidenceRef;               (* _index of that host: the refs *)
  record_positions : gmap Z nat;            (* _record_positions of that host *)
  stored_records : list StoredEvidenceRecord;
  coverage_state_owner : option token;
  lifecycle_identity : token }.

Definition require_authenticated_recovered (s : SegmentStore) : result store_exn unit :=
  guard (negb (store_closed s)) EvidenceStoreError ;;*
  guard (verifier_ready s) EvidenceSealError.

Definition SegmentStore_resolve_authenticated_ref (s : SegmentStore) (r : EvidenceRef)
  : result store_exn StoredEvidenceRecord :=
  require_authenticated_recovered s ;;*
  guard (bool_decide (index s !! ref_source_sequence r = Some r)
         && bool_decide (accepted_ref s !! ref_source_sequence r = Some r))
    AckAuthorityError ;;*
  let* position := of_option EvidenceCorrupt (record_positions s !! ref_source_sequence r) in
  let* record := of_option LookupError (stored_records s !! position) in
  guard (bool_decide (ref record = r)) EvidenceCorrupt ;;*
  Ok record.

(** [iter_authenticated_records()] over the whole host *)
Definition SegmentStore_iter_authenticated_records (s : SegmentStore)
  : list (result store_exn StoredEvidenceRecord) :=
  match require_authenticated_recovered s with
  | Err e => [Err e]
  | Ok _ =>
      map (fun sequence =>
        let* r := of_option EvidenceCorrupt (index s !! sequence) in
        SegmentStore_resolve_authenticated_ref s r) (sequences s)
  end.

Definition SegmentStore_acquire_coverage_state (s : SegmentStore) (owner : token)
  : result store_exn (token * SegmentStore) :=
  require_authenticated_recovered s ;;*
  guard (bool_decide (coverage_state_owner s = None)) EvidenceStoreBusy ;;*
  Ok (lifecycle_identity s,
      mkStore (store_token s) (store_closed s) (verifier_ready s) (last_sequence s)
        (accepted_ref s) (sequences s) (index s) (record_positions s) (stored_records s)
        (Some owner) (lifecycle_identity s)).

Definition owns (s : SegmentStore) (owner lifecycle : token) : bool :=
  bool_decide (coverage_state_owner s = Some owner)
  && bool_decide (lifecycle = lifecycle_identity s).

(** [bisect_right(sequences, after)] *)
Definition bisect_right (l : list Z) (after : Z) : nat :=
  length (filter (fun q => q <= after) l).

Definition SegmentStore_resolve_next_coverage_record (s : SegmentStore)
    (owner lifecycle : token) (record : StoredEvidenceRecord) (after_ref : option EvidenceRef)
  : result store_exn StoredEvidenceRecord :=
  require_authenticated_recovered s ;;*
  guard (owns s owner lifecycle) EvidenceSealError ;;*
  catch_with (fun _ => EvidenceSealError)
    (exact_coverage_record_key record ;;*
     match after_ref with Some r => exact_coverage_ref_key r ;;* Ok tt | None => Ok tt end) ;;*
  let* position :=
    match after_ref with
    | None => Ok 0%nat
    | Some r =>
        SegmentStore_resolve_authenticated_ref s r ;;*
        Ok (bisect_right (sequences s) (ref_source_sequence r))
    end in
  let* sequence := of_option EvidenceSealError (sequences s !! position) in
  let* next_ref := of_option LookupError (index s !! sequence) in
  catch_with (fun _ => EvidenceCorrupt) (exact_coverage_ref_key next_ref) ;;*
  let* same := catch_with StorePyError (same_exact_coverage_ref (ref record) next_ref) in
  guard same EvidenceSealError ;;*
  let* resolved := SegmentStore_resolve_authenticated_ref s next_ref in
  let* same_record :=
    catch_with (fun _ => EvidenceCorrupt) (same_exact_coverage_record resolved record) in
  guard same_record EvidenceSealError ;;*
  Ok resolved.

Definition SegmentStore_validate_coverage_state_owner (s : SegmentStore)
    (owner lifecycle : token) (reducer_head : option EvidenceRef)
  : result store_exn (option EvidenceRef) :=
  require_authenticated_recovered s ;;*
  guard (owns s owner lifecycle) EvidenceSealError ;;*
  match reducer_head with
  | Some r => catch_with (fun _ => EvidenceSealError) (exact_coverage_ref_key r) ;;* Ok tt
  | None => Ok tt
  end ;;*
  let* authenticated_head :=
    if last_sequence s =? 0 then Ok None
    else
      let* r := of_option EvidenceCorrupt (accepted_ref s !! last_sequence s) in
      catch_with (fun _ => EvidenceCorrupt) (exact_coverage_ref_key r) ;;*
      SegmentStore_resolve_authenticated_ref s r ;;*
      Ok (Some r) in
  let* same_head :=
    match authenticated_head, reducer_head with
    | Some a, Some r => catch_with StorePyError (same_exact_coverage_ref a r)
    | None, None => Ok true
    | _, _ => Ok false
    end in
  guard same_head EvidenceSealError ;;*
  Ok authenticated_head.

Definition SegmentStore_release_coverage_state (s : SegmentStore) (owner lifecycle : token)
  : result store_exn SegmentStore :=
  guard (owns s owner lifecycle) EvidenceSealError ;;*
  Ok (mkStore (store_token s) (store_closed s) (verifier_ready s) (last_sequence s)
        (accepted_ref s) (sequences s) (index s) (record_positions s) (stored_records s)
        None (lifecycle_identity s)).

#[export] Instance SegmentStore_evidence : CoverageEvidence SegmentStore := {
  acquire_coverage_state := SegmentStore_acquire_coverage_state;
  iter_authenticated_records := SegmentStore_iter_authenticated_records;
  resolve_authenticated_ref := SegmentStore_resolve_authenticated_ref;
  resolve_next_coverage_record := SegmentStore_resolve_next_coverage_record;
  validate_coverage_state_owner := SegmentStore_validate_coverage_state_owner;
  release_coverage_state := SegmentStore_release_coverage_state;
  store_identity := store_token }.
