(* ===== verification/CoverageReducer.v ===== *)
(** * Coverage reduction

    The pure part of [coverage/state.py]: the frozen snapshot, the preparation of
    one stored record ([_prepare]) and the reducer step ([_transition]) with its
    parts ([_apply_docker_open], [_apply_docker_recovery],
    [_apply_sequence_gap_open], [_apply_sequence_gap_close],
    [_apply_generic_critical]).

    Binary floating point is IEEE double ([SpecFloat] with 53 and 1024). *)

From Stdlib Require Import SpecFloat.
From S2P Require Import Prelude Sha256 CanonicalJson JsonDecode Time Ipv4 Identities Contracts.
From S2P Require Import CoverageGrammar EvidenceStore.
Local Open Scope Z_scope.
Local Open Scope agmind_scope.

(** ** Failures *)

(** The [CoverageError] classes, and what else may propagate. *)
Inductive coverage_exn :=
| CoverageValidationError | CoverageConflict | CoverageAuthorityError | CoverageUnhealthy
| PyError (e : py_exn) | StoreError (e : store_exn).

#[export] Instance store_exn_eq_dec : EqDecision store_exn.
Proof. solve_decision. Defined.

#[export] Instance coverage_exn_eq_dec : EqDecision coverage_exn.
Proof. solve_decision. Defined.

(** ** Floating point *)

Abbreviation float := spec_float.
Definition f_add : float -> float -> float := SFadd 53 1024.
Definition f_div : float -> float -> float := SFdiv 53 1024.
Definition f_leb : float -> float -> bool := SFleb.
Definition f_ltb : float -> float -> bool := SFltb.
Definition f_of_int (z : Z) : float := binary_normalize 53 1024 z 0 false.

Definition f_is_finite (f : float) : bool :=
  match f with S754_zero _ | S754_finite _ _ _ => true | _ => false end.

(** [timedelta(microseconds=us).total_seconds()] *)
Definition total_seconds (us : Z) : float := f_div (f_of_int us) (f_of_int 1000000).

(** ** The snapshot *)

Record DockerOpen' := mkOpen { o_sequence : Z; o_opened_at : pystr; o_generation : Z }.

#[export] Instance DockerOpen_eq_dec : EqDecision DockerOpen'.
Proof. solve_decision. Defined.

Record DockerRecovery := mkRecovery {
  r_sequence : Z; r_opened_at : pystr; r_closed_at : pystr; r_generation : Z }.

#[export] Instance DockerRecovery_eq_dec : EqDecision DockerRecovery.
Proof. solve_decision. Defined.

Record CriticalInterval := mkCritical {
  scope_boot_id : option pystr; ci_component : pystr; ci_kind : pystr; ci_opened_at : pystr;
  ci_sequence : Z; latest_sequence : Z; ci_reason_code : pystr; ci_dropped_count : option Z;
  ci_fields_sha256 : pystr; ci_payload_hash : pystr }.

#[export] Instance CriticalInterval_eq_dec : EqDecision CriticalInterval.
Proof. solve_decision. Defined.

Record SequenceGap := mkGap {
  affected_start : Z; affected_end : Z; g_opened_at : pystr; open_sequence : Z;
  baseline_generation : Z; close_sequence : option Z; close_generation : option Z;
  close_time : option pystr }.

Record FalcoLease' := mkLease {
  l_sequence : Z; l_event_id : pystr; l_opened_at : pystr; l_ingest_time : pystr }.

Record CoverageSnapshot := mkSnapshot {
  s_host_id : option pystr; s_boot_id : option pystr; head_sequence : Z;
  head_ref : option EvidenceRef; boot_transition_sequence : option Z; observer_started : bool;
  docker_generation : option Z; docker_opens : list DockerOpen';
  docker_recoveries : list DockerRecovery; open_critical_intervals : list CriticalInterval;
  sequence_gaps : list SequenceGap; falco_lease : option FalcoLease';
  live_lease_deadline : option float; latest_falco_stop_sequence : option Z }.

Definition empty_snapshot : CoverageSnapshot :=
  mkSnapshot None None 0 None None false None [] [] [] [] None None None.

(** [dataclasses.replace(snapshot, field=...)], one helper per group of fields *)
Definition set_docker (s : CoverageSnapshot) (generation : option Z) (opens : list DockerOpen')
    (recoveries : list DockerRecovery) : CoverageSnapshot :=
  mkSnapshot (s_host_id s) (s_boot_id s) (head_sequence s) (head_ref s)
    (boot_transition_sequence s) (observer_started s) generation opens recoveries
    (open_critical_intervals s) (sequence_gaps s) (falco_lease s) (live_lease_deadline s)
    (latest_falco_stop_sequence s).

Definition set_gaps (s : CoverageSnapshot) (gaps : list SequenceGap) : CoverageSnapshot :=
  mkSnapshot (s_host_id s) (s_boot_id s) (head_sequence s) (head_ref s)
    (boot_transition_sequence s) (observer_started s) (docker_generation s) (docker_opens s)
    (docker_recoveries s) (open_critical_intervals s) gaps (falco_lease s)
    (live_lease_deadline s) (latest_falco_stop_sequence s).

Definition set_critical (s : CoverageSnapshot) (intervals : list CriticalInterval)
  : CoverageSnapshot :=
  mkSnapshot (s_host_id s) (s_boot_id s) (head_sequence s) (head_ref s)
    (boot_transition_sequence s) (observer_started s) (docker_generation s) (docker_opens s)
    (docker_recoveries s) intervals (sequence_gaps s) (falco_lease s)
    (live_lease_deadline s) (latest_falco_stop_sequence s).

Definition set_lease (s : CoverageSnapshot) (lease : option FalcoLease')
    (deadline : option float) (stop : option Z) : CoverageSnapshot :=
  mkSnapshot (s_host_id s) (s_boot_id s) (head_sequence s) (head_ref s)
    (boot_transition_sequence s) (observer_started s) (docker_generation s) (docker_opens s)
    (docker_recoveries s) (open_critical_intervals s) (sequence_gaps s) lease deadline stop.

(** Boot transition, observer start and Docker generation together *)
Definition set_epoch (s : CoverageSnapshot) (transition : option Z) (started : bool)
    (generation : option Z) : CoverageSnapshot :=
  mkSnapshot (s_host_id s) (s_boot_id s) (head_sequence s) (head_ref s) transition started
    generation (docker_opens s) (docker_recoveries s) (open_critical_intervals s)
    (sequence_gaps s) (falco_lease s) (live_lease_deadline s) (latest_falco_stop_sequence s).

Definition set_head (s : CoverageSnapshot) (host boot : pystr) (sequence : Z) (r : EvidenceRef)
  : CoverageSnapshot :=
  mkSnapshot (Some host) (Some boot) sequence (Some r) (boot_transition_sequence s)
    (observer_started s) (docker_generation s) (docker_opens s) (docker_recoveries s)
    (open_critical_intervals s) (sequence_gaps s) (falco_lease s) (live_lease_deadline s)
    (latest_falco_stop_sequence s).

(** ** Preparing one record *)

Record PreparedRecord := mkPrepared {
  p_ref : EvidenceRef; p_envelope : EventEnvelopeV1; p_coverage : option CoverageEventV1 }.

Definition MAX_CANONICAL_ENVELOPE_BYTES : Z := 64 * 1024.

(** The reference with the identity of the envelope it should name. *)
Definition expected_ref (r : EvidenceRef) (e : EventEnvelopeV1) (digest : pystr) : EvidenceRef :=
  mkRef (segment_id r) (segment_relative_path r) (frame_offset r) (frame_size r)
    (frame_sha256 r) (e_event_id e) (source_sequence e) digest.

Definition invalid {E A} (r : result E A) : result coverage_exn A :=
  catch_with (fun _ => CoverageValidationError) r.

(** [_prepare] *)
Definition prepare (record : StoredEvidenceRecord) : result coverage_exn PreparedRecord :=
  invalid (exact_coverage_ref_key (ref record)) ;;*
  let* envelope := invalid
    (let* e := decode_envelope (canonical_envelope record) MAX_CANONICAL_ENVELOPE_BYTES in
     let* decoded := canonical_json (JObj (envelope_dump e)) in
     let* stored := canonical_json (JObj (stored_envelope record)) in
     check (bool_decide (decoded = canonical_envelope record)
            && bool_decide (stored = canonical_envelope record)
            && py_eqb (JObj (envelope_dump e)) (JObj (stored_envelope record))) ;;*
     Ok e) in
  let digest := sha256_hex (canonical_envelope record) in
  let* same := catch_with PyError
    (same_exact_coverage_ref (ref record) (expected_ref (ref record) envelope digest)) in
  guard same CoverageValidationError ;;*
  let* coverage :=
    if bool_decide (event_type envelope = u "coverage") then
      invalid
        (let* c := CoverageEventV1_validate (normalized_fields envelope) in
         check (py_eqb (JObj (coverage_dump c)) (JObj (normalized_fields envelope))) ;;*
         Ok (Some c))
    else Ok None in
  Ok (mkPrepared (ref record) envelope coverage).

(** ** The parts of the step *)

Definition max_generation (recoveries : list DockerRecovery) : Z :=
  foldr Z.max 0 (map r_generation recoveries).

(** [_apply_docker_open] *)
Definition apply_docker_open (s : CoverageSnapshot) (opened : DockerOpen')
  : result coverage_exn CoverageSnapshot :=
  guard (negb (existsb (fun item => bool_decide (o_opened_at item = o_opened_at opened)
                                    && (o_generation item =? o_generation opened))
                 (docker_opens s))) CoverageConflict ;;*
  Ok (set_docker s None (docker_opens s ++ [opened]) (docker_recoveries s)).

Definition matches_recovery (recovery : DockerRecovery) (item : DockerOpen') : bool :=
  bool_decide (o_opened_at item = r_opened_at recovery)
  && (o_generation item =? r_generation recovery)
  && (o_sequence item <? r_sequence recovery).

(** [_apply_docker_recovery] *)
Definition apply_docker_recovery (s : CoverageSnapshot) (recovery : DockerRecovery)
  : result coverage_exn CoverageSnapshot :=
  match List.filter (matches_recovery recovery) (docker_opens s) with
  | [matched] =>
      guard (max_generation (docker_recoveries s) <? r_generation recovery) CoverageConflict ;;*
      let remaining :=
        List.filter (fun item => negb (bool_decide (item = matched))) (docker_opens s) in
      Ok (set_docker s (match remaining with [] => Some (r_generation recovery) | _ => None end)
            remaining (docker_recoveries s ++ [recovery]))
  | _ => Err CoverageConflict
  end.

(** [_apply_sequence_gap_open] *)
Definition apply_sequence_gap_open (s : CoverageSnapshot) (p : PreparedRecord)
    (c : CoverageEventV1) : result coverage_exn CoverageSnapshot :=
  match affected_source_sequence_start c, affected_source_sequence_end c with
  | Some start, Some stop =>
      guard (forallb (fun h => (stop <? affected_start h) || (affected_end h <? start))
               (sequence_gaps s)) CoverageConflict ;;*
      let opened := mkGap start stop (opened_at c) (source_sequence (p_envelope p))
        (max_generation (docker_recoveries s)) None None None in
      Ok (set_gaps s (sequence_gaps s ++ [opened]))
  | _, _ => Err CoverageValidationError
  end.

(** The gap a close names, still open *)
Definition matches_close (c : CoverageEventV1) (item : SequenceGap) : bool :=
  bool_decide (Some (affected_start item) = affected_source_sequence_start c)
  && bool_decide (Some (affected_end item) = affected_source_sequence_end c)
  && bool_decide (g_opened_at item = opened_at c)
  && bool_decide (close_sequence item = None).

Definition close_gap (sequence generation : Z) (time : pystr) (g : SequenceGap) : SequenceGap :=
  mkGap (affected_start g) (affected_end g) (g_opened_at g) (open_sequence g)
    (baseline_generation g) (Some sequence) (Some generation) (Some time).

(** [enumerate] from a position on *)
Fixpoint positions_of {A} (f : A -> bool) (i : nat) (l : list A) : list (nat * A) :=
  match l with
  | [] => []
  | x :: l => if f x then (i, x) :: positions_of f (S i) l else positions_of f (S i) l
  end.

(** [_apply_sequence_gap_close] *)
Definition apply_sequence_gap_close (s : CoverageSnapshot) (p : PreparedRecord)
    (c : CoverageEventV1) : result coverage_exn CoverageSnapshot :=
  let sequence := source_sequence (p_envelope p) in
  match positions_of (matches_close c) 0 (sequence_gaps s), reconcile_generation c, closed_at c with
  | [(position, opened)], Some generation, Some closed_at =>
      let recoveries :=
        List.filter (fun r =>
          (open_sequence opened <? r_sequence r) && (r_sequence r <? sequence)
          && (r_generation r =? generation) && bool_decide (r_closed_at r = closed_at))
          (docker_recoveries s) in
      guard (bool_decide (length recoveries = 1%nat)
             && (baseline_generation opened <? generation)
             && (datetime_us (g_opened_at opened) <=? datetime_us closed_at)) CoverageConflict ;;*
      Ok (set_gaps s (<[position := close_gap sequence generation closed_at opened]>
                        (sequence_gaps s)))
  | _, _, _ => Err CoverageConflict
  end.

(** The identity of a critical interval *)
Definition critical_key (boot : option pystr) (c : CoverageEventV1) (item : CriticalInterval)
  : bool :=
  bool_decide (scope_boot_id item = boot) && bool_decide (ci_component item = component c)
  && bool_decide (ci_kind item = kind c) && bool_decide (ci_opened_at item = opened_at c).

Definition update_critical (p : PreparedRecord) (c : CoverageEventV1) (o : CriticalInterval)
  : CriticalInterval :=
  mkCritical (scope_boot_id o) (ci_component o) (ci_kind o) (ci_opened_at o) (ci_sequence o)
    (source_sequence (p_envelope p)) (reason_code c) (dropped_count c)
    (normalized_fields_sha256 (p_envelope p)) (source_payload_hash (p_envelope p)).

(** May the counter of an open interval move from [prior] to [next]? *)
Definition counter_update_ok (counter_required : bool) (prior next : option Z) : bool :=
  if counter_required then
    match prior, next with
    | Some a, Some z => (a <? z) || ((a =? MAX_UINT64) && (z =? MAX_UINT64))
    | _, _ => false
    end
  else bool_decide (prior = None) && bool_decide (next = None).

(** May an interval whose counter is [prior] close with [next]? *)
Definition counter_close_ok (counter_required : bool) (prior next : option Z) : bool :=
  if counter_required then
    match prior, next with Some a, Some z => a <=? z | _, _ => false end
  else bool_decide (prior = None) && bool_decide (next = None).

(** [_apply_generic_critical] *)
Definition apply_generic_critical (s : CoverageSnapshot) (p : PreparedRecord)
    (c : CoverageEventV1) (cl : CoverageClassification) : result coverage_exn CoverageSnapshot :=
  let e := p_envelope p in
  let process := bool_decide (scope cl = Some ProcessScope) in
  let boot := if process then Some (boot_id e) else None in
  let intervals := open_critical_intervals s in
  let matching := positions_of (critical_key boot c) 0 intervals in
  match closed_at c with
  | None =>
      match matching with
      | [] =>
          let opened := mkCritical boot (component c) (kind c) (opened_at c) (source_sequence e)
            (source_sequence e) (reason_code c) (dropped_count c) (normalized_fields_sha256 e)
            (source_payload_hash e) in
          Ok (set_critical s (intervals ++ [opened]))
      | [(position, opened)] =>
          if bool_decide (ci_fields_sha256 opened = normalized_fields_sha256 e)
             && bool_decide (ci_payload_hash opened = source_payload_hash e)
          then Ok s
          else
            guard (counter_update_ok (counter_required cl) (ci_dropped_count opened)
                     (dropped_count c)) CoverageConflict ;;*
            guard (process || bool_decide (reason_code c = ci_reason_code opened))
              CoverageConflict ;;*
            Ok (set_critical s (<[position := update_critical p c opened]> intervals))
      | _ => Err CoverageConflict
      end
  | Some _ =>
      match matching with
      | [] => Ok s
      | [(position, opened)] =>
          guard (counter_close_ok (counter_required cl) (ci_dropped_count opened)
                   (dropped_count c)) CoverageConflict ;;*
          Ok (set_critical s (delete position intervals))
      | _ => Err CoverageConflict
      end
  end.

(** ** The step *)

(** [_validate_receipt] *)
Definition validate_receipt (value : float) : result coverage_exn float :=
  guard (f_is_finite value && f_leb (f_of_int 0) value) CoverageValidationError ;;* Ok value.

(** [_LEASE_WINDOW] in microseconds *)
Definition LEASE_WINDOW : Z := 15 * 1000000.

(** A boot change: process-scoped facts end, the observer must start again. *)
Definition change_boot (s : CoverageSnapshot) (sequence : Z) : CoverageSnapshot :=
  let s := set_epoch s (Some sequence) false None in
  let s := set_critical s
    (List.filter (fun item => bool_decide (scope_boot_id item = None))
       (open_critical_intervals s)) in
  set_lease s None None None.

(** The branch of [_transition] on a Falco heartbeat lease. *)
Definition apply_falco_lease (s : CoverageSnapshot) (e : EventEnvelopeV1) (c : CoverageEventV1)
    (live_receipt_monotonic : option float) : result coverage_exn CoverageSnapshot :=
  let opened := datetime_us (opened_at c) in
  let ingest := datetime_us (ingest_time e) in
  let lease_age := ingest - opened in
  guard ((0 <=? lease_age) && (lease_age <=? LEASE_WINDOW)) CoverageValidationError ;;*
  let* deadline :=
    match live_receipt_monotonic with
    | None => Ok None
    | Some value =>
        let* receipt := validate_receipt value in
        Ok (Some (f_add receipt (total_seconds (LEASE_WINDOW - lease_age))))
    end in
  let lease := mkLease (source_sequence e) (e_event_id e) (opened_at c) (ingest_time e) in
  Ok (set_lease s (Some lease) deadline (latest_falco_stop_sequence s)).

(** The branches of [_transition] on the classified action. *)
Definition apply_action (s : CoverageSnapshot) (p : PreparedRecord)
    (cl : CoverageClassification) (live_receipt_monotonic : option float)
  : result coverage_exn CoverageSnapshot :=
  let e := p_envelope p in
  let sequence := source_sequence e in
  match action cl, p_coverage p with
  | BootBoundary, _ =>
      Ok (set_lease (set_epoch s (Some sequence) false None) None None
            (latest_falco_stop_sequence s))
  | ObserverStart, _ =>
      Ok (set_lease (set_epoch s (boot_transition_sequence s) true None) None None
            (latest_falco_stop_sequence s))
  | DockerOpen, Some c =>
      match reconcile_generation c with
      | Some g => apply_docker_open s (mkOpen sequence (opened_at c) g)
      | None => Err CoverageValidationError
      end
  | DockerClose, Some c =>
      match reconcile_generation c, closed_at c with
      | Some g, Some closed =>
          apply_docker_recovery s (mkRecovery sequence (opened_at c) closed g)
      | _, _ => Err CoverageValidationError
      end
  | SequenceOpen, Some c => apply_sequence_gap_open s p c
  | SequenceClose, Some c => apply_sequence_gap_close s p c
  | FalcoStop, _ => Ok (set_lease s None None (Some sequence))
  | FalcoLease, Some c => apply_falco_lease s e c live_receipt_monotonic
  | GenericOpen, Some c | GenericClose, Some c => apply_generic_critical s p c cl
  | (DockerOpen | DockerClose | SequenceOpen | SequenceClose | FalcoLease | GenericOpen
    | GenericClose), None => Err CoverageValidationError
  | (Ignore | KeyTransition | FalcoStart | ObserverPressureRecovered
    | DockerLoggingDegraded), _ => Ok s
  end.

(** [_transition] *)
Definition transition (s : CoverageSnapshot) (p : PreparedRecord)
    (live_receipt_monotonic : option float) (live_receipt_allowed : bool)
  : result coverage_exn CoverageSnapshot :=
  let e := p_envelope p in
  guard (match s_host_id s with Some h => bool_decide (host_id e = h) | None => true end)
    CoverageConflict ;;*
  guard (head_sequence s <? source_sequence e) CoverageConflict ;;*
  guard (bool_decide (live_receipt_monotonic = None) || live_receipt_allowed)
    CoverageValidationError ;;*
  let* cl := catch_with PyError (classify_coverage_record e (p_coverage p)) in
  guard (bool_decide (live_receipt_monotonic = None) || bool_decide (action cl = FalcoLease))
    CoverageValidationError ;;*
  let boot_changed :=
    match s_boot_id s with Some b => negb (bool_decide (b = boot_id e)) | None => false end in
  let candidate := if boot_changed then change_boot s (source_sequence e) else s in
  let* candidate := apply_action candidate p cl live_receipt_monotonic in
  Ok (set_head candidate (host_id e) (boot_id e) (source_sequence e) (p_ref p)).

(** ** The invariant *)

(** Two reserved sequence ranges that share no number. *)
Definition ranges_apart (x y : Z * Z) : Prop := x.2 < y.1 \/ y.2 < x.1.

Definition gap_range (g : SequenceGap) : Z * Z := (affected_start g, affected_end g).

(** A closed gap names a Docker recovery that followed its opening, preceded its
    close, and advanced past the generation known when it opened. *)
Definition gap_justified (h : Z) (recoveries : list DockerRecovery) (g : SequenceGap) : Prop :=
  open_sequence g <= h
  /\ match close_sequence g with
     | None => close_generation g = None /\ close_time g = None
     | Some q => q <= h /\ exists r,
         r ∈ recoveries /\ open_sequence g < r_sequence r < q
         /\ close_generation g = Some (r_generation r)
         /\ close_time g = Some (r_closed_at r)
         /\ baseline_generation g < r_generation r
     end.

Definition recovery_before (x y : DockerRecovery) : Prop :=
  r_sequence x < r_sequence y /\ r_generation x < r_generation y.

(** What every reachable snapshot satisfies; [h] bounds the sequences seen. *)
Record wf_at (h : Z) (s : CoverageSnapshot) : Prop := {
  wf_opens_nodup : NoDup (map (fun o => (o_opened_at o, o_generation o)) (docker_opens s));
  wf_opens_sequences : StronglySorted Z.lt (map o_sequence (docker_opens s))
    /\ Forall (fun o => o_sequence o <= h) (docker_opens s);
  wf_recoveries : StronglySorted recovery_before (docker_recoveries s);
  wf_recoveries_bound : Forall (fun r => r_sequence r <= h) (docker_recoveries s);
  wf_generation : forall g, docker_generation s = Some g ->
    docker_opens s = [] /\ exists r, last (docker_recoveries s) = Some r /\ r_generation r = g;
  wf_gaps_apart : ForallOrdPairs ranges_apart (map gap_range (sequence_gaps s));
  wf_gaps_justified : Forall (gap_justified h (docker_recoveries s)) (sequence_gaps s);
  wf_critical : StronglySorted Z.lt (map ci_sequence (open_critical_intervals s))
    /\ Forall (fun i => ci_sequence i <= h) (open_critical_intervals s);
  wf_lease : forall l, falco_lease s = Some l ->
    l_sequence l <= h
    /\ match latest_falco_stop_sequence s with Some q => q < l_sequence l | None => True end;
  wf_deadline : live_lease_deadline s <> None -> falco_lease s <> None;
  wf_stop : forall q, latest_falco_stop_sequence s = Some q -> q <= h }.

Lemma sorted_snoc {A} (R : A -> A -> Prop) l x :
  StronglySorted R l -> Forall (fun y => R y x) l -> StronglySorted R (l ++ [x]).
Proof.
  induction 1 as [|y l Hs IH Hy]; intros Hx; simpl; [repeat constructor|].
  apply Forall_cons in Hx as [Hyx Hx]. constructor; [by apply IH|].
  apply Forall_app. split; [done|]. by constructor.
Qed.

Lemma sorted_sublist {A} (R : A -> A -> Prop) l1 l2 :
  sublist l1 l2 -> StronglySorted R l2 -> StronglySorted R l1.
Proof.
  intros Hsub. induction Hsub as [|x l1 l2 Hsub IH|x l1 l2 Hsub IH]; intros Hs; [done| |].
  - inversion Hs as [|? ? Hs' Hx]; subst. constructor; [by apply IH|].
    apply List.Forall_forall. intros y Hy. rewrite List.Forall_forall in Hx. apply Hx.
    apply list_elem_of_In. eapply elem_of_submseteq; [by apply list_elem_of_In|].
    by apply sublist_submseteq.
  - apply IH. by inversion Hs.
Qed.

Lemma Forall_sublist {A} (P : A -> Prop) l1 l2 : sublist l1 l2 -> Forall P l2 -> Forall P l1.
Proof.
  intros Hsub. induction Hsub; intros HF; [done| |]; apply Forall_cons in HF as [? ?]; auto.
Qed.

Lemma filter_sublist {A} (f : A -> bool) l : sublist (List.filter f l) l.
Proof. induction l as [|x l IH]; simpl; [constructor|]. by destruct (f x); constructor. Qed.

Lemma map_sublist {A B} (f : A -> B) l1 l2 : sublist l1 l2 -> sublist (map f l1) (map f l2).
Proof. induction 1; simpl; by constructor. Qed.

Lemma pairs_snoc {A} (R : A -> A -> Prop) l x :
  ForallOrdPairs R l -> Forall (fun y => R y x) l -> ForallOrdPairs R (l ++ [x]).
Proof.
  induction 1 as [|y l Hy Hs IH]; intros Hx; simpl; [repeat constructor|].
  apply Forall_cons in Hx as [Hyx Hx]. constructor; [|by apply IH].
  apply Forall_app. split; [done|]. by constructor.
Qed.

Lemma Forall_bound {A} (f : A -> Z) h h' l :
  h <= h' -> Forall (fun x => f x <= h) l -> Forall (fun x => f x <= h') l.
Proof. intros Hh HF. eapply Forall_impl; [exact HF|]. simpl. lia. Qed.

Lemma gap_justified_mono h h' rs rs' g :
  h <= h' -> (forall r, r ∈ rs -> r ∈ rs') -> gap_justified h rs g -> gap_justified h' rs' g.
Proof.
  intros Hh Hr [Ho Hc]. split; [lia|]. destruct (close_sequence g) as [q|]; [|done].
  destruct Hc as (Hq & r & Hin & Hrest). split; [lia|]. exists r. split; [by apply Hr|done].
Qed.

Lemma wf_at_mono h h' s : h <= h' -> wf_at h s -> wf_at h' s.
Proof.
  intros Hh [? [? ?] ? ? ? ? ? [? ?] Hl ? Hst]. split; try done.
  - split; [done|]. by eapply Forall_bound.
  - by eapply Forall_bound.
  - eapply Forall_impl; [eassumption|]. intros g. by apply gap_justified_mono.
  - split; [done|]. by eapply Forall_bound.
  - intros l E. destruct (Hl l E). split; [lia|done].
  - intros q E. specialize (Hst q E). lia.
Qed.

Lemma wf_empty : wf_at 0 empty_snapshot.
Proof. split; simpl; try done; try (split; constructor); constructor. Qed.

(** ** Every step preserves it *)

Lemma positions_of_sound {A} (f : A -> bool) i l j x :
  (j, x) ∈ positions_of f i l -> exists k, j = (i + k)%nat /\ l !! k = Some x /\ f x = true.
Proof.
  revert i. induction l as [|y l IH]; intros i; cbn [positions_of].
  { by intros ?%elem_of_nil. }
  destruct (f y) eqn:Hf.
  - rewrite elem_of_cons. intros [[= -> ->]|Hin].
    + exists 0%nat. by rewrite Nat.add_0_r.
    + apply IH in Hin as (k & -> & Hk). exists (S k). split; [lia|done].
  - intros Hin%IH. destruct Hin as (k & -> & Hk). exists (S k). split; [lia|done].
Qed.

Lemma positions_of_one {A} (f : A -> bool) l j x :
  positions_of f 0 l = [(j, x)] -> l !! j = Some x /\ f x = true.
Proof.
  intros H. destruct (positions_of_sound f 0 l j x) as (k & -> & Hk); [|done].
  rewrite H. constructor.
Qed.

Lemma max_generation_bound rs r : r ∈ rs -> r_generation r <= max_generation rs.
Proof.
  unfold max_generation. induction rs as [|r' rs IH]; simpl; [by intros ?%elem_of_nil|].
  rewrite elem_of_cons. intros [->|Hin]; [lia|]. specialize (IH Hin). lia.
Qed.

Lemma map_insert_same {A B} (f : A -> B) l i x y :
  l !! i = Some y -> f x = f y -> map f (<[i:=x]> l) = map f l.
Proof.
  intros Hi Hf. change (map f (<[i:=x]> l)) with (f <$> <[i:=x]> l).
  rewrite list_fmap_insert. apply list_insert_id. by rewrite list_lookup_fmap, Hi, Hf.
Qed.

Lemma sorted_snoc_lt {A} (f : A -> Z) l x h :
  StronglySorted Z.lt (map f l) -> Forall (fun y => f y <= h) l -> h < f x ->
  StronglySorted Z.lt (map f (l ++ [x])).
Proof.
  intros Hs Hb Hx. rewrite map_app. apply sorted_snoc; [done|].
  apply Forall_map. eapply Forall_impl; [exact Hb|]. simpl. lia.
Qed.

Lemma Forall_snoc {A} (P : A -> Prop) l x : Forall P l -> P x -> Forall P (l ++ [x]).
Proof. intros Hl Hx. apply Forall_app. by split; [|constructor]. Qed.

Lemma apply_docker_open_wf h s opened s' :
  wf_at h s -> h < o_sequence opened -> apply_docker_open s opened = Ok s' ->
  wf_at (o_sequence opened) s'.
Proof.
  intros Hwf Hlt H. unfold apply_docker_open in H.
  apply rbind_ok in H as (? & Hg%guard_ok & H). injection H as <-. apply negb_true_iff in Hg.
  destruct (wf_opens_sequences _ _ Hwf) as [Hos Hob].
  pose proof (wf_at_mono h (o_sequence opened) s ltac:(lia) Hwf) as
    [Hnd [_ Hob'] Hr Hrb Hgen Hga Hgj Hcr Hl Hdl Hst].
  split; try done; cbn [set_docker docker_opens docker_generation docker_recoveries].
  - rewrite map_app. apply NoDup_app. split; [done|]. split; [|apply NoDup_singleton].
    intros k Hk Hk'. apply list_elem_of_singleton in Hk' as ->.
    apply list_elem_of_fmap in Hk as (o & E & Hin). apply not_true_iff_false in Hg.
    apply Hg, existsb_exists. exists o. split; [by apply list_elem_of_In|].
    injection E as E1 E2. rewrite <- E1, <- E2, bool_decide_eq_true_2, Z.eqb_refl by done. done.
  - split; [by apply (sorted_snoc_lt _ _ _ h)|by apply Forall_snoc].
Qed.

Lemma apply_docker_recovery_wf h s recovery s' :
  wf_at h s -> h < r_sequence recovery -> apply_docker_recovery s recovery = Ok s' ->
  wf_at (r_sequence recovery) s'.
Proof.
  intros Hwf Hlt H. unfold apply_docker_recovery in H.
  destruct (List.filter (matches_recovery recovery) (docker_opens s)) as [|matched [|]];
    [done| |done].
  apply rbind_ok in H as (? & Hg%guard_ok & H). injection H as <-. breflect.
  pose proof (wf_recoveries_bound _ _ Hwf) as Hrb0.
  pose proof (wf_at_mono h (r_sequence recovery) s ltac:(lia) Hwf) as
    [Hnd [Hos Hob] Hr Hrb Hgen Hga Hgj Hcr Hl Hdl Hst].
  pose proof (filter_sublist (fun item => negb (bool_decide (item = matched))) (docker_opens s))
    as Hsub.
  set (remaining := List.filter _ (docker_opens s)) in *.
  split; try done; cbn [set_docker docker_opens docker_generation docker_recoveries sequence_gaps].
  - eapply sublist_NoDup; [exact Hnd|]. by apply map_sublist.
  - split; [eapply sorted_sublist; [|exact Hos]; by apply map_sublist|by eapply Forall_sublist].
  - apply sorted_snoc; [done|]. apply List.Forall_forall. intros r Hin. split.
    + rewrite List.Forall_forall in Hrb0. specialize (Hrb0 r Hin). lia.
    + apply list_elem_of_In, max_generation_bound in Hin. lia.
  - by apply Forall_snoc.
  - intros g. destruct remaining as [|o remaining']; [|done]. intros [= <-]. split; [done|].
    exists recovery. by rewrite last_snoc.
  - eapply Forall_impl; [exact Hgj|]. intros g. apply gap_justified_mono; [lia|].
    intros r Hin. apply elem_of_app. by left.
Qed.

Lemma apply_sequence_gap_open_wf h s p c s' :
  wf_at h s -> h < source_sequence (p_envelope p) -> apply_sequence_gap_open s p c = Ok s' ->
  wf_at (source_sequence (p_envelope p)) s'.
Proof.
  intros Hwf Hlt H. unfold apply_sequence_gap_open in H.
  destruct (affected_source_sequence_start c) as [start|]; [|done].
  destruct (affected_source_sequence_end c) as [stop|]; [|done].
  apply rbind_ok in H as (? & Hg%guard_ok & H). injection H as <-. rewrite forallb_forall in Hg.
  pose proof (wf_at_mono h (source_sequence (p_envelope p)) s ltac:(lia) Hwf) as
    [Hnd Hos Hr Hrb Hgen Hga Hgj Hcr Hl Hdl Hst].
  split; try done; cbn [set_gaps sequence_gaps].
  - rewrite map_app. apply pairs_snoc; [done|]. apply Forall_map, List.Forall_forall.
    intros g Hin. specialize (Hg g Hin). unfold ranges_apart, gap_range. cbn [fst snd affected_start affected_end].
    apply orb_true_iff in Hg as [?%Z.ltb_lt|?%Z.ltb_lt]; lia.
  - apply Forall_snoc; [done|]. by split; [cbn; lia|].
Qed.

Lemma apply_sequence_gap_close_wf h s p c s' :
  wf_at h s -> h < source_sequence (p_envelope p) -> apply_sequence_gap_close s p c = Ok s' ->
  wf_at (source_sequence (p_envelope p)) s'.
Proof.
  intros Hwf Hlt H. unfold apply_sequence_gap_close in H.
  destruct (positions_of (matches_close c) 0 (sequence_gaps s)) as [|[position opened] [|]] eqn:Ep;
    [done| |done].
  destruct (reconcile_generation c) as [generation|]; [|done].
  destruct (closed_at c) as [closed|]; [|done].
  apply rbind_ok in H as (? & Hg%guard_ok & H). injection H as <-. breflect.
  apply positions_of_one in Ep as [Hpos _].
  match goal with Hlen : length (List.filter ?f _) = 1%nat |- _ =>
    destruct (List.filter f (docker_recoveries s)) as [|r rs] eqn:Ef; [done|] end.
  assert (Hin : List.In r (r :: rs)) by (by left). rewrite <- Ef in Hin.
  apply filter_In in Hin as [Hin Hr1]. breflect.
  pose proof (wf_at_mono h (source_sequence (p_envelope p)) s ltac:(lia) Hwf) as
    [Hnd Hos Hr Hrb Hgen Hga Hgj Hcr Hl Hdl Hst].
  split; try done; cbn [set_gaps sequence_gaps].
  - by erewrite map_insert_same.
  - apply Forall_insert; [done|]. split.
    + pose proof (Forall_lookup_1 _ _ _ _ Hgj Hpos) as [Ho _]. exact Ho.
    + cbn [close_gap close_sequence close_generation close_time open_sequence baseline_generation].
      split; [lia|]. exists r. subst. split_and!; [by apply list_elem_of_In|lia..|done|done|lia].
Qed.

Lemma apply_generic_critical_wf h s p c cl s' :
  wf_at h s -> h < source_sequence (p_envelope p) -> apply_generic_critical s p c cl = Ok s' ->
  wf_at (source_sequence (p_envelope p)) s'.
Proof.
  intros Hwf Hlt H. destruct (wf_critical _ _ Hwf) as [Hcs Hcb].
  pose proof (wf_at_mono h (source_sequence (p_envelope p)) s ltac:(lia) Hwf) as Hwf'.
  pose proof Hwf' as [Hnd Hos Hr Hrb Hgen Hga Hgj [_ Hcb'] Hl Hdl Hst].
  unfold apply_generic_critical in H.
  set (matching := positions_of _ 0 (open_critical_intervals s)) in H.
  assert (Hm : forall position opened, matching = [(position, opened)] ->
    open_critical_intervals s !! position = Some opened)
    by (intros ? ? E; by apply positions_of_one in E as [? _]).
  clearbody matching. cbv zeta in H.
  destruct (closed_at c) as [closed|], matching as [|[position opened] [|]]; try done.
  - by injection H as <-.
  - apply rbind_ok in H as (? & _ & H). injection H as <-.
    split; try done; cbn [set_critical open_critical_intervals].
    pose proof (sublist_delete (open_critical_intervals s) position) as Hsub.
    split; [eapply sorted_sublist; [by apply map_sublist|done]|by eapply Forall_sublist].
  - injection H as <-. split; try done; cbn [set_critical open_critical_intervals].
    split; [by apply (sorted_snoc_lt _ _ _ h)|]. apply Forall_snoc; [done|]. cbn. lia.
  - destruct (_ && _); [by injection H as <-|].
    apply rbind_ok in H as (? & _ & H). apply rbind_ok in H as (? & _ & H). injection H as <-.
    specialize (Hm _ _ eq_refl).
    split; try done; cbn [set_critical open_critical_intervals]. split.
    + by erewrite map_insert_same.
    + apply Forall_insert; [done|]. by apply (Forall_lookup_1 _ _ _ _ Hcb' Hm).
Qed.

Lemma wf_set_epoch h s t b : wf_at h s -> wf_at h (set_epoch s t b None).
Proof. intros []. by split. Qed.

Lemma wf_clear_lease h s stop :
  (forall q, stop = Some q -> q <= h) -> wf_at h s -> wf_at h (set_lease s None None stop).
Proof. intros Hs []. by split. Qed.

Lemma wf_change_boot h s q : wf_at h s -> wf_at h (change_boot s q).
Proof.
  intros Hwf. apply wf_clear_lease; [done|].
  apply (wf_set_epoch h s (Some q) false) in Hwf.
  pose proof Hwf as [Hnd Hos Hr Hrb Hgen Hga Hgj [Hcs Hcb] Hl Hdl Hst].
  split; try done; cbn [set_critical open_critical_intervals].
  pose proof (filter_sublist (fun item => bool_decide (scope_boot_id item = None))
    (open_critical_intervals (set_epoch s (Some q) false None))) as Hsub.
  split; [eapply sorted_sublist; [by apply map_sublist|done]|by eapply Forall_sublist].
Qed.

Lemma apply_falco_lease_wf h s e c receipt s' :
  wf_at h s -> h < source_sequence e -> apply_falco_lease s e c receipt = Ok s' ->
  wf_at (source_sequence e) s'.
Proof.
  intros Hwf Hlt H. unfold apply_falco_lease in H.
  apply rbind_ok in H as (? & _ & H). apply rbind_ok in H as (deadline & _ & H). injection H as <-.
  pose proof (wf_stop _ _ Hwf) as Hst0.
  pose proof (wf_at_mono h (source_sequence e) s ltac:(lia) Hwf) as
    [Hnd Hos Hr Hrb Hgen Hga Hgj Hcr Hl Hdl Hst].
  split; try done; cbn [set_lease falco_lease latest_falco_stop_sequence].
  intros l [= <-]. cbn [l_sequence]. split; [lia|].
  destruct (latest_falco_stop_sequence s) as [q|]; [|done]. specialize (Hst0 q eq_refl). lia.
Qed.

Lemma apply_action_wf h s p cl receipt s' :
  wf_at h s -> h < source_sequence (p_envelope p) -> apply_action s p cl receipt = Ok s' ->
  wf_at (source_sequence (p_envelope p)) s'.
Proof.
  intros Hwf Hlt H.
  pose proof (wf_at_mono h (source_sequence (p_envelope p)) s ltac:(lia) Hwf) as Hwf'.
  unfold apply_action in H. destruct (action cl), (p_coverage p) as [c|]; try done;
    try (by injection H as <-);
    try (injection H as <-; apply wf_clear_lease; [|try apply wf_set_epoch; done];
         first [apply (wf_stop _ _ Hwf')|intros q [= <-]; lia]).
  - destruct (reconcile_generation c) as [g|]; [|done].
    by apply (apply_docker_open_wf h s) in H.
  - destruct (reconcile_generation c) as [g|]; [|done]. destruct (closed_at c) as [t|]; [|done].
    by apply (apply_docker_recovery_wf h s) in H.
  - by apply (apply_sequence_gap_open_wf h s) in H.
  - by apply (apply_sequence_gap_close_wf h s) in H.
  - by apply (apply_falco_lease_wf h s) in H.
  - by apply (apply_generic_critical_wf h s) in H.
  - by apply (apply_generic_critical_wf h s) in H.
Qed.

Lemma wf_set_head h s host boot q r : wf_at h s -> wf_at h (set_head s host boot q r).
Proof. intros []. by split. Qed.

Lemma transition_wf s p receipt allowed s' :
  wf_at (head_sequence s) s -> transition s p receipt allowed = Ok s' ->
  wf_at (head_sequence s') s'.
Proof.
  intros Hwf H. unfold transition in H.
  apply rbind_ok in H as (? & _ & H). apply rbind_ok in H as (? & Hlt%guard_ok & H).
  apply rbind_ok in H as (? & _ & H). apply rbind_ok in H as (cl & _ & H).
  apply rbind_ok in H as (? & _ & H). apply rbind_ok in H as (cand & Hc & H).
  injection H as <-. cbn [set_head head_sequence]. apply wf_set_head. apply Z.ltb_lt in Hlt.
  eapply (apply_action_wf (head_sequence s)); [|done|exact Hc].
  destruct (match s_boot_id s with Some _ => _ | None => _ end); [by apply wf_change_boot|done].
Qed.

(** ** Reachable snapshots *)

(** The histories a reducer can hold: records applied one after another. *)
Inductive reachable : CoverageSnapshot -> Prop :=
| reach_empty : reachable empty_snapshot
| reach_step s p receipt allowed s' :
    reachable s -> transition s p receipt allowed = Ok s' -> reachable s'.

Lemma reachable_wf s : reachable s -> wf_at (head_sequence s) s.
Proof.
  induction 1 as [|s p receipt allowed s' _ IH Hs]; [apply wf_empty|]. by eapply transition_wf.
Qed.

(** C33: in every reachable snapshot the reserved sequence ranges are pairwise
    disjoint, and a closed gap names exactly one kind of justification: a Docker
    recovery that followed the opening of the gap, preceded its close, carries the
    recorded generation and time, and advanced past the generation known when the
    gap opened.  A gap is never closed by its own report alone. *)
Theorem sequence_gaps_sound s :
  reachable s ->
  ForallOrdPairs ranges_apart (map gap_range (sequence_gaps s))
  /\ forall g q, g ∈ sequence_gaps s -> close_sequence g = Some q -> exists r,
       r ∈ docker_recoveries s
       /\ open_sequence g < r_sequence r < q /\ q <= head_sequence s
       /\ close_generation g = Some (r_generation r) /\ close_time g = Some (r_closed_at r)
       /\ baseline_generation g < r_generation r.
Proof.
  intros Hwf%reachable_wf. split; [apply Hwf|]. intros g q Hin Hq.
  pose proof (wf_gaps_justified _ _ Hwf) as Hj. rewrite Forall_forall in Hj.
  destruct (Hj g Hin) as [_ Hc]. rewrite Hq in Hc. destruct Hc as (Hh & r & Hr & ? & ? & ? & ?).
  by exists r.
Qed.

(** A reachable snapshot reports a Docker generation only when no reconcile
    gap is open, and then it is the generation of the latest recovery, which is
    the largest ever recovered; recovery generations and sequences strictly
    increase. *)
Theorem docker_generation_exact s g :
  reachable s -> docker_generation s = Some g ->
  docker_opens s = []
  /\ StronglySorted recovery_before (docker_recoveries s)
  /\ exists r, last (docker_recoveries s) = Some r /\ r_generation r = g
       /\ forall r', r' ∈ docker_recoveries s -> r_generation r' <= g.
Proof.
  intros Hwf%reachable_wf Hg. destruct (wf_generation _ _ Hwf g Hg) as (Ho & r & Hl & Hr).
  pose proof (wf_recoveries _ _ Hwf) as Hs. split_and!; [done..|]. exists r. split_and!; [done..|].
  intros r' Hin. apply last_Some in Hl as [l E]. rewrite E in *. clear -Hs Hin Hr.
  apply elem_of_app in Hin as [Hin|Hin%list_elem_of_singleton]; [|subst; lia].
  induction l as [|y l IH]; [by apply elem_of_nil in Hin|]. cbn [app] in Hs.
  inversion Hs as [|? ? Hs' Hy]; subst. apply elem_of_cons in Hin as [->|Hin]; [|by apply IH].
  rewrite Forall_forall in Hy. destruct (Hy r); [|lia]. apply elem_of_app. right. by constructor.
Qed.

Lemma transition_head s p receipt allowed s' :
  transition s p receipt allowed = Ok s' ->
  head_sequence s < head_sequence s'
  /\ head_sequence s' = source_sequence (p_envelope p)
  /\ s_host_id s' = Some (host_id (p_envelope p))
  /\ (s_host_id s = None \/ s_host_id s = s_host_id s')
  /\ s_boot_id s' = Some (boot_id (p_envelope p))
  /\ head_ref s' = Some (p_ref p).
Proof.
  unfold transition. intros H.
  apply rbind_ok in H as (? & Hh%guard_ok & H). apply rbind_ok in H as (? & Hlt%guard_ok & H).
  apply rbind_ok in H as (? & _ & H). apply rbind_ok in H as (cl & _ & H).
  apply rbind_ok in H as (? & _ & H). apply rbind_ok in H as (cand & _ & H).
  injection H as <-. cbn [set_head head_sequence s_host_id s_boot_id head_ref].
  apply Z.ltb_lt in Hlt. split_and!; try done.
  destruct (s_host_id s) as [h|]; [right|by left]. apply bool_decide_eq_true in Hh. congruence.
Qed.

(** Accepted records advance the history of one host in strict source order:
    the head moves to the sequence and reference of the applied record, strictly
    upwards, and the host never changes. *)
Theorem transition_advances s p receipt allowed s' :
  transition s p receipt allowed = Ok s' ->
  head_sequence s < head_sequence s'
  /\ head_sequence s' = source_sequence (p_envelope p)
  /\ head_ref s' = Some (p_ref p)
  /\ (s_host_id s = None \/ s_host_id s = s_host_id s').
Proof. intros (? & ? & _ & ? & _ & ?)%transition_head. done. Qed.

(** ** Critical intervals *)

(** The same interval, later: its identity is kept and its counter not lowered. *)
Definition counter_not_lowered (prior next : option Z) : Prop :=
  match prior, next with
  | None, None => True
  | Some a, Some z => a <= z
  | _, _ => False
  end.

Definition continues (i j : CriticalInterval) : Prop :=
  scope_boot_id j = scope_boot_id i /\ ci_component j = ci_component i
  /\ ci_kind j = ci_kind i /\ ci_opened_at j = ci_opened_at i
  /\ ci_sequence j = ci_sequence i
  /\ counter_not_lowered (ci_dropped_count i) (ci_dropped_count j).

(** A closing report for the interval that does not lower its counter. *)
Definition closes (c : CoverageEventV1) (i : CriticalInterval) : Prop :=
  closed_at c <> None /\ component c = ci_component i /\ kind c = ci_kind i
  /\ opened_at c = ci_opened_at i
  /\ counter_not_lowered (ci_dropped_count i) (dropped_count c).

Lemma counter_not_lowered_refl o : counter_not_lowered o o.
Proof. by destruct o; simpl; [lia|]. Qed.

Lemma continues_refl i : continues i i.
Proof. split_and!; try done. apply counter_not_lowered_refl. Qed.

Lemma counter_update_not_lowered required prior next :
  counter_update_ok required prior next = true -> counter_not_lowered prior next.
Proof.
  unfold counter_update_ok. destruct required, prior as [a|], next as [z|]; simpl; try done.
  intros [?%Z.ltb_lt|[?%Z.eqb_eq ?%Z.eqb_eq]%andb_true_iff]%orb_true_iff; lia.
Qed.

Lemma counter_close_not_lowered required prior next :
  counter_close_ok required prior next = true -> counter_not_lowered prior next.
Proof.
  unfold counter_close_ok. destruct required, prior as [a|], next as [z|]; simpl; try done.
  intros ?%Z.leb_le. lia.
Qed.

Lemma elem_of_delete {A} (l : list A) k x : x ∈ l -> x ∈ delete k l \/ l !! k = Some x.
Proof.
  intros [i Hi]%list_elem_of_lookup. destruct (decide (i = k)) as [->|Hne]; [by right|]. left.
  apply list_elem_of_lookup. destruct (decide (i < k)%nat).
  - exists i. by rewrite list_lookup_delete_lt by lia.
  - exists (i - 1)%nat. rewrite list_lookup_delete_ge by lia. by replace (S (i - 1)) with i by lia.
Qed.

Lemma elem_of_insert_list {A} (l : list A) k y z x :
  l !! k = Some y -> x ∈ l -> x ∈ <[k := z]> l \/ (x = y /\ z ∈ <[k := z]> l).
Proof.
  intros Hk [i Hi]%list_elem_of_lookup. destruct (decide (i = k)) as [->|Hne].
  - right. split; [congruence|]. apply list_elem_of_lookup. exists k.
    apply list_lookup_insert_eq. by eapply lookup_lt_Some.
  - left. apply list_elem_of_lookup. exists i. by rewrite list_lookup_insert_ne.
Qed.

Lemma apply_generic_critical_lifecycle s p c cl s' i :
  apply_generic_critical s p c cl = Ok s' -> i ∈ open_critical_intervals s ->
  (exists j, j ∈ open_critical_intervals s' /\ continues i j) \/ closes c i.
Proof.
  intros H Hi. unfold apply_generic_critical in H. cbv zeta in H.
  set (boot := if bool_decide _ then Some _ else None) in H. clearbody boot.
  destruct (positions_of (critical_key boot c) 0 (open_critical_intervals s))
    as [|[k o] [|]] eqn:Ep, (closed_at c) as [t|] eqn:Ec; try done.
  - injection H as <-. left. exists i. split; [done|apply continues_refl].
  - injection H as <-. left. exists i. split; [|apply continues_refl].
    cbn [set_critical open_critical_intervals]. apply elem_of_app. by left.
  - apply rbind_ok in H as (? & Hc%guard_ok & H). injection H as <-.
    apply positions_of_one in Ep as [Hk Hkey]. cbn [set_critical open_critical_intervals].
    destruct (elem_of_delete _ k i Hi) as [Hd|Hd].
    + left. exists i. split; [done|apply continues_refl].
    + right. rewrite Hk in Hd. injection Hd as ->. unfold critical_key in Hkey. breflect.
      split_and!; try congruence. by eapply counter_close_not_lowered.
  - apply positions_of_one in Ep as [Hk Hkey]. unfold critical_key in Hkey. breflect.
    destruct (_ && _); [injection H as <-; left; exists i; split; [done|apply continues_refl]|].
    apply rbind_ok in H as (? & Hc%guard_ok & H). apply rbind_ok in H as (? & _ & H).
    injection H as <-. left. cbn [set_critical open_critical_intervals].
    destruct (elem_of_insert_list _ k o (update_critical p c o) i Hk Hi) as [Hin|[-> Hin]].
    + exists i. split; [done|apply continues_refl].
    + eexists. split; [exact Hin|]. split_and!; try done. by eapply counter_update_not_lowered.
Qed.

(** Actions other than a generic interval leave the intervals alone. *)
Lemma apply_action_lifecycle s p cl receipt s' i :
  apply_action s p cl receipt = Ok s' -> i ∈ open_critical_intervals s ->
  (exists j, j ∈ open_critical_intervals s' /\ continues i j)
  \/ exists c, p_coverage p = Some c /\ closes c i.
Proof.
  intros H Hi.
  assert (Hsame : open_critical_intervals s' = open_critical_intervals s ->
    (exists j, j ∈ open_critical_intervals s' /\ continues i j)
    \/ exists c, p_coverage p = Some c /\ closes c i).
  { intros E. left. exists i. rewrite E. split; [done|apply continues_refl]. }
  unfold apply_action in H. destruct (action cl), (p_coverage p) as [c|]; try done;
    try (injection H as <-; by apply Hsame).
  - destruct (reconcile_generation c) as [g|]; [|done]. unfold apply_docker_open in H.
    apply rbind_ok in H as (? & _ & H). injection H as <-. by apply Hsame.
  - destruct (reconcile_generation c) as [g|], (closed_at c) as [t|]; try done.
    unfold apply_docker_recovery in H. destruct (List.filter _ _) as [|m [|]]; try done.
    apply rbind_ok in H as (? & _ & H). injection H as <-. by apply Hsame.
  - unfold apply_sequence_gap_open in H.
    destruct (affected_source_sequence_start c), (affected_source_sequence_end c); try done.
    apply rbind_ok in H as (? & _ & H). injection H as <-. by apply Hsame.
  - unfold apply_sequence_gap_close in H. cbv zeta in H.
    destruct (positions_of _ _ _) as [|[k o] [|]]; try done.
    destruct (reconcile_generation c), (closed_at c); try done.
    apply rbind_ok in H as (? & _ & H). injection H as <-. by apply Hsame.
  - unfold apply_falco_lease in H. cbv zeta in H. apply rbind_ok in H as (? & _ & H).
    apply rbind_ok in H as (? & _ & H). injection H as <-. by apply Hsame.
  - destruct (apply_generic_critical_lifecycle _ _ _ _ _ _ H Hi); [by left|right; eauto].
  - destruct (apply_generic_critical_lifecycle _ _ _ _ _ _ H Hi); [by left|right; eauto].
Qed.

(** An open critical interval never disappears quietly: after any accepted
    record it is still open with its identity and a counter that was not lowered,
    or the record is a close of that very interval whose count is no lower, or
    the boot changed and the interval belonged to a process of the old boot. *)
Theorem critical_interval_lifecycle s p receipt allowed s' i :
  transition s p receipt allowed = Ok s' -> i ∈ open_critical_intervals s ->
  (exists j, j ∈ open_critical_intervals s' /\ continues i j)
  \/ (exists c, p_coverage p = Some c /\ closes c i)
  \/ (s_boot_id s <> None /\ s_boot_id s <> s_boot_id s' /\ scope_boot_id i <> None).
Proof.
  intros H Hi. pose proof (transition_head _ _ _ _ _ H) as (_ & _ & _ & _ & Hb & _).
  unfold transition in H.
  apply rbind_ok in H as (? & _ & H). apply rbind_ok in H as (? & _ & H).
  apply rbind_ok in H as (? & _ & H). apply rbind_ok in H as (cl & _ & H).
  apply rbind_ok in H as (? & _ & H). apply rbind_ok in H as (cand & Hc & H).
  injection H as <-. cbn [set_head open_critical_intervals s_boot_id] in *.
  destruct (s_boot_id s) as [bo|] eqn:Eb.
  2:{ destruct (apply_action_lifecycle _ _ _ _ _ _ Hc Hi); auto. }
  destruct (negb (bool_decide (bo = boot_id (p_envelope p)))) eqn:En.
  2:{ destruct (apply_action_lifecycle _ _ _ _ _ _ Hc Hi); auto. }
  apply negb_true_iff, bool_decide_eq_false in En.
  destruct (decide (scope_boot_id i = None)) as [Hs|Hs].
  - destruct (apply_action_lifecycle _ _ _ _ _ i Hc) as [?|?]; auto.
    apply list_elem_of_In, filter_In. split; [by apply list_elem_of_In|].
    by apply bool_decide_eq_true.
  - right. right. split_and!; [done|congruence|done].
Qed.

(** ** A sample history *)

Definition sample_segment : pystr := u "33333333-3333-4333-8333-333333333333".

Definition sample_path : pystr :=
  u "segments/2026-01-01/00000000000000000001-" ++ sample_segment ++ u ".agseg".

(** A prepared record of the sample host; only its digests are placeholders, which
    the reducer compares and never recomputes. *)
Definition sample_prepared (type : pystr) (sequence : Z) (time : pystr) (generation : Z)
    (fields : document) (flags : list pystr) (c : option CoverageEventV1) : PreparedRecord :=
  let digest := hex_encode (be_encode 32 sequence) in
  let identifier := u "evt_" ++ digest in
  mkPrepared
    (mkRef sample_segment sample_path (4096 * sequence) 2048 digest identifier sequence digest)
    (mkEnvelope identifier type (u "agmind-observerd") (u "1.0") (u "key") 1 sample_host sample_boot
       sequence time time 5 None None None generation None fields digest [] flags digest
       (u "signature")) c.

Definition at_second (n : string) : pystr := u (String.append "2026-01-01T00:00:0" (String.append n "Z")).

Definition gap_coverage (closed : bool) : CoverageEventV1 :=
  if closed then
    mkCoverage (u "observer") (u "observer_sequence_gap") (u "INFO") (at_second "2")
      (Some (at_second "3")) (Some 40) (Some 41) None (u "reserved_sequence_reconciled") (Some 1)
  else
    mkCoverage (u "observer") (u "observer_sequence_gap") (u "CRITICAL") (at_second "2") None
      (Some 40) (Some 41) None (u "reserved_sequence_not_published") None.

Definition queue_drop (closed : option pystr) (dropped : Z) (reason : pystr) : CoverageEventV1 :=
  mkCoverage (u "falco-adapter") (u "falco_queue_drop") (u "CRITICAL") (at_second "4") closed
    None None (Some dropped) reason None.

Definition heartbeat : CoverageEventV1 :=
  mkCoverage (u "falco-adapter") (u "falco_heartbeat_lease") (u "INFO") (at_second "6")
    (Some (at_second "6")) None None None (u "valid_heartbeat") None.

Definition docker_flags : list pystr := [u "docker_event_gap"; u "reconcile_required"].
Definition gap_flags : list pystr := [u "reconcile_required"; u "sequence_gap"].

Definition report (sequence generation : Z) (c : CoverageEventV1) (flags : list pystr)
  : PreparedRecord :=
  sample_prepared (u "coverage") sequence (default (opened_at c) (closed_at c)) generation
    (coverage_dump c) flags (Some c).

(** Boot, start, a Docker gap opened and recovered around a sequence gap, a queue
    drop that grows and is closed, and a heartbeat lease received live. *)
Definition sample_history : list (PreparedRecord * option float) :=
  [(sample_prepared (u "observer_boot_boundary") 1 (at_second "0") 0
      [(u "schema_version", JStr (u "agmind.observer-boot-boundary.v1"));
       (u "kind", JStr (u "observer_boot_boundary"));
       (u "reason_code", JStr (u "observer_genesis")); (u "previous_source_sequence", JInt 0)]
      [u "boot_transition"; u "reconcile_required"] None, None);
   (sample_prepared (u "observer_start") 2 (at_second "0") 0
      [(u "kind", JStr (u "observer_start")); (u "reconcile_required", JBool true)]
      [u "reconcile_required"] None, None);
   (report 3 1 (docker_coverage (at_second "1") None (u "observer_startup") 1) docker_flags, None);
   (report 4 0 (gap_coverage false) gap_flags, None);
   (report 5 1 (docker_coverage (at_second "1") (Some (at_second "3")) (u "observer_startup") 1)
      docker_flags, None);
   (report 6 1 (gap_coverage true) gap_flags, None);
   (report 7 0 (queue_drop None 2 (u "routine_capacity_exceeded")) [u "falco_queue_drop"], None);
   (report 8 0 (queue_drop None 5 (u "routine_capacity_exceeded")) [u "falco_queue_drop"], None);
   (report 9 0 (queue_drop (Some (at_second "5")) 5 (u "routine_queue_recovered")) [], None);
   (report 10 0 heartbeat [], Some (f_of_int 100))].

(** The reducer over prepared records, with their live receipts *)
Fixpoint run (s : CoverageSnapshot) (records : list (PreparedRecord * option float))
  : result coverage_exn CoverageSnapshot :=
  match records with
  | [] => Ok s
  | (p, receipt) :: records => let* s := transition s p receipt true in run s records
  end.

Lemma run_reachable s records s' : reachable s -> run s records = Ok s' -> reachable s'.
Proof.
  revert s. induction records as [|[p receipt] records IH]; intros s Hs H; cbn [run] in H.
  - by injection H as <-.
  - apply rbind_ok in H as (s1 & Ht & H). apply (IH s1); [by eapply reach_step|done].
Qed.

Definition snapshot_after (n : nat) : CoverageSnapshot :=
  match run empty_snapshot (take n sample_history) with Ok s => s | Err _ => empty_snapshot end.

Lemma sample_reachable n : (n <= 10)%nat -> reachable (snapshot_after n).
Proof.
  intros Hn. unfold snapshot_after.
  assert (Hall : forallb (fun n => is_ok (run empty_snapshot (take n sample_history))) (seq 0 11)
    = true) by (vm_compute; reflexivity).
  rewrite forallb_forall in Hall. specialize (Hall n). rewrite in_seq in Hall.
  specialize (Hall ltac:(lia)). destruct (run _ _) as [s|e] eqn:E; [|done].
  eapply run_reachable; [constructor|exact E].
Qed.

(** ** Witnesses *)

Lemma sequence_gaps_witness : exists g r,
  g ∈ sequence_gaps (snapshot_after 6) /\ close_sequence g = Some 6
  /\ r ∈ docker_recoveries (snapshot_after 6) /\ open_sequence g < r_sequence r < 6.
Proof.
  destruct (sequence_gaps (snapshot_after 6)) as [|g l] eqn:E; [by vm_compute in E|].
  assert (Hq : close_sequence g = Some 6) by (vm_compute in E; injection E as <- _; reflexivity).
  destruct (sequence_gaps_sound (snapshot_after 6) (sample_reachable 6 ltac:(lia))) as [_ Hs].
  destruct (Hs g 6) as (r & Hr & Hb & _); [rewrite E; constructor|exact Hq|].
  exists g, r. split_and!; [constructor|done|done|lia|lia].
Defined.

Lemma docker_generation_witness : exists r,
  last (docker_recoveries (snapshot_after 5)) = Some r /\ r_generation r = 1
  /\ docker_opens (snapshot_after 5) = [].
Proof.
  destruct (docker_generation_exact (snapshot_after 5) 1) as (Ho & _ & r & Hl & Hr & _).
  - apply sample_reachable. lia.
  - vm_compute. reflexivity.
  - exists r. split_and!; [exact Hl|exact Hr|exact Ho].
Defined.

Lemma transition_advances_witness : exists p s',
  transition (snapshot_after 3) p None false = Ok s'
  /\ head_sequence (snapshot_after 3) < head_sequence s'.
Proof.
  exists (report 4 0 (gap_coverage false) gap_flags), (snapshot_after 4).
  assert (Ht : transition (snapshot_after 3) (report 4 0 (gap_coverage false) gap_flags) None false
    = Ok (snapshot_after 4)) by (vm_compute; reflexivity).
  split; [exact Ht|]. by destruct (transition_advances _ _ _ _ _ Ht).
Defined.

Lemma critical_lifecycle_witness : exists i,
  i ∈ open_critical_intervals (snapshot_after 7) /\ ci_dropped_count i = Some 2
  /\ exists j, j ∈ open_critical_intervals (snapshot_after 8) /\ continues i j.
Proof.
  destruct (open_critical_intervals (snapshot_after 7)) as [|i l] eqn:E; [by vm_compute in E|].
  set (p := report 8 0 (queue_drop None 5 (u "routine_capacity_exceeded")) [u "falco_queue_drop"]).
  assert (Ht : transition (snapshot_after 7) p None false = Ok (snapshot_after 8))
    by (vm_compute; reflexivity).
  exists i. split_and!; [constructor|vm_compute in E; injection E as <- _; reflexivity|].
  destruct (critical_interval_lifecycle _ _ _ _ _ i Ht) as [Hj|[(c & Hc & Hcl & _)|(_ & Hb & _)]].
  - rewrite E. constructor.
  - exact Hj.
  - injection Hc as <-. by destruct Hcl.
  - by destruct Hb; vm_compute.
Defined.
