(* ===== verification/CoverageState.v ===== *)
(** * The coverage state object

    [CoverageState], [CoverageAckBarrier] and mutation readiness of
    [coverage/state.py]: construction by replay or recovery, application of
    stored and live records with the permanent unhealthy fence, the
    acknowledgement barrier, closing, and the readiness decision with its
    snapshot digest.

    Methods take the store their [_evidence] attribute refers to as an argument
    and are written against the [CoverageEvidence] interface; a method returns the
    new state of the object together with its result or exception. *)

From Stdlib Require Import SpecFloat.
From stdpp Require Import gmap.
From S2P Require Import Prelude Sha256 CanonicalJson JsonDecode Time Ipv4 Identities Contracts.
From S2P Require Import CoverageGrammar EvidenceStore CoverageReducer.
Local Open Scope Z_scope.
Local Open Scope agmind_scope.

(** ** The object *)

Record CoverageState := mkState {
  self : token; snapshot : CoverageSnapshot; healthy : bool; closed : bool;
  evidence : option token; lifecycle : option token; capability : option token }.

Definition new_state (self : token) : CoverageState :=
  mkState self empty_snapshot true false None None None.

Definition set_snapshot (st : CoverageState) (s : CoverageSnapshot) : CoverageState :=
  mkState (self st) s (healthy st) (closed st) (evidence st) (lifecycle st) (capability st).

Definition fence (st : CoverageState) : CoverageState :=
  mkState (self st) (snapshot st) false (closed st) (evidence st) (lifecycle st) (capability st).

(** [except CoverageError: raise; except (TypeError, ValueError, OverflowError)] *)
Definition as_validation (e : coverage_exn) : coverage_exn :=
  match e with PyError _ => CoverageValidationError | _ => e end.

(** [except EvidenceStoreError as error: raise CoverageAuthorityError] *)
Definition as_authority (e : store_exn) : coverage_exn :=
  match e with
  | StorePyError e => PyError e
  | LookupError => StoreError LookupError
  | _ => CoverageAuthorityError
  end.

(** [_require_usable] *)
Definition require_usable (st : CoverageState) : result coverage_exn unit :=
  guard (healthy st) CoverageUnhealthy ;;*
  guard (negb (closed st)) CoverageAuthorityError.

(** The loop of [rebuild] and [open_and_recover] over an iterable that may raise. *)
Fixpoint replay_items (s : CoverageSnapshot) (items : list (result store_exn StoredEvidenceRecord))
  : result coverage_exn CoverageSnapshot :=
  match items with
  | [] => Ok s
  | item :: items =>
      let* record := catch_with as_authority item in
      let* p := prepare record in
      let* s := transition s p None false in
      replay_items s items
  end.

Definition replay (s : CoverageSnapshot) (records : list StoredEvidenceRecord)
  : result coverage_exn CoverageSnapshot :=
  replay_items s (map Ok records).

(** [CoverageState.rebuild] *)
Definition rebuild (self : token) (records : list StoredEvidenceRecord)
  : result coverage_exn CoverageState :=
  let* s := catch_with as_validation (replay empty_snapshot records) in
  Ok (set_snapshot (new_state self) s).

Section WithEvidence.
Context {S : Type} `{CoverageEvidence S}.

(** [CoverageState.open_and_recover]: the fresh object, its capability token, and
    the store before and after.  On failure an acquired owner is released. *)
Definition open_and_recover (store : S) (self capability : token)
  : S * result coverage_exn CoverageState :=
  match acquire_coverage_state store self with
  | Err e => (store, Err (as_validation (as_authority e)))
  | Ok (lifecycle, store') =>
      let recovered : result coverage_exn CoverageSnapshot :=
        let* s := replay_items empty_snapshot (iter_authenticated_records store') in
        catch_with as_authority
          (validate_coverage_state_owner store' self lifecycle (head_ref s)) ;;*
        Ok s in
      match recovered with
      | Ok s =>
          (store', Ok (mkState self s true false (Some (store_identity store')) (Some lifecycle)
                         (Some capability)))
      | Err e =>
          match release_coverage_state store' self lifecycle with
          | Ok store'' => (store'', Err (as_validation e))
          | Err e' => (store', Err (StoreError e'))
          end
      end
  end.

(** The body of [apply] up to the new snapshot. *)
Definition apply_candidate (st : CoverageState) (store : S) (record : StoredEvidenceRecord)
    (live_receipt_monotonic : option float) : result coverage_exn CoverageSnapshot :=
  let preceding := snapshot st in
  let* selected :=
    match evidence st with
    | None => Ok record
    | Some _ =>
        match lifecycle st with
        | None => Err CoverageAuthorityError
        | Some l =>
            catch_with as_authority
              (resolve_next_coverage_record store (self st) l record (head_ref preceding))
        end
    end in
  let* p := prepare selected in
  transition preceding p live_receipt_monotonic
    (match evidence st with Some _ => true | None => false end).

(** [apply] *)
Definition apply (st : CoverageState) (store : S) (record : StoredEvidenceRecord)
    (live_receipt_monotonic : option float) : CoverageState * result coverage_exn unit :=
  match require_usable st with
  | Err e => (st, Err e)
  | Ok _ =>
      match apply_candidate st store record live_receipt_monotonic with
      | Ok candidate => (set_snapshot st candidate, Ok tt)
      | Err e => (fence st, Err (as_validation e))
      end
  end.

(** The body of [_apply_live_accepted] up to the new snapshot. *)
Definition live_candidate (st : CoverageState) (store : S) (r : EvidenceRef)
    (receipt_monotonic : option float) : result coverage_exn CoverageSnapshot :=
  let preceding := snapshot st in
  guard (bool_decide (evidence st = Some (store_identity store))
         && match receipt_monotonic with
            | Some v => f_is_finite v && f_leb (f_of_int 0) v
            | None => true
            end) CoverageAuthorityError ;;*
  let* l := of_option CoverageAuthorityError (lifecycle st) in
  let* record := catch_with as_authority (resolve_authenticated_ref store r) in
  let* selected := catch_with as_authority
    (resolve_next_coverage_record store (self st) l record (head_ref preceding)) in
  let* p := prepare selected in
  let selected_receipt :=
    match p_coverage p with
    | Some c => if bool_decide (kind c = u "falco_heartbeat_lease")
                then receipt_monotonic else None
    | None => None
    end in
  transition preceding p selected_receipt true.

(** [_apply_live_accepted] *)
Definition apply_live_accepted (st : CoverageState) (store : S) (r : EvidenceRef)
    (receipt_monotonic : option float) : CoverageState * result coverage_exn unit :=
  match require_usable st with
  | Err e => (st, Err e)
  | Ok _ =>
      match live_candidate st store r receipt_monotonic with
      | Ok candidate => (set_snapshot st candidate, Ok tt)
      | Err e => (fence st, Err (as_validation e))
      end
  end.

(** ** The acknowledgement barrier *)

Record CoverageAckBarrier := mkBarrier {
  barrier_state : token; barrier_evidence : token; barrier_lifecycle : token;
  barrier_capability : token }.

(** [ack_barrier_capability] *)
Definition ack_barrier_capability (st : CoverageState) (store : S)
  : result coverage_exn CoverageAckBarrier :=
  require_usable st ;;*
  match evidence st, lifecycle st, capability st with
  | Some e, Some l, Some t =>
      catch_with as_authority
        (validate_coverage_state_owner store (self st) l (head_ref (snapshot st))) ;;*
      Ok (mkBarrier (self st) e l t)
  | _, _, _ => Err CoverageAuthorityError
  end.

Definition gap_is_open (g : SequenceGap) : bool := bool_decide (close_sequence g = None).

(** [min((...), default=None)] *)
Definition min_default (l : list Z) : option Z :=
  match l with [] => None | x :: l => Some (foldl Z.min x l) end.

(** [_first_unclosed_sequence_gap] *)
Definition first_unclosed_sequence_gap (st : CoverageState) (store : S)
    (l t : token) : result coverage_exn (option Z) :=
  guard (healthy st) CoverageUnhealthy ;;*
  guard (negb (closed st) && bool_decide (evidence st = Some (store_identity store))
         && bool_decide (lifecycle st = Some l) && bool_decide (capability st = Some t))
    CoverageAuthorityError ;;*
  catch_with as_authority
    (validate_coverage_state_owner store (self st) l (head_ref (snapshot st))) ;;*
  Ok (min_default (map open_sequence
        (List.filter gap_is_open (sequence_gaps (snapshot st))))).

(** [CoverageAckBarrier._first_unclosed_sequence_gap] *)
Definition barrier_first_unclosed (b : CoverageAckBarrier) (st : CoverageState) (store : S)
  : result coverage_exn (option Z) :=
  first_unclosed_sequence_gap st store (barrier_lifecycle b) (barrier_capability b).

(** ** Closing *)

(** [_invalidate] *)
Definition invalidate (st : CoverageState) : CoverageState :=
  mkState (self st) (snapshot st) (healthy st) true None None None.

(** [close]: the owner is released if bound; the object is closed either way. *)
Definition close (st : CoverageState) (store : S)
  : CoverageState * S * result coverage_exn unit :=
  if closed st then (st, store, Ok tt)
  else
    match evidence st, lifecycle st with
    | Some _, Some l =>
        match release_coverage_state store (self st) l with
        | Ok store' => (invalidate st, store', Ok tt)
        | Err e => (invalidate st, store, Err (as_authority e))
        end
    | _, _ => (invalidate st, store, Ok tt)
    end.

(** [_close_from_segment_store] *)
Definition close_from_segment_store (st : CoverageState) (store : S) (l : token)
  : CoverageState * S * result coverage_exn unit :=
  if closed st then (st, store, Ok tt)
  else
    match evidence st with
    | Some _ =>
        if bool_decide (lifecycle st = Some l) then
          match release_coverage_state store (self st) l with
          | Ok store' => (invalidate st, store', Ok tt)
          | Err e => (st, store, Err (StoreError e))
          end
        else (st, store, Err CoverageAuthorityError)
    | None => (st, store, Err CoverageAuthorityError)
    end.

End WithEvidence.

(** ** Mutation readiness *)

(** [decimal.Decimal]: coefficient and exponent, or a special value *)
Inductive decimal := DecFinite (coefficient exponent : Z) | DecInfinite (negative : bool) | DecNaN.

Definition dec_is_finite (d : decimal) : bool :=
  match d with DecFinite _ _ => true | _ => false end.

(** The coefficient of a finite decimal at exponent [e], for [e] not above its own. *)
Definition dec_scaled (d : decimal) (e : Z) : Z :=
  match d with DecFinite c x => c * 10 ^ (x - e) | _ => 0 end.

Definition dec_exponent (d : decimal) : Z := match d with DecFinite _ x => x | _ => 0 end.

(** [x <= y] for finite decimals *)
Definition dec_leb (x y : decimal) : bool :=
  let e := Z.min (dec_exponent x) (dec_exponent y) in dec_scaled x e <=? dec_scaled y e.

(** A [datetime]: microseconds since the Unix epoch, and whether it is exact UTC
    (time zone, offset and fold). *)
Record datetime := mkDatetime { dt_us : Z; dt_is_utc : bool }.

Record MutationReadinessContext := mkContext {
  decision_utc : datetime; decision_monotonic : float; clock_healthy : bool;
  clock_uncertainty_seconds : option decimal; max_clock_uncertainty_seconds : decimal;
  evidence_head : Z; acceptance_cursor : Z; confirmed_through : Z; projection_cursor : Z;
  evidence_healthy : bool; repair_pending : bool; retention_pending : bool; key_healthy : bool;
  ack_journal_healthy : bool; projection_healthy : bool }.

(** [not x.is_finite() or x < 0] is false *)
Definition dec_nonneg_ok (d : decimal) : bool :=
  dec_is_finite d && match d with DecFinite c _ => 0 <=? c | _ => false end.

(** [_validate_mutation_readiness_context] *)
Definition validate_mutation_readiness_context (ctx : MutationReadinessContext)
  : result coverage_exn unit :=
  guard (dt_is_utc (decision_utc ctx)) CoverageValidationError ;;*
  guard (f_is_finite (decision_monotonic ctx)
         && negb (f_ltb (decision_monotonic ctx) (f_of_int 0))) CoverageValidationError ;;*
  guard (match clock_uncertainty_seconds ctx with
         | Some d => dec_nonneg_ok d | None => true end) CoverageValidationError ;;*
  guard (dec_nonneg_ok (max_clock_uncertainty_seconds ctx)) CoverageValidationError ;;*
  guard (is_uint64 (evidence_head ctx) && is_uint64 (acceptance_cursor ctx)
         && is_uint64 (confirmed_through ctx) && is_uint64 (projection_cursor ctx))
    CoverageValidationError.

Record MutationReadiness := mkReadiness {
  ready : bool; reason_codes : list pystr; m_evidence_head : Z; m_acceptance_cursor : Z;
  m_confirmed_through : Z; m_projection_cursor : Z; observer_reconcile_generation : option Z;
  coverage_snapshot_sha256 : pystr }.

(** [_canonical_decision_utc] *)
Definition canonical_decision_utc (us : Z) : pystr :=
  let seconds := us / 1000000 in
  let microsecond := us mod 1000000 in
  let calendar := fromordinal (seconds / SECONDS_PER_DAY + UNIX_EPOCH_ORDINAL) in
  let second_of_day := seconds mod SECONDS_PER_DAY in
  pad 4 calendar.1 ++ [45] ++ pad 2 calendar.2.1 ++ [45] ++ pad 2 calendar.2.2
  ++ [84] ++ pad 2 (second_of_day / 3600) ++ [58] ++ pad 2 (second_of_day mod 3600 / 60)
  ++ [58] ++ pad 2 (second_of_day mod 60)
  ++ (if microsecond =? 0 then [] else [46] ++ pad 6 microsecond) ++ [90].

(** The facts about the Falco lease that readiness uses. *)
Record lease_facts := mkFacts {
  lease_present : bool; deadline_present : bool; lease_after_stop : bool;
  lease_ingest_valid : bool; lease_wall_valid : bool; lease_monotonic_valid : bool;
  lease_too_old : bool }.

Definition lease_facts_of (s : CoverageSnapshot) (ctx : MutationReadinessContext) : lease_facts :=
  let deadline_present := match live_lease_deadline s with Some _ => true | None => false end in
  match falco_lease s with
  | None => mkFacts false deadline_present false false false false false
  | Some lease =>
      let opened := datetime_us (l_opened_at lease) in
      let ingest := datetime_us (l_ingest_time lease) in
      let decision := dt_us (decision_utc ctx) in
      let ingest_age := ingest - opened in
      let decision_age := decision - opened in
      mkFacts true deadline_present
        (match latest_falco_stop_sequence s with
         | None => true | Some q => q <? l_sequence lease end)
        ((opened <=? ingest) && (ingest <=? decision)
         && ((0 <=? ingest_age) && (ingest_age <=? LEASE_WINDOW)))
        ((0 <=? decision_age) && (decision_age <=? LEASE_WINDOW))
        (match live_lease_deadline s with
         | Some d => f_leb (decision_monotonic ctx) d | None => false end)
        ((LEASE_WINDOW <? decision_age)
         || match live_lease_deadline s with
            | Some d => f_ltb d (decision_monotonic ctx) | None => false end)
  end.

Definition is_none {A} (o : option A) : bool := match o with None => true | Some _ => false end.

(** [coverage_reducer_healthy] *)
Definition coverage_reducer_healthy (st : CoverageState) (ctx : MutationReadinessContext) : bool :=
  healthy st && negb (closed st) && (head_sequence (snapshot st) =? evidence_head ctx).

Definition uncertainty_exceeded (ctx : MutationReadinessContext) : bool :=
  match clock_uncertainty_seconds ctx with
  | Some d => negb (dec_leb d (max_clock_uncertainty_seconds ctx))
  | None => false
  end.

(** Each reason code with the condition that adds it. *)
Definition readiness_reasons (st : CoverageState) (ctx : MutationReadinessContext)
  : list (string * bool) :=
  let s := snapshot st in
  let f := lease_facts_of s ctx in
  [("ack_journal_unhealthy"%string, negb (ack_journal_healthy ctx));
   ("clock_uncertainty_exceeded"%string, uncertainty_exceeded ctx);
   ("clock_unhealthy"%string, negb (clock_healthy ctx) || is_none (clock_uncertainty_seconds ctx));
   ("coverage_reducer_unhealthy"%string, negb (coverage_reducer_healthy st ctx));
   ("critical_coverage_open"%string, negb (bool_decide (open_critical_intervals s = [])));
   ("cursor_acceptance_confirmed_mismatch"%string,
     negb (acceptance_cursor ctx =? confirmed_through ctx));
   ("cursor_confirmed_projection_mismatch"%string,
     negb (confirmed_through ctx =? projection_cursor ctx));
   ("cursor_evidence_acceptance_mismatch"%string, negb (evidence_head ctx =? acceptance_cursor ctx));
   ("docker_reconcile_missing"%string,
     is_none (boot_transition_sequence s) || is_none (docker_generation s)
     || negb (bool_decide (docker_opens s = [])));
   ("evidence_unhealthy"%string, negb (evidence_healthy ctx));
   ("repair_pending"%string, repair_pending ctx);
   ("retention_pending"%string, retention_pending ctx);
   ("key_unhealthy"%string, negb (key_healthy ctx));
   ("observer_start_missing"%string,
     is_none (boot_transition_sequence s) || negb (observer_started s));
   ("projection_unhealthy"%string, negb (projection_healthy ctx));
   ("structural_gap_open"%string, existsb gap_is_open (sequence_gaps s));
   ("falco_lease_ingest_invalid"%string, lease_present f && negb (lease_ingest_valid f));
   ("falco_lease_stale"%string, lease_present f && lease_too_old f);
   ("falco_lease_missing"%string,
     negb (lease_present f) || negb (deadline_present f) || negb (lease_after_stop f))].

Definition live_lease_usable (f : lease_facts) : bool :=
  lease_present f && deadline_present f && lease_after_stop f && lease_ingest_valid f
  && lease_wall_valid f && lease_monotonic_valid f.

(** [tuple(sorted(reasons))] *)
Definition sorted_reasons (st : CoverageState) (ctx : MutationReadinessContext) : list pystr :=
  sort_str (map (fun r => u r.1) (List.filter snd (readiness_reasons st ctx))).

(** ** The signed payload of a readiness decision *)

(** The sort key of one open interval and its payload *)
Record interval_row := mkRow {
  row_class : pystr; row_component : pystr; row_kind : pystr; row_opened_at : pystr;
  row_sequence : Z; row_generation : Z; row_payload : json }.

Definition docker_row (o : DockerOpen') : interval_row :=
  mkRow (u "docker") (u "observer") (u "docker_reconcile_gap") (o_opened_at o) (o_sequence o)
    (o_generation o)
    (JObj [(u "interval_class", JStr (u "docker")); (u "component", JStr (u "observer"));
           (u "kind", JStr (u "docker_reconcile_gap")); (u "opened_at", JStr (o_opened_at o));
           (u "source_sequence", JInt (o_sequence o));
           (u "reconcile_generation", JInt (o_generation o))]).

Definition critical_row (i : CriticalInterval) : interval_row :=
  mkRow (u "generic") (ci_component i) (ci_kind i) (ci_opened_at i) (ci_sequence i) 0
    (JObj [(u "interval_class", JStr (u "generic")); (u "component", JStr (ci_component i));
           (u "kind", JStr (ci_kind i)); (u "opened_at", JStr (ci_opened_at i));
           (u "source_sequence", JInt (ci_sequence i)); (u "reconcile_generation", JNull)]).

(** Lexicographic comparison: decided by [x] against [y], else by [rest] *)
Definition then_leb_str (x y : pystr) (rest : bool) : bool :=
  if bool_decide (x = y) then rest else str_leb x y.

Definition then_leb_int (x y : Z) (rest : bool) : bool := if x =? y then rest else x <? y.

(** Tuples compare by key; rows with equal keys have equal payloads
    ([row_key_determines_payload]), so the payloads are never ordered. *)
Definition row_leb (x y : interval_row) : bool :=
  then_leb_str (row_class x) (row_class y)
  (then_leb_str (row_component x) (row_component y)
  (then_leb_str (row_kind x) (row_kind y)
  (then_leb_str (row_opened_at x) (row_opened_at y)
  (then_leb_int (row_sequence x) (row_sequence y)
  (then_leb_int (row_generation x) (row_generation y) true))))).

Definition interval_rows (s : CoverageSnapshot) : list interval_row :=
  map docker_row (docker_opens s) ++ map critical_row (open_critical_intervals s).

Definition open_critical_payload (s : CoverageSnapshot) : list json :=
  map row_payload (py_sort row_leb (interval_rows s)).

Definition gap_leb (x y : SequenceGap) : bool :=
  then_leb_int (affected_start x) (affected_start y)
  (then_leb_int (affected_end x) (affected_end y)
  (then_leb_str (g_opened_at x) (g_opened_at y)
  (then_leb_int (open_sequence x) (open_sequence y) true))).

Definition gap_payload (g : SequenceGap) : json :=
  JObj [(u "affected_source_sequence_start", JInt (affected_start g));
        (u "affected_source_sequence_end", JInt (affected_end g));
        (u "opened_at", JStr (g_opened_at g));
        (u "open_source_sequence", JInt (open_sequence g));
        (u "baseline_recovery_generation", JInt (baseline_generation g))].

Definition open_gaps_payload (s : CoverageSnapshot) : list json :=
  map gap_payload (py_sort gap_leb (List.filter gap_is_open (sequence_gaps s))).

Definition lease_payload (usable : bool) (l : FalcoLease') : json :=
  JObj [(u "source_sequence", JInt (l_sequence l)); (u "event_id", JStr (l_event_id l));
        (u "opened_at", JStr (l_opened_at l)); (u "ingest_time", JStr (l_ingest_time l));
        (u "live_usable", JBool usable)].

Definition json_opt {A} (f : A -> json) (o : option A) : json :=
  match o with Some x => f x | None => JNull end.

Definition COVERAGE_SNAPSHOT_SCHEMA : pystr := u "agmind.coverage-snapshot.v1".
Definition COVERAGE_SNAPSHOT_DOMAIN : bytes := bstr "AGMIND_COVERAGE_SNAPSHOT_V1" ++ [Byte.x00].

(** The [cursors] and [health_bits] members *)
Definition cursors_payload (ctx : MutationReadinessContext) : document :=
  [(u "evidence_head", JInt (evidence_head ctx));
        (u "acceptance_cursor", JInt (acceptance_cursor ctx));
        (u "confirmed_through", JInt (confirmed_through ctx));
        (u "projection_cursor", JInt (projection_cursor ctx))].

Definition health_payload (st : CoverageState) (ctx : MutationReadinessContext) : json :=
  JObj [(u "ack_journal_healthy", JBool (ack_journal_healthy ctx));
        (u "clock_healthy", JBool (clock_healthy ctx));
        (u "clock_uncertainty_present", JBool (negb (is_none (clock_uncertainty_seconds ctx))));
        (u "clock_uncertainty_within_limit",
          JBool (match clock_uncertainty_seconds ctx with
                 | Some d => dec_leb d (max_clock_uncertainty_seconds ctx)
                 | None => false end));
        (u "coverage_reducer_healthy", JBool (coverage_reducer_healthy st ctx));
        (u "evidence_healthy", JBool (evidence_healthy ctx));
        (u "key_healthy", JBool (key_healthy ctx));
        (u "projection_healthy", JBool (projection_healthy ctx))].

Definition is_ready (st : CoverageState) (ctx : MutationReadinessContext) : bool :=
  bool_decide (sorted_reasons st ctx = []).

Definition readiness_payload (st : CoverageState) (ctx : MutationReadinessContext) : document :=
  let s := snapshot st in
  let usable := live_lease_usable (lease_facts_of s ctx) in
  [(u "schema_version", JStr COVERAGE_SNAPSHOT_SCHEMA);
   (u "decision_utc", JStr (canonical_decision_utc (dt_us (decision_utc ctx))));
   (u "ready", JBool (is_ready st ctx));
   (u "reason_codes", JArr (map JStr (sorted_reasons st ctx)));
   (u "cursors", JObj (cursors_payload ctx));
   (u "health_bits", health_payload st ctx);
   (u "boot_epoch", JObj [(u "host_id", json_opt JStr (s_host_id s));
      (u "transition_source_sequence", json_opt JInt (boot_transition_sequence s))]);
   (u "observer_started", JBool (observer_started s));
   (u "docker_generation", json_opt JInt (docker_generation s));
   (u "open_critical_intervals", JArr (open_critical_payload s));
   (u "open_sequence_gaps", JArr (open_gaps_payload s));
   (u "lease_logical_identity", json_opt (lease_payload usable) (falco_lease s))].

(** [mutation_readiness] *)
Definition mutation_readiness (st : CoverageState) (ctx : MutationReadinessContext)
  : result coverage_exn MutationReadiness :=
  validate_mutation_readiness_context ctx ;;*
  let* encoded := catch_with PyError (canonical_json (JObj (readiness_payload st ctx))) in
  Ok (mkReadiness (is_ready st ctx) (sorted_reasons st ctx) (evidence_head ctx)
        (acceptance_cursor ctx) (confirmed_through ctx) (projection_cursor ctx)
        (docker_generation (snapshot st)) (sha256_hex (COVERAGE_SNAPSHOT_DOMAIN ++ encoded))).

(** ** A lease deadline is always a number *)

Lemma shr_1_nonneg r : 0 <= shr_m r -> 0 <= shr_m (shr_1 r).
Proof. destruct r as [m rb sb]; simpl. by destruct m as [|[p|p|]|]; simpl; try lia. Qed.

Lemma iter_pos_nonneg p r : 0 <= shr_m r -> 0 <= shr_m (SpecFloat.iter_pos shr_1 p r).
Proof.
  revert r. induction p as [p IH|p IH|]; intros r Hr; cbn [SpecFloat.iter_pos];
    [apply IH, IH, shr_1_nonneg|apply IH, IH|apply shr_1_nonneg]; done.
Qed.

Lemma shr_fexp_nonneg m e l : 0 <= m -> 0 <= shr_m (shr_fexp 53 1024 m e l).1.
Proof.
  intros Hm. unfold shr_fexp, shr.
  assert (Hr : 0 <= shr_m (shr_record_of_loc m l)) by (by destruct l as [|[]]).
  destruct (fexp 53 1024 (Zdigits2 m + e) - e); cbn [fst]; [done|by apply iter_pos_nonneg|done].
Qed.

Lemma round_aux_number sx mx ex lx : 0 <= mx -> binary_round_aux 53 1024 sx mx ex lx <> S754_nan.
Proof.
  intros Hm. unfold binary_round_aux.
  pose proof (shr_fexp_nonneg mx ex lx Hm) as H1.
  destruct (shr_fexp 53 1024 mx ex lx) as [r1 e1]. cbn [fst] in H1.
  assert (H2 : 0 <= round_nearest_even (shr_m r1) (loc_of_shr_record r1)).
  { unfold round_nearest_even. destruct (loc_of_shr_record r1) as [|[]]; try lia.
    destruct (Z.even _); lia. }
  pose proof (shr_fexp_nonneg _ e1 loc_Exact H2) as H3.
  destruct (shr_fexp 53 1024 _ e1 loc_Exact) as [r2 e2]. cbn [fst] in H3.
  destruct (shr_m r2); [done|by destruct (_ <=? _)|lia].
Qed.

Lemma normalize_number m e z : binary_normalize 53 1024 m e z <> S754_nan.
Proof.
  destruct m; cbn [binary_normalize]; [done|..]; unfold binary_round;
    destruct (shl_align _ _ _); by apply round_aux_number.
Qed.

Lemma total_seconds_number us : total_seconds us <> S754_nan.
Proof.
  unfold total_seconds, f_div, f_of_int.
  pose proof (normalize_number us 0 false) as Hx.
  assert (exists m e, binary_normalize 53 1024 1000000 0 false = S754_finite false m e)
    as (m & e & ->) by (do 2 eexists; vm_compute; reflexivity).
  destruct (binary_normalize 53 1024 us 0 false) as [s|s| |s mx ex]; try done.
  unfold SFdiv, SFdiv_core_binary.
  set (m' := match _ with Z0 => _ | Zpos _ => _ | Zneg _ => _ end).
  assert (Hm : 0 <= m').
  { subst m'. destruct (_ - _ - _); [done|apply Z.shiftl_nonneg|]; done. }
  pose proof (Z_div_nonneg_nonneg m' (Z.pos m) Hm ltac:(lia)) as Hq. unfold Z.div in Hq.
  destruct (Z.div_eucl m' (Z.pos m)) as [q r]. by apply round_aux_number.
Qed.

Lemma deadline_number x us : f_is_finite x = true -> f_add x (total_seconds us) <> S754_nan.
Proof.
  intros Hx. pose proof (total_seconds_number us) as Hy.
  destruct x as [sx|sx| |sx mx ex], (total_seconds us) as [sy|sy| |sy my ey]; try done.
  - by destruct sx, sy.
  - apply normalize_number.
Qed.

Definition deadline_is_number (s : CoverageSnapshot) : Prop :=
  live_lease_deadline s <> Some S754_nan.

Lemma generic_critical_deadline s p c cl s' :
  apply_generic_critical s p c cl = Ok s' -> live_lease_deadline s' = live_lease_deadline s.
Proof.
  unfold apply_generic_critical. cbv zeta. intros H.
  destruct (positions_of _ _ _) as [|[] [|]], (closed_at c); try done;
    try (by injection H as <-); try (by inv_ok; subst).
  destruct (_ && _); [by injection H as <-|by inv_ok; subst].
Qed.

Lemma apply_action_deadline s p cl receipt s' :
  deadline_is_number s -> apply_action s p cl receipt = Ok s' -> deadline_is_number s'.
Proof.
  intros Hs H. unfold apply_action in H.
  assert (Hsame : live_lease_deadline s' = live_lease_deadline s -> deadline_is_number s').
  { unfold deadline_is_number. by intros ->. }
  destruct (action cl), (p_coverage p) as [c|]; try done; try (by injection H as <-).
  - destruct (reconcile_generation c); [|done]. unfold apply_docker_open in H.
    inv_ok. subst. by apply Hsame.
  - destruct (reconcile_generation c), (closed_at c); try done.
    unfold apply_docker_recovery in H. destruct (List.filter _ _) as [|? [|]]; try done.
    inv_ok. subst. by apply Hsame.
  - unfold apply_sequence_gap_open in H.
    destruct (affected_source_sequence_start c), (affected_source_sequence_end c); try done.
    inv_ok. subst. by apply Hsame.
  - unfold apply_sequence_gap_close in H. cbv zeta in H.
    destruct (positions_of _ _ _) as [|[] [|]]; try done.
    destruct (reconcile_generation c), (closed_at c); try done. inv_ok. subst. by apply Hsame.
  - unfold apply_falco_lease in H. cbv zeta in H.
    apply rbind_ok in H as (? & _ & H). apply rbind_ok in H as (d & Hd & H). injection H as <-.
    unfold deadline_is_number. cbn [set_lease live_lease_deadline].
    destruct receipt as [v|]; [|by injection Hd as <-].
    unfold validate_receipt in Hd. apply rbind_ok in Hd as (? & Hv & Hd).
    apply rbind_ok in Hv as (? & Hg%guard_ok & Hv). injection Hv as <-. injection Hd as <-.
    apply andb_true_iff in Hg as [Hg _]. intros [= E]. by apply (deadline_number v _ Hg) in E.
  - apply generic_critical_deadline in H. by apply Hsame.
  - apply generic_critical_deadline in H. by apply Hsame.
Qed.

Lemma reachable_deadline s : reachable s -> deadline_is_number s.
Proof.
  induction 1 as [|s p receipt allowed s' _ IH H]; [done|]. unfold transition in H.
  do 5 apply rbind_ok in H as (? & _ & H). apply rbind_ok in H as (cand & Hc & H).
  injection H as <-. change (deadline_is_number cand). eapply apply_action_deadline; [|exact Hc].
  by destruct (match s_boot_id s with Some _ => _ | None => _ end).
Qed.

(** ** What readiness means *)

(** Live sensor coverage at the decision: an unexpired lease, received within its
    window and after the last stop, whose monotonic deadline has not passed. *)
Definition lease_covers (s : CoverageSnapshot) (ctx : MutationReadinessContext) : Prop :=
  exists l d, falco_lease s = Some l /\ live_lease_deadline s = Some d
    /\ (forall q, latest_falco_stop_sequence s = Some q -> q < l_sequence l)
    /\ datetime_us (l_opened_at l) <= datetime_us (l_ingest_time l) <= dt_us (decision_utc ctx)
    /\ dt_us (decision_utc ctx) - datetime_us (l_opened_at l) <= LEASE_WINDOW
    /\ f_leb (decision_monotonic ctx) d = true.

(** Nothing known to be missing or degraded. *)
Record safe_to_mutate (st : CoverageState) (ctx : MutationReadinessContext) : Prop := {
  safe_reducer : healthy st = true /\ closed st = false;
  safe_cursors : head_sequence (snapshot st) = evidence_head ctx
    /\ acceptance_cursor ctx = evidence_head ctx /\ confirmed_through ctx = evidence_head ctx
    /\ projection_cursor ctx = evidence_head ctx;
  safe_health : evidence_healthy ctx = true /\ key_healthy ctx = true
    /\ ack_journal_healthy ctx = true /\ projection_healthy ctx = true
    /\ repair_pending ctx = false /\ retention_pending ctx = false;
  safe_clock : clock_healthy ctx = true
    /\ exists d, clock_uncertainty_seconds ctx = Some d
         /\ dec_leb d (max_clock_uncertainty_seconds ctx) = true;
  safe_epoch : boot_transition_sequence (snapshot st) <> None
    /\ observer_started (snapshot st) = true /\ docker_generation (snapshot st) <> None;
  safe_gaps : docker_opens (snapshot st) = [] /\ open_critical_intervals (snapshot st) = []
    /\ Forall (fun g => close_sequence g <> None) (sequence_gaps (snapshot st));
  safe_lease : lease_covers (snapshot st) ctx }.

Lemma f_ltb_swap x y : x <> S754_nan -> y <> S754_nan -> f_ltb y x = negb (f_leb x y).
Proof.
  unfold f_ltb, f_leb, SFltb, SFleb.
  destruct x as [sx|sx| |sx mx ex], y as [sy|sy| |sy my ey]; try done; intros _ _;
    try (by destruct sx; try destruct sy); try (by destruct sy).
  cbn [SFcompare]. rewrite (Z.compare_antisym ex ey), <- (Pos.compare_cont_antisym mx my Eq : _ = Pos.compare_cont Eq my mx).
  destruct sx, sy; try done; destruct (ex ?= ey); try done;
    by destruct (Pos.compare_cont Eq mx my).
Qed.

Lemma is_none_true {A} (o : option A) : is_none o = true <-> o = None.
Proof. by destruct o. Qed.

Lemma is_none_false {A} (o : option A) : is_none o = false <-> o <> None.
Proof. by destruct o. Qed.

(** A monotonic reading that is a number, as validation guarantees *)
Lemma validated_monotonic ctx x :
  validate_mutation_readiness_context ctx = Ok x -> decision_monotonic ctx <> S754_nan.
Proof.
  unfold validate_mutation_readiness_context. intros H.
  apply rbind_ok in H as (? & _ & H). apply rbind_ok in H as (? & Hg%guard_ok & _).
  intros E. by rewrite E in Hg.
Qed.

(** The three lease reasons are absent exactly when the lease covers the decision. *)
Lemma lease_reasons_exact s ctx :
  deadline_is_number s -> decision_monotonic ctx <> S754_nan ->
  (lease_present (lease_facts_of s ctx) && negb (lease_ingest_valid (lease_facts_of s ctx)))
  || (lease_present (lease_facts_of s ctx) && lease_too_old (lease_facts_of s ctx))
  || (negb (lease_present (lease_facts_of s ctx)) || negb (deadline_present (lease_facts_of s ctx))
      || negb (lease_after_stop (lease_facts_of s ctx))) = false
  <-> lease_covers s ctx.
Proof.
  intros Hd Hm. unfold lease_facts_of, lease_covers, deadline_is_number in *. cbv zeta.
  destruct (falco_lease s) as [l|]; cbn [lease_present lease_ingest_valid lease_too_old
    deadline_present lease_after_stop].
  2:{ split; [done|]. by intros (l & d & ? & _). }
  destruct (live_lease_deadline s) as [d|].
  2:{ split; [|by intros (? & ? & _ & ? & _)]. rewrite !andb_true_l. cbn [negb orb].
      rewrite orb_true_r. done. }
  rewrite (f_ltb_swap (decision_monotonic ctx) d) by congruence. cbn [negb orb andb].
  rewrite !orb_false_iff, !negb_false_iff, !andb_true_iff, !Z.leb_le, Z.ltb_ge.
  unfold LEASE_WINDOW. split.
  - intros [[Hi [Ha Hf]] Hs]. exists l, d. split_and!; try done; try lia.
    intros q Hq. rewrite Hq in Hs. by apply Z.ltb_lt.
  - intros (l' & d' & [= <-] & [= <-] & Hs & Hi & Ha & Hf). split_and!; try done; try lia.
    destruct (latest_falco_stop_sequence s) as [q|]; [|done]. apply Z.ltb_lt. by apply Hs.
Qed.

Lemma sorted_names_elem (l : list (string * bool)) x :
  x ∈ sort_str (map (fun r => u r.1) (List.filter snd l))
  <-> exists name, (name, true) ∈ l /\ x = u name.
Proof.
  rewrite sort_str_perm, list_elem_of_fmap. split.
  - intros ([name b] & -> & Hin). apply list_elem_of_In, filter_In in Hin as [Hin Hb].
    cbn in Hb. subst b. exists name. split; [by apply list_elem_of_In|done].
  - intros (name & Hin & ->). exists (name, true). split; [done|].
    apply list_elem_of_In, filter_In. split; [by apply list_elem_of_In|done].
Qed.

Lemma sorted_names_nil (l : list (string * bool)) :
  sort_str (map (fun r => u r.1) (List.filter snd l)) = []
  <-> forall r, r ∈ l -> r.2 = false.
Proof.
  split.
  - intros E [name [|]] Hr; [|done]. exfalso.
    assert (Hin : u name ∈ sort_str (map (fun r => u r.1) (List.filter snd l)))
      by (apply sorted_names_elem; eauto).
    rewrite E in Hin. by apply elem_of_nil in Hin.
  - intros Hall. destruct (sort_str _) as [|x r] eqn:E; [done|].
    destruct (proj1 (sorted_names_elem l x)) as (name & Hin & _).
    { rewrite E. constructor. } by apply Hall in Hin.
Qed.

Lemma is_ready_spec st ctx :
  is_ready st ctx = true <-> forall r, r ∈ readiness_reasons st ctx -> r.2 = false.
Proof.
  unfold is_ready. rewrite bool_decide_eq_true. apply sorted_names_nil.
Qed.

Lemma none_holds (l : list (string * bool)) :
  (forall r, r ∈ l -> r.2 = false) <-> forallb (fun r => negb r.2) l = true.
Proof.
  rewrite forallb_forall. setoid_rewrite negb_true_iff. by setoid_rewrite list_elem_of_In.
Qed.

Lemma gaps_all_closed gaps :
  existsb gap_is_open gaps = false <-> Forall (fun g => close_sequence g <> None) gaps.
Proof.
  induction gaps as [|g gaps IH]; [by split|]. cbn [existsb].
  rewrite orb_false_iff, IH, Forall_cons. unfold gap_is_open. by rewrite bool_decide_eq_false.
Qed.

Lemma is_ready_safe st ctx :
  deadline_is_number (snapshot st) -> decision_monotonic ctx <> S754_nan ->
  is_ready st ctx = true <-> safe_to_mutate st ctx.
Proof.
  intros Hd Hm. pose proof (lease_reasons_exact _ ctx Hd Hm) as Hl.
  rewrite is_ready_spec, none_holds. unfold readiness_reasons. cbv zeta. cbn [forallb snd].
  rewrite !andb_true_iff, !negb_true_iff, !orb_false_iff in *.
  rewrite !negb_false_iff in *.
  rewrite !bool_decide_eq_true, !is_none_false, gaps_all_closed, !Z.eqb_eq.
  unfold coverage_reducer_healthy, uncertainty_exceeded.
  rewrite !andb_true_iff, negb_true_iff, Z.eqb_eq.
  split.
  - intros (? & Hu & (? & Hn) & ((? & ?) & ?) & ? & ? & ? & ? & ((? & ?) & ?) & ? & ? & ? & ?
      & (? & ?) & ? & ? & Hl1 & Hl2 & Hl3 & _).
    split; split_and?; try done; try lia; [|by apply Hl].
    destruct (clock_uncertainty_seconds ctx) as [d|]; [|done]. exists d. split; [done|].
    by apply negb_false_iff.
  - intros [[? ?] (? & ? & ? & ?) (? & ? & ? & ? & ? & ?) [? (d & -> & Hu)] (? & ? & ?) (? & ? & ?)
      Hlease]. apply Hl in Hlease as [[Hl1 Hl2] [[? ?] ?]]. rewrite Hu.
    split_and!; try done; lia.
Qed.

(** C32: the readiness decision is exact.  On every reachable snapshot a returned
    decision is ready if and only if nothing is known to be missing: the reducer
    is usable and every cursor is at the same head, all health bits hold and no
    repair or retention is pending, the clock uncertainty is known and within its
    limit, the boot epoch is established with a reconciled Docker generation, no
    gap of any kind is open, and a live sensor lease covers the decision.  The
    reason codes are empty exactly then, and the signed payload marks the lease
    usable. *)
Theorem readiness_exact st ctx r :
  reachable (snapshot st) -> mutation_readiness st ctx = Ok r ->
  (ready r = true <-> safe_to_mutate st ctx)
  /\ (ready r = true <-> reason_codes r = [])
  /\ (ready r = true -> live_lease_usable (lease_facts_of (snapshot st) ctx) = true).
Proof.
  intros Hreach%reachable_deadline H. unfold mutation_readiness in H.
  apply rbind_ok in H as (? & Hv%validated_monotonic & H).
  apply rbind_ok in H as (? & _ & H). injection H as <-. cbn [ready reason_codes].
  pose proof (is_ready_safe st ctx Hreach Hv) as Hs. split_and!.
  - exact Hs.
  - unfold is_ready. apply bool_decide_eq_true.
  - intros Hr. apply Hs, safe_lease in Hr as (l & d & El & Ed & Hq & Hi & Ha & Hf).
    unfold live_lease_usable, lease_facts_of. rewrite El, Ed.
    cbn [lease_present deadline_present lease_after_stop lease_ingest_valid lease_wall_valid
      lease_monotonic_valid]. rewrite Hf, andb_true_r, !andb_true_iff, !Z.leb_le.
    unfold LEASE_WINDOW in *. split_and!; try done; try lia.
    destruct (latest_falco_stop_sequence _) as [q|]; [|done]. apply Z.ltb_lt. by apply Hq.
Qed.

(** ** The snapshot digest *)

Lemma forallb_map_true {A} (f : json -> bool) (g : A -> json) l :
  (forall x, f (g x) = true) -> forallb f (map g l) = true.
Proof. intros H. apply forallb_forall. by intros ? (x & <- & _)%in_map_iff. Qed.

Lemma row_payload_unique s r : In r (interval_rows s) -> unique_keys (row_payload r) = true.
Proof.
  unfold interval_rows. rewrite in_app_iff, !in_map_iff.
  by intros [(o & <- & _)|(i & <- & _)].
Qed.

Lemma payload_unique st ctx : unique_keys (JObj (readiness_payload st ctx)) = true.
Proof.
  assert (Hr : forallb unique_keys (map JStr (sorted_reasons st ctx)) = true)
    by by apply forallb_map_true.
  assert (Hg : forallb unique_keys (open_gaps_payload (snapshot st)) = true)
    by by apply forallb_map_true.
  assert (Hi : forallb unique_keys (open_critical_payload (snapshot st)) = true).
  { apply forallb_forall. intros ? (r & <- & Hin)%in_map_iff.
    apply (row_payload_unique (snapshot st)). apply list_elem_of_In.
    rewrite <- (py_sort_perm row_leb). by apply list_elem_of_In. }
  unfold readiness_payload. cbv zeta. cbn [unique_keys]. apply andb_true_iff. split.
  { by vm_compute. }
  cbn [forallb snd unique_keys]. rewrite Hr, Hg, Hi. cbn [andb].
  destruct (s_host_id _), (boot_transition_sequence _), (docker_generation _), (falco_lease _);
    by vm_compute.
Qed.

(** Equal canonical documents agree on every member. *)
Lemma canon_get_eq (d1 d2 : document) k :
  unique_keys (JObj d1) = true -> unique_keys (JObj d2) = true ->
  canon (JObj d1) = canon (JObj d2) -> canon <$> get k d1 = canon <$> get k d2.
Proof.
  intros [H1%bool_decide_eq_true _]%andb_true_iff [H2%bool_decide_eq_true _]%andb_true_iff E.
  rewrite <- !get_canon_obj by done. unfold canon_obj. cbn [canon] in E. congruence.
Qed.

Lemma str_list_inj (l1 l2 : list pystr) : map JStr l1 = map JStr l2 -> l1 = l2.
Proof.
  revert l2. induction l1 as [|x l1 IH]; intros [|y l2] E; try done. cbn in E. f_equal; [congruence|].
  apply IH. congruence.
Qed.

Lemma some_strings_inj l1 l2 :
  canon <$> Some (JArr (map JStr l1)) = canon <$> Some (JArr (map JStr l2)) -> l1 = l2.
Proof. cbn [fmap option_fmap option_map]. rewrite !canon_str_list. intros [= E]. by apply str_list_inj. Qed.

Lemma some_bool_inj x y : canon <$> Some (JBool x) = canon <$> Some (JBool y) -> x = y.
Proof. by intros [= ->]. Qed.

Lemma some_generation_inj o1 o2 :
  canon <$> Some (json_opt JInt o1) = canon <$> Some (json_opt JInt o2) -> o1 = o2.
Proof. destruct o1, o2; cbn; congruence. Qed.

Lemma cursors_inj c1 c2 :
  canon (JObj (cursors_payload c1)) = canon (JObj (cursors_payload c2)) ->
  evidence_head c1 = evidence_head c2 /\ acceptance_cursor c1 = acceptance_cursor c2
  /\ confirmed_through c1 = confirmed_through c2 /\ projection_cursor c1 = projection_cursor c2.
Proof.
  intros E. pose proof (fun k =>
    canon_get_eq (cursors_payload c1) (cursors_payload c2) k eq_refl eq_refl E) as H.
  pose proof (H (u "evidence_head")) as [= ?]. pose proof (H (u "acceptance_cursor")) as [= ?].
  pose proof (H (u "confirmed_through")) as [= ?]. pose proof (H (u "projection_cursor")) as [= ?].
  done.
Qed.

Section Members.
Context (st : CoverageState) (ctx : MutationReadinessContext).

Lemma get_ready :
  get (u "ready") (readiness_payload st ctx) = Some (JBool (is_ready st ctx)).
Proof. reflexivity. Qed.

Lemma get_reason_codes :
  get (u "reason_codes") (readiness_payload st ctx)
  = Some (JArr (map JStr (sorted_reasons st ctx))).
Proof. reflexivity. Qed.

Lemma get_cursors :
  get (u "cursors") (readiness_payload st ctx) = Some (JObj (cursors_payload ctx)).
Proof. reflexivity. Qed.

Lemma get_generation :
  get (u "docker_generation") (readiness_payload st ctx)
  = Some (json_opt JInt (docker_generation (snapshot st))).
Proof. reflexivity. Qed.
End Members.

(** The digest of a readiness decision binds it.  Two decisions, of any two
    states and contexts, with the same digest are the same decision in every
    field (ready, reason codes, cursors, generation), unless the two hashed
    payloads are a SHA-256 collision. *)
Theorem readiness_digest_binds st1 ctx1 r1 st2 ctx2 r2 :
  mutation_readiness st1 ctx1 = Ok r1 -> mutation_readiness st2 ctx2 = Ok r2 ->
  coverage_snapshot_sha256 r1 = coverage_snapshot_sha256 r2 ->
  r1 = r2
  \/ exists c1 c2, canonical_json (JObj (readiness_payload st1 ctx1)) = Ok c1
       /\ canonical_json (JObj (readiness_payload st2 ctx2)) = Ok c2
       /\ collision (COVERAGE_SNAPSHOT_DOMAIN ++ c1) (COVERAGE_SNAPSHOT_DOMAIN ++ c2).
Proof.
  unfold mutation_readiness. intros H1 H2.
  apply rbind_ok in H1 as (? & _ & H1). apply rbind_ok in H1 as (c1 & E1%catch_ok & H1).
  apply rbind_ok in H2 as (? & _ & H2). apply rbind_ok in H2 as (c2 & E2%catch_ok & H2).
  injection H1 as <-. injection H2 as <-. cbn [coverage_snapshot_sha256].
  intros Hd. destruct (sha256_hex_inj _ _ Hd) as [E|Hc]; [left|right; by exists c1, c2].
  pose proof (domain_message_inj COVERAGE_SNAPSHOT_DOMAIN _ _ _ _ (payload_unique st1 ctx1) (payload_unique st2 ctx2)
    E1 E2 E) as Ec.
  pose proof (fun k => canon_get_eq _ _ k (payload_unique st1 ctx1) (payload_unique st2 ctx2) Ec)
    as Hget. clear Ec. assert (c1 = c2) as <- by exact (app_inv_head COVERAGE_SNAPSHOT_DOMAIN _ _ E).
  pose proof (Hget (u "ready")) as Hready. pose proof (Hget (u "reason_codes")) as Hreasons.
  pose proof (Hget (u "cursors")) as Hcur. pose proof (Hget (u "docker_generation")) as Hgen.
  clear Hget E1 E2 E Hd. rewrite !get_ready in Hready. rewrite !get_reason_codes in Hreasons.
  rewrite !get_cursors in Hcur. rewrite !get_generation in Hgen.
  apply some_bool_inj in Hready. apply some_strings_inj in Hreasons. apply some_generation_inj in Hgen.
  apply Some_inj in Hcur. apply cursors_inj in Hcur as (-> & -> & -> & ->).
  by rewrite Hready, Hreasons, Hgen.
Qed.

(** Rows with the same sort key have the same payload, so sorting the pairs never
    compares two payload mappings. *)
Lemma row_key_determines_payload s x y :
  In x (interval_rows s) -> In y (interval_rows s) ->
  row_leb x y = true -> row_leb y x = true -> row_payload x = row_payload y.
Proof.
  assert (Hs : forall a b rest rest', then_leb_str a b rest = true -> then_leb_str b a rest' = true ->
    a = b /\ rest = true /\ rest' = true).
  { unfold then_leb_str. intros a b rest rest' H1 H2.
    destruct (decide (a = b)) as [->|E]; [by rewrite bool_decide_eq_true_2 in H1, H2|].
    rewrite bool_decide_eq_false_2 in H1, H2 by congruence. by destruct E; apply str_leb_antisym. }
  assert (Hi : forall a b rest rest', then_leb_int a b rest = true -> then_leb_int b a rest' = true ->
    a = b /\ rest = true /\ rest' = true).
  { unfold then_leb_int. intros a b rest rest' H1 H2.
    destruct (Z.eqb_spec a b) as [->|]; [by rewrite Z.eqb_refl in H2|].
    destruct (Z.eqb_spec b a); [lia|]. breflect. lia. }
  unfold interval_rows, row_leb. rewrite !in_app_iff, !in_map_iff. intros Hx Hy L1 L2.
  destruct (Hs _ _ _ _ L1 L2) as (E1 & L3 & L4). destruct (Hs _ _ _ _ L3 L4) as (E2 & L5 & L6).
  destruct (Hs _ _ _ _ L5 L6) as (E3 & L7 & L8). destruct (Hs _ _ _ _ L7 L8) as (E4 & L9 & L10).
  destruct (Hi _ _ _ _ L9 L10) as (E5 & L11 & L12). destruct (Hi _ _ _ _ L11 L12) as (E6 & _ & _).
  clear L1 L2 L3 L4 L5 L6 L7 L8 L9 L10 L11 L12.
  destruct Hx as [(o & <- & _)|(i & <- & _)], Hy as [(o' & <- & _)|(i' & <- & _)];
    try done; cbn in *; by rewrite ?E2, ?E3, ?E4, ?E5, ?E6.
Qed.

(** ** Failure is permanent *)

Lemma not_ready_if_unhealthy st ctx r :
  healthy st = false -> mutation_readiness st ctx = Ok r -> ready r = false.
Proof.
  intros Hh H. unfold mutation_readiness in H. apply rbind_ok in H as (? & _ & H).
  apply rbind_ok in H as (? & _ & H). injection H as <-. cbn [ready].
  apply not_true_iff_false. rewrite is_ready_spec. intros Hall.
  assert (Hin : ("coverage_reducer_unhealthy"%string, negb (coverage_reducer_healthy st ctx))
    ∈ readiness_reasons st ctx) by (unfold readiness_reasons; cbv zeta; do 3 right; left).
  apply Hall in Hin. cbn [snd] in Hin. unfold coverage_reducer_healthy in Hin. by rewrite Hh in Hin.
Qed.

Section Fence.
Context {S : Type} `{CoverageEvidence S}.

(** Every operation of an unhealthy object refuses and changes nothing. *)
Definition refuses_forever (st : CoverageState) : Prop :=
  (forall (store : S) record receipt, apply st store record receipt = (st, Err CoverageUnhealthy))
  /\ (forall (store : S) r receipt,
        apply_live_accepted st store r receipt = (st, Err CoverageUnhealthy))
  /\ (forall store : S, ack_barrier_capability st store = Err CoverageUnhealthy)
  /\ (forall (store : S) b, barrier_first_unclosed b st store = Err CoverageUnhealthy)
  /\ (forall ctx r, mutation_readiness st ctx = Ok r -> ready r = false).

Lemma unhealthy_refuses st : healthy st = false -> refuses_forever st.
Proof.
  intros Hh. unfold refuses_forever, apply, apply_live_accepted, ack_barrier_capability,
    barrier_first_unclosed, first_unclosed_sequence_gap, require_usable.
  split_and!; intros; try (by rewrite Hh). by eapply not_ready_if_unhealthy.
Qed.

(** A record that cannot be applied fences the reducer for good.  The failed
    call leaves the snapshot as it was; afterwards every record, live record and
    barrier request on any store is refused as unhealthy without changing the
    object, and no readiness decision is ever ready. *)
Theorem failed_apply_fences st (store : S) record receipt e st' :
  healthy st = true -> closed st = false ->
  apply st store record receipt = (st', Err e) \/
    (exists r, apply_live_accepted st store r receipt = (st', Err e)) ->
  snapshot st' = snapshot st /\ healthy st' = false /\ refuses_forever st'.
Proof.
  intros Hh Hc Hf. assert (st' = fence st) as ->.
  { unfold apply, apply_live_accepted, require_usable in Hf. rewrite Hh, Hc in Hf. cbn in Hf.
    destruct Hf as [Hf|[r Hf]];
      [destruct (apply_candidate st store record receipt)|destruct (live_candidate st store r receipt)];
      congruence. }
  split_and!; [done..|]. by apply unhealthy_refuses.
Qed.

End Fence.

(** ** Replay *)

Section Replay.
Context {S : Type} `{CoverageEvidence S}.

(** Records given to [apply] one after another, stopping at the first failure *)
Fixpoint apply_all (st : CoverageState) (store : S) (records : list StoredEvidenceRecord)
  : CoverageState * result coverage_exn unit :=
  match records with
  | [] => (st, Ok tt)
  | record :: records =>
      match apply st store record None with
      | (st', Ok _) => apply_all st' store records
      | failed => failed
      end
  end.

Lemma apply_unbound st (store : S) record :
  healthy st = true -> closed st = false -> evidence st = None ->
  apply st store record None =
  match (let* p := prepare record in transition (snapshot st) p None false) with
  | Ok s => (set_snapshot st s, Ok tt)
  | Err e => (fence st, Err (as_validation e))
  end.
Proof.
  intros Hh Hc He. unfold apply, require_usable, apply_candidate. by rewrite Hh, Hc, He.
Qed.

Lemma replay_apply_all st (store : S) records s :
  healthy st = true -> closed st = false -> evidence st = None ->
  replay (snapshot st) records = Ok s <-> apply_all st store records = (set_snapshot st s, Ok tt).
Proof.
  revert st. induction records as [|record records IH]; intros st Hh Hc He.
  - unfold replay. cbn. split; [by intros [= <-]; destruct st|]. intros E. injection E as E.
    rewrite E. by destruct st.
  - cbn [apply_all]. rewrite apply_unbound by done. unfold replay. cbn [map replay_items].
    cbn [catch_with rbind]. destruct (prepare record) as [p|e]; cbn [rbind]; [|done].
    destruct (transition (snapshot st) p None false) as [s1|e]; cbn [rbind]; [|done].
    specialize (IH (set_snapshot st s1) Hh Hc He). unfold replay in IH. cbn [snapshot] in IH.
    exact IH.
Qed.

(** Rebuilding from a history is the same as applying its records one by one:
    [rebuild] succeeds with a state exactly when sequential [apply] on a fresh
    unbound object succeeds with that state. *)
Theorem rebuild_is_sequential_apply self (store : S) records st :
  rebuild self records = Ok st
  <-> apply_all (new_state self) store records = (st, Ok tt).
Proof.
  unfold rebuild. split.
  - intros Hr. apply rbind_ok in Hr as (s & E%catch_ok & Hr). injection Hr as <-.
    by apply (replay_apply_all (new_state self) store).
  - intros Ha. assert (exists s, st = set_snapshot (new_state self) s) as [s ->].
    { clear -Ha. revert Ha. assert (Hinv : forall st0 : CoverageState,
        (exists s0, st0 = set_snapshot (new_state self) s0) ->
        apply_all st0 store records = (st, Ok tt) -> exists s, st = set_snapshot (new_state self) s).
      { induction records as [|r rs IH]; intros st0 [s0 ->]; cbn [apply_all].
        - intros [= <-]. eauto.
        - rewrite apply_unbound by done. destruct (let* _ := _ in _) as [s1|e]; [|done].
          apply IH. by exists s1. }
      apply Hinv. by exists empty_snapshot. }
    apply (replay_apply_all (new_state self) store) in Ha; [|done..].
    change (snapshot (new_state self)) with empty_snapshot in Ha. by rewrite Ha.
Qed.

End Replay.

(** ** The store contract *)

(** What the reducer relies on, for stores in a consistent state: one owner at a time, recovery that can be undone,
    and a cursor that moves to the adjacent authenticated record. *)
Class LawfulEvidence (S : Type) `{CoverageEvidence S} := {
  owner_of : S -> option token;
  history : S -> list Z;
  evidence_wf : S -> Prop;
  acquire_exclusive : forall s o l s', acquire_coverage_state s o = Ok (l, s') ->
    owner_of s = None /\ owner_of s' = Some o /\ release_coverage_state s' o l = Ok s
    /\ history s' = history s;
  acquire_refused : forall s o, owner_of s <> None -> is_ok (acquire_coverage_state s o) = false;
  next_adjacent : forall s o l record after r, evidence_wf s ->
    resolve_next_coverage_record s o l record after = Ok r ->
    owner_of s = Some o
    /\ exists before later, history s = before ++ ref_source_sequence (ref r) :: later
         /\ (forall a, after = Some a -> Forall (fun q => q <= ref_source_sequence a) before)
         /\ (after = None -> before = []);
  validated_owner : forall s o l head r, validate_coverage_state_owner s o l head = Ok r ->
    owner_of s = Some o /\ r = head }.

Lemma bisect_right_split l a q :
  StronglySorted Z.lt l -> l !! bisect_right l a = Some q ->
  exists before later, l = before ++ q :: later /\ Forall (fun x => x <= a) before.
Proof.
  induction 1 as [|x l Hs IH Hx]; [done|]. unfold bisect_right in *. rewrite filter_cons.
  destruct (decide (x <= a)) as [Hle|Hgt].
  - cbn [length lookup list_lookup]. intros Hq. destruct (IH Hq) as (b & t & -> & Hb).
    exists (x :: b), t. split; [done|]. by constructor.
  - assert (E : filter (fun q => q <= a) l = []).
    { clear IH. induction l as [|y l IHl]; [done|].
      apply Forall_cons in Hx as [Hxy Hx]. rewrite filter_cons_False by lia.
      apply IHl; [by inversion Hs|done]. }
    rewrite E. cbn. intros [= <-]. exists [], l. split; [done|constructor].
Qed.

Lemma exact_key_id r k : exact_coverage_ref_key r = Ok k -> k = r.
Proof.
  unfold exact_coverage_ref_key. intros Hk. apply rbind_ok in Hk as (? & _ & Hk).
  destruct (match_segment_path _) as [[[? ?] ?]|]; [|done].
  do 4 apply rbind_ok in Hk as (? & _ & Hk). congruence.
Qed.

Lemma same_ref_eq l r : same_exact_coverage_ref l r = Ok true -> l = r.
Proof.
  unfold same_exact_coverage_ref. intros Hk. apply rbind_ok in Hk as (kl & ->%exact_key_id & Hk).
  apply rbind_ok in Hk as (kr & ->%exact_key_id & Hk). injection Hk as Hk.
  by apply bool_decide_eq_true in Hk.
Qed.

Lemma resolve_ref_eq s r record :
  SegmentStore_resolve_authenticated_ref s r = Ok record -> ref record = r.
Proof.
  unfold SegmentStore_resolve_authenticated_ref. intros Hk.
  do 4 apply rbind_ok in Hk as (? & _ & Hk). apply rbind_ok in Hk as (? & Hg%guard_ok & Hk).
  injection Hk as <-. by apply bool_decide_eq_true in Hg.
Qed.

Lemma store_eta s :
  coverage_state_owner s = None ->
  s = mkStore (store_token s) (store_closed s) (verifier_ready s) (last_sequence s)
        (accepted_ref s) (sequences s) (index s) (record_positions s) (stored_records s)
        None (lifecycle_identity s).
Proof. destruct s. cbn. by intros ->. Qed.

(** Sequences are listed in order and indexed under their own reference. *)
Definition store_wf (s : SegmentStore) : Prop :=
  StronglySorted Z.lt (sequences s)
  /\ forall q e, index s !! q = Some e -> ref_source_sequence e = q.

Lemma store_next_adjacent s o l record after r :
  store_wf s ->
  SegmentStore_resolve_next_coverage_record s o l record after = Ok r ->
  coverage_state_owner s = Some o
  /\ exists before later, sequences s = before ++ ref_source_sequence (ref r) :: later
       /\ (forall a, after = Some a -> Forall (fun q => q <= ref_source_sequence a) before)
       /\ (after = None -> before = []).
Proof.
  intros [Hs Hidx] H. unfold SegmentStore_resolve_next_coverage_record in H.
  apply rbind_ok in H as (? & _ & H). apply rbind_ok in H as (? & Ho%guard_ok & H).
  apply rbind_ok in H as (? & _ & H). apply rbind_ok in H as (position & Hp & H).
  apply rbind_ok in H as (q & Hq%of_option_ok & H). apply rbind_ok in H as (next & Hn%of_option_ok & H).
  apply rbind_ok in H as (? & _ & H). apply rbind_ok in H as (? & _ & H).
  apply rbind_ok in H as (? & _ & H). apply rbind_ok in H as (resolved & Hr%resolve_ref_eq & H).
  apply rbind_ok in H as (? & _ & H). apply rbind_ok in H as (? & _ & H). injection H as <-.
  unfold owns in Ho. breflect. split; [done|]. rewrite Hr, (Hidx _ _ Hn).
  destruct after as [a|].
  - apply rbind_ok in Hp as (? & _ & Hp). injection Hp as <-.
    destruct (bisect_right_split _ _ _ Hs Hq) as (b & t & E & Hb). exists b, t.
    split_and!; [done| |done]. by intros ? [= <-].
  - injection Hp as <-. destruct (sequences s) as [|y t]; [done|]. injection Hq as ->.
    by exists [], t.
Qed.

Lemma store_acquire_exclusive s o l s' :
  SegmentStore_acquire_coverage_state s o = Ok (l, s') ->
  coverage_state_owner s = None /\ coverage_state_owner s' = Some o
  /\ SegmentStore_release_coverage_state s' o l = Ok s /\ sequences s' = sequences s.
Proof.
  intros H. unfold SegmentStore_acquire_coverage_state in H.
  apply rbind_ok in H as (? & _ & H). apply rbind_ok in H as (? & Hg%guard_ok & H).
  injection H as <- <-. apply bool_decide_eq_true in Hg. split_and!; [done..| |done].
  cbn. unfold SegmentStore_release_coverage_state, owns.
  cbn [coverage_state_owner lifecycle_identity]. rewrite !bool_decide_eq_true_2 by done.
  cbn. f_equal. by rewrite <- store_eta.
Qed.

Lemma store_acquire_refused s o :
  coverage_state_owner s <> None -> is_ok (SegmentStore_acquire_coverage_state s o) = false.
Proof.
  intros Ho. unfold SegmentStore_acquire_coverage_state.
  destruct (require_authenticated_recovered s); [|done]. cbn [rbind].
  by rewrite bool_decide_eq_false_2.
Qed.

Lemma store_validated_owner s o l head r :
  SegmentStore_validate_coverage_state_owner s o l head = Ok r ->
  coverage_state_owner s = Some o /\ r = head.
Proof.
  intros H. unfold SegmentStore_validate_coverage_state_owner in H.
  apply rbind_ok in H as (? & _ & H). apply rbind_ok in H as (? & Ho%guard_ok & H).
  apply rbind_ok in H as (? & _ & H). apply rbind_ok in H as (ah & _ & H).
  apply rbind_ok in H as (same & Hs & H). apply rbind_ok in H as (? & Hg%guard_ok & H).
  injection H as <-. unfold owns in Ho. breflect. split; [done|]. subst same.
  destruct ah as [a|], head as [h|]; try done. apply catch_ok in Hs.
  apply same_ref_eq in Hs. by subst.
Qed.

#[export] Instance SegmentStore_lawful : LawfulEvidence SegmentStore := {
  owner_of := coverage_state_owner;
  history := sequences;
  evidence_wf := store_wf;
  acquire_exclusive := store_acquire_exclusive;
  acquire_refused := store_acquire_refused;
  next_adjacent := store_next_adjacent;
  validated_owner := store_validated_owner }.

(** ** The object against the contract *)

Lemma prepare_ref record p :
  prepare record = Ok p ->
  p_ref p = ref record /\ source_sequence (p_envelope p) = ref_source_sequence (ref record).
Proof.
  unfold prepare. intros H. apply rbind_ok in H as (? & _ & H). apply rbind_ok in H as (e & _ & H).
  cbv zeta in H. apply rbind_ok in H as (same & Hs%catch_ok & H).
  apply rbind_ok in H as (? & Hg%guard_ok & H). apply rbind_ok in H as (? & _ & H).
  injection H as <-. cbn [p_ref p_envelope]. split; [done|]. subst same.
  apply same_ref_eq in Hs. by rewrite Hs.
Qed.

(** Snapshots that come from stored records *)
Inductive recorded : CoverageSnapshot -> Prop :=
| recorded_empty : recorded empty_snapshot
| recorded_step s record p receipt allowed s' :
    recorded s -> prepare record = Ok p -> transition s p receipt allowed = Ok s' -> recorded s'.

Lemma recorded_reachable s : recorded s -> reachable s.
Proof. induction 1; [constructor|]. by eapply reach_step. Qed.

Lemma recorded_head s a :
  recorded s -> head_ref s = Some a -> ref_source_sequence a = head_sequence s.
Proof.
  destruct 1 as [|s record p receipt allowed s' _ Hp Ht]; [done|].
  apply transition_head in Ht as (_ & -> & _ & _ & _ & ->).
  apply prepare_ref in Hp as [-> ->]. by intros [= <-].
Qed.

Lemma replay_items_recorded s items s' :
  recorded s -> replay_items s items = Ok s' ->
  recorded s' /\ exists records, items = map Ok records.
Proof.
  revert s. induction items as [|i items IH]; intros s Hs; cbn [replay_items].
  - intros [= <-]. split; [done|]. by exists [].
  - intros H. apply rbind_ok in H as (record & Hi%catch_ok & H). apply rbind_ok in H as (p & Hp & H).
    apply rbind_ok in H as (s1 & Ht & H).
    destruct (IH s1) as [Hr [records ->]]; [by eapply recorded_step|done|].
    split; [done|]. exists (record :: records). by rewrite Hi.
Qed.

Section Lawful.
Context {S : Type} `{LawfulEvidence S}.

(** C36: recovery is all or nothing, and exclusive.  When [open_and_recover]
    succeeds, the store was free and is now owned by the new state, whose snapshot
    is the replay of exactly the authenticated records of the store; a second
    recovery on it is refused without touching it; and closing the state gives
    the original store back.  When it fails, the store is as it was. *)
Theorem recovery_atomic_and_exclusive (store : S) self cap :
  match open_and_recover store self cap with
  | (store', Ok st) =>
      owner_of store = None /\ owner_of store' = Some self
      /\ (exists records, iter_authenticated_records store' = map Ok records
            /\ replay empty_snapshot records = Ok (snapshot st))
      /\ recorded (snapshot st)
      /\ (forall other cap', exists e, open_and_recover store' other cap' = (store', Err e))
      /\ close st store' = (invalidate st, store, Ok tt)
  | (store', Err _) => store' = store
  end.
Proof.
  unfold open_and_recover at 1.
  destruct (acquire_coverage_state store self) as [[l store']|e] eqn:Ea; [|done].
  destruct (acquire_exclusive _ _ _ _ Ea) as (Hfree & Howned & Hrel & _). cbv zeta.
  destruct (replay_items empty_snapshot (iter_authenticated_records store')) as [s|e] eqn:Er;
    cbn [rbind]; [|by rewrite Hrel].
  destruct (validate_coverage_state_owner store' self l (head_ref s)) as [h|e] eqn:Ev;
    cbn [catch_with rbind]; [|by rewrite Hrel].
  destruct (replay_items_recorded _ _ _ recorded_empty Er) as [Hrec [records Hrs]].
  split_and!; try done.
  - exists records. split; [done|]. unfold replay. by rewrite <- Hrs.
  - intros other cap'. unfold open_and_recover.
    pose proof (acquire_refused store' other) as Hbusy. rewrite Howned in Hbusy.
    destruct (acquire_coverage_state store' other) as [[]|e']; [|eauto]. by discriminate Hbusy.
  - unfold close. cbn [closed evidence lifecycle CoverageState.self]. by rewrite Hrel.
Qed.

(** The store's next record after the head of [st], and nothing between *)
Definition adjacent (store : S) (old new : Z) : Prop :=
  exists before later, history store = before ++ new :: later
    /\ Forall (fun q => q <= old) before.

Lemma resolved_adjacent (store : S) st l record r p receipt allowed s' :
  evidence_wf store -> recorded (snapshot st) ->
  resolve_next_coverage_record store (self st) l record (head_ref (snapshot st)) = Ok r ->
  prepare r = Ok p -> transition (snapshot st) p receipt allowed = Ok s' ->
  owner_of store = Some (self st) /\ recorded s'
  /\ adjacent store (head_sequence (snapshot st)) (head_sequence s').
Proof.
  intros Hwf Hrec Hn Hp Ht.
  destruct (next_adjacent _ _ _ _ _ _ Hwf Hn) as (Ho & before & later & E & Hb & Hnone).
  split_and!; [done|by eapply recorded_step|]. exists before, later.
  destruct (transition_head _ _ _ _ _ Ht) as (_ & -> & _).
  destruct (prepare_ref _ _ Hp) as [_ ->]. split; [done|].
  destruct (head_ref (snapshot st)) as [a|] eqn:Eh.
  - rewrite <- (recorded_head _ _ Hrec Eh). by apply Hb.
  - by rewrite Hnone.
Qed.


Lemma foldl_min_spec l x :
  (foldl Z.min x l = x \/ In (foldl Z.min x l) l)
  /\ foldl Z.min x l <= x /\ forall y, In y l -> foldl Z.min x l <= y.
Proof.
  revert x. induction l as [|z l IH]; intros x; cbn [foldl]; [split_and!; [by left|lia|done]|].
  destruct (IH (Z.min x z)) as (Hin & Hle & Hall). split_and!; [|lia|].
  - destruct Hin as [->|Hin]; [|right; by right].
    destruct (Z.min_spec x z) as [[_ ->]|[_ ->]]; [by left|right; by left].
  - intros y [->|Hy]; [lia|by apply Hall].
Qed.

Lemma min_default_spec l q :
  min_default l = Some q <-> In q l /\ forall y, In y l -> q <= y.
Proof.
  destruct l as [|x l]; cbn [min_default]; [split; [done|by intros [[] _]]|].
  destruct (foldl_min_spec l x) as (Hin & Hle & Hall). split.
  - intros [= <-]. split; [destruct Hin as [->|]; [by left|by right]|].
    intros y [->|Hy]; [lia|by apply Hall].
  - intros [Hq Hmin]. f_equal. apply Z.le_antisymm; [destruct Hq as [->|Hq]; [lia|by apply Hall]|].
    apply Hmin. destruct Hin as [->|]; [by left|by right].
Qed.

(** The acknowledgement barrier is exact and cannot be used stale.  On a live
    object the issued capability answers for the store it was issued on: with the
    least opening sequence among the open gaps, or with nothing exactly when every
    gap is closed.  Once the object is closed the same capability is refused. *)
Theorem ack_barrier_exact (store : S) st b :
  evidence st = Some (store_identity store) -> ack_barrier_capability st store = Ok b ->
  owner_of store = Some (self st)
  /\ (exists o, barrier_first_unclosed b st store = Ok o
       /\ match o with
          | None => Forall (fun g => close_sequence g <> None) (sequence_gaps (snapshot st))
          | Some q =>
              (exists g, g ∈ sequence_gaps (snapshot st) /\ close_sequence g = None
                 /\ open_sequence g = q)
              /\ forall g, g ∈ sequence_gaps (snapshot st) -> close_sequence g = None ->
                   q <= open_sequence g
          end)
  /\ barrier_first_unclosed b (close st store).1.1 store = Err CoverageAuthorityError.
Proof.
  intros He Hb. unfold ack_barrier_capability in Hb. apply rbind_ok in Hb as (? & Hu & Hb).
  unfold require_usable in Hu. apply rbind_ok in Hu as (? & Hh%guard_ok & Hc%guard_ok).
  rewrite He in Hb. destruct (lifecycle st) as [l|] eqn:El; [|done].
  destruct (capability st) as [t|] eqn:Et; [|done].
  apply rbind_ok in Hb as (h & Hv%catch_ok & Hb). injection Hb as <-.
  destruct (validated_owner _ _ _ _ _ Hv) as [Ho _].
  unfold barrier_first_unclosed, first_unclosed_sequence_gap. cbn [barrier_lifecycle barrier_capability].
  split_and!; [done| |].
  - rewrite Hh, Hc, He, El, Et, Hv. rewrite !bool_decide_eq_true_2 by done. cbn [andb guard rbind catch_with].
    eexists. split; [done|].
    destruct (min_default _) as [q|] eqn:Em.
    + apply min_default_spec in Em as [Hin Hmin]. split.
      * apply in_map_iff in Hin as (g & <- & [Hg Ho']%filter_In). exists g.
        apply bool_decide_eq_true in Ho'. split_and!; [by apply list_elem_of_In|done..].
      * intros g Hg Hopen. apply Hmin, in_map, filter_In. split; [by apply list_elem_of_In|].
        by apply bool_decide_eq_true.
    + apply gaps_all_closed. destruct (List.filter _ _) as [|g gs] eqn:Ef; [|done].
      apply not_true_iff_false. intros (g & Hg)%existsb_exists.
      apply filter_In in Hg. by rewrite Ef in Hg.
  - unfold close. apply negb_true_iff in Hc. rewrite Hc, He, El.
    destruct (release_coverage_state store (self st) l); cbn [fst snd]; by cbn; rewrite Hh.
Qed.

End Lawful.

(** ** Witnesses *)

Definition sample_state : CoverageState := set_snapshot (new_state 1) (snapshot_after 10).

(** Four seconds after the heartbeat of the sample history *)
Definition sample_context : MutationReadinessContext :=
  mkContext (mkDatetime (datetime_us (u "2026-01-01T00:00:10Z")) true) (f_of_int 104) true
    (Some (DecFinite 5 (-3))) (DecFinite 2 0) 10 10 10 10 true false false true true true.

Lemma sample_readiness (st : CoverageState) (ctx : MutationReadinessContext) (b : bool) :
  validate_mutation_readiness_context ctx = Ok tt ->
  is_ok (canonical_json (JObj (readiness_payload st ctx))) = true -> is_ready st ctx = b ->
  exists r, mutation_readiness st ctx = Ok r /\ ready r = b.
Proof.
  intros Hv He <-. unfold mutation_readiness. rewrite Hv. cbn [rbind].
  destruct (canonical_json _) as [c|]; [|done]. eexists. by split.
Qed.

Lemma readiness_exact_witness : exists r,
  mutation_readiness sample_state sample_context = Ok r /\ ready r = true
  /\ safe_to_mutate sample_state sample_context.
Proof.
  destruct (sample_readiness sample_state sample_context true) as (r & Hr & Hready);
    [vm_compute; reflexivity..|].
  exists r. split_and!; [exact Hr|exact Hready|].
  apply (readiness_exact sample_state sample_context r); [|exact Hr|exact Hready].
  apply sample_reachable. lia.
Defined.

(** The same decision taken twice *)
Lemma readiness_digest_binds_witness : exists r1 r2,
  mutation_readiness sample_state sample_context = Ok r1
  /\ mutation_readiness sample_state sample_context = Ok r2
  /\ (r1 = r2 \/ exists c1 c2,
       canonical_json (JObj (readiness_payload sample_state sample_context)) = Ok c1
       /\ canonical_json (JObj (readiness_payload sample_state sample_context)) = Ok c2
       /\ collision (COVERAGE_SNAPSHOT_DOMAIN ++ c1) (COVERAGE_SNAPSHOT_DOMAIN ++ c2)).
Proof.
  destruct (sample_readiness sample_state sample_context true) as (r & Hr & _);
    [vm_compute; reflexivity..|].
  exists r, r. split_and!; [exact Hr|exact Hr|].
  exact (readiness_digest_binds _ _ r _ _ r Hr Hr eq_refl).
Defined.

(** A store without records, and a record that names no segment *)
Definition empty_store : SegmentStore :=
  mkStore 7 false true 0 ∅ [] ∅ ∅ [] None 9.

Definition bad_record : StoredEvidenceRecord :=
  mkStored [] [] ROUTINE [] (mkRef [] [] 0 0 [] [] 0 []).

Lemma failed_apply_fences_witness : exists st',
  apply sample_state empty_store bad_record None = (st', Err CoverageValidationError)
  /\ snapshot st' = snapshot sample_state /\ healthy st' = false /\ refuses_forever (S:=SegmentStore) st'.
Proof.
  exists (fence sample_state).
  assert (Ha : apply sample_state empty_store bad_record None
    = (fence sample_state, Err CoverageValidationError)).
  { rewrite apply_unbound by reflexivity.
    assert (prepare bad_record = Err CoverageValidationError) as -> by (vm_compute; reflexivity).
    reflexivity. }
  split; [exact Ha|].
  apply (failed_apply_fences sample_state empty_store bad_record None CoverageValidationError);
    [reflexivity|reflexivity|left; exact Ha].
Defined.

(** A store holding one record, owned by object 1 *)
Definition store_with (record : StoredEvidenceRecord) : SegmentStore :=
  let r := ref record in
  mkStore 7 false true (ref_source_sequence r) {[ref_source_sequence r := r]}
    [ref_source_sequence r] {[ref_source_sequence r := r]} {[ref_source_sequence r := 0%nat]}
    [record] (Some 1) 9.

(** The sample history up to its open sequence gap, bound to such a store *)
Definition gap_state : CoverageState :=
  mkState 1 (snapshot_after 4) true false (Some 7) (Some 9) (Some 2).

Definition gap_record : StoredEvidenceRecord :=
  mkStored [] [] PROTECTED [] (p_ref (report 4 0 (gap_coverage false) gap_flags)).

Lemma ack_barrier_exact_witness :
  barrier_first_unclosed (mkBarrier 1 7 9 2) gap_state (store_with gap_record) = Ok (Some 4)
  /\ barrier_first_unclosed (mkBarrier 1 7 9 2) (close gap_state (store_with gap_record)).1.1
       (store_with gap_record) = Err CoverageAuthorityError.
Proof.
  split; [vm_compute; reflexivity|].
  apply (ack_barrier_exact (store_with gap_record) gap_state (mkBarrier 1 7 9 2));
    vm_compute; reflexivity.
Defined.

(** The genesis record as stored *)
Definition genesis_record : StoredEvidenceRecord :=
  let e := build_envelope (u "observer_start") 1 (at_second "0") 0
    [(u "kind", JStr (u "observer_start")); (u "reconcile_required", JBool true)]
    [u "reconcile_required"] in
  let raw := match canonical_json (JObj (envelope_dump e)) with Ok raw => raw | Err _ => [] end in
  let digest := sha256_hex raw in
  mkStored (envelope_dump e) raw PROTECTED (event_time e)
    (mkRef sample_segment sample_path 0 2048 digest (e_event_id e) 1 digest).

Definition fresh_bound : CoverageState :=
  mkState 1 empty_snapshot true false (Some 7) (Some 9) (Some 2).

Lemma store_with_wf record : evidence_wf (store_with record).
Proof.
  split; [by repeat constructor|]. cbn. intros q e. rewrite lookup_singleton_Some. by intros [<- <-].
Qed.

