(* ===== verification/SpecialUse.v ===== *)
(** * The special-use address registry

    [correlation/primitives.py], lines 20-330: the strict parser of the pinned
    IANA CSV snapshot (with the standard library's [csv.reader] in strict mode and
    universal line splitting), the immutable registry with its index ordered by
    prefix length, and the most-specific lookup that decides global reachability. *)

From S2P Require Import Prelude Sha256 CanonicalJson JsonDecode Ipv4 Contracts.
Local Open Scope Z_scope.
Local Open Scope agmind_scope.

(** ** [csv.reader(io.StringIO(text, newline=''), strict=True)] *)

(** The lines of the text, each with its terminator. *)
Fixpoint csv_lines (line : pystr) (text : pystr) : list pystr :=
  match text with
  | [] => match line with [] => [] | _ => [rev line] end
  | 13 :: text' =>
      match text' with
      | 10 :: text'' => rev (10 :: 13 :: line) :: csv_lines [] text''
      | _ => rev (13 :: line) :: csv_lines [] text'
      end
  | c :: text => if c =? 10 then rev (10 :: line) :: csv_lines [] text
                 else csv_lines (c :: line) text
  end.

Inductive csv_state :=
| StartRecord | StartField | InField | InQuotedField | QuoteInQuotedField | EatCrnl.

#[export] Instance csv_state_eq_dec : EqDecision csv_state.
Proof. solve_decision. Defined.

(** State, the characters of the field under way (last first), the fields of the
    record (last first). *)
Record csv_parser := mkParser { p_state : csv_state; p_field : pystr; p_fields : list pystr }.

Definition save_field (p : csv_parser) (s : csv_state) : csv_parser :=
  mkParser s [] (rev (p_field p) :: p_fields p).

Definition add_char (p : csv_parser) (c : Z) (s : csv_state) : csv_parser :=
  mkParser s (c :: p_field p) (p_fields p).

Definition is_newline (c : Z) : bool := (c =? 10) || (c =? 13).

(** One character, or [None] for the end of a line; an error is [csv.Error]. *)
Definition csv_step (p : csv_parser) (c : option Z) : result py_exn csv_parser :=
  let ended := match c with None => true | Some c => is_newline c end in
  let after := match c with None => StartRecord | Some _ => EatCrnl end in
  let start_field :=
    if ended then Ok (save_field p after)
    else match c with
         | Some c =>
             if c =? 34 then Ok (mkParser InQuotedField (p_field p) (p_fields p))
             else if c =? 44 then Ok (save_field p StartField)
             else Ok (add_char p c InField)
         | None => Ok p
         end in
  match p_state p with
  | StartRecord =>
      match c with
      | None => Ok p
      | Some c => if is_newline c then Ok (mkParser EatCrnl (p_field p) (p_fields p))
                  else start_field
      end
  | StartField => start_field
  | InField =>
      if ended then Ok (save_field p after)
      else match c with
           | Some c => if c =? 44 then Ok (save_field p StartField) else Ok (add_char p c InField)
           | None => Ok p
           end
  | InQuotedField =>
      match c with
      | None => Ok p
      | Some c => if c =? 34 then Ok (mkParser QuoteInQuotedField (p_field p) (p_fields p))
                  else Ok (add_char p c InQuotedField)
      end
  | QuoteInQuotedField =>
      if ended then Ok (save_field p after)
      else match c with
           | Some c =>
               if c =? 34 then Ok (add_char p c InQuotedField)
               else if c =? 44 then Ok (save_field p StartField)
               else Err ValueError
           | None => Ok p
           end
  | EatCrnl =>
      match c with
      | None => Ok (mkParser StartRecord (p_field p) (p_fields p))
      | Some c => if is_newline c then Ok p else Err ValueError
      end
  end.

Fixpoint csv_chars (p : csv_parser) (line : pystr) : result py_exn csv_parser :=
  match line with
  | [] => csv_step p None
  | c :: line => let* p := csv_step p (Some c) in csv_chars p line
  end.

Definition csv_empty : csv_parser := mkParser StartRecord [] [].

(** The records; a record may span lines while a quoted field is open. *)
Fixpoint csv_records (p : csv_parser) (lines : list pystr) : result py_exn (list (list pystr)) :=
  match lines with
  | [] =>
      if bool_decide (p_state p = StartRecord) then Ok []
      else Err ValueError                     (* unexpected end of data *)
  | line :: lines =>
      let* p := csv_chars p line in
      if bool_decide (p_state p = StartRecord)
      then let* rest := csv_records csv_empty lines in Ok (rev (p_fields p) :: rest)
      else csv_records p lines
  end.

(** ** Cells *)

(** [str.isspace] of one character *)
Definition is_py_space (c : Z) : bool :=
  ((9 <=? c) && (c <=? 13)) || ((0x1C <=? c) && (c <=? 0x20)) || (c =? 0x85) || (c =? 0xA0)
  || (c =? 0x1680) || ((0x2000 <=? c) && (c <=? 0x200A)) || (c =? 0x2028) || (c =? 0x2029)
  || (c =? 0x202F) || (c =? 0x205F) || (c =? 0x3000).

Fixpoint lstrip (s : pystr) : pystr :=
  match s with c :: s' => if is_py_space c then lstrip s' else s | [] => [] end.

(** [s.strip()] *)
Definition strip (s : pystr) : pystr := rev (lstrip (rev (lstrip s))).

Fixpoint drop_digits (s : pystr) : pystr :=
  match s with c :: s' => if is_digit c then drop_digits s' else s | [] => [] end.

(** One footnote [" [123]"] at the front of the reversed text, if there is one *)
Definition drop_footnote (s : pystr) : option pystr :=
  match s with
  | 93 :: ((d :: _) as t) =>
      if is_digit d then
        match drop_digits t with
        | 91 :: 32 :: rest => Some rest
        | _ => None
        end
      else None
  | _ => None
  end.

(** All of them; each is at least four characters, so the length is fuel enough. *)
Fixpoint drop_footnotes (fuel : nat) (s : pystr) : pystr :=
  match fuel with
  | O => s
  | S fuel => match drop_footnote s with Some rest => drop_footnotes fuel rest | None => s end
  end.

(** [_without_footnote] *)
Definition without_footnote (value : pystr) : pystr :=
  rev (drop_footnotes (length value) (rev value)).

Inductive GlobalReachability := REACH_TRUE | REACH_FALSE | UNSPECIFIED.

#[export] Instance GlobalReachability_eq_dec : EqDecision GlobalReachability.
Proof. solve_decision. Defined.

(** [_parse_reachability] *)
Definition parse_reachability (value : pystr) : result py_exn GlobalReachability :=
  if bool_decide (value = []) then Ok UNSPECIFIED
  else if bool_decide (without_footnote value = u "True") then Ok REACH_TRUE
  else if bool_decide (without_footnote value = u "False") then Ok REACH_FALSE
  else Err ValueError.

(** [_parse_prefix]: the network, whose text is the normalized cell *)
Definition parse_prefix (value : pystr) : result py_exn ipv4_network :=
  let normalized := without_footnote (strip value) in
  guard (negb (bool_decide (normalized = []))) ValueError ;;*
  canonical_ipv4_network normalized.

(** ** Entries and registries *)

Record SpecialUseEntry := mkEntry { prefix : pystr; globally_reachable : GlobalReachability }.

#[export] Instance SpecialUseEntry_eq_dec : EqDecision SpecialUseEntry.
Proof. solve_decision. Defined.

(** [SpecialUseEntry(prefix, globally_reachable)] *)
Definition SpecialUseEntry_new (prefix : pystr) (r : GlobalReachability)
  : result py_exn SpecialUseEntry :=
  canonical_ipv4_network prefix ;;* Ok (mkEntry prefix r).

Record index_row := mkIndexRow { i_network : Z; i_prefixlen : Z; i_reach : GlobalReachability }.

Record ParsedSpecialUseRegistry := mkRegistry {
  entries : list SpecialUseEntry; r_index : list index_row }.

(** The loop of the constructor: rows in entry order, prefixes seen so far *)
Fixpoint index_rows (seen : list pystr) (l : list SpecialUseEntry) : result py_exn (list index_row) :=
  match l with
  | [] => Ok []
  | e :: l =>
      guard (negb (bool_decide (prefix e ∈ seen))) ValueError ;;*
      let* net := canonical_ipv4_network (prefix e) in
      let* rows := index_rows (prefix e :: seen) l in
      Ok (mkIndexRow (network_address net) (prefixlen net) (globally_reachable e) :: rows)
  end.

(** [index.sort(key=lambda item: item[1], reverse=True)], a stable sort *)
Definition longer_first (x y : index_row) : bool := i_prefixlen y <=? i_prefixlen x.

(** [ParsedSpecialUseRegistry.__init__] *)
Definition ParsedSpecialUseRegistry_new (l : list SpecialUseEntry)
  : result py_exn ParsedSpecialUseRegistry :=
  let* rows := index_rows [] l in
  Ok (mkRegistry l (py_sort longer_first rows)).

Definition row_matches (address : Z) (row : index_row) : bool :=
  Z.shiftr address (32 - i_prefixlen row) =? Z.shiftr (i_network row) (32 - i_prefixlen row).

(** [reachability_for] *)
Definition reachability_for (reg : ParsedSpecialUseRegistry) (address : pystr)
  : result py_exn (option GlobalReachability) :=
  let* n := canonical_ipv4_address address in
  Ok (i_reach <$> List.find (row_matches n) (r_index reg)).

(** [is_globally_reachable] *)
Definition is_globally_reachable (reg : ParsedSpecialUseRegistry) (address : pystr)
  : result py_exn bool :=
  let* r := reachability_for reg address in
  Ok (match r with None => true | Some r => bool_decide (r = REACH_TRUE) end).

(** ** The snapshot file *)

Definition IANA_HEADER : list pystr :=
  map u ["Address Block"; "Name"; "RFC"; "Allocation Date"; "Termination Date"; "Source";
         "Destination"; "Forwardable"; "Globally Reachable"; "Reserved-by-Protocol"]%string.

Definition MAX_REGISTRY_BYTES : Z := 64 * 1024.
Definition MAX_REGISTRY_ROWS : nat := N.to_nat 1024.
Definition MAX_REGISTRY_PREFIXES : nat := N.to_nat 2048.

(** The blocks of one row, appended to the entries so far (in order); the set of
    prefixes seen is that of the entries. *)
Fixpoint add_blocks (acc : list SpecialUseEntry) (r : GlobalReachability) (blocks : list pystr)
  : result py_exn (list SpecialUseEntry) :=
  match blocks with
  | [] => Ok acc
  | b :: blocks =>
      let* net := parse_prefix b in
      let text := ipv4_network_text net in
      guard (negb (bool_decide (text ∈ map prefix acc))) ValueError ;;*
      guard (bool_decide (length acc < MAX_REGISTRY_PREFIXES)%nat) ValueError ;;*
      let* e := SpecialUseEntry_new text r in
      add_blocks (acc ++ [e]) r blocks
  end.

(** One record after the header *)
Definition add_row (acc : list SpecialUseEntry) (row : list pystr)
  : result py_exn (list SpecialUseEntry) :=
  guard (bool_decide (length row = length IANA_HEADER)) ValueError ;;*
  let* r := parse_reachability (nth 8 row []) in
  let blocks := split_on 44 (nth 0 row []) in
  guard (negb (existsb (fun b => bool_decide (strip b = [])) blocks)) ValueError ;;*
  add_blocks acc r blocks.

Fixpoint add_rows (acc : list SpecialUseEntry) (count : nat) (rows : list (list pystr))
  : result py_exn (list SpecialUseEntry) :=
  match rows with
  | [] => guard (negb (bool_decide (count = 0%nat))) ValueError ;;* Ok acc
  | row :: rows =>
      guard (bool_decide (count < MAX_REGISTRY_ROWS)%nat) ValueError ;;*
      let* acc := add_row acc row in
      add_rows acc (S count) rows
  end.

(** [_parse_special_use_registry_bytes] *)
Definition parse_special_use_registry_bytes (raw : bytes)
  : result py_exn ParsedSpecialUseRegistry :=
  guard (Z.of_nat (length raw) <=? MAX_REGISTRY_BYTES) ValueError ;;*
  let* text := of_option ValueError (utf8_decode raw) in
  guard (negb (bool_decide (0 ∈ text))) ValueError ;;*
  let* records := csv_records csv_empty (csv_lines [] text) in
  match records with
  | header :: rows =>
      guard (bool_decide (header = IANA_HEADER)) ValueError ;;*
      let* l := add_rows [] 0 rows in
      ParsedSpecialUseRegistry_new l
  | [] => Err ValueError
  end.

Definition PCC_SPECIAL_USE_REGISTRY_SHA256 : pystr :=
  u "e3e39e76d00b1677335db8e9a805c7b9480ea2f4dc9e33f0b93cd3a905128d73".

(** [load] of the pinned loader, on the bytes of the file *)
Definition load_pinned (raw : bytes)
  : result py_exn ParsedSpecialUseRegistry :=
  let raw := take (Z.to_nat (MAX_REGISTRY_BYTES + 1)) raw in
  guard (Z.of_nat (length raw) <=? MAX_REGISTRY_BYTES) ValueError ;;*
  guard (bool_decide (sha256_hex raw = PCC_SPECIAL_USE_REGISTRY_SHA256)) ValueError ;;*
  let* parsed := parse_special_use_registry_bytes raw in
  ParsedSpecialUseRegistry_new (entries parsed).

(** ** The lookup is a longest-prefix match *)

(** The addresses of a network, as a range *)
Definition covers (net : ipv4_network) (n : Z) : Prop :=
  network_address net <= n < network_address net + 2 ^ (32 - prefixlen net).

Definition entry_net (e : SpecialUseEntry) (net : ipv4_network) : Prop :=
  canonical_ipv4_network (prefix e) = Ok net.

Definition row_of (e : SpecialUseEntry) (row : index_row) : Prop :=
  exists net, entry_net e net
    /\ row = mkIndexRow (network_address net) (prefixlen net) (globally_reachable e).

Lemma entry_net_ok e net : entry_net e net -> network_ok net /\ prefix e = ipv4_network_text net.
Proof. apply canonical_ipv4_network_ok. Qed.

Lemma index_rows_spec seen l rows :
  index_rows seen l = Ok rows ->
  Forall2 row_of l rows /\ NoDup (map prefix l) /\ Forall (fun e => prefix e ∉ seen) l.
Proof.
  revert seen rows. induction l as [|e l IH]; intros seen rows H; cbn [index_rows] in H.
  - injection H as <-. repeat constructor.
  - apply rbind_ok in H as (? & Hg%guard_ok & H). apply rbind_ok in H as (net & Hn & H).
    apply rbind_ok in H as (rest & Hr & H). injection H as <-.
    apply negb_true_iff, bool_decide_eq_false in Hg. destruct (IH _ _ Hr) as (H2 & Hnd & Hs).
    split_and!.
    + constructor; [by exists net|done].
    + cbn [map]. constructor; [|done]. intros (e' & E & Hin)%list_elem_of_fmap.
      rewrite Forall_forall in Hs. apply (Hs e' Hin). rewrite <- E. constructor.
    + constructor; [done|]. eapply Forall_impl; [exact Hs|]. intros e' Hn' Hin. apply Hn'.
      by right.
Qed.

Lemma row_matches_covers e net n :
  entry_net e net ->
  row_matches n (mkIndexRow (network_address net) (prefixlen net) (globally_reachable e)) = true
  <-> covers net n.
Proof. intros [Hok _]%entry_net_ok. exact (in_network_spec n net Hok). Qed.

(** Two networks of the same length that share an address are the same. *)
Lemma covers_same_length net net' n :
  network_ok net -> network_ok net' -> covers net n -> covers net' n ->
  prefixlen net = prefixlen net' -> net = net'.
Proof.
  intros H H' Hc Hc' E. apply in_network_spec in Hc; [|done]. apply in_network_spec in Hc'; [|done].
  unfold in_network in *. destruct H as (Ha & Hp & Hm), H' as (Ha' & Hp' & Hm').
  apply Z.eqb_eq in Hc, Hc'. rewrite <- E in *. destruct net as [a p], net' as [a' p'].
  cbn [network_address prefixlen] in *. subst p'. f_equal.
  rewrite Hc in Hc'. rewrite !Z.shiftr_div_pow2 in Hc' by lia.
  rewrite (Z.div_mod a (2 ^ (32 - p))), (Z.div_mod a' (2 ^ (32 - p))) by lia. lia.
Qed.

Lemma network_text_inj net net' :
  network_ok net -> network_ok net' -> ipv4_network_text net = ipv4_network_text net' -> net = net'.
Proof.
  intros H H' E.
  pose proof (proj2 (canonical_ipv4_network_ok _ net) (conj H eq_refl)) as H1.
  pose proof (proj2 (canonical_ipv4_network_ok _ net') (conj H' eq_refl)) as H2.
  rewrite E in H1. congruence.
Qed.

Lemma find_longest n rows row :
  StronglySorted (LeB longer_first) rows -> List.find (row_matches n) rows = Some row ->
  row ∈ rows /\ row_matches n row = true
  /\ forall row', row' ∈ rows -> row_matches n row' = true -> i_prefixlen row' <= i_prefixlen row.
Proof.
  induction 1 as [|x rows Hs IH Hx]; cbn [List.find]; [done|].
  destruct (row_matches n x) eqn:E.
  - intros [= <-]. split_and!; [constructor|done|]. intros row' [->|Hin]%elem_of_cons _; [lia|].
    rewrite Forall_forall in Hx. by apply Hx, Z.leb_le in Hin.
  - intros Hf. destruct (IH Hf) as (Hin & Hm & Hall). split_and!; [by right|done|].
    intros row' [->|Hin']%elem_of_cons Hm'; [congruence|by apply Hall].
Qed.

Lemma longer_first_sorted rows : StronglySorted (LeB longer_first) (py_sort longer_first rows).
Proof.
  apply py_sort_sorted; unfold longer_first.
  - intros x y. destruct (Z.leb_spec (i_prefixlen y) (i_prefixlen x)); [by left|right].
    apply Z.leb_le. lia.
  - intros x y z H1%Z.leb_le H2%Z.leb_le. apply Z.leb_le. lia.
Qed.

(** C30: reachability is decided by longest-prefix match.  For every registry the
    constructor accepts and every IPv4 address, the lookup answers with the value
    of the entry that covers the address and is strictly more specific than every
    other entry covering it, or with nothing exactly when no entry covers it; text
    that is not a canonical address is refused. *)
Theorem reachability_longest_prefix l reg :
  ParsedSpecialUseRegistry_new l = Ok reg ->
  (forall n, 0 <= n < 2 ^ 32 -> exists answer,
     reachability_for reg (ipv4_text n) = Ok answer
     /\ match answer with
        | None => forall e net, e ∈ l -> entry_net e net -> ~ covers net n
        | Some r => exists e net, e ∈ l /\ entry_net e net /\ covers net n
            /\ globally_reachable e = r
            /\ forall e' net', e' ∈ l -> entry_net e' net' -> covers net' n ->
                 e' = e \/ prefixlen net' < prefixlen net
        end)
  /\ (forall s, (forall n, 0 <= n < 2 ^ 32 -> s <> ipv4_text n) ->
        is_ok (reachability_for reg s) = false).
Proof.
  intros H. unfold ParsedSpecialUseRegistry_new in H. apply rbind_ok in H as (rows & Hrows & H).
  injection H as <-. destruct (index_rows_spec _ _ _ Hrows) as (H2 & Hnd & _). split.
  2:{ intros s Hs. unfold reachability_for.
      destruct (canonical_ipv4_address s) as [n|] eqn:E; [|done].
      apply canonical_ipv4_address_ok in E as [Hn ->]. by destruct (Hs n Hn). }
  intros n Hn. unfold reachability_for.
  rewrite (proj2 (canonical_ipv4_address_ok (ipv4_text n) n)) by done. cbn [rbind r_index].
  eexists. split; [done|]. destruct (List.find _ _) as [row|] eqn:Ef; cbn [fmap option_fmap option_map].
  - destruct (find_longest _ _ _ (longer_first_sorted rows) Ef) as (Hin & Hm & Hall).
    rewrite py_sort_perm in Hin. apply list_elem_of_lookup in Hin as [i Hi].
    destruct (Forall2_lookup_r _ _ _ _ _ H2 Hi) as (e & Hei & net & Hnet & ->).
    exists e, net. apply (row_matches_covers e net n Hnet) in Hm.
    split_and!; try done; [by eapply list_elem_of_lookup_2|].
    intros e' net' [j Hj]%list_elem_of_lookup Hnet' Hc'.
    destruct (Forall2_lookup_l _ _ _ _ _ H2 Hj) as (row' & Hj' & net'' & Hnet'' & ->).
    assert (net'' = net') as -> by (unfold entry_net in *; congruence).
    specialize (Hall _ ltac:(rewrite py_sort_perm; by eapply list_elem_of_lookup_2)
      (proj2 (row_matches_covers e' net' n Hnet') Hc')). cbn [i_prefixlen] in Hall.
    destruct (decide (prefixlen net' = prefixlen net)) as [E|]; [left|right; lia].
    apply entry_net_ok in Hnet as [Hok Ht], Hnet' as [Hok' Ht'].
    assert (net' = net) as -> by (by apply (covers_same_length _ _ n)).
    assert (i = j) as ->; [|congruence].
    apply (NoDup_lookup (map prefix l) i j (prefix e)); [done| |];
      change (map prefix l) with (prefix <$> l); rewrite list_lookup_fmap.
    + by rewrite Hei.
    + rewrite Hj. cbn. congruence.
  - intros e net [j Hj]%list_elem_of_lookup Hnet Hc.
    destruct (Forall2_lookup_l _ _ _ _ _ H2 Hj) as (row & Hj' & net' & Hnet' & ->).
    assert (net' = net) as -> by (unfold entry_net in *; congruence).
    apply (row_matches_covers e net n Hnet) in Hc. eapply List.find_none in Ef; [|].
    { rewrite Hc in Ef. done. }
    apply list_elem_of_In. rewrite py_sort_perm. by eapply list_elem_of_lookup_2.
Qed.

(** ** What the parser accepts *)

Definition entries_ok (l : list SpecialUseEntry) : Prop :=
  NoDup (map prefix l) /\ Forall (fun e => exists net, entry_net e net) l
  /\ (length l <= MAX_REGISTRY_PREFIXES)%nat.

Lemma add_blocks_ok acc r blocks l :
  entries_ok acc -> add_blocks acc r blocks = Ok l ->
  entries_ok l /\ length l = (length acc + length blocks)%nat /\ acc `prefix_of` l.
Proof.
  revert acc. induction blocks as [|b blocks IH]; intros acc Ha H; cbn [add_blocks] in H.
  - injection H as <-. split_and!; [done|cbn; lia|done].
  - apply rbind_ok in H as (net & _ & H). cbv zeta in H.
    apply rbind_ok in H as (? & Hf%guard_ok & H). apply rbind_ok in H as (? & Hl%guard_ok & H).
    apply rbind_ok in H as (e & He & H). unfold SpecialUseEntry_new in He.
    apply rbind_ok in He as (net' & Hn & He). injection He as <-. breflect.
    destruct Ha as (Hnd & Hall & _).
    destruct (IH (acc ++ [mkEntry (ipv4_network_text net) r])) as (Hok & Hlen & Hp); [|exact H|].
    + split_and!.
      * rewrite map_app. apply NoDup_app. split_and!; [done| |apply NoDup_singleton].
        intros y Hy Hy'%list_elem_of_singleton. by subst.
      * apply Forall_app. split; [done|]. constructor; [by exists net'|constructor].
      * rewrite length_app. cbn [length]. lia.
    + split_and!; [done| |].
      * rewrite Hlen, length_app. cbn [length]. lia.
      * etrans; [|exact Hp]. by eexists.
Qed.

Lemma split_on_length sep s : (1 <= length (split_on sep s))%nat.
Proof.
  pose proof (split_on_nonempty sep s). destruct (split_on sep s); [done|cbn; lia].
Qed.

Lemma add_rows_ok acc count rows l :
  entries_ok acc -> (count <= length acc)%nat -> add_rows acc count rows = Ok l ->
  entries_ok l /\ l <> [].
Proof.
  revert acc count. induction rows as [|row rows IH]; intros acc count Ha Hc H; cbn [add_rows] in H.
  - apply rbind_ok in H as (? & Hg%guard_ok & H). injection H as <-. breflect. split; [done|].
    intros ->. cbn in Hc. lia.
  - apply rbind_ok in H as (? & _ & H). apply rbind_ok in H as (acc' & Hr & H).
    unfold add_row in Hr. apply rbind_ok in Hr as (? & _ & Hr). apply rbind_ok in Hr as (r & _ & Hr).
    cbv zeta in Hr. apply rbind_ok in Hr as (? & _ & Hr).
    destruct (add_blocks_ok _ _ _ _ Ha Hr) as (Ha' & Hlen & _).
    eapply (IH acc'); [done| |exact H]. pose proof (split_on_length 44 (nth 0 row [])). lia.
Qed.

Lemma parsed_registry raw reg :
  parse_special_use_registry_bytes raw = Ok reg ->
  Z.of_nat (length raw) <= MAX_REGISTRY_BYTES /\ entries_ok (entries reg) /\ entries reg <> []
  /\ ParsedSpecialUseRegistry_new (entries reg) = Ok reg.
Proof.
  unfold parse_special_use_registry_bytes. intros Hp.
  apply rbind_ok in Hp as (? & Hlen%guard_ok & Hp). apply rbind_ok in Hp as (text & _ & Hp).
  apply rbind_ok in Hp as (? & _ & Hp). apply rbind_ok in Hp as (records & _ & Hp).
  destruct records as [|header rows]; [done|]. apply rbind_ok in Hp as (? & _ & Hp).
  apply rbind_ok in Hp as (l & Hl & Hp).
  apply add_rows_ok in Hl as [Hok Hne]; [|split_and!; [apply NoDup_nil_2|constructor|cbn; lia]|done].
  assert (entries reg = l) as ->; [|by apply Z.leb_le in Hlen].
  unfold ParsedSpecialUseRegistry_new in Hp. apply rbind_ok in Hp as (? & _ & Hp).
  by injection Hp as <-.
Qed.

(** The registry loader is strict and bounded.  It returns a registry exactly
    for bytes that have the pinned digest and that the strict parser accepts, and
    then the registry of that parse.  Whatever the parser accepts fits the byte
    limit and yields at least one and at most 2,048 entries with pairwise
    different prefixes, each the canonical text of an IPv4 network. *)
Theorem registry_loader_strict raw reg :
  (load_pinned raw = Ok reg
   <-> sha256_hex raw = PCC_SPECIAL_USE_REGISTRY_SHA256
       /\ parse_special_use_registry_bytes raw = Ok reg)
  /\ (parse_special_use_registry_bytes raw = Ok reg ->
       Z.of_nat (length raw) <= MAX_REGISTRY_BYTES
       /\ entries reg <> [] /\ (length (entries reg) <= MAX_REGISTRY_PREFIXES)%nat
       /\ NoDup (map prefix (entries reg))
       /\ Forall (fun e => exists net, network_ok net /\ prefix e = ipv4_network_text net)
            (entries reg)).
Proof.
  split.
  2:{ intros (Hlen & (Hnd & Hall & Hmax) & Hne & _)%parsed_registry. split_and!; try done.
      eapply Forall_impl; [exact Hall|]. intros e [net Hnet%entry_net_ok]. by exists net. }
  assert (Htake : Z.of_nat (length (take (Z.to_nat (MAX_REGISTRY_BYTES + 1)) raw))
    <= MAX_REGISTRY_BYTES -> take (Z.to_nat (MAX_REGISTRY_BYTES + 1)) raw = raw).
  { rewrite length_take. intros Hl. apply take_ge. unfold MAX_REGISTRY_BYTES in *. lia. }
  unfold load_pinned. cbv zeta. split.
  - intros H. apply rbind_ok in H as (? & Hlen%guard_ok & H).
    apply rbind_ok in H as (? & Hsha%guard_ok & H). apply rbind_ok in H as (parsed & Hp & H).
    apply Z.leb_le in Hlen. apply bool_decide_eq_true in Hsha. rewrite (Htake Hlen) in *.
    destruct (parsed_registry _ _ Hp) as (_ & _ & _ & Hnew). split; [done|]. congruence.
  - intros [Hsha Hp]. destruct (parsed_registry _ _ Hp) as (Hlen & _ & _ & Hnew).
    rewrite take_ge by (unfold MAX_REGISTRY_BYTES in *; lia).
    rewrite (proj2 (Z.leb_le _ _) Hlen), Hsha, bool_decide_eq_true_2 by done.
    cbn [guard rbind]. by rewrite Hp.
Qed.

(** ** Witnesses *)

Definition sample_entries : list SpecialUseEntry :=
  [mkEntry (u "192.0.0.0/24") REACH_FALSE; mkEntry (u "192.0.0.9/32") REACH_TRUE].

Lemma reachability_witness : exists reg,
  ParsedSpecialUseRegistry_new sample_entries = Ok reg
  /\ reachability_for reg (u "192.0.0.9") = Ok (Some REACH_TRUE)
  /\ exists answer, reachability_for reg (ipv4_text 3221225481) = Ok answer /\ answer <> None.
Proof.
  destruct (ParsedSpecialUseRegistry_new sample_entries) as [reg|] eqn:E; [|discriminate E].
  exists reg. split_and!; [reflexivity|vm_compute in E; injection E as <-; vm_compute; reflexivity|].
  destruct (reachability_longest_prefix sample_entries reg E) as [Hn _].
  destruct (Hn 3221225481) as (answer & Ha & Hs); [lia|]. exists answer. split; [exact Ha|].
  intros ->. apply (Hs (mkEntry (u "192.0.0.9/32") REACH_TRUE) (mkNet 3221225481 32)).
  - by right; left.
  - vm_compute. reflexivity.
  - unfold covers. cbn. lia.
Defined.
