(* ===== verification/Egress.v ===== *)
(** * Egress-deny intents and prepared plans

    The wire contracts [TemporaryEgressDenyIntentV1] and
    [PreparedTemporaryEgressDenyPlanV1] of [contracts.py], their exact canonical
    bytes ([_decode_exact_intent], [_decode_exact_plan]) and the check that a
    prepared plan keeps every field of its intent ([_require_plan_binds_intent]),
    from [actions/client.py]. *)

From S2P Require Import Prelude Sha256 CanonicalJson JsonDecode Time Ipv4 Identities Contracts.
Local Open Scope Z_scope.
Local Open Scope agmind_scope.

(** ** The shared fields: [_EgressDenyFields] *)

Record EgressDenyFields := mkEgress {
  x_intent_id : pystr; x_host_id : pystr; x_container_id : pystr; x_started_at : pystr;
  x_image_id : pystr; x_repo_digests : list pystr; x_spec_sha256 : pystr;
  x_generation : Z; x_revision : Z; x_destination : pystr; x_ttl : Z;
  x_evidence_ids : list pystr; x_detector_sha256 : pystr; x_policy_version : pystr;
  x_policy_sha256 : pystr; x_coverage_sha256 : pystr; x_created_at : pystr }.

#[export] Instance EgressDenyFields_eq_dec : EqDecision EgressDenyFields.
Proof. solve_decision. Defined.

Definition VERB : pystr := u "temporary_egress_deny".

(** The field validators *)
Definition egress_ok (x : EgressDenyFields) : bool :=
  is_prefixed_hex "int_" 32 (x_intent_id x) && UUID4 (x_host_id x) && HEX64 (x_container_id x)
  && valid_timestamp (x_started_at x) && valid_timestamp (x_created_at x)
  && is_prefixed_hex "sha256:" 64 (x_image_id x)
  && HEX64 (x_spec_sha256 x) && HEX64 (x_detector_sha256 x) && HEX64 (x_policy_sha256 x)
  && HEX64 (x_coverage_sha256 x) && valid_ipv4 (x_destination x)
  && short_ascii (x_policy_version x) && repo_digests_ok (x_repo_digests x)
  && is_sorted_unique (x_evidence_ids x) && forallb EVENT_ID (x_evidence_ids x).

(** The typed reads of the shared fields *)
Definition read_egress (doc : document) : result py_exn EgressDenyFields :=
  let* intent_id := str_field (u "intent_id") doc in
  literal_field (u "verb") [VERB] doc ;;*
  let* host_id := str_field (u "host_id") doc in
  let* container := str_field (u "docker_container_id") doc in
  let* started := str_field (u "docker_started_at") doc in
  let* image := str_field (u "image_id") doc in
  let* repos := str_list_field (u "repo_digests") 0 16 doc in
  let* spec := str_field (u "immutable_spec_sha256") doc in
  let* generation := int_field (u "inventory_generation") 0 MAX_UINT64 doc in
  let* revision := int_field (u "inventory_revision") 0 MAX_UINT64 doc in
  let* destination := str_field (u "destination_ipv4") doc in
  let* ttl := int_field (u "ttl_seconds") 30 300 doc in
  let* evidence := str_list_field (u "evidence_ids") 1 32 doc in
  let* detector := str_field (u "detector_bundle_sha256") doc in
  let* policy_version := str_field (u "policy_bundle_version") doc in
  let* policy_sha := str_field (u "policy_bundle_sha256") doc in
  let* coverage_sha := str_field (u "coverage_snapshot_sha256") doc in
  let* created := str_field (u "created_at") doc in
  let x := mkEgress intent_id host_id container started image repos spec generation revision
    destination ttl evidence detector policy_version policy_sha coverage_sha created in
  check (egress_ok x) ;;* Ok x.

Definition egress_fields (x : EgressDenyFields) : list (pystr * option json) :=
  [(u "intent_id", Some (JStr (x_intent_id x))); (u "verb", Some (JStr VERB));
   (u "host_id", Some (JStr (x_host_id x)));
   (u "docker_container_id", Some (JStr (x_container_id x)));
   (u "docker_started_at", Some (JStr (x_started_at x)));
   (u "image_id", Some (JStr (x_image_id x)));
   (u "repo_digests", Some (JArr (map JStr (x_repo_digests x))));
   (u "immutable_spec_sha256", Some (JStr (x_spec_sha256 x)));
   (u "inventory_generation", Some (JInt (x_generation x)));
   (u "inventory_revision", Some (JInt (x_revision x)));
   (u "destination_ipv4", Some (JStr (x_destination x)));
   (u "ttl_seconds", Some (JInt (x_ttl x)));
   (u "evidence_ids", Some (JArr (map JStr (x_evidence_ids x))));
   (u "detector_bundle_sha256", Some (JStr (x_detector_sha256 x)));
   (u "policy_bundle_version", Some (JStr (x_policy_version x)));
   (u "policy_bundle_sha256", Some (JStr (x_policy_sha256 x)));
   (u "coverage_snapshot_sha256", Some (JStr (x_coverage_sha256 x)));
   (u "created_at", Some (JStr (x_created_at x)))].

Definition egress_keys : list pystr :=
  map u ["intent_id"; "verb"; "host_id"; "docker_container_id"; "docker_started_at"; "image_id";
         "repo_digests"; "immutable_spec_sha256"; "inventory_generation"; "inventory_revision";
         "destination_ipv4"; "ttl_seconds"; "evidence_ids"; "detector_bundle_sha256";
         "policy_bundle_version"; "policy_bundle_sha256"; "coverage_snapshot_sha256";
         "created_at"]%string.

(** ** Intents *)

(** [TemporaryEgressDenyIntentV1] adds only its schema version. *)
Abbreviation TemporaryEgressDenyIntentV1 := EgressDenyFields.

Definition INTENT_SCHEMA : pystr := u "agmind.temporary-egress-deny-intent.v1".
Definition intent_keys : list pystr := u "schema_version" :: egress_keys.

Definition intent_validate (doc : document) : result py_exn TemporaryEgressDenyIntentV1 :=
  no_extra intent_keys doc ;;*
  literal_field (u "schema_version") [INTENT_SCHEMA] doc ;;*
  read_egress doc.

Definition intent_fields (x : TemporaryEgressDenyIntentV1) : list (pystr * option json) :=
  (u "schema_version", Some (JStr INTENT_SCHEMA)) :: egress_fields x.

Definition intent_dump (x : TemporaryEgressDenyIntentV1) : document := dump_of (intent_fields x).

(** ** Prepared plans *)

Record PreparedTemporaryEgressDenyPlanV1 := mkPlan {
  p_egress : EgressDenyFields; p_plan_id : pystr; p_boot_id : pystr; p_init_pid : Z;
  p_start_ticks : Z; p_cgroup_sha256 : pystr; p_netns_inode : Z; p_network_sha256 : pystr;
  p_registry_sha256 : pystr; p_denylist_sha256 : pystr; p_prepared_at : pystr;
  p_expires_at : pystr; p_nonce : pystr; p_plan_hash : pystr }.

#[export] Instance Plan_eq_dec : EqDecision PreparedTemporaryEgressDenyPlanV1.
Proof. solve_decision. Defined.

Definition PLAN_SCHEMA : pystr := u "agmind.prepared-temporary-egress-deny-plan.v1".
Definition HARD_LIMITS : pystr := u "pcc-hard-limits-v1".

Definition plan_only_keys : list pystr :=
  map u ["plan_id"; "boot_id"; "init_pid"; "pid_start_ticks"; "cgroup_path_sha256";
         "network_namespace_inode"; "docker_network_snapshot_sha256";
         "special_use_registry_sha256"; "management_denylist_sha256"; "hard_limits_version";
         "prepared_at"; "approval_expires_at"; "nonce"; "plan_hash"]%string.

Definition plan_keys : list pystr := u "schema_version" :: egress_keys ++ plan_only_keys.

Definition plan_only_fields (p : PreparedTemporaryEgressDenyPlanV1)
  : list (pystr * option json) :=
  [(u "plan_id", Some (JStr (p_plan_id p))); (u "boot_id", Some (JStr (p_boot_id p)));
   (u "init_pid", Some (JInt (p_init_pid p)));
   (u "pid_start_ticks", Some (JInt (p_start_ticks p)));
   (u "cgroup_path_sha256", Some (JStr (p_cgroup_sha256 p)));
   (u "network_namespace_inode", Some (JInt (p_netns_inode p)));
   (u "docker_network_snapshot_sha256", Some (JStr (p_network_sha256 p)));
   (u "special_use_registry_sha256", Some (JStr (p_registry_sha256 p)));
   (u "management_denylist_sha256", Some (JStr (p_denylist_sha256 p)));
   (u "hard_limits_version", Some (JStr HARD_LIMITS));
   (u "prepared_at", Some (JStr (p_prepared_at p)));
   (u "approval_expires_at", Some (JStr (p_expires_at p)));
   (u "nonce", Some (JStr (p_nonce p))); (u "plan_hash", Some (JStr (p_plan_hash p)))].

Definition plan_fields (p : PreparedTemporaryEgressDenyPlanV1) : list (pystr * option json) :=
  (u "schema_version", Some (JStr PLAN_SCHEMA)) :: egress_fields (p_egress p)
  ++ plan_only_fields p.

Definition plan_dump (p : PreparedTemporaryEgressDenyPlanV1) : document := dump_of (plan_fields p).

Definition plan_ok (p : PreparedTemporaryEgressDenyPlanV1) : bool :=
  is_prefixed_hex "plan_" 32 (p_plan_id p) && UUID4 (p_boot_id p)
  && HEX64 (p_cgroup_sha256 p) && HEX64 (p_network_sha256 p) && HEX64 (p_registry_sha256 p)
  && HEX64 (p_denylist_sha256 p) && HEX64 (p_plan_hash p)
  && valid_timestamp (p_prepared_at p) && valid_timestamp (p_expires_at p)
  && HEX64 (p_nonce p).

(** Five minutes in microseconds *)
Definition APPROVAL_WINDOW : Z := 5 * 60 * 1000000.

(** [identifiers_and_expiry_match] *)
Definition identifiers_and_expiry_match (p : PreparedTemporaryEgressDenyPlanV1)
  : result py_exn unit :=
  let* nonce := fromhex (p_nonce p) in
  let* derived := plan_id (x_intent_id (p_egress p)) nonce in
  check (bool_decide (derived = p_plan_id p)) ;;*
  let* hash := plan_hash (plan_dump p) in
  check (bool_decide (hash = p_plan_hash p)) ;;*
  check (datetime_us (p_expires_at p) - datetime_us (p_prepared_at p) =? APPROVAL_WINDOW).

Definition plan_validate (doc : document) : result py_exn PreparedTemporaryEgressDenyPlanV1 :=
  no_extra plan_keys doc ;;*
  literal_field (u "schema_version") [PLAN_SCHEMA] doc ;;*
  let* x := read_egress doc in
  let* plan_id := str_field (u "plan_id") doc in
  let* boot_id := str_field (u "boot_id") doc in
  let* init_pid := int_field (u "init_pid") 1 MAX_UINT64 doc in
  let* ticks := int_field (u "pid_start_ticks") 1 MAX_UINT64 doc in
  let* cgroup := str_field (u "cgroup_path_sha256") doc in
  let* inode := int_field (u "network_namespace_inode") 1 MAX_UINT64 doc in
  let* network := str_field (u "docker_network_snapshot_sha256") doc in
  let* registry := str_field (u "special_use_registry_sha256") doc in
  let* denylist := str_field (u "management_denylist_sha256") doc in
  literal_field (u "hard_limits_version") [HARD_LIMITS] doc ;;*
  let* prepared := str_field (u "prepared_at") doc in
  let* expires := str_field (u "approval_expires_at") doc in
  let* nonce := str_field (u "nonce") doc in
  let* hash := str_field (u "plan_hash") doc in
  let p := mkPlan x plan_id boot_id init_pid ticks cgroup inode network registry denylist
    prepared expires nonce hash in
  check (plan_ok p) ;;* identifiers_and_expiry_match p ;;* Ok p.

(** ** Exact bytes: [actions/client.py] *)

(** The typed failures of intent delivery, and what else may propagate *)
Inductive delivery_exn :=
| IntentDeliveryRetryable
| IntentDeliveryRejected (status_code : Z) (reason_code : pystr)
| IntentDeliveryFatal
| DeliveryPyError (e : py_exn).

#[export] Instance delivery_exn_eq_dec : EqDecision delivery_exn.
Proof. solve_decision. Defined.

Definition MAX_WIRE_BYTES : Z := 65536.

Definition fatal {E A} (r : result E A) : result delivery_exn A :=
  catch_with (fun _ => IntentDeliveryFatal) r.

Section DecodeExact.
Context {T : Type} (required : list pystr) (validate : document -> result py_exn T)
  (dump : T -> document).

(** The common body of [_decode_exact_intent] and [_decode_exact_plan] *)
Definition decode_exact (raw : bytes) : result delivery_exn T :=
  guard ((1 <=? Z.of_nat (length raw)) && (Z.of_nat (length raw) <=? MAX_WIRE_BYTES))
    IntentDeliveryFatal ;;*
  let* x := fatal (decode_strict required validate raw MAX_WIRE_BYTES) in
  let* canonical := catch_with DeliveryPyError (canonical_json (JObj (dump x))) in
  guard (bool_decide (canonical = raw)) IntentDeliveryFatal ;;*
  Ok x.
End DecodeExact.

(** [_decode_exact_intent] *)
Definition decode_exact_intent (raw : bytes) : result delivery_exn TemporaryEgressDenyIntentV1 :=
  decode_exact intent_keys intent_validate intent_dump raw.

(** [_decode_exact_plan] *)
Definition decode_exact_plan (raw : bytes)
  : result delivery_exn PreparedTemporaryEgressDenyPlanV1 :=
  decode_exact plan_keys plan_validate plan_dump raw.

(** [_require_plan_binds_intent]: [_INTENT_BINDING_FIELDS] are all the shared fields
    ([verb] is the same literal in both) *)
Definition require_plan_binds_intent (p : PreparedTemporaryEgressDenyPlanV1)
    (x : TemporaryEgressDenyIntentV1) : result delivery_exn unit :=
  guard (bool_decide (p_egress p = x)) IntentDeliveryFatal.

(** ** Exactness *)

#[export] Instance read_egress_proper : Proper (doc_equiv ==> eq) read_egress.
Proof. intros d1 d2 H. unfold read_egress. by reads H. Qed.

#[export] Instance intent_validate_proper : Proper (doc_equiv ==> eq) intent_validate.
Proof. intros d1 d2 H. unfold intent_validate. rewrite (read_egress_proper d1 d2 H). by reads H. Qed.

#[export] Instance plan_validate_proper : Proper (doc_equiv ==> eq) plan_validate.
Proof. intros d1 d2 H. unfold plan_validate. rewrite (read_egress_proper d1 d2 H). by reads H. Qed.

(** What the field types guarantee of the numbers and lists *)
Definition egress_ranges (x : EgressDenyFields) : Prop :=
  0 <= x_generation x <= MAX_UINT64 /\ 0 <= x_revision x <= MAX_UINT64 /\ 30 <= x_ttl x <= 300
  /\ (length (x_repo_digests x) <= 16)%nat /\ (1 <= length (x_evidence_ids x) <= 32)%nat.

Definition egress_valid (x : EgressDenyFields) : Prop := egress_ranges x /\ egress_ok x = true.

Lemma str_list_field_bounds k lo hi d l :
  str_list_field k lo hi d = Ok l -> (lo <= length l <= hi)%nat.
Proof.
  unfold str_list_field, check. destruct (get k d) as [[]|]; try done. intros H. inv_ok.
  apply map_res_length in H. breflect. lia.
Qed.

Lemma read_egress_sound d x : read_egress d = Ok x -> egress_valid x.
Proof.
  unfold read_egress. intros H. repeat (apply rbind_ok in H as (? & ? & H)). injection H as <-.
  repeat match goal with
  | H : int_field _ _ _ _ = Ok _ |- _ => apply int_field_range in H
  | H : str_list_field _ _ _ _ = Ok _ |- _ => apply str_list_field_bounds in H
  end.
  split; [unfold egress_ranges; cbn -[MAX_UINT64]; split_and!; lia|].
  by match goal with H : check _ = Ok _ |- _ => apply guard_ok in H end.
Qed.

(** Documents whose field table contains the shared fields read back to them. *)
Lemma read_egress_dump fields x :
  NoDup (map fst fields) -> egress_valid x ->
  (forall k v, (k, v) ∈ egress_fields x -> assoc k fields = v) ->
  read_egress (dump_of fields) = Ok x.
Proof.
  intros Hnd [(H1 & H2 & H3 & H4 & H5) Hok] Hin.
  assert (Hget : Forall (fun kv => get kv.1 (dump_of fields) = kv.2) (egress_fields x)).
  { apply Forall_forall. intros [k v] Hkv. rewrite get_dump_of by done. by apply Hin. }
  unfold egress_fields in Hget.
  repeat match goal with H : Forall _ (_ :: _) |- _ => apply Forall_cons in H as [? H] end.
  cbn [fst snd] in *. unfold read_egress.
  repeat (eapply rbind_step;
    [first [eapply str_field_eq; eassumption | eapply literal_field_eq; eassumption
           | eapply int_field_eq; [eassumption|lia]
           | eapply str_list_field_eq; [eassumption|lia]]
    |cbv beta]).
  rewrite check_true by (by destruct x). by destruct x.
Qed.

Lemma intent_keys_nodup : NoDup intent_keys.
Proof. apply (bool_decide_eq_true (NoDup intent_keys)). vm_compute. reflexivity. Qed.

Lemma plan_keys_nodup : NoDup plan_keys.
Proof. apply (bool_decide_eq_true (NoDup plan_keys)). vm_compute. reflexivity. Qed.

Lemma assoc_elem fields k v : NoDup (map fst fields) -> (k, v) ∈ fields -> assoc k fields = v.
Proof.
  induction fields as [|[k' v'] fields IH]; cbn [map fst assoc]; intros Hnd Hin;
    [by apply elem_of_nil in Hin|]. apply NoDup_cons in Hnd as [Hk Hnd].
  apply elem_of_cons in Hin as [[= -> ->]|Hin]; [by rewrite bool_decide_eq_true_2|].
  rewrite bool_decide_eq_false_2; [by apply IH|]. intros ->. apply Hk, list_elem_of_fmap.
  by exists (k, v).
Qed.

Lemma intent_validate_dump x : egress_valid x -> intent_validate (intent_dump x) = Ok x.
Proof.
  intros Hx. assert (Hnd : NoDup (map fst (intent_fields x))) by exact intent_keys_nodup.
  unfold intent_validate, intent_dump. do 2 read_dump Hnd.
  apply read_egress_dump; [done|done|]. intros k v Hkv. apply assoc_elem; [done|]. by right.
Qed.

Definition plan_valid (p : PreparedTemporaryEgressDenyPlanV1) : Prop :=
  egress_valid (p_egress p)
  /\ 1 <= p_init_pid p <= MAX_UINT64 /\ 1 <= p_start_ticks p <= MAX_UINT64
  /\ 1 <= p_netns_inode p <= MAX_UINT64
  /\ plan_ok p = true /\ identifiers_and_expiry_match p = Ok tt.

Lemma plan_validate_sound d p : plan_validate d = Ok p -> plan_valid p.
Proof.
  unfold plan_validate. intros H.
  apply rbind_ok in H as (? & _ & H). apply rbind_ok in H as (? & _ & H).
  apply rbind_ok in H as (eg & Hx%read_egress_sound & H).
  repeat (apply rbind_ok in H as (? & ? & H)). injection H as <-.
  repeat match goal with H : int_field _ _ _ _ = Ok _ |- _ => apply int_field_range in H end.
  split_and!; cbn -[MAX_UINT64 plan_ok identifiers_and_expiry_match]; try done; try lia.
  - by match goal with H : check _ = Ok _ |- _ => apply guard_ok in H end.
  - by match goal with H : identifiers_and_expiry_match _ = Ok ?u |- _ => destruct u end.
Qed.

Lemma plan_validate_dump p : plan_valid p -> plan_validate (plan_dump p) = Ok p.
Proof.
  intros (Hx & H1 & H2 & H3 & Hok & Hm).
  assert (Hnd : NoDup (map fst (plan_fields p))) by exact plan_keys_nodup.
  unfold plan_validate, plan_dump. do 2 read_dump Hnd. eapply rbind_step.
  { apply (read_egress_dump (plan_fields p)); [done|exact Hx|]. intros k v Hkv.
    apply assoc_elem; [done|]. right. apply elem_of_app. by left. }
  cbv beta. repeat read_dump Hnd.
  assert (E : mkPlan (p_egress p) (p_plan_id p) (p_boot_id p) (p_init_pid p) (p_start_ticks p)
    (p_cgroup_sha256 p) (p_netns_inode p) (p_network_sha256 p) (p_registry_sha256 p)
    (p_denylist_sha256 p) (p_prepared_at p) (p_expires_at p) (p_nonce p) (p_plan_hash p) = p)
    by (by destruct p).
  cbv zeta. rewrite E. rewrite check_true by done. cbn [rbind]. by rewrite Hm.
Qed.

Lemma flat_some v : canon v = v -> unique_keys v = true -> forall k, flat_field (k, Some v).
Proof. by split. Qed.

Lemma egress_flat x : Forall flat_field (egress_fields x).
Proof.
  unfold egress_fields. repeat first [apply Forall_nil_2 | apply Forall_cons_2];
    first [by apply flat_some | apply flat_some; apply flat_strings].
Qed.

Lemma intent_flat x : Forall flat_field (intent_fields x).
Proof. constructor; [by apply flat_some|apply egress_flat]. Qed.

Lemma plan_flat p : Forall flat_field (plan_fields p).
Proof.
  constructor; [by apply flat_some|]. apply Forall_app. split; [apply egress_flat|].
  unfold plan_only_fields.
  repeat first [apply Forall_nil_2 | apply Forall_cons_2; [by apply flat_some|]].
Qed.

Lemma canonical_nonempty m raw : canonical_json (JObj m) = Ok raw -> 1 <= Z.of_nat (length raw).
Proof.
  intros (t & He & Hu)%canonical_json_ok. destruct (encode_head _ _ _ He) as (c & t' & -> & _).
  simpl in Hu. destruct (utf8_char c) as [h|] eqn:Eh; [|done]. destruct (utf8_encode t'); [|done].
  injection Hu as <-. rewrite length_app.
  assert (h <> []) by (intros ->; unfold utf8_char in Eh; by repeat case_match).
  destruct h; [done|]. cbn [length]. lia.
Qed.

Section Exact.
Context {T : Type} (required : list pystr) (validate : document -> result py_exn T)
  (fields : T -> list (pystr * option json)) (valid : T -> Prop).
Context (Hproper : Proper (doc_equiv ==> eq) validate)
  (Hnd : forall x, NoDup (map fst (fields x))) (Hflat : forall x, Forall flat_field (fields x))
  (Hnn : forall x, forallb not_null_field (fields x) = true)
  (Hreq : forall x, forallb (fun k => bool_decide (assoc k (fields x) <> None)) required = true)
  (Hsound : forall d x, validate d = Ok x -> valid x)
  (Hdump : forall x, valid x -> validate (dump_of (fields x)) = Ok x).

Lemma decode_exact_iff raw x :
  decode_exact required validate (fun x => dump_of (fields x)) raw = Ok x
  <-> valid x /\ canonical_json (JObj (dump_of (fields x))) = Ok raw
      /\ Z.of_nat (length raw) <= MAX_WIRE_BYTES.
Proof.
  unfold decode_exact. split.
  - intros H. apply rbind_ok in H as (? & Hl%guard_ok & H).
    apply rbind_ok in H as (y & Hy%catch_ok & H). apply rbind_ok in H as (c & Hc%catch_ok & H).
    apply rbind_ok in H as (? & Hg%guard_ok & H). injection H as <-. breflect. subst c.
    unfold decode_strict in Hy. apply rbind_ok in Hy as (d & _ & Hy).
    apply rbind_ok in Hy as (? & _ & Hy). apply rbind_ok in Hy as (? & _ & Hy).
    split_and!; [by eapply Hsound|done|done].
  - intros (Hv & Hc & Hl).
    rewrite (proj2 (Z.leb_le _ _) (canonical_nonempty _ _ Hc)), (proj2 (Z.leb_le _ _) Hl).
    cbn [andb guard rbind]. unfold fatal.
    rewrite (flat_model_roundtrip validate required (fields x) x raw MAX_WIRE_BYTES) by auto.
    cbn [catch_with rbind]. rewrite Hc. cbn [catch_with rbind].
    by rewrite bool_decide_eq_true_2.
Qed.
End Exact.

Lemma intent_required_present x :
  forallb (fun k => bool_decide (assoc k (intent_fields x) <> None)) intent_keys = true.
Proof.
  apply forallb_forall. intros k Hk%list_elem_of_In.
  assert (Hall : Forall (fun k => assoc k (intent_fields x) <> None) intent_keys)
    by (unfold intent_keys, egress_keys; cbn [map]; repeat constructor; cbv; done).
  rewrite Forall_forall in Hall. by apply bool_decide_eq_true, Hall.
Qed.

Lemma plan_required_present p :
  forallb (fun k => bool_decide (assoc k (plan_fields p) <> None)) plan_keys = true.
Proof.
  apply forallb_forall. intros k Hk%list_elem_of_In.
  assert (Hall : Forall (fun k => assoc k (plan_fields p) <> None) plan_keys)
    by (unfold plan_keys, egress_keys, plan_only_keys; cbn [map app]; repeat constructor; cbv; done).
  rewrite Forall_forall in Hall. by apply bool_decide_eq_true, Hall.
Qed.

Lemma decode_exact_intent_iff raw x :
  decode_exact_intent raw = Ok x
  <-> egress_valid x /\ canonical_json (JObj (intent_dump x)) = Ok raw
      /\ Z.of_nat (length raw) <= MAX_WIRE_BYTES.
Proof.
  apply (decode_exact_iff intent_keys intent_validate intent_fields egress_valid).
  - apply _.
  - intros y. exact intent_keys_nodup.
  - apply intent_flat.
  - reflexivity.
  - apply intent_required_present.
  - intros d y H. unfold intent_validate in H. do 2 apply rbind_ok in H as (? & _ & H).
    by eapply read_egress_sound.
  - apply intent_validate_dump.
Qed.

Lemma decode_exact_plan_iff raw p :
  decode_exact_plan raw = Ok p
  <-> plan_valid p /\ canonical_json (JObj (plan_dump p)) = Ok raw
      /\ Z.of_nat (length raw) <= MAX_WIRE_BYTES.
Proof.
  apply (decode_exact_iff plan_keys plan_validate plan_fields plan_valid).
  - apply _.
  - intros y. exact plan_keys_nodup.
  - apply plan_flat.
  - reflexivity.
  - apply plan_required_present.
  - apply plan_validate_sound.
  - apply plan_validate_dump.
Qed.

(** Exact bytes and values correspond one to one.  The exact decoder returns an
    intent precisely for the canonical bytes, within 64 KiB, of a valid intent,
    and that intent is then the one the bytes are written from; the same holds of
    prepared plans.  So a stored or received byte string determines the value, and
    the value determines the byte string. *)
Theorem exact_wire_bytes :
  (forall raw x, decode_exact_intent raw = Ok x
     <-> egress_valid x /\ canonical_json (JObj (intent_dump x)) = Ok raw
         /\ Z.of_nat (length raw) <= MAX_WIRE_BYTES)
  /\ (forall raw p, decode_exact_plan raw = Ok p
     <-> plan_valid p /\ canonical_json (JObj (plan_dump p)) = Ok raw
         /\ Z.of_nat (length raw) <= MAX_WIRE_BYTES).
Proof. split; [exact decode_exact_intent_iff|exact decode_exact_plan_iff]. Qed.
