(* ===== verification/Candidates.v ===== *)
(** * Containment candidates

    [ContainmentCandidateV1] of [incidents/models.py] as an immutable value with
    its validation, and the digest of all its facts ([candidate_facts_sha256] of
    [canonicaljson.py]). *)

From S2P Require Import Prelude Sha256 CanonicalJson JsonDecode Time Ipv4 Identities Contracts.
Local Open Scope Z_scope.
Local Open Scope agmind_scope.

Record ContainmentCandidateV1 := mkCandidate {
  c_candidate_id : pystr; c_incident_id : pystr; c_host_id : pystr; c_boot_id : pystr;
  c_primary_event_id : pystr; c_primary_sequence : Z; c_snapshot_event_id : pystr;
  c_container_id : pystr; c_started_at : pystr; c_image_id : pystr;
  c_repo_digests : list pystr; c_spec_sha256 : pystr; c_generation : Z; c_revision : Z;
  c_destination : pystr; c_port : Z; c_protocol : pystr; c_ttl : Z;
  c_detector_sha256 : pystr; c_coverage_sha256 : pystr; c_network_sha256 : pystr;
  c_registry_sha256 : pystr; c_operator_sha256 : pystr; c_management_sha256 : pystr;
  c_evidence_ids : list pystr; c_created_at : pystr }.

Definition DETECTOR_RULE : pystr := u "AGmind PCC Suspicious Process Outbound Connect".
Definition DETECTOR_RULE_VERSION : pystr := u "agmind-pcc-rules-v1".
Definition CANDIDATE_SCHEMA : pystr := u "agmind.containment-candidate.v1".

(** [_canonical_strings(..., ascii_only=False)] *)
Definition canonical_strings (max_items max_bytes : nat) (values : list pystr) : bool :=
  bool_decide (length values <= max_items)%nat && is_sorted_unique values
  && forallb (utf8_ok max_bytes 1) values.

(** [_event_ids] *)
Definition event_ids_ok (max_items : nat) (values : list pystr) : bool :=
  bool_decide (1 <= length values)%nat && bool_decide (length values <= max_items)%nat
  && is_sorted_unique values && forallb EVENT_ID values.

Definition in_range (lo hi z : Z) : bool := (lo <=? z) && (z <=? hi).

(** The field types, bounds and validators *)
Definition candidate_fields_ok (c : ContainmentCandidateV1) : bool :=
  is_prefixed_hex "cand_" 64 (c_candidate_id c) && is_prefixed_hex "inc_" 64 (c_incident_id c)
  && UUID4 (c_host_id c) && UUID4 (c_boot_id c)
  && EVENT_ID (c_primary_event_id c) && EVENT_ID (c_snapshot_event_id c)
  && in_range 1 MAX_UINT64 (c_primary_sequence c)
  && HEX64 (c_container_id c) && valid_timestamp (c_started_at c)
  && valid_timestamp (c_created_at c) && is_prefixed_hex "sha256:" 64 (c_image_id c)
  && canonical_strings 16 256 (c_repo_digests c)
  && HEX64 (c_spec_sha256 c) && HEX64 (c_detector_sha256 c) && HEX64 (c_coverage_sha256 c)
  && HEX64 (c_network_sha256 c) && HEX64 (c_registry_sha256 c) && HEX64 (c_operator_sha256 c)
  && HEX64 (c_management_sha256 c)
  && in_range 1 MAX_UINT64 (c_generation c) && in_range 1 MAX_UINT64 (c_revision c)
  && valid_ipv4 (c_destination c) && in_range 1 65535 (c_port c)
  && short_ascii (c_protocol c) && in_range 30 300 (c_ttl c)
  && event_ids_ok 2 (c_evidence_ids c).

(** [identity_and_evidence_are_exact] *)
Definition identity_and_evidence_are_exact (c : ContainmentCandidateV1) : result py_exn unit :=
  let* incident := incident_id (c_primary_event_id c) in
  check (bool_decide (incident = c_incident_id c)) ;;*
  let* candidate := candidate_id (c_primary_event_id c) (c_container_id c) (c_started_at c)
    (c_destination c) (c_detector_sha256 c) in
  check (bool_decide (candidate = c_candidate_id c)) ;;*
  check (negb (bool_decide (c_snapshot_event_id c = c_primary_event_id c))) ;;*
  check (bool_decide (c_evidence_ids c
           = sort_str [c_primary_event_id c; c_snapshot_event_id c])).

(** [ContainmentCandidateV1.model_validate(..., strict=True)] *)
Definition candidate_validate (c : ContainmentCandidateV1)
  : result py_exn ContainmentCandidateV1 :=
  check (candidate_fields_ok c) ;;* identity_and_evidence_are_exact c ;;* Ok c.

(** [candidate.model_dump()]; no field is optional *)
Definition candidate_dump (c : ContainmentCandidateV1) : document :=
  [(u "schema_version", JStr CANDIDATE_SCHEMA); (u "candidate_id", JStr (c_candidate_id c));
   (u "incident_id", JStr (c_incident_id c)); (u "host_id", JStr (c_host_id c));
   (u "boot_id", JStr (c_boot_id c)); (u "primary_event_id", JStr (c_primary_event_id c));
   (u "primary_source_sequence", JInt (c_primary_sequence c));
   (u "correlation_snapshot_event_id", JStr (c_snapshot_event_id c));
   (u "docker_container_id", JStr (c_container_id c));
   (u "docker_started_at", JStr (c_started_at c)); (u "image_id", JStr (c_image_id c));
   (u "repo_digests", JArr (map JStr (c_repo_digests c)));
   (u "immutable_spec_sha256", JStr (c_spec_sha256 c));
   (u "inventory_generation", JInt (c_generation c));
   (u "inventory_revision", JInt (c_revision c)); (u "destination_ipv4", JStr (c_destination c));
   (u "destination_port", JInt (c_port c)); (u "l4_protocol", JStr (c_protocol c));
   (u "ttl_seconds", JInt (c_ttl c)); (u "detector_rule", JStr DETECTOR_RULE);
   (u "detector_rule_version", JStr DETECTOR_RULE_VERSION);
   (u "detector_bundle_sha256", JStr (c_detector_sha256 c));
   (u "coverage_snapshot_sha256", JStr (c_coverage_sha256 c));
   (u "docker_network_snapshot_sha256", JStr (c_network_sha256 c));
   (u "special_use_registry_sha256", JStr (c_registry_sha256 c));
   (u "operator_denylist_sha256", JStr (c_operator_sha256 c));
   (u "management_denylist_sha256", JStr (c_management_sha256 c));
   (u "evidence_ids", JArr (map JStr (c_evidence_ids c)));
   (u "created_at", JStr (c_created_at c))].

Definition CANDIDATE_FACTS_DOMAIN : bytes := bstr "AGMIND_CANDIDATE_FACTS_V1" ++ NUL.

(** [candidate_facts_sha256] *)
Definition candidate_facts_sha256 (c : ContainmentCandidateV1) : result py_exn pystr :=
  let* canonical := canonical_json (JObj (candidate_dump c)) in
  Ok (sha256_hex (CANDIDATE_FACTS_DOMAIN ++ canonical)).
