(* ===== verification/Policy.v ===== *)
(** * The policy boundary

    [policy/models.py] and the pure part of [policy/client.py]: the exact input
    sent to the policy service, the decision it may answer with, the local
    narrowing of that decision, and the evaluation that binds them to a
    candidate.  The policy service (OPA) is outside: what it answers is an
    argument. *)

From S2P Require Import Prelude Sha256 CanonicalJson JsonDecode Time Ipv4 Identities Contracts.
From S2P Require Import Egress Candidates.
Local Open Scope Z_scope.
Local Open Scope agmind_scope.

(** [PolicyError] and its subclasses, and what else may propagate *)
Inductive policy_exn := PolicyError | PolicyUnavailable | PolicyResponseInvalid
| PolicyPyError (e : py_exn).

#[export] Instance policy_exn_eq_dec : EqDecision policy_exn.
Proof. solve_decision. Defined.

Definition POLICY_BUNDLE_VERSION : pystr := u "pcc-policy-v1".
Definition POLICY_BUNDLE_SHA256 : pystr :=
  u "472ca6f13cee7962693c68c95688a49242300109b136640817f37c43bc27f1f7".
Definition MAX_EVIDENCE_AGE_MS : Z := 120000.

(** ** [PolicyInputV1] *)

Record PolicyInputV1 := mkInput {
  i_candidate_id : pystr; i_facts_sha256 : pystr; i_host_id : pystr; i_boot_id : pystr;
  i_container_id : pystr; i_started_at : pystr; i_image_id : pystr;
  i_repo_digests : list pystr; i_spec_sha256 : pystr; i_generation : Z; i_revision : Z;
  i_destination : pystr; i_port : Z; i_protocol : pystr; i_requested_ttl : Z;
  i_rule : pystr; i_rule_version : pystr; i_detector_sha256 : pystr;
  i_coverage_sha256 : pystr; i_network_sha256 : pystr; i_registry_sha256 : pystr;
  i_operator_sha256 : pystr; i_management_sha256 : pystr; i_evidence_ids : list pystr;
  i_evidence_age_ms : Z; i_bundle_sha256 : pystr; i_input_sha256 : pystr }.

#[export] Instance PolicyInputV1_eq_dec : EqDecision PolicyInputV1.
Proof. solve_decision. Defined.

Definition INPUT_SCHEMA : pystr := u "agmind.policy-input.v1".

Definition input_fields (i : PolicyInputV1) : list (pystr * option json) :=
  [(u "schema_version", Some (JStr INPUT_SCHEMA));
   (u "candidate_id", Some (JStr (i_candidate_id i)));
   (u "candidate_facts_sha256", Some (JStr (i_facts_sha256 i)));
   (u "host_id", Some (JStr (i_host_id i))); (u "boot_id", Some (JStr (i_boot_id i)));
   (u "docker_container_id", Some (JStr (i_container_id i)));
   (u "docker_started_at", Some (JStr (i_started_at i)));
   (u "image_id", Some (JStr (i_image_id i)));
   (u "repo_digests", Some (JArr (map JStr (i_repo_digests i))));
   (u "immutable_spec_sha256", Some (JStr (i_spec_sha256 i)));
   (u "inventory_generation", Some (JInt (i_generation i)));
   (u "inventory_revision", Some (JInt (i_revision i)));
   (u "destination_ipv4", Some (JStr (i_destination i)));
   (u "destination_port", Some (JInt (i_port i)));
   (u "l4_protocol", Some (JStr (i_protocol i)));
   (u "requested_ttl_seconds", Some (JInt (i_requested_ttl i)));
   (u "detector_rule", Some (JStr (i_rule i)));
   (u "detector_rule_version", Some (JStr (i_rule_version i)));
   (u "detector_bundle_sha256", Some (JStr (i_detector_sha256 i)));
   (u "coverage_ready", Some (JBool true));
   (u "coverage_snapshot_sha256", Some (JStr (i_coverage_sha256 i)));
   (u "docker_network_snapshot_sha256", Some (JStr (i_network_sha256 i)));
   (u "special_use_registry_sha256", Some (JStr (i_registry_sha256 i)));
   (u "operator_denylist_sha256", Some (JStr (i_operator_sha256 i)));
   (u "management_denylist_sha256", Some (JStr (i_management_sha256 i)));
   (u "evidence_ids", Some (JArr (map JStr (i_evidence_ids i))));
   (u "evidence_age_ms", Some (JInt (i_evidence_age_ms i)));
   (u "policy_bundle_version", Some (JStr POLICY_BUNDLE_VERSION));
   (u "policy_bundle_sha256", Some (JStr (i_bundle_sha256 i)));
   (u "policy_input_sha256", Some (JStr (i_input_sha256 i)))].

Definition input_dump (i : PolicyInputV1) : document := dump_of (input_fields i).

Definition input_keys : list pystr :=
  map u ["schema_version"; "candidate_id"; "candidate_facts_sha256"; "host_id"; "boot_id";
         "docker_container_id"; "docker_started_at"; "image_id"; "repo_digests";
         "immutable_spec_sha256"; "inventory_generation"; "inventory_revision";
         "destination_ipv4"; "destination_port"; "l4_protocol"; "requested_ttl_seconds";
         "detector_rule"; "detector_rule_version"; "detector_bundle_sha256"; "coverage_ready";
         "coverage_snapshot_sha256"; "docker_network_snapshot_sha256";
         "special_use_registry_sha256"; "operator_denylist_sha256";
         "management_denylist_sha256"; "evidence_ids"; "evidence_age_ms";
         "policy_bundle_version"; "policy_bundle_sha256"; "policy_input_sha256"]%string.

Definition POLICY_INPUT_HASH_DOMAIN : bytes := bstr "AGMIND_POLICY_INPUT_V1" ++ NUL.
Definition POLICY_DECISION_HASH_DOMAIN : bytes := bstr "AGMIND_POLICY_DECISION_V1" ++ NUL.

(** [_policy_input_sha256], on the document of the input *)
Definition policy_input_sha256 (doc : document) : result py_exn pystr :=
  check (match get (u "policy_input_sha256") doc with
         | None | Some JNull => true
         | Some (JStr claimed) => HEX64 claimed
         | Some _ => false
         end) ;;*
  let* canonical := canonical_json (JObj (pop (u "policy_input_sha256") doc)) in
  Ok (sha256_hex (POLICY_INPUT_HASH_DOMAIN ++ canonical)).

(** [_REPO_DIGEST.fullmatch] *)
Definition repo_char (c : Z) : bool :=
  is_digit c || ((97 <=? c) && (c <=? 122)) || (c =? 46) || (c =? 95) || (c =? 58) || (c =? 47)
  || (c =? 45).

Definition repo_digest (s : pystr) : bool :=
  match split_on 64 s with
  | [c :: name; digest] =>
      (is_digit c || ((97 <=? c) && (c <=? 122))) && forallb repo_char name
      && is_prefixed_hex "sha256:" 64 digest
  | _ => false
  end.

Definition TIMESTAMP_text (s : pystr) : bool :=
  match match_timestamp s with Some _ => true | None => false end.

(** The field validators *)
Definition input_fields_ok (i : PolicyInputV1) : bool :=
  HEX64 (i_facts_sha256 i) && HEX64 (i_spec_sha256 i) && HEX64 (i_detector_sha256 i)
  && HEX64 (i_coverage_sha256 i) && HEX64 (i_network_sha256 i) && HEX64 (i_registry_sha256 i)
  && HEX64 (i_operator_sha256 i) && HEX64 (i_management_sha256 i) && HEX64 (i_bundle_sha256 i)
  && HEX64 (i_input_sha256 i)
  && is_prefixed_hex "cand_" 64 (i_candidate_id i) && UUID4 (i_host_id i) && UUID4 (i_boot_id i)
  && TIMESTAMP_text (i_started_at i) && valid_ipv4 (i_destination i)
  && bool_decide (length (i_evidence_ids i) = 2%nat) && is_sorted_unique (i_evidence_ids i)
  && forallb EVENT_ID (i_evidence_ids i)
  && bool_decide (length (i_repo_digests i) <= 16)%nat && is_sorted_unique (i_repo_digests i)
  && forallb (fun r => bool_decide (1 <= length r)%nat && bool_decide (length r <= 256)%nat
                       && repo_digest r) (i_repo_digests i).

(** [input_hash_is_exact] *)
Definition input_hash_is_exact (i : PolicyInputV1) : result py_exn unit :=
  let* expected := policy_input_sha256 (input_dump i) in
  check (bool_decide (i_input_sha256 i = expected)).

(** [tuple[str, ...]], an exact array first *)
Definition str_tuple_field (key : pystr) (doc : document) : result py_exn (list pystr) :=
  match get key doc with Some (JArr l) => map_res as_str l | _ => Err ValueError end.

(** [Literal[True]] *)
Definition true_field (key : pystr) (doc : document) : result py_exn unit :=
  check (match get key doc with Some (JBool true) => true | _ => false end).

Definition input_validate (doc : document) : result py_exn PolicyInputV1 :=
  no_extra input_keys doc ;;*
  literal_field (u "schema_version") [INPUT_SCHEMA] doc ;;*
  let* candidate := str_field (u "candidate_id") doc in
  let* facts := str_field (u "candidate_facts_sha256") doc in
  let* host := str_field (u "host_id") doc in
  let* boot := str_field (u "boot_id") doc in
  let* container := str_field (u "docker_container_id") doc in
  let* started := str_field (u "docker_started_at") doc in
  let* image := str_field (u "image_id") doc in
  let* repos := str_tuple_field (u "repo_digests") doc in
  let* spec := str_field (u "immutable_spec_sha256") doc in
  let* generation := int_field (u "inventory_generation") 1 MAX_UINT64 doc in
  let* revision := int_field (u "inventory_revision") 1 MAX_UINT64 doc in
  let* destination := str_field (u "destination_ipv4") doc in
  let* port := int_field (u "destination_port") 1 65535 doc in
  let* protocol := str_field (u "l4_protocol") doc in
  let* ttl := int_field (u "requested_ttl_seconds") 30 300 doc in
  let* rule := str_field (u "detector_rule") doc in
  let* rule_version := str_field (u "detector_rule_version") doc in
  let* detector := str_field (u "detector_bundle_sha256") doc in
  true_field (u "coverage_ready") doc ;;*
  let* coverage := str_field (u "coverage_snapshot_sha256") doc in
  let* network := str_field (u "docker_network_snapshot_sha256") doc in
  let* registry := str_field (u "special_use_registry_sha256") doc in
  let* operator := str_field (u "operator_denylist_sha256") doc in
  let* management := str_field (u "management_denylist_sha256") doc in
  let* evidence := str_tuple_field (u "evidence_ids") doc in
  let* age := int_field (u "evidence_age_ms") 0 MAX_UINT64 doc in
  literal_field (u "policy_bundle_version") [POLICY_BUNDLE_VERSION] doc ;;*
  let* bundle := str_field (u "policy_bundle_sha256") doc in
  let* input_sha := str_field (u "policy_input_sha256") doc in
  let i := mkInput candidate facts host boot container started image repos spec generation
    revision destination port protocol ttl rule rule_version detector coverage network registry
    operator management evidence age bundle input_sha in
  check (input_fields_ok i) ;;* input_hash_is_exact i ;;* Ok i.

(** ** [PolicyDecisionV1] *)

Inductive policy_effect := Deny | ManualApprovalRequired.

#[export] Instance policy_effect_eq_dec : EqDecision policy_effect.
Proof. solve_decision. Defined.

Definition effect_text (e : policy_effect) : pystr :=
  match e with Deny => u "deny" | ManualApprovalRequired => u "manual_approval_required" end.

Definition REASON_DENY : pystr := u "policy_default_deny".
Definition REASON_MANUAL : pystr := u "manual_approval_required".

Record PolicyDecisionV1 := mkDecision {
  d_effect : policy_effect; d_reason_codes : list pystr; d_max_ttl : Z;
  d_allowed_evidence_ids : list pystr; d_candidate_id : pystr; d_facts_sha256 : pystr;
  d_input_sha256 : pystr; d_bundle_sha256 : pystr }.

#[export] Instance PolicyDecisionV1_eq_dec : EqDecision PolicyDecisionV1.
Proof. solve_decision. Defined.

Definition DECISION_SCHEMA : pystr := u "agmind.policy-decision.v1".

Definition decision_fields (d : PolicyDecisionV1) : list (pystr * option json) :=
  [(u "schema_version", Some (JStr DECISION_SCHEMA));
   (u "effect", Some (JStr (effect_text (d_effect d))));
   (u "reason_codes", Some (JArr (map JStr (d_reason_codes d))));
   (u "max_ttl_seconds", Some (JInt (d_max_ttl d)));
   (u "allowed_evidence_ids", Some (JArr (map JStr (d_allowed_evidence_ids d))));
   (u "candidate_id", Some (JStr (d_candidate_id d)));
   (u "candidate_facts_sha256", Some (JStr (d_facts_sha256 d)));
   (u "policy_input_sha256", Some (JStr (d_input_sha256 d)));
   (u "policy_bundle_version", Some (JStr POLICY_BUNDLE_VERSION));
   (u "policy_bundle_sha256", Some (JStr (d_bundle_sha256 d)))].

Definition decision_dump (d : PolicyDecisionV1) : document := dump_of (decision_fields d).

Definition decision_keys : list pystr :=
  map u ["schema_version"; "effect"; "reason_codes"; "max_ttl_seconds"; "allowed_evidence_ids";
         "candidate_id"; "candidate_facts_sha256"; "policy_input_sha256";
         "policy_bundle_version"; "policy_bundle_sha256"]%string.

(** [Literal["deny", "manual_approval_required"]] *)
Definition effect_field (key : pystr) (doc : document) : result py_exn policy_effect :=
  let* s := str_field key doc in
  if bool_decide (s = effect_text Deny) then Ok Deny
  else if bool_decide (s = effect_text ManualApprovalRequired) then Ok ManualApprovalRequired
  else Err ValueError.

(** The field validators *)
Definition decision_fields_ok (d : PolicyDecisionV1) : bool :=
  forallb (fun r => bool_decide (r ∈ [REASON_DENY; REASON_MANUAL])) (d_reason_codes d)
  && HEX64 (d_facts_sha256 d) && HEX64 (d_input_sha256 d) && HEX64 (d_bundle_sha256 d)
  && is_prefixed_hex "cand_" 64 (d_candidate_id d)
  && bool_decide (length (d_allowed_evidence_ids d) <= 2)%nat
  && is_sorted_unique (d_allowed_evidence_ids d) && forallb EVENT_ID (d_allowed_evidence_ids d).

(** [effect_shape_is_closed] *)
Definition effect_shape_is_closed (d : PolicyDecisionV1) : bool :=
  match d_effect d with
  | Deny =>
      bool_decide (d_reason_codes d = [REASON_DENY]) && (d_max_ttl d =? 0)
      && bool_decide (d_allowed_evidence_ids d = [])
  | ManualApprovalRequired => bool_decide (d_reason_codes d = [REASON_MANUAL])
  end.

Definition decision_validate (doc : document) : result py_exn PolicyDecisionV1 :=
  no_extra decision_keys doc ;;*
  literal_field (u "schema_version") [DECISION_SCHEMA] doc ;;*
  let* effect := effect_field (u "effect") doc in
  let* reasons := str_tuple_field (u "reason_codes") doc in
  let* ttl := int_field (u "max_ttl_seconds") 0 120 doc in
  let* allowed := str_tuple_field (u "allowed_evidence_ids") doc in
  let* candidate := str_field (u "candidate_id") doc in
  let* facts := str_field (u "candidate_facts_sha256") doc in
  let* input_sha := str_field (u "policy_input_sha256") doc in
  literal_field (u "policy_bundle_version") [POLICY_BUNDLE_VERSION] doc ;;*
  let* bundle := str_field (u "policy_bundle_sha256") doc in
  let d := mkDecision effect reasons ttl allowed candidate facts input_sha bundle in
  check (decision_fields_ok d) ;;* check (effect_shape_is_closed d) ;;* Ok d.

(** [_policy_decision_sha256] *)
Definition policy_decision_sha256 (d : PolicyDecisionV1) : result py_exn pystr :=
  let* canonical := canonical_json (JObj (decision_dump d)) in
  Ok (sha256_hex (POLICY_DECISION_HASH_DOMAIN ++ canonical)).

(** ** [PolicyEvaluation] *)

(** [PolicyBundleIdentity] *)
Record PolicyBundleIdentity := mkBundle { b_version : pystr; b_sha256 : pystr }.

#[export] Instance PolicyBundleIdentity_eq_dec : EqDecision PolicyBundleIdentity.
Proof. solve_decision. Defined.

Definition PolicyBundleIdentity_new (version sha : pystr) : result py_exn PolicyBundleIdentity :=
  check (bool_decide (version = POLICY_BUNDLE_VERSION) && HEX64 sha) ;;* Ok (mkBundle version sha).

Definition POLICY_BUNDLE : PolicyBundleIdentity :=
  mkBundle POLICY_BUNDLE_VERSION POLICY_BUNDLE_SHA256.

Record PolicyEvaluation := mkEvaluation {
  v_input : PolicyInputV1; v_decision : PolicyDecisionV1; v_candidate_id : pystr;
  v_facts_sha256 : pystr; v_input_sha256 : pystr; v_decision_sha256 : pystr;
  v_bundle : PolicyBundleIdentity; v_evaluated_at : pystr; v_evidence_age_ms : Z }.

#[export] Instance PolicyEvaluation_eq_dec : EqDecision PolicyEvaluation.
Proof. solve_decision. Defined.

(** [bindings_are_exact] of [PolicyEvaluation] *)
Definition evaluation_bindings (v : PolicyEvaluation) : result py_exn unit :=
  check (bool_decide (v_candidate_id v = i_candidate_id (v_input v))
         && bool_decide (v_candidate_id v = d_candidate_id (v_decision v))
         && bool_decide (v_facts_sha256 v = i_facts_sha256 (v_input v))
         && bool_decide (v_facts_sha256 v = d_facts_sha256 (v_decision v))
         && bool_decide (v_input_sha256 v = i_input_sha256 (v_input v))
         && bool_decide (v_input_sha256 v = d_input_sha256 (v_decision v))
         && bool_decide (b_version (v_bundle v) = POLICY_BUNDLE_VERSION)
         && bool_decide (b_sha256 (v_bundle v) = i_bundle_sha256 (v_input v))
         && bool_decide (b_sha256 (v_bundle v) = d_bundle_sha256 (v_decision v))
         && (v_evidence_age_ms v =? i_evidence_age_ms (v_input v))) ;;*
  let* expected := policy_decision_sha256 (v_decision v) in
  check (bool_decide (v_decision_sha256 v = expected)).

(** [PolicyEvaluation.model_validate] of exact parts *)
Definition evaluation_validate (v : PolicyEvaluation) : result py_exn PolicyEvaluation :=
  check (HEX64 (v_facts_sha256 v) && HEX64 (v_input_sha256 v) && HEX64 (v_decision_sha256 v)
         && is_prefixed_hex "cand_" 64 (v_candidate_id v) && TIMESTAMP_text (v_evaluated_at v)
         && is_uint64 (v_evidence_age_ms v)) ;;*
  evaluation_bindings v ;;* Ok v.

Definition evaluation_dump (v : PolicyEvaluation) : document :=
  [(u "policy_input", JObj (input_dump (v_input v)));
   (u "decision", JObj (decision_dump (v_decision v)));
   (u "candidate_id", JStr (v_candidate_id v));
   (u "candidate_facts_sha256", JStr (v_facts_sha256 v));
   (u "policy_input_sha256", JStr (v_input_sha256 v));
   (u "policy_decision_sha256", JStr (v_decision_sha256 v));
   (u "policy_bundle", JObj [(u "version", JStr (b_version (v_bundle v)));
                             (u "sha256", JStr (b_sha256 (v_bundle v)))]);
   (u "evaluated_at", JStr (v_evaluated_at v));
   (u "evidence_age_ms", JInt (v_evidence_age_ms v))].

(** ** Local narrowing of a decision *)

(** [_narrow_decision] *)
Definition narrow_decision (d : PolicyDecisionV1) (i : PolicyInputV1) : result policy_exn unit :=
  guard (bool_decide (d_candidate_id d = i_candidate_id i)
         && bool_decide (d_facts_sha256 d = i_facts_sha256 i)
         && bool_decide (d_input_sha256 d = i_input_sha256 i)
         && bool_decide (d_bundle_sha256 d = b_sha256 POLICY_BUNDLE)) PolicyResponseInvalid ;;*
  match d_effect d with
  | Deny => Ok tt
  | ManualApprovalRequired =>
      guard (bool_decide (i_protocol i = u "tcp")
             && (i_evidence_age_ms i <=? MAX_EVIDENCE_AGE_MS)
             && ((30 <=? d_max_ttl d) && (d_max_ttl d <=? Z.min (i_requested_ttl i) 120))
             && bool_decide (d_allowed_evidence_ids d = i_evidence_ids i)) PolicyResponseInvalid
  end.

(** [_policy_input_for_candidate] *)
Definition input_of_candidate (c : ContainmentCandidateV1) (facts : pystr) (age : Z)
    (hash : pystr) : PolicyInputV1 :=
  mkInput (c_candidate_id c) facts (c_host_id c) (c_boot_id c) (c_container_id c)
    (c_started_at c) (c_image_id c) (c_repo_digests c) (c_spec_sha256 c) (c_generation c)
    (c_revision c) (c_destination c) (c_port c) (c_protocol c) (c_ttl c) DETECTOR_RULE
    DETECTOR_RULE_VERSION (c_detector_sha256 c) (c_coverage_sha256 c) (c_network_sha256 c)
    (c_registry_sha256 c) (c_operator_sha256 c) (c_management_sha256 c) (c_evidence_ids c) age
    POLICY_BUNDLE_SHA256 hash.

Definition policy_input_for_candidate (c : ContainmentCandidateV1) (evidence_age_ms : Z)
  : result policy_exn PolicyInputV1 :=
  guard (is_uint64 evidence_age_ms) PolicyError ;;*
  let* facts := catch_with PolicyPyError (candidate_facts_sha256 c) in
  let base := pop (u "policy_input_sha256")
                (input_dump (input_of_candidate c facts evidence_age_ms [])) in
  let* hash := catch_with PolicyPyError (policy_input_sha256 base) in
  catch_with (fun _ => PolicyError)
    (input_validate (base ++ [(u "policy_input_sha256", JStr hash)])).

(** [_detach_policy_evaluation]: every part validated again *)
Definition detach_policy_evaluation (v : PolicyEvaluation) : result policy_exn PolicyEvaluation :=
  let* detached :=
    catch_with (fun _ => PolicyResponseInvalid)
      (let* input := input_validate (input_dump (v_input v)) in
       let* decision := decision_validate (decision_dump (v_decision v)) in
       let* bundle := PolicyBundleIdentity_new (b_version (v_bundle v)) (b_sha256 (v_bundle v)) in
       evaluation_validate (mkEvaluation input decision (v_candidate_id v) (v_facts_sha256 v)
         (v_input_sha256 v) (v_decision_sha256 v) bundle (v_evaluated_at v)
         (v_evidence_age_ms v))) in
  let* lhs := catch_with PolicyPyError (canonical_json (JObj (evaluation_dump detached))) in
  let* rhs := catch_with PolicyPyError (canonical_json (JObj (evaluation_dump v))) in
  guard (bool_decide (lhs = rhs)) PolicyResponseInvalid ;;* Ok detached.

(** [_validate_policy_evaluation_for_candidate] *)
Definition validate_policy_evaluation_for_candidate (v : PolicyEvaluation)
    (c : ContainmentCandidateV1) : result policy_exn PolicyEvaluation :=
  let* detached := detach_policy_evaluation v in
  let* expected := policy_input_for_candidate c (v_evidence_age_ms detached) in
  let* lhs := catch_with PolicyPyError (canonical_json (JObj (input_dump (v_input detached)))) in
  let* rhs := catch_with PolicyPyError (canonical_json (JObj (input_dump expected))) in
  guard (bool_decide (lhs = rhs)) PolicyResponseInvalid ;;*
  narrow_decision (v_decision detached) (v_input detached) ;;*
  Ok detached.

(** ** Validation reads every field back *)

#[export] Instance str_tuple_field_proper k : Proper (doc_equiv ==> eq) (str_tuple_field k).
Proof. intros d1 d2 H. unfold str_tuple_field. by rewrite (H k). Qed.

#[export] Instance true_field_proper k : Proper (doc_equiv ==> eq) (true_field k).
Proof. intros d1 d2 H. unfold true_field. by rewrite (H k). Qed.

#[export] Instance effect_field_proper k : Proper (doc_equiv ==> eq) (effect_field k).
Proof. intros d1 d2 H. unfold effect_field. by rewrite H. Qed.

Ltac policy_reads H :=
  reads H;
  match type of H with doc_equiv ?d1 ?d2 =>
    repeat match goal with
    | |- context [str_tuple_field ?k d1] => rewrite (str_tuple_field_proper k d1 d2 H)
    | |- context [true_field ?k d1] => rewrite (true_field_proper k d1 d2 H)
    | |- context [effect_field ?k d1] => rewrite (effect_field_proper k d1 d2 H)
    end
  end.

#[export] Instance input_validate_proper : Proper (doc_equiv ==> eq) input_validate.
Proof. intros d1 d2 H. unfold input_validate. by policy_reads H. Qed.

#[export] Instance decision_validate_proper : Proper (doc_equiv ==> eq) decision_validate.
Proof. intros d1 d2 H. unfold decision_validate. by policy_reads H. Qed.

Lemma str_tuple_field_eq k d l :
  get k d = Some (JArr (map JStr l)) -> str_tuple_field k d = Ok l.
Proof. intros H. unfold str_tuple_field. rewrite H. apply as_str_map. Qed.

Lemma true_field_eq k d : get k d = Some (JBool true) -> true_field k d = Ok tt.
Proof. intros H. unfold true_field. by rewrite H. Qed.

Lemma effect_field_eq k d e : get k d = Some (JStr (effect_text e)) -> effect_field k d = Ok e.
Proof. intros H. unfold effect_field. rewrite (str_field_eq _ _ _ H). by destruct e. Qed.

Ltac policy_dump Hnd :=
  first
  [ read_dump Hnd
  | let by_table := (rewrite (get_dump_of _ _ Hnd); reflexivity) in
    eapply rbind_step;
    [ match goal with
      | |- str_tuple_field _ _ = _ => eapply str_tuple_field_eq; by_table
      | |- true_field _ _ = _ => eapply true_field_eq; by_table
      | |- effect_field _ _ = _ => eapply effect_field_eq; by_table
      end
    | cbv beta ] ].

Definition input_valid (i : PolicyInputV1) : Prop :=
  1 <= i_generation i <= MAX_UINT64 /\ 1 <= i_revision i <= MAX_UINT64
  /\ 1 <= i_port i <= 65535 /\ 30 <= i_requested_ttl i <= 300
  /\ 0 <= i_evidence_age_ms i <= MAX_UINT64
  /\ input_fields_ok i = true /\ input_hash_is_exact i = Ok tt.

Definition decision_valid (d : PolicyDecisionV1) : Prop :=
  0 <= d_max_ttl d <= 120 /\ decision_fields_ok d = true /\ effect_shape_is_closed d = true.

Lemma input_validate_sound doc i : input_validate doc = Ok i -> input_valid i.
Proof.
  unfold input_validate. intros H. repeat (apply rbind_ok in H as (? & ? & H)). injection H as <-.
  repeat match goal with H : int_field _ _ _ _ = Ok _ |- _ => apply int_field_range in H end.
  unfold input_valid. cbn -[MAX_UINT64 input_fields_ok input_hash_is_exact].
  split_and!; try lia.
  - by match goal with H : check (input_fields_ok _) = Ok _ |- _ => apply guard_ok in H end.
  - by match goal with H : input_hash_is_exact _ = Ok ?y |- _ => destruct y end.
Qed.

Lemma decision_validate_sound doc d : decision_validate doc = Ok d -> decision_valid d.
Proof.
  unfold decision_validate. intros H. repeat (apply rbind_ok in H as (? & ? & H)).
  injection H as <-.
  repeat match goal with H : int_field _ _ _ _ = Ok _ |- _ => apply int_field_range in H end.
  unfold decision_valid. cbn -[decision_fields_ok effect_shape_is_closed].
  repeat match goal with H : check _ = Ok _ |- _ => apply guard_ok in H end.
  split_and!; try lia; done.
Qed.

Lemma input_keys_nodup : NoDup input_keys.
Proof. apply (bool_decide_eq_true (NoDup input_keys)). vm_compute. reflexivity. Qed.

Lemma decision_keys_nodup : NoDup decision_keys.
Proof. apply (bool_decide_eq_true (NoDup decision_keys)). vm_compute. reflexivity. Qed.

Lemma input_validate_dump i : input_valid i -> input_validate (input_dump i) = Ok i.
Proof.
  intros (H1 & H2 & H3 & H4 & H5 & Hok & Hh).
  assert (Hnd : NoDup (map fst (input_fields i))) by exact input_keys_nodup.
  unfold input_validate, input_dump. repeat policy_dump Hnd. cbv zeta.
  assert (E : mkInput (i_candidate_id i) (i_facts_sha256 i) (i_host_id i) (i_boot_id i)
    (i_container_id i) (i_started_at i) (i_image_id i) (i_repo_digests i) (i_spec_sha256 i)
    (i_generation i) (i_revision i) (i_destination i) (i_port i) (i_protocol i)
    (i_requested_ttl i) (i_rule i) (i_rule_version i) (i_detector_sha256 i)
    (i_coverage_sha256 i) (i_network_sha256 i) (i_registry_sha256 i) (i_operator_sha256 i)
    (i_management_sha256 i) (i_evidence_ids i) (i_evidence_age_ms i) (i_bundle_sha256 i)
    (i_input_sha256 i) = i) by (by destruct i).
  rewrite E, check_true by done. cbn [rbind]. by rewrite Hh.
Qed.

Lemma decision_validate_dump d : decision_valid d -> decision_validate (decision_dump d) = Ok d.
Proof.
  intros (H1 & Hok & Hs).
  assert (Hnd : NoDup (map fst (decision_fields d))) by exact decision_keys_nodup.
  unfold decision_validate, decision_dump. repeat policy_dump Hnd. cbv zeta.
  assert (E : mkDecision (d_effect d) (d_reason_codes d) (d_max_ttl d)
    (d_allowed_evidence_ids d) (d_candidate_id d) (d_facts_sha256 d) (d_input_sha256 d)
    (d_bundle_sha256 d) = d) by (by destruct d).
  by rewrite E, !check_true.
Qed.

Ltac flat_fields :=
  repeat first [apply Forall_nil_2 | apply Forall_cons_2];
  first [by apply flat_some | apply flat_some; apply flat_strings].

Lemma input_flat i : Forall flat_field (input_fields i).
Proof. unfold input_fields. flat_fields. Qed.

Lemma decision_flat d : Forall flat_field (decision_fields d).
Proof. unfold decision_fields. flat_fields. Qed.

(** A flat dump, canonically ordered, is the same mapping. *)
Lemma flat_canon_equiv fields :
  NoDup (map fst fields) -> Forall flat_field fields ->
  doc_equiv (canon_obj (dump_of fields)) (dump_of fields).
Proof.
  intros Hnd Hf k. rewrite get_canon_obj by (by apply dump_of_nodup). rewrite get_dump_of by done.
  clear Hnd. induction Hf as [|[k' v] fields Hk _ IH]; cbn [assoc]; [done|].
  case_bool_decide; [|done]. destruct v as [v|]; [|done]. cbn. f_equal. apply Hk.
Qed.

Lemma flat_unique fields :
  NoDup (map fst fields) -> Forall flat_field fields ->
  unique_keys (JObj (dump_of fields)) = true.
Proof.
  intros Hnd Hf. cbn [unique_keys]. apply andb_true_iff.
  split; [by apply bool_decide_eq_true, dump_of_nodup|]. clear Hnd.
  induction Hf as [|[k [v|]] fields Hk _ IH]; cbn [dump_of forallb snd]; [done| |done].
  apply andb_true_iff. split; [apply Hk|done].
Qed.

Lemma canon_obj_inj d1 d2 : canon (JObj d1) = canon (JObj d2) -> canon_obj d1 = canon_obj d2.
Proof. intros H. exact (f_equal (fun v => match v with JObj m => m | _ => [] end) H). Qed.

(** Inputs with the same canonical bytes are the same input. *)
Lemma input_bytes_inj i j raw :
  input_valid i -> input_valid j -> canonical_json (JObj (input_dump i)) = Ok raw ->
  canonical_json (JObj (input_dump j)) = Ok raw -> i = j.
Proof.
  intros Hi Hj Hri Hrj.
  assert (Hn : forall i, NoDup (map fst (input_fields i))) by (intros; exact input_keys_nodup).
  pose proof (flat_unique _ (Hn i) (input_flat i)) as Ui.
  pose proof (flat_unique _ (Hn j) (input_flat j)) as Uj.
  pose proof (proj1 (canonical_json_injective_aux _ _ raw Ui Uj Hri) Hrj) as Hc.
  apply canon_obj_inj in Hc.
  pose proof (input_validate_dump i Hi) as Vi. pose proof (input_validate_dump j Hj) as Vj.
  unfold input_dump in Vi, Vj. rewrite <- (flat_canon_equiv _ (Hn i) (input_flat i)) in Vi.
  rewrite <- (flat_canon_equiv _ (Hn j) (input_flat j)) in Vj.
  rewrite Hc in Vj. congruence.
Qed.

(** ** What a successful read says of the document *)

Lemma str_field_inv k d s : str_field k d = Ok s -> get k d = Some (JStr s).
Proof. unfold str_field. repeat case_match; congruence. Qed.

Lemma int_field_inv k lo hi d z : int_field k lo hi d = Ok z -> get k d = Some (JInt z).
Proof.
  unfold int_field, check. destruct (get k d) as [[]|]; try done. intros H. inv_ok. congruence.
Qed.

Lemma map_as_str_inv l ss : map_res as_str l = Ok ss -> l = map JStr ss.
Proof.
  intros H%map_res_ok. induction H as [|v s l ss Hv _ IH]; [done|]. cbn [map]. f_equal; [|done].
  destruct v; try discriminate Hv. cbn in Hv. congruence.
Qed.

Lemma str_tuple_field_inv k d l :
  str_tuple_field k d = Ok l -> get k d = Some (JArr (map JStr l)).
Proof.
  unfold str_tuple_field. destruct (get k d) as [[]|]; try done.
  intros H%map_as_str_inv. by subst.
Qed.

Lemma map_jstr_inj l1 l2 : map JStr l1 = map JStr l2 -> l1 = l2.
Proof.
  revert l2. induction l1 as [|x l1 IH]; intros [|y l2]; try done. cbn [map].
  intros H. injection H as -> H. f_equal. by apply IH.
Qed.

(** One successful read of a dump, as an equation on the field. *)
Ltac read_inv Hnd :=
  match goal with
  | H : str_field _ _ = Ok _ |- _ => apply str_field_inv in H
  | H : int_field _ _ _ _ = Ok _ |- _ => apply int_field_inv in H
  | H : str_tuple_field _ _ = Ok _ |- _ => apply str_tuple_field_inv in H
  | H : get _ (dump_of _) = Some _ |- _ =>
      rewrite (get_dump_of _ _ Hnd) in H;
      match type of H with ?a = ?b => let v := eval hnf in a in change (v = b) in H end
  | H : Some (JStr _) = Some (JStr _) |- _ => injection H as <-
  | H : Some (JInt _) = Some (JInt _) |- _ => injection H as <-
  | H : Some (JArr _) = Some (JArr _) |- _ =>
      apply (f_equal (fun o => match o with Some (JArr l) => l | _ => [] end)) in H;
      apply map_jstr_inj in H; subst
  end.

Lemma input_validate_dump_inv j i : input_validate (input_dump j) = Ok i -> i = j.
Proof.
  assert (Hnd : NoDup (map fst (input_fields j))) by exact input_keys_nodup.
  unfold input_validate, input_dump. intros H. repeat (apply rbind_ok in H as (? & ? & H)).
  injection H as <-.
  repeat match goal with
  | H : check _ = Ok _ |- _ => clear H | H : input_hash_is_exact _ = Ok _ |- _ => clear H
  | H : no_extra _ _ = Ok _ |- _ => clear H | H : literal_field _ _ _ = Ok _ |- _ => clear H
  | H : true_field _ _ = Ok _ |- _ => clear H end.
  repeat read_inv Hnd. by destruct j.
Qed.

Lemma decision_validate_inv j d : decision_validate (decision_dump j) = Ok d -> d = j.
Proof.
  assert (Hnd : NoDup (map fst (decision_fields j))) by exact decision_keys_nodup.
  unfold decision_validate, decision_dump. intros H.
  repeat (apply rbind_ok in H as (? & ? & H)). injection H as <-.
  repeat match goal with
  | H : check _ = Ok _ |- _ => clear H | H : no_extra _ _ = Ok _ |- _ => clear H
  | H : literal_field _ _ _ = Ok _ |- _ => clear H end.
  match goal with H : effect_field _ _ = Ok ?e |- _ =>
    rewrite (effect_field_eq _ _ (d_effect j)) in H
      by (rewrite (get_dump_of _ _ Hnd); reflexivity); injection H as <- end.
  repeat read_inv Hnd. by destruct j.
Qed.

(** The input built for a candidate copies its facts and the age, and is valid. *)
Lemma policy_input_for_candidate_ok c age i :
  policy_input_for_candidate c age = Ok i ->
  exists facts hash, candidate_facts_sha256 c = Ok facts
    /\ i = input_of_candidate c facts age hash /\ input_valid i.
Proof.
  unfold policy_input_for_candidate. intros H. apply rbind_ok in H as (? & _ & H).
  apply rbind_ok in H as (facts & Hf%catch_ok & H). apply rbind_ok in H as (hash & _ & H).
  apply catch_ok in H. exists facts, hash.
  assert (E : pop (u "policy_input_sha256") (input_dump (input_of_candidate c facts age []))
    ++ [(u "policy_input_sha256", JStr hash)]
    = input_dump (input_of_candidate c facts age hash)) by reflexivity.
  rewrite E in H. pose proof (input_validate_sound _ _ H) as Hv.
  apply input_validate_dump_inv in H. by subst i.
Qed.

Lemma detach_policy_evaluation_ok v v' :
  detach_policy_evaluation v = Ok v' ->
  v' = v /\ input_valid (v_input v) /\ decision_valid (v_decision v)
  /\ v_bundle v = mkBundle POLICY_BUNDLE_VERSION (b_sha256 (v_bundle v))
  /\ evaluation_bindings v = Ok tt.
Proof.
  unfold detach_policy_evaluation. intros H. apply rbind_ok in H as (w & Hw%catch_ok & H).
  repeat (apply rbind_ok in H as (? & _ & H)). injection H as <-.
  apply rbind_ok in Hw as (i & Hi & Hw). apply rbind_ok in Hw as (d & Hd & Hw).
  apply rbind_ok in Hw as (b & Hb & Hw).
  pose proof (input_validate_sound _ _ Hi) as Vi. apply input_validate_dump_inv in Hi as ->.
  pose proof (decision_validate_sound _ _ Hd) as Vd.
  apply decision_validate_inv in Hd as ->.
  unfold PolicyBundleIdentity_new in Hb. apply rbind_ok in Hb as (? & Hb1%guard_ok & Hb).
  injection Hb as <-. breflect. subst.
  assert (E : mkEvaluation (v_input v) (v_decision v) (v_candidate_id v) (v_facts_sha256 v)
    (v_input_sha256 v) (v_decision_sha256 v) (mkBundle (b_version (v_bundle v)) (b_sha256 (v_bundle v)))
    (v_evaluated_at v) (v_evidence_age_ms v) = v) by (by destruct v as [? ? ? ? ? ? [] ? ?]).
  rewrite E in Hw. unfold evaluation_validate in Hw. apply rbind_ok in Hw as (? & _ & Hw).
  apply rbind_ok in Hw as ([] & Hb & Hw). injection Hw as <-.
  split_and!; try done. destruct (v_bundle v) eqn:Eb. cbn in *. by subst.
Qed.

(** A decision the narrowing accepts *)
Definition narrowed (d : PolicyDecisionV1) (i : PolicyInputV1) : Prop :=
  d_candidate_id d = i_candidate_id i /\ d_facts_sha256 d = i_facts_sha256 i
  /\ d_input_sha256 d = i_input_sha256 i /\ d_bundle_sha256 d = POLICY_BUNDLE_SHA256
  /\ (d_effect d = ManualApprovalRequired ->
        i_protocol i = u "tcp" /\ i_evidence_age_ms i <= MAX_EVIDENCE_AGE_MS
        /\ 30 <= d_max_ttl d <= Z.min (i_requested_ttl i) 120
        /\ d_allowed_evidence_ids d = i_evidence_ids i).

Lemma narrow_decision_iff d i : narrow_decision d i = Ok tt <-> narrowed d i.
Proof.
  unfold narrow_decision, narrowed. cbn [b_sha256 POLICY_BUNDLE]. rewrite rbind_ok. split.
  - intros (x & Hg%guard_ok & H). breflect. split_and!; try done. intros E. rewrite E in H.
    apply guard_ok in H. breflect. split_and!; lia || done.
  - intros (H1 & H2 & H3 & H4 & H5). exists tt. split.
    + apply guard_ok. by rewrite !bool_decide_eq_true_2.
    + destruct (d_effect d); [done|]. destruct (H5 eq_refl) as (Ha & Hb & Hc & Hd).
      apply guard_ok. rewrite !bool_decide_eq_true_2 by done. cbn [andb].
      rewrite (proj2 (Z.leb_le _ _) Hb), range_check by lia. done.
Qed.

(** The authority an accepted evaluation carries over a candidate *)
Definition bounded_authority (v : PolicyEvaluation) (c : ContainmentCandidateV1) : Prop :=
  match d_effect (v_decision v) with
  | Deny => d_max_ttl (v_decision v) = 0 /\ d_allowed_evidence_ids (v_decision v) = []
  | ManualApprovalRequired =>
      c_protocol c = u "tcp" /\ v_evidence_age_ms v <= MAX_EVIDENCE_AGE_MS
      /\ 30 <= d_max_ttl (v_decision v) <= Z.min (c_ttl c) 120
      /\ d_allowed_evidence_ids (v_decision v) = c_evidence_ids c
  end.

Lemma validated_evaluation v c v' :
  validate_policy_evaluation_for_candidate v c = Ok v' ->
  v' = v /\ evaluation_bindings v = Ok tt /\ input_valid (v_input v) /\ decision_valid (v_decision v)
  /\ v_bundle v = POLICY_BUNDLE /\ narrowed (v_decision v) (v_input v)
  /\ exists facts, candidate_facts_sha256 c = Ok facts
     /\ v_input v = input_of_candidate c facts (v_evidence_age_ms v) (v_input_sha256 v).
Proof.
  unfold validate_policy_evaluation_for_candidate. intros H.
  apply rbind_ok in H as (w & Hw & H).
  apply detach_policy_evaluation_ok in Hw as (-> & Vi & Vd & Hb & Hbind).
  apply rbind_ok in H as (e & He & H).
  apply policy_input_for_candidate_ok in He as (facts & hash & Hf & -> & Ve).
  apply rbind_ok in H as (l & Hl%catch_ok & H). apply rbind_ok in H as (r & Hr%catch_ok & H).
  apply rbind_ok in H as (? & Hg%guard_ok & H). apply bool_decide_eq_true in Hg as ->.
  apply rbind_ok in H as ([] & Hn%narrow_decision_iff & H). injection H as <-.
  pose proof (input_bytes_inj _ _ _ Vi Ve Hl Hr) as E.
  pose proof Hbind as Hb2. unfold evaluation_bindings in Hb2.
  apply rbind_ok in Hb2 as (? & Hb2%guard_ok & _). breflect.
  split_and!; try done.
  - rewrite Hb. unfold POLICY_BUNDLE. f_equal.
    match goal with H : b_sha256 _ = i_bundle_sha256 _ |- _ => rewrite H end. by rewrite E.
  - exists facts. split; [done|].
    match goal with H : v_input_sha256 _ = i_input_sha256 _ |- _ => rewrite H end.
    rewrite E at 1. by rewrite E.
Qed.


Lemma get_app k (d t : document) :
  get k (d ++ t) = match get k d with Some v => Some v | None => get k t end.
Proof. induction d as [|[k' v'] d IH]; cbn [get app]; [done|]. by case_bool_decide. Qed.

(** The bytes whose digest is the claimed hash of an input *)
Definition input_preimage (i : PolicyInputV1) : option bytes :=
  match canonical_json (JObj (pop (u "policy_input_sha256") (input_dump i))) with
  | Ok canonical => Some (POLICY_INPUT_HASH_DOMAIN ++ canonical)
  | Err _ => None
  end.

Lemma input_hash_preimage i :
  input_hash_is_exact i = Ok tt -> exists m, input_preimage i = Some m
  /\ i_input_sha256 i = sha256_hex m.
Proof.
  unfold input_hash_is_exact, policy_input_sha256, input_preimage. intros H.
  apply rbind_ok in H as (e & He & H). apply guard_ok in H. apply bool_decide_eq_true in H.
  apply rbind_ok in He as (? & _ & He). apply rbind_ok in He as (c & Hc & He).
  rewrite Hc. injection He as <-. by eexists.
Qed.

(** Ordering the keys of an input without its hash changes no lookup. *)
Lemma input_pop_canon i :
  doc_equiv (canon_obj (pop (u "policy_input_sha256") (input_dump i)))
    (pop (u "policy_input_sha256") (input_dump i)).
Proof.
  set (fields := List.filter (fun kv => negb (bool_decide (kv.1 = u "policy_input_sha256")))
                   (input_fields i)).
  assert (E : pop (u "policy_input_sha256") (input_dump i) = dump_of fields) by reflexivity.
  rewrite E. apply flat_canon_equiv.
  - apply (bool_decide_eq_true (NoDup _)). vm_compute. reflexivity.
  - pose proof (input_flat i) as Hf. rewrite Forall_forall in *.
    intros kv Hkv%list_elem_of_In%filter_In. apply Hf, list_elem_of_In, Hkv.
Qed.

Lemma input_dump_split i :
  input_dump i = pop (u "policy_input_sha256") (input_dump i)
                 ++ [(u "policy_input_sha256", JStr (i_input_sha256 i))].
Proof. reflexivity. Qed.

(** Inputs with the same preimage and the same claimed hash are equal. *)
Lemma input_pop_inj i j m :
  input_valid i -> input_valid j -> i_input_sha256 i = i_input_sha256 j ->
  input_preimage i = Some m -> input_preimage j = Some m -> i = j.
Proof.
  unfold input_preimage. intros Hi Hj Hh Ei Ej.
  destruct (canonical_json (JObj (pop _ (input_dump i)))) as [ci|] eqn:Ci; [|done].
  destruct (canonical_json (JObj (pop _ (input_dump j)))) as [cj|] eqn:Cj; [|done].
  assert (ci = cj) as <- by (apply (app_inv_head POLICY_INPUT_HASH_DOMAIN); congruence).
  assert (U : forall i, unique_keys (JObj (pop (u "policy_input_sha256") (input_dump i))) = true).
  { intros x. apply unique_keys_pop, flat_unique; [exact input_keys_nodup|apply input_flat]. }
  pose proof (proj1 (canonical_json_injective_aux _ _ ci (U i) (U j) Ci) Cj) as Hc.
  apply canon_obj_inj in Hc.
  assert (E : doc_equiv (input_dump j) (input_dump i)).
  { intros k. rewrite (input_dump_split i), (input_dump_split j), Hh, !get_app.
    by rewrite <- (input_pop_canon i k), <- (input_pop_canon j k), Hc. }
  pose proof (input_validate_dump i Hi) as Vi. rewrite <- E in Vi.
  rewrite (input_validate_dump j Hj) in Vi. congruence.
Qed.

(** The input hash binds the whole policy input: two validated inputs with the
    same claimed hash are equal in every field, unless their two hash preimages are
    a SHA-256 collision. *)
Theorem policy_input_hash_binds doc1 doc2 i j :
  input_validate doc1 = Ok i -> input_validate doc2 = Ok j ->
  i_input_sha256 i = i_input_sha256 j ->
  i = j \/ exists m1 m2, input_preimage i = Some m1 /\ input_preimage j = Some m2
             /\ collision m1 m2.
Proof.
  intros Hi%input_validate_sound Hj%input_validate_sound Hh.
  destruct (input_hash_preimage i) as (mi & Ei & Si); [apply Hi|].
  destruct (input_hash_preimage j) as (mj & Ej & Sj); [apply Hj|].
  destruct (sha256_hex_inj mi mj) as [E|E]; [congruence| |].
  - left. apply (input_pop_inj i j mi); congruence.
  - right. by exists mi, mj.
Qed.

(** ** A candidate and its evaluation *)

Definition digest_of (n : Z) : pystr := sha256_hex [byte_of n].

Definition id_or_empty (r : result py_exn pystr) : pystr :=
  match r with Ok i => i | Err _ => [] end.

Definition sample_primary : pystr := u "evt_" ++ digest_of 1.
Definition sample_snapshot : pystr := u "evt_" ++ digest_of 2.

Definition sample_candidate : ContainmentCandidateV1 := Eval vm_compute in
  let started := u "2026-01-01T00:00:00Z" in
  let destination := u "93.184.216.34" in
  mkCandidate
    (id_or_empty (candidate_id sample_primary (digest_of 3) started destination (digest_of 4)))
    (id_or_empty (incident_id sample_primary)) sample_host sample_boot sample_primary 7
    sample_snapshot (digest_of 3) started (u "sha256:" ++ digest_of 5)
    [u "registry.example/app@sha256:" ++ digest_of 6] (digest_of 7) 3 4 destination 443
    (u "tcp") 90 (digest_of 4) (digest_of 8) (digest_of 9) (digest_of 10) (digest_of 11)
    (digest_of 12) (sort_str [sample_primary; sample_snapshot]) (u "2026-01-01T00:01:00Z").

Definition ok_or {E A} (r : result E A) (default : A) : A :=
  match r with Ok a => a | Err _ => default end.

Definition sample_input : PolicyInputV1 := Eval vm_compute in
  ok_or (policy_input_for_candidate sample_candidate 1500)
    (input_of_candidate sample_candidate [] 0 []).

Definition sample_decision : PolicyDecisionV1 :=
  mkDecision ManualApprovalRequired [REASON_MANUAL] 60 (i_evidence_ids sample_input)
    (i_candidate_id sample_input) (i_facts_sha256 sample_input) (i_input_sha256 sample_input)
    POLICY_BUNDLE_SHA256.

Definition sample_evaluation : PolicyEvaluation := Eval vm_compute in
  mkEvaluation sample_input sample_decision (i_candidate_id sample_input)
    (i_facts_sha256 sample_input) (i_input_sha256 sample_input)
    (id_or_empty (policy_decision_sha256 sample_decision)) POLICY_BUNDLE
    (u "2026-01-01T00:01:01.400000Z") 1500.


Lemma policy_input_hash_binds_witness :
  sample_input = sample_input
  \/ exists m1 m2, input_preimage sample_input = Some m1 /\ input_preimage sample_input = Some m2
       /\ collision m1 m2.
Proof.
  assert (H : input_validate (input_dump sample_input) = Ok sample_input)
    by (vm_compute; reflexivity).
  exact (policy_input_hash_binds _ _ _ _ H H eq_refl).
Defined.
