(* ===== verification/DecisionClock.v ===== *)
(** * The decision clock

    [clock.py] and the clock arithmetic of [policy/client.py]: samples with their
    validation, [decimal] arithmetic in the default context, the bounded
    observation of the clock, instants as text, and the age of evidence, which is compared
    with the rational number of nanoseconds it has to cover. *)

From Stdlib Require Import SpecFloat QArith Lqa.
From S2P Require Import Prelude Sha256 CanonicalJson JsonDecode Time Ipv4 Identities Contracts.
From S2P Require Import CoverageReducer CoverageState Policy.
Local Open Scope Z_scope.
Local Open Scope agmind_scope.

(** ** Samples *)

Record CoreClockSample := mkSample {
  s_decision_utc : datetime; s_monotonic : float; s_healthy : bool;
  s_uncertainty : option decimal; s_max_uncertainty : decimal }.

(** [_validate_core_clock_sample]; [false] is [CoreClockValidationError] *)
Definition validate_core_clock_sample (s : CoreClockSample) : bool :=
  dt_is_utc (s_decision_utc s)
  && (f_is_finite (s_monotonic s) && negb (f_ltb (s_monotonic s) (f_of_int 0)))
  && match s_uncertainty s with Some d => dec_nonneg_ok d | None => true end
  && dec_nonneg_ok (s_max_uncertainty s).

(** ** [decimal] arithmetic: precision 28, rounding half to even *)

Definition DECIMAL_PREC : Z := 28.
Definition DECIMAL_ETINY : Z := -1000026.

(** The number of digits of a nonnegative coefficient *)
Definition dec_length (c : Z) : Z := Z.of_nat (length (dec_nonneg c)).

(** [c / 10^k] rounded half to even *)
Definition round_half_even (c k : Z) : Z :=
  let p := 10 ^ k in
  let q := c / p in
  let r := c mod p in
  if 2 * r <? p then q
  else if p <? 2 * r then q + 1
  else if Z.even q then q else q + 1.

(** The result of an operation, rounded to the context *)
Definition dec_fix (c e : Z) : decimal :=
  if c =? 0 then DecFinite 0 e
  else
    let target := Z.max (dec_length c + e - DECIMAL_PREC) DECIMAL_ETINY in
    if e <? target then
      let q := round_half_even c (target - e) in
      if DECIMAL_PREC <? dec_length q then DecFinite (q / 10) (target + 1)
      else DecFinite q target
    else DecFinite c e.

(** [uncertainty * Decimal(1_000_000_000)], for a nonnegative finite uncertainty *)
Definition dec_nanoseconds (d : decimal) : decimal :=
  match d with DecFinite c e => dec_fix (c * NANOSECONDS_PER_SECOND) e | _ => d end.

(** [int(d.to_integral_value(rounding=ROUND_CEILING))] *)
Definition dec_ceiling (d : decimal) : Z :=
  match d with
  | DecFinite c e => if 0 <=? e then c * 10 ^ e else - ((- c) / 10 ^ (- e))
  | _ => 0
  end.

(** [Decimal(MAX_UINT64) / Decimal(1_000_000_000)], which is exact *)
Definition MAX_UNCERTAINTY : decimal := DecFinite MAX_UINT64 (-9).

(** [_clock_observation]: the sample and its uncertainty in nanoseconds; [None] is
    a clock that raised or returned something else.  Every failure is
    [PolicyUnavailable]. *)
Definition clock_observation (observed : option CoreClockSample)
  : result policy_exn (CoreClockSample * Z) :=
  let* s := of_option PolicyUnavailable observed in
  guard (validate_core_clock_sample s) PolicyUnavailable ;;*
  let* uncertainty := of_option PolicyUnavailable (s_uncertainty s) in
  guard (s_healthy s && dec_leb uncertainty (s_max_uncertainty s)
         && dec_leb uncertainty MAX_UNCERTAINTY) PolicyUnavailable ;;*
  let uncertainty_ns := dec_ceiling (dec_nanoseconds uncertainty) in
  guard (is_uint64 uncertainty_ns) PolicyUnavailable ;;*
  Ok (s, uncertainty_ns).

(** ** Instants *)

(** The range of [datetime], years 1 to 9999 *)
Definition datetime_range (us : Z) : Prop :=
  MIN_TIMESTAMP_NS <= us * 1000 <= MAX_TIMESTAMP_NS.

(** [_datetime_ns] *)
Definition datetime_ns (value : datetime) : result policy_exn Z :=
  guard (dt_is_utc value) PolicyUnavailable ;;*
  let second_of_epoch := dt_us value / 1000000 in
  let second_of_day := second_of_epoch mod SECONDS_PER_DAY in
  let toordinal := second_of_epoch / SECONDS_PER_DAY + UNIX_EPOCH_ORDINAL in
  let days := toordinal - UNIX_EPOCH_ORDINAL in
  let seconds := ((days * 24 + second_of_day / 3600) * 60 + second_of_day mod 3600 / 60) * 60
                 + second_of_day mod 60 in
  Ok (seconds * NANOSECONDS_PER_SECOND + dt_us value mod 1000000 * 1000).

(** [_utc_text]: [isoformat] with microseconds only when there are some *)
Definition utc_text (value : datetime) : pystr :=
  let second_of_epoch := dt_us value / 1000000 in
  let second_of_day := second_of_epoch mod SECONDS_PER_DAY in
  let microsecond := dt_us value mod 1000000 in
  let date := fromordinal (second_of_epoch / SECONDS_PER_DAY + UNIX_EPOCH_ORDINAL) in
  pad 4 date.1 ++ [45] ++ pad 2 date.2.1 ++ [45] ++ pad 2 date.2.2 ++ [84]
  ++ pad 2 (second_of_day / 3600) ++ [58] ++ pad 2 (second_of_day mod 3600 / 60) ++ [58]
  ++ pad 2 (second_of_day mod 60)
  ++ (if microsecond =? 0 then [] else [46] ++ pad 6 microsecond) ++ [90].

(** [_timestamp_ns] of [policy/client.py], with its own copies of [_is_leap_year] and
    [_days_from_civil]; the text of the three is that of [parse_rfc3339nano_utc_ns]
    but for the exception. *)
Definition timestamp_ns (value : pystr) : result policy_exn Z :=
  let* m := of_option PolicyError (match_timestamp value) in
  let year := digits_value (m_year m) in
  let month := digits_value (m_month m) in
  let day := digits_value (m_day m) in
  let hour := digits_value (m_hour m) in
  let minute := digits_value (m_minute m) in
  let second := digits_value (m_second m) in
  guard ((1 <=? year) && (year <=? 9999) && ((1 <=? month) && (month <=? 12))) PolicyError ;;*
  guard ((1 <=? day) && (day <=? month_length year month)
         && ((0 <=? hour) && (hour <=? 23))
         && ((0 <=? minute) && (minute <=? 59))
         && ((0 <=? second) && (second <=? 59))) PolicyError ;;*
  let nanoseconds :=
    match m_fraction m with None => 0 | Some f => digits_value (ljust9 f) end in
  let days := days_from_civil year month day in
  let seconds := ((days * 24 + hour) * 60 + minute) * 60 + second in
  Ok (seconds * NANOSECONDS_PER_SECOND + nanoseconds).

Definition NANOSECONDS_PER_MILLISECOND : Z := 1000000.

(** [_evidence_age_ms] *)
Definition evidence_age_ms (created_at : pystr) (s : CoreClockSample) (uncertainty_ns : Z)
  : result policy_exn Z :=
  let* decision_ns := datetime_ns (s_decision_utc s) in
  let* created_ns := timestamp_ns created_at in
  guard (created_ns <=? decision_ns) PolicyError ;;*
  let age_ns := decision_ns - created_ns + uncertainty_ns in
  let age_ms := (age_ns + NANOSECONDS_PER_MILLISECOND - 1) / NANOSECONDS_PER_MILLISECOND in
  guard (is_uint64 age_ms) PolicyError ;;*
  Ok age_ms.

(** ** Lemmas *)

Lemma timestamp_ns_parse value ns :
  timestamp_ns value = Ok ns <-> parse_rfc3339nano_utc_ns value = Ok ns.
Proof.
  unfold timestamp_ns, parse_rfc3339nano_utc_ns. destruct (match_timestamp value) as [m|]; [|done].
  cbn [of_option rbind]. unfold guard.
  do 2 match goal with |- context [if ?b then Ok tt else _] => destruct b; [|by split] end.
  cbn [rbind]. split; intros H; injection H as <-; done.
Qed.

Local Ltac Zify.zify_post_hook ::= Z.div_mod_to_equations.

Lemma datetime_ns_value us : datetime_ns (mkDatetime us true) = Ok (us * 1000).
Proof.
  unfold datetime_ns. cbn [dt_us dt_is_utc guard rbind].
  unfold SECONDS_PER_DAY, NANOSECONDS_PER_SECOND. f_equal. lia.
Qed.

(** Six digits of microseconds are read as nanoseconds. *)
Lemma microseconds_ns us : 0 < us < 1000000 -> fraction_ns (Some (pad 6 us)) = us * 1000.
Proof.
  intros Hu. destruct (pad_spec 6 us) as (Hd & Hl & Hv); [lia|lia|].
  unfold fraction_ns, ljust9. rewrite Hl. cbn [Nat.sub repeat].
  unfold digits_value in *. rewrite fold_left_app, Hv. cbn. lia.
Qed.

(** The calendar fields of an instant in microseconds *)
Lemma datetime_fields us :
  datetime_range us ->
  let seconds := us / 1000000 in
  let sod := seconds mod SECONDS_PER_DAY in
  let date := fromordinal (seconds / SECONDS_PER_DAY + UNIX_EPOCH_ORDINAL) in
  fields_ok date.1 date.2.1 date.2.2 (sod / 3600) (sod mod 3600 / 60) (sod mod 60)
    (us mod 1000000 * 1000)
  /\ us * 1000 = civil_ns date.1 date.2.1 date.2.2 (sod / 3600) (sod mod 3600 / 60) (sod mod 60)
                   (us mod 1000000 * 1000).
Proof.
  unfold datetime_range, MIN_TIMESTAMP_NS, MAX_TIMESTAMP_NS. intros Hr. cbv zeta.
  set (ordinal := us / 1000000 / SECONDS_PER_DAY + UNIX_EPOCH_ORDINAL).
  assert (Ho : 1 <= ordinal <= 3652059)
    by (unfold ordinal, SECONDS_PER_DAY, UNIX_EPOCH_ORDINAL; lia).
  destruct (fromordinal_spec ordinal) as [Hd Heq]; [lia|].
  pose proof (fromordinal_year _ Ho) as H9.
  destruct (fromordinal ordinal) as [year [month day]]. cbn [fst snd] in *.
  unfold fields_ok, civil_ns. rewrite Heq.
  replace (ordinal - UNIX_EPOCH_ORDINAL) with (us / 1000000 / SECONDS_PER_DAY)
    by (unfold ordinal; lia).
  unfold SECONDS_PER_DAY, NANOSECONDS_PER_SECOND. split; [split_and!; try done; lia|lia].
Qed.

Lemma utc_text_parses us :
  datetime_range us -> parse_rfc3339nano_utc_ns (utc_text (mkDatetime us true)) = Ok (us * 1000).
Proof.
  intros Hr. destruct (datetime_fields us Hr) as [Hf Hns]. unfold utc_text. cbn [dt_us].
  cbv zeta in Hf, Hns. rewrite Hns. clear Hns.
  destruct (fromordinal _) as [year [month day]]. cbn [fst snd] in *.
  set (sod := us / 1000000 mod SECONDS_PER_DAY) in *.
  assert (Hu : 0 <= us mod 1000000 < 1000000) by lia.
  set (fraction := us mod 1000000) in *. clearbody sod fraction.
  destruct (stamp_ok _ _ _ _ _ _ _ Hf) as ((Y & Mo & D & H & Mi & S & _) & E1 & E2 & E3 & E4 & E5 & E6 & _).
  apply parse_spec.
  exists (mkTimestamp (pad 4 year) (pad 2 month) (pad 2 day) (pad 2 (sod / 3600))
    (pad 2 (sod mod 3600 / 60)) (pad 2 (sod mod 60))
    (if fraction =? 0 then None else Some (pad 6 fraction))).
  assert (Hn : fraction_ns (if fraction =? 0 then None else Some (pad 6 fraction)) = fraction * 1000).
  { destruct (Z.eqb_spec fraction 0) as [->|Hz]; [done|]. apply microseconds_ns. lia. }
  cbn [stamp m_year m_month m_day m_hour m_minute m_second m_fraction] in *.
  rewrite E1, E2, E3, E4, E5, E6, Hn. split_and!; try done.
  - unfold match_ok. cbn [m_year m_month m_day m_hour m_minute m_second m_fraction].
    split_and!; try done. destruct (Z.eqb_spec fraction 0); [done|].
    destruct (pad_spec 6 fraction) as (Hd & Hl & _); [lia|lia|]. split; [done|]. rewrite Hl. lia.
  - unfold match_text, fraction_text. cbn [m_year m_month m_day m_hour m_minute m_second m_fraction].
    rewrite <- ?app_assoc. by destruct (fraction =? 0).
Qed.

(** The text that records a decision instant denotes exactly that instant: every
    UTC [datetime] is rendered to text that [_timestamp_ns] reads back as the same
    number of nanoseconds as [_datetime_ns] computes from the value itself, so the
    times stored in evaluations and intents can be compared with live clock values. *)
Theorem decision_time_text us :
  datetime_range us ->
  timestamp_ns (utc_text (mkDatetime us true)) = datetime_ns (mkDatetime us true).
Proof. intros H. rewrite datetime_ns_value. by apply timestamp_ns_parse, utc_text_parses. Qed.

Lemma evidence_age_ms_ok created s uncertainty age :
  evidence_age_ms created s uncertainty = Ok age ->
  exists created_ns, parse_rfc3339nano_utc_ns created = Ok created_ns
    /\ dt_is_utc (s_decision_utc s) = true
    /\ created_ns <= dt_us (s_decision_utc s) * 1000
    /\ 0 <= age <= MAX_UINT64
    /\ age = (dt_us (s_decision_utc s) * 1000 - created_ns + uncertainty
              + NANOSECONDS_PER_MILLISECOND - 1) / NANOSECONDS_PER_MILLISECOND.
Proof.
  unfold evidence_age_ms. destruct (s_decision_utc s) as [us utc]. cbn [dt_us dt_is_utc].
  intros H. apply rbind_ok in H as (d & Hd & H).
  assert (utc = true) as -> by (by destruct utc).
  rewrite datetime_ns_value in Hd. injection Hd as <-.
  apply rbind_ok in H as (c & Hc%timestamp_ns_parse & H).
  apply rbind_ok in H as (? & Hle%guard_ok & H). apply rbind_ok in H as (? & Hu%guard_ok & H).
  unfold is_uint64 in Hu. breflect. injection H as <-. by exists c.
Qed.

Lemma decision_time_text_witness :
  utc_text (mkDatetime 1767225661400000 true) = u "2026-01-01T00:01:01.400000Z"
  /\ timestamp_ns (utc_text (mkDatetime 1767225661400000 true))
     = datetime_ns (mkDatetime 1767225661400000 true).
Proof.
  split; [vm_compute; reflexivity|]. apply decision_time_text.
  unfold datetime_range, MIN_TIMESTAMP_NS, MAX_TIMESTAMP_NS. lia.
Defined.

(** ** The uncertainty in nanoseconds *)

Lemma dec_length_spec c : 0 < c -> 10 ^ (dec_length c - 1) <= c < 10 ^ dec_length c.
Proof.
  intros Hc. destruct (dec_nonneg_spec c ltac:(lia)) as (Hv & Hd & [[-> _]|(_ & h & l & E & Hh)]); [lia|].
  pose proof (digits_value_range _ Hd) as Hr. rewrite Hv in Hr. unfold dec_length. split; [|apply Hr].
  rewrite E in Hv, Hd |- *. rewrite digits_value_cons in Hv. apply Forall_cons in Hd as [Hh'%is_digit_range Hl].
  pose proof (digits_value_range _ Hl). cbn [length]. rewrite Nat2Z.inj_succ, Z.sub_1_r, Z.pred_succ. nia.
Qed.

(** Rounding moves by at most half a unit, and keeps multiples of the unit. *)
Lemma round_half_even_spec c k :
  0 <= k -> let q := round_half_even c k in
  2 * (q * 10 ^ k - c) <= 10 ^ k /\ 2 * (c - q * 10 ^ k) <= 10 ^ k /\ ((10 ^ k | c) -> q * 10 ^ k = c).
Proof.
  intros Hk. cbv zeta. unfold round_half_even. assert (Hp : 0 < 10 ^ k) by (by apply Z.pow_pos_nonneg).
  pose proof (Z.div_mod c (10 ^ k) ltac:(lia)) as E. pose proof (Z.mod_pos_bound c (10 ^ k) Hp) as Hr.
  assert (Hd : (10 ^ k | c) -> c mod 10 ^ k = 0) by (apply Z.mod_divide; lia).
  revert E Hr Hd Hp. generalize (c mod 10 ^ k) as r. generalize (c / 10 ^ k) as q.
  generalize (10 ^ k) as p. intros p q r E Hr Hd Hp.
  destruct (Z.ltb_spec (2 * r) p); [|destruct (Z.ltb_spec p (2 * r)); [|destruct (Z.even q)]];
    (split_and!; [lia|lia|intros Hc; specialize (Hd Hc); lia]).
Qed.

(** The exact ceiling of a decimal with a negative exponent *)
Lemma dec_ceiling_spec q t :
  t < 0 -> let n := dec_ceiling (DecFinite q t) in (n - 1) * 10 ^ (- t) < q <= n * 10 ^ (- t).
Proof.
  intros Ht. cbv zeta. cbn [dec_ceiling]. destruct (Z.leb_spec 0 t); [lia|].
  assert (Hp : 0 < 10 ^ (- t)) by (apply Z.pow_pos_nonneg; lia).
  pose proof (Z.div_mod (- q) (10 ^ (- t)) ltac:(lia)). pose proof (Z.mod_pos_bound (- q) (10 ^ (- t)) Hp). nia.
Qed.

(** One step of a carry does not change the value. *)
Lemma dec_ceiling_carry a t : t + 1 < 0 -> dec_ceiling (DecFinite a (t + 1)) = dec_ceiling (DecFinite (a * 10) t).
Proof.
  intros Ht. cbn [dec_ceiling]. destruct (Z.leb_spec 0 t), (Z.leb_spec 0 (t + 1)); try lia. f_equal.
  replace (- t) with (Z.succ (- (t + 1))) by lia. rewrite Z.pow_succ_r by lia.
  rewrite <- Z.mul_opp_l, (Z.mul_comm 10). symmetry. apply Z.div_mul_cancel_r; [apply Z.pow_nonzero|]; lia.
Qed.

(** The unit the product is rounded to *)
Definition dec_unit (m e : Z) : Z := Z.max (dec_length m + e - DECIMAL_PREC) DECIMAL_ETINY.

Lemma rounded_ceiling m e :
  0 < m -> dec_unit m e < -1 -> e < dec_unit m e ->
  dec_ceiling (dec_fix m e) = dec_ceiling (DecFinite (round_half_even m (dec_unit m e - e)) (dec_unit m e)).
Proof.
  intros Hm Ht He. unfold dec_fix. rewrite (proj2 (Z.eqb_neq m 0)) by lia. fold (dec_unit m e). cbv zeta.
  rewrite (proj2 (Z.ltb_lt _ _)) by done. set (k := dec_unit m e - e).
  destruct (Z.ltb_spec DECIMAL_PREC (dec_length (round_half_even m k))) as [Hl|]; [|done].
  pose proof (round_half_even_spec m k ltac:(unfold k; lia)) as (H1 & _). cbv zeta in H1.
  set (q := round_half_even m k) in *. pose proof (dec_length_spec m Hm) as [_ Hlen].
  assert (Hk : dec_length m <= 28 + k) by (unfold k, dec_unit, DECIMAL_PREC; lia).
  assert (Hm28 : m < 10 ^ 28 * 10 ^ k).
  { rewrite <- Z.pow_add_r by (unfold k; lia). eapply Z.lt_le_trans; [exact Hlen|]. apply Z.pow_le_mono_r; lia. }
  assert (Hp : 0 < 10 ^ k) by (apply Z.pow_pos_nonneg; unfold k; lia).
  assert (Hq0 : 0 < q) by (destruct (Z.lt_ge_cases 0 q) as [|Hq]; [done|]; unfold dec_length, dec_nonneg in Hl;
    assert (Z.log2 q = 0) as E by (apply Z.log2_nonpos; lia); rewrite E in Hl;
    destruct q; cbn in Hl; try (unfold DECIMAL_PREC in Hl); lia).
  pose proof (dec_length_spec q Hq0) as [Hq28 _].
  assert (Hq : 10 ^ 28 <= q).
  { eapply Z.le_trans; [|exact Hq28]. apply Z.pow_le_mono_r; unfold DECIMAL_PREC in Hl; lia. }
  assert (Eq : q = 10 ^ 27 * 10) by (change (10 ^ 28) with (10 ^ 27 * 10) in *; nia).
  rewrite dec_ceiling_carry by lia. do 2 f_equal. by rewrite Eq, Z.div_mul by lia.
Qed.

(** What the two comparisons of the sample say of its uncertainty *)
Lemma uncertainty_bounded c e :
  0 <= c -> dec_leb (DecFinite c e) MAX_UNCERTAINTY = true ->
  if 0 <=? e then c * NANOSECONDS_PER_SECOND * 10 ^ e <= MAX_UINT64
  else c * NANOSECONDS_PER_SECOND <= MAX_UINT64 * 10 ^ (- e).
Proof.
  intros Hc H. unfold dec_leb, MAX_UNCERTAINTY in H. cbn [dec_exponent dec_scaled] in H.
  apply Z.leb_le in H. unfold NANOSECONDS_PER_SECOND. change 1000000000 with (10 ^ 9).
  destruct (Z.leb_spec 0 e), (Z.le_gt_cases (-9) e).
  - rewrite Z.min_r in H by lia. rewrite Z.sub_diag, Z.mul_1_r in H. replace (e - -9) with (e + 9) in H by lia.
    rewrite Z.pow_add_r in H by lia. lia.
  - lia.
  - rewrite Z.min_r in H by lia. rewrite Z.sub_diag, Z.mul_1_r in H. replace (e - -9) with (e + 9) in H by lia.
    assert (E : 10 ^ 9 = 10 ^ (e + 9) * 10 ^ (- e)) by (rewrite <- Z.pow_add_r by lia; f_equal; lia).
    rewrite E. assert (0 < 10 ^ (- e)) by (apply Z.pow_pos_nonneg; lia). nia.
  - rewrite Z.min_l in H by lia. rewrite Z.sub_diag, Z.mul_1_r in H.
    assert (E : 10 ^ (- e) = 10 ^ (-9 - e) * 10 ^ 9) by (rewrite <- Z.pow_add_r by lia; f_equal; lia).
    rewrite E. nia.
Qed.

(** The digits of the product leave a unit far below a nanosecond. *)
Lemma unit_small m e :
  0 < m -> (if 0 <=? e then m * 10 ^ e <= MAX_UINT64 else m <= MAX_UINT64 * 10 ^ (- e)) -> dec_unit m e <= -8.
Proof.
  intros Hm Hb. pose proof (dec_length_spec m Hm) as [Hl _].
  assert (Hd : 0 <= dec_length m - 1).
  { pose proof (dec_length_spec m Hm) as [_ Hu]. destruct (Z.le_gt_cases 1 (dec_length m)) as [|Hz]; [lia|].
    assert (10 ^ dec_length m <= 1) by (change 1 with (10 ^ 0); apply Z.pow_le_mono_r; lia). lia. }
  assert (HM : MAX_UINT64 < 10 ^ 20) by done.
  enough (dec_length m - 1 + e < 20) by (unfold dec_unit, DECIMAL_PREC, DECIMAL_ETINY; lia).
  destruct (Z.leb_spec 0 e).
  - apply (Z.pow_lt_mono_r_iff 10); [lia|lia|]. rewrite Z.pow_add_r by lia.
    assert (0 < 10 ^ e) by (apply Z.pow_pos_nonneg; lia). nia.
  - enough (dec_length m - 1 < 20 + - e) by lia. apply (Z.pow_lt_mono_r_iff 10); [lia|lia|].
    rewrite Z.pow_add_r by lia. assert (0 < 10 ^ (- e)) by (apply Z.pow_pos_nonneg; lia). nia.
Qed.

(** The nanoseconds of an uncertainty: exact for the numbers of the decimal context, and
    otherwise short of the ceiling only by the rounding of the product to 28 digits. *)
Lemma nanoseconds_spec c e :
  0 <= c -> dec_leb (DecFinite c e) MAX_UNCERTAINTY = true ->
  let m := c * NANOSECONDS_PER_SECOND in
  let ns := dec_ceiling (dec_nanoseconds (DecFinite c e)) in
  if 0 <=? e then ns = m * 10 ^ e
  else (ns - 1) * 10 ^ (- e) < m /\ 2 * 10 ^ 8 * m <= (2 * 10 ^ 8 * ns + 1) * 10 ^ (- e)
       /\ (c < 10 ^ 28 -> DECIMAL_ETINY <= e -> m <= ns * 10 ^ (- e)).
Proof.
  intros Hc Hb m ns. pose proof (uncertainty_bounded c e Hc Hb) as Hm. fold m in Hm.
  unfold ns. cbn [dec_nanoseconds]. fold m. clear ns. destruct (Z.eq_dec m 0) as [E|Hnz].
  { rewrite E. cbn [dec_fix dec_ceiling Z.eqb Z.opp]. destruct (Z.leb_spec 0 e); [done|].
    assert (0 < 10 ^ (- e)) by (apply Z.pow_pos_nonneg; lia). rewrite Z.div_0_l by lia. split_and!; lia. }
  assert (Hm0 : 0 < m) by (unfold m, NANOSECONDS_PER_SECOND in *; lia).
  pose proof (unit_small m e Hm0 Hm) as Ht.
  destruct (Z.le_gt_cases (dec_unit m e) e) as [He|He].
  { assert (E : dec_fix m e = DecFinite m e).
    { unfold dec_fix. rewrite (proj2 (Z.eqb_neq m 0)) by done. fold (dec_unit m e). cbv zeta.
      by rewrite (proj2 (Z.ltb_ge _ _)) by done. }
    rewrite E. destruct (Z.leb_spec 0 e) as [H0|H0]; [by cbn [dec_ceiling]; rewrite (proj2 (Z.leb_le 0 e))|].
    pose proof (dec_ceiling_spec m e H0). assert (0 < 10 ^ (- e)) by (apply Z.pow_pos_nonneg; lia).
    cbv zeta in *. split_and!; [lia|nia|lia]. }
  rewrite rounded_ceiling by (done || lia). destruct (Z.leb_spec 0 e) as [|_]; [lia|].
  set (t := dec_unit m e) in *. set (q := round_half_even m (t - e)).
  pose proof (dec_ceiling_spec q t ltac:(lia)) as [Hn1 Hn2]. set (n := dec_ceiling (DecFinite q t)) in *.
  pose proof (round_half_even_spec m (t - e) ltac:(lia)) as (R1 & R2 & R3). fold q in R1, R2, R3.
  assert (E : 10 ^ (- e) = 10 ^ (- t) * 10 ^ (t - e)) by (rewrite <- Z.pow_add_r by lia; f_equal; lia).
  assert (H8 : 10 ^ 8 <= 10 ^ (- t)) by (apply Z.pow_le_mono_r; lia).
  assert (Hp : 0 < 10 ^ (t - e)) by (apply Z.pow_pos_nonneg; lia).
  assert (Hexact : c < 10 ^ 28 -> DECIMAL_ETINY <= e -> (10 ^ (t - e) | m)).
  { intros Hd Hety. apply (Z.divide_trans _ (10 ^ 9)); [|by exists c].
    assert (Hl : dec_length m <= 37).
    { pose proof (dec_length_spec m Hm0) as [Hl _].
      assert (10 ^ (dec_length m - 1) < 10 ^ 37).
      { eapply Z.le_lt_trans; [exact Hl|]. unfold m, NANOSECONDS_PER_SECOND. lia. }
      assert (dec_length m - 1 < 37); [|lia]. apply (Z.pow_lt_mono_r_iff 10); lia. }
    assert (Hk : t - e <= 9) by (unfold t, dec_unit, DECIMAL_PREC, DECIMAL_ETINY in *; lia).
    exists (10 ^ (9 - (t - e))). rewrite <- Z.pow_add_r by lia. f_equal. lia. }
  rewrite E. revert Hn1 Hn2 R1 R2 R3 H8 Hp Hexact. generalize (10 ^ (t - e)) as p. generalize (10 ^ (- t)) as T.
  change (10 ^ 8) with 100000000. intros T p Hn1 Hn2 R1 R2 R3 H8 Hp Hexact. split_and!; [nia|nia|].
  intros H1 H2. specialize (R3 (Hexact H1 H2)). nia.
Qed.

(** ** The age of evidence *)

Local Open Scope Q_scope.

(** The number a decimal denotes *)
Definition dec_value (d : decimal) : Q :=
  match d with
  | DecFinite c e => if (0 <=? e)%Z then inject_Z (c * 10 ^ e) else c # Z.to_pos (10 ^ (- e))
  | _ => 0
  end.

(** The uncertainty a sample states, in nanoseconds *)
Definition stated_uncertainty (s : CoreClockSample) : Q :=
  match s_uncertainty s with Some d => dec_value d * inject_Z NANOSECONDS_PER_SECOND | None => 0 end.

(** An uncertainty that arithmetic of the decimal context can produce *)
Definition in_context (s : CoreClockSample) : Prop :=
  match s_uncertainty s with
  | Some (DecFinite c e) => (c < 10 ^ 28 /\ DECIMAL_ETINY <= e)%Z
  | _ => True
  end.

(** The observation never understates the uncertainty of the sample by more than half a
    unit in the eighth place of a nanosecond, and states its ceiling for the numbers of the
    context. *)
Lemma observation_covers observed s ns :
  clock_observation observed = Ok (s, ns) ->
  observed = Some s /\ (0 <= ns)%Z
  /\ inject_Z (ns - 1) < stated_uncertainty s <= inject_Z ns + (1 # 200000000)
  /\ (in_context s -> stated_uncertainty s <= inject_Z ns).
Proof.
  unfold clock_observation. intros H. apply rbind_ok in H as (s0 & Hs%of_option_ok & H).
  apply rbind_ok in H as (? & Hv%guard_ok & H). apply rbind_ok in H as (d & Hd%of_option_ok & H).
  apply rbind_ok in H as (? & Hb%guard_ok & H). apply rbind_ok in H as (? & Hu%guard_ok & H).
  injection H as -> <-. apply andb_true_iff in Hb as [_ Hb].
  unfold validate_core_clock_sample in Hv. rewrite Hd in Hv.
  assert (Hn : dec_nonneg_ok d = true) by (breflect; done). clear Hv.
  unfold dec_nonneg_ok in Hn. destruct d as [c e| |]; try done. cbn [dec_is_finite andb] in Hn.
  apply Z.leb_le in Hn. pose proof (nanoseconds_spec c e Hn Hb) as Hspec.
  split; [done|]. unfold is_uint64 in Hu. breflect. split; [lia|].
  unfold stated_uncertainty, in_context. rewrite Hd. cbn [dec_value]. cbv zeta in Hspec.
  set (n := dec_ceiling (dec_nanoseconds (DecFinite c e))) in *. destruct (0 <=? e)%Z eqn:He.
  - rewrite Hspec. rewrite <- inject_Z_mult.
    assert (E : (c * 10 ^ e * NANOSECONDS_PER_SECOND = c * NANOSECONDS_PER_SECOND * 10 ^ e)%Z) by lia.
    rewrite E. unfold Qlt, Qle. cbn. repeat split; intros; lia.
  - apply Z.leb_gt in He. assert (Hp : (0 < 10 ^ (- e))%Z) by (apply Z.pow_pos_nonneg; lia).
    destruct Hspec as (H1 & H2 & H3). unfold Qlt, Qle. cbn. rewrite ?Pos.mul_1_r, ?Z.mul_1_r.
    rewrite ?Pos2Z.inj_mul, ?Z2Pos.id by done. repeat split; intros; lia.
Qed.

(** C31: the age of evidence is conservative.  With the clock observed for the decision, the
    computed age is the least number of whole milliseconds that covers the time from the
    candidate's creation to the decision plus the uncertainty the clock sample states: no
    smaller age would do, it fits 64 bits, and a decision that predates the candidate is
    refused.  It covers exactly every uncertainty of the decimal context (28 digits); one
    with more digits is rounded before the ceiling is taken, and is then covered up to half a
    unit in the eighth place of a nanosecond. *)
Theorem evidence_age_conservative observed s uncertainty_ns created age created_ns :
  clock_observation observed = Ok (s, uncertainty_ns) ->
  parse_rfc3339nano_utc_ns created = Ok created_ns ->
  evidence_age_ms created s uncertainty_ns = Ok age ->
  let elapsed := (dt_us (s_decision_utc s) * 1000 - created_ns)%Z in
  let exposure := inject_Z elapsed + stated_uncertainty s in
  let milliseconds n := inject_Z (n * NANOSECONDS_PER_MILLISECOND) in
  observed = Some s /\ (0 <= elapsed)%Z /\ (0 <= age <= MAX_UINT64)%Z
  /\ milliseconds (age - 1)%Z < exposure <= milliseconds age + (1 # 200000000)
  /\ (in_context s -> exposure <= milliseconds age).
Proof.
  intros (Ho & Hn & [Hlo Hhi] & Hx)%observation_covers Hc (c & Hc' & _ & Hle & Hr & Ha)%evidence_age_ms_ok.
  rewrite Hc in Hc'. injection Hc' as <-. intros elapsed exposure milliseconds.
  assert (H1 : ((age - 1) * NANOSECONDS_PER_MILLISECOND <= elapsed + (uncertainty_ns - 1))%Z)
    by (unfold elapsed, NANOSECONDS_PER_MILLISECOND in *; lia).
  assert (H2 : (elapsed + uncertainty_ns <= age * NANOSECONDS_PER_MILLISECOND)%Z)
    by (unfold elapsed, NANOSECONDS_PER_MILLISECOND in *; lia).
  rewrite Zle_Qle, inject_Z_plus in H1, H2. unfold exposure, milliseconds.
  split_and!; [done|unfold elapsed; lia|lia|lia|lra|lra|]. intros Hs. specialize (Hx Hs). lra.
Qed.

(** Whole milliseconds: a second and 400 ms after creation with 100 ms of uncertainty *)
Definition aged_sample : CoreClockSample :=
  mkSample (mkDatetime 1767225661400000 true) (f_of_int 5) true (Some (DecFinite 1 (-1))) (DecFinite 2 0).

Lemma evidence_age_conservative_witness : exists created_ns,
  evidence_age_ms (u "2026-01-01T00:01:00Z") aged_sample 100000000 = Ok 1500%Z
  /\ inject_Z (1767225661400000 * 1000 - created_ns) + stated_uncertainty aged_sample
     <= inject_Z (1500 * NANOSECONDS_PER_MILLISECOND).
Proof.
  eexists. split; [vm_compute; reflexivity|].
  refine (proj2 (proj2 (proj2 (proj2 (evidence_age_conservative (Some aged_sample) aged_sample 100000000
    (u "2026-01-01T00:01:00Z") 1500 _ _ _ _)))) _); vm_compute; (reflexivity || by split).
Defined.

(** The sample says a little over 1 s: its ceiling is a nanosecond more than is observed. *)
Example uncertainty_rounded_down :
  let s := mkSample (mkDatetime 0 true) (f_of_int 5) true (Some (DecFinite (10 ^ 31 + 1) (-31))) (DecFinite 2 0) in
  clock_observation (Some s) = Ok (s, 1000000000%Z) /\ inject_Z 1000000000 < stated_uncertainty s.
Proof. vm_compute. by split. Qed.
