(* ===== verification/PolicyClient.v ===== *)
(** * The policy client

    [PolicyClient] of [policy/client.py] with the admission view it captures
    ([incidents/admission.py]): the exact capture and seal of a view, the bounded
    reading of a response, and one evaluation from a captured view to a sealed
    [PolicyEvaluation].  The HTTP library is a parameter: how it looks headers up
    ([get_list]), and what the exchange returns. *)

From S2P Require Import Prelude Sha256 CanonicalJson JsonDecode Time Ipv4 Identities Contracts.
From S2P Require Import EvidenceStore CoverageReducer CoverageState Candidates Egress Policy DecisionClock.
Local Open Scope Z_scope.
Local Open Scope agmind_scope.

(** ** Admission views *)

Record ProjectionCursor := mkCursor {
  pc_host_id : pystr; pc_source_sequence : Z; pc_event_id : pystr;
  pc_content_sha256 : pystr; pc_frame_sha256 : pystr }.

#[export] Instance ProjectionCursor_eq_dec : EqDecision ProjectionCursor.
Proof. solve_decision. Defined.

(** The public observations of a [CandidateAdmissionView] *)
Record CandidateAdmissionView := mkView {
  w_candidate : ContainmentCandidateV1; w_facts_sha256 : pystr; w_authority_event_id : pystr;
  w_cursor : ProjectionCursor; w_terminal : EvidenceRef; w_epoch : Z; w_revision : Z;
  w_readiness : MutationReadiness }.

Definition counter_ok (z : Z) : bool := (1 <=? z) && (z <=? MAX_UINT64).

Definition cursor_exact (c : ProjectionCursor) : bool :=
  UUID4 (pc_host_id c) && is_uint64 (pc_source_sequence c) && EVENT_ID (pc_event_id c)
  && HEX64 (pc_content_sha256 c) && HEX64 (pc_frame_sha256 c).

Definition readiness_exact_for (r : MutationReadiness) (c : ContainmentCandidateV1) : bool :=
  ready r && bool_decide (reason_codes r = [])
  && match observer_reconcile_generation r with Some g => counter_ok g | None => false end
  && HEX64 (coverage_snapshot_sha256 r)
  && bool_decide (coverage_snapshot_sha256 r = c_coverage_sha256 c).

Definition cursors_agree (w : CandidateAdmissionView) : bool :=
  let r := w_readiness w in
  is_uint64 (m_evidence_head r) && is_uint64 (m_acceptance_cursor r)
  && is_uint64 (m_confirmed_through r) && is_uint64 (m_projection_cursor r)
  && (m_evidence_head r =? m_acceptance_cursor r)
  && (m_acceptance_cursor r =? m_confirmed_through r)
  && (m_confirmed_through r =? m_projection_cursor r)
  && (m_projection_cursor r =? pc_source_sequence (w_cursor w))
  && (ref_source_sequence (w_terminal w) =? pc_source_sequence (w_cursor w))
  && bool_decide (pc_host_id (w_cursor w) = c_host_id (w_candidate w))
  && bool_decide (ref_event_id (w_terminal w) = pc_event_id (w_cursor w))
  && bool_decide (content_sha256 (w_terminal w) = pc_content_sha256 (w_cursor w))
  && bool_decide (frame_sha256 (w_terminal w) = pc_frame_sha256 (w_cursor w)).

(** The document sealed from a view *)
Definition seal_document (w : CandidateAdmissionView) (candidate_sha facts : pystr) : json :=
  let r := w_readiness w in
  let c := w_cursor w in
  let t := w_terminal w in
  JObj
    [(u "admission_rebuild_epoch", JInt (w_epoch w));
     (u "authority_revision", JInt (w_revision w));
     (u "authority_snapshot_event_id", JStr (w_authority_event_id w));
     (u "candidate_canonical_sha256", JStr candidate_sha);
     (u "candidate_facts_sha256", JStr facts);
     (u "projection_cursor", JObj
       [(u "content_sha256", JStr (pc_content_sha256 c)); (u "event_id", JStr (pc_event_id c));
        (u "frame_sha256", JStr (pc_frame_sha256 c)); (u "host_id", JStr (pc_host_id c));
        (u "source_sequence", JInt (pc_source_sequence c))]);
     (u "readiness", JObj
       [(u "acceptance_cursor", JInt (m_acceptance_cursor r));
        (u "confirmed_through", JInt (m_confirmed_through r));
        (u "coverage_snapshot_sha256", JStr (coverage_snapshot_sha256 r));
        (u "evidence_head", JInt (m_evidence_head r));
        (u "observer_reconcile_generation",
          match observer_reconcile_generation r with Some g => JInt g | None => JNull end);
        (u "projection_cursor", JInt (m_projection_cursor r)); (u "ready", JBool (ready r));
        (u "reason_codes", JArr (map JStr (reason_codes r)))]);
     (u "terminal_ref", JObj
       [(u "content_sha256", JStr (content_sha256 t)); (u "event_id", JStr (ref_event_id t));
        (u "frame_offset", JInt (frame_offset t)); (u "frame_sha256", JStr (frame_sha256 t));
        (u "frame_size", JInt (frame_size t)); (u "segment_id", JStr (segment_id t));
        (u "segment_relative_path", JStr (segment_relative_path t));
        (u "source_sequence", JInt (ref_source_sequence t))])].

Definition as_policy_error {E A} (r : result E A) : result policy_exn A :=
  catch_with (fun _ => PolicyError) r.

(** [_capture_view]: the candidate and the seal of everything observed with it *)
Definition capture_view (w : CandidateAdmissionView)
  : result policy_exn (ContainmentCandidateV1 * bytes) :=
  let* detached := as_policy_error (candidate_validate (w_candidate w)) in
  let* candidate_bytes := as_policy_error (canonical_json (JObj (candidate_dump detached))) in
  let* facts := as_policy_error (candidate_facts_sha256 detached) in
  guard (HEX64 (w_facts_sha256 w) && bool_decide (w_facts_sha256 w = facts)
         && EVENT_ID (w_authority_event_id w)
         && bool_decide (w_authority_event_id w = c_snapshot_event_id detached)
         && counter_ok (w_epoch w) && counter_ok (w_revision w)) PolicyError ;;*
  guard (cursor_exact (w_cursor w)) PolicyError ;;*
  as_policy_error (exact_coverage_ref_key (w_terminal w)) ;;*
  guard (readiness_exact_for (w_readiness w) detached) PolicyError ;;*
  guard (cursors_agree w) PolicyError ;;*
  let* seal := as_policy_error
    (canonical_json (seal_document w (sha256_hex candidate_bytes) facts)) in
  Ok (detached, seal).

(** ** Reading the response *)

Definition MAX_REQUEST_BYTES : Z := 65536.
Definition MAX_RESPONSE_BYTES : Z := 65536.
Definition MAX_RESPONSE_HEADER_COUNT : Z := 32.
Definition MAX_RESPONSE_HEADER_BYTES : Z := 8192.
Definition MAX_RESPONSE_HEADER_NAME_BYTES : Z := 256.
Definition MAX_RESPONSE_HEADER_VALUE_BYTES : Z := 4096.

Abbreviation header := (bytes * bytes)%type.

Definition blen (l : bytes) : Z := Z.of_nat (length l).

(** [[!#$%&'*+.^_`|~0-9A-Za-z-]] *)
Definition header_name_byte (b : Byte.byte) : bool :=
  let c := byte_val b in
  is_digit c || ((65 <=? c) && (c <=? 90)) || ((97 <=? c) && (c <=? 122))
  || bool_decide (c ∈ u "!#$%&'*+.^_`|~-").

Definition header_ok (h : header) : bool :=
  ((1 <=? blen h.1) && (blen h.1 <=? MAX_RESPONSE_HEADER_NAME_BYTES))
  && (blen h.2 <=? MAX_RESPONSE_HEADER_VALUE_BYTES) && forallb header_name_byte h.1
  && forallb (fun b => negb (bool_decide (byte_val b ∈ [0; 13; 10]))) h.2.

(** The loop of [_validate_response_headers] from the running [total] *)
Fixpoint headers_within (total : Z) (headers : list header) : result policy_exn unit :=
  match headers with
  | [] => Ok tt
  | h :: headers =>
      guard (header_ok h) PolicyResponseInvalid ;;*
      let total := total + blen h.1 + blen h.2 + 4 in
      guard (total <=? MAX_RESPONSE_HEADER_BYTES) PolicyResponseInvalid ;;*
      headers_within total headers
  end.

Definition validate_response_headers (headers : list header) : result policy_exn unit :=
  guard (Z.of_nat (length headers) <=? MAX_RESPONSE_HEADER_COUNT) PolicyResponseInvalid ;;*
  headers_within 0 headers.

(** A response: the body is already read, or comes in chunks, where [None] is a
    transport failure *)
Record http_response := mkResponse {
  status_code : Z; raw_headers : list header;
  body : bytes + list (option bytes) }.

(** The streaming loop from the running [total] *)
Fixpoint read_chunks (total : Z) (chunks : list (option bytes)) : result policy_exn bytes :=
  match chunks with
  | [] => Ok []
  | None :: _ => Err PolicyUnavailable
  | Some chunk :: chunks =>
      let total := total + blen chunk in
      guard (total <=? MAX_RESPONSE_BYTES) PolicyResponseInvalid ;;*
      let* rest := read_chunks total chunks in
      Ok (chunk ++ rest)
  end.

Section Response.
(** [headers.get_list(name)]: the values of a header, in order *)
Context (get_list : list header -> pystr -> list pystr).

(** [_content_length] *)
Definition content_length (headers : list header) : result policy_exn (option Z) :=
  match get_list headers (u "content-length") with
  | [] => Ok None
  | [value] =>
      guard (bool_decide (value <> []) && forallb is_digit value
             && negb (bool_decide (1 < length value)%nat && bool_decide (head value = Some 48)))
        PolicyResponseInvalid ;;*
      let length := digits_value value in
      guard (length <=? MAX_RESPONSE_BYTES) PolicyResponseInvalid ;;*
      Ok (Some length)
  | _ => Err PolicyResponseInvalid
  end.

(** [_read_response] *)
Definition read_response (r : http_response) : result policy_exn bytes :=
  validate_response_headers (raw_headers r) ;;*
  guard (negb ((300 <=? status_code r) && (status_code r <=? 399))) PolicyResponseInvalid ;;*
  guard (status_code r =? 200) PolicyUnavailable ;;*
  guard (bool_decide (get_list (raw_headers r) (u "content-type") = [u "application/json"]))
    PolicyResponseInvalid ;;*
  guard (bool_decide (get_list (raw_headers r) (u "content-encoding") = []))
    PolicyResponseInvalid ;;*
  let* declared := content_length (raw_headers r) in
  let* raw :=
    match body r with
    | inl raw => guard (blen raw <=? MAX_RESPONSE_BYTES) PolicyResponseInvalid ;;* Ok raw
    | inr chunks => read_chunks 0 chunks
    end in
  guard (match declared with Some n => n =? blen raw | None => true end) PolicyResponseInvalid ;;*
  Ok raw.

(** ** One evaluation *)

(** [_OPAResponseV1] *)
Definition opa_response_validate (doc : document) : result py_exn PolicyDecisionV1 :=
  no_extra [u "result"] doc ;;*
  let* result := dict_field (u "result") doc in
  decision_validate result.

(** [_policy_input] *)
Definition policy_input (c : ContainmentCandidateV1) (s : CoreClockSample) (uncertainty_ns : Z)
  : result policy_exn PolicyInputV1 :=
  let* age := evidence_age_ms (c_created_at c) s uncertainty_ns in
  policy_input_for_candidate c age.

(** The request body *)
Definition request_body (i : PolicyInputV1) : result py_exn bytes :=
  canonical_json (JObj [(u "input", JObj (input_dump i))]).

(** [_evaluate_locked]: the view as observed before and after the exchange, the
    clock's answer, and the exchange as a function of the request ([None] is a
    transport failure) *)
Definition evaluate_locked (closed : bool) (before after : CandidateAdmissionView)
    (clock : option CoreClockSample) (exchange : bytes -> option http_response)
  : result policy_exn PolicyEvaluation :=
  guard (negb closed) PolicyUnavailable ;;*
  let* (candidate, seal) := capture_view before in
  let* (sample, uncertainty_ns) := clock_observation clock in
  let* input := policy_input candidate sample uncertainty_ns in
  let* request := catch_with PolicyPyError (request_body input) in
  guard ((1 <=? blen request) && (blen request <=? MAX_REQUEST_BYTES)) PolicyError ;;*
  let* response := of_option PolicyUnavailable (exchange request) in
  let* raw := read_response response in
  let* decision := catch_with (fun _ => PolicyResponseInvalid)
    (decode_strict [u "result"] opa_response_validate raw MAX_RESPONSE_BYTES) in
  narrow_decision decision input ;;*
  let* (_, seal') := capture_view after in
  guard (bool_decide (seal = seal')) PolicyError ;;*
  catch_with (fun _ => PolicyResponseInvalid)
    (let* decision_sha := policy_decision_sha256 decision in
     evaluation_validate
       (mkEvaluation input decision (i_candidate_id input) (i_facts_sha256 input)
          (i_input_sha256 input) decision_sha POLICY_BUNDLE
          (utc_text (s_decision_utc sample)) (i_evidence_age_ms input))).
End Response.

(** ** Bounds on what is read *)

Definition header_bytes (headers : list header) : Z :=
  foldr (fun h n => blen h.1 + blen h.2 + 4 + n) 0 headers.

Lemma headers_within_ok total headers :
  headers_within total headers = Ok tt ->
  forallb header_ok headers = true
  /\ (headers = [] \/ total + header_bytes headers <= MAX_RESPONSE_HEADER_BYTES).
Proof.
  revert total. induction headers as [|h headers IH]; intros total H; [by split; [|left]|].
  cbn [headers_within] in H. apply rbind_ok in H as (? & H1%guard_ok & H).
  apply rbind_ok in H as (? & H2%guard_ok & H). apply Z.leb_le in H2.
  destruct (IH _ H) as [Ha Hb]. cbn [forallb header_bytes foldr]. rewrite H1, Ha.
  split; [done|]. right. fold (header_bytes headers).
  destruct Hb as [->|Hb]; [cbn; lia|lia].
Qed.

(** The loop returns the concatenation, and only when all of it fits. *)
Lemma read_chunks_ok total chunks raw :
  read_chunks total chunks = Ok raw <->
  exists parts, chunks = map Some parts /\ raw = concat parts
    /\ (parts = [] \/ total + blen raw <= MAX_RESPONSE_BYTES).
Proof.
  revert total raw. induction chunks as [|[c|] chunks IH]; intros total raw; cbn [read_chunks].
  - split.
    + intros [= <-]. exists []. by split_and!; [..|left].
    + intros ([|? ?] & ? & -> & _); [done|discriminate].
  - rewrite rbind_ok. split.
    + intros (? & Hg%guard_ok & H). apply Z.leb_le in Hg.
      apply rbind_ok in H as (rest & (parts & -> & -> & Hp)%IH & H). injection H as <-.
      exists (c :: parts). split_and!; [done|done|]. right. cbn [concat]. unfold blen in *.
      rewrite length_app. destruct Hp as [->|Hp]; cbn [concat length] in *; lia.
    + intros ([|p parts] & Hp & -> & Hl); [discriminate|]. cbn [map] in Hp.
      injection Hp as -> ->. destruct Hl as [|Hl]; [done|]. cbn [concat] in *.
      assert (Hc : blen (p ++ concat parts) = blen p + blen (concat parts))
        by (unfold blen; rewrite length_app; lia).
      assert (0 <= blen (concat parts)) by (unfold blen; lia).
      exists tt. split; [apply guard_ok, Z.leb_le; lia|].
      apply rbind_ok. exists (concat parts). split; [|done]. apply IH. exists parts.
      split_and!; [done|done|]. right. lia.
  - split; [done|]. intros ([|? ?] & ? & _); discriminate.
Qed.

Section ResponseBounds.
Context (get_list : list header -> pystr -> list pystr).

(** Reading a response is bounded: whatever the service sends, an accepted
    response has status 200, at most 32 headers of at most 8192 bytes in total with
    token names and no line breaks, a body of at most 65536 bytes which is all of
    what was streamed, and a declared length that equals the length read. *)
Theorem read_response_bounds r raw :
  read_response get_list r = Ok raw ->
  status_code r = 200 /\ Z.of_nat (length (raw_headers r)) <= MAX_RESPONSE_HEADER_COUNT
  /\ header_bytes (raw_headers r) <= MAX_RESPONSE_HEADER_BYTES
  /\ forallb header_ok (raw_headers r) = true
  /\ blen raw <= MAX_RESPONSE_BYTES
  /\ match body r with
     | inl whole => raw = whole
     | inr chunks => exists parts, chunks = map Some parts /\ raw = concat parts
     end
  /\ (content_length get_list (raw_headers r) = Ok None
      \/ content_length get_list (raw_headers r) = Ok (Some (blen raw))).
Proof.
  unfold read_response, validate_response_headers. intros H.
  apply rbind_ok in H as ([] & Hh & H). apply rbind_ok in Hh as (? & Hc%guard_ok & Hh).
  apply headers_within_ok in Hh as [Hok Hb].
  apply rbind_ok in H as (? & _ & H). apply rbind_ok in H as (? & Hs%guard_ok & H).
  apply rbind_ok in H as (? & _ & H). apply rbind_ok in H as (? & _ & H).
  apply rbind_ok in H as (declared & Hd & H). apply rbind_ok in H as (raw' & Hraw & H).
  apply rbind_ok in H as (? & Hl%guard_ok & H). injection H as <-. breflect.
  assert (Hbody : blen raw' <= MAX_RESPONSE_BYTES
    /\ match body r with inl whole => raw' = whole
       | inr chunks => exists parts, chunks = map Some parts /\ raw' = concat parts end).
  { destruct (body r) as [whole|chunks].
    - apply rbind_ok in Hraw as (? & Hg%guard_ok & Hr). injection Hr as <-.
      by apply Z.leb_le in Hg.
    - apply read_chunks_ok in Hraw as (parts & -> & -> & Hp). split; [|by exists parts].
      destruct Hp as [->|Hp]; [by unfold blen, MAX_RESPONSE_BYTES|lia]. }
  destruct Hbody as [Hlen Hbody]. split_and!; try done.
  - destruct Hb as [->|Hb]; [by unfold MAX_RESPONSE_HEADER_BYTES|lia].
  - rewrite Hd. destruct declared as [n|]; [right|by left]. apply Z.eqb_eq in Hl. by subst n.
Qed.
End ResponseBounds.

(** ** Encodability of the documents an evaluation is made of *)

Lemma encodable_mono v d d' : d' <= d -> encodable v d = true -> encodable v d' = true.
Proof.
  revert d d'. induction v as [|x|z|f|s|l Hl|m Hm] using json_nested_ind; intros d d' Hd;
    cbn [encodable]; try done.
  - intros [H1%Z.ltb_lt H2]%andb_true_iff. apply andb_true_iff.
    split; [apply Z.ltb_lt; lia|]. rewrite forallb_forall in *. rewrite List.Forall_forall in Hl.
    intros v Hv. eapply Hl; [done| |by apply H2]. lia.
  - intros [H1%Z.ltb_lt H2]%andb_true_iff. apply andb_true_iff.
    split; [apply Z.ltb_lt; lia|]. rewrite forallb_forall in *. rewrite List.Forall_forall in Hm.
    intros kv Hv. specialize (H2 kv Hv). apply andb_true_iff in H2 as [Hk Hkv].
    apply andb_true_iff. split; [done|]. eapply Hm; [done| |exact Hkv]. lia.
Qed.

Definition scalar (v : json) : bool :=
  match v with JArr _ | JObj _ => false | _ => true end.

(** Scalars and arrays of scalars *)
Definition shallow (v : json) : bool :=
  match v with JObj _ => false | JArr l => forallb scalar l | _ => true end.

Lemma scalar_encodable v d d' : scalar v = true -> encodable v d = encodable v d'.
Proof. by destruct v. Qed.

Lemma shallow_encodable m d d' :
  forallb (fun kv => shallow kv.2) m = true -> d' + 1 < MAX_JSON_NESTING_DEPTH ->
  encodable (JObj m) d = true -> encodable (JObj m) d' = true.
Proof.
  intros Hs Hd. cbn [encodable]. intros [_ H]%andb_true_iff. apply andb_true_iff.
  split; [apply Z.ltb_lt; lia|]. rewrite forallb_forall in *. intros kv Hkv.
  specialize (H kv Hkv). specialize (Hs kv Hkv). apply andb_true_iff in H as [Hk Hv].
  apply andb_true_iff. split; [done|]. destruct (kv.2) as [| | | | |l|]; try done.
  cbn [encodable shallow] in *. apply andb_true_iff in Hv as [_ Hv]. apply andb_true_iff.
  split; [apply Z.ltb_lt; lia|]. rewrite forallb_forall in *. intros x Hx.
  rewrite (scalar_encodable x _ (d + 1 + 1)) by auto. by apply Hv.
Qed.

Lemma encodable_ok v : encodable v 0 = true <-> exists raw, canonical_json v = Ok raw.
Proof.
  rewrite <- canonical_json_encodable. destruct (canonical_json v); cbn; [naive_solver|].
  split; [done|]. by intros [? ?].
Qed.

Lemma shallow_strings l : shallow (JArr (map JStr l)) = true.
Proof. cbn [shallow]. rewrite forallb_map_eq. apply forallb_const_true. Qed.

Lemma decision_shallow d : forallb (fun kv => shallow kv.2) (decision_dump d) = true.
Proof.
  unfold decision_dump, decision_fields. cbn [dump_of forallb snd].
  by rewrite !shallow_strings.
Qed.

Lemma input_shallow i : forallb (fun kv => shallow kv.2) (input_dump i) = true.
Proof.
  unfold input_dump, input_fields. cbn [dump_of forallb snd]. by rewrite !shallow_strings.
Qed.

Lemma valid_str_encodable s : valid_str s -> bool_decide (is_Some (utf8_encode s)) = true.
Proof. intros [l ->]%utf8_encode_some. by apply bool_decide_eq_true. Qed.

Lemma digits_ascii s : digits s -> Forall (fun c => 0 <= c < 128) s.
Proof. intros H. eapply Forall_impl; [exact H|]. cbn beta. intros c Hc%is_digit_range. lia. Qed.

Lemma timestamp_valid_str s : TIMESTAMP_text s = true -> valid_str s.
Proof.
  unfold TIMESTAMP_text. destruct (match_timestamp s) as [m|] eqn:E; [|done]. intros _.
  apply match_timestamp_sound in E as [(Y & Mo & D & H & Mi & S & F) ->]. apply valid_str_ascii.
  unfold match_text, field_ok in *.
  repeat apply Forall_app_2; try (by apply digits_ascii; firstorder);
    try (repeat constructor; lia).
  destruct (m_fraction m) as [f|]; unfold fraction_text; [|by repeat constructor].
  repeat apply Forall_app_2; [by repeat constructor|apply digits_ascii, F|by repeat constructor].
Qed.

Lemma hex_valid_str n s : is_hex n s = true -> valid_str s.
Proof.
  unfold is_hex. intros [_ H]%andb_true_iff. apply valid_str_ascii, Forall_forall.
  intros c Hc. rewrite forallb_forall in H. apply list_elem_of_In, H in Hc.
  unfold is_hex_lower in Hc. apply orb_true_iff in Hc as [Hc|Hc]; breflect; lia.
Qed.

Lemma prefixed_valid_str p n s :
  valid_str (u p) -> is_prefixed_hex p n s = true -> valid_str s.
Proof.
  unfold is_prefixed_hex. intros Hp [H1%bool_decide_eq_true H2%hex_valid_str]%andb_true_iff.
  rewrite <- (take_drop (length (u p)) s), H1. by apply Forall_app.
Qed.

Lemma ascii_literal p : forallb (fun c => (0 <=? c) && (c <? 128)) (u p) = true -> valid_str (u p).
Proof.
  intros H. apply valid_str_ascii, Forall_forall. intros c Hc%list_elem_of_In.
  rewrite forallb_forall in H. apply H in Hc. breflect. lia.
Qed.

(** The document of a validated evaluation can be written. *)
Lemma evaluation_encodable v :
  encodable (JObj (input_dump (v_input v))) 1 = true ->
  encodable (JObj (decision_dump (v_decision v))) 0 = true ->
  v_bundle v = POLICY_BUNDLE -> evaluation_validate v = Ok v ->
  exists raw, canonical_json (JObj (evaluation_dump v)) = Ok raw.
Proof.
  intros Hi Hd Hb Hv. apply encodable_ok.
  apply (shallow_encodable _ 0 1) in Hd; [|apply decision_shallow|by unfold MAX_JSON_NESTING_DEPTH].
  unfold evaluation_validate in Hv. apply rbind_ok in Hv as (? & Hf%guard_ok & _).
  unfold is_uint64 in Hf. breflect.
  repeat match goal with
  | H : HEX64 _ = true |- _ => apply hex_valid_str, valid_str_encodable in H
  | H : is_prefixed_hex _ _ _ = true |- _ =>
      apply prefixed_valid_str in H; [|by apply ascii_literal]; apply valid_str_encodable in H
  | H : TIMESTAMP_text _ = true |- _ => apply timestamp_valid_str, valid_str_encodable in H
  end.
  assert (Hage : (MIN_CANONICAL_INTEGER <=? v_evidence_age_ms v)
    && (v_evidence_age_ms v <=? MAX_CANONICAL_INTEGER) = true).
  { apply range_check. unfold MIN_CANONICAL_INTEGER, MAX_CANONICAL_INTEGER, MAX_UINT64 in *. lia. }
  unfold evaluation_dump. rewrite Hb. cbn [encodable forallb fst snd].
  cbn [encodable forallb fst snd] in Hi, Hd. rewrite Hage. change (0 + 1) with 1.
  rewrite Hi, Hd. repeat match goal with H : bool_decide _ = true |- _ => rewrite H; clear H end.
  vm_compute. reflexivity.
Qed.

(** ** What an evaluation produces is accepted downstream *)

Lemma candidate_validate_id c c' : candidate_validate c = Ok c' -> c' = c.
Proof.
  unfold candidate_validate. intros H. apply rbind_ok in H as (? & _ & H).
  apply rbind_ok in H as (? & _ & H). by injection H as <-.
Qed.

Lemma capture_view_ok w c seal :
  capture_view w = Ok (c, seal) ->
  c = w_candidate w /\ readiness_exact_for (w_readiness w) (w_candidate w) = true
  /\ cursors_agree w = true /\ candidate_facts_sha256 (w_candidate w) = Ok (w_facts_sha256 w)
  /\ w_authority_event_id w = c_snapshot_event_id (w_candidate w).
Proof.
  unfold capture_view, as_policy_error. intros H.
  apply rbind_ok in H as (d & Hd%catch_ok%candidate_validate_id & H). subst d.
  apply rbind_ok in H as (? & _ & H). apply rbind_ok in H as (f & Hf%catch_ok & H).
  apply rbind_ok in H as (? & Hg%guard_ok & H). apply rbind_ok in H as (? & _ & H).
  apply rbind_ok in H as (? & _ & H). apply rbind_ok in H as (? & Hr%guard_ok & H).
  apply rbind_ok in H as (? & Hc%guard_ok & H). apply rbind_ok in H as (s & _ & H).
  injection H as <- <-. breflect. subst f. by split_and!.
Qed.

Lemma decode_strict_validate {T} required (validate : document -> result py_exn T) raw max x :
  decode_strict required validate raw max = Ok x -> exists doc, validate doc = Ok x.
Proof.
  unfold decode_strict. intros H. apply rbind_ok in H as (d & _ & H).
  apply rbind_ok in H as (? & _ & H). apply rbind_ok in H as (? & _ & H). by exists d.
Qed.

Lemma opa_response_sound doc d : opa_response_validate doc = Ok d -> decision_valid d.
Proof.
  unfold opa_response_validate. intros H. apply rbind_ok in H as (? & _ & H).
  apply rbind_ok in H as (? & _ & H). by eapply decision_validate_sound.
Qed.

Lemma evaluation_validate_id v v' : evaluation_validate v = Ok v' -> v' = v.
Proof.
  unfold evaluation_validate. intros H. apply rbind_ok in H as (? & _ & H).
  apply rbind_ok in H as (? & _ & H). by injection H as <-.
Qed.

(** An evaluation assembled from exact parts passes the check that a committer
    applies to it. *)
Lemma sealed_evaluation_accepted v c :
  input_valid (v_input v) -> decision_valid (v_decision v) -> v_bundle v = POLICY_BUNDLE ->
  policy_input_for_candidate c (v_evidence_age_ms v) = Ok (v_input v) ->
  (exists request, request_body (v_input v) = Ok request) ->
  narrow_decision (v_decision v) (v_input v) = Ok tt -> evaluation_validate v = Ok v ->
  validate_policy_evaluation_for_candidate v c = Ok v.
Proof.
  intros Hi Hd Hb Hc Hr Hn Hv.
  assert (Hei : encodable (JObj (input_dump (v_input v))) 1 = true).
  { destruct Hr as [request Hr].
    pose proof (proj2 (encodable_ok _) (ex_intro _ request Hr)) as He.
    cbn [encodable forallb fst snd] in He. breflect. cbn [encodable]. done. }
  assert (Hed : encodable (JObj (decision_dump (v_decision v))) 0 = true).
  { apply encodable_ok. pose proof Hv as Hs. unfold evaluation_validate, evaluation_bindings in Hs.
    apply rbind_ok in Hs as (? & _ & Hs). apply rbind_ok in Hs as (? & Hs & _).
    apply rbind_ok in Hs as (? & _ & Hs). apply rbind_ok in Hs as (? & Hs & _).
    unfold policy_decision_sha256 in Hs. apply rbind_ok in Hs as (raw & Hs & _). by exists raw. }
  destruct (evaluation_encodable v Hei Hed Hb Hv) as [whole Hw].
  assert (Hdetach : detach_policy_evaluation v = Ok v).
  { unfold detach_policy_evaluation.
    rewrite input_validate_dump, decision_validate_dump by done. cbn [rbind catch_with].
    assert (Hbundle : PolicyBundleIdentity_new (b_version (v_bundle v)) (b_sha256 (v_bundle v))
      = Ok (v_bundle v)) by (rewrite Hb; vm_compute; reflexivity).
    rewrite Hbundle. cbn [rbind]. assert (E : mkEvaluation (v_input v) (v_decision v)
      (v_candidate_id v) (v_facts_sha256 v) (v_input_sha256 v) (v_decision_sha256 v) (v_bundle v)
      (v_evaluated_at v) (v_evidence_age_ms v) = v) by (by destruct v).
    rewrite E, Hv. cbn [catch_with rbind]. rewrite Hw. cbn [catch_with rbind].
    by rewrite bool_decide_eq_true_2. }
  unfold validate_policy_evaluation_for_candidate. rewrite Hdetach. cbn [rbind].
  rewrite Hc. cbn [rbind].
  destruct (proj1 (encodable_ok (JObj (input_dump (v_input v))))) as [raw Hraw];
    [by eapply encodable_mono; [|exact Hei]|].
  rewrite Hraw. cbn [catch_with rbind]. rewrite bool_decide_eq_true_2 by done.
  cbn [guard rbind]. by rewrite Hn.
Qed.

Section EvaluateSound.
Context (get_list : list header -> pystr -> list pystr).

(** An evaluation the client returns is what the rest of the system accepts: it
    was made by an open client on a ready view whose cursors agree with its terminal
    record, and it passes the validation that a committer applies to it for the same
    candidate, unchanged. *)
Theorem evaluate_accepted closed before after clock exchange v :
  evaluate_locked get_list closed before after clock exchange = Ok v ->
  closed = false /\ readiness_exact_for (w_readiness before) (w_candidate before) = true
  /\ cursors_agree before = true
  /\ candidate_facts_sha256 (w_candidate before) = Ok (w_facts_sha256 before)
  /\ validate_policy_evaluation_for_candidate v (w_candidate before) = Ok v.
Proof.
  unfold evaluate_locked. intros H. apply rbind_ok in H as (? & Hc%guard_ok & H).
  apply rbind_ok in H as ([c seal] & Hw & H).
  apply capture_view_ok in Hw as (-> & Hready & Hcur & Hfacts & _).
  apply rbind_ok in H as ([sample unc] & _ & H). apply rbind_ok in H as (i & Hi & H).
  apply rbind_ok in H as (request & Hreq%catch_ok & H). apply rbind_ok in H as (? & _ & H).
  apply rbind_ok in H as (response & _ & H). apply rbind_ok in H as (raw & _ & H).
  apply rbind_ok in H as (d & Hd%catch_ok & H). apply rbind_ok in H as ([] & Hn & H).
  apply rbind_ok in H as ([c' seal'] & _ & H). apply rbind_ok in H as (? & _ & H).
  apply catch_ok in H. apply rbind_ok in H as (sha & _ & H).
  pose proof (evaluation_validate_id _ _ H) as ->.
  apply decode_strict_validate in Hd as (doc & Hd%opa_response_sound).
  unfold policy_input in Hi. apply rbind_ok in Hi as (age & _ & Hi).
  destruct (policy_input_for_candidate_ok _ _ _ Hi) as (facts & hash & _ & Ei & Hv).
  apply negb_true_iff in Hc. split_and!; try done.
  apply sealed_evaluation_accepted; cbn [v_input v_decision v_bundle v_evidence_age_ms]; try done.
  - by rewrite Ei; cbn [input_of_candidate i_evidence_age_ms]; rewrite <- Ei.
  - by exists request.
Qed.
End EvaluateSound.

(** ** A complete evaluation *)

Definition sample_ref : EvidenceRef :=
  mkRef sample_segment
    (u "segments/2026-01-01/00000000000000000001-" ++ sample_segment ++ u ".agseg") 0 200 (digest_of 20) (u "evt_" ++ digest_of 21) 9 (digest_of 22).

Definition sample_view : CandidateAdmissionView := Eval vm_compute in
  mkView sample_candidate (id_or_empty (candidate_facts_sha256 sample_candidate))
    (c_snapshot_event_id sample_candidate)
    (mkCursor sample_host 9 (u "evt_" ++ digest_of 21) (digest_of 22) (digest_of 20))
    sample_ref 1 1
    (mkReadiness true [] 9 9 9 9 (Some 3) (c_coverage_sha256 sample_candidate)).

Definition sample_clock : CoreClockSample :=
  mkSample (mkDatetime 1767225661400000 true) (f_of_int 5) true
    (Some (DecFinite 1 (-1))) (DecFinite 2 0).

Definition sample_get_list (headers : list header) (name : pystr) : list pystr :=
  map (fun h => map byte_val h.2)
    (List.filter (fun h => bool_decide (map byte_val h.1 = name)) headers).

Definition sample_body : bytes := Eval vm_compute in
  match canonical_json (JObj [(u "result", JObj (decision_dump sample_decision))]) with
  | Ok raw => raw | Err _ => [] end.

Definition sample_response : http_response :=
  mkResponse 200 [(bstr "content-type", bstr "application/json")]
    (inr [Some (take 100 sample_body); Some (drop 100 sample_body)]).

Lemma read_response_bounds_witness :
  read_response sample_get_list sample_response = Ok sample_body
  /\ blen sample_body <= MAX_RESPONSE_BYTES.
Proof.
  assert (H : read_response sample_get_list sample_response = Ok sample_body)
    by (vm_compute; reflexivity).
  split; [exact H|]. apply (read_response_bounds sample_get_list sample_response _ H).
Defined.

Lemma evaluate_accepted_witness :
  evaluate_locked sample_get_list false sample_view sample_view (Some sample_clock)
    (fun _ => Some sample_response) = Ok sample_evaluation
  /\ validate_policy_evaluation_for_candidate sample_evaluation sample_candidate
     = Ok sample_evaluation.
Proof.
  assert (H : evaluate_locked sample_get_list false sample_view sample_view (Some sample_clock)
    (fun _ => Some sample_response) = Ok sample_evaluation) by (vm_compute; reflexivity).
  split; [exact H|]. apply (evaluate_accepted _ _ _ _ _ _ _ H).
Defined.
