(* ===== verification/DecisionIntent.v ===== *)
(** * Durable decision and intent records

    [actions/models.py]: the composite record of one policy decision with its
    intent, its self hash and its exact bytes, the builder that makes a record from
    a validated evaluation, and the commit observation handed to delivery. *)

From S2P Require Import Prelude Sha256 CanonicalJson JsonDecode Time Ipv4 Identities Contracts.
From S2P Require Import EvidenceStore CoverageReducer CoverageState Candidates Egress Policy.
From S2P Require Import DecisionClock PolicyClient.
Local Open Scope Z_scope.
Local Open Scope agmind_scope.

(** [DecisionIntentValidationError], and what else may propagate *)
Inductive decision_exn := DecisionIntentValidationError | DecisionPyError (e : py_exn)
| DecisionPolicyError (e : policy_exn).

#[export] Instance decision_exn_eq_dec : EqDecision decision_exn.
Proof. solve_decision. Defined.

Definition MAX_RECORD_BYTES : Z := 131072.

(** ** Nested models *)

Definition cursor_fields (c : ProjectionCursor) : list (pystr * option json) :=
  [(u "host_id", Some (JStr (pc_host_id c)));
   (u "source_sequence", Some (JInt (pc_source_sequence c)));
   (u "event_id", Some (JStr (pc_event_id c)));
   (u "content_sha256", Some (JStr (pc_content_sha256 c)));
   (u "frame_sha256", Some (JStr (pc_frame_sha256 c)))].

Definition cursor_dump (c : ProjectionCursor) : document := dump_of (cursor_fields c).

Definition cursor_keys : list pystr :=
  map u ["host_id"; "source_sequence"; "event_id"; "content_sha256"; "frame_sha256"]%string.

(** [_ProjectionCursorV1.model_validate] *)
Definition cursor_validate (doc : document) : result py_exn ProjectionCursor :=
  no_extra cursor_keys doc ;;*
  let* host := str_field (u "host_id") doc in
  let* sequence := int_field (u "source_sequence") 1 MAX_UINT64 doc in
  let* event := str_field (u "event_id") doc in
  let* content := str_field (u "content_sha256") doc in
  let* frame := str_field (u "frame_sha256") doc in
  check (UUID4 host && EVENT_ID event && HEX64 content && HEX64 frame) ;;*
  Ok (mkCursor host sequence event content frame).

Definition ref_fields (r : EvidenceRef) : list (pystr * option json) :=
  [(u "segment_id", Some (JStr (segment_id r)));
   (u "segment_relative_path", Some (JStr (segment_relative_path r)));
   (u "frame_offset", Some (JInt (frame_offset r)));
   (u "frame_size", Some (JInt (frame_size r)));
   (u "frame_sha256", Some (JStr (frame_sha256 r)));
   (u "event_id", Some (JStr (ref_event_id r)));
   (u "source_sequence", Some (JInt (ref_source_sequence r)));
   (u "content_sha256", Some (JStr (content_sha256 r)))].

Definition ref_dump (r : EvidenceRef) : document := dump_of (ref_fields r).

Definition ref_keys : list pystr :=
  map u ["segment_id"; "segment_relative_path"; "frame_offset"; "frame_size"; "frame_sha256";
         "event_id"; "source_sequence"; "content_sha256"]%string.

(** [int] without bounds *)
Definition any_int_field (key : pystr) (doc : document) : result py_exn Z :=
  match get key doc with Some (JInt z) => Ok z | _ => Err ValueError end.

(** [_EvidenceRefV1.model_validate], with [reference_is_exact] *)
Definition ref_validate (doc : document) : result py_exn EvidenceRef :=
  no_extra ref_keys doc ;;*
  let* segment := str_field (u "segment_id") doc in
  let* path := str_field (u "segment_relative_path") doc in
  let* offset := any_int_field (u "frame_offset") doc in
  let* size := any_int_field (u "frame_size") doc in
  let* frame := str_field (u "frame_sha256") doc in
  let* event := str_field (u "event_id") doc in
  let* sequence := any_int_field (u "source_sequence") doc in
  let* content := str_field (u "content_sha256") doc in
  exact_coverage_ref_key (mkRef segment path offset size frame event sequence content).

(** [wire_contract_is_exact]: the canonical bytes decode as a wire intent and are
    canonical *)
Definition wire_contract_is_exact (x : EgressDenyFields) : result py_exn unit :=
  let* raw := canonical_json (JObj (intent_dump x)) in
  let* decoded := decode_strict intent_keys intent_validate raw MAX_WIRE_BYTES in
  let* again := canonical_json (JObj (intent_dump decoded)) in
  check (bool_decide (again = raw)).

(** [_DurableTemporaryEgressDenyIntentV1.model_validate] *)
Definition durable_intent_validate (doc : document) : result py_exn EgressDenyFields :=
  no_extra intent_keys doc ;;*
  literal_field (u "schema_version") [INTENT_SCHEMA] doc ;;*
  let* intent_id := str_field (u "intent_id") doc in
  literal_field (u "verb") [VERB] doc ;;*
  let* host_id := str_field (u "host_id") doc in
  let* container := str_field (u "docker_container_id") doc in
  let* started := str_field (u "docker_started_at") doc in
  let* image := str_field (u "image_id") doc in
  let* repos := str_tuple_field (u "repo_digests") doc in
  let* spec := str_field (u "immutable_spec_sha256") doc in
  let* generation := any_int_field (u "inventory_generation") doc in
  let* revision := any_int_field (u "inventory_revision") doc in
  let* destination := str_field (u "destination_ipv4") doc in
  let* ttl := any_int_field (u "ttl_seconds") doc in
  let* evidence := str_tuple_field (u "evidence_ids") doc in
  let* detector := str_field (u "detector_bundle_sha256") doc in
  let* policy_version := str_field (u "policy_bundle_version") doc in
  let* policy_sha := str_field (u "policy_bundle_sha256") doc in
  let* coverage_sha := str_field (u "coverage_snapshot_sha256") doc in
  let* created := str_field (u "created_at") doc in
  let x := mkEgress intent_id host_id container started image repos spec generation revision
    destination ttl evidence detector policy_version policy_sha coverage_sha created in
  wire_contract_is_exact x ;;* Ok x.

(** ** [_DecisionIntentRecordV1] *)

Record DecisionIntentRecordV1 := mkRecord {
  r_candidate_id : pystr; r_facts_sha256 : pystr; r_candidate_created_at : pystr;
  r_authority_event_id : pystr; r_cursor : ProjectionCursor; r_terminal : EvidenceRef;
  r_observer_generation : Z; r_coverage_sha256 : pystr; r_input : PolicyInputV1;
  r_decision : PolicyDecisionV1; r_decision_sha256 : pystr; r_evaluated_at : pystr;
  r_fresh_age_ms : Z; r_committed_at : pystr; r_intent : option EgressDenyFields;
  r_record_sha256 : pystr }.

Definition RECORD_SCHEMA : pystr := u "agmind.decision-intent-record.v1".
Definition RECORD_HASH_DOMAIN : bytes := bstr "AGMIND_DECISION_INTENT_RECORD_V1" ++ NUL.

(** All fields but the self hash *)
Definition record_base_fields (r : DecisionIntentRecordV1) : list (pystr * option json) :=
  [(u "schema_version", Some (JStr RECORD_SCHEMA));
   (u "candidate_id", Some (JStr (r_candidate_id r)));
   (u "candidate_facts_sha256", Some (JStr (r_facts_sha256 r)));
   (u "candidate_created_at", Some (JStr (r_candidate_created_at r)));
   (u "authority_snapshot_event_id", Some (JStr (r_authority_event_id r)));
   (u "projection_cursor", Some (JObj (cursor_dump (r_cursor r))));
   (u "terminal_ref", Some (JObj (ref_dump (r_terminal r))));
   (u "observer_reconcile_generation", Some (JInt (r_observer_generation r)));
   (u "coverage_snapshot_sha256", Some (JStr (r_coverage_sha256 r)));
   (u "policy_input", Some (JObj (input_dump (r_input r))));
   (u "policy_decision", Some (JObj (decision_dump (r_decision r))));
   (u "policy_decision_sha256", Some (JStr (r_decision_sha256 r)));
   (u "evaluated_at", Some (JStr (r_evaluated_at r)));
   (u "fresh_evidence_age_ms", Some (JInt (r_fresh_age_ms r)));
   (u "committed_at", Some (JStr (r_committed_at r)));
   (u "intent", (fun x => JObj (intent_dump x)) <$> r_intent r)].

Definition record_fields (r : DecisionIntentRecordV1) : list (pystr * option json) :=
  record_base_fields r ++ [(u "record_sha256", Some (JStr (r_record_sha256 r)))].

(** [record.model_dump(exclude_none=True)] *)
Definition record_dump (r : DecisionIntentRecordV1) : document := dump_of (record_fields r).

(** [_decision_intent_record_sha256] *)
Definition decision_intent_record_sha256 (r : DecisionIntentRecordV1) : result py_exn pystr :=
  let* canonical := canonical_json (JObj (dump_of (record_base_fields r))) in
  Ok (sha256_hex (RECORD_HASH_DOMAIN ++ canonical)).

(** A time field of a record: the pattern, then [_timestamp_ns] *)
Definition record_time (s : pystr) : bool := TIMESTAMP_text s && is_ok (timestamp_ns s).

Definition record_fields_ok (r : DecisionIntentRecordV1) : bool :=
  is_prefixed_hex "cand_" 64 (r_candidate_id r) && EVENT_ID (r_authority_event_id r)
  && HEX64 (r_facts_sha256 r) && HEX64 (r_coverage_sha256 r) && HEX64 (r_decision_sha256 r)
  && HEX64 (r_record_sha256 r)
  && record_time (r_candidate_created_at r) && record_time (r_evaluated_at r)
  && record_time (r_committed_at r).

Definition instant (s : pystr) : Z := match timestamp_ns s with Ok ns => ns | Err _ => 0 end.

(** The bindings between the parts of a record *)
Definition record_parts_agree (r : DecisionIntentRecordV1) : result py_exn unit :=
  let i := r_input r in
  let d := r_decision r in
  let c := r_cursor r in
  let t := r_terminal r in
  let* decision_sha := policy_decision_sha256 d in
  check (bool_decide (r_candidate_id r = i_candidate_id i)
         && bool_decide (r_candidate_id r = d_candidate_id d)
         && bool_decide (r_facts_sha256 r = i_facts_sha256 i)
         && bool_decide (r_facts_sha256 r = d_facts_sha256 d)
         && bool_decide (r_coverage_sha256 r = i_coverage_sha256 i)
         && bool_decide (r_authority_event_id r ∈ i_evidence_ids i)
         && (pc_source_sequence c =? ref_source_sequence t)
         && bool_decide (pc_event_id c = ref_event_id t)
         && bool_decide (pc_content_sha256 c = content_sha256 t)
         && bool_decide (pc_frame_sha256 c = frame_sha256 t)
         && bool_decide (pc_host_id c = i_host_id i)
         && bool_decide (r_decision_sha256 r = decision_sha)
         && bool_decide (i_bundle_sha256 i = b_sha256 POLICY_BUNDLE)
         && (instant (r_candidate_created_at r) <=? instant (r_evaluated_at r))
         && (instant (r_evaluated_at r) <=? instant (r_committed_at r))
         && (i_evidence_age_ms i <=? r_fresh_age_ms r)).

(** The intent a manual decision must carry *)
Definition narrowed_intent (r : DecisionIntentRecordV1) (identifier : pystr) : EgressDenyFields :=
  let i := r_input r in
  let d := r_decision r in
  mkEgress identifier (i_host_id i) (i_container_id i) (i_started_at i) (i_image_id i)
    (i_repo_digests i) (i_spec_sha256 i) (i_generation i) (i_revision i) (i_destination i)
    (d_max_ttl d) (d_allowed_evidence_ids d) (i_detector_sha256 i) POLICY_BUNDLE_VERSION
    POLICY_BUNDLE_SHA256 (i_coverage_sha256 i) (r_committed_at r).

Definition intent_is_narrowed (r : DecisionIntentRecordV1) : result py_exn unit :=
  match d_effect (r_decision r), r_intent r with
  | Deny, None => Ok tt
  | Deny, Some _ => Err ValueError
  | ManualApprovalRequired, None => Err ValueError
  | ManualApprovalRequired, Some x =>
      check (r_fresh_age_ms r <=? 120000) ;;*
      let* expected := intent_id (r_candidate_id r) POLICY_BUNDLE_SHA256
                         (d_max_ttl (r_decision r)) in
      check (bool_decide (x = narrowed_intent r expected))
  end.

(** [bindings_are_exact] *)
Definition record_bindings (r : DecisionIntentRecordV1) : result py_exn unit :=
  record_parts_agree r ;;*
  catch_with (fun _ => ValueError) (narrow_decision (r_decision r) (r_input r)) ;;*
  intent_is_narrowed r ;;*
  let* expected := decision_intent_record_sha256 r in
  check (bool_decide (r_record_sha256 r = expected)).

(** [intent: _Durable... | None = None]; an explicit null is refused on every
    path, since the field then counts as set *)
Definition opt_intent_field (key : pystr) (doc : document)
  : result py_exn (option EgressDenyFields) :=
  match get key doc with
  | None => Ok None
  | Some (JObj m) => let* x := durable_intent_validate m in Ok (Some x)
  | Some _ => Err ValueError
  end.

Definition record_keys : list pystr :=
  map u ["schema_version"; "candidate_id"; "candidate_facts_sha256"; "candidate_created_at";
         "authority_snapshot_event_id"; "projection_cursor"; "terminal_ref";
         "observer_reconcile_generation"; "coverage_snapshot_sha256"; "policy_input";
         "policy_decision"; "policy_decision_sha256"; "evaluated_at"; "fresh_evidence_age_ms";
         "committed_at"; "intent"; "record_sha256"]%string.

Definition record_required : list pystr :=
  List.filter (fun k => negb (bool_decide (k = u "intent"))) record_keys.

(** The typed reads and the validators of a record *)
Definition record_read (doc : document) : result py_exn DecisionIntentRecordV1 :=
  no_extra record_keys doc ;;*
  literal_field (u "schema_version") [RECORD_SCHEMA] doc ;;*
  let* candidate := str_field (u "candidate_id") doc in
  let* facts := str_field (u "candidate_facts_sha256") doc in
  let* created := str_field (u "candidate_created_at") doc in
  let* authority := str_field (u "authority_snapshot_event_id") doc in
  let* cursor_doc := dict_field (u "projection_cursor") doc in
  let* cursor := cursor_validate cursor_doc in
  let* ref_doc := dict_field (u "terminal_ref") doc in
  let* terminal := ref_validate ref_doc in
  let* generation := int_field (u "observer_reconcile_generation") 1 MAX_UINT64 doc in
  let* coverage := str_field (u "coverage_snapshot_sha256") doc in
  let* input_doc := dict_field (u "policy_input") doc in
  let* input := input_validate input_doc in
  let* decision_doc := dict_field (u "policy_decision") doc in
  let* decision := decision_validate decision_doc in
  let* decision_sha := str_field (u "policy_decision_sha256") doc in
  let* evaluated := str_field (u "evaluated_at") doc in
  let* age := int_field (u "fresh_evidence_age_ms") 0 MAX_UINT64 doc in
  let* committed := str_field (u "committed_at") doc in
  let* intent := opt_intent_field (u "intent") doc in
  let* record_sha := str_field (u "record_sha256") doc in
  let r := mkRecord candidate facts created authority cursor terminal generation coverage input
    decision decision_sha evaluated age committed intent record_sha in
  check (record_fields_ok r) ;;* record_bindings r ;;* Ok r.

(** [time_is_exact] calls [_timestamp_ns] on text of the right pattern; its
    [PolicyError] is not a [ValueError], so it leaves validation at once. *)
Definition time_raises (doc : document) (key : pystr) : bool :=
  match get key doc with
  | Some (JStr s) => TIMESTAMP_text s && negb (is_ok (timestamp_ns s))
  | _ => false
  end.

(** [_DecisionIntentRecordV1.model_validate(..., strict=True)] *)
Definition record_validate (doc : document) : result policy_exn DecisionIntentRecordV1 :=
  guard (negb (existsb (time_raises doc)
                 [u "candidate_created_at"; u "evaluated_at"; u "committed_at"])) PolicyError ;;*
  catch_with PolicyPyError (record_read doc).

(** ** Exact bytes and the commit observation *)

(** [_decode_decision_intent_record]: only [TypeError] and [ValueError] are turned
    into a validation error *)
Definition decode_decision_intent_record (raw : bytes)
  : result decision_exn DecisionIntentRecordV1 :=
  let* doc := catch_with (fun _ => DecisionIntentValidationError)
    (decode_strict record_required Ok raw MAX_RECORD_BYTES) in
  let* r := catch_with (fun e => match e with
                                 | PolicyPyError _ => DecisionIntentValidationError
                                 | e => DecisionPolicyError e end) (record_validate doc) in
  let* canonical := catch_with DecisionPyError (canonical_json (JObj (record_dump r))) in
  guard (bool_decide (canonical = raw)) DecisionIntentValidationError ;;*
  Ok r.

Record DecisionIntentCommit := mkCommit {
  k_candidate_id : pystr; k_record_sha256 : pystr; k_effect : policy_effect;
  k_intent_id : option pystr; k_record_canonical : bytes; k_intent_canonical : option bytes }.

#[export] Instance DecisionIntentCommit_eq_dec : EqDecision DecisionIntentCommit.
Proof. solve_decision. Defined.

(** [DecisionIntentCommit.__post_init__] *)
Definition DecisionIntentCommit_ok (k : DecisionIntentCommit) : bool :=
  is_prefixed_hex "cand_" 64 (k_candidate_id k) && HEX64 (k_record_sha256 k)
  && ((1 <=? blen (k_record_canonical k)) && (blen (k_record_canonical k) <=? MAX_RECORD_BYTES))
  && match k_effect k with
     | Deny => bool_decide (k_intent_id k = None) && bool_decide (k_intent_canonical k = None)
     | ManualApprovalRequired =>
         match k_intent_id k, k_intent_canonical k with
         | Some i, Some raw =>
             is_prefixed_hex "int_" 32 i && ((1 <=? blen raw) && (blen raw <=? 65536))
         | _, _ => false
         end
     end.

(** [_commit_observation] *)
Definition commit_observation (r : DecisionIntentRecordV1) (raw : bytes)
  : result py_exn DecisionIntentCommit :=
  let* intent_canonical :=
    match r_intent r with
    | None => Ok None
    | Some x => let* c := canonical_json (JObj (intent_dump x)) in Ok (Some c)
    end in
  let k := mkCommit (r_candidate_id r) (r_record_sha256 r) (d_effect (r_decision r))
    (x_intent_id <$> r_intent r) raw intent_canonical in
  check (DecisionIntentCommit_ok k) ;;* Ok k.

(** ** Building a record *)

(** [_minimum_age_ms]; a comparison that fails is a validation error *)
Definition minimum_age_ms (created_at evaluated_at : pystr) : result decision_exn Z :=
  let* created_ns := catch_with DecisionPolicyError (timestamp_ns created_at) in
  let* evaluated_ns := catch_with DecisionPolicyError (timestamp_ns evaluated_at) in
  guard (created_ns <=? evaluated_ns) DecisionIntentValidationError ;;*
  Ok ((evaluated_ns - created_ns + 999999) / 1000000).

(** [_intent_for] *)
Definition intent_for (c : ContainmentCandidateV1) (v : PolicyEvaluation) (committed_at : pystr)
  : result decision_exn (option EgressDenyFields) :=
  match d_effect (v_decision v) with
  | Deny => Ok None
  | ManualApprovalRequired =>
      catch_with (fun _ => DecisionIntentValidationError)
        (let* identifier := intent_id (c_candidate_id c) POLICY_BUNDLE_SHA256
                              (d_max_ttl (v_decision v)) in
         let* x := durable_intent_validate (intent_dump
           (mkEgress identifier (c_host_id c) (c_container_id c) (c_started_at c) (c_image_id c)
              (c_repo_digests c) (c_spec_sha256 c) (c_generation c) (c_revision c)
              (c_destination c) (d_max_ttl (v_decision v))
              (d_allowed_evidence_ids (v_decision v)) (c_detector_sha256 c)
              POLICY_BUNDLE_VERSION POLICY_BUNDLE_SHA256 (c_coverage_sha256 c)
              committed_at)) in
         Ok (Some x))
  end.

(** The clock part of the builder: the uncertainty in nanoseconds is that of the
    sample *)
Definition commit_clock_ok (s : CoreClockSample) (uncertainty_ns : Z) : bool :=
  validate_core_clock_sample s && s_healthy s
  && match s_uncertainty s with
     | Some d => dec_leb d (s_max_uncertainty s) && is_uint64 uncertainty_ns
                 && (uncertainty_ns =? dec_ceiling (dec_nanoseconds d))
     | None => false
     end.

(** [_build_decision_intent_record]: every failure is a validation error *)
Definition build_decision_intent_record (c : ContainmentCandidateV1) (v : PolicyEvaluation)
    (s : CoreClockSample) (uncertainty_ns : Z) (authority_event_id : pystr)
    (cursor : ProjectionCursor) (terminal : EvidenceRef) (readiness : MutationReadiness)
  : result decision_exn DecisionIntentRecordV1 :=
  catch_with (fun _ => DecisionIntentValidationError)
    (guard (commit_clock_ok s uncertainty_ns) DecisionIntentValidationError ;;*
     let* detached := catch_with DecisionPolicyError
       (validate_policy_evaluation_for_candidate v c) in
     let* fresh_age := catch_with DecisionPolicyError
       (evidence_age_ms (c_created_at c) s uncertainty_ns) in
     let committed_at := utc_text (s_decision_utc s) in
     let* minimum := minimum_age_ms (c_created_at c) (v_evaluated_at detached) in
     let* evaluated_ns := catch_with DecisionPolicyError (timestamp_ns (v_evaluated_at detached)) in
     let* decision_ns := catch_with DecisionPolicyError (datetime_ns (s_decision_utc s)) in
     guard ((evaluated_ns <=? decision_ns) && (minimum <=? v_evidence_age_ms detached)
            && (v_evidence_age_ms detached <=? fresh_age)) DecisionIntentValidationError ;;*
     let* terminal := catch_with DecisionPyError (exact_coverage_ref_key terminal) in
     let* generation := of_option DecisionIntentValidationError
       (observer_reconcile_generation readiness) in
     let* intent := intent_for c detached committed_at in
     let unsealed := mkRecord (c_candidate_id c) (v_facts_sha256 detached) (c_created_at c)
       authority_event_id cursor terminal generation (c_coverage_sha256 c) (v_input detached)
       (v_decision detached) (v_decision_sha256 detached) (v_evaluated_at detached) fresh_age
       committed_at intent [] in
     let* sha := catch_with DecisionPyError (decision_intent_record_sha256 unsealed) in
     catch_with DecisionPolicyError
       (record_validate (dump_of (record_base_fields unsealed)
                         ++ [(u "record_sha256", JStr sha)]))).

(** ** Reads of nested models *)

Lemma any_int_field_inv k d z : any_int_field k d = Ok z -> get k d = Some (JInt z).
Proof. unfold any_int_field. repeat case_match; congruence. Qed.

Lemma any_int_field_eq k d z : get k d = Some (JInt z) -> any_int_field k d = Ok z.
Proof. intros H. unfold any_int_field. by rewrite H. Qed.

Lemma str_list_field_inv k lo hi d l :
  str_list_field k lo hi d = Ok l -> get k d = Some (JArr (map JStr l)).
Proof.
  unfold str_list_field, check. destruct (get k d) as [[]|]; try done. intros H. inv_ok.
  apply map_as_str_inv in H. by subst.
Qed.

Lemma dict_field_inv k d m : dict_field k d = Ok m -> get k d = Some (JObj m).
Proof. unfold dict_field. repeat case_match; congruence. Qed.

#[export] Instance any_int_field_proper k : Proper (doc_equiv ==> eq) (any_int_field k).
Proof. intros d1 d2 H. unfold any_int_field. by rewrite (H k). Qed.

Ltac nested_reads H :=
  policy_reads H;
  match type of H with doc_equiv ?d1 ?d2 =>
    repeat match goal with
    | |- context [any_int_field ?k d1] => rewrite (any_int_field_proper k d1 d2 H)
    end
  end.

#[export] Instance cursor_validate_proper : Proper (doc_equiv ==> eq) cursor_validate.
Proof. intros d1 d2 H. unfold cursor_validate. by nested_reads H. Qed.

#[export] Instance ref_validate_proper : Proper (doc_equiv ==> eq) ref_validate.
Proof. intros d1 d2 H. unfold ref_validate. by nested_reads H. Qed.

#[export] Instance durable_intent_proper : Proper (doc_equiv ==> eq) durable_intent_validate.
Proof. intros d1 d2 H. unfold durable_intent_validate. by nested_reads H. Qed.

(** One read, forwards and backwards, of a dump or of its canonical form *)
Ltac nested_dump Hnd :=
  first
  [ policy_dump Hnd
  | eapply rbind_step;
    [ match goal with
      | |- any_int_field _ _ = _ =>
          eapply any_int_field_eq; rewrite (get_dump_of _ _ Hnd); reflexivity
      end
    | cbv beta ] ].

Ltac nested_inv Hnd :=
  first
  [ match goal with
    | H : any_int_field _ _ = Ok _ |- _ => apply any_int_field_inv in H
    | H : str_list_field _ _ _ _ = Ok _ |- _ => apply str_list_field_inv in H
    end
  | read_inv Hnd ].

Lemma cursor_keys_nodup : NoDup cursor_keys.
Proof. apply (bool_decide_eq_true (NoDup cursor_keys)). vm_compute. reflexivity. Qed.

Lemma ref_keys_nodup : NoDup ref_keys.
Proof. apply (bool_decide_eq_true (NoDup ref_keys)). vm_compute. reflexivity. Qed.

Lemma cursor_flat c : Forall flat_field (cursor_fields c).
Proof. unfold cursor_fields. flat_fields. Qed.

Lemma ref_flat r : Forall flat_field (ref_fields r).
Proof. unfold ref_fields. flat_fields. Qed.

Definition cursor_valid (c : ProjectionCursor) : Prop :=
  1 <= pc_source_sequence c <= MAX_UINT64
  /\ UUID4 (pc_host_id c) && EVENT_ID (pc_event_id c) && HEX64 (pc_content_sha256 c)
     && HEX64 (pc_frame_sha256 c) = true.

Lemma cursor_validate_sound d c : cursor_validate d = Ok c -> cursor_valid c.
Proof.
  unfold cursor_validate. intros H. repeat (apply rbind_ok in H as (? & ? & H)). injection H as <-.
  repeat match goal with H : int_field _ _ _ _ = Ok _ |- _ => apply int_field_range in H end.
  split; [done|]. by match goal with H : check _ = Ok _ |- _ => apply guard_ok in H end.
Qed.

Lemma cursor_validate_dump c : cursor_valid c -> cursor_validate (cursor_dump c) = Ok c.
Proof.
  intros [H1 H2]. assert (Hnd : NoDup (map fst (cursor_fields c))) by exact cursor_keys_nodup.
  unfold cursor_validate, cursor_dump. repeat nested_dump Hnd.
  rewrite check_true by done. by destruct c.
Qed.

Lemma cursor_validate_inv c c' : cursor_validate (cursor_dump c) = Ok c' -> c' = c.
Proof.
  assert (Hnd : NoDup (map fst (cursor_fields c))) by exact cursor_keys_nodup.
  unfold cursor_validate, cursor_dump. intros H. repeat (apply rbind_ok in H as (? & ? & H)).
  injection H as <-. repeat nested_inv Hnd. by destruct c.
Qed.

Definition ref_exact (r : EvidenceRef) : Prop := exact_coverage_ref_key r = Ok r.

Lemma ref_validate_sound d r : ref_validate d = Ok r -> ref_exact r.
Proof.
  unfold ref_validate. intros H. do 9 (apply rbind_ok in H as (? & ? & H)).
  pose proof (exact_key_id _ _ H). unfold ref_exact. congruence.
Qed.

Lemma ref_validate_dump r : ref_exact r -> ref_validate (ref_dump r) = Ok r.
Proof.
  intros Hr. assert (Hnd : NoDup (map fst (ref_fields r))) by exact ref_keys_nodup.
  unfold ref_validate, ref_dump. repeat nested_dump Hnd. by destruct r.
Qed.

Lemma ref_validate_inv r r' : ref_validate (ref_dump r) = Ok r' -> r' = r.
Proof.
  assert (Hnd : NoDup (map fst (ref_fields r))) by exact ref_keys_nodup.
  unfold ref_validate, ref_dump. intros H. do 9 (apply rbind_ok in H as (? & ? & H)).
  apply exact_key_id in H. subst r'. repeat nested_inv Hnd. by destruct r.
Qed.

(** Reading the shared fields of a dump can only give them back. *)
Lemma intent_validate_inv x y : intent_validate (intent_dump x) = Ok y -> y = x.
Proof.
  assert (Hnd : NoDup (map fst (intent_fields x))) by exact intent_keys_nodup.
  unfold intent_validate, read_egress, intent_dump. intros H.
  repeat (apply rbind_ok in H as (? & ? & H)). injection H as <-.
  repeat match goal with
  | H : check _ = Ok _ |- _ => clear H | H : no_extra _ _ = Ok _ |- _ => clear H
  | H : literal_field _ _ _ = Ok _ |- _ => clear H end.
  repeat nested_inv Hnd. by destruct x.
Qed.

Lemma durable_validate_inv x y : durable_intent_validate (intent_dump x) = Ok y -> y = x.
Proof.
  assert (Hnd : NoDup (map fst (intent_fields x))) by exact intent_keys_nodup.
  unfold durable_intent_validate, intent_dump. intros H.
  repeat (apply rbind_ok in H as (? & ? & H)). injection H as <-.
  repeat match goal with
  | H : wire_contract_is_exact _ = Ok _ |- _ => clear H | H : no_extra _ _ = Ok _ |- _ => clear H
  | H : literal_field _ _ _ = Ok _ |- _ => clear H end.
  repeat nested_inv Hnd. by destruct x.
Qed.

Lemma durable_validate_sound d x :
  durable_intent_validate d = Ok x -> wire_contract_is_exact x = Ok tt.
Proof.
  unfold durable_intent_validate. intros H. repeat (apply rbind_ok in H as (? & ? & H)).
  injection H as <-.
  by match goal with H : wire_contract_is_exact _ = Ok ?y |- _ => destruct y end.
Qed.

Lemma durable_validate_dump x :
  wire_contract_is_exact x = Ok tt -> durable_intent_validate (intent_dump x) = Ok x.
Proof.
  intros Hx. assert (Hnd : NoDup (map fst (intent_fields x))) by exact intent_keys_nodup.
  unfold durable_intent_validate, intent_dump. repeat nested_dump Hnd. cbv zeta.
  assert (E : mkEgress (x_intent_id x) (x_host_id x) (x_container_id x) (x_started_at x)
    (x_image_id x) (x_repo_digests x) (x_spec_sha256 x) (x_generation x) (x_revision x)
    (x_destination x) (x_ttl x) (x_evidence_ids x) (x_detector_sha256 x) (x_policy_version x)
    (x_policy_sha256 x) (x_coverage_sha256 x) (x_created_at x) = x) by (by destruct x).
  by rewrite E, Hx.
Qed.

(** The wire contract of a durable intent is exactly that its canonical bytes are
    those of a wire intent. *)
Lemma wire_contract_iff x :
  wire_contract_is_exact x = Ok tt
  <-> exists raw, canonical_json (JObj (intent_dump x)) = Ok raw
        /\ decode_exact_intent raw = Ok x.
Proof.
  assert (Hn : forall x, NoDup (map fst (intent_fields x))) by (intros; exact intent_keys_nodup).
  unfold wire_contract_is_exact. split.
  - intros H. apply rbind_ok in H as (raw & Hraw & H). apply rbind_ok in H as (y & Hy & H).
    apply rbind_ok in H as (again & Ha & H). apply guard_ok, bool_decide_eq_true in H.
    subst again. exists raw. split; [done|].
    pose proof (flat_unique _ (Hn x) (intent_flat x)) as Ux.
    pose proof (flat_unique _ (Hn y) (intent_flat y)) as Uy.
    pose proof (proj1 (canonical_json_injective_aux _ _ raw Ux Uy Hraw) Ha) as Hc.
    apply canon_obj_inj in Hc. unfold decode_strict in Hy.
    apply rbind_ok in Hy as (doc & Hdoc & Hy). apply rbind_ok in Hy as (? & _ & Hy).
    apply rbind_ok in Hy as (? & _ & Hy).
    pose proof (canonical_json_roundtrip_aux (intent_dump x) raw MAX_WIRE_BYTES Ux Hraw) as Hrt.
    assert (Hl : Z.of_nat (length raw) <= MAX_WIRE_BYTES).
    { unfold decode_json, decode_object in Hdoc. apply rbind_ok in Hdoc as (? & Hg%guard_ok & _). breflect. lia. }
    assert (Hv : intent_validate (intent_dump x) = Ok y).
    { transitivity (intent_validate (canon_obj (intent_dump x))).
      - symmetry. apply intent_validate_proper, flat_canon_equiv; [apply Hn|apply intent_flat].
      - rewrite <- Hy. f_equal. specialize (Hrt Hl). congruence. }
    pose proof (intent_validate_inv _ _ Hv) as ->.
    apply decode_exact_intent_iff. split_and!; [|done|done].
    unfold intent_validate in Hv. do 2 apply rbind_ok in Hv as (? & _ & Hv).
    by eapply read_egress_sound.
  - intros (raw & Hraw & (Hv & _ & Hl)%decode_exact_intent_iff). rewrite Hraw. cbn [rbind].
    rewrite (flat_model_roundtrip intent_validate intent_keys (intent_fields x) x raw
      MAX_WIRE_BYTES intent_validate_proper (Hn x) (intent_flat x) eq_refl
      (intent_required_present x) (intent_validate_dump x Hv) Hraw Hl).
    cbn [rbind]. rewrite Hraw. cbn [rbind]. apply check_true. by apply bool_decide_eq_true.
Qed.

(** ** Records *)

Definition record_valid (r : DecisionIntentRecordV1) : Prop :=
  cursor_valid (r_cursor r) /\ ref_exact (r_terminal r)
  /\ 1 <= r_observer_generation r <= MAX_UINT64
  /\ input_valid (r_input r) /\ decision_valid (r_decision r)
  /\ 0 <= r_fresh_age_ms r <= MAX_UINT64
  /\ (forall x, r_intent r = Some x -> wire_contract_is_exact x = Ok tt)
  /\ record_fields_ok r = true /\ record_bindings r = Ok tt.

Lemma opt_intent_sound k d o :
  opt_intent_field k d = Ok o -> forall x, o = Some x -> wire_contract_is_exact x = Ok tt.
Proof.
  unfold opt_intent_field. intros H x ->. destruct (get k d) as [[]|]; try done.
  apply rbind_ok in H as (y & Hy%durable_validate_sound & H). by injection H as <-.
Qed.

Lemma record_read_sound d r : record_read d = Ok r -> record_valid r.
Proof.
  unfold record_read. intros H. do 22 (apply rbind_ok in H as (? & ? & H)).
  apply rbind_ok in H as (? & Hf%guard_ok & H). apply rbind_ok in H as ([] & Hb & H).
  injection H as <-.
  repeat match goal with
  | H : int_field _ _ _ _ = Ok _ |- _ => apply int_field_range in H
  | H : cursor_validate _ = Ok _ |- _ => apply cursor_validate_sound in H
  | H : ref_validate _ = Ok _ |- _ => apply ref_validate_sound in H
  | H : input_validate _ = Ok _ |- _ => apply input_validate_sound in H
  | H : decision_validate _ = Ok _ |- _ => apply decision_validate_sound in H
  end.
  do 6 (split; [assumption|]). split; [by eapply opt_intent_sound|]. by split.
Qed.

Lemma record_keys_nodup : NoDup record_keys.
Proof. apply (bool_decide_eq_true (NoDup record_keys)). vm_compute. reflexivity. Qed.

Lemma get_canon_dump fields k :
  NoDup (map fst fields) -> get k (canon_obj (dump_of fields)) = canon <$> assoc k fields.
Proof. intros H. rewrite get_canon_obj by (by apply dump_of_nodup). by rewrite get_dump_of. Qed.

Lemma no_extra_canon keys fields :
  map fst fields = keys -> no_extra keys (canon_obj (dump_of fields)) = Ok tt.
Proof.
  intros <-. rewrite no_extra_keys. apply check_true, forallb_forall.
  intros k Hin%list_elem_of_In. apply bool_decide_eq_true, dump_of_keys.
  unfold canon_obj in Hin. rewrite (py_sort_perm key_leb), map_map in Hin. done.
Qed.

(** One read of the canonical form of a dump *)
Ltac read_canon Hnd :=
  let by_table := (rewrite (get_canon_dump _ _ Hnd); reflexivity) in
  eapply rbind_step;
  [ match goal with
    | |- no_extra _ _ = _ => apply no_extra_canon; reflexivity
    | |- literal_field _ _ _ = _ => eapply literal_field_eq; by_table
    | |- str_field _ _ = _ => eapply str_field_eq; by_table
    | |- int_field _ _ _ _ = _ => eapply int_field_eq; [by_table|lia]
    | |- dict_field _ _ = _ =>
        eapply dict_field_eq; rewrite (get_canon_dump _ _ Hnd);
        match goal with |- canon <$> ?a = _ =>
          let v := eval hnf in a in
          match v with Some (JObj ?m) => change (canon <$> a) with (Some (JObj (canon_obj m))) end
        end; reflexivity
    end
  | cbv beta ].

Lemma cursor_canon c : cursor_valid c -> cursor_validate (canon_obj (cursor_dump c)) = Ok c.
Proof.
  intros H. rewrite (cursor_validate_proper _ (cursor_dump c)); [by apply cursor_validate_dump|].
  apply flat_canon_equiv; [exact cursor_keys_nodup|apply cursor_flat].
Qed.

Lemma ref_canon r : ref_exact r -> ref_validate (canon_obj (ref_dump r)) = Ok r.
Proof.
  intros H. rewrite (ref_validate_proper _ (ref_dump r)); [by apply ref_validate_dump|].
  apply flat_canon_equiv; [exact ref_keys_nodup|apply ref_flat].
Qed.

Lemma input_canon i : input_valid i -> input_validate (canon_obj (input_dump i)) = Ok i.
Proof.
  intros H. rewrite (input_validate_proper _ (input_dump i)); [by apply input_validate_dump|].
  apply flat_canon_equiv; [exact input_keys_nodup|apply input_flat].
Qed.

Lemma decision_canon d : decision_valid d -> decision_validate (canon_obj (decision_dump d)) = Ok d.
Proof.
  intros H. rewrite (decision_validate_proper _ (decision_dump d));
    [by apply decision_validate_dump|].
  apply flat_canon_equiv; [exact decision_keys_nodup|apply decision_flat].
Qed.

Lemma intent_canon x :
  wire_contract_is_exact x = Ok tt -> durable_intent_validate (canon_obj (intent_dump x)) = Ok x.
Proof.
  intros H. rewrite (durable_intent_proper _ (intent_dump x)); [by apply durable_validate_dump|].
  apply flat_canon_equiv; [exact intent_keys_nodup|apply intent_flat].
Qed.

Lemma opt_intent_canon r (Hnd : NoDup (map fst (record_fields r))) :
  (forall x, r_intent r = Some x -> wire_contract_is_exact x = Ok tt) ->
  opt_intent_field (u "intent") (canon_obj (record_dump r)) = Ok (r_intent r).
Proof.
  intros H.
  assert (E : get (u "intent") (canon_obj (record_dump r))
    = match r_intent r with
      | Some x => Some (JObj (canon_obj (intent_dump x))) | None => None end).
  { unfold record_dump. rewrite (get_canon_dump _ _ Hnd).
    change (assoc (u "intent") (record_fields r))
      with ((fun x => JObj (intent_dump x)) <$> r_intent r).
    by destruct (r_intent r). }
  unfold opt_intent_field. rewrite E. destruct (r_intent r) as [x|]; [|done].
  by rewrite (intent_canon x (H x eq_refl)).
Qed.

Lemma record_read_canon r : record_valid r -> record_read (canon_obj (record_dump r)) = Ok r.
Proof.
  intros (Hc & Ht & Hg & Hi & Hd & Ha & Hx & Hf & Hb).
  assert (Hnd : NoDup (map fst (record_fields r))) by exact record_keys_nodup.
  unfold record_read, record_dump. do 6 read_canon Hnd.
  read_canon Hnd. eapply rbind_step; [by apply cursor_canon|cbv beta].
  read_canon Hnd. eapply rbind_step; [by apply ref_canon|cbv beta]. do 2 read_canon Hnd.
  read_canon Hnd. eapply rbind_step; [by apply input_canon|cbv beta].
  read_canon Hnd. eapply rbind_step; [by apply decision_canon|cbv beta]. do 4 read_canon Hnd.
  eapply rbind_step; [by apply (opt_intent_canon r Hnd)|cbv beta]. read_canon Hnd. cbv zeta.
  assert (E : mkRecord (r_candidate_id r) (r_facts_sha256 r) (r_candidate_created_at r)
    (r_authority_event_id r) (r_cursor r) (r_terminal r) (r_observer_generation r)
    (r_coverage_sha256 r) (r_input r) (r_decision r) (r_decision_sha256 r) (r_evaluated_at r)
    (r_fresh_age_ms r) (r_committed_at r) (r_intent r) (r_record_sha256 r) = r)
    by (by destruct r).
  rewrite E, check_true by done. cbn [rbind]. by rewrite Hb.
Qed.

Lemma record_time_ok s : record_time s = true -> TIMESTAMP_text s && negb (is_ok (timestamp_ns s)) = false.
Proof. unfold record_time. intros [_ H]%andb_true_iff. rewrite H. apply andb_false_r. Qed.

Lemma record_times_quiet r :
  record_fields_ok r = true ->
  existsb (time_raises (canon_obj (record_dump r)))
    [u "candidate_created_at"; u "evaluated_at"; u "committed_at"] = false.
Proof.
  intros Hf. unfold record_fields_ok in Hf. breflect.
  assert (Hnd : NoDup (map fst (record_fields r))) by exact record_keys_nodup.
  assert (E : forall k s, assoc k (record_fields r) = Some (JStr s) -> record_time s = true ->
    time_raises (canon_obj (record_dump r)) k = false).
  { intros k s Hk Hs. unfold time_raises, record_dump. rewrite (get_canon_dump _ _ Hnd), Hk.
    by apply record_time_ok. }
  cbn [existsb].
  rewrite (E _ (r_candidate_created_at r)), (E _ (r_evaluated_at r)), (E _ (r_committed_at r));
    first [reflexivity|assumption].
Qed.

(** Nested documents have unique keys at every level. *)
Lemma record_unique r : unique_keys (JObj (record_dump r)) = true.
Proof.
  assert (Hc : unique_keys (JObj (cursor_dump (r_cursor r))) = true)
    by (apply flat_unique; [exact cursor_keys_nodup|apply cursor_flat]).
  assert (Ht : unique_keys (JObj (ref_dump (r_terminal r))) = true)
    by (apply flat_unique; [exact ref_keys_nodup|apply ref_flat]).
  assert (Hi : unique_keys (JObj (input_dump (r_input r))) = true)
    by (apply flat_unique; [exact input_keys_nodup|apply input_flat]).
  assert (Hd : unique_keys (JObj (decision_dump (r_decision r))) = true)
    by (apply flat_unique; [exact decision_keys_nodup|apply decision_flat]).
  assert (Hx : forall x, unique_keys (JObj (intent_dump x)) = true)
    by (intros x; apply flat_unique; [exact intent_keys_nodup|apply intent_flat]).
  assert (E : forall d, unique_keys (JObj d)
    = bool_decide (NoDup (map fst d)) && forallb (fun kv => unique_keys kv.2) d) by done.
  rewrite E. apply andb_true_iff. split.
  - apply bool_decide_eq_true. apply dump_of_nodup. exact record_keys_nodup.
  - unfold record_dump, record_fields, record_base_fields. cbn [app].
    destruct (r_intent r) as [x|]; cbn [fmap option_fmap option_map dump_of forallb snd];
      rewrite Hc, Ht, Hi, Hd, ?Hx; reflexivity.
Qed.

(** What [decode_strict] hands to the model for canonical bytes *)
Lemma decode_strict_canon required d raw max :
  unique_keys (JObj d) = true -> canonical_json (JObj d) = Ok raw ->
  Z.of_nat (length raw) <= max ->
  forallb (fun f => bool_decide (f ∈ map fst (canon_obj d))) required = true ->
  existsb (fun kv => is_null kv.2) (canon_obj d) = false ->
  decode_strict required Ok raw max = Ok (canon_obj d).
Proof.
  intros Hu Hraw Hl Hr Hn. unfold decode_strict.
  rewrite (canonical_json_roundtrip_aux d raw max Hu Hraw Hl). cbn [rbind]. by rewrite Hr, Hn.
Qed.

Lemma record_required_present r :
  forallb (fun k => bool_decide (assoc k (record_fields r) <> None)) record_required = true.
Proof. reflexivity. Qed.

Lemma record_not_null r : forallb not_null_field (record_fields r) = true.
Proof.
  unfold record_fields, record_base_fields. cbn [app forallb not_null_field snd].
  by destruct (r_intent r).
Qed.

Lemma decode_strict_length {T} required (validate : document -> result py_exn T) raw max x :
  decode_strict required validate raw max = Ok x -> Z.of_nat (length raw) <= max.
Proof.
  unfold decode_strict, decode_json, decode_object. intros H. apply rbind_ok in H as (d & Hd & _).
  apply rbind_ok in Hd as (? & Hg%guard_ok & _). breflect. lia.
Qed.

Lemma decode_record_iff raw r :
  decode_decision_intent_record raw = Ok r
  <-> record_valid r /\ canonical_json (JObj (record_dump r)) = Ok raw
      /\ Z.of_nat (length raw) <= MAX_RECORD_BYTES.
Proof.
  unfold decode_decision_intent_record. split.
  - intros H. apply rbind_ok in H as (d & Hd%catch_ok%decode_strict_length & H).
    apply rbind_ok in H as (y & Hy%catch_ok & H). apply rbind_ok in H as (c & Hc%catch_ok & H).
    apply rbind_ok in H as (? & Hg%guard_ok & H). apply bool_decide_eq_true in Hg. subst c.
    injection H as <-. unfold record_validate in Hy. apply rbind_ok in Hy as (? & _ & Hy).
    apply catch_ok, record_read_sound in Hy. done.
  - intros (Hv & Hraw & Hl). rewrite (decode_strict_canon _ (record_dump r)).
    + cbn [catch_with rbind]. unfold record_validate.
      rewrite record_times_quiet by apply Hv. cbn [negb guard rbind].
      rewrite record_read_canon by done. cbn [catch_with rbind]. rewrite Hraw.
      cbn [catch_with rbind]. by rewrite bool_decide_eq_true_2.
    + apply record_unique.
    + exact Hraw.
    + exact Hl.
    + apply required_present; [exact record_keys_nodup|apply record_required_present].
    + apply no_nulls, record_not_null.
Qed.

(** Durable bytes and records correspond one to one: decoding returns a record
    precisely for the canonical bytes, within 128 KiB, of a record that passes every
    validator (nested models, bindings between them, the wire contract of the intent
    and the self hash). *)
Theorem decision_record_exact raw r :
  decode_decision_intent_record raw = Ok r
  <-> record_valid r /\ canonical_json (JObj (record_dump r)) = Ok raw
      /\ Z.of_nat (length raw) <= MAX_RECORD_BYTES.
Proof. apply decode_record_iff. Qed.

Lemma record_valid_narrowed r :
  record_valid r ->
  narrowed (r_decision r) (r_input r) /\ intent_is_narrowed r = Ok tt
  /\ record_parts_agree r = Ok tt /\ decision_intent_record_sha256 r = Ok (r_record_sha256 r).
Proof.
  intros (_ & _ & _ & _ & _ & _ & _ & _ & Hb). unfold record_bindings in Hb.
  apply rbind_ok in Hb as ([] & Hp & Hb). apply rbind_ok in Hb as ([] & Hn%catch_ok & Hb).
  apply rbind_ok in Hb as ([] & Hi & Hb). apply rbind_ok in Hb as (e & He & Hb).
  apply guard_ok, bool_decide_eq_true in Hb. subst e. by rewrite <- narrow_decision_iff.
Qed.

(** The authority a durable record carries *)
Definition record_authority (r : DecisionIntentRecordV1) : Prop :=
  instant (r_candidate_created_at r) <= instant (r_evaluated_at r) <= instant (r_committed_at r)
  /\ match r_intent r with
     | None => d_effect (r_decision r) = Deny
     | Some x =>
         d_effect (r_decision r) = ManualApprovalRequired
         /\ i_protocol (r_input r) = u "tcp" /\ r_fresh_age_ms r <= 120000
         /\ 30 <= x_ttl x <= Z.min (i_requested_ttl (r_input r)) 120
         /\ x_evidence_ids x = i_evidence_ids (r_input r)
         /\ x_container_id x = i_container_id (r_input r)
         /\ x_destination x = i_destination (r_input r)
         /\ x_created_at x = r_committed_at r
         /\ intent_id (r_candidate_id r) POLICY_BUNDLE_SHA256 (x_ttl x) = Ok (x_intent_id x)
     end.


Lemma commit_observation_ok r raw :
  record_valid r -> canonical_json (JObj (record_dump r)) = Ok raw ->
  Z.of_nat (length raw) <= MAX_RECORD_BYTES ->
  exists k, commit_observation r raw = Ok k /\ k_record_canonical k = raw
    /\ k_candidate_id k = r_candidate_id r /\ k_record_sha256 k = r_record_sha256 r
    /\ k_effect k = d_effect (r_decision r) /\ k_intent_id k = x_intent_id <$> r_intent r.
Proof.
  intros Hv Hraw Hl. pose proof (canonical_nonempty _ _ Hraw) as Hne.
  pose proof (record_valid_narrowed r Hv) as (_ & Hi & _ & _).
  destruct Hv as (_ & _ & _ & _ & _ & _ & Hx & Hf & _). unfold record_fields_ok in Hf. breflect.
  unfold commit_observation, intent_is_narrowed in *.
  destruct (d_effect (r_decision r)) eqn:Ee, (r_intent r) as [x|] eqn:Ex; try done; cbn [rbind].
  - eexists. rewrite check_true; [by split_and!|]. unfold DecisionIntentCommit_ok. cbn.
    unfold blen. rewrite range_check by lia. apply andb_true_iff. split; [|done].
    rewrite andb_true_r. apply andb_true_iff. by split.
  - destruct (proj1 (wire_contract_iff x) (Hx x eq_refl)) as (c & Hc & Hd).
    apply decode_exact_intent_iff in Hd as ((_ & Hok) & _ & Hlc).
    rewrite Hc. cbn [rbind]. eexists. rewrite check_true; [by split_and!|].
    unfold egress_ok in Hok. breflect. pose proof (canonical_nonempty _ _ Hc).
    unfold DecisionIntentCommit_ok, MAX_WIRE_BYTES in *. cbn. unfold blen.
    rewrite !range_check by lia. rewrite !andb_true_r. apply andb_true_iff. split; [|done].
    apply andb_true_iff. by split.
Qed.

(** ** Building *)

Lemma opt_intent_inv r o :
  opt_intent_field (u "intent") (record_dump r) = Ok o -> o = r_intent r.
Proof.
  assert (Hnd : NoDup (map fst (record_fields r))) by exact record_keys_nodup.
  unfold opt_intent_field, record_dump. rewrite (get_dump_of _ _ Hnd).
  change (assoc (u "intent") (record_fields r))
    with ((fun x => JObj (intent_dump x)) <$> r_intent r).
  destruct (r_intent r) as [x|]; cbn [fmap option_fmap option_map]; [|by intros [= <-]].
  intros H. apply rbind_ok in H as (y & Hy%durable_validate_inv & H). injection H as <-.
  by subst y.
Qed.

Lemma record_read_inv r r' : record_read (record_dump r) = Ok r' -> r' = r.
Proof.
  assert (Hnd : NoDup (map fst (record_fields r))) by exact record_keys_nodup.
  unfold record_read. intros H. do 22 (apply rbind_ok in H as (? & ? & H)).
  do 2 (apply rbind_ok in H as (? & _ & H)). injection H as <-.
  repeat match goal with
  | H : no_extra _ _ = Ok _ |- _ => clear H | H : literal_field _ _ _ = Ok _ |- _ => clear H
  | H : opt_intent_field _ _ = Ok _ |- _ => apply opt_intent_inv in H; subst
  | H : dict_field _ _ = Ok _ |- _ => apply dict_field_inv in H
  end.
  unfold record_dump in *. repeat nested_inv Hnd.
  repeat match goal with
  | H : Some (JObj _) = Some (JObj _) |- _ =>
      apply (f_equal (fun o => match o with Some (JObj m) => m | _ => [] end)) in H; subst
  end.
  repeat match goal with
  | H : cursor_validate _ = Ok _ |- _ => apply cursor_validate_inv in H; subst
  | H : ref_validate _ = Ok _ |- _ => apply ref_validate_inv in H; subst
  | H : input_validate _ = Ok _ |- _ => apply input_validate_dump_inv in H; subst
  | H : decision_validate _ = Ok _ |- _ => apply decision_validate_inv in H; subst
  end.
  by destruct r.
Qed.

Lemma dump_of_app f1 f2 : dump_of (f1 ++ f2) = dump_of f1 ++ dump_of f2.
Proof. induction f1 as [|[k [v|]] f1 IH]; cbn [dump_of app]; [done| |done]. by rewrite IH. Qed.

(** What a built record is made of *)
Lemma build_ok c v s unc auth cursor terminal readiness r :
  build_decision_intent_record c v s unc auth cursor terminal readiness = Ok r ->
  validate_policy_evaluation_for_candidate v c = Ok v
  /\ evidence_age_ms (c_created_at c) s unc = Ok (r_fresh_age_ms r)
  /\ v_evidence_age_ms v <= r_fresh_age_ms r /\ record_valid r
  /\ exists generation intent sha,
       observer_reconcile_generation readiness = Some generation
       /\ r = mkRecord (c_candidate_id c) (v_facts_sha256 v) (c_created_at c) auth cursor terminal
                generation (c_coverage_sha256 c) (v_input v) (v_decision v) (v_decision_sha256 v)
                (v_evaluated_at v) (r_fresh_age_ms r) (utc_text (s_decision_utc s)) intent sha.
Proof.
  unfold build_decision_intent_record. intros H%catch_ok. apply rbind_ok in H as (? & _ & H).
  apply rbind_ok in H as (w & Hw%catch_ok & H).
  assert (w = v) as -> by (by apply validated_evaluation in Hw as (-> & _)).
  apply rbind_ok in H as (age & Ha%catch_ok & H). apply rbind_ok in H as (minimum & _ & H).
  apply rbind_ok in H as (ens & _ & H). apply rbind_ok in H as (dns & _ & H).
  apply rbind_ok in H as (? & Hg%guard_ok & H). breflect.
  apply rbind_ok in H as (t & Ht%catch_ok%exact_key_id & H). subst t.
  apply rbind_ok in H as (generation & Hgen%of_option_ok & H).
  apply rbind_ok in H as (intent & _ & H). apply rbind_ok in H as (sha & _ & H).
  apply catch_ok in H. unfold record_validate in H. apply rbind_ok in H as (? & _ & H).
  apply catch_ok in H. pose proof (record_read_sound _ _ H) as Hv.
  set (sealed := mkRecord (c_candidate_id c) (v_facts_sha256 v) (c_created_at c) auth cursor
    terminal generation (c_coverage_sha256 c) (v_input v) (v_decision v) (v_decision_sha256 v)
    (v_evaluated_at v) age (utc_text (s_decision_utc s)) intent sha).
  change (dump_of (record_base_fields _) ++ _)
    with (dump_of (record_base_fields sealed) ++ dump_of [(u "record_sha256", Some (JStr sha))]) in H.
  rewrite <- dump_of_app in H. change (dump_of _) with (record_dump sealed) in H.
  apply record_read_inv in H. subst r. split_and!; try done. by exists generation, intent, sha.
Qed.

(** A record that is built can be committed and read back: its canonical bytes,
    if they fit 128 KiB, decode to the same record and yield a commit observation; the
    record binds the candidate it was built for, the digest of its facts and the
    evaluated decision, is stamped with the commit clock, and its fresh evidence age is
    not below the evaluated one. *)
Theorem built_record_durable c v s unc auth cursor terminal readiness r raw :
  build_decision_intent_record c v s unc auth cursor terminal readiness = Ok r ->
  canonical_json (JObj (record_dump r)) = Ok raw -> Z.of_nat (length raw) <= MAX_RECORD_BYTES ->
  decode_decision_intent_record raw = Ok r
  /\ r_candidate_id r = c_candidate_id c
  /\ candidate_facts_sha256 c = Ok (r_facts_sha256 r) /\ r_decision r = v_decision v
  /\ r_committed_at r = utc_text (s_decision_utc s)
  /\ v_evidence_age_ms v <= r_fresh_age_ms r
  /\ exists k, commit_observation r raw = Ok k.
Proof.
  intros (Hv & Ha & Hle & Hr & gen & intent & sha & _ & E)%build_ok Hraw Hl.
  apply validated_evaluation in Hv as (_ & Hb & _ & _ & _ & _ & facts & Hf & Hi).
  unfold evaluation_bindings in Hb. apply rbind_ok in Hb as (? & Hb%guard_ok & _). breflect.
  split_and!.
  - by apply decode_record_iff.
  - by rewrite E.
  - rewrite E. cbn [r_facts_sha256].
    match goal with H : v_facts_sha256 _ = i_facts_sha256 _ |- _ => rewrite H end. by rewrite Hi.
  - by rewrite E.
  - by rewrite E.
  - done.
  - destruct (commit_observation_ok r raw Hr Hraw Hl) as (k & Hk & _). by exists k.
Qed.

(** ** A committed decision *)

Definition commit_clock : CoreClockSample :=
  mkSample (mkDatetime 1767225662000000 true) (f_of_int 6) true (Some (DecFinite 1 (-1)))
    (DecFinite 2 0).

Definition build_sample : result decision_exn DecisionIntentRecordV1 :=
  build_decision_intent_record sample_candidate sample_evaluation commit_clock 100000000
    (c_snapshot_event_id sample_candidate) (w_cursor sample_view) (w_terminal sample_view)
    (w_readiness sample_view).

Definition sample_record : DecisionIntentRecordV1 := Eval vm_compute in
  ok_or build_sample
    (mkRecord [] [] [] [] (w_cursor sample_view) (w_terminal sample_view) 0 [] sample_input
       sample_decision [] [] 0 [] None []).

Definition sample_record_bytes : bytes := Eval vm_compute in
  ok_or (canonical_json (JObj (record_dump sample_record))) [].

Lemma sample_record_built : build_sample = Ok sample_record.
Proof. vm_compute. reflexivity. Qed.

Lemma sample_record_canonical : canonical_json (JObj (record_dump sample_record)) = Ok sample_record_bytes.
Proof. vm_compute. reflexivity. Qed.

Lemma sample_record_fits : Z.of_nat (length sample_record_bytes) <= MAX_RECORD_BYTES.
Proof. apply Z.leb_le. vm_compute. reflexivity. Qed.

Lemma sample_record_decodes : decode_decision_intent_record sample_record_bytes = Ok sample_record.
Proof.
  apply decode_record_iff. split; [|split; [exact sample_record_canonical|exact sample_record_fits]].
  exact (proj1 (proj2 (proj2 (proj2 (build_ok _ _ _ _ _ _ _ _ _ sample_record_built))))).
Qed.


Lemma built_record_durable_witness :
  decode_decision_intent_record sample_record_bytes = Ok sample_record
  /\ exists k, commit_observation sample_record sample_record_bytes = Ok k.
Proof.
  destruct (built_record_durable _ _ _ _ _ _ _ _ _ _ sample_record_built sample_record_canonical
    sample_record_fits) as (H & _ & _ & _ & _ & _ & Hk).
  split; [exact H|exact Hk].
Defined.

(** A document with every required field whose creation time is not a date *)
Definition impossible_date_record : document :=
  map (fun k => (k, JStr (if bool_decide (k = u "candidate_created_at")
                          then u "2026-02-30T00:00:00Z" else []))) record_required.

(** A record whose creation time has the timestamp pattern but names no date (30
    February) is not reported as [DecisionIntentValidationError]: the [PolicyError]
    of [_timestamp_ns] leaves [_decode_decision_intent_record] unconverted, while any
    other malformed field of the same document gives the validation error. *)
Theorem impossible_date_escapes :
  (exists raw, canonical_json (JObj impossible_date_record) = Ok raw
     /\ decode_decision_intent_record raw = Err (DecisionPolicyError PolicyError))
  /\ (exists raw, canonical_json (JObj (map (fun kv => (kv.1, JStr [])) impossible_date_record))
        = Ok raw
     /\ decode_decision_intent_record raw = Err DecisionIntentValidationError).
Proof.
  split; eexists; (split; [vm_compute; reflexivity|]); vm_compute; reflexivity.
Qed.
