(* ===== verification/ActuatorClient.v ===== *)
(** * The actuator intent client

    [ActuatorIntentClient] of [actions/client.py]: one POST of exact intent bytes
    and the classification of its outcome into a prepared plan, an exact terminal
    rejection, a retryable failure or a fatal one.  The HTTP library is a parameter,
    as in [PolicyClient]: header lookup and what the exchange returns.  [classified] says
    of every call and answer which outcome it has; [prepare_classified] that the client
    returns exactly that one. *)

From S2P Require Import Prelude Sha256 CanonicalJson JsonDecode Time Ipv4 Identities Contracts.
From S2P Require Import Egress Policy PolicyClient.
From S2P Require Import JsonSize.
Local Open Scope Z_scope.
Local Open Scope agmind_scope.

Definition MAX_ERROR_BYTES : Z := 4096.

(** [int] of a text with more digits raises [ValueError]. *)
Definition INT_MAX_STR_DIGITS : Z := 4300.

(** [_TERMINAL_REJECTIONS] *)
Definition TERMINAL_REJECTIONS : list (Z * bytes * pystr) :=
  let body reason := bstr "{" ++ [byte_of 34] ++ bstr "error" ++ [byte_of 34; byte_of 58; byte_of 34]
                     ++ bstr reason ++ [byte_of 34] ++ bstr "}" ++ [byte_of 10] in
  [(409, body "intent_conflict"%string, u "intent_conflict");
   (409, body "target_stale"%string, u "target_stale");
   (422, body "intent_rejected"%string, u "intent_rejected")].

(** [_TERMINAL_REJECTIONS.get((status, raw))] *)
Definition terminal_reason (status : Z) (raw : bytes) : option pystr :=
  match List.find (fun t => (t.1.1 =? status) && bool_decide (t.1.2 = raw)) TERMINAL_REJECTIONS with
  | Some t => Some t.2
  | None => None
  end.

(** [IntentDeliveryRejected.__init__] accepts the pairs of the table only. *)
Definition rejection_ok (status : Z) (reason : pystr) : bool :=
  existsb (fun t => (t.1.1 =? status) && bool_decide (t.2 = reason)) TERMINAL_REJECTIONS.

Definition reject (status : Z) (reason : pystr) : delivery_exn :=
  if rejection_ok status reason then IntentDeliveryRejected status reason
  else DeliveryPyError ValueError.

(** The streaming loop of [_read_bounded] *)
Fixpoint read_bounded_chunks (limit total : Z) (chunks : list (option bytes))
  : result delivery_exn bytes :=
  match chunks with
  | [] => Ok []
  | None :: _ => Err IntentDeliveryRetryable
  | Some chunk :: chunks =>
      let total := total + blen chunk in
      guard (total <=? limit) IntentDeliveryFatal ;;*
      let* rest := read_bounded_chunks limit total chunks in
      Ok (chunk ++ rest)
  end.

(** [_read_bounded]; a transport failure while streaming surfaces as retryable *)
Definition read_bounded (r : http_response) (limit : Z) : result delivery_exn bytes :=
  match body r with
  | inl raw => guard (blen raw <=? limit) IntentDeliveryFatal ;;* Ok raw
  | inr chunks => read_bounded_chunks limit 0 chunks
  end.

Section Client.
Context (get_list : list header -> pystr -> list pystr).

(** [_declared_length] *)
Definition declared_length (r : http_response) : result delivery_exn (option Z) :=
  match get_list (raw_headers r) (u "content-length") with
  | [] => Ok None
  | [value] =>
      guard (bool_decide (value <> []) && forallb is_digit value
             && negb (bool_decide (1 < length value)%nat && bool_decide (head value = Some 48)))
        IntentDeliveryFatal ;;*
      guard (Z.of_nat (length value) <=? INT_MAX_STR_DIGITS) (DeliveryPyError ValueError) ;;*
      let length := digits_value value in
      guard (length <=? MAX_WIRE_BYTES) IntentDeliveryFatal ;;*
      Ok (Some length)
  | _ => Err IntentDeliveryFatal
  end.

Definition retryable_status (status : Z) : bool :=
  bool_decide (status ∈ [408; 425; 429]) || ((500 <=? status) && (status <=? 599)).

Definition json_content (r : http_response) : bool :=
  bool_decide (get_list (raw_headers r) (u "content-type") = [u "application/json"]).

(** The body of a response, checked against its declared length *)
Definition bounded_body (r : http_response) (limit : Z) : result delivery_exn bytes :=
  let* declared := declared_length r in
  let* raw := read_bounded r limit in
  guard (match declared with Some n => n =? blen raw | None => true end) IntentDeliveryFatal ;;*
  Ok raw.

(** [_prepare_locked]; discarding an error body never changes the outcome *)
Definition prepare_locked (intent_canonical : bytes) (intent : TemporaryEgressDenyIntentV1)
    (exchange : bytes -> option http_response)
  : result delivery_exn PreparedTemporaryEgressDenyPlanV1 :=
  let* r := of_option IntentDeliveryRetryable (exchange intent_canonical) in
  guard (bool_decide (get_list (raw_headers r) (u "content-encoding") = []))
    IntentDeliveryFatal ;;*
  guard (negb (retryable_status (status_code r))) IntentDeliveryRetryable ;;*
  if negb (status_code r =? 200) then
    guard (json_content r) IntentDeliveryFatal ;;*
    let* raw := bounded_body r MAX_ERROR_BYTES in
    match terminal_reason (status_code r) raw with
    | Some reason => Err (reject (status_code r) reason)
    | None => Err IntentDeliveryFatal
    end
  else
    guard (json_content r) IntentDeliveryFatal ;;*
    let* raw := bounded_body r MAX_WIRE_BYTES in
    let* plan := decode_exact_plan raw in
    require_plan_binds_intent plan intent ;;*
    Ok plan.

(** [prepare]; [deadline] is the whole-call timeout expiring before the exchange ends *)
Definition prepare (closed deadline : bool) (exchange : bytes -> option http_response)
    (intent_canonical : bytes) : result delivery_exn PreparedTemporaryEgressDenyPlanV1 :=
  let* intent := decode_exact_intent intent_canonical in
  if deadline then Err IntentDeliveryRetryable
  else
    guard (negb closed) IntentDeliveryFatal ;;*
    prepare_locked intent_canonical intent exchange.

(** ** Bodies *)

(** The whole body arrived as [raw]. *)
Definition received (b : bytes + list (option bytes)) (raw : bytes) : Prop :=
  b = inl raw \/ exists chunks, b = inr (map Some chunks) /\ raw = concat chunks.

(** More than [limit] bytes arrived. *)
Definition too_long (limit : Z) (b : bytes + list (option bytes)) : Prop :=
  (exists raw, b = inl raw /\ limit < blen raw)
  \/ exists chunks rest, b = inr (map Some chunks ++ rest) /\ limit < blen (concat chunks).

(** The transport failed before more than [limit] bytes arrived. *)
Definition cut_off (limit : Z) (b : bytes + list (option bytes)) : Prop :=
  exists chunks rest, b = inr (map Some chunks ++ None :: rest) /\ blen (concat chunks) <= limit.

Lemma blen_app (x y : bytes) : blen (x ++ y) = blen x + blen y.
Proof. unfold blen. rewrite length_app. lia. Qed.

Lemma blen_nonneg (x : bytes) : 0 <= blen x.
Proof. unfold blen. lia. Qed.

Lemma read_chunks_app limit total chunks rest :
  total <= limit ->
  read_bounded_chunks limit total (map Some chunks ++ rest)
  = if total + blen (concat chunks) <=? limit
    then (let* raw := read_bounded_chunks limit (total + blen (concat chunks)) rest in Ok (concat chunks ++ raw))
    else Err IntentDeliveryFatal.
Proof.
  revert total. induction chunks as [|c chunks IH]; intros total Ht; cbn [map app concat read_bounded_chunks].
  - change (blen []) with 0. rewrite Z.add_0_r, (proj2 (Z.leb_le _ _) Ht).
    by destruct (read_bounded_chunks limit total rest).
  - rewrite blen_app, Z.add_assoc. unfold guard. pose proof (blen_nonneg (concat chunks)).
    destruct (Z.leb_spec (total + blen c) limit) as [Hc|Hc]; cbn [rbind].
    + rewrite IH by done. destruct (_ <=? limit); [|done].
      destruct (read_bounded_chunks limit _ rest); cbn [rbind]; [by rewrite app_assoc|done].
    + by rewrite (proj2 (Z.leb_gt _ _)) by lia.
Qed.

Lemma chunks_split (chunks : list (option bytes)) :
  exists got rest, chunks = map Some got ++ rest /\ (rest = [] \/ exists rest', rest = None :: rest').
Proof.
  induction chunks as [|[c|] chunks (got & rest & -> & H)]; [by exists [], []; auto| |].
  - by exists (c :: got), rest.
  - exists [], (None :: map Some got ++ rest). eauto.
Qed.

(** What reading makes of a body, for each of its fates *)
Inductive body_read (limit : Z) (b : bytes + list (option bytes)) : result delivery_exn bytes -> Prop :=
| body_whole raw : received b raw -> blen raw <= limit -> body_read limit b (Ok raw)
| body_lost : cut_off limit b -> body_read limit b (Err IntentDeliveryRetryable)
| body_excess : too_long limit b -> body_read limit b (Err IntentDeliveryFatal).

Lemma read_bounded_spec r limit : 0 <= limit -> body_read limit (body r) (read_bounded r limit).
Proof.
  intros Hl. unfold read_bounded. destruct (body r) as [raw|chunks].
  - unfold guard. destruct (Z.leb_spec (blen raw) limit); cbn [rbind].
    + apply body_whole; [by left|done].
    + apply body_excess. left. eauto.
  - destruct (chunks_split chunks) as (got & rest & -> & Hr). rewrite read_chunks_app by done.
    rewrite Z.add_0_l. destruct (Z.leb_spec (blen (concat got)) limit) as [Hc|Hc].
    + destruct Hr as [->|[rest' ->]]; cbn [read_bounded_chunks rbind].
      * rewrite !app_nil_r. apply body_whole; [right; by exists got|done].
      * apply body_lost. by exists got, rest'.
    + apply body_excess. right. by exists got, rest.
Qed.

(** ** Announced lengths *)

Definition length_header (r : http_response) : list pystr := get_list (raw_headers r) (u "content-length").

(** No length, or one in canonical decimal digits within 64 KiB *)
Definition announces (r : http_response) (d : option Z) : Prop :=
  match d with
  | None => length_header r = []
  | Some n => length_header r = [str_of_int n] /\ 0 <= n <= MAX_WIRE_BYTES
  end.

(** A canonical number with more digits than [int] reads *)
Definition announces_huge (r : http_response) : Prop :=
  exists n, 0 <= n /\ length_header r = [str_of_int n] /\ INT_MAX_STR_DIGITS < Z.of_nat (length (str_of_int n)).

Lemma canonical_digits value :
  value <> [] -> forallb is_digit value = true ->
  bool_decide (1 < length value)%nat && bool_decide (head value = Some 48) = false ->
  0 <= digits_value value /\ str_of_int (digits_value value) = value.
Proof.
  intros Hne Hd Hz. assert (Hds : digits value) by (eapply forallb_Forall; [|exact Hd]; done).
  pose proof (digits_value_range _ Hds) as [H0 _]. split; [done|]. unfold str_of_int.
  rewrite (proj2 (Z.ltb_ge _ _)) by done. apply dec_nonneg_digits; [done|].
  destruct value as [|c [|c' l]]; [done| |].
  - destruct (decide (c = 48)) as [->|]; [by left|right; eauto].
  - right. exists c, (c' :: l). split; [done|]. intros ->. by rewrite !bool_decide_eq_true_2 in Hz by (done || cbn; lia).
Qed.

Lemma str_of_int_digits n :
  0 <= n -> let s := str_of_int n in
  s <> [] /\ forallb is_digit s = true /\ digits_value s = n
  /\ bool_decide (1 < length s)%nat && bool_decide (head s = Some 48) = false.
Proof.
  intros Hn. cbv zeta. unfold str_of_int. rewrite (proj2 (Z.ltb_ge _ _)) by done.
  destruct (dec_nonneg_spec n Hn) as (Hv & Hd & Hh).
  assert (Hf : forallb is_digit (dec_nonneg n) = true)
    by (apply forallb_forall; intros c Hc%list_elem_of_In; rewrite Forall_forall in Hd; by apply Hd).
  destruct Hh as [[-> E]|(_ & c & l & E & Hc)]; rewrite E in *; split_and!; try done.
  apply andb_false_iff. right. apply bool_decide_eq_false. cbn. congruence.
Qed.

Lemma short_number n : 0 <= n <= MAX_WIRE_BYTES -> Z.of_nat (length (str_of_int n)) <= 5.
Proof.
  intros Hn. unfold str_of_int, MAX_WIRE_BYTES in *. rewrite (proj2 (Z.ltb_ge _ _)) by lia.
  pose proof (dec_nonneg_length 5 n ltac:(lia) ltac:(cbn; lia)). lia.
Qed.

(** What the declared length is, for each header *)
Inductive length_read (r : http_response) : result delivery_exn (option Z) -> Prop :=
| length_announced d : announces r d -> length_read r (Ok d)
| length_huge : announces_huge r -> length_read r (Err (DeliveryPyError ValueError))
| length_bad : (forall d, ~ announces r d) -> ~ announces_huge r -> length_read r (Err IntentDeliveryFatal).

Lemma declared_length_spec r : length_read r (declared_length r).
Proof.
  unfold declared_length. fold (length_header r).
  destruct (length_header r) as [|value [|value' values]] eqn:E; [by apply length_announced| |].
  2:{ apply length_bad; [intros [n|]; unfold announces; rewrite E; [by intros [? _]|done]|].
      intros (n & _ & H & _). by rewrite E in H. }
  unfold guard.
  destruct (bool_decide (value <> []) && forallb is_digit value
            && negb (bool_decide (1 < length value)%nat && bool_decide (head value = Some 48))) eqn:Hc; cbn [rbind].
  - apply andb_true_iff in Hc as [[Hne%bool_decide_eq_true Hd]%andb_true_iff Hz%negb_true_iff].
    destruct (canonical_digits value Hne Hd Hz) as [H0 Hs].
    destruct (Z.leb_spec (Z.of_nat (length value)) INT_MAX_STR_DIGITS) as [Hl|Hl]; cbn [rbind].
    + destruct (Z.leb_spec (digits_value value) MAX_WIRE_BYTES) as [Hm|Hm]; cbn [rbind].
      * apply length_announced. unfold announces. rewrite E, Hs. by split.
      * apply length_bad.
        -- intros [n|]; unfold announces; rewrite E; [|done]. intros [[= ->] Hn].
           rewrite (proj1 (proj2 (proj2 (str_of_int_digits n ltac:(lia))))) in Hm. lia.
        -- intros (n & _ & H & Hn). rewrite E in H. injection H as ->. lia.
    + apply length_huge. exists (digits_value value). rewrite E, Hs. by split_and!.
  - apply length_bad.
    + intros [n|]; unfold announces; rewrite E; [|done]. intros [[= ->] Hn].
      destruct (str_of_int_digits n ltac:(lia)) as (H1 & H2 & _ & H3).
      by rewrite (bool_decide_eq_true_2 _ H1), H2, H3 in Hc.
    + intros (n & Hn & H & _). rewrite E in H. injection H as ->.
      destruct (str_of_int_digits n Hn) as (H1 & H2 & _ & H3). by rewrite (bool_decide_eq_true_2 _ H1), H2, H3 in Hc.
Qed.

(** ** The framed body *)

(** A body of at most [limit] bytes that arrived as announced *)
Definition whole (r : http_response) (limit : Z) (raw : bytes) : Prop :=
  received (body r) raw /\ blen raw <= limit /\ exists d, announces r d /\ forall n, d = Some n -> n = blen raw.

(** A body that is refused: the length is not a length, or is not that of the body, or the
    body is too long *)
Definition misframed (r : http_response) (limit : Z) : Prop :=
  ((forall d, ~ announces r d) /\ ~ announces_huge r)
  \/ (exists d, announces r d) /\ too_long limit (body r)
  \/ exists n raw, announces r (Some n) /\ received (body r) raw /\ blen raw <= limit /\ n <> blen raw.

Inductive framed (r : http_response) (limit : Z) : result delivery_exn bytes -> Prop :=
| framed_whole raw : whole r limit raw -> framed r limit (Ok raw)
| framed_lost d : announces r d -> cut_off limit (body r) -> framed r limit (Err IntentDeliveryRetryable)
| framed_huge : announces_huge r -> framed r limit (Err (DeliveryPyError ValueError))
| framed_bad : misframed r limit -> framed r limit (Err IntentDeliveryFatal).

Lemma bounded_body_spec r limit : 0 <= limit -> framed r limit (bounded_body r limit).
Proof.
  intros Hl. unfold bounded_body. destruct (declared_length_spec r) as [d Hd|Hd|Hd Hh]; cbn [rbind];
    [|by apply framed_huge|apply framed_bad; by left].
  destruct (read_bounded_spec r limit Hl) as [raw Hr Hlen|Hc|Ht]; cbn [rbind].
  - destruct d as [n|]; unfold guard; [destruct (Z.eqb_spec n (blen raw)) as [->|Hn]|]; cbn [rbind].
    + apply framed_whole. split_and!; [done|done|]. exists (Some (blen raw)). split; [done|]. by intros ? [= <-].
    + apply framed_bad. right. right. by exists n, raw.
    + apply framed_whole. split_and!; [done|done|]. exists None. by split.
  - by eapply framed_lost.
  - apply framed_bad. right. left. eauto.
Qed.

(** ** Models are written *)

Lemma uuid_chars s : UUID4 s = true -> Forall (fun c => 0 <= c < 128) s.
Proof.
  unfold UUID4. rewrite <- (join_split 45 s) at 2.
  destruct (split_on 45 s) as [|a [|b [|c [|d [|e [|? ?]]]]]]; try done. unfold is_hex. intros H. breflect.
  cbn [join_on]. repeat (apply Forall_app_2; [by apply hex_chars|apply Forall_cons_2; [lia|]]). by apply hex_chars.
Qed.

Lemma utf8_chars s : Forall (fun c => 0 <= c < 128) s -> is_Some (utf8_encode s).
Proof. intros Hs. destruct (utf8_encode_some s (valid_str_ascii s Hs)) as [l ->]. done. Qed.

Lemma utf8_prefixed p n s :
  forallb (fun c => (0 <=? c) && (c <? 128)) (u p) = true -> is_prefixed_hex p n s = true -> is_Some (utf8_encode s).
Proof.
  intros Hp H. apply (within_prefixed p n s); [|done].
  eapply forallb_Forall; [|exact Hp]. cbv beta. intros c Hc. breflect. lia.
Qed.

Lemma utf8_hex n s : is_hex n s = true -> is_Some (utf8_encode s).
Proof. intros H. by apply (within_hex n s). Qed.

Lemma utf8_uuid s : UUID4 s = true -> is_Some (utf8_encode s).
Proof. intros H. by apply utf8_chars, uuid_chars. Qed.

Lemma utf8_time s : valid_timestamp s = true -> is_Some (utf8_encode s).
Proof. intros H. by apply (within_timestamp s). Qed.

Lemma text_encodable k s : is_Some (utf8_encode k) -> is_Some (utf8_encode s) -> field_encodable (k, Some (JStr s)) = true.
Proof. intros Hk Hs. unfold field_encodable. cbn [fst snd encodable]. by rewrite !bool_decide_eq_true_2. Qed.

Lemma list_encodable k l :
  is_Some (utf8_encode k) -> Forall (fun s => is_Some (utf8_encode s)) l ->
  field_encodable (k, Some (JArr (map JStr l))) = true.
Proof.
  intros Hk Hl. unfold field_encodable. cbn [fst snd encodable]. rewrite bool_decide_eq_true_2 by done. cbn [andb].
  induction Hl as [|s l Hs _ IH]; [done|]. cbn [map forallb encodable] in *. by rewrite bool_decide_eq_true_2.
Qed.

Lemma number_encodable k lo hi z :
  is_Some (utf8_encode k) -> MIN_CANONICAL_INTEGER <= lo -> hi <= MAX_CANONICAL_INTEGER -> lo <= z <= hi ->
  field_encodable (k, Some (JInt z)) = true.
Proof.
  intros Hk Hlo Hhi Hz. unfold field_encodable. cbn [fst snd encodable]. rewrite bool_decide_eq_true_2 by done.
  apply range_check. lia.
Qed.

Lemma utf8_forall (p : pystr -> bool) l :
  (forall s, p s = true -> is_Some (utf8_encode s)) -> forallb p l = true -> Forall (fun s => is_Some (utf8_encode s)) l.
Proof. apply forallb_Forall. Qed.

Lemma utf8_ipv4 s : valid_ipv4 s = true -> is_Some (utf8_encode s).
Proof. intros H. by apply (within_ipv4 s). Qed.

Lemma utf8_short s : short_ascii s = true -> is_Some (utf8_encode s).
Proof. intros H. by apply (within_ascii 64 1 s). Qed.

(** One field of an intent or a plan *)
Ltac encodable_field :=
  match goal with
  | |- field_encodable (_, Some (JInt _)) = true =>
      eapply number_encodable; [by eexists| | |eassumption]; done
  | |- field_encodable (_, Some (JArr _)) = true => apply list_encodable; [by eexists|done]
  | |- field_encodable (_, Some (JStr _)) = true => apply text_encodable; [by eexists|];
      first [by eexists | eapply utf8_uuid; eassumption | eapply utf8_time; eassumption | eapply utf8_hex; eassumption
            | eapply utf8_ipv4; eassumption | eapply utf8_short; eassumption
            | eapply utf8_prefixed; [|eassumption]; done]
  end.

Definition encodable_fields (fields : list (pystr * option json)) : Prop :=
  Forall (fun kv => field_encodable kv = true) fields.

Lemma egress_encodable x : egress_valid x -> encodable_fields (egress_fields x).
Proof.
  intros [(H1 & H2 & H3 & _) Hok]. unfold egress_ok, HEX64, repo_digests_ok in Hok. breflect.
  assert (Forall (fun s => is_Some (utf8_encode s)) (x_repo_digests x))
    by (eapply utf8_forall; [|eassumption]; intros s Hs; by apply (within_utf8 256 1 s)).
  assert (Forall (fun s => is_Some (utf8_encode s)) (x_evidence_ids x))
    by (eapply utf8_forall; [|eassumption]; intros s Hs; by apply (utf8_prefixed "evt_" 64 s)).
  repeat (apply Forall_cons_2; [encodable_field|]). constructor.
Qed.

Lemma plan_encodable p : plan_valid p -> encodable_fields (plan_fields p).
Proof.
  intros (Hx & H1 & H2 & H3 & Hok & _). unfold plan_ok, HEX64 in Hok. breflect.
  unfold plan_fields. apply Forall_cons_2; [encodable_field|]. apply Forall_app. split; [by apply egress_encodable|].
  repeat (apply Forall_cons_2; [encodable_field|]). constructor.
Qed.

Lemma dump_written fields : encodable_fields fields -> exists raw, canonical_json (JObj (dump_of fields)) = Ok raw.
Proof.
  intros H. pose proof (canonical_json_accepts (JObj (dump_of fields))) as Ha. rewrite encodable_dump in Ha.
  assert (E : forallb field_encodable fields = true) by (apply forallb_forall; intros kv Hkv%list_elem_of_In;
    unfold encodable_fields in H; rewrite Forall_forall in H; by apply H).
  by rewrite E in Ha.
Qed.

(** The exact bytes of an intent, of a plan *)
Definition intent_bytes (raw : bytes) (x : TemporaryEgressDenyIntentV1) : Prop :=
  egress_valid x /\ canonical_json (JObj (intent_dump x)) = Ok raw /\ blen raw <= MAX_WIRE_BYTES.

Definition plan_bytes (raw : bytes) (p : PreparedTemporaryEgressDenyPlanV1) : Prop :=
  plan_valid p /\ canonical_json (JObj (plan_dump p)) = Ok raw /\ blen raw <= MAX_WIRE_BYTES.

Lemma decode_exact_fatal {T} required (validate : document -> result py_exn T) fields (valid : T -> Prop) raw e :
  (forall d x, validate d = Ok x -> valid x) -> (forall x, valid x -> encodable_fields (fields x)) ->
  decode_exact required validate (fun x => dump_of (fields x)) raw = Err e -> e = IntentDeliveryFatal.
Proof.
  intros Hsound Henc. unfold decode_exact, fatal, guard.
  destruct ((1 <=? _) && _); cbn [rbind]; [|congruence].
  destruct (decode_strict _ _ _ _) as [x|] eqn:Ed; cbn [catch_with rbind]; [|congruence].
  unfold decode_strict in Ed. do 3 apply rbind_ok in Ed as (? & _ & Ed).
  destruct (dump_written (fields x) (Henc x (Hsound _ _ Ed))) as [c ->]. cbn [catch_with rbind].
  destruct (bool_decide _); cbn [rbind]; congruence.
Qed.

Lemma intent_validate_sound d x : intent_validate d = Ok x -> egress_valid x.
Proof.
  unfold intent_validate. intros H. do 2 apply rbind_ok in H as (? & _ & H). by apply read_egress_sound in H.
Qed.

(** Sent bytes are an exact intent, or refused as fatal. *)
Lemma exact_intent_cases raw :
  (exists x, decode_exact_intent raw = Ok x /\ intent_bytes raw x)
  \/ (decode_exact_intent raw = Err IntentDeliveryFatal /\ forall x, ~ intent_bytes raw x).
Proof.
  destruct (decode_exact_intent raw) as [x|e] eqn:E.
  - left. exists x. split; [done|]. by apply decode_exact_intent_iff.
  - right. pose proof E as E'. unfold decode_exact_intent in E'.
    apply (decode_exact_fatal intent_keys intent_validate intent_fields egress_valid) in E' as ->.
    + split; [done|]. intros x Hx. apply decode_exact_intent_iff in Hx. congruence.
    + exact intent_validate_sound.
    + intros x Hx. apply Forall_cons_2; [encodable_field|by apply egress_encodable].
Qed.

Lemma exact_plan_cases raw :
  (exists p, decode_exact_plan raw = Ok p /\ plan_bytes raw p)
  \/ (decode_exact_plan raw = Err IntentDeliveryFatal /\ forall p, ~ plan_bytes raw p).
Proof.
  destruct (decode_exact_plan raw) as [p|e] eqn:E.
  - left. exists p. split; [done|]. by apply decode_exact_plan_iff.
  - right. pose proof E as E'. unfold decode_exact_plan in E'.
    apply (decode_exact_fatal plan_keys plan_validate plan_fields plan_valid) in E' as ->.
    + split; [done|]. intros p Hp. apply decode_exact_plan_iff in Hp. congruence.
    + exact plan_validate_sound.
    + exact plan_encodable.
Qed.

(** ** Each fate has one outcome *)

Lemma body_read_exact r limit o : 0 <= limit -> body_read limit (body r) o -> read_bounded r limit = o.
Proof.
  intros Hl Ho. unfold read_bounded. destruct Ho as [raw Hr Hle|Hc|Ht].
  - destruct Hr as [->|(chunks & -> & ->)]; [by unfold guard; rewrite (proj2 (Z.leb_le _ _) Hle)|].
    rewrite <- (app_nil_r (map Some chunks)), read_chunks_app, Z.add_0_l, (proj2 (Z.leb_le _ _) Hle) by done.
    cbn [read_bounded_chunks rbind]. by rewrite app_nil_r.
  - destruct Hc as (chunks & rest & -> & Hle).
    by rewrite read_chunks_app, Z.add_0_l, (proj2 (Z.leb_le _ _) Hle) by done.
  - destruct Ht as [(raw & -> & Hlt)|(chunks & rest & -> & Hlt)].
    + unfold guard. by rewrite (proj2 (Z.leb_gt _ _) Hlt).
    + by rewrite read_chunks_app, Z.add_0_l, (proj2 (Z.leb_gt _ _) Hlt) by done.
Qed.

Lemma announces_unique r d d' : announces r d -> announces r d' -> d = d'.
Proof.
  destruct d as [n|], d' as [n'|]; unfold announces; try done.
  - intros [E Hn] [E' Hn']. rewrite E in E'. injection E' as E'. f_equal. apply str_of_int_inj; [lia..|done].
  - intros [E _] E'. by rewrite E in E'.
  - intros E [E' _]. by rewrite E in E'.
Qed.

Lemma announces_not_huge r d : announces r d -> ~ announces_huge r.
Proof.
  intros Hd (n & Hn & E & Hl). destruct d as [m|]; unfold announces in Hd.
  - destruct Hd as [E' Hm%short_number]. rewrite E in E'. injection E' as E'.
    rewrite E' in Hl. unfold INT_MAX_STR_DIGITS in Hl. lia.
  - by rewrite E in Hd.
Qed.

Lemma length_read_exact r o : length_read r o -> declared_length r = o.
Proof.
  intros Ho. destruct Ho as [d Hd|Hh|Hn Hh], (declared_length_spec r) as [d' Hd'|Hh'|Hn' Hh'];
    try done; try (by destruct (announces_not_huge r _ ltac:(eassumption))); try (by edestruct Hn'); try (by edestruct Hn).
  by rewrite (announces_unique r d d').
Qed.

Lemma framed_exact r limit o : 0 <= limit -> framed r limit o -> bounded_body r limit = o.
Proof.
  intros Hl Ho. unfold bounded_body.
  destruct Ho as [raw (Hr & Hle & d & Hd & Hn)|d Hd Hc|Hh|[[Hn Hh]|[[(d & Hd) Ht]|(n & raw & Hd & Hr & Hle & Hn)]]].
  - rewrite (length_read_exact r (Ok d)) by (by constructor). cbn [rbind].
    rewrite (body_read_exact r limit (Ok raw)) by (done || by constructor). cbn [rbind].
    destruct d as [n|]; [|done]. rewrite (Hn n eq_refl). unfold guard. by rewrite Z.eqb_refl.
  - rewrite (length_read_exact r (Ok d)) by (by constructor). cbn [rbind].
    by rewrite (body_read_exact r limit (Err IntentDeliveryRetryable)) by (done || by constructor).
  - by rewrite (length_read_exact r (Err (DeliveryPyError ValueError))) by (by constructor).
  - by rewrite (length_read_exact r (Err IntentDeliveryFatal)) by (by constructor).
  - rewrite (length_read_exact r (Ok d)) by (by constructor). cbn [rbind].
    by rewrite (body_read_exact r limit (Err IntentDeliveryFatal)) by (done || by constructor).
  - rewrite (length_read_exact r (Ok (Some n))) by (by constructor). cbn [rbind].
    rewrite (body_read_exact r limit (Ok raw)) by (done || by constructor). cbn [rbind]. unfold guard.
    by rewrite (proj2 (Z.eqb_neq _ _) Hn).
Qed.

(** ** Classification *)

Lemma terminal_reason_iff status raw reason :
  terminal_reason status raw = Some reason <-> (status, raw, reason) ∈ TERMINAL_REJECTIONS.
Proof.
  unfold terminal_reason. split.
  - destruct (List.find _ TERMINAL_REJECTIONS) as [[[s b] t]|] eqn:E; [|done]. intros [= <-].
    apply find_some in E as [Hin Ht]. cbn [fst snd] in Ht. breflect. subst. by apply list_elem_of_In.
  - unfold TERMINAL_REJECTIONS. intros Hin. repeat (apply elem_of_cons in Hin as [[= -> -> ->]|Hin]; [by vm_compute|]).
    by apply elem_of_nil in Hin.
Qed.

Lemma reject_table status raw reason :
  (status, raw, reason) ∈ TERMINAL_REJECTIONS -> reject status reason = IntentDeliveryRejected status reason.
Proof.
  intros Hin. unfold reject, rejection_ok.
  assert (Hb : existsb (fun t => (t.1.1 =? status) && bool_decide (t.2 = reason)) TERMINAL_REJECTIONS = true);
    [|by rewrite Hb].
  apply existsb_exists. exists (status, raw, reason). split; [by apply list_elem_of_In|]. cbn [fst snd].
  by rewrite Z.eqb_refl, bool_decide_eq_true_2.
Qed.

(** The statuses of an actuator that is overloaded or failing *)
Definition transient (status : Z) : Prop := status = 408 \/ status = 425 \/ status = 429 \/ 500 <= status <= 599.

Lemma retryable_transient status : retryable_status status = true <-> transient status.
Proof.
  unfold retryable_status, transient. rewrite orb_true_iff, bool_decide_eq_true, andb_true_iff, !Z.leb_le.
  rewrite !elem_of_cons, elem_of_nil. tauto.
Qed.

Lemma transient_or_not status : transient status \/ ~ transient status.
Proof. rewrite <- retryable_transient. destruct (retryable_status status); auto. Qed.

Section Classified.
Context (closed deadline : bool) (exchange : bytes -> option http_response) (sent : bytes).

(** The intent is sent. *)
Definition posted (x : TemporaryEgressDenyIntentV1) : Prop :=
  intent_bytes sent x /\ deadline = false /\ closed = false.

(** The answer, in the clear and final *)
Definition answered (r : http_response) : Prop :=
  exchange sent = Some r /\ get_list (raw_headers r) (u "content-encoding") = [].

Definition final (r : http_response) : Prop := answered r /\ ~ transient (status_code r).

(** The answer whose body is looked at *)
Definition examined (r : http_response) : Prop :=
  final r /\ get_list (raw_headers r) (u "content-type") = [u "application/json"].

Definition body_limit (r : http_response) : Z := if status_code r =? 200 then MAX_WIRE_BYTES else MAX_ERROR_BYTES.

(** The outcome of every call: the intent, the client, the transport, and the answer by its
    coding, status, type, framing and body *)
Inductive classified : result delivery_exn PreparedTemporaryEgressDenyPlanV1 -> Prop :=
| not_an_intent : (forall x, ~ intent_bytes sent x) -> classified (Err IntentDeliveryFatal)
| deadline_over x : intent_bytes sent x -> deadline = true -> classified (Err IntentDeliveryRetryable)
| client_closed x : intent_bytes sent x -> deadline = false -> closed = true -> classified (Err IntentDeliveryFatal)
| no_answer x : posted x -> exchange sent = None -> classified (Err IntentDeliveryRetryable)
| encoded_answer x r : posted x -> exchange sent = Some r ->
    get_list (raw_headers r) (u "content-encoding") <> [] -> classified (Err IntentDeliveryFatal)
| transient_answer x r : posted x -> answered r -> transient (status_code r) ->
    classified (Err IntentDeliveryRetryable)
| other_type x r : posted x -> final r -> get_list (raw_headers r) (u "content-type") <> [u "application/json"] ->
    classified (Err IntentDeliveryFatal)
| body_broken x r d : posted x -> examined r -> announces r d -> cut_off (body_limit r) (body r) ->
    classified (Err IntentDeliveryRetryable)
| body_refused x r : posted x -> examined r -> misframed r (body_limit r) -> classified (Err IntentDeliveryFatal)
| length_unreadable x r : posted x -> examined r -> announces_huge r -> classified (Err (DeliveryPyError ValueError))
| terminal x r raw reason : posted x -> examined r -> status_code r <> 200 -> whole r MAX_ERROR_BYTES raw ->
    (status_code r, raw, reason) ∈ TERMINAL_REJECTIONS ->
    classified (Err (IntentDeliveryRejected (status_code r) reason))
| unknown_answer x r raw : posted x -> examined r -> status_code r <> 200 -> whole r MAX_ERROR_BYTES raw ->
    (forall reason, (status_code r, raw, reason) ∉ TERMINAL_REJECTIONS) -> classified (Err IntentDeliveryFatal)
| prepared_plan x r raw plan : posted x -> examined r -> status_code r = 200 -> whole r MAX_WIRE_BYTES raw ->
    plan_bytes raw plan -> p_egress plan = x -> classified (Ok plan)
| other_plan x r raw : posted x -> examined r -> status_code r = 200 -> whole r MAX_WIRE_BYTES raw ->
    (forall plan, plan_bytes raw plan -> p_egress plan <> x) -> classified (Err IntentDeliveryFatal).

(** The classification of an answer by its body *)
Lemma body_classified x r :
  posted x -> examined r ->
  classified
    (if negb (status_code r =? 200) then
       let* raw := bounded_body r MAX_ERROR_BYTES in
       match terminal_reason (status_code r) raw with
       | Some reason => Err (reject (status_code r) reason)
       | None => Err IntentDeliveryFatal
       end
     else
       let* raw := bounded_body r MAX_WIRE_BYTES in
       let* plan := decode_exact_plan raw in
       require_plan_binds_intent plan x ;;* Ok plan).
Proof.
  intros Hx Hr. assert (Hb : framed r (body_limit r) (bounded_body r (body_limit r)))
    by (apply bounded_body_spec; unfold body_limit; by destruct (_ =? _)).
  unfold body_limit in Hb. destruct (Z.eqb_spec (status_code r) 200) as [Es|Es]; cbn [negb].
  - destruct Hb as [raw Hw|d Hd Hc|Hh|Hm]; cbn [rbind].
    + destruct (exact_plan_cases raw) as [(plan & -> & Hp)|[-> Hn]]; cbn [rbind];
        [|eapply other_plan; try done; intros plan Hp; by destruct (Hn plan)].
      unfold require_plan_binds_intent, guard. case_bool_decide as E; cbn [rbind]; [by eapply prepared_plan|].
      eapply other_plan; try done. intros plan' Hp'. apply decode_exact_plan_iff in Hp, Hp'. congruence.
    + eapply body_broken; try done. unfold body_limit. by rewrite Es.
    + by eapply length_unreadable.
    + eapply body_refused; try done. unfold body_limit. by rewrite Es.
  - assert (El : body_limit r = MAX_ERROR_BYTES) by (unfold body_limit; by rewrite (proj2 (Z.eqb_neq _ _) Es)).
    destruct Hb as [raw Hw|d Hd Hc|Hh|Hm]; cbn [rbind].
    + destruct (terminal_reason (status_code r) raw) as [reason|] eqn:Et.
      * apply terminal_reason_iff in Et. rewrite (reject_table _ _ _ Et). by eapply terminal.
      * eapply unknown_answer; try done. intros reason Hin%terminal_reason_iff. congruence.
    + eapply body_broken; try done. by rewrite El.
    + by eapply length_unreadable.
    + eapply body_refused; try done. by rewrite El.
Qed.

Lemma prepare_is_classified : classified (prepare closed deadline exchange sent).
Proof.
  unfold prepare. destruct (exact_intent_cases sent) as [(x & -> & Hx)|[-> Hn]]; cbn [rbind]; [|by constructor].
  destruct deadline eqn:Ed; [by eapply deadline_over|]. unfold guard.
  destruct closed eqn:Ec; cbn [negb rbind]; [by eapply client_closed|].
  assert (Hpost : posted x) by done. unfold prepare_locked.
  destruct (exchange sent) as [r|] eqn:Er; cbn [of_option rbind]; [|by eapply no_answer].
  unfold guard. case_bool_decide as He; cbn [rbind]; [|by eapply encoded_answer].
  destruct (retryable_status (status_code r)) eqn:Et; cbn [negb rbind].
  { apply retryable_transient in Et. by eapply transient_answer. }
  assert (Hf : final r) by (split; [done|]; rewrite <- retryable_transient; by rewrite Et).
  pose proof (body_classified x r Hpost) as Hb. unfold json_content.
  case_bool_decide as Hj; cbn [rbind].
  - specialize (Hb (conj Hf Hj)). by destruct (status_code r =? 200).
  - by destruct (status_code r =? 200); eapply other_type.
Qed.
(** An intent that is sent is answered by the locked call. *)
Lemma prepare_posted x : posted x -> prepare closed deadline exchange sent = prepare_locked sent x exchange.
Proof. intros (Hx%decode_exact_intent_iff & -> & ->). unfold prepare. by rewrite Hx. Qed.

(** An examined answer is judged by its status and body. *)
Lemma locked_examined x r :
  examined r ->
  prepare_locked sent x exchange
  = let* raw := bounded_body r (body_limit r) in
    if status_code r =? 200 then let* plan := decode_exact_plan raw in require_plan_binds_intent plan x ;;* Ok plan
    else match terminal_reason (status_code r) raw with
         | Some reason => Err (reject (status_code r) reason)
         | None => Err IntentDeliveryFatal
         end.
Proof.
  intros [[[Er He] Ht] Hj]. unfold prepare_locked, json_content, guard, body_limit. rewrite Er. cbn [of_option rbind].
  rewrite !bool_decide_eq_true_2 by done. rewrite <- retryable_transient in Ht. apply not_true_is_false in Ht.
  rewrite Ht. cbn [rbind negb]. by destruct (status_code r =? 200).
Qed.

Lemma locked_framed x r o :
  examined r -> framed r (body_limit r) (Err o) -> prepare_locked sent x exchange = Err o.
Proof.
  intros Hr Hf. rewrite (locked_examined x r Hr).
  assert (Hl : 0 <= body_limit r) by (unfold body_limit; by destruct (_ =? _)).
  by rewrite (framed_exact r _ _ Hl Hf).
Qed.

Lemma locked_refused x r raw :
  examined r -> status_code r <> 200 -> whole r MAX_ERROR_BYTES raw ->
  prepare_locked sent x exchange
  = match terminal_reason (status_code r) raw with
    | Some reason => Err (reject (status_code r) reason)
    | None => Err IntentDeliveryFatal
    end.
Proof.
  intros Hr Hs Hw. rewrite (locked_examined x r Hr). unfold body_limit. rewrite (proj2 (Z.eqb_neq _ _) Hs).
  by rewrite (framed_exact r MAX_ERROR_BYTES (Ok raw)) by (done || by constructor).
Qed.

Lemma locked_accepted x r raw :
  examined r -> status_code r = 200 -> whole r MAX_WIRE_BYTES raw ->
  prepare_locked sent x exchange = let* plan := decode_exact_plan raw in require_plan_binds_intent plan x ;;* Ok plan.
Proof.
  intros Hr Hs Hw. rewrite (locked_examined x r Hr). unfold body_limit. rewrite Hs, Z.eqb_refl.
  by rewrite (framed_exact r MAX_WIRE_BYTES (Ok raw)) by (done || by constructor).
Qed.

Lemma locked_early x r :
  exchange sent = Some r ->
  (get_list (raw_headers r) (u "content-encoding") <> [] -> prepare_locked sent x exchange = Err IntentDeliveryFatal)
  /\ (answered r -> transient (status_code r) -> prepare_locked sent x exchange = Err IntentDeliveryRetryable)
  /\ (final r -> get_list (raw_headers r) (u "content-type") <> [u "application/json"] ->
      prepare_locked sent x exchange = Err IntentDeliveryFatal).
Proof.
  intros Er. unfold prepare_locked, json_content, guard. rewrite Er. cbn [of_option rbind]. split_and!.
  - intros He. by rewrite bool_decide_eq_false_2.
  - intros [_ He] Ht%retryable_transient. by rewrite bool_decide_eq_true_2, Ht by done.
  - intros [[_ He] Ht] Hj. rewrite <- retryable_transient in Ht. apply not_true_is_false in Ht.
    rewrite bool_decide_eq_true_2, Ht by done. cbn [rbind negb]. rewrite bool_decide_eq_false_2 by done.
    by destruct (status_code r =? 200).
Qed.

Lemma classified_prepared o : classified o -> prepare closed deadline exchange sent = o.
Proof.
  intros Ho. destruct Ho as [Hn|x Hx Hd|x Hx Hd Hc|x Hp He|x r Hp Er He|x r Hp Ha Ht|x r Hp Hf Hj|x r d Hp Hr Hd Hc
    |x r Hp Hr Hm|x r Hp Hr Hh|x r raw reason Hp Hr Hs Hw Hin|x r raw Hp Hr Hs Hw Hn|x r raw plan Hp Hr Hs Hw Hb Hx
    |x r raw Hp Hr Hs Hw Hn];
    try rewrite (prepare_posted x Hp).
  - unfold prepare. destruct (exact_intent_cases sent) as [(x & _ & Hx)|[-> _]]; [by destruct (Hn x)|done].
  - apply decode_exact_intent_iff in Hx. unfold prepare. by rewrite Hx, Hd.
  - apply decode_exact_intent_iff in Hx. unfold prepare. by rewrite Hx, Hd, Hc.
  - unfold prepare_locked. by rewrite He.
  - by apply (proj1 (locked_early x r Er)).
  - by apply (proj1 (proj2 (locked_early x r (proj1 Ha)))).
  - by apply (proj2 (proj2 (locked_early x r (proj1 (proj1 Hf))))).
  - apply (locked_framed x r _ Hr). by eapply framed_lost.
  - apply (locked_framed x r _ Hr). by apply framed_bad.
  - apply (locked_framed x r _ Hr). by apply framed_huge.
  - rewrite (locked_refused x r raw) by done. by rewrite (proj2 (terminal_reason_iff _ _ _) Hin), (reject_table _ _ _ Hin).
  - rewrite (locked_refused x r raw) by done. destruct (terminal_reason _ _) as [reason|] eqn:E; [|done].
    by apply terminal_reason_iff in E as ?%Hn.
  - rewrite (locked_accepted x r raw) by done. apply decode_exact_plan_iff in Hb. rewrite Hb. cbn [rbind].
    unfold require_plan_binds_intent, guard. by rewrite bool_decide_eq_true_2.
  - rewrite (locked_accepted x r raw) by done. destruct (exact_plan_cases raw) as [(plan & -> & Hb)|[-> _]]; [|done].
    cbn [rbind]. unfold require_plan_binds_intent, guard. by rewrite bool_decide_eq_false_2 by (by apply Hn).
Qed.
End Classified.

(** C29: a delivery has exactly the outcome that the bytes sent, the client, the transport
    and the answer call for.  Bytes that are not the exact bytes of an intent, and a closed
    client, are fatal; an expired deadline or no answer is retryable.  An answer in a content
    encoding is fatal; one with status 408, 425, 429 or 5xx is retryable; of the others, one
    that is not exactly [application/json] is fatal, one whose stream breaks within its limit
    (64 KiB for status 200, else 4 KiB) is retryable, and one too long, with a length that is
    not canonical or not that of its body is fatal.  A whole body with another status than 200
    is a terminal rejection exactly when its status and bytes are one of the three pairs of
    the protocol, and fatal otherwise.  With status 200 it yields the plan whose exact bytes it
    is when the plan's egress is the intent sent, and is fatal otherwise.  A length of more
    digits than [int] reads escapes as [ValueError]. *)
Theorem prepare_classified closed deadline exchange sent outcome :
  prepare closed deadline exchange sent = outcome <-> classified closed deadline exchange sent outcome.
Proof. split; [intros <-; apply prepare_is_classified|apply classified_prepared]. Qed.

Lemma prepare_plan_binds closed deadline exchange raw plan :
  prepare closed deadline exchange raw = Ok plan ->
  plan_valid plan /\ decode_exact_intent raw = Ok (p_egress plan).
Proof.
  intros H. pose proof (prepare_is_classified closed deadline exchange raw) as Hc. rewrite H in Hc.
  inversion Hc as [| | | | | | | | | | | |x r b p (Hi & _) _ _ _ Hb Hx|]. subst.
  split; [apply Hb|by apply decode_exact_intent_iff].
Qed.

Lemma prepare_rejection closed deadline exchange raw status reason :
  prepare closed deadline exchange raw = Err (IntentDeliveryRejected status reason) ->
  rejection_ok status reason = true.
Proof.
  intros H. pose proof (prepare_is_classified closed deadline exchange raw) as Hc. rewrite H in Hc.
  inversion Hc as [| | | | | | | | | |x r b t _ _ _ _ Hin| | |]. subst. apply reject_table in Hin. unfold reject in Hin.
  by destruct (rejection_ok _ reason).
Qed.
End Client.
