(* ===== verification/IntentDelivery.v ===== *)
(** * Intent delivery

    [IntentDeliveryStateMachine] of [actions/state_machine.py]: the outbox that sends
    each durable intent to the actuator and stores exactly one outcome for it, a
    prepared-plan receipt or a terminal quarantine.

    The two tables are lists of rows under the declared uniqueness constraints; the
    database, the marker file and the actuator may fail at every call the code makes,
    which is an argument of each operation ([faults]).  An uncommitted transaction
    leaves no trace. *)

From S2P Require Import Prelude Sha256 CanonicalJson JsonDecode Time Ipv4 Identities Contracts.
From S2P Require Import EvidenceStore Candidates Egress Policy PolicyClient DecisionIntent.
From S2P Require Import ActuatorClient.
Local Open Scope Z_scope.
Local Open Scope agmind_scope.

(** ** Receipts and quarantines *)

Definition RECEIPT_SCHEMA : pystr := u "agmind.prepared-plan-receipt.v1".
Definition QUARANTINE_SCHEMA : pystr := u "agmind.terminal-intent-quarantine.v1".
Definition INTENT_HASH_DOMAIN : bytes := bstr "AGMIND_ACTUATOR_INTENT_V1" ++ NUL.
Definition RECEIPT_HASH_DOMAIN : bytes := bstr "AGMIND_PREPARED_PLAN_RECEIPT_V1" ++ NUL.
Definition QUARANTINE_HASH_DOMAIN : bytes := bstr "AGMIND_TERMINAL_INTENT_QUARANTINE_V1" ++ NUL.

(** [_TERMINAL_REASON_STATUS] *)
Definition TERMINAL_REASON_STATUS : list (pystr * Z) :=
  [(u "intent_conflict", 409); (u "target_stale", 409); (u "intent_rejected", 422)].

Definition reason_status (reason : pystr) : option Z :=
  match List.find (fun kv => bool_decide (kv.1 = reason)) TERMINAL_REASON_STATUS with
  | Some kv => Some kv.2
  | None => None
  end.

(** [_intent_sha256] *)
Definition intent_sha256 (raw : bytes) : pystr := sha256_hex (INTENT_HASH_DOMAIN ++ raw).

Definition hashed (domain : bytes) (doc : document) : result delivery_exn pystr :=
  let* canonical := catch_with DeliveryPyError (canonical_json (JObj doc)) in
  Ok (sha256_hex (domain ++ canonical)).

(** [_receipt_sha256] and [_quarantine_sha256] *)
Definition receipt_sha256 : document -> result delivery_exn pystr := hashed RECEIPT_HASH_DOMAIN.
Definition quarantine_sha256 : document -> result delivery_exn pystr :=
  hashed QUARANTINE_HASH_DOMAIN.

Record PreparedPlanReceipt := mkReceipt {
  q_candidate_id : pystr; q_record_sha256 : pystr; q_intent_id : pystr;
  q_intent_sha256 : pystr; q_intent_canonical : bytes; q_plan_id : pystr; q_plan_hash : pystr;
  q_plan_canonical : bytes; q_receipt_sha256 : pystr }.

#[export] Instance PreparedPlanReceipt_eq_dec : EqDecision PreparedPlanReceipt.
Proof. solve_decision. Defined.

Record QuarantinedIntentReceipt := mkQuarantine {
  z_candidate_id : pystr; z_record_sha256 : pystr; z_intent_id : pystr;
  z_intent_sha256 : pystr; z_intent_canonical : bytes; z_status_code : Z; z_reason_code : pystr;
  z_quarantine_sha256 : pystr }.

#[export] Instance QuarantinedIntentReceipt_eq_dec : EqDecision QuarantinedIntentReceipt.
Proof. solve_decision. Defined.

(** [PreparedPlanReceipt._hash_document] with the decoded parts *)
Definition receipt_document (q : PreparedPlanReceipt) (x : TemporaryEgressDenyIntentV1)
    (p : PreparedTemporaryEgressDenyPlanV1) : document :=
  [(u "schema_version", JStr RECEIPT_SCHEMA); (u "candidate_id", JStr (q_candidate_id q));
   (u "decision_record_sha256", JStr (q_record_sha256 q));
   (u "intent_id", JStr (q_intent_id q)); (u "intent_sha256", JStr (q_intent_sha256 q));
   (u "intent", JObj (intent_dump x)); (u "plan_id", JStr (q_plan_id q));
   (u "plan_hash", JStr (q_plan_hash q)); (u "plan", JObj (plan_dump p))].

Definition quarantine_document (z : QuarantinedIntentReceipt) (x : TemporaryEgressDenyIntentV1)
  : document :=
  [(u "schema_version", JStr QUARANTINE_SCHEMA); (u "candidate_id", JStr (z_candidate_id z));
   (u "decision_record_sha256", JStr (z_record_sha256 z));
   (u "intent_id", JStr (z_intent_id z)); (u "intent_sha256", JStr (z_intent_sha256 z));
   (u "intent", JObj (intent_dump x)); (u "status_code", JInt (z_status_code z));
   (u "reason_code", JStr (z_reason_code z))].

Definition delivery_check (b : bool) : result delivery_exn unit :=
  guard b (DeliveryPyError ValueError).

(** [PreparedPlanReceipt.__post_init__] *)
Definition receipt_check (q : PreparedPlanReceipt) : result delivery_exn unit :=
  delivery_check (is_prefixed_hex "cand_" 64 (q_candidate_id q) && HEX64 (q_record_sha256 q)
    && is_prefixed_hex "int_" 32 (q_intent_id q) && HEX64 (q_intent_sha256 q)
    && is_prefixed_hex "plan_" 32 (q_plan_id q) && HEX64 (q_plan_hash q)
    && HEX64 (q_receipt_sha256 q)) ;;*
  let* x := decode_exact_intent (q_intent_canonical q) in
  let* p := decode_exact_plan (q_plan_canonical q) in
  require_plan_binds_intent p x ;;*
  let* expected := receipt_sha256 (receipt_document q x p) in
  delivery_check (bool_decide (x_intent_id x = q_intent_id q)
    && bool_decide (x_intent_id (p_egress p) = q_intent_id q)
    && bool_decide (p_plan_id p = q_plan_id q) && bool_decide (p_plan_hash p = q_plan_hash q)
    && bool_decide (q_intent_sha256 q = intent_sha256 (q_intent_canonical q))
    && bool_decide (q_receipt_sha256 q = expected)).

(** [QuarantinedIntentReceipt.__post_init__] *)
Definition quarantine_check (z : QuarantinedIntentReceipt) : result delivery_exn unit :=
  delivery_check (is_prefixed_hex "cand_" 64 (z_candidate_id z) && HEX64 (z_record_sha256 z)
    && is_prefixed_hex "int_" 32 (z_intent_id z) && HEX64 (z_intent_sha256 z)
    && bool_decide (reason_status (z_reason_code z) = Some (z_status_code z))
    && HEX64 (z_quarantine_sha256 z)) ;;*
  let* x := decode_exact_intent (z_intent_canonical z) in
  let* expected := quarantine_sha256 (quarantine_document z x) in
  delivery_check (bool_decide (x_intent_id x = z_intent_id z)
    && bool_decide (z_intent_sha256 z = intent_sha256 (z_intent_canonical z))
    && bool_decide (z_quarantine_sha256 z = expected)).

(** [_build_receipt] *)
Definition build_receipt (k : DecisionIntentCommit) (intent_canonical : bytes)
    (plan : PreparedTemporaryEgressDenyPlanV1) : result delivery_exn PreparedPlanReceipt :=
  let* plan_canonical := catch_with DeliveryPyError (canonical_json (JObj (plan_dump plan))) in
  let* x := decode_exact_intent intent_canonical in
  let* p := decode_exact_plan plan_canonical in
  require_plan_binds_intent p x ;;*
  let unsealed := mkReceipt (k_candidate_id k) (k_record_sha256 k) (x_intent_id x)
    (intent_sha256 intent_canonical) intent_canonical (p_plan_id p) (p_plan_hash p)
    plan_canonical [] in
  let* sha := receipt_sha256 (receipt_document unsealed x p) in
  let q := mkReceipt (k_candidate_id k) (k_record_sha256 k) (x_intent_id x)
    (intent_sha256 intent_canonical) intent_canonical (p_plan_id p) (p_plan_hash p)
    plan_canonical sha in
  receipt_check q ;;* Ok q.

(** [_build_quarantine] *)
Definition build_quarantine (k : DecisionIntentCommit) (intent_canonical : bytes) (status : Z)
    (reason : pystr) : result delivery_exn QuarantinedIntentReceipt :=
  let* x := decode_exact_intent intent_canonical in
  let unsealed := mkQuarantine (k_candidate_id k) (k_record_sha256 k) (x_intent_id x)
    (intent_sha256 intent_canonical) intent_canonical status reason [] in
  let* sha := quarantine_sha256 (quarantine_document unsealed x) in
  let z := mkQuarantine (k_candidate_id k) (k_record_sha256 k) (x_intent_id x)
    (intent_sha256 intent_canonical) intent_canonical status reason sha in
  quarantine_check z ;;* Ok z.

Inductive outcome := Prepared (q : PreparedPlanReceipt) | Quarantined (z : QuarantinedIntentReceipt).

#[export] Instance outcome_eq_dec : EqDecision outcome.
Proof. solve_decision. Defined.

Definition o_intent_id (o : outcome) : pystr :=
  match o with Prepared q => q_intent_id q | Quarantined z => z_intent_id z end.
Definition o_candidate_id (o : outcome) : pystr :=
  match o with Prepared q => q_candidate_id q | Quarantined z => z_candidate_id z end.

Definition outcome_check (o : outcome) : result delivery_exn unit :=
  match o with Prepared q => receipt_check q | Quarantined z => quarantine_check z end.

(** [_receipt_matches] and [_quarantine_matches] *)
Definition outcome_matches (o : outcome) (k : DecisionIntentCommit) (raw : bytes) : bool :=
  match o with
  | Prepared q =>
      bool_decide (q_candidate_id q = k_candidate_id k)
      && bool_decide (q_record_sha256 q = k_record_sha256 k)
      && bool_decide (Some (q_intent_id q) = k_intent_id k)
      && bool_decide (q_intent_sha256 q = intent_sha256 raw)
      && bool_decide (q_intent_canonical q = raw)
  | Quarantined z =>
      bool_decide (z_candidate_id z = k_candidate_id k)
      && bool_decide (z_record_sha256 z = k_record_sha256 k)
      && bool_decide (Some (z_intent_id z) = k_intent_id k)
      && bool_decide (z_intent_sha256 z = intent_sha256 raw)
      && bool_decide (z_intent_canonical z = raw)
  end.

(** What [deliver] returns *)
Inductive delivered := PlanReady (p : PreparedTemporaryEgressDenyPlanV1)
| IntentQuarantined (z : QuarantinedIntentReceipt).

(** [outcome.plan()], or the quarantine itself *)
Definition outcome_result (o : outcome) : result delivery_exn delivered :=
  match o with
  | Prepared q => let* p := decode_exact_plan (q_plan_canonical q) in Ok (PlanReady p)
  | Quarantined z => Ok (IntentQuarantined z)
  end.

(** [_validated_commit] *)
Definition validated_commit (k : DecisionIntentCommit) : result delivery_exn bytes :=
  let* r := fatal (decode_decision_intent_record (k_record_canonical k)) in
  let* observed := fatal (commit_observation r (k_record_canonical k)) in
  guard (bool_decide (observed = k) && bool_decide (k_effect k = ManualApprovalRequired))
    IntentDeliveryFatal ;;*
  match k_intent_canonical k, k_intent_id k with
  | Some raw, Some identifier =>
      let* x := decode_exact_intent raw in
      guard (bool_decide (x_intent_id x = identifier)) IntentDeliveryFatal ;;*
      Ok raw
  | _, _ => Err IntentDeliveryFatal
  end.

(** ** The database *)

Record database := mkDatabase {
  receipts : list PreparedPlanReceipt; quarantines : list QuarantinedIntentReceipt;
  read_only_flag : bool }.

(** The outcome of [COMMIT]: done, or failed with the transaction applied or not *)
Inductive commit_outcome := Committed | CommitFailed (applied : bool).

(** Which of the calls of one operation fail *)
Record faults := mkFaults {
  lookup_fails : bool; begin_fails : bool; relookup_fails : bool; insert_fails : bool;
  commit_result : commit_outcome; fsync_fails : bool; flag_fails : bool; marker_fails : bool }.

Definition no_faults : faults := mkFaults false false false false Committed false false false.

(** The state of the machine: the durable part, the marker file, and the object's own
    flags *)
Record machine := mkMachine {
  db : database; marker : bool; m_read_only : bool; m_closed : bool }.

(** The rows of both tables for an intent or its candidate, at most two of each *)
Definition rows_for (d : database) (intent_id candidate_id : pystr) : list outcome :=
  map Prepared (take 2 (List.filter (fun q => bool_decide (q_intent_id q = intent_id)
    || bool_decide (q_candidate_id q = candidate_id)) (receipts d)))
  ++ map Quarantined (take 2 (List.filter (fun z => bool_decide (z_intent_id z = intent_id)
    || bool_decide (z_candidate_id z = candidate_id)) (quarantines d))).

(** [_existing_outcome]; a row is read back through [_receipt_from_row] or
    [_quarantine_from_row] *)
Definition existing_outcome (d : database) (intent_id candidate_id : pystr)
  : result delivery_exn (option outcome) :=
  match rows_for d intent_id candidate_id with
  | [] => Ok None
  | [o] => fatal (outcome_check o) ;;* Ok (Some o)
  | _ => Err IntentDeliveryFatal
  end.

(** [INSERT], under the uniqueness constraints of the table *)
Definition insert_outcome (d : database) (o : outcome) : option database :=
  match o with
  | Prepared q =>
      if existsb (fun r => bool_decide (q_intent_id r = q_intent_id q)
           || bool_decide (q_candidate_id r = q_candidate_id q)
           || bool_decide (q_plan_id r = q_plan_id q)
           || bool_decide (q_receipt_sha256 r = q_receipt_sha256 q)) (receipts d)
      then None else Some (mkDatabase (receipts d ++ [q]) (quarantines d) (read_only_flag d))
  | Quarantined z =>
      if existsb (fun r => bool_decide (z_intent_id r = z_intent_id z)
           || bool_decide (z_candidate_id r = z_candidate_id z)
           || bool_decide (z_quarantine_sha256 r = z_quarantine_sha256 z)) (quarantines d)
      then None else Some (mkDatabase (receipts d) (quarantines d ++ [z]) (read_only_flag d))
  end.

Definition set_flag (d : database) : database :=
  mkDatabase (receipts d) (quarantines d) true.

(** [_durably_latch_read_only]: the flag in the database, else the marker file *)
Definition durably_latch (d : database) (mark : bool) (f : faults)
  : database * bool * result delivery_exn unit :=
  if negb (flag_fails f) then (set_flag d, mark, Ok tt)
  else if negb (marker_fails f) then (d, true, Ok tt)
  else (d, mark, Err IntentDeliveryFatal).

(** [_latch_read_only] followed by [raise IntentDeliveryFatal]: a latch that is not
    durable raises the same class *)
Definition latch (m : machine) (f : faults) : machine * result delivery_exn delivered :=
  let '(d, mark, _) := durably_latch (db m) (marker m) f in
  (mkMachine d mark true (m_closed m), Err IntentDeliveryFatal).

(** [_require_matching_outcome] *)
Definition require_matching_outcome (m : machine) (o : outcome) (k : DecisionIntentCommit)
    (raw : bytes) (f : faults) : machine * result delivery_exn delivered :=
  if outcome_matches o k raw then (m, outcome_result o) else latch m f.

Definition with_db (m : machine) (d : database) : machine :=
  mkMachine d (marker m) (m_read_only m) (m_closed m).

(** The handler of [_persist] for [IntentDeliveryFatal]: latch unless latched already;
    other failures of [outcome.plan()] propagate *)
Definition settle (m : machine) (r : result delivery_exn delivered) (f : faults)
  : machine * result delivery_exn delivered :=
  match r with
  | Err IntentDeliveryFatal => if m_read_only m then (m, r) else latch m f
  | _ => (m, r)
  end.

(** [_persist] *)
Definition persist (m : machine) (o : outcome) (k : DecisionIntentCommit) (raw : bytes)
    (f : faults) : machine * result delivery_exn delivered :=
  if begin_fails f || relookup_fails f then latch m f
  else
    match existing_outcome (db m) (o_intent_id o) (o_candidate_id o) with
    | Err _ => latch m f
    | Ok (Some existing) =>
        match require_matching_outcome m existing k raw f with
        | (m', Ok r) =>
            match commit_result f with
            | Committed => (m', Ok r)
            | CommitFailed _ => latch m' f
            end
        | (m', Err e) => settle m' (Err e) f
        end
    | Ok None =>
        match (if insert_fails f then None else insert_outcome (db m) o) with
        | None => latch m f
        | Some d =>
            match commit_result f with
            | CommitFailed applied => latch (if applied then with_db m d else m) f
            | Committed =>
                if fsync_fails f then latch (with_db m d) f
                else settle (with_db m d) (outcome_result o) f
            end
        end
    end.

Section Deliver.
(** The actuator client, as what [prepare] returns for the bytes sent *)
Context (prepare : bytes -> result delivery_exn PreparedTemporaryEgressDenyPlanV1).

(** The outcome of one exchange; other failures propagate *)
Definition exchange_outcome (k : DecisionIntentCommit) (raw : bytes)
  : result delivery_exn outcome :=
  match prepare raw with
  | Ok plan => let* q := build_receipt k raw plan in Ok (Prepared q)
  | Err (IntentDeliveryRejected status reason) =>
      let* z := build_quarantine k raw status reason in Ok (Quarantined z)
  | Err e => Err e
  end.

(** [deliver] *)
Definition deliver (m : machine) (k : DecisionIntentCommit) (f : faults)
  : machine * result delivery_exn delivered :=
  if m_closed m || m_read_only m then (m, Err IntentDeliveryFatal)
  else
    match validated_commit k with
    | Err e => (m, Err e)
    | Ok raw =>
        if lookup_fails f then latch m f
        else
          match existing_outcome (db m) (default [] (k_intent_id k)) (k_candidate_id k) with
          | Err _ => latch m f
          | Ok (Some o) => require_matching_outcome m o k raw f
          | Ok None =>
              match exchange_outcome k raw with
              | Err e => (m, Err e)
              | Ok o => persist m o k raw f
              end
          end
    end.
End Deliver.

(** [close] *)
Definition close_machine (m : machine) : machine :=
  mkMachine (db m) (marker m) (m_read_only m) true.

(** [_validate_all_outcomes] *)
Definition validate_all_outcomes (d : database) : bool :=
  forallb (fun q => is_ok (receipt_check q)) (receipts d)
  && forallb (fun z => is_ok (quarantine_check z)) (quarantines d)
  && negb (existsb (fun q =>
       bool_decide (q_intent_id q ∈ map z_intent_id (quarantines d))
       || bool_decide (q_candidate_id q ∈ map z_candidate_id (quarantines d))) (receipts d)).

(** [_open_database] on an existing database, and the machine it makes *)
Definition open_machine (d : database) (mark : bool) (f : faults) : option machine :=
  let corrupt := negb (validate_all_outcomes d) in
  if corrupt && negb mark && negb (read_only_flag d) then
    match durably_latch d mark f with
    | (d', mark', Ok _) => Some (mkMachine d' mark' true false)
    | (_, _, Err _) => None
    end
  else Some (mkMachine d mark (corrupt || mark || read_only_flag d) false).

(** [_initialize_database]: a new database *)
Definition empty_database : database := mkDatabase [] [] false.

(** ** Executions: deliveries, closing, and restarts on the same durable state *)

Inductive step : machine -> machine -> Prop :=
| step_deliver prepare m k f m' r :
    deliver prepare m k f = (m', r) -> step m m'
| step_close m : step m (close_machine m)
| step_restart m f m' : open_machine (db m) (marker m) f = Some m' -> step m m'.

Inductive steps : machine -> machine -> Prop :=
| steps_refl m : steps m m
| steps_step m m' m'' : step m m' -> steps m' m'' -> steps m m''.

Definition initial : machine := mkMachine empty_database false false false.

(** ** The invariant of the tables *)

Definition outcomes (d : database) : list outcome :=
  map Prepared (receipts d) ++ map Quarantined (quarantines d).

Definition db_ok (d : database) : Prop :=
  Forall (fun o => outcome_check o = Ok tt) (outcomes d)
  /\ NoDup (map o_intent_id (outcomes d)) /\ NoDup (map o_candidate_id (outcomes d))
  /\ NoDup (map q_plan_id (receipts d)).

Definition selects (intent_id candidate_id : pystr) (o : outcome) : bool :=
  bool_decide (o_intent_id o = intent_id) || bool_decide (o_candidate_id o = candidate_id).

Lemma filter_map {A B} (p : B -> bool) (g : A -> B) l :
  List.filter p (map g l) = map g (List.filter (fun x => p (g x)) l).
Proof. induction l as [|x l IH]; cbn; [done|]. destruct (p (g x)); cbn; by rewrite IH. Qed.

Lemma in_take {A} n (x : A) l : In x (take n l) -> In x l.
Proof. intros H. rewrite <- (take_drop n l). apply in_or_app. by left. Qed.

Lemma rows_for_spec d i c :
  map Prepared (List.filter (fun q => selects i c (Prepared q)) (receipts d))
  ++ map Quarantined (List.filter (fun z => selects i c (Quarantined z)) (quarantines d))
  = List.filter (selects i c) (outcomes d).
Proof. unfold outcomes. by rewrite List.filter_app, !filter_map. Qed.

(** The two bounded selects see every row when there is at most one. *)
Lemma rows_for_small d i c :
  (length (List.filter (selects i c) (outcomes d)) <= 1)%nat ->
  rows_for d i c = List.filter (selects i c) (outcomes d).
Proof.
  rewrite <- rows_for_spec. rewrite length_app, !length_map. intros H. unfold rows_for.
  rewrite !firstn_all2 by (cbn [selects o_intent_id o_candidate_id] in *; unfold selects in H;
    cbn [o_intent_id o_candidate_id] in H; lia). done.
Qed.

Lemma rows_for_nil d i c :
  rows_for d i c = [] -> Forall (fun o => o_intent_id o <> i /\ o_candidate_id o <> c) (outcomes d).
Proof.
  intros H. assert (E : List.filter (selects i c) (outcomes d) = []).
  { rewrite <- rows_for_spec. unfold rows_for in H. apply app_eq_nil in H as [H1 H2].
    apply map_eq_nil in H1, H2.
    assert (Hn : forall A (l : list A), take 2 l = [] -> l = []) by (intros ? []; done).
    apply Hn in H1, H2. unfold selects. cbn [o_intent_id o_candidate_id]. by rewrite H1, H2. }
  apply List.Forall_forall. intros o Ho.
  destruct (selects i c o) eqn:Es.
  { assert (Hin : In o (List.filter (selects i c) (outcomes d))) by (by apply filter_In).
    by rewrite E in Hin. }
  unfold selects in Es. apply orb_false_iff in Es as [H1 H2]. breflect. done.
Qed.

Lemma existing_none d i c : existing_outcome d i c = Ok None -> rows_for d i c = [].
Proof.
  unfold existing_outcome. destruct (rows_for d i c) as [|o [|? ?]]; try done.
  intros H. by apply rbind_ok in H as (? & _ & H).
Qed.

Lemma existing_some d i c o :
  existing_outcome d i c = Ok (Some o) -> o ∈ outcomes d /\ outcome_check o = Ok tt.
Proof.
  unfold existing_outcome. destruct (rows_for d i c) as [|o' [|? ?]] eqn:E; try done.
  intros H. apply rbind_ok in H as ([] & Hc%catch_ok & H). injection H as <-. split; [|done].
  unfold rows_for in E. unfold outcomes.
  assert (Hin : o' ∈ rows_for d i c) by (unfold rows_for; rewrite E; constructor).
  unfold rows_for in Hin. apply elem_of_app in Hin as [Hin|Hin]; apply elem_of_app; [left|right];
    apply list_elem_of_fmap in Hin as (x & -> & Hx); apply list_elem_of_fmap; exists x;
    (split; [done|]); apply list_elem_of_In; apply list_elem_of_In in Hx;
    eapply filter_In, in_take, Hx.
Qed.

(** A row is found by its own keys. *)
Lemma filter_unique {A} (f g : A -> pystr) (o : A) l :
  NoDup (map f l) -> NoDup (map g l) -> o ∈ l ->
  List.filter (fun x => bool_decide (f x = f o) || bool_decide (g x = g o)) l = [o].
Proof.
  intros Hf Hg Ho.
  assert (Hnone : forall l', f o ∉ map f l' -> g o ∉ map g l' ->
    List.filter (fun x => bool_decide (f x = f o) || bool_decide (g x = g o)) l' = []).
  { induction l' as [|x l' IH]; cbn [map List.filter]; [done|]. intros Hf' Hg'.
    apply not_elem_of_cons in Hf' as [Hf1 Hf2]. apply not_elem_of_cons in Hg' as [Hg1 Hg2].
    rewrite !bool_decide_eq_false_2 by congruence. cbn [orb]. by apply IH. }
  induction l as [|x l IH]; [by apply elem_of_nil in Ho|]. cbn [map List.filter] in *.
  apply NoDup_cons in Hf as [Hf1 Hf2]. apply NoDup_cons in Hg as [Hg1 Hg2].
  apply elem_of_cons in Ho as [->|Ho].
  - rewrite bool_decide_eq_true_2 by done. cbn [orb]. f_equal. by apply Hnone.
  - assert (In1 : f o ∈ map f l) by (apply list_elem_of_fmap; by exists o).
    assert (In2 : g o ∈ map g l) by (apply list_elem_of_fmap; by exists o).
    rewrite !bool_decide_eq_false_2 by congruence. cbn [orb]. by apply IH.
Qed.

Lemma existing_found d o :
  db_ok d -> o ∈ outcomes d ->
  existing_outcome d (o_intent_id o) (o_candidate_id o) = Ok (Some o).
Proof.
  intros (Hc & Hi & Hk & _) Ho.
  assert (E : List.filter (selects (o_intent_id o) (o_candidate_id o)) (outcomes d) = [o])
    by (by apply filter_unique).
  unfold existing_outcome. rewrite rows_for_small by (rewrite E; done). rewrite E.
  rewrite Forall_forall in Hc. by rewrite (Hc o Ho).
Qed.

Lemma insert_perm d o d' :
  insert_outcome d o = Some d' ->
  outcomes d' ≡ₚ o :: outcomes d /\ read_only_flag d' = read_only_flag d.
Proof.
  unfold insert_outcome, outcomes. destruct o as [q|z]; destruct (existsb _ _); try done;
    intros [= <-]; cbn [receipts quarantines read_only_flag]; (split; [|done]);
    rewrite map_app; cbn [map].
  - rewrite <- app_assoc. cbn [app]. symmetry. apply Permutation_middle.
  - rewrite app_assoc. symmetry. apply Permutation_cons_append.
Qed.

Lemma insert_ok d o d' :
  db_ok d -> outcome_check o = Ok tt -> rows_for d (o_intent_id o) (o_candidate_id o) = [] ->
  insert_outcome d o = Some d' -> db_ok d'.
Proof.
  intros (Hc & Hi & Hk & Hp) Ho Hrows%rows_for_nil Hins.
  destruct (insert_perm _ _ _ Hins) as [Hperm _].
  assert (Hpi := Permutation_map o_intent_id Hperm).
  assert (Hpk := Permutation_map o_candidate_id Hperm).
  rewrite Forall_forall in Hrows, Hc. unfold db_ok. split_and!.
  - apply Forall_forall. intros o' Ho'. rewrite Hperm in Ho'.
    apply elem_of_cons in Ho' as [->|Ho']; [done|by apply Hc].
  - rewrite Hpi. cbn [map]. constructor; [|done]. intros (o' & E & Ho')%list_elem_of_fmap.
    by apply Hrows in Ho' as [? _].
  - rewrite Hpk. cbn [map]. constructor; [|done]. intros (o' & E & Ho')%list_elem_of_fmap.
    by apply Hrows in Ho' as [_ ?].
  - unfold insert_outcome in Hins. destruct o as [q|z]; destruct (existsb _ _) eqn:Ex; try done;
      injection Hins as <-; cbn [receipts]; [|done].
    rewrite map_app. cbn [map]. rewrite <- Permutation_cons_append. constructor; [|done].
    intros (r & E & Hr)%list_elem_of_fmap. apply not_true_iff_false in Ex. apply Ex.
    apply existsb_exists. exists r. split; [by apply list_elem_of_In|].
    rewrite (bool_decide_eq_true_2 (q_plan_id r = q_plan_id q)) by done.
    rewrite orb_true_r. apply orb_true_l.
Qed.

(** ** What one delivery does *)

Definition same_rows (d d' : database) : Prop :=
  receipts d' = receipts d /\ quarantines d' = quarantines d.

(** [m'] is [m] with the rows of [d], latched read-only; the latch is durable unless
    both the flag and the marker failed. *)
Definition latched (m : machine) (d : database) (f : faults) (m' : machine) : Prop :=
  same_rows d (db m') /\ m_read_only m' = true /\ m_closed m' = m_closed m
  /\ (read_only_flag (db m) || marker m = true -> read_only_flag (db m') || marker m' = true)
  /\ (flag_fails f && marker_fails f = false -> read_only_flag (db m') || marker m' = true).

(** A new outcome, inserted where none of its keys was known *)
Definition stored (m : machine) (o : outcome) (d : database) : Prop :=
  outcome_check o = Ok tt /\ rows_for (db m) (o_intent_id o) (o_candidate_id o) = []
  /\ insert_outcome (db m) o = Some d.

(** The possible effects of a delivery on the machine *)
Inductive effect (k : DecisionIntentCommit) (raw : bytes) (f : faults) (m : machine)
  : machine -> result delivery_exn delivered -> Prop :=
| effect_refused e : effect k raw f m m (Err e)
| effect_replayed o out :
    o ∈ outcomes (db m) -> outcome_check o = Ok tt -> outcome_matches o k raw = true ->
    outcome_result o = Ok out -> effect k raw f m m (Ok out)
| effect_latched m' : latched m (db m) f m' -> effect k raw f m m' (Err IntentDeliveryFatal)
| effect_stored o d out :
    stored m o d -> outcome_matches o k raw = true -> outcome_result o = Ok out ->
    effect k raw f m (with_db m d) (Ok out)
| effect_stored_latched o d m' :
    stored m o d -> outcome_matches o k raw = true -> latched m d f m' ->
    effect k raw f m m' (Err IntentDeliveryFatal).

Lemma latch_spec m d f :
  read_only_flag d = read_only_flag (db m) ->
  exists m', latch (with_db m d) f = (m', Err IntentDeliveryFatal) /\ latched m d f m'.
Proof.
  intros Hf. unfold latch, durably_latch, with_db. cbn [db marker m_closed].
  destruct (flag_fails f) eqn:Eflag, (marker_fails f) eqn:Emark; cbn [negb];
    eexists; (split; [reflexivity|]); unfold latched, same_rows;
    cbn [db marker m_read_only m_closed read_only_flag receipts quarantines set_flag orb];
    rewrite ?Hf, ?Eflag, ?Emark, ?orb_true_r; split_and!; try done.
Qed.

Lemma latch_same m f :
  exists m', latch m f = (m', Err IntentDeliveryFatal) /\ latched m (db m) f m'.
Proof.
  destruct (latch_spec m (db m) f eq_refl) as (m' & H & Hl). exists m'. split; [|done].
  by destruct m.
Qed.

(** A checked outcome always yields its result. *)
Lemma outcome_result_ok o : outcome_check o = Ok tt -> exists out, outcome_result o = Ok out.
Proof.
  destruct o as [q|z]; cbn [outcome_check outcome_result]; [|by eexists].
  unfold receipt_check. intros H. apply rbind_ok in H as (? & _ & H).
  apply rbind_ok in H as (y & _ & H). apply rbind_ok in H as (p & Hp & _). rewrite Hp. by eexists.
Qed.

Lemma require_matching_effect m o k raw f m' r :
  o ∈ outcomes (db m) -> outcome_check o = Ok tt ->
  require_matching_outcome m o k raw f = (m', r) -> effect k raw f m m' r.
Proof.
  intros Ho Hc. unfold require_matching_outcome. destruct (outcome_matches o k raw) eqn:Em.
  - destruct (outcome_result_ok o Hc) as [out Eo]. rewrite Eo. intros [= <- <-].
    by eapply effect_replayed.
  - destruct (latch_same m f) as (m2 & -> & Hl). intros [= <- <-]. by apply effect_latched.
Qed.

Lemma persist_effect m o k raw f m' r :
  outcome_check o = Ok tt -> outcome_matches o k raw = true ->
  persist m o k raw f = (m', r) -> effect k raw f m m' r.
Proof.
  intros Hc Hm. unfold persist. destruct (latch_same m f) as (ml & El & Hl).
  assert (Hlatch : (ml, Err IntentDeliveryFatal) = (m', r) -> effect k raw f m m' r)
    by (intros [= <- <-]; by apply effect_latched).
  destruct (begin_fails f || relookup_fails f); [rewrite El; exact Hlatch|].
  destruct (existing_outcome (db m) (o_intent_id o) (o_candidate_id o)) as [[e|]|e] eqn:Ee;
    [| |rewrite El; exact Hlatch].
  - apply existing_some in Ee as [Hin Hec]. unfold require_matching_outcome.
    destruct (outcome_matches e k raw) eqn:Eme.
    + destruct (outcome_result_ok e Hec) as [out Eo]. rewrite Eo.
      destruct (commit_result f); [|rewrite El; exact Hlatch]. intros [= <- <-]. by eapply effect_replayed.
    + rewrite El. unfold settle. rewrite (proj1 (proj2 Hl)). exact Hlatch.
  - apply existing_none in Ee. destruct (insert_fails f); [rewrite El; exact Hlatch|].
    destruct (insert_outcome (db m) o) as [d|] eqn:Ei; [|rewrite El; exact Hlatch].
    assert (Hst : stored m o d) by done.
    destruct (insert_perm _ _ _ Ei) as [_ Hflag].
    destruct (latch_spec m d f Hflag) as (md & Ed & Hd).
    destruct (commit_result f) as [|[]].
    + destruct (fsync_fails f).
      * rewrite Ed. intros [= <- <-]. by eapply effect_stored_latched.
      * destruct (outcome_result_ok o Hc) as [out Eo]. rewrite Eo. cbn [settle].
        intros [= <- <-]. by eapply effect_stored.
    + rewrite Ed. intros [= <- <-]. by eapply effect_stored_latched.
    + rewrite El; exact Hlatch.
Qed.

Lemma validated_commit_ok k raw :
  validated_commit k = Ok raw ->
  exists x, decode_exact_intent raw = Ok x /\ k_intent_id k = Some (x_intent_id x)
    /\ k_intent_canonical k = Some raw
    /\ exists r, decode_decision_intent_record (k_record_canonical k) = Ok r
       /\ commit_observation r (k_record_canonical k) = Ok k /\ r_intent r = Some x
       /\ k_effect k = ManualApprovalRequired.
Proof.
  unfold validated_commit. intros H. apply rbind_ok in H as (r & Hr%catch_ok & H).
  apply rbind_ok in H as (k' & Hk%catch_ok & H). apply rbind_ok in H as (u1 & Hg%guard_ok & H).
  breflect. subst k'. destruct (k_intent_canonical k) as [c|] eqn:Ec; [|done].
  destruct (k_intent_id k) as [i|] eqn:Ei; [|done].
  apply rbind_ok in H as (x & Hx & H). apply rbind_ok in H as (u2 & Hi%guard_ok & H).
  apply bool_decide_eq_true in Hi. injection H as <-. exists x. split_and!; [done|by f_equal|done|].
  exists r. split_and!; try done.
  pose proof (proj1 (decode_record_iff _ _) Hr) as (Hv & _).
  destruct Hv as (_ & _ & _ & _ & _ & _ & Hw & _).
  pose proof Hk as Hk2. unfold commit_observation in Hk2.
  destruct (r_intent r) as [y|] eqn:Ey; cbn [rbind] in Hk2.
  - destruct (proj1 (wire_contract_iff y) (Hw y eq_refl)) as (raw & Hraw & Hdec).
    rewrite Hraw in Hk2. cbn [rbind] in Hk2. apply rbind_ok in Hk2 as (? & _ & Hk2).
    assert (Ek : k_intent_canonical k = Some raw) by (by injection Hk2 as <-).
    rewrite Ec in Ek. injection Ek as ->. congruence.
  - apply rbind_ok in Hk2 as (? & _ & Hk2).
    assert (Ek : k_intent_canonical k = None) by (by injection Hk2 as <-). congruence.
Qed.

(** The outcome built from an exchange is valid and belongs to the commit. *)
Lemma exchange_outcome_ok prepare k raw o x :
  decode_exact_intent raw = Ok x -> k_intent_id k = Some (x_intent_id x) ->
  exchange_outcome prepare k raw = Ok o ->
  outcome_check o = Ok tt /\ outcome_matches o k raw = true
  /\ Some (o_intent_id o) = k_intent_id k /\ o_candidate_id o = k_candidate_id k.
Proof.
  intros Hx Hk. unfold exchange_outcome. destruct (prepare raw) as [plan|[]]; try done.
  - intros H. apply rbind_ok in H as (q & Hq & H). injection H as <-.
    unfold build_receipt in Hq. apply rbind_ok in Hq as (pc & _ & Hq).
    apply rbind_ok in Hq as (y & Hy & Hq). rewrite Hx in Hy. injection Hy as <-.
    apply rbind_ok in Hq as (p & _ & Hq). apply rbind_ok in Hq as (? & _ & Hq).
    apply rbind_ok in Hq as (sha & _ & Hq). apply rbind_ok in Hq as ([] & Hc & Hq).
    injection Hq as <-. split_and!; try done.
    cbn. rewrite Hk. by rewrite !bool_decide_eq_true_2.
  - intros H. apply rbind_ok in H as (q & Hq & H). injection H as <-.
    unfold build_quarantine in Hq. apply rbind_ok in Hq as (y & Hy & Hq). rewrite Hx in Hy.
    injection Hy as <-. apply rbind_ok in Hq as (sha & _ & Hq).
    apply rbind_ok in Hq as ([] & Hc & Hq). injection Hq as <-. split_and!; try done.
    cbn. rewrite Hk. by rewrite !bool_decide_eq_true_2.
Qed.

(** Every delivery has one of the effects above. *)
Lemma deliver_effect prepare m k f m' r :
  deliver prepare m k f = (m', r) ->
  (m' = m /\ exists e, r = Err e)
  \/ exists raw, validated_commit k = Ok raw /\ m_closed m || m_read_only m = false
     /\ effect k raw f m m' r.
Proof.
  unfold deliver. destruct (m_closed m || m_read_only m); [intros [= <- <-]; left; by eauto|].
  destruct (validated_commit k) as [raw|e] eqn:Ev; [|intros [= <- <-]; left; by eauto].
  intros H. right. exists raw. split_and!; try done.
  destruct (latch_same m f) as (ml & El & Hl). rewrite !El in H.
  assert (Hlatch : (ml, Err IntentDeliveryFatal) = (m', r) -> effect k raw f m m' r)
    by (intros [= <- <-]; by apply effect_latched).
  destruct (lookup_fails f); [by apply Hlatch|].
  destruct (existing_outcome _ _ _) as [[o|]|] eqn:Ee; [| |by apply Hlatch].
  - apply existing_some in Ee as [Hin Hc]. by eapply require_matching_effect.
  - destruct (validated_commit_ok _ _ Ev) as (x & Hx & Hk & _).
    destruct (exchange_outcome prepare k raw) as [o|e] eqn:Eo.
    + destruct (exchange_outcome_ok _ _ _ _ _ Hx Hk Eo) as (Hc & Hm & _).
      by eapply persist_effect.
    + injection H as <- <-. apply effect_refused.
Qed.

(** ** Invariants of executions *)

Lemma same_rows_ok d d' : same_rows d d' -> db_ok d -> db_ok d'.
Proof. intros [E1 E2]. unfold db_ok, outcomes. by rewrite E1, E2. Qed.

Lemma stored_ok m o d : db_ok (db m) -> stored m o d -> db_ok d.
Proof. intros Hok (Hc & Hr & Hi). by eapply insert_ok. Qed.

(** Rows are only ever appended, at most one by a step. *)
Definition extends (d d' : database) : Prop :=
  exists rs zs, receipts d' = receipts d ++ rs /\ quarantines d' = quarantines d ++ zs.

#[export] Instance extends_preorder : PreOrder extends.
Proof.
  split.
  - intros d. exists [], []. by rewrite !app_nil_r.
  - intros d1 d2 d3 (r1 & z1 & E1 & F1) (r2 & z2 & E2 & F2). exists (r1 ++ r2), (z1 ++ z2).
    by rewrite E2, F2, E1, F1, !app_assoc.
Qed.

Lemma same_rows_extends d d' : same_rows d d' -> extends d d'.
Proof. intros [E1 E2]. exists [], []. by rewrite E1, E2, !app_nil_r. Qed.

Lemma insert_extends d o d' : insert_outcome d o = Some d' -> extends d d'.
Proof.
  unfold insert_outcome. destruct o as [q|z]; destruct (existsb _ _); try done; intros [= <-];
    [exists [q], []|exists [], [z]]; cbn; by rewrite ?app_nil_r.
Qed.

Lemma latched_extends m d f m' : latched m d f m' -> extends d (db m').
Proof. intros (Hs & _). by apply same_rows_extends. Qed.

Lemma extends_outcomes d d' o : extends d d' -> o ∈ outcomes d -> o ∈ outcomes d'.
Proof.
  intros (rs & zs & E1 & E2). unfold outcomes. rewrite E1, E2, !map_app, !elem_of_app. tauto.
Qed.

Lemma open_rows d mark f m' : open_machine d mark f = Some m' -> same_rows d (db m').
Proof.
  unfold open_machine, durably_latch, same_rows.
  destruct (negb (validate_all_outcomes d) && negb mark && negb (read_only_flag d)).
  - destruct (flag_fails f), (marker_fails f); cbn [negb]; try done; by intros [= <-].
  - by intros [= <-].
Qed.

Lemma step_extends m m' : step m m' -> extends (db m) (db m').
Proof.
  intros [prepare m0 k f m1 r H|m0|m0 f m1 H].
  - apply deliver_effect in H as [(-> & _)|(raw & _ & _ & He)]; [done|].
    destruct He as [e|o out _ _ _ _|m1 Hl|o d out (_ & _ & Hi) _ _|o d m1 (_ & _ & Hi) _ Hl];
      try done.
    + by eapply latched_extends.
    + by eapply insert_extends.
    + transitivity d; [by eapply insert_extends|by eapply latched_extends].
  - done.
  - by apply same_rows_extends, (open_rows _ (marker m0) f).
Qed.

Lemma steps_extends m m' : steps m m' -> extends (db m) (db m').
Proof. induction 1 as [|m m' m'' H _ IH]; [done|]. transitivity (db m'); [by apply step_extends|done]. Qed.

Lemma step_db_ok m m' : db_ok (db m) -> step m m' -> db_ok (db m').
Proof.
  intros Hok Hs. revert Hok. destruct Hs as [prepare m0 k f m1 r H|m0|m0 f m1 H]; intros Hok.
  - apply deliver_effect in H as [(-> & _)|(raw & _ & _ & He)]; [done|].
    destruct He as [e|o out _ _ _ _|m1 (Hs & _)|o d out Hst _ _|o d m1 Hst _ (Hs & _)]; try done.
    + by eapply same_rows_ok.
    + by eapply stored_ok.
    + eapply same_rows_ok; [done|]. by eapply stored_ok.
  - done.
  - eapply same_rows_ok; [by eapply open_rows|done].
Qed.

Lemma steps_db_ok m m' : steps m m' -> db_ok (db m) -> db_ok (db m').
Proof. induction 1 as [|m m' m'' H _ IH]; [done|]. intros Hok. by eapply IH, step_db_ok. Qed.

Lemma empty_ok : db_ok empty_database.
Proof. by split_and!; constructor. Qed.

(** C5: one outcome per intent: in every state an execution can reach from a new
    database, across deliveries with failures at any call, restarts and closings,
    every stored row is a valid receipt or quarantine, two rows of either table for
    the same intent or the same candidate are the same row, and no plan appears in two
    receipts. *)
Theorem one_outcome_per_intent m :
  steps initial m ->
  Forall (fun o => outcome_check o = Ok tt) (outcomes (db m))
  /\ NoDup (map o_intent_id (outcomes (db m))) /\ NoDup (map o_candidate_id (outcomes (db m)))
  /\ NoDup (map q_plan_id (receipts (db m))).
Proof. intros H. exact (steps_db_ok _ _ H empty_ok). Qed.

Lemma outcome_matches_keys o k raw :
  outcome_matches o k raw = true ->
  k_intent_id k = Some (o_intent_id o) /\ k_candidate_id k = o_candidate_id o.
Proof.
  destruct o; cbn [outcome_matches o_intent_id o_candidate_id]; intros H; breflect; by split.
Qed.

(** A delivery that returned has its outcome in the tables. *)
Lemma deliver_recorded prepare m k f m' out :
  db_ok (db m) -> deliver prepare m k f = (m', Ok out) ->
  exists raw o, validated_commit k = Ok raw /\ o ∈ outcomes (db m') /\ outcome_check o = Ok tt
    /\ outcome_matches o k raw = true /\ outcome_result o = Ok out /\ db_ok (db m')
    /\ m_read_only m' = false /\ m_closed m' = false.
Proof.
  intros Hok [(-> & e & ?)|(raw & Hv & Hopen & He)]%deliver_effect; [done|].
  apply orb_false_iff in Hopen as [Hcl Hro]. exists raw.
  inversion He as [|o out' Hin Hc Hm Hr| |o d out' Hst Hm Hr|]; subst.
  - by exists o.
  - exists o. destruct (Hst) as (Hc & _ & Hi). cbn [with_db db m_read_only m_closed].
    split_and!; try done.
    + destruct (insert_perm _ _ _ Hi) as [Hp _]. rewrite Hp. constructor.
    + by eapply stored_ok.
Qed.

Lemma deliver_replays prepare m k f raw o out :
  db_ok (db m) -> m_closed m || m_read_only m = false -> lookup_fails f = false ->
  validated_commit k = Ok raw -> o ∈ outcomes (db m) -> outcome_matches o k raw = true ->
  outcome_result o = Ok out -> deliver prepare m k f = (m, Ok out).
Proof.
  intros Hok Hopen Hf Hv Hin Hm Hr. unfold deliver. rewrite Hopen, Hv, Hf.
  destruct (outcome_matches_keys _ _ _ Hm) as [Hk1 Hk2].
  assert (Hd : default [] (k_intent_id k) = o_intent_id o) by (by rewrite Hk1).
  rewrite Hd, Hk2, existing_found by done. unfold require_matching_outcome. by rewrite Hm, Hr.
Qed.

(** C13: redelivery is idempotent: once a delivery returned, delivering the same commit
    again, after any further deliveries, failures and restarts that leave the machine
    open, returns the same result whatever the actuator would answer now, and changes
    nothing. *)
Theorem redelivery_idempotent prepare m k f m1 out m2 prepare' f' :
  steps initial m -> deliver prepare m k f = (m1, Ok out) -> steps m1 m2 ->
  m_closed m2 || m_read_only m2 = false -> lookup_fails f' = false ->
  deliver prepare' m2 k f' = (m2, Ok out).
Proof.
  intros Hm Hd Hs Hopen Hf.
  destruct (deliver_recorded _ _ _ _ _ _ (steps_db_ok _ _ Hm empty_ok) Hd)
    as (raw & o & Hv & Hin & Hc & Hmat & Hr & Hok & _).
  eapply deliver_replays; try done; [by eapply steps_db_ok|].
  eapply extends_outcomes; [by apply steps_extends|done].
Qed.

(** What is delivered was committed: a plan returned for a commit is a valid
    prepared plan whose every intent field is that of the intent inside the durable
    decision record of the commit, and that record decided for manual approval; a
    commit that denies is never delivered. *)
Theorem delivered_plan_committed prepare m k f m' p :
  steps initial m -> deliver prepare m k f = (m', Ok (PlanReady p)) ->
  plan_valid p
  /\ exists r, decode_decision_intent_record (k_record_canonical k) = Ok r
     /\ r_intent r = Some (p_egress p) /\ d_effect (r_decision r) = ManualApprovalRequired
     /\ k_candidate_id k = r_candidate_id r.
Proof.
  intros Hm Hd.
  destruct (deliver_recorded _ _ _ _ _ _ (steps_db_ok _ _ Hm empty_ok) Hd)
    as (raw & o & Hv & _ & Hc & Hmat & Hr & _).
  destruct o as [q|z]; [|done]. cbn [outcome_result outcome_check] in *.
  apply rbind_ok in Hr as (p' & Hp & Hr). assert (p' = p) as -> by congruence. clear Hr.
  unfold receipt_check in Hc. apply rbind_ok in Hc as (u1 & _ & Hc).
  apply rbind_ok in Hc as (x & Hx & Hc). apply rbind_ok in Hc as (p' & Hp' & Hc).
  assert (p' = p) as -> by congruence. apply rbind_ok in Hc as (u2 & Hb%guard_ok & _).
  apply bool_decide_eq_true in Hb. cbn [outcome_matches] in Hmat. breflect.
  destruct (validated_commit_ok _ _ Hv) as (y & Hy & _ & _ & r & Hdec & Hobs & Hi & He).
  assert (y = x) as -> by congruence. split; [by apply decode_exact_plan_iff in Hp as [? _]|].
  exists r. unfold commit_observation in Hobs. rewrite Hi in Hobs.
  apply rbind_ok in Hobs as (c & _ & Hobs). apply rbind_ok in Hobs as (u3 & _ & Hobs).
  split_and!; [done|congruence| |]; injection Hobs as Hobs; by rewrite <- Hobs in *.
Qed.

(** ** The read-only latch *)

Definition durable_latch (m : machine) : bool := read_only_flag (db m) || marker m.

Lemma open_latched d mark f m' :
  open_machine d mark f = Some m' -> read_only_flag d || mark = true ->
  m_read_only m' = true /\ durable_latch m' = true.
Proof.
  unfold open_machine, durable_latch. intros H Hl.
  destruct (negb (validate_all_outcomes d)), mark, (read_only_flag d) eqn:Ef;
    cbn [andb orb negb] in *; try done; injection H as <-; cbn [db marker m_read_only];
    by rewrite Ef.
Qed.

Lemma step_latched m m' :
  m_read_only m = true -> durable_latch m = true -> step m m' ->
  m_read_only m' = true /\ durable_latch m' = true /\ same_rows (db m) (db m').
Proof.
  intros Hr Hl Hs. revert Hr Hl. destruct Hs as [prepare m0 k f m1 r H|m0|m0 f m1 H]; intros Hr Hl.
  - unfold deliver in H. rewrite Hr, orb_true_r in H. by injection H as <- <-.
  - done.
  - destruct (open_latched _ _ _ _ H Hl). split_and!; try done; by eapply open_rows.
Qed.

(** C15: the read-only latch is sticky: a delivery that fails either changed nothing at
    all or left the machine latched read-only, durably unless both the database flag and
    the marker file failed; and from a durably latched machine every further step, a
    restart included, stays latched and leaves both tables as they are. *)
Theorem failure_latches prepare m k f m1 e m2 :
  deliver prepare m k f = (m1, Err e) ->
  m1 = m
  \/ (m_read_only m1 = true
      /\ (flag_fails f && marker_fails f = false -> steps m1 m2 ->
          m_read_only m2 = true /\ same_rows (db m1) (db m2))).
Proof.
  intros [(-> & _)|(raw & _ & _ & He)]%deliver_effect; [by left|].
  assert (Hsteps : forall a b, steps a b -> m_read_only a = true -> durable_latch a = true ->
    m_read_only b = true /\ same_rows (db a) (db b)).
  { intros a b Hab. induction Hab as [a|a b c Hab _ IH]; intros Hr Hl; [done|].
    destruct (step_latched _ _ Hr Hl Hab) as (Hr' & Hl' & [E1 E2]).
    destruct (IH Hr' Hl') as [Hr2 [F1 F2]]. split; [done|]. split; congruence. }
  inversion He as [e'| |m' Hl| |o d m' _ _ Hl]; subst; [by left| |];
    right; destruct Hl as (Hs & Hr & _ & _ & Hd); (split; [done|]); intros Hf Hst;
    apply Hsteps; try done; by apply Hd.
Qed.

(** ** A delivery from the sample record *)

Definition sample_commit : DecisionIntentCommit := Eval vm_compute in
  ok_or (commit_observation sample_record sample_record_bytes) (mkCommit [] [] Deny None [] None).

Definition sample_intent : EgressDenyFields :=
  default (narrowed_intent sample_record []) (r_intent sample_record).

Definition sample_plan : PreparedTemporaryEgressDenyPlanV1 := Eval vm_compute in
  let nonce := digest_of 40 in
  let identifier := id_or_empty (let* n := fromhex nonce in plan_id (x_intent_id sample_intent) n) in
  let plan hash := mkPlan sample_intent identifier sample_boot 4242 99 (digest_of 41) 4026531 
    (digest_of 42) (digest_of 43) (digest_of 44) (u "2026-01-01T00:01:03Z")
    (u "2026-01-01T00:06:03Z") nonce hash in
  plan (id_or_empty (plan_hash (plan_dump (plan [])))).

Definition sample_machine : machine := Eval vm_compute in
  (deliver (fun _ => Ok sample_plan) initial sample_commit no_faults).1.

Lemma sample_delivers :
  deliver (fun _ => Ok sample_plan) initial sample_commit no_faults
  = (sample_machine, Ok (PlanReady sample_plan)).
Proof. vm_compute. reflexivity. Qed.

Lemma sample_reached : steps initial sample_machine.
Proof. eapply steps_step; [eapply step_deliver, sample_delivers|constructor]. Qed.

Lemma one_outcome_per_intent_witness :
  length (outcomes (db sample_machine)) = 1%nat
  /\ Forall (fun o => outcome_check o = Ok tt) (outcomes (db sample_machine)).
Proof.
  split; [reflexivity|].
  exact (proj1 (one_outcome_per_intent sample_machine sample_reached)).
Defined.

Lemma redelivery_idempotent_witness :
  deliver (fun _ => Err IntentDeliveryRetryable) sample_machine sample_commit no_faults
  = (sample_machine, Ok (PlanReady sample_plan)).
Proof.
  exact (redelivery_idempotent _ initial sample_commit no_faults _ _ sample_machine
    (fun _ => Err IntentDeliveryRetryable) no_faults (steps_refl _) sample_delivers
    (steps_refl _) eq_refl eq_refl).
Defined.

Lemma delivered_plan_committed_witness : exists r,
  decode_decision_intent_record (k_record_canonical sample_commit) = Ok r
  /\ r_intent r = Some (p_egress sample_plan).
Proof.
  destruct (delivered_plan_committed _ _ _ _ _ _ (steps_refl _) sample_delivers)
    as (_ & r & Hd & Hi & _).
  exists r. split; [exact Hd|exact Hi].
Defined.

(** The same delivery when the directory cannot be synced after the commit *)
Definition fsync_fault : faults := mkFaults false false false false Committed true false false.

Definition uncertain_machine : machine :=
  mkMachine (mkDatabase (receipts (db sample_machine)) [] true) false true false.

Lemma failure_latches_witness :
  deliver (fun _ => Ok sample_plan) initial sample_commit fsync_fault
  = (uncertain_machine, Err IntentDeliveryFatal)
  /\ (uncertain_machine = initial
      \/ m_read_only uncertain_machine = true
         /\ (flag_fails fsync_fault && marker_fails fsync_fault = false ->
             steps uncertain_machine (close_machine uncertain_machine) ->
             m_read_only (close_machine uncertain_machine) = true
             /\ same_rows (db uncertain_machine) (db (close_machine uncertain_machine)))).
Proof.
  assert (H : deliver (fun _ => Ok sample_plan) initial sample_commit fsync_fault
    = (uncertain_machine, Err IntentDeliveryFatal)) by (vm_compute; reflexivity).
  split; [exact H|].
  exact (failure_latches _ initial sample_commit fsync_fault uncertain_machine IntentDeliveryFatal
    (close_machine uncertain_machine) H).
Defined.
