(* ===== verification/DecisionJournal.v ===== *)
(** * The decision-intent journal

    [DecisionIntentJournal] of [actions/journal.py]: the append-only AGF1 journal of
    decision records, its strict recovery with repair of a torn tail, and the commit
    of one record.

    The file is its bytes; descriptors, locks and the evidence store that owns the
    journal are an argument of each operation, which says whether the journal is still
    bound to its file and how an append ends.  The running digest of the file
    ([_hasher]) is the digest of [j_file]. *)

From S2P Require Import Prelude Sha256 CanonicalJson JsonDecode Frames Time Ipv4 Identities.
From S2P Require Import Contracts EvidenceStore Candidates Egress Policy DecisionClock.
From S2P Require Import PolicyClient DecisionIntent.
Local Open Scope Z_scope.
Local Open Scope agmind_scope.

Inductive journal_exn :=
| DecisionIntentJournalCorrupt | DecisionIntentJournalConflict | DecisionIntentJournalUnhealthy
| JournalRecordError (e : decision_exn) | JournalPyError (e : py_exn)
| JournalPolicyError (e : policy_exn).

#[export] Instance journal_exn_eq_dec : EqDecision journal_exn.
Proof. solve_decision. Defined.

Definition MAX_FRAME_PAYLOAD : Z := 131072.
Definition MAX_VERIFIED_BYTES : Z := 67108864.
Definition MAX_RECORDS : Z := 65536.

Record journal := mkJournal {
  j_file : bytes; j_order : list bytes; j_by_candidate : list (pystr * bytes);
  j_last : option Z; j_previous : bytes; j_healthy : bool; j_closed : bool }.

(** [_raw_by_candidate.get(candidate_id)] *)
Definition raw_for (table : list (pystr * bytes)) (candidate : pystr) : option bytes :=
  match List.find (fun kv => bool_decide (kv.1 = candidate)) table with
  | Some kv => Some kv.2
  | None => None
  end.

(** The loop variables of [_recover] *)
Record recovery := mkRecovery {
  v_order : list bytes; v_by_candidate : list (pystr * bytes); v_last : option Z;
  v_previous : bytes; v_verified : nat; v_count : nat }.

Definition recovery_start : recovery := mkRecovery [] [] None zero_hash 0 0.

(** The clock never goes back along the journal. *)
Definition clock_ok (previous : option Z) (ns : Z) : bool :=
  match previous with Some p => p <=? ns | None => true end.

Section Journal.
Context (crc32c : bytes -> Z).

(** One round of the loop of [_recover] *)
Definition recover_frame (v : recovery) (frame : FrameRecord) : result journal_exn recovery :=
  let count := S (v_count v) in
  let verified := (v_verified v + size frame)%nat in
  guard (negb ((MAX_RECORDS <? Z.of_nat count) || (MAX_VERIFIED_BYTES <? Z.of_nat verified)))
    DecisionIntentJournalCorrupt ;;*
  let* record := catch_with (fun e => match e with
                                      | DecisionIntentValidationError => DecisionIntentJournalCorrupt
                                      | e => JournalRecordError e end)
    (decode_decision_intent_record (payload frame)) in
  guard (bool_decide (raw_for (v_by_candidate v) (r_candidate_id record) = None))
    DecisionIntentJournalCorrupt ;;*
  let* committed := catch_with JournalPolicyError (timestamp_ns (r_committed_at record)) in
  guard (clock_ok (v_last v) committed) DecisionIntentJournalCorrupt ;;*
  let* encoded := catch_with (fun _ => JournalPyError ValueError)
    (encode_frame crc32c (payload frame) (previous_hash frame) MAX_FRAME_PAYLOAD) in
  guard (bool_decide (length encoded = size frame)
         && bool_decide (drop (length encoded - 32) encoded = record_hash frame))
    DecisionIntentJournalCorrupt ;;*
  Ok (mkRecovery (v_order v ++ [payload frame])
        (v_by_candidate v ++ [(r_candidate_id record, payload frame)]) (Some committed)
        (record_hash frame) verified count).

Fixpoint recover_frames (v : recovery) (frames : list FrameRecord) : result journal_exn recovery :=
  match frames with
  | [] => Ok v
  | frame :: frames => let* v := recover_frame v frame in recover_frames v frames
  end.

(** How the system calls of [_recover] answer: everything holds, the file changed
    before the repair or after it, the repair or the final synchronisation failed *)
Inductive recover_io := IoDone | ChangedBeforeRepair | RepairFailed | ChangedAfter | SyncFailed.

#[local] Instance recover_io_eq_dec : EqDecision recover_io.
Proof. solve_decision. Defined.

(** [_recover]: the journal and whether a torn tail was cut off.  [chunks] are the
    sizes of the short reads of the stream. *)
Definition recover (file : bytes) (chunks : list positive) (io : recover_io)
  : result journal_exn (journal * bool) :=
  let '(frames, ending) := iter_frames crc32c (mkStream file chunks) MAX_FRAME_PAYLOAD in
  let* v := recover_frames recovery_start frames in
  let* torn := match ending with
               | Finished => Ok None
               | Raised (TornTail n) => Ok (Some n)
               | Raised JournalCorrupt => Err DecisionIntentJournalCorrupt
               | Raised FrameValueError => Err (JournalPyError ValueError)
               end in
  guard (match torn with Some n => bool_decide (n = v_verified v) | None => true end)
    DecisionIntentJournalCorrupt ;;*
  guard (match torn with Some _ => negb (bool_decide (io = ChangedBeforeRepair)) | None => true end)
    DecisionIntentJournalCorrupt ;;*
  guard (match torn with Some _ => negb (bool_decide (io = RepairFailed)) | None => true end)
    DecisionIntentJournalUnhealthy ;;*
  let file := match torn with Some _ => take (v_verified v) file | None => file end in
  guard (bool_decide (length file = v_verified v) && negb (bool_decide (io = ChangedAfter)))
    DecisionIntentJournalCorrupt ;;*
  guard (negb (bool_decide (io = SyncFailed))) DecisionIntentJournalUnhealthy ;;*
  Ok (mkJournal file (v_order v) (v_by_candidate v) (v_last v) (v_previous v) true false,
      match torn with Some _ => true | None => false end).

(** What [_require_bound] finds: the journal bound, its lifecycle lost, the store's
    authority lost, a [stat] that fails, a file that is missing or unsafe
    ([_named_binding] and [_file_binding] raise), a file that changed *)
Inductive binding :=
  Bound | LostLifecycle | LostAuthority | BindingUncertain | ArtifactUnsafe | BindingChanged.

Definition unhealthy (j : journal) : journal :=
  mkJournal (j_file j) (j_order j) (j_by_candidate j) (j_last j) (j_previous j) false (j_closed j).

(** [_require_bound] *)
Definition require_bound (j : journal) (b : binding) : journal * result journal_exn unit :=
  if j_closed j || negb (j_healthy j) then (j, Err DecisionIntentJournalUnhealthy)
  else match b with
       | Bound => (j, Ok tt)
       | LostLifecycle => (j, Err DecisionIntentJournalUnhealthy)
       | LostAuthority | BindingUncertain => (unhealthy j, Err DecisionIntentJournalUnhealthy)
       | ArtifactUnsafe => (j, Err DecisionIntentJournalCorrupt)
       | BindingChanged => (unhealthy j, Err DecisionIntentJournalCorrupt)
       end.

(** How an append ends: done, refused before it starts because the file is unsafe or
    changed, or failed with some bytes of the frame in the file *)
Inductive append_end := Appended | PreAppendUnsafe | PreAppendChanged | AppendFailed (written : nat).

(** [_commit] *)
Definition commit (j : journal) (record : DecisionIntentRecordV1) (b : binding) (a : append_end)
  : journal * result journal_exn DecisionIntentCommit :=
  let prepared :=
    let* raw := catch_with JournalPyError (canonical_json (JObj (record_dump record))) in
    guard ((1 <=? blen raw) && (blen raw <=? MAX_FRAME_PAYLOAD))
      (JournalRecordError DecisionIntentValidationError) ;;*
    let* decoded := catch_with JournalRecordError (decode_decision_intent_record raw) in
    Ok (raw, decoded) in
  match prepared with
  | Err e => (j, Err e)
  | Ok (raw, decoded) =>
      match require_bound j b with
      | (j, Err e) => (j, Err e)
      | (j, Ok _) =>
          match raw_for (j_by_candidate j) (r_candidate_id decoded) with
          | Some existing =>
              if negb (bool_decide (existing = raw)) then (j, Err DecisionIntentJournalConflict)
              else (j, catch_with JournalPyError (commit_observation decoded existing))
          | None =>
              let framed :=
                let* committed := catch_with JournalPolicyError
                  (timestamp_ns (r_committed_at decoded)) in
                guard (clock_ok (j_last j) committed)
                  (JournalRecordError DecisionIntentValidationError) ;;*
                guard (Z.of_nat (length (j_order j)) <? MAX_RECORDS)
                  DecisionIntentJournalUnhealthy ;;*
                let* frame := catch_with (fun _ => JournalPyError ValueError)
                  (encode_frame crc32c raw (j_previous j) MAX_FRAME_PAYLOAD) in
                guard (blen (j_file j) + blen frame <=? MAX_VERIFIED_BYTES)
                  DecisionIntentJournalUnhealthy ;;*
                Ok (committed, frame) in
              match framed with
              | Err e => (j, Err e)
              | Ok (committed, frame) =>
                  match a with
                  | PreAppendUnsafe => (j, Err DecisionIntentJournalCorrupt)
                  | PreAppendChanged => (unhealthy j, Err DecisionIntentJournalCorrupt)
                  | AppendFailed n =>
                      (mkJournal (j_file j ++ take n frame) (j_order j) (j_by_candidate j)
                         (j_last j) (j_previous j) false (j_closed j),
                       Err DecisionIntentJournalUnhealthy)
                  | Appended =>
                      (mkJournal (j_file j ++ frame) (j_order j ++ [raw])
                         (j_by_candidate j ++ [(r_candidate_id decoded, raw)]) (Some committed)
                         (drop (length frame - 32) frame) (j_healthy j) (j_closed j),
                       catch_with JournalPyError (commit_observation decoded raw))
                  end
              end
          end
      end
  end.

(** [records] *)
Definition journal_records (j : journal) (b : binding)
  : journal * result journal_exn (list DecisionIntentCommit) :=
  match require_bound j b with
  | (j, Err e) => (j, Err e)
  | (j, Ok _) =>
      (j, map_res (fun raw =>
             let* r := catch_with JournalRecordError (decode_decision_intent_record raw) in
             catch_with JournalPyError (commit_observation r raw)) (j_order j))
  end.
End Journal.

(** [open] on a new file *)
Definition empty_journal : journal := mkJournal [] [] [] None zero_hash true false.

(** [close]: a healthy journal is sealed first, [seal] is the error of the store if that
    fails; [clean] says that [_close_resources] met no error and [released] that the
    store no longer names the journal as owner. *)
Definition close_journal (j : journal) (b : binding) (seal : option journal_exn)
    (clean released : bool)
  : journal * result journal_exn unit :=
  if j_closed j then (j, Ok tt)
  else
    let '(j, primary) :=
      if j_healthy j then
        match require_bound j b with
        | (j, Err e) => (unhealthy j, Err e)
        | (j, Ok _) => match seal with None => (j, Ok tt) | Some e => (unhealthy j, Err e) end
        end
      else (j, Ok tt) in
    (mkJournal (j_file j) (j_order j) (j_by_candidate j) (j_last j) (j_previous j) (j_healthy j)
       released,
     match primary with
     | Err e => Err e
     | Ok _ => if clean then Ok tt else Err DecisionIntentJournalUnhealthy
     end).

(** ** Replaying a history of payloads *)

Section JournalFacts.
Context (crc32c : bytes -> Z) (crc_range : forall x, 0 <= crc32c x < 2 ^ 32).

Abbreviation journal_of := (Frames.journal_of crc32c).
Abbreviation frames_of := (Frames.frames_of crc32c).
Abbreviation chain_head := (Frames.chain_head crc32c).
Abbreviation frame_of := (Frames.frame_of crc32c).
Abbreviation recover_frames := (recover_frames crc32c).
Abbreviation recover file chunks := (recover crc32c file chunks IoDone).
Abbreviation commit := (commit crc32c).

(** What recovery makes of the frames of a list of payloads *)
Definition replay (ps : list bytes) : result journal_exn recovery :=
  recover_frames recovery_start (frames_of zero_hash 0 ps).

Lemma recover_frames_app v fs gs :
  recover_frames v (fs ++ gs) = (let* w := recover_frames v fs in recover_frames w gs).
Proof.
  revert v. induction fs as [|f fs IH]; intros v; cbn [DecisionJournal.recover_frames app]; [done|].
  destruct (recover_frame crc32c v f); cbn [rbind]; [apply IH|done].
Qed.

Lemma journal_of_snoc prev ps p :
  journal_of prev (ps ++ [p]) = journal_of prev ps ++ frame_of p (chain_head prev ps).
Proof.
  revert prev. induction ps as [|q ps IH]; intros prev; cbn [Frames.journal_of app].
  - by rewrite app_nil_r.
  - rewrite IH. by rewrite app_assoc.
Qed.

Lemma chain_head_zero_length ps : length (chain_head zero_hash ps) = 32%nat.
Proof. by apply chain_head_length. Qed.

(** What one accepted frame adds *)
Lemma recover_frame_ok v p prev o w :
  length prev = 32%nat ->
  recover_frame crc32c v (mkFrame p prev (hash_of crc32c p prev) o (76 + length p)) = Ok w <->
  exists record committed,
    Z.of_nat (S (v_count v)) <= MAX_RECORDS
    /\ Z.of_nat (v_verified v + (76 + length p)) <= MAX_VERIFIED_BYTES
    /\ decode_decision_intent_record p = Ok record
    /\ raw_for (v_by_candidate v) (r_candidate_id record) = None
    /\ timestamp_ns (r_committed_at record) = Ok committed /\ clock_ok (v_last v) committed = true
    /\ Z.of_nat (length p) <= MAX_FRAME_PAYLOAD
    /\ w = mkRecovery (v_order v ++ [p]) (v_by_candidate v ++ [(r_candidate_id record, p)])
             (Some committed) (hash_of crc32c p prev) (v_verified v + (76 + length p))
             (S (v_count v)).
Proof.
  intros Hprev. unfold recover_frame. cbn [size payload previous_hash record_hash]. split.
  - intros H. apply rbind_ok in H as (u1 & Hb%guard_ok & H). apply negb_true_iff, orb_false_iff in Hb.
    destruct Hb as [Hb1%Z.ltb_ge Hb2%Z.ltb_ge].
    apply rbind_ok in H as (record & Hd%catch_ok & H).
    apply rbind_ok in H as (u2 & Hn%guard_ok%bool_decide_eq_true & H).
    apply rbind_ok in H as (committed & Hc%catch_ok & H). apply rbind_ok in H as (u3 & Hk%guard_ok & H).
    apply rbind_ok in H as (e & He%catch_ok & H). apply rbind_ok in H as (u4 & _ & H).
    apply encode_frame_ok in He as (_ & _ & Hl & _). injection H as <-. by exists record, committed.
  - intros (record & committed & H1 & H2 & Hd & Hn & Hc & Hk & Hl & ->).
    assert (E : negb ((MAX_RECORDS <? Z.of_nat (S (v_count v)))
      || (MAX_VERIFIED_BYTES <? Z.of_nat (v_verified v + (76 + length p)))) = true).
    { apply negb_true_iff, orb_false_iff. split; by apply Z.ltb_ge. }
    rewrite E. cbn [guard rbind]. rewrite Hd. cbn [catch_with rbind].
    rewrite bool_decide_eq_true_2 by done. cbn [guard rbind]. rewrite Hc. cbn [catch_with rbind].
    rewrite Hk. cbn [guard rbind].
    rewrite (proj2 (encode_frame_ok crc32c p prev MAX_FRAME_PAYLOAD (frame_of p prev)));
      [|split_and!; done]. cbn [catch_with rbind].
    rewrite frame_of_length by done.
    replace (76 + length p - 32)%nat with (44 + length p)%nat by lia.
    rewrite frame_of_hash by done. by rewrite !bool_decide_eq_true_2.
Qed.

(** Times in order *)
Definition times_ordered (ns : list Z) : Prop := StronglySorted Z.le ns.

Definition committed_at (p : bytes) : Z :=
  match decode_decision_intent_record p with
  | Ok r => instant (r_committed_at r)
  | Err _ => 0
  end.

Definition candidate_of (p : bytes) : pystr :=
  match decode_decision_intent_record p with Ok r => r_candidate_id r | Err _ => [] end.

Definition decodes (p : bytes) : Prop := exists r, decode_decision_intent_record p = Ok r.

Lemma raw_for_none table c : raw_for table c = None -> c ∉ map fst table.
Proof.
  unfold raw_for. destruct (List.find _ table) eqn:E; [done|]. intros _ Hin.
  apply list_elem_of_fmap in Hin as (kv & -> & Hkv%list_elem_of_In).
  pose proof (find_none _ _ E kv Hkv) as H. cbn in H. by rewrite bool_decide_eq_true_2 in H.
Qed.

(** Everything a replayed history guarantees *)
Record history (ps : list bytes) (v : recovery) : Prop := mkHistory {
  h_order : v_order v = ps; h_table : v_by_candidate v = map (fun p => (candidate_of p, p)) ps;
  h_previous : v_previous v = chain_head zero_hash ps;
  h_verified : v_verified v = length (journal_of zero_hash ps); h_count : v_count v = length ps;
  h_last : v_last v = last (map committed_at ps);
  h_payloads : payloads_ok MAX_FRAME_PAYLOAD ps; h_decodes : Forall decodes ps;
  h_records : Z.of_nat (length ps) <= MAX_RECORDS;
  h_bytes : Z.of_nat (length (journal_of zero_hash ps)) <= MAX_VERIFIED_BYTES;
  h_unique : NoDup (map candidate_of ps); h_times : times_ordered (map committed_at ps) }.

Lemma times_snoc (l : list Z) z :
  times_ordered l -> (forall x, last l = Some x -> x <= z) -> times_ordered (l ++ [z]).
Proof.
  unfold times_ordered. induction 1 as [|x l Hs IH Hx]; intros Hl; [repeat constructor|].
  cbn [app]. constructor.
  - apply IH. intros y Hy. apply Hl. destruct l; [done|]. by rewrite last_cons_cons.
  - apply Forall_app. split; [done|]. constructor; [|done].
    destruct l as [|y l] using rev_ind; [by apply Hl|].
    apply Forall_app in Hx as [_ Hy%Forall_cons]. etransitivity; [apply Hy|].
    apply Hl. by rewrite app_comm_cons, last_snoc.
Qed.

Lemma history_snoc ps v p w o :
  history ps v ->
  recover_frame crc32c v (mkFrame p (chain_head zero_hash ps)
    (hash_of crc32c p (chain_head zero_hash ps)) o (76 + length p)) = Ok w ->
  history (ps ++ [p]) w.
Proof.
  intros [Ho Ht Hp Hv Hc Hl Hok Hd _ _ Hu Hs] H.
  apply recover_frame_ok in H as (r & ns & Hb1 & Hb2 & Hdec & Hn & Hts & Hk & Hlen & ->);
    [|apply chain_head_zero_length].
  assert (Ec : candidate_of p = r_candidate_id r) by (unfold candidate_of; by rewrite Hdec).
  assert (Et : committed_at p = ns) by (unfold committed_at, instant; by rewrite Hdec, Hts).
  constructor; cbn [v_order v_by_candidate v_last v_previous v_verified v_count].
  - by rewrite Ho.
  - by rewrite Ht, map_app, <- Ec.
  - unfold Frames.chain_head. by rewrite foldl_app.
  - rewrite journal_of_snoc, length_app, frame_of_length by apply chain_head_zero_length.
    by rewrite Hv.
  - rewrite Hc, length_app. cbn. lia.
  - rewrite map_app. cbn [map]. by rewrite last_snoc, Et.
  - apply Forall_app. by split; [|repeat constructor].
  - apply Forall_app. split; [done|]. constructor; [by exists r|done].
  - rewrite length_app. cbn [length]. lia.
  - rewrite journal_of_snoc, length_app, frame_of_length by apply chain_head_zero_length. lia.
  - rewrite map_app. cbn [map]. rewrite <- Permutation_cons_append. constructor; [|done].
    rewrite Ht in Hn. apply raw_for_none in Hn. by rewrite map_map, <- Ec in Hn.
  - rewrite map_app. apply times_snoc; [done|]. intros x Hx. rewrite <- Hl in Hx.
    rewrite Hx in Hk. apply Z.leb_le in Hk. lia.
Qed.

Lemma replay_snoc ps p v :
  replay ps = Ok v ->
  exists o, replay (ps ++ [p])
    = recover_frame crc32c v (mkFrame p (chain_head zero_hash ps)
        (hash_of crc32c p (chain_head zero_hash ps)) o (76 + length p)).
Proof.
  intros H. unfold replay. destruct (frames_of_snoc crc32c zero_hash 0 ps p) as [o ->].
  exists o. rewrite recover_frames_app. unfold replay in H. rewrite H. cbn [rbind].
  cbn [DecisionJournal.recover_frames]. by destruct (recover_frame crc32c v _).
Qed.

Lemma replay_history ps v : replay ps = Ok v -> history ps v.
Proof.
  revert v. induction ps as [|p ps IH] using rev_ind; intros v H.
  - injection H as <-. constructor; cbn; try done; constructor.
  - destruct (replay ps) as [w|e] eqn:E.
    + destruct (replay_snoc ps p w E) as [o Ho]. rewrite Ho in H. eapply history_snoc; [|exact H].
      by apply IH.
    + unfold replay in H, E. destruct (frames_of_snoc crc32c zero_hash 0 ps p) as [o Ho].
      rewrite Ho, recover_frames_app, E in H. done.
Qed.

(** ** Recovery of a written file *)

(** The journal object that recovery makes of a history *)
Definition reopened (ps : list bytes) (v : recovery) : journal :=
  mkJournal (journal_of zero_hash ps) (v_order v) (v_by_candidate v) (v_last v) (v_previous v)
    true false.

Lemma max_payload_ok : 0 < MAX_FRAME_PAYLOAD <= 0xFFFFFFFF.
Proof. unfold MAX_FRAME_PAYLOAD. lia. Qed.

Lemma iter_frames_eq file chunks :
  iter_frames crc32c (mkStream file chunks) MAX_FRAME_PAYLOAD
  = flat_iter crc32c (S (length file)) MAX_FRAME_PAYLOAD zero_hash 0 file.
Proof.
  unfold iter_frames. rewrite (proj2 (validate_max_frame_ok _ tt) max_payload_ok).
  by rewrite iter_frames_flat.
Qed.

Lemma journal_take_prefix ps j :
  exists tl, journal_of zero_hash ps = journal_of zero_hash (take j ps) ++ tl.
Proof.
  generalize zero_hash as h. revert j. induction ps as [|p ps IH]; intros j h; [exists []; by destruct j|].
  destruct j as [|j]; cbn [take Frames.journal_of app]; [by eexists|].
  destruct (IH j (hash_of crc32c p h)) as [tl ->]. exists tl. by rewrite app_assoc.
Qed.

(** Any prefix of a written file recovers to the whole frames it holds. *)
Lemma recover_prefix ps k chunks :
  payloads_ok MAX_FRAME_PAYLOAD ps -> (k <= length (journal_of zero_hash ps))%nat ->
  exists j, (j <= length ps)%nat /\ (length (journal_of zero_hash (take j ps)) <= k)%nat
    /\ ((j < length ps)%nat -> (k < length (journal_of zero_hash (take (S j) ps)))%nat)
    /\ forall v, replay (take j ps) = Ok v ->
         recover (take k (journal_of zero_hash ps)) chunks
         = Ok (reopened (take j ps) v,
               negb (bool_decide (k = length (journal_of zero_hash (take j ps))))).
Proof.
  intros Hok Hk.
  destruct (flat_iter_prefix crc32c crc_range MAX_FRAME_PAYLOAD ps (S k) zero_hash 0 k)
    as (j & Hj & Hlo & Hhi & Heq); [exact max_payload_ok|reflexivity|exact Hok|exact Hk|lia|].
  exists j. split_and!; try done. intros v Hv. pose proof (replay_history _ _ Hv) as Hh.
  assert (Hver := h_verified _ _ Hh).
  destruct (journal_take_prefix ps j) as [tl Htl].
  assert (Htake : take (length (journal_of zero_hash (take j ps))) (take k (journal_of zero_hash ps))
    = journal_of zero_hash (take j ps)).
  { rewrite take_take, Nat.min_l by lia. rewrite Htl. by rewrite take_app_length. }
  unfold DecisionJournal.recover. rewrite iter_frames_eq, length_take, Nat.min_l by lia.
  rewrite Heq. unfold replay in Hv. rewrite Hv. cbn [rbind].
  destruct (bool_decide_reflect (k = length (journal_of zero_hash (take j ps)))) as [E|E];
    cbn [rbind guard negb Nat.add].
  - rewrite length_take, Nat.min_l by lia. rewrite (bool_decide_eq_true_2 (k = v_verified v)) by lia.
    rewrite !(bool_decide_eq_false_2 (IoDone = _)) by done.
    cbn [guard rbind andb negb]. unfold reopened.
    rewrite <- E, take_take, Nat.min_id in Htake. by rewrite Htake.
  - rewrite !(bool_decide_eq_false_2 (IoDone = _)) by done.
    rewrite Hver, bool_decide_eq_true_2 by done. cbn [guard rbind negb].
    by rewrite Htake, bool_decide_eq_true_2.
Qed.

Lemma recover_full ps v chunks :
  payloads_ok MAX_FRAME_PAYLOAD ps -> replay ps = Ok v ->
  recover (journal_of zero_hash ps) chunks = Ok (reopened ps v, false).
Proof.
  intros Hok Hv.
  destruct (recover_prefix ps (length (journal_of zero_hash ps)) chunks Hok (le_n _))
    as (j & Hj & Hlo & Hhi & Hr).
  assert (E : take j ps = ps).
  { apply take_ge. destruct (decide (j < length ps)%nat) as [Hlt|]; [|lia]. specialize (Hhi Hlt).
    destruct (journal_take_prefix ps (S j)) as [tl Htl].
    apply (f_equal length) in Htl. rewrite length_app in Htl. lia. }
  rewrite E in Hr. specialize (Hr v Hv). rewrite take_ge in Hr by lia.
  by rewrite bool_decide_eq_true_2 in Hr.
Qed.

(** A file that ends in part of the next frame *)
Lemma recover_torn ps p n v chunks :
  payloads_ok MAX_FRAME_PAYLOAD (ps ++ [p]) -> replay ps = Ok v ->
  (n < length (frame_of p (chain_head zero_hash ps)))%nat ->
  recover (journal_of zero_hash ps ++ take n (frame_of p (chain_head zero_hash ps))) chunks
  = Ok (reopened ps v, negb (bool_decide (n = 0%nat))).
Proof.
  intros Hok Hv Hn. set (f := frame_of p (chain_head zero_hash ps)) in *.
  set (L := length (journal_of zero_hash ps)).
  assert (Ef : journal_of zero_hash ps ++ take n f = take (L + n) (journal_of zero_hash (ps ++ [p]))).
  { rewrite journal_of_snoc. fold f. rewrite take_app_split by (unfold L; lia).
    do 2 f_equal. unfold L. lia. }
  rewrite Ef.
  destruct (recover_prefix (ps ++ [p]) (L + n) chunks Hok) as (j & Hj & Hlo & Hhi & Hr).
  { rewrite journal_of_snoc, length_app. fold f. unfold L. lia. }
  assert (j = length ps) as ->.
  { rewrite length_app in Hj, Hhi. cbn [length] in Hj, Hhi.
    destruct (decide (j = S (length ps))) as [->|Hne].
    - rewrite take_ge in Hlo by (rewrite length_app; cbn; lia).
      rewrite journal_of_snoc, length_app in Hlo. fold f in Hlo. unfold L in Hlo. lia.
    - destruct (decide (j = length ps)) as [->|Hne2]; [done|].
      assert (Hlt : (j < length ps + 1)%nat) by lia. specialize (Hhi Hlt).
      rewrite take_app_le in Hhi by lia.
      destruct (journal_take_prefix ps (S j)) as [tl Htl].
      apply (f_equal length) in Htl. rewrite length_app in Htl. unfold L in Hhi. lia. }
  rewrite take_app_length in Hr. specialize (Hr v Hv). rewrite Hr. do 3 f_equal.
  fold L. apply bool_decide_ext. lia.
Qed.

(** ** What a commit does *)

(** Nothing but the health flag may differ. *)
Definition same_journal (j j' : journal) : Prop :=
  j_file j' = j_file j /\ j_order j' = j_order j /\ j_by_candidate j' = j_by_candidate j
  /\ j_last j' = j_last j /\ j_previous j' = j_previous j /\ (j_healthy j' = true -> j_healthy j = true).

(** A record accepted for appending, with its frame *)
Definition appendable (j : journal) (record : DecisionIntentRecordV1) (raw : bytes)
    (committed : Z) (frame : bytes) : Prop :=
  canonical_json (JObj (record_dump record)) = Ok raw
  /\ decode_decision_intent_record raw = Ok record
  /\ j_closed j = false /\ j_healthy j = true
  /\ raw_for (j_by_candidate j) (r_candidate_id record) = None
  /\ timestamp_ns (r_committed_at record) = Ok committed /\ clock_ok (j_last j) committed = true
  /\ Z.of_nat (length (j_order j)) < MAX_RECORDS
  /\ encode_frame crc32c raw (j_previous j) MAX_FRAME_PAYLOAD = Ok frame
  /\ blen (j_file j) + blen frame <= MAX_VERIFIED_BYTES.

Definition append_frame (j : journal) (record : DecisionIntentRecordV1) (raw : bytes)
    (committed : Z) (frame : bytes) : journal :=
  mkJournal (j_file j ++ frame) (j_order j ++ [raw])
    (j_by_candidate j ++ [(r_candidate_id record, raw)]) (Some committed)
    (drop (length frame - 32) frame) (j_healthy j) (j_closed j).

Inductive commit_effect (j : journal) (record : DecisionIntentRecordV1) (a : append_end)
  : journal -> result journal_exn DecisionIntentCommit -> Prop :=
| commit_refused j' e : same_journal j j' -> commit_effect j record a j' (Err e)
| commit_repeated raw :
    canonical_json (JObj (record_dump record)) = Ok raw ->
    decode_decision_intent_record raw = Ok record ->
    j_closed j = false -> j_healthy j = true ->
    raw_for (j_by_candidate j) (r_candidate_id record) = Some raw ->
    commit_effect j record a j (catch_with JournalPyError (commit_observation record raw))
| commit_appended raw committed frame :
    a = Appended -> appendable j record raw committed frame ->
    commit_effect j record a (append_frame j record raw committed frame)
      (catch_with JournalPyError (commit_observation record raw))
| commit_torn n raw committed frame :
    a = AppendFailed n -> appendable j record raw committed frame ->
    commit_effect j record a
      (mkJournal (j_file j ++ take n frame) (j_order j) (j_by_candidate j) (j_last j)
         (j_previous j) false (j_closed j))
      (Err DecisionIntentJournalUnhealthy).

Lemma require_bound_ok j b j' r :
  require_bound j b = (j', r) ->
  match r with Ok _ => j' = j /\ j_closed j = false /\ j_healthy j = true
  | Err _ => same_journal j j' end.
Proof.
  unfold require_bound, same_journal.
  destruct (j_closed j || negb (j_healthy j)) eqn:E; [intros [= <- <-]; by split_and!|].
  apply orb_false_iff in E as [E1 E2%negb_false_iff].
  destruct b; intros [= <- <-]; cbn; by split_and!.
Qed.

(** The decoded record is the one committed. *)
Lemma decoded_same record raw decoded :
  canonical_json (JObj (record_dump record)) = Ok raw ->
  decode_decision_intent_record raw = Ok decoded -> record_valid record -> decoded = record.
Proof.
  intros Hraw Hdec Hv.
  pose proof (proj1 (decode_record_iff _ _) Hdec) as (_ & _ & Hl).
  rewrite (proj2 (decode_record_iff raw record)) in Hdec by done. congruence.
Qed.

Lemma commit_cases j record b a j' res :
  record_valid record -> commit j record b a = (j', res) -> commit_effect j record a j' res.
Proof.
  intros Hv. unfold DecisionJournal.commit.
  destruct (canonical_json (JObj (record_dump record))) as [raw|e] eqn:Hraw; cbn [catch_with rbind].
  2:{ intros [= <- <-]. by apply commit_refused. }
  destruct ((1 <=? blen raw) && (blen raw <=? MAX_FRAME_PAYLOAD)) eqn:Hb; cbn [guard rbind].
  2:{ intros [= <- <-]. by apply commit_refused. }
  destruct (decode_decision_intent_record raw) as [decoded|e] eqn:Hdec; cbn [catch_with rbind].
  2:{ intros [= <- <-]. by apply commit_refused. }
  assert (decoded = record) as -> by (by eapply decoded_same).
  destruct (require_bound j b) as [j1 [u|e]] eqn:Hr; apply require_bound_ok in Hr.
  2:{ intros [= <- <-]. by apply commit_refused. }
  destruct Hr as (-> & Hc & Hh).
  destruct (raw_for (j_by_candidate j) (r_candidate_id record)) as [existing|] eqn:Hx.
  { destruct (bool_decide_reflect (existing = raw)) as [->|Hne]; cbn [negb]; intros [= <- <-];
      [by apply commit_repeated|by apply commit_refused]. }
  destruct (timestamp_ns (r_committed_at record)) as [ns|e] eqn:Ht; cbn [catch_with rbind].
  2:{ intros [= <- <-]. by apply commit_refused. }
  destruct (clock_ok (j_last j) ns) eqn:Hk; cbn [guard rbind].
  2:{ intros [= <- <-]. by apply commit_refused. }
  destruct (Z.of_nat (length (j_order j)) <? MAX_RECORDS) eqn:Hn; cbn [guard rbind].
  2:{ intros [= <- <-]. by apply commit_refused. }
  destruct (encode_frame crc32c raw (j_previous j) MAX_FRAME_PAYLOAD) as [frame|e] eqn:He;
    cbn [catch_with rbind].
  2:{ intros [= <- <-]. by apply commit_refused. }
  destruct (blen (j_file j) + blen frame <=? MAX_VERIFIED_BYTES) eqn:Hs; cbn [guard rbind].
  2:{ intros [= <- <-]. by apply commit_refused. }
  apply Z.ltb_lt in Hn. apply Z.leb_le in Hs.
  assert (Happ : appendable j record raw ns frame) by (by split_and!).
  destruct a as [| | |n]; intros [= <- <-].
  - by eapply commit_appended.
  - by apply commit_refused.
  - by apply commit_refused.
  - by eapply commit_torn.
Qed.

(** ** The invariant of a journal *)

(** The fields of the object say what a replay of its records says. *)
Definition remembers (j : journal) (v : recovery) : Prop :=
  j_order j = v_order v /\ j_by_candidate j = v_by_candidate v /\ j_last j = v_last v
  /\ j_previous j = v_previous v.

(** The file is exactly the history; only after a failed append may it also hold bytes of
    the frame of one further acceptable record. *)
Definition jinv (j : journal) : Prop :=
  exists ps v, replay ps = Ok v /\ remembers j v
    /\ (j_file j = journal_of zero_hash ps
        \/ (j_healthy j = false /\ exists p n w, replay (ps ++ [p]) = Ok w
             /\ j_file j = journal_of zero_hash ps
                           ++ take n (frame_of p (chain_head zero_hash ps)))).

Lemma replay_payloads ps v : replay ps = Ok v -> payloads_ok MAX_FRAME_PAYLOAD ps.
Proof. intros H%replay_history. apply H. Qed.

(** An accepted record extends the history by one step. *)
Lemma appendable_replay j ps v record raw committed frame :
  replay ps = Ok v -> remembers j v -> j_file j = journal_of zero_hash ps ->
  appendable j record raw committed frame ->
  frame = frame_of raw (chain_head zero_hash ps)
  /\ exists w, replay (ps ++ [raw]) = Ok w /\ remembers (append_frame j record raw committed frame) w.
Proof.
  intros Hv (Ho & Hb & Hl & Hp) Hf (_ & Hd & _ & _ & Hn & Ht & Hk & Hc & He & Hs).
  pose proof (replay_history _ _ Hv) as Hh.
  apply encode_frame_ok in He as (_ & Hlen & Hpay & ->).
  rewrite Hp, (h_previous _ _ Hh) in *. split; [done|].
  destruct (replay_snoc ps raw v Hv) as [o Hr]. rewrite Hr. eexists. split.
  - apply recover_frame_ok; [done|]. exists record, committed.
    unfold blen in Hs. rewrite (frame_of_length crc32c raw _ Hlen) in Hs.
    rewrite Ho, (h_order _ _ Hh) in Hc. rewrite Hf in Hs.
    rewrite (h_count _ _ Hh), (h_verified _ _ Hh), <- Hb, <- Hl. split_and!; try done; lia.
  - unfold remembers, append_frame.
    cbn [j_order j_by_candidate j_last j_previous v_order v_by_candidate v_last v_previous].
    rewrite Ho, Hb. split_and!; try done.
    pose proof (frame_of_hash crc32c raw (chain_head zero_hash ps) Hlen) as Hh'.
    rewrite frame_of_length by done.
    by replace (76 + length raw - 32)%nat with (44 + length raw)%nat by lia.
Qed.

Lemma same_journal_jinv j j' : same_journal j j' -> jinv j -> jinv j'.
Proof.
  intros (Hf & Ho & Hb & Hl & Hp & Hh) (ps & v & Hv & Hm & Hc). exists ps, v. unfold remembers.
  rewrite Hf, Ho, Hb, Hl, Hp. split_and!; try done; try apply Hm.
  destruct Hc as [Hc|(Hu & Hc)]; [by left|right]. split; [|done].
  destruct (j_healthy j'); [|done]. rewrite Hh in Hu; done.
Qed.

(** The steps of a journal and its file: a commit, a close, a reopening *)
Inductive jstep (j : journal) : journal -> Prop :=
| J_commit record b a :
    record_valid record -> jstep j (commit j record b a).1
| J_close b seal clean released : jstep j (close_journal j b seal clean released).1
| J_reopen chunks j' torn : recover (j_file j) chunks = Ok (j', torn) -> jstep j j'.

Inductive reachable : journal -> Prop :=
| R_new : reachable empty_journal
| R_step j j' : reachable j -> jstep j j' -> reachable j'.

Lemma replay_head ps p w : replay (ps ++ [p]) = Ok w -> exists v, replay ps = Ok v.
Proof.
  unfold replay. destruct (frames_of_snoc crc32c zero_hash 0 ps p) as [o ->].
  rewrite recover_frames_app. destruct (recover_frames _ (frames_of zero_hash 0 ps)); [by eexists|done].
Qed.

Lemma reopened_jinv ps v : replay ps = Ok v -> jinv (reopened ps v).
Proof. intros H. exists ps, v. unfold remembers. cbn. by split_and!; try left. Qed.

(** A file that follows a history recovers: to the history, or to one record more. *)
Lemma recover_jinv j chunks :
  jinv j -> exists qs w torn, replay qs = Ok w
    /\ recover (j_file j) chunks = Ok (reopened qs w, torn)
    /\ ((qs = j_order j) \/ (j_healthy j = false /\ exists p, qs = j_order j ++ [p])).
Proof.
  intros (ps & v & Hv & (Ho & _) & Hf). pose proof (h_order _ _ (replay_history _ _ Hv)) as Eo.
  rewrite Eo in Ho. rewrite Ho. destruct Hf as [->|(Hu & p & n & w & Hw & ->)].
  { exists ps, v, false. split_and!; [done| |by left]. apply recover_full; [|done].
    by eapply replay_payloads. }
  destruct (decide (n < length (frame_of p (chain_head zero_hash ps)))%nat) as [Hn|Hn].
  - exists ps, v, (negb (bool_decide (n = 0%nat))). split_and!; [done| |by left].
    apply recover_torn; [by eapply replay_payloads|done|done].
  - exists (ps ++ [p]), w, false. split_and!; [done| |right; eauto].
    rewrite take_ge by lia. rewrite <- journal_of_snoc. apply recover_full; [|done].
    by eapply replay_payloads.
Qed.

Lemma commit_jinv j record b a : record_valid record -> jinv j -> jinv (commit j record b a).1.
Proof.
  intros Hr Hj. destruct (commit j record b a) as [j' res] eqn:E.
  apply commit_cases in E; [|done]. cbn [fst].
  destruct E as [j' e Hs|raw|raw ns frame -> Ha|n raw ns frame -> Ha].
  - by eapply same_journal_jinv.
  - done.
  - destruct Hj as (ps & v & Hv & Hm & [Hf|(Hu & _)]).
    2:{ destruct Ha as (_ & _ & _ & Hh & _). congruence. }
    destruct (appendable_replay _ _ _ _ _ _ _ Hv Hm Hf Ha) as (-> & w & Hw & Hm').
    exists (ps ++ [raw]), w. split_and!; [done|done|left]. cbn. by rewrite Hf, journal_of_snoc.
  - destruct Hj as (ps & v & Hv & Hm & [Hf|(Hu & _)]).
    2:{ destruct Ha as (_ & _ & _ & Hh & _). congruence. }
    destruct (appendable_replay _ _ _ _ _ _ _ Hv Hm Hf Ha) as (-> & w & Hw & Hm').
    exists ps, v. split_and!; [done|done|right]. split; [done|].
    exists raw, n, w. split; [done|]. cbn. by rewrite Hf.
Qed.

Lemma close_same j b seal clean released :
  same_journal j (close_journal j b seal clean released).1.
Proof.
  unfold close_journal. destruct (j_closed j); [by split_and!|].
  destruct (j_healthy j) eqn:Hh; [|cbn; unfold same_journal; cbn; by rewrite Hh; split_and!].
  destruct (require_bound j b) as [j1 [u|e]] eqn:Hr; apply require_bound_ok in Hr.
  - destruct Hr as (-> & _ & _). destruct seal; unfold same_journal; cbn; by split_and!.
  - destruct Hr as (H1 & H2 & H3 & H4 & H5 & _). unfold same_journal. cbn. by split_and!.
Qed.

Lemma reachable_jinv j : reachable j -> jinv j.
Proof.
  induction 1 as [|j j' _ IH [record b a Hr|b seal clean released|chunks j1 torn Hc]].
  - exists [], recovery_start. unfold remembers. by split_and!; try left.
  - by apply commit_jinv.
  - eapply same_journal_jinv; [apply close_same|done].
  - destruct (recover_jinv j chunks IH) as (qs & w & t & Hw & E & _). rewrite E in Hc.
    injection Hc as <- <-. by apply reopened_jinv.
Qed.

Lemma raw_for_snoc table c raw : raw_for table c = None -> raw_for (table ++ [(c, raw)]) c = Some raw.
Proof.
  unfold raw_for. induction table as [|[d x] table IH]; cbn [app List.find fst].
  - by rewrite bool_decide_eq_true_2.
  - destruct (bool_decide_reflect (d = c)); [done|exact IH].
Qed.

Lemma canonical_record record raw :
  decode_decision_intent_record raw = Ok record -> canonical_json (JObj (record_dump record)) = Ok raw.
Proof. intros H%decode_record_iff. apply H. Qed.

(** What an object remembers of a candidate after an accepted commit *)
Lemma commit_ok_remembers j record b a j' c :
  record_valid record -> commit j record b a = (j', Ok c) ->
  exists raw, canonical_json (JObj (record_dump record)) = Ok raw
    /\ decode_decision_intent_record raw = Ok record
    /\ j_closed j' = false /\ j_healthy j' = true
    /\ raw_for (j_by_candidate j') (r_candidate_id record) = Some raw
    /\ commit_observation record raw = Ok c.
Proof.
  intros Hv H%commit_cases; [|done].
  remember (Ok c) as res eqn:Eres.
  destruct H as [j1 e|raw Hc Hd Hcl Hh Hr|raw ns frame -> Ha|n raw ns frame -> Ha]; [done| | |done].
  - apply catch_ok in Eres. by exists raw.
  - apply catch_ok in Eres. destruct Ha as (Hc & Hd & Hcl & Hh & Hn & _). exists raw.
    split_and!; try done. cbn [append_frame j_by_candidate]. by apply raw_for_snoc.
Qed.

(** A second record for a candidate that has one *)
Lemma commit_known j other b a raw :
  record_valid other -> raw_for (j_by_candidate j) (r_candidate_id other) = Some raw ->
  exists j1 r, commit j other b a = (j1, r) /\ same_journal j j1
    /\ (forall c, r = Ok c -> decode_decision_intent_record raw = Ok other
                            /\ commit_observation other raw = Ok c).
Proof.
  intros Hv Hx. destruct (commit j other b a) as [j1 r] eqn:E. exists j1, r. split; [done|].
  apply commit_cases in E; [|done].
  destruct E as [j1 e Hs|raw' Hc Hd Hcl Hh Hr|raw' ns f -> Ha|n raw' ns f -> Ha].
  - split; [done|]. by intros c [=].
  - split; [by split_and!|]. intros c Hok%catch_ok. by assert (raw' = raw) as -> by congruence.
  - destruct Ha as (_ & _ & _ & _ & Hn & _). congruence.
  - destruct Ha as (_ & _ & _ & _ & Hn & _). congruence.
Qed.

(** The same record again *)
Lemma commit_again j record raw c a :
  decode_decision_intent_record raw = Ok record ->
  j_closed j = false -> j_healthy j = true ->
  raw_for (j_by_candidate j) (r_candidate_id record) = Some raw ->
  commit_observation record raw = Ok c -> commit j record Bound a = (j, Ok c).
Proof.
  intros Hd Hcl Hh Hx Ho. unfold DecisionJournal.commit.
  rewrite (canonical_record _ _ Hd). cbn [catch_with rbind].
  pose proof (proj1 (decode_record_iff _ _) Hd) as (_ & _ & Hl).
  destruct ((1 <=? blen raw) && (blen raw <=? MAX_FRAME_PAYLOAD)) eqn:E.
  2:{ exfalso. apply andb_false_iff in E. revert E. unfold blen, MAX_FRAME_PAYLOAD.
      unfold MAX_RECORD_BYTES in Hl. intros [E|E]; apply Z.leb_gt in E; [|lia].
      destruct raw; [by vm_compute in Hd|cbn [length] in E; lia]. }
  cbn [guard rbind]. rewrite Hd. cbn [catch_with rbind]. unfold require_bound.
  rewrite Hcl, Hh. cbn [orb negb]. rewrite Hx, bool_decide_eq_true_2 by done. cbn [negb].
  by rewrite Ho.
Qed.

(** However a commit to a healthy journal ends, its file recovers to the records before it, or
    to those and the canonical bytes of the committed record. *)
Lemma commit_recovers j record b a chunks :
  record_valid record -> jinv j -> j_healthy j = true ->
  exists j' torn, recover (j_file (commit j record b a).1) chunks = Ok (j', torn)
    /\ (j_order j' = j_order j
        \/ exists raw, canonical_json (JObj (record_dump record)) = Ok raw /\ j_order j' = j_order j ++ [raw]).
Proof.
  intros Hr (ps & v & Hv & Hm & [Hf|(Hu & _)]) Hh; [|congruence].
  pose proof (replay_payloads _ _ Hv) as Hp.
  assert (Eo : j_order j = ps) by (rewrite (proj1 Hm); by apply replay_history).
  assert (Hsame : exists j' torn, recover (j_file j) chunks = Ok (j', torn) /\ j_order j' = ps).
  { exists (reopened ps v), false. rewrite Hf. split; [by apply recover_full|]. by apply replay_history. }
  destruct (commit j record b a) as [j1 res] eqn:E. apply commit_cases in E; [|done]. rewrite Eo. cbn [fst].
  destruct E as [j1 e Hs|raw|raw ns frame _ Ha|n raw ns frame _ Ha].
  - destruct Hs as [-> _]. destruct Hsame as (j' & t & E & Ho). exists j', t. auto.
  - destruct Hsame as (j' & t & E & Ho). exists j', t. auto.
  - destruct (appendable_replay _ _ _ _ _ _ _ Hv Hm Hf Ha) as (-> & w & Hw & _).
    exists (reopened (ps ++ [raw]) w), false. cbn [append_frame j_file]. rewrite Hf, <- journal_of_snoc.
    split; [apply recover_full; [by eapply replay_payloads|done]|]. right. exists raw.
    split; [apply Ha|by apply replay_history].
  - destruct (appendable_replay _ _ _ _ _ _ _ Hv Hm Hf Ha) as (-> & w & Hw & _). cbn [j_file]. rewrite Hf.
    destruct (decide (n < length (frame_of raw (chain_head zero_hash ps)))%nat) as [Hn|Hn].
    + eexists (reopened ps v), _. split; [by eapply recover_torn; [eapply replay_payloads|..]|].
      left. by apply replay_history.
    + exists (reopened (ps ++ [raw]) w), false. rewrite take_ge, <- journal_of_snoc by lia.
      split; [apply recover_full; [by eapply replay_payloads|done]|]. right. exists raw.
      split; [apply Ha|by apply replay_history].
Qed.

(** C6: A reachable journal always recovers from its file, however the stream cuts the reads.
    A healthy journal recovers to exactly its own records, index, clock and chain head with
    nothing cut off; after an append that failed part way, recovery gives the records before
    that append or those and the one appended, never a part of it: however a commit to a
    healthy journal ends, what its file recovers to beyond the records before is the canonical
    bytes of the committed record. *)
Theorem journal_recovery_exact j chunks :
  reachable j ->
  exists j' torn, recover (j_file j) chunks = Ok (j', torn)
    /\ (j_healthy j = true ->
         torn = false /\ j' = mkJournal (j_file j) (j_order j) (j_by_candidate j) (j_last j)
                                 (j_previous j) true false)
    /\ (j_order j' = j_order j
        \/ (j_healthy j = false /\ exists p, j_order j' = j_order j ++ [p]))
    /\ forall record b a, record_valid record -> j_healthy j = true ->
         exists after torn', recover (j_file (commit j record b a).1) chunks = Ok (after, torn')
           /\ (j_order after = j_order j
               \/ exists raw, canonical_json (JObj (record_dump record)) = Ok raw
                              /\ j_order after = j_order j ++ [raw]).
Proof.
  intros Hj%reachable_jinv. pose proof (fun r b a Hr => commit_recovers j r b a chunks Hr Hj) as Hcommit. destruct (recover_jinv j chunks Hj) as (qs & w & t & Hw & E & Hq).
  pose proof (h_order _ _ (replay_history _ _ Hw)) as Ho.
  exists (reopened qs w), t. split; [done|]. change (j_order (reopened qs w)) with (v_order w).
  rewrite Ho. split; [|by split].
  intros Hh. destruct Hj as (ps & v & Hv & Hm & [Hf|(Hu & _)]); [|congruence].
  rewrite Hf, (recover_full ps v chunks) in E; [|by eapply replay_payloads|done].
  assert (reopened ps v = reopened qs w /\ false = t) as [<- <-] by (split; congruence).
  split; [done|]. unfold reopened. rewrite <- Hf.
  destruct Hm as (-> & -> & -> & ->). done.
Qed.

(** Every record of a reachable journal decodes, no candidate has two, commit times never
    go back, the index answers for exactly the recorded candidates, and the record and byte
    bounds hold. *)
Theorem journal_one_record_per_candidate j :
  reachable j ->
  Forall decodes (j_order j) /\ NoDup (map candidate_of (j_order j))
  /\ times_ordered (map committed_at (j_order j))
  /\ j_by_candidate j = map (fun p => (candidate_of p, p)) (j_order j)
  /\ Z.of_nat (length (j_order j)) <= MAX_RECORDS
  /\ Z.of_nat (length (journal_of zero_hash (j_order j))) <= MAX_VERIFIED_BYTES.
Proof.
  intros (ps & v & Hv%replay_history & (Ho & Hb & _) & _)%reachable_jinv.
  rewrite Ho, Hb, (h_order _ _ Hv). split_and!; apply Hv.
Qed.

(** C14: The first committed record of a candidate wins: committing the same record again
    changes nothing and returns the same observation, whatever an append would do; committing
    any record of that candidate never writes, and succeeds only for the identical record. *)
Theorem journal_commit_idempotent j record b a j' c :
  record_valid record -> commit j record b a = (j', Ok c) ->
  (forall a', commit j' record Bound a' = (j', Ok c))
  /\ forall other b' a',
       record_valid other -> r_candidate_id other = r_candidate_id record ->
       exists j1 r, commit j' other b' a' = (j1, r) /\ same_journal j' j1
         /\ (forall c', r = Ok c' -> other = record /\ c' = c).
Proof.
  intros Hv (raw & Hr & Hd & Hc & Hh & Hx & Ho)%commit_ok_remembers; [|done].
  split; [intros a'; by eapply commit_again|]. intros other b' a' Hv' Hcand. rewrite <- Hcand in Hx.
  destruct (commit_known j' other b' a' raw Hv' Hx) as (j1 & r & E & Hs & Hok).
  exists j1, r. split_and!; [done|done|]. intros c' Hr'. destruct (Hok c' Hr') as [Hd' Ho'].
  assert (other = record) as -> by congruence. split; congruence.
Qed.
End JournalFacts.

(** ** Witnesses *)

Definition committed_sample : journal * result journal_exn DecisionIntentCommit :=
  Eval vm_compute in commit crc32c_bitwise empty_journal sample_record Bound Appended.

Definition torn_sample : journal :=
  Eval vm_compute in (commit crc32c_bitwise empty_journal sample_record Bound (AppendFailed 40)).1.

Lemma sample_record_valid : record_valid sample_record.
Proof. exact (proj1 (proj1 (decode_record_iff _ _) sample_record_decodes)). Qed.

Lemma committed_sample_eq :
  commit crc32c_bitwise empty_journal sample_record Bound Appended = committed_sample.
Proof. vm_compute. reflexivity. Qed.

Lemma committed_reachable : reachable crc32c_bitwise committed_sample.1.
Proof.
  eapply R_step; [apply R_new|]. rewrite <- committed_sample_eq.
  apply J_commit, sample_record_valid.
Qed.

Lemma torn_reachable : reachable crc32c_bitwise torn_sample.
Proof.
  eapply R_step; [apply R_new|].
  assert (E : (commit crc32c_bitwise empty_journal sample_record Bound (AppendFailed 40)).1
    = torn_sample) by (vm_compute; reflexivity).
  rewrite <- E. apply J_commit, sample_record_valid.
Qed.

Lemma journal_recovery_exact_witness :
  length (j_order committed_sample.1) = 1%nat /\ length (j_file torn_sample) = 40%nat
  /\ (exists j torn, recover crc32c_bitwise (j_file committed_sample.1) [3%positive] IoDone
                      = Ok (j, torn) /\ j_order j = j_order committed_sample.1)
  /\ exists j torn, recover crc32c_bitwise (j_file torn_sample) [] IoDone = Ok (j, torn).
Proof.
  split; [vm_compute; reflexivity|]. split; [vm_compute; reflexivity|]. split.
  - destruct (journal_recovery_exact crc32c_bitwise crc32c_bitwise_range committed_sample.1
      [3%positive] committed_reachable) as (j & torn & E & Hh & _).
    exists j, torn. split; [exact E|]. by rewrite (proj2 (Hh eq_refl)).
  - destruct (journal_recovery_exact crc32c_bitwise crc32c_bitwise_range torn_sample [] torn_reachable)
      as (j & torn & E & _). exists j, torn. exact E.
Defined.

Lemma journal_one_record_witness :
  length (j_order committed_sample.1) = 1%nat /\ NoDup (map candidate_of (j_order committed_sample.1)).
Proof.
  split; [vm_compute; reflexivity|].
  exact (proj1 (proj2 (journal_one_record_per_candidate crc32c_bitwise crc32c_bitwise_range
    committed_sample.1 committed_reachable))).
Defined.

Lemma journal_commit_idempotent_witness :
  exists c, committed_sample.2 = Ok c
    /\ commit crc32c_bitwise committed_sample.1 sample_record Bound (AppendFailed 7)
       = (committed_sample.1, Ok c).
Proof.
  assert (E : exists c, commit crc32c_bitwise empty_journal sample_record Bound Appended
                        = (committed_sample.1, Ok c) /\ committed_sample.2 = Ok c).
  { rewrite committed_sample_eq. eexists. split; reflexivity. }
  destruct E as (c & E & Ec). exists c. split; [exact Ec|].
  exact (proj1 (journal_commit_idempotent crc32c_bitwise empty_journal sample_record Bound Appended
    _ c sample_record_valid E) (AppendFailed 7)).
Defined.
