(* ===== verification/ActuatorRecords.v ===== *)
(** * Actuator records

    [actions/actuator_records.py] with [ActionRecordV1] of [contracts.py]: the signed
    records of the actuator's mixed journal (rate reservations, apply attempts, action
    records), their verification against one hash chain, and the projection of the chain
    into the state of each intent.  Ed25519 is a parameter, as in [Identities].

    The five dictionaries are finite maps; the open transaction keeps its undo log as the
    code does.  Everything that fails while one payload is appended surfaces as
    [ActuatorRecordError] and leaves the projection as it was. *)

From stdpp Require Import gmap.
From S2P Require Import Prelude Sha256 CanonicalJson JsonDecode Time Ipv4 Identities Contracts.
From S2P Require Import Egress.
Local Open Scope Z_scope.
Local Open Scope agmind_scope.

(** ** [ActionRecordV1] *)

(** [ACTION_STATES] *)
Inductive action_state :=
| PROPOSED | POLICY_ADMITTED | PREPARED | APPROVED | APPLIED | VERIFIED | EXPIRED
| STALE_ABORT | REJECTED | FAILED_DIRTY | EXPIRED_UNAPPLIED.

#[export] Instance action_state_eq_dec : EqDecision action_state.
Proof. solve_decision. Defined.

Definition state_text (s : action_state) : pystr :=
  u match s with
    | PROPOSED => "PROPOSED" | POLICY_ADMITTED => "POLICY_ADMITTED" | PREPARED => "PREPARED"
    | APPROVED => "APPROVED" | APPLIED => "APPLIED" | VERIFIED => "VERIFIED"
    | EXPIRED => "EXPIRED" | STALE_ABORT => "STALE_ABORT" | REJECTED => "REJECTED"
    | FAILED_DIRTY => "FAILED_DIRTY" | EXPIRED_UNAPPLIED => "EXPIRED_UNAPPLIED"
    end%string.

Definition ACTION_STATES : list action_state :=
  [PROPOSED; POLICY_ADMITTED; PREPARED; APPROVED; APPLIED; VERIFIED; EXPIRED; STALE_ABORT;
   REJECTED; FAILED_DIRTY; EXPIRED_UNAPPLIED].

(** [state_is_valid] *)
Definition state_field (doc : document) : result py_exn action_state :=
  let* s := str_field (u "state") doc in
  of_option ValueError (List.find (fun a => bool_decide (state_text a = s)) ACTION_STATES).

Record ActionRecordV1 := mkAction {
  ar_record_id : pystr; ar_action_id : option pystr; ar_plan_id : pystr; ar_plan_hash : pystr;
  ar_state : action_state; ar_reason : pystr; ar_observed_at : pystr; ar_previous : pystr;
  ar_sha256 : pystr; ar_details : document; ar_key_id : pystr; ar_signature : pystr }.

Definition ACTION_SCHEMA : pystr := u "agmind.action-record.v1".

Definition action_fields (r : ActionRecordV1) : list (pystr * option json) :=
  [(u "schema_version", Some (JStr ACTION_SCHEMA));
   (u "record_id", Some (JStr (ar_record_id r))); (u "action_id", JStr <$> ar_action_id r);
   (u "plan_id", Some (JStr (ar_plan_id r))); (u "plan_hash", Some (JStr (ar_plan_hash r)));
   (u "state", Some (JStr (state_text (ar_state r))));
   (u "reason_code", Some (JStr (ar_reason r)));
   (u "observed_at", Some (JStr (ar_observed_at r)));
   (u "previous_record_sha256", Some (JStr (ar_previous r)));
   (u "record_sha256", Some (JStr (ar_sha256 r))); (u "details", Some (JObj (ar_details r)));
   (u "actuator_key_id", Some (JStr (ar_key_id r)));
   (u "actuator_signature", Some (JStr (ar_signature r)))].

Definition action_dump (r : ActionRecordV1) : document := dump_of (action_fields r).

Definition action_keys : list pystr :=
  map u ["schema_version"; "record_id"; "action_id"; "plan_id"; "plan_hash"; "state";
         "reason_code"; "observed_at"; "previous_record_sha256"; "record_sha256"; "details";
         "actuator_key_id"; "actuator_signature"]%string.

Definition action_required : list pystr :=
  filter (fun k => k <> u "action_id") action_keys.

(** The field validators *)
Definition action_fields_ok (r : ActionRecordV1) : bool :=
  is_prefixed_hex "ar_" 32 (ar_record_id r)
  && opt_ok (is_prefixed_hex "act_" 32) (ar_action_id r)
  && is_prefixed_hex "plan_" 32 (ar_plan_id r)
  && HEX64 (ar_plan_hash r) && HEX64 (ar_previous r) && HEX64 (ar_sha256 r)
  && short_ascii (ar_reason r) && valid_timestamp (ar_observed_at r)
  && HEX32 (ar_key_id r) && HEX128 (ar_signature r).

(** [record_hashes_match] *)
Definition record_hashes_match (r : ActionRecordV1) : result py_exn unit :=
  bounded_nested 1024 64 64 64 (JObj (ar_details r)) 1 ;;*
  let* canonical := canonical_json (JObj (ar_details r)) in
  check (Z.of_nat (length canonical) <=? 32 * 1024) ;;*
  match ar_action_id r with
  | None => Ok tt
  | Some a => let* derived := action_id (ar_plan_hash r) in check (bool_decide (a = derived))
  end ;;*
  let* expected := action_record_hash (action_dump r) in
  check (bool_decide (ar_sha256 r = expected)) ;;*
  let* identifier := action_record_id expected in
  check (bool_decide (ar_record_id r = identifier)).

(** [ActionRecordV1.model_validate(doc, strict=True)] *)
Definition action_validate (doc : document) : result py_exn ActionRecordV1 :=
  no_extra action_keys doc ;;*
  literal_field (u "schema_version") [ACTION_SCHEMA] doc ;;*
  let* record_id := str_field (u "record_id") doc in
  let* action := opt_str_field (u "action_id") doc in
  let* plan := str_field (u "plan_id") doc in
  let* hash := str_field (u "plan_hash") doc in
  let* state := state_field doc in
  let* reason := str_field (u "reason_code") doc in
  let* observed := str_field (u "observed_at") doc in
  let* previous := str_field (u "previous_record_sha256") doc in
  let* sha := str_field (u "record_sha256") doc in
  let* details := dict_field (u "details") doc in
  let* key := str_field (u "actuator_key_id") doc in
  let* signature := str_field (u "actuator_signature") doc in
  let r := mkAction record_id action plan hash state reason observed previous sha details key
    signature in
  check (action_fields_ok r) ;;* record_hashes_match r ;;* Ok r.

(** ** Rate reservations and apply attempts *)

(** [_valid_timestamp] of this module: also no trailing zero in the fraction *)
Definition valid_minimal_timestamp (value : pystr) : bool :=
  match match_timestamp value with
  | None => false
  | Some m =>
      match m_fraction m with
      | Some f => negb (bool_decide (last f = Some 48))
      | None => true
      end && valid_timestamp value
  end.

Record RateReservationV1 := mkReservation {
  rr_id : pystr; rr_intent_id : pystr; rr_intent_sha256 : pystr; rr_reserved_at : pystr;
  rr_previous : pystr; rr_sha256 : pystr; rr_key_id : pystr; rr_signature : pystr }.

Definition RESERVATION_SCHEMA : pystr := u "agmind.intent-rate-reservation.v1".

Definition reservation_fields (r : RateReservationV1) : list (pystr * option json) :=
  [(u "schema_version", Some (JStr RESERVATION_SCHEMA));
   (u "reservation_id", Some (JStr (rr_id r))); (u "intent_id", Some (JStr (rr_intent_id r)));
   (u "intent_sha256", Some (JStr (rr_intent_sha256 r)));
   (u "reserved_at", Some (JStr (rr_reserved_at r)));
   (u "previous_record_sha256", Some (JStr (rr_previous r)));
   (u "record_sha256", Some (JStr (rr_sha256 r)));
   (u "actuator_key_id", Some (JStr (rr_key_id r)));
   (u "actuator_signature", Some (JStr (rr_signature r)))].

Definition reservation_dump (r : RateReservationV1) : document := dump_of (reservation_fields r).

Definition reservation_keys : list pystr :=
  map u ["schema_version"; "reservation_id"; "intent_id"; "intent_sha256"; "reserved_at";
         "previous_record_sha256"; "record_sha256"; "actuator_key_id";
         "actuator_signature"]%string.

(** [_RateReservationV1.model_validate] *)
Definition reservation_validate (doc : document) : result py_exn RateReservationV1 :=
  no_extra reservation_keys doc ;;*
  literal_field (u "schema_version") [RESERVATION_SCHEMA] doc ;;*
  let* identifier := str_field (u "reservation_id") doc in
  let* intent := str_field (u "intent_id") doc in
  let* sha := str_field (u "intent_sha256") doc in
  let* reserved := str_field (u "reserved_at") doc in
  let* previous := str_field (u "previous_record_sha256") doc in
  let* record := str_field (u "record_sha256") doc in
  let* key := str_field (u "actuator_key_id") doc in
  let* signature := str_field (u "actuator_signature") doc in
  check (is_prefixed_hex "rr_" 32 identifier && is_prefixed_hex "int_" 32 intent
         && HEX64 sha && HEX64 previous && HEX64 record && valid_minimal_timestamp reserved
         && HEX32 key && HEX128 signature) ;;*
  Ok (mkReservation identifier intent sha reserved previous record key signature).

Record ApplyAttemptV1 := mkAttempt {
  aa_id : pystr; aa_plan_id : pystr; aa_plan_hash : pystr; aa_started_at : pystr;
  aa_boot_id : pystr; aa_boottime_ns : Z; aa_netns_inode : Z; aa_destination : pystr;
  aa_ttl : Z; aa_ruleset_sha256 : pystr; aa_previous_action : pystr; aa_previous : pystr;
  aa_sha256 : pystr; aa_key_id : pystr; aa_signature : pystr }.

Definition ATTEMPT_SCHEMA : pystr := u "agmind.apply-attempt.v1".

Definition attempt_fields (r : ApplyAttemptV1) : list (pystr * option json) :=
  [(u "schema_version", Some (JStr ATTEMPT_SCHEMA));
   (u "attempt_id", Some (JStr (aa_id r))); (u "plan_id", Some (JStr (aa_plan_id r)));
   (u "plan_hash", Some (JStr (aa_plan_hash r)));
   (u "started_at", Some (JStr (aa_started_at r))); (u "boot_id", Some (JStr (aa_boot_id r)));
   (u "boottime_ns", Some (JInt (aa_boottime_ns r)));
   (u "target_netns_inode", Some (JInt (aa_netns_inode r)));
   (u "destination_ipv4", Some (JStr (aa_destination r)));
   (u "ttl_seconds", Some (JInt (aa_ttl r)));
   (u "expected_ruleset_sha256", Some (JStr (aa_ruleset_sha256 r)));
   (u "previous_action_record_sha256", Some (JStr (aa_previous_action r)));
   (u "previous_record_sha256", Some (JStr (aa_previous r)));
   (u "record_sha256", Some (JStr (aa_sha256 r)));
   (u "actuator_key_id", Some (JStr (aa_key_id r)));
   (u "actuator_signature", Some (JStr (aa_signature r)))].

Definition attempt_dump (r : ApplyAttemptV1) : document := dump_of (attempt_fields r).

Definition attempt_keys : list pystr :=
  map u ["schema_version"; "attempt_id"; "plan_id"; "plan_hash"; "started_at"; "boot_id";
         "boottime_ns"; "target_netns_inode"; "destination_ipv4"; "ttl_seconds";
         "expected_ruleset_sha256"; "previous_action_record_sha256"; "previous_record_sha256";
         "record_sha256"; "actuator_key_id"; "actuator_signature"]%string.

(** [_ApplyAttemptV1.model_validate] *)
Definition attempt_validate (doc : document) : result py_exn ApplyAttemptV1 :=
  no_extra attempt_keys doc ;;*
  literal_field (u "schema_version") [ATTEMPT_SCHEMA] doc ;;*
  let* identifier := str_field (u "attempt_id") doc in
  let* plan := str_field (u "plan_id") doc in
  let* hash := str_field (u "plan_hash") doc in
  let* started := str_field (u "started_at") doc in
  let* boot := str_field (u "boot_id") doc in
  let* boottime := int_field (u "boottime_ns") 1 MAX_UINT64 doc in
  let* inode := int_field (u "target_netns_inode") 1 MAX_UINT64 doc in
  let* destination := str_field (u "destination_ipv4") doc in
  let* ttl := int_field (u "ttl_seconds") 30 300 doc in
  let* ruleset := str_field (u "expected_ruleset_sha256") doc in
  let* previous_action := str_field (u "previous_action_record_sha256") doc in
  let* previous := str_field (u "previous_record_sha256") doc in
  let* record := str_field (u "record_sha256") doc in
  let* key := str_field (u "actuator_key_id") doc in
  let* signature := str_field (u "actuator_signature") doc in
  check (is_prefixed_hex "aa_" 32 identifier && is_prefixed_hex "plan_" 32 plan && HEX64 hash
         && HEX64 ruleset && HEX64 previous_action && HEX64 previous && HEX64 record
         && valid_minimal_timestamp started && UUID4 boot && valid_ipv4 destination
         && HEX32 key && HEX128 signature) ;;*
  Ok (mkAttempt identifier plan hash started boot boottime inode destination ttl ruleset
        previous_action previous record key signature).

(** ** The projection *)

Record ReservationState := mkReservationState {
  rs_intent_sha256 : pystr; rs_reserved_at : pystr; rs_record_sha256 : pystr }.

Record PreparedState := mkPreparedState {
  ps_plan : PreparedTemporaryEgressDenyPlanV1; ps_intent_sha256 : pystr; ps_deadline_ns : Z;
  ps_record_id : pystr; ps_record_sha256 : pystr }.

Record OutcomeState := mkOutcomeState {
  os_state : action_state; os_record_id : pystr; os_record_sha256 : pystr;
  os_observed_at : pystr }.

Record AttemptState := mkAttemptState { as_record_sha256 : pystr; as_ruleset_sha256 : pystr }.

Record VerifiedActuatorPayload := mkVerified {
  vp_schema : pystr; vp_sha256 : pystr; vp_payload : bytes; vp_intent_id : option pystr;
  vp_plan_id : option pystr }.

Record MirroredIntentState := mkMirrored {
  mi_intent_id : pystr; mi_intent_sha256 : pystr; mi_state : pystr;
  mi_plan : option PreparedTemporaryEgressDenyPlanV1; mi_record_id : option pystr;
  mi_record_sha256 : option pystr; mi_observed_at : option pystr }.

(** The five dictionaries *)
Record tables := mkTables {
  t_reservations : gmap pystr ReservationState; t_by_intent : gmap pystr PreparedState;
  t_by_plan : gmap pystr PreparedState; t_outcomes : gmap pystr OutcomeState;
  t_attempts : gmap pystr AttemptState }.

Definition no_tables : tables := mkTables ∅ ∅ ∅ ∅ ∅.

(** One entry of one dictionary with the value it has or had, if any *)
Inductive entry :=
| InReservations (key : pystr) (value : option ReservationState)
| InByIntent (key : pystr) (value : option PreparedState)
| InByPlan (key : pystr) (value : option PreparedState)
| InOutcomes (key : pystr) (value : option OutcomeState)
| InAttempts (key : pystr) (value : option AttemptState).

(** The dictionary and the key of an entry *)
Inductive address :=
| AtReservation (key : pystr) | AtIntent (key : pystr) | AtPlan (key : pystr)
| AtOutcome (key : pystr) | AtAttempt (key : pystr).

#[export] Instance address_eq_dec : EqDecision address.
Proof. solve_decision. Defined.

Definition address_of (e : entry) : address :=
  match e with
  | InReservations k _ => AtReservation k | InByIntent k _ => AtIntent k
  | InByPlan k _ => AtPlan k | InOutcomes k _ => AtOutcome k | InAttempts k _ => AtAttempt k
  end.

(** [mapping[key] = value], or [mapping.pop(key, None)] without a value *)
Definition put (e : entry) (t : tables) : tables :=
  let '(mkTables rs bi bp os ats) := t in
  match e with
  | InReservations k v => mkTables (partial_alter (fun _ => v) k rs) bi bp os ats
  | InByIntent k v => mkTables rs (partial_alter (fun _ => v) k bi) bp os ats
  | InByPlan k v => mkTables rs bi (partial_alter (fun _ => v) k bp) os ats
  | InOutcomes k v => mkTables rs bi bp (partial_alter (fun _ => v) k os) ats
  | InAttempts k v => mkTables rs bi bp os (partial_alter (fun _ => v) k ats)
  end.

(** What the dictionary holds at an address now *)
Definition peek (a : address) (t : tables) : entry :=
  match a with
  | AtReservation k => InReservations k (t_reservations t !! k)
  | AtIntent k => InByIntent k (t_by_intent t !! k)
  | AtPlan k => InByPlan k (t_by_plan t !! k)
  | AtOutcome k => InOutcomes k (t_outcomes t !! k)
  | AtAttempt k => InAttempts k (t_attempts t !! k)
  end.

(** [_ProjectionTransaction]; [tx_token] is the identity of the object *)
Record ProjectionTransaction := mkTransaction {
  tx_token : Z; tx_previous : pystr; tx_action_count : nat; tx_changes : list entry;
  tx_seen : list address }.

Record ActuatorRecordProjection := mkProjection {
  p_previous : pystr; p_actions : list ActionRecordV1; p_tables : tables;
  p_transaction : option ProjectionTransaction }.

Definition ZERO_SHA256 : pystr := repeat 48 64.

(** [ActuatorRecordProjection.__init__] with a key of 32 bytes *)
Definition new_projection : ActuatorRecordProjection := mkProjection ZERO_SHA256 [] no_tables None.

(** [begin_extension] *)
Definition begin_extension (p : ActuatorRecordProjection) (tok : Z)
  : result py_exn ActuatorRecordProjection :=
  match p_transaction p with
  | Some _ => Err ValueError
  | None => Ok (mkProjection (p_previous p) (p_actions p) (p_tables p)
                  (Some (mkTransaction tok (p_previous p) (length (p_actions p)) [] [])))
  end.

(** [rollback_extension]: the changes undone from the last to the first *)
Definition rollback_extension (p : ActuatorRecordProjection) (tok : Z)
  : result py_exn ActuatorRecordProjection :=
  match p_transaction p with
  | Some t =>
      check (tx_token t =? tok) ;;*
      Ok (mkProjection (tx_previous t) (take (tx_action_count t) (p_actions p))
            (foldr put (p_tables p) (tx_changes t)) None)
  | None => Err ValueError
  end.

(** [commit_extension] *)
Definition commit_extension (p : ActuatorRecordProjection) (tok : Z)
  : result py_exn ActuatorRecordProjection :=
  match p_transaction p with
  | Some t =>
      check (tx_token t =? tok) ;;*
      Ok (mkProjection (p_previous p) (p_actions p) (p_tables p) None)
  | None => Err ValueError
  end.

(** [_set_state]: the first change of an entry in a transaction logs its old value *)
Definition set_state (e : entry) (p : ActuatorRecordProjection) : ActuatorRecordProjection :=
  let logged :=
    match p_transaction p with
    | None => None
    | Some t =>
        Some (if bool_decide (address_of e ∈ tx_seen t) then t
              else mkTransaction (tx_token t) (tx_previous t) (tx_action_count t)
                     (tx_changes t ++ [peek (address_of e) (p_tables p)])
                     (tx_seen t ++ [address_of e]))
    end in
  mkProjection (p_previous p) (p_actions p) (put e (p_tables p)) logged.

(** ** Small helpers *)

Definition MAX_PAYLOAD_BYTES : Z := 65536.
Definition APPROVAL_TTL_NS : Z := 300000000000.

(** [_canonical_model], [_canonical_attempt] and [_canonical_action] *)
Definition canonical_payload {T} (required : list pystr) (validate : document -> result py_exn T)
    (dump : T -> document) (raw : bytes) : result py_exn T :=
  let* decoded := decode_strict required validate raw MAX_PAYLOAD_BYTES in
  let* canonical := canonical_json (JObj (dump decoded)) in
  check (bool_decide (canonical = raw)) ;;* Ok decoded.

(** [_hash_without] *)
Definition hash_without (doc : document) (domain : bytes) (fields : list pystr)
  : result py_exn pystr :=
  let* canonical := canonical_json (JObj (fold_left (fun d f => pop f d) fields doc)) in
  Ok (sha256_hex (domain ++ canonical)).

(** [_uint] *)
Definition uint_detail (details : document) (key : pystr) (bits : Z) : result py_exn Z :=
  match get key details with
  | Some (JInt z) => check ((0 <=? z) && (z <? 2 ^ bits)) ;;* Ok z
  | _ => Err ValueError
  end.

(** A detail that must be a string *)
Definition str_detail (details : document) (key : pystr) : result py_exn pystr :=
  str_field key details.

(** [_timestamp]: the pair of whole seconds and nanoseconds, compared as pairs, is the
    instant in nanoseconds. *)
Definition transition_time (value : pystr) : result py_exn Z :=
  check (valid_minimal_timestamp value) ;;* parse_rfc3339nano_utc_ns value.

(** [set(details) == expected] *)
Definition keys_are (details : document) (expected : list pystr) : bool :=
  forallb (fun kv => bool_decide (kv.1 ∈ expected)) details
  && forallb (fun k => bool_decide (k ∈ map fst details)) expected.

Definition ACTUATOR_INTENT_HASH_DOMAIN : bytes := bstr "AGMIND_ACTUATOR_INTENT_V1" ++ NUL.

(** [_intent_from_plan]: the dump without the fields of the plan alone, validated again *)
Definition intent_from_plan (p : PreparedTemporaryEgressDenyPlanV1)
  : result py_exn TemporaryEgressDenyIntentV1 :=
  let fields := fold_left (fun d f => pop f d) plan_only_keys (plan_dump p) in
  intent_validate ((u "schema_version", JStr INTENT_SCHEMA) :: pop (u "schema_version") fields).

(** [actuator_intent_sha256] *)
Definition actuator_intent_sha256 (p : PreparedTemporaryEgressDenyPlanV1) : result py_exn pystr :=
  let* x := intent_from_plan p in
  let* canonical := canonical_json (JObj (intent_dump x)) in
  Ok (sha256_hex (ACTUATOR_INTENT_HASH_DOMAIN ++ canonical)).

(** ** Appending one record *)

Section Append.
Context (ed25519_verify : bytes -> bytes -> bytes -> bool) (public_key : bytes).

(** [_verify_ed25519] *)
Definition verify_ed25519 (signature_text : pystr) (domain : bytes) (doc : document)
  : result py_exn unit :=
  let* signature := fromhex signature_text in
  let* canonical := canonical_json (JObj (pop (u "actuator_signature") doc)) in
  check (ed25519_verify public_key signature (domain ++ canonical)).

Definition RATE_HASH_DOMAIN : bytes := bstr "AGMIND_RATE_RESERVATION_HASH_V1" ++ NUL.
Definition RATE_SIGNING_DOMAIN : bytes := bstr "AGMIND_RATE_RESERVATION_V1" ++ NUL.
Definition ATTEMPT_HASH_DOMAIN : bytes := bstr "AGMIND_APPLY_ATTEMPT_HASH_V1" ++ NUL.
Definition ATTEMPT_SIGNING_DOMAIN : bytes := bstr "AGMIND_APPLY_ATTEMPT_V1" ++ NUL.

(** [_append_reservation] *)
Definition append_reservation (p : ActuatorRecordProjection) (r : RateReservationV1)
    (payload : bytes) : result py_exn (ActuatorRecordProjection * VerifiedActuatorPayload) :=
  let doc := reservation_dump r in
  let* expected := hash_without doc RATE_HASH_DOMAIN
    (map u ["reservation_id"; "record_sha256"; "actuator_signature"]%string) in
  let* key := key_id public_key in
  check (bool_decide (rr_previous r = p_previous p) && bool_decide (rr_sha256 r = expected)
         && bool_decide (rr_id r = u "rr_" ++ take 32 expected)
         && bool_decide (rr_key_id r = key)) ;;*
  verify_ed25519 (rr_signature r) RATE_SIGNING_DOMAIN doc ;;*
  check (bool_decide (t_by_intent (p_tables p) !! rr_intent_id r = None)) ;;*
  check (match t_reservations (p_tables p) !! rr_intent_id r with
         | Some prior => bool_decide (rs_intent_sha256 prior = rr_intent_sha256 r)
         | None => true
         end) ;;*
  Ok (set_state (InReservations (rr_intent_id r)
        (Some (mkReservationState (rr_intent_sha256 r) (rr_reserved_at r) (rr_sha256 r)))) p,
      mkVerified RESERVATION_SCHEMA (rr_sha256 r) payload (Some (rr_intent_id r)) None).

(** [_append_attempt] *)
Definition append_attempt (p : ActuatorRecordProjection) (r : ApplyAttemptV1) (payload : bytes)
  : result py_exn (ActuatorRecordProjection * VerifiedActuatorPayload) :=
  let doc := attempt_dump r in
  let* expected := hash_without doc ATTEMPT_HASH_DOMAIN
    (map u ["attempt_id"; "record_sha256"; "actuator_signature"]%string) in
  let* key := key_id public_key in
  check (bool_decide (aa_previous r = p_previous p) && bool_decide (aa_sha256 r = expected)
         && bool_decide (aa_id r = u "aa_" ++ take 32 expected)
         && bool_decide (aa_key_id r = key)) ;;*
  verify_ed25519 (aa_signature r) ATTEMPT_SIGNING_DOMAIN doc ;;*
  match t_by_plan (p_tables p) !! aa_plan_id r, t_outcomes (p_tables p) !! aa_plan_id r with
  | Some prepared, Some outcome =>
      let plan := ps_plan prepared in
      check (bool_decide (os_state outcome = APPROVED)
             && bool_decide (t_attempts (p_tables p) !! aa_plan_id r = None)
             && bool_decide (aa_previous_action r = os_record_sha256 outcome)
             && bool_decide (aa_plan_hash r = p_plan_hash plan)
             && bool_decide (aa_boot_id r = p_boot_id plan)
             && (aa_netns_inode r =? p_netns_inode plan)
             && bool_decide (aa_destination r = x_destination (p_egress plan))
             && (aa_ttl r =? x_ttl (p_egress plan))) ;;*
      Ok (set_state (InAttempts (aa_plan_id r)
            (Some (mkAttemptState (aa_sha256 r) (aa_ruleset_sha256 r)))) p,
          mkVerified ATTEMPT_SCHEMA (aa_sha256 r) payload
            (Some (x_intent_id (p_egress plan))) (Some (aa_plan_id r)))
  | _, _ => Err ValueError
  end.

(** [_append_prepared] *)
Definition append_prepared (p : ActuatorRecordProjection) (r : ActionRecordV1)
  : result py_exn (ActuatorRecordProjection * pystr) :=
  let details := ar_details r in
  check (bool_decide (ar_reason r = u "intent_prepared")
         && keys_are details
              (map u ["approval_deadline_boottime_ns"; "intent_sha256"; "prepared_plan"]%string)) ;;*
  let* action := of_option ValueError (ar_action_id r) in
  let* deadline := uint_detail details (u "approval_deadline_boottime_ns") 64 in
  let* claimed := str_detail details (u "intent_sha256") in
  check (negb (deadline =? 0)) ;;*
  let* nested := of_option ValueError (get (u "prepared_plan") details) in
  let* raw := canonical_json nested in
  let* plan := decode_strict plan_keys plan_validate raw MAX_PAYLOAD_BYTES in
  let* intent_sha := actuator_intent_sha256 plan in
  let intent := x_intent_id (p_egress plan) in
  let* reservation := of_option ValueError (t_reservations (p_tables p) !! intent) in
  let* derived := action_id (p_plan_hash plan) in
  let* prepared_at := transition_time (p_prepared_at plan) in
  let* reserved_at := transition_time (rs_reserved_at reservation) in
  check (bool_decide (claimed = intent_sha)
         && bool_decide (rs_intent_sha256 reservation = intent_sha)
         && bool_decide (rs_record_sha256 reservation = ar_previous r)
         && bool_decide (ar_plan_id r = p_plan_id plan)
         && bool_decide (ar_plan_hash r = p_plan_hash plan)
         && bool_decide (ar_observed_at r = p_prepared_at plan)
         && bool_decide (action = derived)
         && bool_decide (t_by_intent (p_tables p) !! intent = None)
         && bool_decide (t_by_plan (p_tables p) !! p_plan_id plan = None)
         && (reserved_at <=? prepared_at)) ;;*
  let prepared := mkPreparedState plan intent_sha deadline (ar_record_id r) (ar_sha256 r) in
  Ok (set_state (InByPlan (p_plan_id plan) (Some prepared))
        (set_state (InByIntent intent (Some prepared)) p), intent).

Definition outcome_of (r : ActionRecordV1) : OutcomeState :=
  mkOutcomeState (ar_state r) (ar_record_id r) (ar_sha256 r) (ar_observed_at r).

(** The table of [_append_decision] from state and basis to reason *)
Definition decision_reason (s : action_state) (basis : pystr) : option pystr :=
  match s with
  | APPROVED =>
      if bool_decide (basis = u "local_admin_approval") then Some (u "local_admin_approved")
      else None
  | REJECTED =>
      if bool_decide (basis = u "local_admin_rejection") then Some (u "local_admin_rejected")
      else None
  | EXPIRED_UNAPPLIED =>
      if bool_decide (basis = u "wall_deadline") || bool_decide (basis = u "boottime_deadline")
      then Some (u "approval_deadline_elapsed")
      else if bool_decide (basis = u "host_boot_changed") then Some (u "host_boot_changed")
      else None
  | _ => None
  end.

Definition decision_keys : list pystr :=
  map u ["previous_action_record_sha256"; "decision_boot_id"; "decision_boottime_ns";
         "admin_uid"; "admin_gid"; "authorization_basis"; "decision_basis"]%string.

Definition authority_valid (authorization : pystr) (uid gid : Z) : bool :=
  (bool_decide (authorization = u "root") && (uid =? 0))
  || ((bool_decide (authorization = u "primary_group")
       || bool_decide (authorization = u "supplementary_group")) && negb (uid =? 0))
  || (bool_decide (authorization = u "system_expiry") && (uid =? 0) && (gid =? 0)).

(** The clock condition of a decision *)
Definition decision_in_time (s : action_state) (basis authorization boot : pystr)
    (plan : PreparedTemporaryEgressDenyPlanV1) (deadline boottime observed prepared_at expires_at : Z)
  : bool :=
  let same_boot := bool_decide (boot = p_boot_id plan) in
  match s with
  | APPROVED | REJECTED =>
      negb (bool_decide (authorization = u "system_expiry")) && same_boot
      && ((prepared_at <=? observed) && (observed <? expires_at))
      && ((deadline - APPROVAL_TTL_NS <=? boottime) && (boottime <? deadline))
  | _ =>
      if bool_decide (basis = u "wall_deadline") then same_boot && (expires_at <=? observed)
      else if bool_decide (basis = u "boottime_deadline") then same_boot && (deadline <=? boottime)
      else negb same_boot
  end.

(** [_append_decision] *)
Definition append_decision (p : ActuatorRecordProjection) (r : ActionRecordV1)
  : result py_exn (ActuatorRecordProjection * pystr) :=
  let details := ar_details r in
  let* prepared := of_option ValueError (t_by_plan (p_tables p) !! ar_plan_id r) in
  let plan := ps_plan prepared in
  check (bool_decide (is_Some (ar_action_id r)) && bool_decide (length details = 7%nat)
         && keys_are details decision_keys) ;;*
  let* boottime := uint_detail details (u "decision_boottime_ns") 64 in
  let* uid := uint_detail details (u "admin_uid") 32 in
  let* gid := uint_detail details (u "admin_gid") 32 in
  let* previous := str_detail details (u "previous_action_record_sha256") in
  let* boot := str_detail details (u "decision_boot_id") in
  let* authorization := str_detail details (u "authorization_basis") in
  let* basis := str_detail details (u "decision_basis") in
  check (UUID4 boot && negb (boottime =? 0) && bool_decide (ar_plan_hash r = p_plan_hash plan)
         && bool_decide (previous = ps_record_sha256 prepared)) ;;*
  check (authority_valid authorization uid gid
         && bool_decide (decision_reason (ar_state r) basis = Some (ar_reason r))) ;;*
  let* observed := transition_time (ar_observed_at r) in
  let* prepared_at := transition_time (p_prepared_at plan) in
  let* expires_at := transition_time (p_expires_at plan) in
  check (APPROVAL_TTL_NS <? ps_deadline_ns prepared) ;;*
  check (decision_in_time (ar_state r) basis authorization boot plan (ps_deadline_ns prepared)
           boottime observed prepared_at expires_at) ;;*
  Ok (set_state (InOutcomes (ar_plan_id r) (Some (outcome_of r))) p, x_intent_id (p_egress plan)).

(** The transitions [_append_lifecycle] allows *)
Definition allowed (s : action_state) (attempted : bool) : list action_state :=
  match s, attempted with
  | APPROVED, false => [STALE_ABORT; REJECTED]
  | APPROVED, true => [APPLIED; REJECTED; FAILED_DIRTY]
  | APPLIED, true => [VERIFIED; EXPIRED; FAILED_DIRTY]
  | VERIFIED, true => [EXPIRED; FAILED_DIRTY]
  | _, _ => []
  end.

Definition lifecycle_keys (s : action_state) : list pystr :=
  map u (app ["previous_action_record_sha256"; "transition_boot_id"; "transition_boottime_ns";
              "transition_basis"]
            match s with
            | APPLIED => ["apply_attempt_sha256"; "target_netns_inode"; "ruleset_sha256";
                "configured_timeout_ms"; "remaining_timeout_ms"; "counter_packets";
                "counter_bytes"; "host_netns_before"; "host_netns_after"]
            | VERIFIED => ["applied_record_sha256"; "audit_deadline_boottime_ns"]
            | _ => []
            end)%string.

Definition lifecycle_reason (s : action_state) (reason basis : pystr) : bool :=
  match s with
  | STALE_ABORT =>
      bool_decide (reason = u "target_revalidation_failed") && negb (bool_decide (basis = []))
  | REJECTED =>
      (bool_decide (reason = u "nft_preflight_rejected")
       || bool_decide (reason = u "nft_apply_proven_absent")) && negb (bool_decide (basis = []))
  | FAILED_DIRTY =>
      bool_decide (reason = u "nft_result_uncertain") && negb (bool_decide (basis = []))
  | APPLIED =>
      bool_decide (reason = u "nft_apply_observed")
      && bool_decide (basis = u "exact_kernel_readback")
  | VERIFIED =>
      bool_decide (reason = u "nft_apply_verified") && bool_decide (basis = u "proof_committed")
  | EXPIRED =>
      bool_decide (reason = u "native_timeout_expired")
      && bool_decide (basis ∈ map u ["kernel_timeout_observed"; "namespace_destroyed";
                                     "host_boot_changed"]%string)
  | _ => false
  end.

(** What an APPLIED record observes of its attempt *)
Definition applied_binds (details : document) (plan : PreparedTemporaryEgressDenyPlanV1)
    (attempt : AttemptState) : result py_exn unit :=
  let* inode := uint_detail details (u "target_netns_inode") 64 in
  let* configured := uint_detail details (u "configured_timeout_ms") 64 in
  let* remaining := uint_detail details (u "remaining_timeout_ms") 64 in
  uint_detail details (u "counter_packets") 64 ;;*
  uint_detail details (u "counter_bytes") 64 ;;*
  let* before := uint_detail details (u "host_netns_before") 64 in
  let* after := uint_detail details (u "host_netns_after") 64 in
  check (field_is (u "apply_attempt_sha256") (as_record_sha256 attempt) details
         && field_is (u "ruleset_sha256") (as_ruleset_sha256 attempt) details
         && (inode =? p_netns_inode plan) && (configured =? x_ttl (p_egress plan) * 1000)
         && ((0 <? remaining) && (remaining <=? configured))
         && negb (before =? 0) && (before =? after)).

(** [_append_lifecycle] *)
Definition append_lifecycle (p : ActuatorRecordProjection) (r : ActionRecordV1)
  : result py_exn (ActuatorRecordProjection * pystr) :=
  let details := ar_details r in
  let* prepared := of_option ValueError (t_by_plan (p_tables p) !! ar_plan_id r) in
  let* prior := of_option ValueError (t_outcomes (p_tables p) !! ar_plan_id r) in
  let attempt := t_attempts (p_tables p) !! ar_plan_id r in
  let plan := ps_plan prepared in
  check (bool_decide (is_Some (ar_action_id r))) ;;*
  check (bool_decide (ar_state r ∈ allowed (os_state prior) (bool_decide (is_Some attempt)))) ;;*
  check (keys_are details (lifecycle_keys (ar_state r))) ;;*
  let per_plan_previous :=
    match os_state prior, attempt with
    | APPROVED, Some a => as_record_sha256 a
    | _, _ => os_record_sha256 prior
    end in
  let* boottime := uint_detail details (u "transition_boottime_ns") 64 in
  let* boot := str_detail details (u "transition_boot_id") in
  let* basis := str_detail details (u "transition_basis") in
  check (field_is (u "previous_action_record_sha256") per_plan_previous details
         && UUID4 boot && negb (boottime =? 0)
         && lifecycle_reason (ar_state r) (ar_reason r) basis
         && bool_decide (ar_plan_hash r = p_plan_hash plan)
         && (bool_decide (ar_state r ∈ [EXPIRED; STALE_ABORT; REJECTED])
             || bool_decide (boot = p_boot_id plan))) ;;*
  match ar_state r with
  | APPLIED => let* a := of_option ValueError attempt in applied_binds details plan a
  | VERIFIED =>
      let* deadline := uint_detail details (u "audit_deadline_boottime_ns") 64 in
      check (field_is (u "applied_record_sha256") per_plan_previous details
             && (boottime <? deadline))
  | _ => Ok tt
  end ;;*
  Ok (set_state (InOutcomes (ar_plan_id r) (Some (outcome_of r))) p, x_intent_id (p_egress plan)).

(** [_append_action] *)
Definition append_action (p : ActuatorRecordProjection) (r : ActionRecordV1)
  : result py_exn (ActuatorRecordProjection * VerifiedActuatorPayload) :=
  catch_with (fun _ => ValueError) (verify_action_record ed25519_verify (action_dump r) public_key) ;;*
  check (bool_decide (ar_previous r = p_previous p)) ;;*
  let* (q, intent) :=
    match ar_state r with
    | PREPARED => append_prepared p r
    | APPROVED | REJECTED | EXPIRED_UNAPPLIED =>
        if bool_decide (is_Some (t_outcomes (p_tables p) !! ar_plan_id r))
        then append_lifecycle p r else append_decision p r
    | APPLIED | VERIFIED | EXPIRED | STALE_ABORT | FAILED_DIRTY => append_lifecycle p r
    | PROPOSED | POLICY_ADMITTED => Err ValueError
    end in
  let* canonical := canonical_json (JObj (action_dump r)) in
  Ok (mkProjection (p_previous q) (p_actions q ++ [r]) (p_tables q) (p_transaction q),
      mkVerified ACTION_SCHEMA (ar_sha256 r) canonical (Some intent) (Some (ar_plan_id r))).

(** [ActuatorRecordError], or an interpreter limit ([RecursionError], the digit limit of
    integers) that [json.loads] meets and nobody catches *)
Inductive record_exn := ActuatorRecordError | InterpreterLimit.

(** The [try] block of [append]: the schema is read with [json.loads]; a payload that the
    strict decoder refuses is refused whatever schema it names. *)
Definition append_by_schema (p : ActuatorRecordProjection) (payload : bytes)
  : result py_exn (ActuatorRecordProjection * VerifiedActuatorPayload) :=
  let* envelope := decode_json payload MAX_PAYLOAD_BYTES in
  let* schema := str_field (u "schema_version") envelope in
  if bool_decide (schema = RESERVATION_SCHEMA) then
    let* r := canonical_payload reservation_keys reservation_validate reservation_dump payload in
    append_reservation p r payload
  else if bool_decide (schema = ATTEMPT_SCHEMA) then
    let* r := canonical_payload attempt_keys attempt_validate attempt_dump payload in
    append_attempt p r payload
  else if bool_decide (schema = ACTION_SCHEMA) then
    let* r := canonical_payload action_required action_validate action_dump payload in
    append_action p r
  else Err ValueError.

(** [append].  [limit] says that the interpreter gives up on the payload first. *)
Definition append (limit : bool) (p : ActuatorRecordProjection) (payload : bytes)
  : result record_exn (ActuatorRecordProjection * VerifiedActuatorPayload) :=
  guard ((1 <=? Z.of_nat (length payload)) && (Z.of_nat (length payload) <=? MAX_PAYLOAD_BYTES))
    ActuatorRecordError ;;*
  guard (negb limit) InterpreterLimit ;;*
  let* (q, verified) :=
    catch_with (fun _ => ActuatorRecordError) (append_by_schema p payload) in
  Ok (mkProjection (vp_sha256 verified) (p_actions q) (p_tables q) (p_transaction q), verified).

(** Payloads appended in order *)
Fixpoint append_all (p : ActuatorRecordProjection) (payloads : list bytes)
  : result record_exn (ActuatorRecordProjection * list VerifiedActuatorPayload) :=
  match payloads with
  | [] => Ok (p, [])
  | x :: payloads =>
      let* (p, v) := append false p x in
      let* (p, vs) := append_all p payloads in Ok (p, v :: vs)
  end.
End Append.

(** [intents] *)
Definition mirrored (t : tables) (intent : pystr) (reservation : ReservationState)
  : MirroredIntentState :=
  match t_by_intent t !! intent with
  | None => mkMirrored intent (rs_intent_sha256 reservation) (u "RESERVED") None None None None
  | Some prepared =>
      match t_outcomes t !! p_plan_id (ps_plan prepared) with
      | None =>
          mkMirrored intent (rs_intent_sha256 reservation) (u "PREPARED") (Some (ps_plan prepared))
            (Some (ps_record_id prepared)) (Some (ps_record_sha256 prepared))
            (Some (p_prepared_at (ps_plan prepared)))
      | Some o =>
          mkMirrored intent (rs_intent_sha256 reservation) (state_text (os_state o))
            (Some (ps_plan prepared)) (Some (os_record_id o)) (Some (os_record_sha256 o))
            (Some (os_observed_at o))
      end
  end.

Definition intents (p : ActuatorRecordProjection) : list MirroredIntentState :=
  let t := p_tables p in
  omap (fun k => mirrored t k <$> t_reservations t !! k)
    (sort_str (map fst (map_to_list (t_reservations t)))).

(** ** What one accepted payload does to the dictionaries *)

(** The decision of a local administrator inside the approval window of a plan *)
Definition local_approval (r : ActionRecordV1) (prepared : PreparedState) : Prop :=
  let plan := ps_plan prepared in
  field_is (u "decision_basis") (u "local_admin_approval") (ar_details r) = true
  /\ field_is (u "decision_boot_id") (p_boot_id plan) (ar_details r) = true
  /\ field_is (u "previous_action_record_sha256") (ps_record_sha256 prepared) (ar_details r) = true
  /\ (exists who, who ∈ map u ["root"; "primary_group"; "supplementary_group"]%string
        /\ field_is (u "authorization_basis") who (ar_details r) = true)
  /\ ar_plan_hash r = p_plan_hash plan
  /\ (exists observed prepared_at expires_at,
        transition_time (ar_observed_at r) = Ok observed
        /\ transition_time (p_prepared_at plan) = Ok prepared_at
        /\ transition_time (p_expires_at plan) = Ok expires_at
        /\ prepared_at <= observed < expires_at)
  /\ exists boottime, get (u "decision_boottime_ns") (ar_details r) = Some (JInt boottime)
       /\ ps_deadline_ns prepared - APPROVAL_TTL_NS <= boottime < ps_deadline_ns prepared.

Inductive tstep (t : tables) : option ActionRecordV1 -> tables -> Prop :=
| S_reserve i rs :
    t_by_intent t !! i = None ->
    (forall prior, t_reservations t !! i = Some prior ->
       rs_intent_sha256 prior = rs_intent_sha256 rs) ->
    tstep t None (put (InReservations i (Some rs)) t)
| S_attempt pid prepared outcome a :
    t_by_plan t !! pid = Some prepared -> t_outcomes t !! pid = Some outcome ->
    os_state outcome = APPROVED -> t_attempts t !! pid = None ->
    tstep t None (put (InAttempts pid (Some a)) t)
| S_prepared r s rs :
    ar_state r = PREPARED -> ar_plan_id r = p_plan_id (ps_plan s) ->
    t_reservations t !! x_intent_id (p_egress (ps_plan s)) = Some rs ->
    rs_intent_sha256 rs = ps_intent_sha256 s ->
    actuator_intent_sha256 (ps_plan s) = Ok (ps_intent_sha256 s) ->
    t_by_intent t !! x_intent_id (p_egress (ps_plan s)) = None ->
    t_by_plan t !! p_plan_id (ps_plan s) = None ->
    tstep t (Some r) (put (InByPlan (p_plan_id (ps_plan s)) (Some s))
                        (put (InByIntent (x_intent_id (p_egress (ps_plan s))) (Some s)) t))
| S_decision r prepared :
    ar_state r ∈ [APPROVED; REJECTED; EXPIRED_UNAPPLIED] ->
    t_by_plan t !! ar_plan_id r = Some prepared -> t_outcomes t !! ar_plan_id r = None ->
    (ar_state r = APPROVED -> local_approval r prepared) ->
    tstep t (Some r) (put (InOutcomes (ar_plan_id r) (Some (outcome_of r))) t)
| S_lifecycle r prepared prior :
    t_by_plan t !! ar_plan_id r = Some prepared -> t_outcomes t !! ar_plan_id r = Some prior ->
    ar_state r ∈ allowed (os_state prior) (bool_decide (is_Some (t_attempts t !! ar_plan_id r))) ->
    tstep t (Some r) (put (InOutcomes (ar_plan_id r) (Some (outcome_of r))) t).

Lemma check_ok b x : check b = Ok x <-> b = true.
Proof. apply guard_ok. Qed.

Lemma str_detail_is d k s : str_detail d k = Ok s -> field_is k s d = true.
Proof.
  unfold str_detail, str_field, field_is. destruct (get k d) as [[]|]; try done.
  intros [= ->]. by apply bool_decide_eq_true.
Qed.

Lemma uint_detail_is d k bits z :
  uint_detail d k bits = Ok z -> get k d = Some (JInt z) /\ 0 <= z < 2 ^ bits.
Proof.
  unfold uint_detail. destruct (get k d) as [[]|]; try done.
  intros H. apply rbind_ok in H as (? & Hc%check_ok & H). injection H as ->. breflect.
  split; [done|lia].
Qed.

Lemma set_state_tables e p : p_tables (set_state e p) = put e (p_tables p).
Proof. done. Qed.

Section AppendFacts.
Context (ed25519_verify : bytes -> bytes -> bytes -> bool) (public_key : bytes).

Lemma append_reservation_step p r x q v :
  append_reservation ed25519_verify public_key p r x = Ok (q, v) ->
  exists e, q = set_state e p /\ tstep (p_tables p) None (put e (p_tables p)).
Proof.
  intros H. unfold append_reservation in H.
  apply rbind_ok in H as (h & _ & H). apply rbind_ok in H as (k & _ & H).
  apply rbind_ok in H as (u1 & _ & H). apply rbind_ok in H as (u2 & _ & H).
  apply rbind_ok in H as (u3 & Hi%check_ok%bool_decide_eq_true & H).
  apply rbind_ok in H as (u4 & Hp%check_ok & H). injection H as <- _.
  eexists. split; [done|]. apply S_reserve; [done|]. intros prior E. rewrite E in Hp.
  by apply bool_decide_eq_true in Hp.
Qed.

Lemma append_attempt_step p r x q v :
  append_attempt ed25519_verify public_key p r x = Ok (q, v) ->
  exists e, q = set_state e p /\ tstep (p_tables p) None (put e (p_tables p)).
Proof.
  intros H. unfold append_attempt in H.
  apply rbind_ok in H as (h & _ & H). apply rbind_ok in H as (k & _ & H).
  apply rbind_ok in H as (u1 & _ & H). apply rbind_ok in H as (u2 & _ & H).
  destruct (t_by_plan _ !! _) as [pr|] eqn:Ep; [|done].
  destruct (t_outcomes _ !! _) as [o|] eqn:Eo; [|done].
  apply rbind_ok in H as (u3 & Hc%check_ok & H). injection H as <- _. breflect.
  eexists. split; [done|]. by eapply S_attempt.
Qed.

Lemma append_prepared_step p r q i :
  ar_state r = PREPARED -> append_prepared p r = Ok (q, i) ->
  exists e1 e2, q = set_state e2 (set_state e1 p)
    /\ tstep (p_tables p) (Some r) (put e2 (put e1 (p_tables p))).
Proof.
  intros Hst H. unfold append_prepared in H.
  apply rbind_ok in H as (u1 & _ & H). apply rbind_ok in H as (act & _ & H).
  apply rbind_ok in H as (dl & _ & H). apply rbind_ok in H as (cl & _ & H).
  apply rbind_ok in H as (u2 & _ & H). apply rbind_ok in H as (n & _ & H).
  apply rbind_ok in H as (raw & _ & H). apply rbind_ok in H as (plan & _ & H).
  apply rbind_ok in H as (sha & Hsha & H). apply rbind_ok in H as (rs & Hrs%of_option_ok & H).
  apply rbind_ok in H as (der & _ & H). apply rbind_ok in H as (t1 & _ & H).
  apply rbind_ok in H as (t2 & _ & H). apply rbind_ok in H as (u3 & Hc%check_ok & H).
  injection H as <- _. breflect. do 2 eexists. split; [done|]. by eapply S_prepared.
Qed.

Lemma approval_authority a uid gid :
  authority_valid a uid gid = true -> a <> u "system_expiry" ->
  a ∈ map u ["root"; "primary_group"; "supplementary_group"]%string.
Proof.
  intros H Hne. unfold authority_valid in H. repeat rewrite orb_true_iff in H.
  cbn [map]. destruct H as [[H|H]|H]; repeat rewrite andb_true_iff, ?orb_true_iff in H.
  - destruct H as [H%bool_decide_eq_true _]. subst. by left.
  - destruct H as [[H%bool_decide_eq_true|H%bool_decide_eq_true] _]; subst; [by right; left|by right; right; left].
  - destruct H as [[H%bool_decide_eq_true _] _]. done.
Qed.

Lemma approved_basis basis reason :
  decision_reason APPROVED basis = Some reason -> basis = u "local_admin_approval".
Proof. cbn [decision_reason]. by case_bool_decide. Qed.

Lemma append_decision_step p r q i :
  ar_state r ∈ [APPROVED; REJECTED; EXPIRED_UNAPPLIED] ->
  t_outcomes (p_tables p) !! ar_plan_id r = None -> append_decision p r = Ok (q, i) ->
  exists e, q = set_state e p /\ tstep (p_tables p) (Some r) (put e (p_tables p)).
Proof.
  intros Hst Ho H. unfold append_decision in H.
  apply rbind_ok in H as (pr & Hpr%of_option_ok & H). apply rbind_ok in H as (u1 & _ & H).
  apply rbind_ok in H as (bt & Hbt%uint_detail_is & H). apply rbind_ok in H as (uid & _ & H).
  apply rbind_ok in H as (gid & _ & H). apply rbind_ok in H as (prev & Hprev%str_detail_is & H).
  apply rbind_ok in H as (boot & Hboot%str_detail_is & H).
  apply rbind_ok in H as (auth & Hauth%str_detail_is & H).
  apply rbind_ok in H as (basis & Hbasis%str_detail_is & H).
  apply rbind_ok in H as (u2 & Hc%check_ok & H). apply rbind_ok in H as (u3 & Ha%check_ok & H).
  apply rbind_ok in H as (obs & Hobs & H). apply rbind_ok in H as (pa & Hpa & H).
  apply rbind_ok in H as (ea & Hea & H). apply rbind_ok in H as (u4 & _ & H).
  apply rbind_ok in H as (u5 & Ht%check_ok & H). injection H as <- _.
  apply andb_true_iff in Ha as [Hau Hre%bool_decide_eq_true].
  apply andb_true_iff in Hc as [Hc Hpv%bool_decide_eq_true].
  apply andb_true_iff in Hc as [_ Hph%bool_decide_eq_true].
  eexists. split; [done|]. eapply S_decision; try done. intros Happ. rewrite Happ in Hre, Ht.
  apply approved_basis in Hre. subst basis. cbn [decision_in_time] in Ht. breflect. subst.
  split_and!; try done.
  - exists auth. split; [|done]. by eapply approval_authority.
  - exists obs, pa, ea. split_and!; try done; lia.
  - exists bt. split_and!; try apply Hbt; lia.
Qed.

Lemma append_lifecycle_step p r q i :
  append_lifecycle p r = Ok (q, i) ->
  exists e, q = set_state e p /\ tstep (p_tables p) (Some r) (put e (p_tables p)).
Proof.
  intros H. unfold append_lifecycle in H.
  apply rbind_ok in H as (pr & Hpr%of_option_ok & H). apply rbind_ok in H as (o & Ho%of_option_ok & H).
  apply rbind_ok in H as (u1 & _ & H).
  apply rbind_ok in H as (u2 & Ha%check_ok%bool_decide_eq_true & H).
  apply rbind_ok in H as (u3 & _ & H). apply rbind_ok in H as (bt & _ & H).
  apply rbind_ok in H as (boot & _ & H). apply rbind_ok in H as (basis & _ & H).
  apply rbind_ok in H as (u4 & _ & H). apply rbind_ok in H as (u5 & _ & H).
  injection H as <- _. eexists. split; [done|]. by eapply S_lifecycle.
Qed.

(** The entries set by one payload, and the step they make *)
Lemma append_action_step p r q v :
  append_action ed25519_verify public_key p r = Ok (q, v) ->
  exists es, p_tables q = foldl (fun t e => put e t) (p_tables p) es
    /\ p_transaction q = p_transaction (foldl (fun p e => set_state e p) p es)
    /\ p_actions q = p_actions p ++ [r] /\ tstep (p_tables p) (Some r) (p_tables q).
Proof.
  intros H. unfold append_action in H. apply rbind_ok in H as (u1 & _ & H).
  apply rbind_ok in H as (u2 & _ & H). apply rbind_ok in H as ([q1 i] & Hq & H).
  apply rbind_ok in H as (c & _ & H). injection H as <- _.
  cbn [p_tables p_transaction p_actions].
  assert (Hone : forall e, q1 = set_state e p -> tstep (p_tables p) (Some r) (put e (p_tables p)) ->
    exists es, p_tables q1 = foldl (fun t e => put e t) (p_tables p) es
    /\ p_transaction q1 = p_transaction (foldl (fun p e => set_state e p) p es)
    /\ p_actions q1 ++ [r] = p_actions p ++ [r] /\ tstep (p_tables p) (Some r) (p_tables q1)).
  { intros e -> Hs. by exists [e]. }
  assert (Hdec : ar_state r ∈ [APPROVED; REJECTED; EXPIRED_UNAPPLIED] ->
    (if bool_decide (is_Some (t_outcomes (p_tables p) !! ar_plan_id r))
     then append_lifecycle p r else append_decision p r) = Ok (q1, i) ->
    exists e, q1 = set_state e p /\ tstep (p_tables p) (Some r) (put e (p_tables p))).
  { intros Hin. destruct (t_outcomes (p_tables p) !! ar_plan_id r) as [o|] eqn:E.
    - rewrite bool_decide_eq_true_2 by done. apply append_lifecycle_step.
    - rewrite bool_decide_eq_false_2 by (by intros [? ?]). by eapply append_decision_step. }
  destruct (ar_state r) eqn:Est; try done.
  - apply append_prepared_step in Hq as (e1 & e2 & -> & Hs); [|done]. by exists [e1; e2].
  - destruct Hdec as (e & He & Hs); [set_solver|done|by eapply Hone].
  - apply append_lifecycle_step in Hq as (e & He & Hs). by eapply Hone.
  - apply append_lifecycle_step in Hq as (e & He & Hs). by eapply Hone.
  - apply append_lifecycle_step in Hq as (e & He & Hs). by eapply Hone.
  - apply append_lifecycle_step in Hq as (e & He & Hs). by eapply Hone.
  - destruct Hdec as (e & He & Hs); [set_solver|done|by eapply Hone].
  - apply append_lifecycle_step in Hq as (e & He & Hs). by eapply Hone.
  - destruct Hdec as (e & He & Hs); [set_solver|done|by eapply Hone].
Qed.

Abbreviation append := (append ed25519_verify public_key).

Lemma append_step limit p x q v :
  append limit p x = Ok (q, v) ->
  exists es o, p_tables q = foldl (fun t e => put e t) (p_tables p) es
    /\ p_transaction q = p_transaction (foldl (fun p e => set_state e p) p es)
    /\ p_actions q = p_actions p ++ option_list o /\ tstep (p_tables p) o (p_tables q)
    /\ p_previous q = vp_sha256 v.
Proof.
  intros H. unfold ActuatorRecords.append in H. apply rbind_ok in H as (u1 & _ & H).
  apply rbind_ok in H as (u2 & _ & H). apply rbind_ok in H as ([q1 v1] & Hq%catch_ok & H).
  injection H as <- <-. cbn [p_tables p_transaction p_actions p_previous].
  unfold append_by_schema in Hq.
  apply rbind_ok in Hq as (env & _ & Hq). apply rbind_ok in Hq as (sch & _ & Hq).
  repeat case_bool_decide; try done; apply rbind_ok in Hq as (r & _ & Hq).
  - apply append_reservation_step in Hq as (e & -> & Hs). exists [e], None.
    cbn. rewrite app_nil_r. by split_and!.
  - apply append_attempt_step in Hq as (e & -> & Hs). exists [e], None.
    cbn. rewrite app_nil_r. by split_and!.
  - apply append_action_step in Hq as (es & Ht & Htx & Ha & Hs). exists es, (Some r). by split_and!.
Qed.

(** ** Transactions: rolling back undoes everything *)

Lemma put_same e1 e2 t : address_of e1 = address_of e2 -> put e1 (put e2 t) = put e1 t.
Proof.
  destruct t, e1, e2; intros [=]; subst; cbn [put]; f_equal; by rewrite partial_alter_partial_alter_eq.
Qed.

Lemma put_comm e1 e2 t : address_of e1 <> address_of e2 -> put e1 (put e2 t) = put e2 (put e1 t).
Proof.
  destruct t, e1, e2; intros Hne; cbn [put]; try done; f_equal;
    apply partial_alter_partial_alter_ne; intros ->; by apply Hne.
Qed.

Lemma put_peek a t : put (peek a t) t = t.
Proof. destruct t, a; cbn; f_equal; apply partial_alter_self. Qed.

Lemma address_peek a t : address_of (peek a t) = a.
Proof. by destruct a. Qed.

(** Undoing a list of changes hides a later change of an entry it covers. *)
Lemma undo_covers cs e t :
  address_of e ∈ map address_of cs -> foldr put (put e t) cs = foldr put t cs.
Proof.
  assert (Hcomm : forall cs t, address_of e ∉ map address_of cs ->
    foldr put (put e t) cs = put e (foldr put t cs)).
  { clear. intros cs. induction cs as [|c cs IH]; intros t Hn; [done|].
    cbn [map] in Hn. apply not_elem_of_cons in Hn as [Hne Hn].
    change (put c (foldr put (put e t) cs) = put e (put c (foldr put t cs))).
    rewrite IH by done. by apply put_comm. }
  induction cs as [|c cs IH]; intros Hin; [by apply elem_of_nil in Hin|].
  change (put c (foldr put (put e t) cs) = put c (foldr put t cs)).
  destruct (decide (address_of e ∈ map address_of cs)) as [Hc|Hc]; [by rewrite IH|].
  cbn [map] in Hin. apply elem_of_cons in Hin as [Heq|Hin]; [|done].
  rewrite Hcomm by done. by apply put_same.
Qed.

(** The log of an open transaction leads back to [p0]. *)
Definition logged (tok : Z) (p0 p : ActuatorRecordProjection) : Prop :=
  exists t l, p_transaction p = Some t /\ tx_token t = tok /\ tx_previous t = p_previous p0
    /\ tx_action_count t = length (p_actions p0) /\ p_actions p = p_actions p0 ++ l
    /\ foldr put (p_tables p) (tx_changes t) = p_tables p0
    /\ tx_seen t = map address_of (tx_changes t).

Lemma set_state_logged tok p0 p e : logged tok p0 p -> logged tok p0 (set_state e p).
Proof.
  intros (t & l & Ht & Htok & Hp & Hn & Ha & Hu & Hs).
  unfold logged, set_state. rewrite Ht. cbn [p_transaction p_actions p_tables].
  eexists _, l. split; [done|]. case_bool_decide as Hin.
  - split_and!; try done. rewrite <- Hu. rewrite Hs in Hin. by apply undo_covers.
  - cbn [tx_token tx_previous tx_action_count tx_changes tx_seen].
    split_and!; try done; [|by rewrite map_app, Hs; cbn; rewrite address_peek].
    rewrite foldr_app. cbn [foldr]. rewrite <- Hu. f_equal.
    rewrite put_same by apply address_peek. apply put_peek.
Qed.

Lemma set_states_logged tok p0 p es :
  logged tok p0 p -> logged tok p0 (foldl (fun p e => set_state e p) p es).
Proof.
  revert p. induction es as [|e es IH]; intros p H; [done|]. by apply IH, set_state_logged.
Qed.

Lemma set_states_tables p es :
  p_tables (foldl (fun p e => set_state e p) p es) = foldl (fun t e => put e t) (p_tables p) es.
Proof. revert p. induction es as [|e es IH]; intros p; [done|]. cbn [foldl]. by rewrite IH. Qed.

Lemma set_states_actions p es :
  p_actions (foldl (fun p e => set_state e p) p es) = p_actions p.
Proof. revert p. induction es as [|e es IH]; intros p; [done|]. cbn [foldl]. by rewrite IH. Qed.

Lemma append_logged tok p0 limit p x q v :
  append limit p x = Ok (q, v) -> logged tok p0 p -> logged tok p0 q.
Proof.
  intros (es & o & Ht & Htx & Ha & _ & _)%append_step Hl.
  destruct (set_states_logged tok p0 p es Hl) as (t & l & E1 & E2 & E3 & E4 & E5 & E6 & E7).
  rewrite set_states_tables, <- Ht in E6. rewrite set_states_actions in E5.
  exists t, (l ++ option_list o). split_and!; try done; [by rewrite Htx|].
  by rewrite Ha, E5, app_assoc.
Qed.

(** Payloads accepted one after the other *)
Inductive extends : ActuatorRecordProjection -> ActuatorRecordProjection -> Prop :=
| X_refl p : extends p p
| X_append p limit x q v r : append limit p x = Ok (q, v) -> extends q r -> extends p r.

Lemma extends_logged tok p0 p q : extends p q -> logged tok p0 p -> logged tok p0 q.
Proof. induction 1 as [|p limit x q v r Ha _ IH]; [done|]. intros Hl. by eapply IH, append_logged. Qed.

(** ** Transactions: appending does not look at them *)

Definition strip (p : ActuatorRecordProjection) : ActuatorRecordProjection :=
  mkProjection (p_previous p) (p_actions p) (p_tables p) None.

Definition strip_res {E V} (r : result E (ActuatorRecordProjection * V))
  : result E (ActuatorRecordProjection * V) :=
  match r with Ok (q, v) => Ok (strip q, v) | Err e => Err e end.

Lemma strip_bind {E A V} (m : result E A) (k k' : A -> result E (ActuatorRecordProjection * V)) :
  (forall a, k' a = strip_res (k a)) -> rbind m k' = strip_res (rbind m k).
Proof. intros H. destruct m; cbn; auto. Qed.

Ltac strips :=
  cbn [strip p_previous p_tables p_actions p_transaction];
  repeat match goal with
  | |- rbind _ _ = strip_res (rbind _ _) => refine (strip_bind _ _ _ _); intros ?; cbv beta
  | |- Ok _ = strip_res (Ok _) => reflexivity
  | |- Err _ = strip_res (Err _) => reflexivity
  end.

Lemma strip_reservation p r x :
  append_reservation ed25519_verify public_key (strip p) r x
  = strip_res (append_reservation ed25519_verify public_key p r x).
Proof. unfold append_reservation. strips. Qed.

Lemma strip_attempt p r x :
  append_attempt ed25519_verify public_key (strip p) r x
  = strip_res (append_attempt ed25519_verify public_key p r x).
Proof.
  unfold append_attempt. strips. destruct (t_by_plan _ !! _); [|done]. destruct (t_outcomes _ !! _); [|done]. strips.
Qed.

Lemma strip_prepared p r : append_prepared (strip p) r = strip_res (append_prepared p r).
Proof. unfold append_prepared. strips. Qed.

Lemma strip_decision p r : append_decision (strip p) r = strip_res (append_decision p r).
Proof. unfold append_decision. strips. Qed.

Lemma strip_lifecycle p r : append_lifecycle (strip p) r = strip_res (append_lifecycle p r).
Proof. unfold append_lifecycle. strips. Qed.

Lemma strip_action p r :
  append_action ed25519_verify public_key (strip p) r
  = strip_res (append_action ed25519_verify public_key p r).
Proof.
  unfold append_action. do 2 (refine (strip_bind _ _ _ _); intros ?; cbv beta). cbn [strip p_tables].
  rewrite strip_prepared, strip_lifecycle, strip_decision.
  set (m := match ar_state r with PREPARED => append_prepared p r | _ => _ end).
  transitivity (let* (q, intent) := strip_res m in
    let* canonical := canonical_json (JObj (action_dump r)) in
    Ok (mkProjection (p_previous q) (p_actions q ++ [r]) (p_tables q) (p_transaction q),
        mkVerified ACTION_SCHEMA (ar_sha256 r) canonical (Some intent) (Some (ar_plan_id r)))).
  { unfold m. destruct (ar_state r); try done; by case_bool_decide. }
  destruct m as [[q i]|e]; [|done]. cbn [rbind strip_res].
  by destruct (canonical_json (JObj (action_dump r))).
Qed.

Lemma strip_by_schema p x :
  append_by_schema ed25519_verify public_key (strip p) x
  = strip_res (append_by_schema ed25519_verify public_key p x).
Proof.
  unfold append_by_schema. do 2 (refine (strip_bind _ _ _ _); intros ?; cbv beta).
  repeat case_bool_decide; try reflexivity; refine (strip_bind _ _ _ _); intros ?; cbv beta;
    [apply strip_reservation|apply strip_attempt|apply strip_action].
Qed.

Lemma strip_append limit p x : append limit (strip p) x = strip_res (append limit p x).
Proof.
  unfold ActuatorRecords.append. do 2 (refine (strip_bind _ _ _ _); intros ?; cbv beta).
  rewrite strip_by_schema. by destruct (append_by_schema _ _ p x) as [[q v]|e].
Qed.

Lemma extends_strip p q : extends p q -> extends (strip p) (strip q).
Proof.
  induction 1 as [p|p limit x q v r Ha _ IH]; [constructor|].
  eapply X_append; [|exact IH]. rewrite strip_append, Ha. done.
Qed.

(** ** The life of a plan *)

Definition successors (s : action_state) : list action_state :=
  match s with
  | PREPARED => [APPROVED; REJECTED; EXPIRED_UNAPPLIED]
  | APPROVED => [STALE_ABORT; REJECTED; APPLIED; FAILED_DIRTY]
  | APPLIED => [VERIFIED; EXPIRED; FAILED_DIRTY]
  | VERIFIED => [EXPIRED; FAILED_DIRTY]
  | _ => []
  end.

(** A path of the lifecycle from PREPARED, the latest state last *)
Inductive lifecycle : list action_state -> Prop :=
| L_prepared : lifecycle [PREPARED]
| L_next l s : lifecycle l -> (exists prior, last l = Some prior /\ s ∈ successors prior) ->
               lifecycle (l ++ [s]).

(** The states recorded for a plan, in order *)
Definition history (actions : list ActionRecordV1) (plan : pystr) : list action_state :=
  map ar_state (filter (fun r => ar_plan_id r = plan) actions).

Lemma history_app l r plan :
  history (l ++ [r]) plan = history l plan ++ (if decide (ar_plan_id r = plan) then [ar_state r] else []).
Proof.
  unfold history. rewrite filter_app, map_app. f_equal. rewrite filter_cons, filter_nil.
  by destruct (decide (ar_plan_id r = plan)).
Qed.

#[local] Opaque actuator_intent_sha256.

(** What the dictionaries say of one plan *)
Definition plan_inv (actions : list ActionRecordV1) (t : tables) (pid : pystr) : Prop :=
  match t_by_plan t !! pid with
  | None => history actions pid = [] /\ t_outcomes t !! pid = None /\ t_attempts t !! pid = None
  | Some s =>
      p_plan_id (ps_plan s) = pid /\ t_by_intent t !! x_intent_id (p_egress (ps_plan s)) = Some s
      /\ lifecycle (history actions pid)
      /\ match t_outcomes t !! pid with
         | None => history actions pid = [PREPARED] /\ t_attempts t !! pid = None
         | Some o => last (history actions pid) = Some (os_state o)
             /\ (os_state o ∈ [APPROVED; APPLIED; VERIFIED] ->
                 exists r, r ∈ actions /\ ar_plan_id r = pid /\ ar_state r = APPROVED
                           /\ local_approval r s)
             /\ (os_state o ∈ [APPLIED; VERIFIED; EXPIRED] -> is_Some (t_attempts t !! pid))
         end
  end.

(** A prepared intent has one plan and the reservation of exactly its bytes. *)
Definition intent_inv (t : tables) (i : pystr) : Prop :=
  forall s, t_by_intent t !! i = Some s ->
    x_intent_id (p_egress (ps_plan s)) = i /\ t_by_plan t !! p_plan_id (ps_plan s) = Some s
    /\ actuator_intent_sha256 (ps_plan s) = Ok (ps_intent_sha256 s)
    /\ exists rs, t_reservations t !! i = Some rs /\ rs_intent_sha256 rs = ps_intent_sha256 s.

Definition projection_inv (p : ActuatorRecordProjection) : Prop :=
  (forall pid, plan_inv (p_actions p) (p_tables p) pid) /\ forall i, intent_inv (p_tables p) i.

Lemma insert_lookup {A} (m : gmap pystr A) k v k' :
  partial_alter (fun _ => Some v) k m !! k' = if decide (k = k') then Some v else m !! k'.
Proof.
  destruct (decide (k = k')) as [->|Hne]; [apply lookup_partial_alter_eq|].
  by apply lookup_partial_alter_ne.
Qed.

Lemma history_other actions r pid :
  ar_plan_id r <> pid -> history (actions ++ [r]) pid = history actions pid.
Proof. intros H. rewrite history_app. destruct (decide _); [done|]. by rewrite app_nil_r. Qed.

Lemma history_same actions r : history (actions ++ [r]) (ar_plan_id r) = history actions (ar_plan_id r) ++ [ar_state r].
Proof. rewrite history_app. by destruct (decide _). Qed.

(** Membership in a listed state is decided. *)
Ltac listed := intros; repeat match goal with
  | H : ?x ∈ ?l |- _ =>
      apply (proj2 (bool_decide_eq_true (x ∈ l))) in H; vm_compute in H; try discriminate H
  | |- ?x ∈ ?l => apply (proj1 (bool_decide_eq_true (x ∈ l))); vm_compute
  end; reflexivity.

Lemma allowed_successors s b x : x ∈ allowed s b -> x ∈ successors s.
Proof. destruct s, b, x; listed. Qed.

Lemma allowed_states s b x : x ∈ allowed s b -> s ∈ [APPROVED; APPLIED; VERIFIED].
Proof. destruct s, b, x; listed. Qed.

Lemma allowed_attempted s b x :
  x ∈ allowed s b -> x ∈ [APPLIED; VERIFIED; EXPIRED] -> b = true.
Proof. destruct s, b, x; listed. Qed.

Lemma decided_approved s :
  s ∈ [APPROVED; REJECTED; EXPIRED_UNAPPLIED] -> s ∈ [APPROVED; APPLIED; VERIFIED] -> s = APPROVED.
Proof. destruct s; listed. Qed.

Lemma decided_unapplied s :
  s ∈ [APPROVED; REJECTED; EXPIRED_UNAPPLIED] -> s ∈ [APPLIED; VERIFIED; EXPIRED] -> False.
Proof. destruct s; listed. Qed.

Lemma decided_successor s : s ∈ [APPROVED; REJECTED; EXPIRED_UNAPPLIED] -> s ∈ successors PREPARED.
Proof. done. Qed.

Lemma outcome_approved_mono actions l pid s :
  (exists r, r ∈ actions /\ ar_plan_id r = pid /\ ar_state r = APPROVED /\ local_approval r s) ->
  exists r, r ∈ actions ++ l /\ ar_plan_id r = pid /\ ar_state r = APPROVED /\ local_approval r s.
Proof. intros (r & Hr & H). exists r. split; [apply elem_of_app; by left|done]. Qed.

(** A plan that a step does not touch *)
Lemma plan_inv_frame actions l t t' pid :
  plan_inv actions t pid -> history (actions ++ l) pid = history actions pid ->
  t_by_plan t' !! pid = t_by_plan t !! pid -> t_outcomes t' !! pid = t_outcomes t !! pid ->
  t_attempts t' !! pid = t_attempts t !! pid ->
  (forall s, t_by_plan t !! pid = Some s ->
     t_by_intent t' !! x_intent_id (p_egress (ps_plan s))
     = t_by_intent t !! x_intent_id (p_egress (ps_plan s))) ->
  plan_inv (actions ++ l) t' pid.
Proof.
  unfold plan_inv. intros H Hh -> -> -> Hi. rewrite Hh.
  destruct (t_by_plan t !! pid) as [s|]; [|done]. rewrite Hi by done.
  destruct H as (H1 & H2 & H3 & H4). split_and!; try done.
  destruct (t_outcomes t !! pid); [|done]. destruct H4 as (H4 & H5 & H6). split_and!; [done| |done].
  intros Hs. by apply outcome_approved_mono, H5.
Qed.

Lemma reserve_inv actions t i rs :
  t_by_intent t !! i = None ->
  (forall pid, plan_inv actions t pid) -> (forall i, intent_inv t i) ->
  let t' := put (InReservations i (Some rs)) t in
  (forall pid, plan_inv actions t' pid) /\ forall i, intent_inv t' i.
Proof.
  destruct t as [rs0 bi bp os ats]. intros Hi Hp Hq. cbn [t_by_intent] in Hi. split; [exact Hp|].
  intros j s Hs. destruct (Hq j s Hs) as (H1 & H2 & H3 & r & H4 & H5). split_and!; try assumption; try reflexivity.
  exists r. cbn [put t_reservations]. rewrite insert_lookup. destruct (decide (i = j)) as [->|]; [|by split].
  cbn [t_by_intent put] in Hs. congruence.
Qed.

Lemma attempt_inv actions t pid o a :
  t_outcomes t !! pid = Some o ->
  (forall pid, plan_inv actions t pid) -> (forall i, intent_inv t i) ->
  let t' := put (InAttempts pid (Some a)) t in
  (forall pid, plan_inv actions t' pid) /\ forall i, intent_inv t' i.
Proof.
  destruct t as [rs0 bi bp os ats]. intros Ho Hp Hq t'. cbn [t_outcomes] in Ho. split; [|exact Hq].
  intros k. specialize (Hp k). unfold plan_inv in *. cbn [t' put t_by_plan t_outcomes t_attempts t_by_intent] in *.
  rewrite insert_lookup. destruct (decide (pid = k)) as [<-|]; [|done]. rewrite Ho in *.
  destruct (bp !! pid); [|by destruct Hp as (_ & ? & _)].
  destruct Hp as (H1 & H2 & H3 & H4 & H5 & _). by split_and!.
Qed.

Lemma prepared_inv actions t r s rs :
  ar_state r = PREPARED -> ar_plan_id r = p_plan_id (ps_plan s) ->
  t_reservations t !! x_intent_id (p_egress (ps_plan s)) = Some rs ->
  rs_intent_sha256 rs = ps_intent_sha256 s ->
  actuator_intent_sha256 (ps_plan s) = Ok (ps_intent_sha256 s) ->
  t_by_intent t !! x_intent_id (p_egress (ps_plan s)) = None ->
  t_by_plan t !! p_plan_id (ps_plan s) = None ->
  (forall pid, plan_inv actions t pid) -> (forall i, intent_inv t i) ->
  let t' := put (InByPlan (p_plan_id (ps_plan s)) (Some s))
              (put (InByIntent (x_intent_id (p_egress (ps_plan s))) (Some s)) t) in
  (forall pid, plan_inv (actions ++ [r]) t' pid) /\ forall i, intent_inv t' i.
Proof.
  destruct t as [rs0 bi bp os ats]. set (i := x_intent_id _). set (pid := p_plan_id _).
  intros Hst Hpid Hrs Hsha Hact Hi Hb Hp Hq t'. cbn [t_reservations t_by_intent t_by_plan] in Hrs, Hi, Hb.
  split.
  - intros k. destruct (decide (pid = k)) as [<-|Hne].
    + specialize (Hp pid). unfold plan_inv in *.
      cbn [t' put t_by_plan t_outcomes t_attempts t_by_intent] in *.
      rewrite Hb in Hp. destruct Hp as (Hh & Ho & Ha). rewrite insert_lookup, decide_True by done.
      rewrite Ho, Ha. rewrite <- Hpid in Hh |- *. rewrite history_same, Hh, Hst. cbn [app].
      fold i. rewrite insert_lookup, decide_True by done. split_and!; try reflexivity; [by symmetry|constructor].
    + apply (plan_inv_frame actions [r] (mkTables rs0 bi bp os ats)); try reflexivity; try apply Hp.
      * apply history_other. congruence.
      * cbn [t' put t_by_plan]. rewrite insert_lookup, decide_False by done. done.
      * intros s' Hs'. cbn [t' put t_by_intent t_by_plan] in *. rewrite insert_lookup.
        destruct (decide (i = _)) as [E|]; [|done]. specialize (Hp k). unfold plan_inv in Hp.
        cbn [t_by_plan t_by_intent] in Hp. rewrite Hs' in Hp. destruct Hp as (_ & Hp & _).
        rewrite <- E, Hi in Hp. done.
  - intros j s' Hs'. cbn [t' put t_by_intent t_by_plan t_reservations] in *. rewrite insert_lookup in Hs'.
    destruct (decide (i = j)) as [<-|Hne].
    + injection Hs' as <-. split_and!; try assumption; try reflexivity.
      * fold pid. rewrite insert_lookup, decide_True by done. done.
      * exists rs. split; assumption.
    + destruct (Hq j s' Hs') as (H1 & H2 & H3 & H4). split_and!; try assumption; try reflexivity.
      cbn [t_by_plan] in H2. rewrite insert_lookup.
      destruct (decide (pid = _)) as [E|]; [|assumption]. rewrite <- E, Hb in H2. discriminate H2.
Qed.

(** The invariant of the plan whose outcome a record changes, and of the others *)
Lemma outcome_inv actions t r :
  (forall pid, plan_inv actions t pid) -> (forall i, intent_inv t i) ->
  let t' := put (InOutcomes (ar_plan_id r) (Some (outcome_of r))) t in
  plan_inv (actions ++ [r]) t' (ar_plan_id r) ->
  (forall pid, plan_inv (actions ++ [r]) t' pid) /\ forall i, intent_inv t' i.
Proof.
  intros Hp Hq t' Hr. split; [|destruct t; exact Hq].
  intros k. destruct (decide (ar_plan_id r = k)) as [<-|Hne]; [done|].
  apply (plan_inv_frame actions [r] t); try done; [by apply history_other|by destruct t| |by destruct t|by destruct t].
  destruct t. cbn [t' put t_outcomes]. by rewrite insert_lookup, decide_False.
Qed.

Lemma tstep_inv actions t o t' :
  tstep t o t' -> (forall pid, plan_inv actions t pid) -> (forall i, intent_inv t i) ->
  (forall pid, plan_inv (actions ++ option_list o) t' pid) /\ forall i, intent_inv t' i.
Proof.
  intros Hs Hp Hq.
  destruct Hs as [i rs Hi Hrs|pid pr oc a Hpr Hoc Hap Hat|r s rs H1 H2 H3 H4 H5 H6 H7
                 |r pr Hst Hpr Hno Happ|r pr prior Hpr Ho Hst]; cbn [option_list]; rewrite ?app_nil_r.
  - by apply reserve_inv.
  - by eapply attempt_inv.
  - by eapply prepared_inv.
  - apply outcome_inv; [done|done|]. specialize (Hp (ar_plan_id r)). revert Hp Hpr Hno.
    destruct t as [rs0 bi bp os ats]. unfold plan_inv.
    cbn [put t_by_plan t_outcomes t_attempts t_by_intent].
    intros Hp Hpr Hno. rewrite Hpr, Hno in Hp. rewrite Hpr, insert_lookup, decide_True by done.
    destruct Hp as (E1 & E2 & E3 & E4 & E5). rewrite history_same, last_snoc.
    split_and!; try done; cbn [outcome_of os_state].
    + constructor; [done|]. rewrite E4. exists PREPARED. by split; [|apply decided_successor].
    + intros Happ'. assert (Ha : ar_state r = APPROVED) by (by apply decided_approved).
      exists r. split_and!; [apply elem_of_app; right; by left|done|done|by apply Happ].
    + intros Hx. by destruct (decided_unapplied _ Hst Hx).
  - apply outcome_inv; [done|done|]. specialize (Hp (ar_plan_id r)). revert Hp Hpr Ho Hst.
    destruct t as [rs0 bi bp os ats]. unfold plan_inv.
    cbn [put t_by_plan t_outcomes t_attempts t_by_intent].
    intros Hp Hpr Ho Hst. rewrite Hpr, Ho in Hp. rewrite Hpr, insert_lookup, decide_True by done.
    destruct Hp as (E1 & E2 & E3 & E4 & E5 & E6). rewrite history_same, last_snoc.
    split_and!; try done; cbn [outcome_of os_state].
    + constructor; [done|]. exists (os_state prior). by split; [|eapply allowed_successors].
    + intros _. by eapply outcome_approved_mono, E5, allowed_states.
    + intros Hx. pose proof (allowed_attempted _ _ _ Hst Hx) as Hb. by apply bool_decide_eq_true in Hb.
Qed.

Lemma new_inv : projection_inv new_projection.
Proof.
  split; [intros pid; unfold plan_inv|intros i s]; cbn [new_projection p_tables p_actions no_tables
    t_by_plan t_outcomes t_attempts t_by_intent]; rewrite !lookup_empty; [by split_and!|done].
Qed.

Lemma append_inv limit p x q v : append limit p x = Ok (q, v) -> projection_inv p -> projection_inv q.
Proof.
  intros (es & o & _ & _ & Ha & Hs & _)%append_step [Hp Hq].
  destruct (tstep_inv _ _ _ _ Hs Hp Hq) as [Hp' Hq']. split; [|done]. by rewrite Ha.
Qed.

Lemma extends_inv p q : extends p q -> projection_inv p -> projection_inv q.
Proof. induction 1 as [|p limit x q v r Ha _ IH]; [done|]. intros H. by eapply IH, append_inv. Qed.

Lemma begin_strip p tok p1 : begin_extension p tok = Ok p1 -> strip p = p /\ strip p1 = p.
Proof.
  unfold begin_extension. destruct (p_transaction p) eqn:Hnone; [done|]. intros [= <-].
  destruct p; cbn in *; by subst.
Qed.

(** How a transaction may end after any accepted payloads *)
Lemma transaction_ends p tok p1 p2 :
  begin_extension p tok = Ok p1 -> extends p1 p2 ->
  rollback_extension p2 tok = Ok p /\ commit_extension p2 tok = Ok (strip p2).
Proof.
  intros Hb Hx. pose proof Hb as [_ Ep]%begin_strip. unfold begin_extension in Hb.
  destruct (p_transaction p) eqn:Hnone; [done|]. injection Hb as <-.
  assert (Hl : logged tok p (mkProjection (p_previous p) (p_actions p) (p_tables p)
    (Some (mkTransaction tok (p_previous p) (length (p_actions p)) [] [])))).
  { eexists _, []. cbn. rewrite app_nil_r. by split_and!. }
  destruct (extends_logged _ _ _ _ Hx Hl) as (t & l & E1 & E2 & E3 & E4 & E5 & E6 & _).
  unfold rollback_extension, commit_extension. rewrite E1, E2, Z.eqb_refl. cbn [check guard rbind].
  split; [|done]. rewrite E3, E4, E5, E6, take_app_length. by destruct p; cbn in *; subst.
Qed.

(** Rolling an extension back undoes it exactly: after any number of accepted
    payloads, the projection is again the one at the start of the transaction, in every
    dictionary, in the list of actions and in the chain head.  Committing keeps exactly
    what the same payloads give without a transaction. *)
Theorem extension_rollback_exact p tok p1 p2 :
  begin_extension p tok = Ok p1 -> extends p1 p2 ->
  rollback_extension p2 tok = Ok p
  /\ exists q, commit_extension p2 tok = Ok q /\ extends p q.
Proof.
  intros Hb Hx. destruct (transaction_ends _ _ _ _ Hb Hx) as [Hr Hc]. split; [done|].
  exists (strip p2). split; [done|]. apply extends_strip in Hx.
  by rewrite (proj2 (begin_strip _ _ _ Hb)) in Hx.
Qed.

(** C24: In every projection built from accepted payloads, the recorded states of each plan
    are a path of the lifecycle from PREPARED, the outcome of the plan is the last of
    them, a plan was applied only if an attempt is recorded, and a prepared intent has
    exactly one plan, prepared for the reserved bytes. *)
Theorem actuator_lifecycle p :
  extends new_projection p ->
  (forall pid s, t_by_plan (p_tables p) !! pid = Some s ->
     p_plan_id (ps_plan s) = pid
     /\ t_by_intent (p_tables p) !! x_intent_id (p_egress (ps_plan s)) = Some s
     /\ lifecycle (history (p_actions p) pid)
     /\ (forall o, t_outcomes (p_tables p) !! pid = Some o ->
           last (history (p_actions p) pid) = Some (os_state o)
           /\ (os_state o ∈ [APPLIED; VERIFIED; EXPIRED] ->
               is_Some (t_attempts (p_tables p) !! pid))))
  /\ (forall pid, t_by_plan (p_tables p) !! pid = None -> history (p_actions p) pid = [])
  /\ (forall i s, t_by_intent (p_tables p) !! i = Some s ->
        x_intent_id (p_egress (ps_plan s)) = i
        /\ t_by_plan (p_tables p) !! p_plan_id (ps_plan s) = Some s
        /\ actuator_intent_sha256 (ps_plan s) = Ok (ps_intent_sha256 s)
        /\ exists rs, t_reservations (p_tables p) !! i = Some rs
             /\ rs_intent_sha256 rs = ps_intent_sha256 s).
Proof.
  intros Hx. destruct (extends_inv _ _ Hx new_inv) as [Hp Hq]. split_and!.
  - intros pid s Hs. specialize (Hp pid). unfold plan_inv in Hp. rewrite Hs in Hp.
    destruct Hp as (H1 & H2 & H3 & H4). split_and!; try done. intros o Ho. rewrite Ho in H4.
    destruct H4 as (H5 & _ & H6). by split.
  - intros pid Hn. specialize (Hp pid). unfold plan_inv in Hp. rewrite Hn in Hp. apply Hp.
  - intros i s Hs. by apply Hq.
Qed.

(** Plans are never replaced. *)
Lemma tstep_by_plan t o t' k s :
  tstep t o t' -> t_by_plan t !! k = Some s -> t_by_plan t' !! k = Some s.
Proof.
  destruct t. intros Hs Hk. inversion Hs; subst; cbn [put t_by_plan] in *; try exact Hk.
  rewrite insert_lookup. destruct (decide _) as [<-|]; [congruence|done].
Qed.

Definition kernel_states : list action_state :=
  [APPLIED; VERIFIED; EXPIRED; STALE_ABORT; FAILED_DIRTY].

Definition approved_before (p : ActuatorRecordProjection) (i : nat) (r : ActionRecordV1) : Prop :=
  exists j r' s, (j < i)%nat /\ p_actions p !! j = Some r' /\ ar_plan_id r' = ar_plan_id r
    /\ ar_state r' = APPROVED /\ t_by_plan (p_tables p) !! ar_plan_id r = Some s
    /\ local_approval r' s.

Definition approvals_inv (p : ActuatorRecordProjection) : Prop :=
  forall i r, p_actions p !! i = Some r -> ar_state r ∈ kernel_states -> approved_before p i r.

Lemma decided_not_kernel s :
  s ∈ [APPROVED; REJECTED; EXPIRED_UNAPPLIED] -> s ∈ kernel_states -> False.
Proof. destruct s; listed. Qed.

Lemma append_approvals limit p x q v :
  append limit p x = Ok (q, v) -> projection_inv p -> approvals_inv p -> approvals_inv q.
Proof.
  intros (es & o & _ & _ & Ha & Hs & _)%append_step [Hp _] Happ i r Hi Hk.
  rewrite Ha in Hi. apply lookup_app_Some in Hi as [Hi|[Hge Hi]].
  - destruct (Happ i r Hi Hk) as (j & r' & s & Hj & Hr & Hid & Hst & Hb & Hl).
    exists j, r', s. split_and!; try done; [|by eapply tstep_by_plan].
    rewrite Ha. by apply lookup_app_l_Some.
  - destruct o as [r0|]; [|done]. cbn [option_list] in Hi.
    apply list_lookup_singleton_Some in Hi as [Hlen <-].
    inversion Hs as [| |? ? ? Hst|? ? Hst|? pr prior Hpr Ho Hst]; subst.
    + rewrite Hst in Hk. revert Hk. listed.
    + by destruct (decided_not_kernel _ Hst Hk).
    + specialize (Hp (ar_plan_id r0)). unfold plan_inv in Hp. rewrite Hpr, Ho in Hp.
      destruct Hp as (_ & _ & _ & _ & Hex & _).
      destruct (Hex (allowed_states _ _ _ Hst)) as (r' & Hin & Hid & Hst' & Hl).
      apply list_elem_of_lookup in Hin as [j Hj]. exists j, r', pr.
      split_and!; try done; [|by rewrite Ha; apply lookup_app_l_Some|].
      * apply lookup_lt_Some in Hj. lia.
      * match goal with E : _ = p_tables q |- _ => rewrite <- E end. by destruct (p_tables p).
Qed.

Lemma approvals_extends p : extends new_projection p -> approvals_inv p.
Proof.
  intros Hx. assert (H0 : approvals_inv new_projection) by done. revert H0.
  pose proof new_inv as Hinv. revert Hinv.
  induction Hx as [|p limit x q v s Ha _ IH]; [done|]. intros Hinv H0.
  apply IH; [by eapply append_inv|by eapply append_approvals].
Qed.

(** C27: Nothing touches the kernel without a local approval: every record of an
    application, verification, expiry, abort or uncertain result is preceded in the journal
    by an APPROVED record of the same plan in which a local administrator approved it on
    the boot it was prepared on, inside the approval window by both clocks. *)
Theorem applied_only_after_local_approval p i r :
  extends new_projection p -> p_actions p !! i = Some r -> ar_state r ∈ kernel_states ->
  approved_before p i r.
Proof. intros Hx. exact (approvals_extends p Hx i r). Qed.
End AppendFacts.

(** ** A plan that is reserved, prepared, approved and applied *)

Definition any_signature (_ _ _ : bytes) : bool := true.
Definition journal_key : bytes := repeat Byte.x00 32.
Definition hash_of_byte (n : Z) : pystr := sha256_hex [byte_of n].
Definition or_empty (r : result py_exn pystr) : pystr := match r with Ok i => i | Err _ => [] end.

Definition reserved_intent : EgressDenyFields := Eval vm_compute in
  mkEgress (u "int_" ++ take 32 (hash_of_byte 1)) sample_host (hash_of_byte 2)
    (u "2026-01-01T00:00:00Z") (u "sha256:" ++ hash_of_byte 3) [] (hash_of_byte 4) 3 4
    (u "93.184.216.34") 60 [u "evt_" ++ hash_of_byte 5] (hash_of_byte 6) (u "pcc-policy-v1")
    (hash_of_byte 7) (hash_of_byte 8) (u "2026-01-01T00:01:00Z").

Definition applied_plan : PreparedTemporaryEgressDenyPlanV1 := Eval vm_compute in
  let nonce := hash_of_byte 40 in
  let identifier := or_empty (let* n := fromhex nonce in plan_id (x_intent_id reserved_intent) n) in
  let plan hash := mkPlan reserved_intent identifier sample_boot 4242 99 (hash_of_byte 41) 4026531
    (hash_of_byte 42) (hash_of_byte 43) (hash_of_byte 44) (u "2026-01-01T00:01:03Z")
    (u "2026-01-01T00:06:03Z") nonce hash in
  plan (or_empty (plan_hash (plan_dump (plan [])))).

Definition journal_key_id : pystr := Eval vm_compute in or_empty (key_id journal_key).
Definition no_signature : pystr := repeat 48 128.

Definition sample_reservation : RateReservationV1 := Eval vm_compute in
  let r i h := mkReservation i (x_intent_id reserved_intent)
    (or_empty (actuator_intent_sha256 applied_plan)) (u "2026-01-01T00:01:02Z") ZERO_SHA256 h
    journal_key_id no_signature in
  let h := or_empty (hash_without (reservation_dump (r [] [])) RATE_HASH_DOMAIN
    (map u ["reservation_id"; "record_sha256"; "actuator_signature"]%string)) in
  r (u "rr_" ++ take 32 h) h.

Definition sealed_action (s : action_state) (reason observed previous : pystr) (details : document)
  : ActionRecordV1 :=
  let hash := p_plan_hash applied_plan in
  let r i h := mkAction i (Some (or_empty (action_id hash))) (p_plan_id applied_plan) hash s reason
    observed previous h details journal_key_id no_signature in
  let h := or_empty (action_record_hash (action_dump (r [] []))) in
  r (or_empty (action_record_id h)) h.

Definition prepared_record : ActionRecordV1 := Eval vm_compute in
  sealed_action PREPARED (u "intent_prepared") (p_prepared_at applied_plan)
    (rr_sha256 sample_reservation)
    [(u "approval_deadline_boottime_ns", JInt 900000000000);
     (u "intent_sha256", JStr (rr_intent_sha256 sample_reservation));
     (u "prepared_plan", JObj (plan_dump applied_plan))].

Definition approved_record : ActionRecordV1 := Eval vm_compute in
  sealed_action APPROVED (u "local_admin_approved") (u "2026-01-01T00:02:00Z")
    (ar_sha256 prepared_record)
    [(u "previous_action_record_sha256", JStr (ar_sha256 prepared_record));
     (u "decision_boot_id", JStr sample_boot); (u "decision_boottime_ns", JInt 700000000000);
     (u "admin_uid", JInt 0); (u "admin_gid", JInt 0);
     (u "authorization_basis", JStr (u "root"));
     (u "decision_basis", JStr (u "local_admin_approval"))].

Definition sample_attempt : ApplyAttemptV1 := Eval vm_compute in
  let r i h := mkAttempt i (p_plan_id applied_plan) (p_plan_hash applied_plan)
    (u "2026-01-01T00:02:01Z") sample_boot 700000000001 4026531 (u "93.184.216.34") 60
    (hash_of_byte 50) (ar_sha256 approved_record) (ar_sha256 approved_record) h journal_key_id
    no_signature in
  let h := or_empty (hash_without (attempt_dump (r [] [])) ATTEMPT_HASH_DOMAIN
    (map u ["attempt_id"; "record_sha256"; "actuator_signature"]%string)) in
  r (u "aa_" ++ take 32 h) h.

Definition applied_record : ActionRecordV1 := Eval vm_compute in
  sealed_action APPLIED (u "nft_apply_observed") (u "2026-01-01T00:02:02Z")
    (aa_sha256 sample_attempt)
    [(u "previous_action_record_sha256", JStr (aa_sha256 sample_attempt));
     (u "transition_boot_id", JStr sample_boot); (u "transition_boottime_ns", JInt 700000000002);
     (u "transition_basis", JStr (u "exact_kernel_readback"));
     (u "apply_attempt_sha256", JStr (aa_sha256 sample_attempt));
     (u "target_netns_inode", JInt 4026531); (u "ruleset_sha256", JStr (hash_of_byte 50));
     (u "configured_timeout_ms", JInt 60000); (u "remaining_timeout_ms", JInt 59900);
     (u "counter_packets", JInt 0); (u "counter_bytes", JInt 0);
     (u "host_netns_before", JInt 1); (u "host_netns_after", JInt 1)].

Definition bytes_or_empty (r : result py_exn bytes) : bytes := match r with Ok b => b | Err _ => [] end.

Definition sample_chain : list bytes := Eval vm_compute in
  map (fun d => bytes_or_empty (canonical_json (JObj d)))
    [reservation_dump sample_reservation; action_dump prepared_record; action_dump approved_record;
     attempt_dump sample_attempt; action_dump applied_record].

Lemma append_all_extends ed key p xs q vs :
  append_all ed key p xs = Ok (q, vs) -> extends ed key p q.
Proof.
  revert p vs. induction xs as [|x xs IH]; intros p vs H; cbn [append_all] in H.
  - injection H as <- _. constructor.
  - apply rbind_ok in H as ([p1 v] & Ha & H). apply rbind_ok in H as ([p2 vs'] & Hr & H).
    injection H as <- _. eapply X_append; [exact Ha|]. by eapply IH.
Qed.

(** The chain is accepted and the plan ends up applied. *)
Definition chain_accepted : bool :=
  match append_all any_signature journal_key new_projection sample_chain with
  | Ok (p, _) =>
      bool_decide (map ar_state (p_actions p) = [PREPARED; APPROVED; APPLIED])
      && bool_decide (map ar_plan_id (p_actions p) = repeat (p_plan_id applied_plan) 3)
      && bool_decide (is_Some (t_by_plan (p_tables p) !! p_plan_id applied_plan))
  | Err _ => false
  end.

Lemma sample_chain_accepted : chain_accepted = true.
Proof. vm_cast_no_check (eq_refl true). Qed.

Lemma sample_extends : exists p,
  extends any_signature journal_key new_projection p
  /\ map ar_state (p_actions p) = [PREPARED; APPROVED; APPLIED]
  /\ map ar_plan_id (p_actions p) = repeat (p_plan_id applied_plan) 3
  /\ is_Some (t_by_plan (p_tables p) !! p_plan_id applied_plan).
Proof.
  pose proof sample_chain_accepted as H. unfold chain_accepted in H.
  destruct (append_all _ _ _ _) as [[p vs]|e] eqn:E; [|discriminate H].
  exists p. split; [by eapply append_all_extends|].
  apply andb_true_iff in H as [H H3%bool_decide_eq_true].
  apply andb_true_iff in H as [H1%bool_decide_eq_true H2%bool_decide_eq_true]. by split_and!.
Qed.

Lemma actuator_lifecycle_witness : exists p,
  extends any_signature journal_key new_projection p
  /\ map ar_state (p_actions p) = [PREPARED; APPROVED; APPLIED]
  /\ lifecycle (history (p_actions p) (p_plan_id applied_plan)).
Proof.
  destruct sample_extends as (p & Hx & Hs & Hi & [s Hb]).
  exists p. split; [exact Hx|]. split; [exact Hs|].
  exact (proj1 (proj2 (proj2 (proj1 (actuator_lifecycle _ _ p Hx) _ s Hb)))).
Defined.

Lemma applied_only_after_local_approval_witness : exists p r,
  extends any_signature journal_key new_projection p /\ p_actions p !! 2%nat = Some r
  /\ ar_state r = APPLIED /\ approved_before p 2 r.
Proof.
  destruct sample_extends as (p & Hx & Hs & Hi & _).
  assert (Hl : exists r, p_actions p !! 2%nat = Some r /\ ar_state r = APPLIED).
  { destruct (p_actions p) as [|r0 [|r1 [|r2 l]]]; try discriminate Hs.
    exists r2. split; [reflexivity|]. cbn in Hs. congruence. }
  destruct Hl as (r & Hr & Hst). exists p, r. split; [exact Hx|]. split; [exact Hr|].
  split; [exact Hst|]. apply (applied_only_after_local_approval _ _ p 2 r Hx Hr).
  rewrite Hst. apply (proj1 (bool_decide_eq_true _)). vm_compute. reflexivity.
Defined.

Definition sample_begun : ActuatorRecordProjection := Eval vm_compute in
  match begin_extension new_projection 1 with Ok p => p | Err _ => new_projection end.

Lemma first_payload_accepted : exists q v,
  append any_signature journal_key false sample_begun (List.hd [] sample_chain) = Ok (q, v).
Proof.
  assert (H : is_ok (append any_signature journal_key false sample_begun (List.hd [] sample_chain))
              = true) by (vm_cast_no_check (eq_refl true)).
  destruct (append _ _ _ _ _) as [[q v]|e]; [|discriminate H]. by exists q, v.
Qed.

Lemma extension_rollback_exact_witness : exists p2,
  extends any_signature journal_key sample_begun p2 /\ rollback_extension p2 1 = Ok new_projection.
Proof.
  destruct first_payload_accepted as (q & v & Ha).
  assert (Hx : extends any_signature journal_key sample_begun q)
    by (eapply X_append; [exact Ha|constructor]).
  exists q. split; [exact Hx|].
  apply (extension_rollback_exact any_signature journal_key new_projection 1 sample_begun q); [reflexivity|exact Hx].
Defined.
