(* ===== verification/ActuatorProtocol.v ===== *)
(** * The read-only actuator client

    [actions/actuator_protocol.py]: the bounded GET, the wire pages of the actuator's
    journal, their verification against the AGF1 chain and the signed records, the
    extension of a durable prefix page by page, and the status of one intent.

    The actuator is an argument: what it answers to a request, given the requests before.
    The projection is threaded through failures too, since the code mutates it while it
    verifies. *)

From stdpp Require Import gmap.
From S2P Require Import Prelude Sha256 CanonicalJson JsonDecode Frames Time Ipv4 Identities.
From S2P Require Import Contracts Egress Candidates Policy DecisionClock PolicyClient.
From S2P Require Import ActuatorClient ActuatorRecords.
Local Open Scope Z_scope.
Local Open Scope agmind_scope.

(** ** Failures and bounds *)

Inductive journal_client_exn :=
| ActuatorJournalRetryable | ActuatorJournalFatal | ActuatorJournalConflict
| ActuatorIntentNotFound | ClientCancelled | ClientEscape.

#[export] Instance journal_client_exn_eq_dec : EqDecision journal_client_exn.
Proof. solve_decision. Defined.

Definition MAX_PAGE_PAYLOAD : Z := 65536.
Definition FRAME_OVERHEAD : Z := 76.
Definition MAX_JOURNAL_RECORDS : Z := 65536.
Definition MAX_JOURNAL_BYTES : Z := 64 * 1024 * 1024.
Definition MAX_PAGE_BYTES : Z := 4 * 1024 * 1024.
Definition MAX_STATUS_BYTES : Z := 131072.
Definition MAX_JOURNAL_ERROR_BYTES : Z := 4096.

(** ** base64 *)

(** The alphabet of RFC 4648 *)
Definition b64_char (n : Z) : Z :=
  if n <? 26 then 65 + n else if n <? 52 then 71 + n else if n <? 62 then n - 4
  else if n =? 62 then 43 else 47.

Definition b64_value (c : Z) : option Z :=
  if (65 <=? c) && (c <=? 90) then Some (c - 65)
  else if (97 <=? c) && (c <=? 122) then Some (c - 71)
  else if (48 <=? c) && (c <=? 57) then Some (c + 4)
  else if c =? 43 then Some 62 else if c =? 47 then Some 63 else None.

(** [base64.b64encode] *)
Fixpoint b64encode (raw : bytes) : pystr :=
  match raw with
  | a :: b :: c :: rest =>
      let n := byte_val a * 65536 + byte_val b * 256 + byte_val c in
      b64_char (n / 262144) :: b64_char (n / 4096 mod 64) :: b64_char (n / 64 mod 64)
      :: b64_char (n mod 64) :: b64encode rest
  | [a; b] =>
      let n := byte_val a * 65536 + byte_val b * 256 in
      [b64_char (n / 262144); b64_char (n / 4096 mod 64); b64_char (n / 64 mod 64); 61]
  | [a] =>
      let n := byte_val a * 65536 in [b64_char (n / 262144); b64_char (n / 4096 mod 64); 61; 61]
  | [] => []
  end.

(** [base64.b64decode(value, validate=True)] on groups of four; what it accepts beyond
    the canonical text the caller refuses *)
Fixpoint b64decode (value : pystr) : option bytes :=
  match value with
  | [] => Some []
  | w :: x :: y :: z :: rest =>
      p ← b64_value w; q ← b64_value x;
      if (y =? 61) && (z =? 61) then
        match rest with [] => Some [byte_of (p * 4 + q / 16)] | _ => None end
      else
        r ← b64_value y;
        if z =? 61 then
          match rest with
          | [] => Some [byte_of (p * 4 + q / 16); byte_of (q mod 16 * 16 + r / 4)]
          | _ => None
          end
        else
          s ← b64_value z; tl ← b64decode rest;
          Some (byte_of (p * 4 + q / 16) :: byte_of (q mod 16 * 16 + r / 4)
                :: byte_of (r mod 4 * 64 + s) :: tl)
  | _ => None
  end.

(** [_decode_payload_base64] *)
Definition decode_payload_base64 (value : pystr) : result journal_client_exn bytes :=
  let* raw := of_option ActuatorJournalFatal (b64decode value) in
  guard (bool_decide (b64encode raw = value)) ActuatorJournalFatal ;;* Ok raw.

(** ** Wire models *)

Record ActuatorJournalSnapshot := mkSnapshot {
  sn_count : Z; sn_bytes : Z; sn_head : pystr }.

#[export] Instance snapshot_eq_dec : EqDecision ActuatorJournalSnapshot.
Proof. solve_decision. Defined.

Definition snapshot_keys : list pystr := map u ["record_count"; "verified_bytes"; "head_sha256"]%string.

(** [_JournalSnapshotWire] *)
Definition snapshot_validate (doc : document) : result py_exn ActuatorJournalSnapshot :=
  no_extra snapshot_keys doc ;;*
  let* count := int_field (u "record_count") 0 MAX_JOURNAL_RECORDS doc in
  let* size := int_field (u "verified_bytes") 0 MAX_JOURNAL_BYTES doc in
  let* head := str_field (u "head_sha256") doc in
  check (HEX64 head) ;;* Ok (mkSnapshot count size head).

Definition snapshot_dump (s : ActuatorJournalSnapshot) : document :=
  [(u "record_count", JInt (sn_count s)); (u "verified_bytes", JInt (sn_bytes s));
   (u "head_sha256", JStr (sn_head s))].

Record JournalRecordWire := mkWire {
  w_index : Z; w_offset : Z; w_size : Z; w_payload_length : Z; w_previous : pystr;
  w_frame_sha256 : pystr; w_base64 : pystr }.

Definition record_wire_keys : list pystr :=
  map u ["index"; "offset"; "size"; "payload_length"; "previous_frame_sha256"; "frame_sha256";
         "payload_base64"]%string.

(** [_JournalRecordWire] *)
Definition record_wire_validate (doc : document) : result py_exn JournalRecordWire :=
  no_extra record_wire_keys doc ;;*
  let* index := int_field (u "index") 1 MAX_JOURNAL_RECORDS doc in
  let* offset := int_field (u "offset") 0 MAX_JOURNAL_BYTES doc in
  let* size := int_field (u "size") FRAME_OVERHEAD (MAX_PAGE_PAYLOAD + FRAME_OVERHEAD) doc in
  let* length' := int_field (u "payload_length") 0 MAX_PAGE_PAYLOAD doc in
  let* previous := str_field (u "previous_frame_sha256") doc in
  let* sha := str_field (u "frame_sha256") doc in
  let* payload := str_field (u "payload_base64") doc in
  check (HEX64 previous && HEX64 sha && (Z.of_nat (length payload) <=? 90000)) ;;*
  Ok (mkWire index offset size length' previous sha payload).

Definition record_wire_dump (w : JournalRecordWire) : document :=
  [(u "index", JInt (w_index w)); (u "offset", JInt (w_offset w)); (u "size", JInt (w_size w));
   (u "payload_length", JInt (w_payload_length w));
   (u "previous_frame_sha256", JStr (w_previous w)); (u "frame_sha256", JStr (w_frame_sha256 w));
   (u "payload_base64", JStr (w_base64 w))].

Record JournalPageWire := mkPage {
  pg_snapshot : ActuatorJournalSnapshot; pg_after : Z; pg_records : list JournalRecordWire;
  pg_next_after : Z; pg_more : bool }.

Definition PAGE_SCHEMA : pystr := u "agmind.actuator-journal-page.v1".

Definition page_keys : list pystr :=
  map u ["schema_version"; "snapshot"; "after"; "records"; "next_after"; "more"]%string.

Definition bool_field (key : pystr) (doc : document) : result py_exn bool :=
  match get key doc with Some (JBool b) => Ok b | _ => Err ValueError end.

(** A nested model *)
Definition as_doc (v : json) : result py_exn document :=
  match v with JObj d => Ok d | _ => Err ValueError end.

(** [_JournalPageWire] *)
Definition page_validate (doc : document) : result py_exn JournalPageWire :=
  no_extra page_keys doc ;;*
  literal_field (u "schema_version") [PAGE_SCHEMA] doc ;;*
  let* nested := dict_field (u "snapshot") doc in
  let* snapshot := snapshot_validate nested in
  let* after := int_field (u "after") 0 MAX_JOURNAL_RECORDS doc in
  let* records :=
    match get (u "records") doc with
    | Some (JArr l) =>
        check (Z.of_nat (length l) <=? 100) ;;*
        map_res (fun v => let* d := as_doc v in record_wire_validate d) l
    | _ => Err ValueError
    end in
  let* next := int_field (u "next_after") 0 MAX_JOURNAL_RECORDS doc in
  let* more := bool_field (u "more") doc in
  Ok (mkPage snapshot after records next more).

Definition page_dump (p : JournalPageWire) : document :=
  [(u "schema_version", JStr PAGE_SCHEMA); (u "snapshot", JObj (snapshot_dump (pg_snapshot p)));
   (u "after", JInt (pg_after p));
   (u "records", JArr (map (fun w => JObj (record_wire_dump w)) (pg_records p)));
   (u "next_after", JInt (pg_next_after p)); (u "more", JBool (pg_more p))].

(** ** Verified records *)

(** [_VerifiedOuterRecord] *)
Record VerifiedOuterRecord := mkOuter {
  vo_index : Z; vo_offset : Z; vo_size : Z; vo_payload_length : Z; vo_previous : pystr;
  vo_frame_sha256 : pystr; vo_payload : bytes; vo_frame : bytes }.

(** [VerifiedActuatorJournalRecord] *)
Record VerifiedActuatorJournalRecord := mkVerifiedRecord {
  vr_outer : VerifiedOuterRecord; vr_inner : VerifiedActuatorPayload }.

Record VerifiedActuatorJournalExtension := mkExtension {
  ex_snapshot : ActuatorJournalSnapshot; ex_records : list VerifiedActuatorJournalRecord;
  ex_intents : list MirroredIntentState; ex_actions : list ActionRecordV1 }.

(** [_decode_canonical] *)
Definition decode_canonical {T} (required : list pystr) (validate : document -> result py_exn T)
    (dump : T -> document) (raw : bytes) (limit : Z) : result journal_client_exn T :=
  catch_with (fun _ => ActuatorJournalFatal) (
    let* decoded := decode_strict required validate raw limit in
    let* canonical := canonical_json (JObj (dump decoded)) in
    check (bool_decide (canonical = raw)) ;;* Ok decoded).

(** [_snapshot_from_wire] *)
Definition snapshot_from_wire (s : ActuatorJournalSnapshot)
  : result journal_client_exn ActuatorJournalSnapshot :=
  let empty := sn_count s =? 0 in
  guard ((sn_count s * FRAME_OVERHEAD <=? sn_bytes s) && Bool.eqb empty (sn_bytes s =? 0)
         && Bool.eqb empty (bool_decide (sn_head s = ZERO_SHA256))) ActuatorJournalFatal ;;*
  Ok s.

(** [_decode_page] *)
Definition decode_page (raw : bytes)
  : result journal_client_exn (JournalPageWire * ActuatorJournalSnapshot) :=
  let* page := decode_canonical page_keys page_validate page_dump raw MAX_PAGE_BYTES in
  let* snapshot := snapshot_from_wire (pg_snapshot page) in
  Ok (page, snapshot).

Section Outer.
Context (crc32c : bytes -> Z).

(** The loop of [_verify_outer_page] from one index, offset and previous hash *)
Fixpoint verify_outer_records (index offset : Z) (previous : bytes)
    (records : list JournalRecordWire)
  : result journal_client_exn (list VerifiedOuterRecord * Z * bytes) :=
  match records with
  | [] => Ok ([], offset, previous)
  | w :: records =>
      let* payload := decode_payload_base64 (w_base64 w) in
      guard ((w_index w =? index) && (w_offset w =? offset)
             && (w_payload_length w =? blen payload)
             && (w_size w =? blen payload + FRAME_OVERHEAD)
             && bool_decide (w_previous w = hex_encode previous)) ActuatorJournalFatal ;;*
      let* frame := catch_with (fun _ => ClientEscape)
        (encode_frame crc32c payload previous MAX_PAGE_PAYLOAD) in
      let sha := drop (length frame - 32) frame in
      guard ((blen frame =? w_size w) && bool_decide (hex_encode sha = w_frame_sha256 w))
        ActuatorJournalFatal ;;*
      let* (verified, offset, previous) :=
        verify_outer_records (index + 1) (offset + blen frame) sha records in
      Ok (mkOuter (w_index w) (w_offset w) (w_size w) (w_payload_length w) (w_previous w)
            (w_frame_sha256 w) payload frame :: verified, offset, previous)
  end.

(** [_verify_outer_page] *)
Definition verify_outer_page (page : JournalPageWire) (pinned : ActuatorJournalSnapshot)
    (expected_after expected_offset : Z) (expected_previous : bytes) (limit : Z)
  : result journal_client_exn (list VerifiedOuterRecord * Z * bytes) :=
  let* s := snapshot_from_wire (pg_snapshot page) in
  guard (bool_decide (s = pinned) && (pg_after page =? expected_after)
         && (Z.of_nat (length (pg_records page)) <=? limit)) ActuatorJournalConflict ;;*
  let* (verified, offset, previous) := verify_outer_records (expected_after + 1) expected_offset
    expected_previous (pg_records page) in
  let next := expected_after + Z.of_nat (length (pg_records page)) in
  guard ((pg_next_after page =? next) && (pg_next_after page <=? sn_count pinned)
         && Bool.eqb (pg_more page) (pg_next_after page <? sn_count pinned)
         && negb (pg_more page && bool_decide (pg_records page = []))) ActuatorJournalFatal ;;*
  Ok (verified, offset, previous).
End Outer.

(** ** One bounded GET *)

(** How one request ends: with a response, with a transport failure (a timeout
    included), or with the cancellation of the task that waits for it *)
Inductive reply := Response (r : http_response) | TransportFailed | RequestCancelled.

Definition reply_response (r : reply) : result journal_client_exn http_response :=
  match r with
  | Response r => Ok r
  | TransportFailed => Err ActuatorJournalRetryable
  | RequestCancelled => Err ClientCancelled
  end.

Section Client.
Context (get_list : list header -> pystr -> list pystr) (crc32c : bytes -> Z).
Context (ed25519_verify : bytes -> bytes -> bytes -> bool) (public_key : bytes).

(** What the actuator answers to a request after the requests before it, oldest first *)
Context (serve : list pystr -> pystr -> reply).

Fixpoint journal_chunks (limit total : Z) (chunks : list (option bytes))
  : result journal_client_exn bytes :=
  match chunks with
  | [] => Ok []
  | None :: _ => Err ActuatorJournalRetryable
  | Some chunk :: chunks =>
      let total := total + blen chunk in
      guard (total <=? limit) ActuatorJournalFatal ;;*
      let* rest := journal_chunks limit total chunks in
      Ok (chunk ++ rest)
  end.

(** [_read_bounded] *)
Definition journal_read_bounded (r : http_response) (limit : Z) : result journal_client_exn bytes :=
  match body r with
  | inl raw => guard (blen raw <=? limit) ActuatorJournalFatal ;;* Ok raw
  | inr chunks => journal_chunks limit 0 chunks
  end.

(** [_declared_length] *)
Definition journal_declared_length (r : http_response) (limit : Z)
  : result journal_client_exn (option Z) :=
  match get_list (raw_headers r) (u "content-length") with
  | [] => Ok None
  | [value] =>
      guard (bool_decide (value <> []) && forallb is_digit value
             && negb (bool_decide (1 < length value)%nat && bool_decide (head value = Some 48)))
        ActuatorJournalFatal ;;*
      guard (Z.of_nat (length value) <=? INT_MAX_STR_DIGITS) ClientEscape ;;*
      let length := digits_value value in
      guard (length <=? limit) ActuatorJournalFatal ;;* Ok (Some length)
  | _ => Err ActuatorJournalFatal
  end.

(** [declared is not None and declared != len(raw)] *)
Definition length_agrees (declared : option Z) (raw : bytes) : bool :=
  match declared with Some n => n =? blen raw | None => true end.

(** The exact error documents of the actuator *)
Definition error_body (reason : string) : bytes :=
  bstr "{" ++ [byte_of 34] ++ bstr "error" ++ [byte_of 34; byte_of 58; byte_of 34]
  ++ bstr reason ++ [byte_of 34] ++ bstr "}" ++ [byte_of 10].

(** [_get_locked] for one response *)
Definition get_response (response : reply) (limit : Z)
  : result journal_client_exn bytes :=
  let* r := reply_response response in
  if negb (bool_decide (get_list (raw_headers r) (u "content-encoding") = [])) then
    journal_read_bounded r MAX_JOURNAL_ERROR_BYTES ;;* Err ActuatorJournalFatal
  else
    let* declared := journal_declared_length r limit in
    if negb (status_code r =? 200) then
      let* raw := journal_read_bounded r MAX_JOURNAL_ERROR_BYTES in
      guard (length_agrees declared raw) ActuatorJournalFatal ;;*
      guard (json_content get_list r) ActuatorJournalFatal ;;*
      if (status_code r =? 404) && bool_decide (raw = error_body "intent_not_found")
      then Err ActuatorIntentNotFound
      else if (status_code r =? 409) && bool_decide (raw = error_body "snapshot_mismatch")
      then Err ActuatorJournalConflict
      else if retryable_status (status_code r) then Err ActuatorJournalRetryable
      else Err ActuatorJournalFatal
    else if negb (json_content get_list r) then
      journal_read_bounded r MAX_JOURNAL_ERROR_BYTES ;;* Err ActuatorJournalFatal
    else
      let* raw := journal_read_bounded r limit in
      guard (length_agrees declared raw) ActuatorJournalFatal ;;* Ok raw.

(** ** Extending a verified prefix *)

(** [_with_inner] for the records of one page; the projection keeps what was appended
    before a failure. *)
Fixpoint with_inner (p : ActuatorRecordProjection) (outer : list VerifiedOuterRecord)
  : ActuatorRecordProjection * result journal_client_exn (list VerifiedActuatorJournalRecord) :=
  match outer with
  | [] => (p, Ok [])
  | o :: outer =>
      match append ed25519_verify public_key false p (vo_payload o) with
      | Err ActuatorRecordError => (p, Err ActuatorJournalFatal)
      | Err InterpreterLimit => (p, Err ClientEscape)
      | Ok (p, inner) =>
          match with_inner p outer with
          | (p, Ok records) => (p, Ok (mkVerifiedRecord o inner :: records))
          | (p, Err e) => (p, Err e)
          end
      end
  end.

Definition page_target (after limit : Z) (pinned : option ActuatorJournalSnapshot) : pystr :=
  u "/v1/journal-records?after=" ++ str_of_int after ++ u "&limit=" ++ str_of_int limit
  ++ match pinned with
     | None => []
     | Some s => u "&snapshot_records=" ++ str_of_int (sn_count s) ++ u "&snapshot_bytes="
                 ++ str_of_int (sn_bytes s) ++ u "&snapshot_head=" ++ sn_head s
     end.

(** One page of a pinned snapshot, verified *)
Definition get_page (past : list pystr) (pinned : ActuatorJournalSnapshot)
    (after offset : Z) (previous : bytes) (limit : Z)
  : list pystr * result journal_client_exn (list VerifiedOuterRecord * Z * bytes) :=
  let target := page_target after limit (Some pinned) in
  (past ++ [target],
   let* raw := get_response (serve past target) MAX_PAGE_BYTES in
   let* (page, s) := decode_page raw in
   guard (bool_decide (s = pinned)) ActuatorJournalConflict ;;*
   verify_outer_page crc32c page pinned after offset previous limit).

(** The loop of [_fetch_extension_locked]: one page per round.  [None] is a loop that
    did not end within the fuel. *)
Fixpoint fetch_suffix (fuel : nat) (past : list pystr) (pinned : ActuatorJournalSnapshot)
    (limit after offset : Z) (previous : bytes) (p : ActuatorRecordProjection)
    (extension : list VerifiedActuatorJournalRecord)
  : ActuatorRecordProjection
    * option (result journal_client_exn
        (list VerifiedActuatorJournalRecord * Z * Z * bytes)) :=
  if after <? sn_count pinned then
    match fuel with
    | O => (p, None)
    | S fuel =>
        match get_page past pinned after offset previous limit with
        | (past, Err e) => (p, Some (Err e))
        | (past, Ok (outer, offset, previous)) =>
            if bool_decide (length outer = 0%nat) then (p, Some (Err ActuatorJournalFatal))
            else
              match with_inner p outer with
              | (p, Err e) => (p, Some (Err e))
              | (p, Ok records) =>
                  fetch_suffix fuel past pinned limit (after + Z.of_nat (length outer)) offset
                    previous p (extension ++ records)
              end
        end
    end
  else (p, Some (Ok (extension, after, offset, previous))).

(** The first page: the pinned snapshot and the first record, if there is one *)
Definition first_page
  : list pystr * result journal_client_exn
                   (ActuatorJournalSnapshot * list VerifiedOuterRecord * Z * bytes) :=
  let target := page_target 0 1 None in
  ([target],
   let* raw := get_response (serve [] target) MAX_PAGE_BYTES in
   let* (page, pinned) := decode_page raw in
   let* (outer, offset, previous) := verify_outer_page crc32c page pinned 0 0 zero_hash 1 in
   Ok (pinned, outer, offset, previous)).

(** The boundary record of a durable prefix, as the actuator has it now *)
Definition boundary_record (past : list pystr) (pinned local : ActuatorJournalSnapshot)
    (first_outer : list VerifiedOuterRecord) (local_last : VerifiedActuatorJournalRecord)
  : list pystr * result journal_client_exn VerifiedOuterRecord :=
  if sn_count local =? 1 then (past, of_option ActuatorJournalFatal (head first_outer))
  else
    match fromhex (vo_previous (vr_outer local_last)) with
    | Err _ => (past, Err ClientEscape)
    | Ok previous =>
        match get_page past pinned (sn_count local - 1) (vo_offset (vr_outer local_last)) previous 1 with
        | (past, Err e) => (past, Err e)
        | (past, Ok ([boundary], _, _)) => (past, Ok boundary)
        | (past, Ok _) => (past, Err ActuatorJournalFatal)
        end
    end.

(** What [_fetch_extension_locked] knows when the loop starts: the requests so far, the
    records verified already and the position after them *)
Definition fetch_start (p : ActuatorRecordProjection) (local : ActuatorJournalSnapshot)
    (local_last : option VerifiedActuatorJournalRecord) (past : list pystr)
    (pinned : ActuatorJournalSnapshot) (first_outer : list VerifiedOuterRecord)
    (first_offset : Z) (first_previous : bytes)
  : ActuatorRecordProjection
    * result journal_client_exn
        (list pystr * list VerifiedActuatorJournalRecord * Z * Z * bytes) :=
  if sn_count local =? 0 then
    match with_inner p (take 1 first_outer) with
    | (p, Err e) => (p, Err e)
    | (p, Ok records) => (p, Ok (past, records, 1, first_offset, first_previous))
    end
  else
    match local_last with
    | None => (p, Err ClientEscape)
    | Some last =>
        match boundary_record past pinned local first_outer last with
        | (past, Err e) => (p, Err e)
        | (past, Ok boundary) =>
            (p, guard (bool_decide (vo_frame boundary = vo_frame (vr_outer last)))
                  ActuatorJournalConflict ;;*
                let* head := catch_with (fun _ => ClientEscape) (fromhex (sn_head local)) in
                Ok (past, [], sn_count local, sn_bytes local, head))
        end
    end.

(** [_fetch_extension_locked] *)
Definition fetch_extension_locked (p : ActuatorRecordProjection) (local : ActuatorJournalSnapshot)
    (local_first local_last : option VerifiedActuatorJournalRecord) (page_limit : Z)
  : ActuatorRecordProjection * option (result journal_client_exn VerifiedActuatorJournalExtension) :=
  match first_page with
  | (_, Err e) => (p, Some (Err e))
  | (past, Ok (pinned, first_outer, first_offset, first_previous)) =>
      let checks :=
        guard (sn_count local <=? sn_count pinned) ActuatorJournalConflict ;;*
        guard ((sn_count pinned <=? 0) || bool_decide (length first_outer = 1%nat))
          ActuatorJournalFatal ;;*
        guard ((sn_count local <=? 0)
               || match head first_outer, local_first with
                  | Some o, Some first => bool_decide (vo_frame o = vo_frame (vr_outer first))
                  | _, _ => false
                  end) ActuatorJournalConflict in
      match checks with
      | Err e => (p, Some (Err e))
      | Ok _ =>
          if sn_count pinned =? sn_count local then
            (p, Some (guard (bool_decide (sn_bytes pinned = sn_bytes local)
                             && bool_decide (sn_head pinned = sn_head local))
                        ActuatorJournalConflict ;;*
                      Ok (mkExtension pinned [] [] [])))
          else
            match fetch_start p local local_last past pinned first_outer first_offset first_previous with
            | (p, Err e) => (p, Some (Err e))
            | (p, Ok (past, records, after, offset, previous)) =>
                match fetch_suffix (Z.to_nat (sn_count pinned - after)) past pinned page_limit after
                        offset previous p records with
                | (p, None) => (p, None)
                | (p, Some (Err e)) => (p, Some (Err e))
                | (p, Some (Ok (extension, after, offset, previous))) =>
                    (p, Some (guard ((after =? sn_count pinned) && (offset =? sn_bytes pinned)
                                     && bool_decide (hex_encode previous = sn_head pinned))
                                ActuatorJournalFatal ;;*
                              Ok (mkExtension pinned extension (intents p) (p_actions p))))
                end
            end
      end
  end.

Definition absent {A} (o : option A) : bool := match o with None => true | Some _ => false end.

(** [fetch_verified_extension] *)
Definition fetch_verified_extension (closed : bool) (p : ActuatorRecordProjection)
    (local : ActuatorJournalSnapshot)
    (local_first local_last : option VerifiedActuatorJournalRecord) (page_limit : Z)
  : ActuatorRecordProjection * option (result journal_client_exn VerifiedActuatorJournalExtension) :=
  let empty := sn_count local =? 0 in
  let checks :=
    guard ((1 <=? page_limit) && (page_limit <=? 100)) ActuatorJournalFatal ;;*
    guard (Bool.eqb empty (absent local_first) && Bool.eqb empty (absent local_last)
           && Bool.eqb empty (sn_bytes local =? 0)
           && Bool.eqb empty (bool_decide (sn_head local = ZERO_SHA256))) ActuatorJournalFatal ;;*
    guard (match local_first, local_last with
           | Some first, Some last =>
               let f := vr_outer first in let l := vr_outer last in
               (vo_index f =? 1) && (vo_offset f =? 0) && bool_decide (vo_previous f = ZERO_SHA256)
               && (vo_index l =? sn_count local)
               && (vo_offset l + vo_size l =? sn_bytes local)
               && bool_decide (vo_frame_sha256 l = sn_head local)
               && bool_decide (p_previous p = vp_sha256 (vr_inner last))
           | _, _ => true
           end) ActuatorJournalFatal ;;*
    guard (negb closed) ActuatorJournalFatal in
  match checks with
  | Err e => (p, Some (Err e))
  | Ok _ => fetch_extension_locked p local local_first local_last page_limit
  end.
End Client.

(** ** The status of one intent *)

Record IntentActionStatusV1 := mkActionStatus {
  st_state : pystr; st_record_id : pystr; st_record_sha256 : pystr; st_observed_at : pystr }.

(** [_STATUS_STATES] *)
Definition STATUS_STATES : list pystr :=
  u "RESERVED" :: map state_text [PREPARED; APPROVED; REJECTED; EXPIRED_UNAPPLIED; APPLIED;
    VERIFIED; EXPIRED; STALE_ABORT; FAILED_DIRTY].

Definition action_status_keys : list pystr :=
  map u ["state"; "record_id"; "record_sha256"; "observed_at"]%string.

(** [IntentActionStatusV1] with [identity_binds_hash] *)
Definition action_status_validate (doc : document) : result py_exn IntentActionStatusV1 :=
  no_extra action_status_keys doc ;;*
  let* state := str_field (u "state") doc in
  let* identifier := str_field (u "record_id") doc in
  let* sha := str_field (u "record_sha256") doc in
  let* observed := str_field (u "observed_at") doc in
  check (bool_decide (state ∈ STATUS_STATES) && negb (bool_decide (state = u "RESERVED"))
         && is_prefixed_hex "ar_" 32 identifier && HEX64 sha && valid_minimal_timestamp observed
         && bool_decide (identifier = u "ar_" ++ take 32 sha)) ;;*
  Ok (mkActionStatus state identifier sha observed).

Record ActuatorIntentStatusV1 := mkIntentStatus {
  is_intent_id : pystr; is_intent_sha256 : pystr; is_state : pystr;
  is_plan : option PreparedTemporaryEgressDenyPlanV1; is_action : option IntentActionStatusV1 }.

Definition STATUS_SCHEMA : pystr := u "agmind.actuator-intent-status.v1".

Definition status_keys : list pystr :=
  map u ["schema_version"; "intent_id"; "intent_sha256"; "state"; "prepared_plan";
         "latest_action"]%string.

Definition status_required : list pystr :=
  map u ["schema_version"; "intent_id"; "intent_sha256"; "state"]%string.

(** An optional nested model *)
Definition opt_model_field {T} (key : pystr) (validate : document -> result py_exn T)
    (doc : document) : result py_exn (option T) :=
  match get key doc with
  | None => Ok None
  | Some (JObj d) => let* x := validate d in Ok (Some x)
  | _ => Err ValueError
  end.

(** [fields_bind_state] *)
Definition fields_bind_state (s : ActuatorIntentStatusV1) : result py_exn unit :=
  if bool_decide (is_state s = u "RESERVED") then
    check (absent (is_plan s) && absent (is_action s))
  else
    match is_plan s, is_action s with
    | Some plan, Some action =>
        let* sha := actuator_intent_sha256 plan in
        check (bool_decide (x_intent_id (p_egress plan) = is_intent_id s)
               && bool_decide (sha = is_intent_sha256 s)
               && bool_decide (st_state action = is_state s)
               && (negb (bool_decide (is_state s = u "PREPARED"))
                   || bool_decide (st_observed_at action = p_prepared_at plan)))
    | _, _ => Err ValueError
    end.

(** [ActuatorIntentStatusV1] *)
Definition status_validate (doc : document) : result py_exn ActuatorIntentStatusV1 :=
  no_extra status_keys doc ;;*
  literal_field (u "schema_version") [STATUS_SCHEMA] doc ;;*
  let* intent := str_field (u "intent_id") doc in
  let* sha := str_field (u "intent_sha256") doc in
  let* state := str_field (u "state") doc in
  let* plan := opt_model_field (u "prepared_plan") plan_validate doc in
  let* action := opt_model_field (u "latest_action") action_status_validate doc in
  check (is_prefixed_hex "int_" 32 intent && HEX64 sha && bool_decide (state ∈ STATUS_STATES)) ;;*
  let s := mkIntentStatus intent sha state plan action in
  fields_bind_state s ;;* Ok s.

Definition action_status_dump (a : IntentActionStatusV1) : document :=
  [(u "state", JStr (st_state a)); (u "record_id", JStr (st_record_id a));
   (u "record_sha256", JStr (st_record_sha256 a)); (u "observed_at", JStr (st_observed_at a))].

Definition status_dump (s : ActuatorIntentStatusV1) : document := dump_of
  [(u "schema_version", Some (JStr STATUS_SCHEMA)); (u "intent_id", Some (JStr (is_intent_id s)));
   (u "intent_sha256", Some (JStr (is_intent_sha256 s))); (u "state", Some (JStr (is_state s)));
   (u "prepared_plan", (fun p => JObj (plan_dump p)) <$> is_plan s);
   (u "latest_action", (fun a => JObj (action_status_dump a)) <$> is_action s)].

(** [get_intent_status], with the response to its one request *)
Definition get_intent_status (get_list : list header -> pystr -> list pystr) (closed : bool)
    (exchange : pystr -> reply) (intent : pystr)
  : result journal_client_exn ActuatorIntentStatusV1 :=
  guard (is_prefixed_hex "int_" 32 intent) ActuatorJournalFatal ;;*
  guard (negb closed) ActuatorJournalFatal ;;*
  let* raw := get_response get_list (exchange (u "/v1/intents/" ++ intent)) MAX_STATUS_BYTES in
  decode_canonical status_required status_validate status_dump raw MAX_STATUS_BYTES.

(** ** What a verified page is *)

Section OuterFacts.
Context (crc32c : bytes -> Z).

Abbreviation frame_of := (Frames.frame_of crc32c).
Abbreviation hash_of := (Frames.hash_of crc32c).
Abbreviation journal_of := (Frames.journal_of crc32c).
Abbreviation chain_head := (Frames.chain_head crc32c).

(** The verified records of a list of payloads from one index, offset and hash *)
Fixpoint outer_of (index offset : Z) (previous : bytes) (ps : list bytes)
  : list VerifiedOuterRecord :=
  match ps with
  | [] => []
  | p :: ps =>
      mkOuter index offset (blen p + FRAME_OVERHEAD) (blen p) (hex_encode previous)
        (hex_encode (hash_of p previous)) p (frame_of p previous)
      :: outer_of (index + 1) (offset + blen (frame_of p previous)) (hash_of p previous) ps
  end.

Lemma outer_of_payloads index offset previous ps :
  map vo_payload (outer_of index offset previous ps) = ps.
Proof.
  revert index offset previous. induction ps as [|p ps IH]; intros; cbn; [done|]. by rewrite IH.
Qed.

Lemma outer_of_frames index offset previous ps :
  concat (map vo_frame (outer_of index offset previous ps)) = journal_of previous ps.
Proof.
  revert index offset previous. induction ps as [|p ps IH]; intros; [done|].
  cbn [outer_of map concat vo_frame Frames.journal_of]. by rewrite IH.
Qed.

Lemma outer_of_length index offset previous ps : length (outer_of index offset previous ps) = length ps.
Proof. by rewrite <- (outer_of_payloads index offset previous ps) at 2; rewrite length_map. Qed.

Lemma outer_of_app index offset previous ps qs :
  outer_of index offset previous (ps ++ qs)
  = outer_of index offset previous ps
    ++ outer_of (index + Z.of_nat (length ps)) (offset + blen (journal_of previous ps))
         (chain_head previous ps) qs.
Proof.
  revert index offset previous. induction ps as [|p ps IH]; intros index offset previous.
  - cbn [app outer_of length]. f_equal; unfold blen; cbn; lia.
  - cbn [app outer_of]. rewrite IH. cbn [app length Frames.journal_of].
    unfold Frames.chain_head. cbn [foldl]. do 3 f_equal; unfold blen; rewrite ?length_app; lia.
Qed.

Lemma drop_hash p previous :
  length previous = 32%nat ->
  drop (length (frame_of p previous) - 32) (frame_of p previous) = hash_of p previous.
Proof.
  intros H. rewrite frame_of_length by done.
  replace (76 + length p - 32)%nat with (44 + length p)%nat by lia. by apply frame_of_hash.
Qed.

Lemma verify_outer_ok index offset previous ws vs offset' previous' :
  length previous = 32%nat ->
  verify_outer_records crc32c index offset previous ws = Ok (vs, offset', previous') ->
  exists ps, payloads_ok MAX_PAGE_PAYLOAD ps /\ length ws = length ps
    /\ vs = outer_of index offset previous ps
    /\ offset' = offset + blen (journal_of previous ps) /\ previous' = chain_head previous ps.
Proof.
  revert index offset previous vs. induction ws as [|w ws IH]; intros index offset previous vs Hp H;
    cbn [verify_outer_records] in H.
  - injection H as <- <- <-. exists []. unfold blen. cbn. split_and!; try done; [constructor|lia].
  - apply rbind_ok in H as (p & _ & H). apply rbind_ok in H as (u1 & Hm%guard_ok & H).
    apply rbind_ok in H as (f & Hf%catch_ok & H). apply encode_frame_ok in Hf as (_ & _ & Hl & ->).
    apply rbind_ok in H as (u2 & Hs%guard_ok & H). rewrite drop_hash in Hs, H by done.
    apply rbind_ok in H as ([[vs1 o1] p1] & Hr & H). injection H as <- <- <-.
    apply IH in Hr as (ps & Hok & Hlen & -> & -> & ->); [|apply hash_of_length].
    exists (p :: ps). breflect. split_and!; try done.
    + by constructor.
    + cbn. by rewrite Hlen.
    + cbn [outer_of]. f_equal. by f_equal.
    + cbn [Frames.journal_of]. unfold blen. rewrite length_app. lia.
Qed.
End OuterFacts.

(** ** What a fetch does *)

Section FetchFacts.
Context (get_list : list header -> pystr -> list pystr) (crc32c : bytes -> Z).
Context (ed25519_verify : bytes -> bytes -> bytes -> bool) (public_key : bytes).
Context (serve : list pystr -> pystr -> reply).

Abbreviation journal_of := (Frames.journal_of crc32c).
Abbreviation chain_head := (Frames.chain_head crc32c).
Abbreviation outer_of := (outer_of crc32c).
Abbreviation append_all := (append_all ed25519_verify public_key).
Abbreviation extends := (extends ed25519_verify public_key).
Abbreviation with_inner := (with_inner ed25519_verify public_key).
Abbreviation get_page := (get_page get_list crc32c serve).
Abbreviation fetch_suffix := (fetch_suffix get_list crc32c ed25519_verify public_key serve).

Lemma extends_trans p q r : extends p q -> extends q r -> extends p r.
Proof. induction 1 as [|p limit x q v r' Ha _ IH]; [done|]. intros H. eapply X_append; eauto. Qed.

Lemma append_all_app p xs ys :
  append_all p (xs ++ ys)
  = (let* (q, vs) := append_all p xs in let* (r, ws) := append_all q ys in Ok (r, vs ++ ws)).
Proof.
  revert p. induction xs as [|x xs IH]; intros p; cbn [app ActuatorRecords.append_all rbind].
  - by destruct (append_all p ys) as [[r ws]|e].
  - destruct (append _ _ _ p x) as [[q v]|e]; [|done]. cbn [rbind]. rewrite IH.
    destruct (append_all q xs) as [[r vs]|e]; [|done]. cbn [rbind].
    by destruct (append_all r ys) as [[t ws]|e].
Qed.

Lemma with_inner_extends p outer q r : with_inner p outer = (q, r) -> extends p q.
Proof.
  revert p q r. induction outer as [|o outer IH]; intros p q r H;
    cbn [ActuatorProtocol.with_inner] in H; [injection H as <- _; constructor|].
  destruct (append _ _ _ p (vo_payload o)) as [[p1 v]|[]] eqn:E;
    [|injection H as <- _; constructor..].
  destruct (with_inner p1 outer) as [p2 [rs|e]] eqn:Ew; injection H as <- _;
    (eapply X_append; [exact E|by eapply IH]).
Qed.

Lemma with_inner_ok p outer q rs :
  with_inner p outer = (q, Ok rs) ->
  append_all p (map vo_payload outer) = Ok (q, map vr_inner rs) /\ map vr_outer rs = outer.
Proof.
  revert p q rs. induction outer as [|o outer IH]; intros p q rs H;
    cbn [ActuatorProtocol.with_inner] in H; [by injection H as <- <-|].
  destruct (append _ _ _ p (vo_payload o)) as [[p1 v]|[]] eqn:E; [|done..].
  destruct (with_inner p1 outer) as [p2 [rs1|e]] eqn:Ew; [|done]. injection H as <- <-.
  apply IH in Ew as [Ha Ho]. cbn [map ActuatorRecords.append_all]. rewrite E. cbn [rbind].
  rewrite Ha. cbn. by rewrite Ho.
Qed.

Lemma verify_page_ok page pinned after offset previous limit vs offset' previous' :
  length previous = 32%nat ->
  verify_outer_page crc32c page pinned after offset previous limit = Ok (vs, offset', previous') ->
  exists ps, payloads_ok MAX_PAGE_PAYLOAD ps /\ vs = outer_of (after + 1) offset previous ps
    /\ offset' = offset + blen (journal_of previous ps) /\ previous' = chain_head previous ps
    /\ after + Z.of_nat (length ps) <= sn_count pinned /\ Z.of_nat (length ps) <= limit.
Proof.
  intros Hp H. unfold verify_outer_page in H. apply rbind_ok in H as (s & _ & H).
  apply rbind_ok in H as (u1 & H1%guard_ok & H).
  apply rbind_ok in H as ([[vs1 o1] p1] & Hv & H). apply rbind_ok in H as (u2 & H2%guard_ok & H).
  injection H as <- <- <-. apply verify_outer_ok in Hv as (ps & Hok & Hl & -> & -> & ->); [|done].
  exists ps. breflect. split_and!; try done; lia.
Qed.

Lemma get_page_ok past pinned after offset previous limit past' vs offset' previous' :
  length previous = 32%nat ->
  get_page past pinned after offset previous limit = (past', Ok (vs, offset', previous')) ->
  exists ps, payloads_ok MAX_PAGE_PAYLOAD ps /\ vs = outer_of (after + 1) offset previous ps
    /\ offset' = offset + blen (journal_of previous ps) /\ previous' = chain_head previous ps
    /\ after + Z.of_nat (length ps) <= sn_count pinned.
Proof.
  intros Hp H. unfold ActuatorProtocol.get_page in H. injection H as _ H.
  apply rbind_ok in H as (raw & _ & H). apply rbind_ok in H as ([page s] & _ & H).
  apply rbind_ok in H as (u1 & _ & H). apply verify_page_ok in H as (ps & ? & ? & ? & ? & ? & _); [|done].
  by exists ps.
Qed.

(** The loop ends within one round per record left, and what it returns is the verified
    continuation of the position it started from. *)
Lemma fetch_suffix_ok fuel past pinned limit after offset previous p ext q res :
  length previous = 32%nat -> sn_count pinned - after <= Z.of_nat fuel ->
  fetch_suffix fuel past pinned limit after offset previous p ext = (q, res) ->
  extends p q
  /\ exists r, res = Some r
    /\ forall ext' after' offset' previous', r = Ok (ext', after', offset', previous') ->
       exists ps rs, payloads_ok MAX_PAGE_PAYLOAD ps /\ ext' = ext ++ rs
         /\ map vr_outer rs = outer_of (after + 1) offset previous ps
         /\ append_all p ps = Ok (q, map vr_inner rs)
         /\ after' = after + Z.of_nat (length ps)
         /\ offset' = offset + blen (journal_of previous ps)
         /\ previous' = chain_head previous ps.
Proof.
  revert past after offset previous p ext.
  induction fuel as [|fuel IH]; intros past after offset previous p ext Hp Hfuel H;
    cbn [ActuatorProtocol.fetch_suffix] in H; (destruct (after <? sn_count pinned) eqn:Hlt;
      [apply Z.ltb_lt in Hlt|]); try lia.
  1, 3: injection H as <- <-; split; [constructor|]; eexists; split; [done|];
    intros ext' a' o' p' [= <- <- <- <-]; exists [], []; rewrite app_nil_r; unfold blen; cbn;
    split_and!; try done; try lia; constructor.
  destruct (get_page past pinned after offset previous limit) as [past1 [[[vs o1] p1]|e]] eqn:Eg.
  2:{ injection H as <- <-. split; [constructor|]. by eexists. }
  apply get_page_ok in Eg as (ps & Hok & -> & -> & -> & Hn); [|done].
  rewrite outer_of_length in H. case_bool_decide as Hz.
  { injection H as <- <-. split; [constructor|]. by eexists. }
  destruct (with_inner p (outer_of (after + 1) offset previous ps)) as [p2 [rs|e]] eqn:Ew.
  2:{ injection H as <- <-. apply with_inner_extends in Ew. split; [done|]. by eexists. }
  pose proof (with_inner_extends _ _ _ _ Ew) as Hx. apply with_inner_ok in Ew as [Ha Ho].
  rewrite outer_of_payloads in Ha.
  apply IH in H as (Hx2 & r & -> & Hr); [|by apply chain_head_length|lia].
  split; [by eapply extends_trans|]. exists r. split; [done|].
  intros ext' a' o' p' E. destruct (Hr _ _ _ _ E) as (qs & rs2 & Hok2 & -> & Ho2 & Ha2 & -> & -> & ->).
  exists (ps ++ qs), (rs ++ rs2).
  split_and!.
  - by apply Forall_app.
  - by rewrite app_assoc.
  - rewrite map_app, Ho, Ho2, outer_of_app. do 2 f_equal. lia.
  - rewrite append_all_app, Ha. cbn [rbind]. rewrite Ha2. cbn [rbind]. by rewrite map_app.
  - rewrite length_app. lia.
  - rewrite journal_of_app. unfold blen. rewrite length_app. lia.
  - unfold Frames.chain_head. by rewrite foldl_app.
Qed.
(** ** What a fetch returns *)

(** The cursor of a list of payloads *)
Definition snapshot_of (ds : list bytes) : ActuatorJournalSnapshot :=
  mkSnapshot (Z.of_nat (length ds)) (blen (journal_of zero_hash ds))
    (hex_encode (chain_head zero_hash ds)).

Abbreviation fetch_start := (fetch_start get_list crc32c ed25519_verify public_key serve).
Abbreviation fetch_extension_locked :=
  (fetch_extension_locked get_list crc32c ed25519_verify public_key serve).
Abbreviation fetch_verified_extension :=
  (fetch_verified_extension get_list crc32c ed25519_verify public_key serve).

(** Snapshots within the bounds of the wire *)
Definition within_bounds (s : ActuatorJournalSnapshot) : Prop :=
  sn_count s <= MAX_JOURNAL_RECORDS /\ sn_bytes s <= MAX_JOURNAL_BYTES.

Lemma decode_page_bounds raw page s : decode_page raw = Ok (page, s) -> within_bounds s.
Proof.
  unfold decode_page, decode_canonical. intros H. apply rbind_ok in H as (pg & H1%catch_ok & H).
  apply rbind_ok in H as (sn & Hs & H). injection H as <- <-.
  unfold snapshot_from_wire in Hs. apply rbind_ok in Hs as (u1 & _ & Hs). injection Hs as <-.
  apply rbind_ok in H1 as (pg1 & Hd & H1). apply rbind_ok in H1 as (c & _ & H1).
  apply rbind_ok in H1 as (u2 & _ & H1). injection H1 as <-.
  unfold decode_strict in Hd. apply rbind_ok in Hd as (d & _ & Hd).
  apply rbind_ok in Hd as (u3 & _ & Hd). apply rbind_ok in Hd as (u8 & _ & Hd).
  unfold page_validate in Hd. apply rbind_ok in Hd as (u4 & _ & Hd).
  apply rbind_ok in Hd as (u5 & _ & Hd). apply rbind_ok in Hd as (n & _ & Hd).
  apply rbind_ok in Hd as (sn & Hsn & Hd). apply rbind_ok in Hd as (a & _ & Hd).
  apply rbind_ok in Hd as (rs & _ & Hd). apply rbind_ok in Hd as (nx & _ & Hd).
  apply rbind_ok in Hd as (mo & _ & Hd). injection Hd as <-. cbn [pg_snapshot].
  unfold snapshot_validate in Hsn. apply rbind_ok in Hsn as (u6 & _ & Hsn).
  apply rbind_ok in Hsn as (c1 & Hc%int_field_range & Hsn).
  apply rbind_ok in Hsn as (c2 & Hb%int_field_range & Hsn).
  apply rbind_ok in Hsn as (h & _ & Hsn). apply rbind_ok in Hsn as (u7 & _ & Hsn).
  injection Hsn as <-. split; cbn; lia.
Qed.

Lemma first_page_ok past pinned outer offset previous :
  first_page get_list crc32c serve = (past, Ok (pinned, outer, offset, previous)) ->
  within_bounds pinned
  /\ exists ps, payloads_ok MAX_PAGE_PAYLOAD ps /\ outer = outer_of 1 0 zero_hash ps
    /\ offset = blen (journal_of zero_hash ps) /\ previous = chain_head zero_hash ps
    /\ (length ps <= 1)%nat.
Proof.
  unfold first_page. intros [= _ H]. apply rbind_ok in H as (raw & _ & H).
  apply rbind_ok in H as ([page s] & Hb%decode_page_bounds & H). apply rbind_ok in H as ([[vs o1] p1] & Hv & H).
  injection H as <- <- <- <-. apply verify_page_ok in Hv as (ps & ? & ? & ? & ? & _ & ?); [|done].
  split; [done|]. exists ps. split_and!; try done; lia.
Qed.

(** The position the loop starts from *)
Lemma fetch_start_ok p ds last past pinned outer offset previous q r :
  first_page get_list crc32c serve = (past, Ok (pinned, outer, offset, previous)) ->
  (length outer = 1%nat \/ ds <> []) ->
  fetch_start p (snapshot_of ds) last past pinned outer offset previous = (q, r) ->
  extends p q
  /\ forall past' rs after offset' previous', r = Ok (past', rs, after, offset', previous') ->
     exists ps, payloads_ok MAX_PAGE_PAYLOAD ps /\ append_all p ps = Ok (q, map vr_inner rs)
       /\ map vr_outer rs = outer_of (Z.of_nat (length ds) + 1) (blen (journal_of zero_hash ds))
            (chain_head zero_hash ds) ps
       /\ after = sn_count (snapshot_of (ds ++ ps)) /\ offset' = sn_bytes (snapshot_of (ds ++ ps))
       /\ previous' = chain_head zero_hash (ds ++ ps).
Proof.
  intros Hf Hne H. unfold ActuatorProtocol.fetch_start in H. cbn [snapshot_of sn_count sn_bytes sn_head] in H.
  destruct (Z.of_nat (length ds) =? 0) eqn:Ez.
  - apply Z.eqb_eq in Ez. destruct ds as [|d ds]; [|cbn in Ez; lia]. destruct Hne as [Hne|]; [|done].
    apply first_page_ok in Hf as (_ & ps & Hok & -> & -> & -> & Hl). rewrite outer_of_length in Hne.
    rewrite take_ge in H by (rewrite outer_of_length; lia).
    destruct (with_inner p (outer_of 1 0 zero_hash ps)) as [p2 [rs|e]] eqn:Ew;
      pose proof (with_inner_extends _ _ _ _ Ew) as Hx; injection H as <- <-; (split; [exact Hx|]); [|done].
    intros past' rs' a o b [= <- <- <- <- <-]. apply with_inner_ok in Ew as [Ha Ho].
    rewrite outer_of_payloads in Ha. exists ps. cbn [app]. unfold snapshot_of. cbn [sn_count sn_bytes].
    split_and!; try done. lia.
  - destruct last as [last|]; [|injection H as <- <-; split; [constructor|done]].
    destruct (boundary_record _ _ _ past pinned (snapshot_of ds) outer last) as [past1 [b|e]];
      injection H as <- <-; (split; [constructor|]); [|done].
    intros past' rs a o prev H. apply rbind_ok in H as (u1 & _ & H). apply rbind_ok in H as (h & Hh%catch_ok & H).
    injection H as <- <- <- <- <-. unfold fromhex in Hh. rewrite hex_decode_encode in Hh. injection Hh as <-.
    exists []. rewrite app_nil_r. split_and!; try done. constructor.
Qed.

(** A fetch always ends; whatever it returns is a verified continuation of the cursor. *)
Lemma fetch_locked_ok p ds first last limit q res :
  fetch_extension_locked p (snapshot_of ds) first last limit = (q, res) ->
  extends p q
  /\ exists r, res = Some r /\ forall ex, r = Ok ex ->
     exists ps, payloads_ok MAX_PAGE_PAYLOAD ps
       /\ append_all p ps = Ok (q, map vr_inner (ex_records ex))
       /\ map vr_outer (ex_records ex)
          = outer_of (Z.of_nat (length ds) + 1) (blen (journal_of zero_hash ds))
              (chain_head zero_hash ds) ps
       /\ ex_snapshot ex = snapshot_of (ds ++ ps) /\ within_bounds (ex_snapshot ex)
       /\ (ps <> [] -> ex_intents ex = intents q /\ ex_actions ex = p_actions q).
Proof.
  unfold ActuatorProtocol.fetch_extension_locked. intros H.
  destruct (first_page get_list crc32c serve) as [past [[[[pinned outer] offset] previous]|e]] eqn:Ef;
    [|injection H as <- <-; split; [constructor|by eexists]].
  match type of H with (match ?c with Ok _ => _ | Err _ => _ end) = _ => destruct c as [u1|e] eqn:Ec end;
    [|injection H as <- <-; split; [constructor|by eexists]].
  pose proof (proj1 (first_page_ok _ _ _ _ _ Ef)) as Hb.
  apply rbind_ok in Ec as (u2 & Hle%guard_ok & Ec). apply rbind_ok in Ec as (u3 & Hone%guard_ok & _).
  destruct (sn_count pinned =? sn_count (snapshot_of ds)) eqn:Eq.
  - injection H as <- <-. split; [constructor|]. eexists. split; [done|]. intros ex H.
    apply rbind_ok in H as (u4 & Hs%guard_ok & H). injection H as <-. exists [].
    rewrite app_nil_r. breflect. split_and!; try done; [constructor|]. cbn [ex_snapshot].
    destruct pinned; cbn in *; subst. unfold snapshot_of. f_equal; lia.
  - destruct (fetch_start p (snapshot_of ds) last past pinned outer offset previous)
      as [p1 [[[[[past1 rs] after] o1] pr1]|e]] eqn:Es.
    all: assert (Hne : length outer = 1%nat \/ ds <> [])
      by (left; apply Z.leb_le in Hle; apply Z.eqb_neq in Eq; cbn [snapshot_of sn_count] in Hle, Eq;
          apply orb_true_iff in Hone as [Hone%Z.leb_le|Hone%bool_decide_eq_true]; [lia|exact Hone]).
    all: apply (fetch_start_ok p ds) in Es as [Hx Hs]; [|exact Ef|exact Hne].
    2:{ injection H as <- <-. split; [exact Hx|by eexists]. }
    destruct (Hs _ _ _ _ _ eq_refl) as (ps & Hok & Ha & Ho & -> & -> & ->). clear Hs.
    destruct (fetch_suffix _ past1 pinned limit _ _ _ p1 rs) as [p2 res2] eqn:El.
    apply fetch_suffix_ok in El as (Hx2 & r & -> & Hr); [|by apply chain_head_length|lia].
    destruct r as [[[[ext a] o] h]|e]; injection H as <- <-;
      (split; [by eapply extends_trans|]); eexists; (split; [done|]); [|done].
    intros ex H. apply rbind_ok in H as (u4 & Hend%guard_ok & H). injection H as <-.
    destruct (Hr _ _ _ _ eq_refl) as (qs & rs2 & Hok2 & -> & Ho2 & Ha2 & -> & -> & ->).
    exists (ps ++ qs). cbn [ex_records ex_snapshot ex_intents ex_actions].
    split_and!; [by apply Forall_app| | | |done|done].
    + rewrite append_all_app, Ha. cbn [rbind]. rewrite Ha2. cbn [rbind]. by rewrite map_app.
    + rewrite map_app, Ho, Ho2, outer_of_app. cbn [snapshot_of sn_count sn_bytes]. f_equal.
      rewrite journal_of_app. unfold Frames.chain_head. rewrite foldl_app.
      f_equal; unfold blen; rewrite ?length_app; lia.
    + breflect. destruct pinned as [c b h]. cbn [snapshot_of sn_count sn_bytes sn_head] in *.
      subst. rewrite (app_assoc ds ps qs). unfold snapshot_of. rewrite (journal_of_app _ _ (ds ++ ps)).
      f_equal; unfold blen; rewrite ?length_app in *; try lia.
      unfold Frames.chain_head. by rewrite !foldl_app.
Qed.
Lemma fetch_verified_ok closed p ds first last limit q res :
  fetch_verified_extension closed p (snapshot_of ds) first last limit = (q, res) ->
  extends p q
  /\ exists r, res = Some r /\ forall ex, r = Ok ex ->
     exists ps, payloads_ok MAX_PAGE_PAYLOAD ps
       /\ append_all p ps = Ok (q, map vr_inner (ex_records ex))
       /\ map vr_outer (ex_records ex)
          = outer_of (Z.of_nat (length ds) + 1) (blen (journal_of zero_hash ds))
              (chain_head zero_hash ds) ps
       /\ ex_snapshot ex = snapshot_of (ds ++ ps) /\ within_bounds (ex_snapshot ex)
       /\ (ps <> [] -> ex_intents ex = intents q /\ ex_actions ex = p_actions q).
Proof.
  unfold ActuatorProtocol.fetch_verified_extension.
  destruct (guard (_ && _) _ ;;* _) as [u1|e]; intros H; [by eapply fetch_locked_ok|].
  injection H as <- <-. split; [constructor|by eexists].
Qed.

(** C26: Fetching an extension always ends, whatever the actuator answers: the loop over
    pages needs at most one round per record of the pinned snapshot.  The projection is
    only ever moved forward by verified payloads.  What is returned is the verified
    continuation of the local cursor: the new records are consecutive AGF1 frames with
    their indices, offsets, sizes and hash links, every payload was accepted by the
    signed record chain, and the pinned snapshot is exactly the cursor of the local
    payloads followed by the new ones, within the bounds of the wire. *)
Theorem fetch_ends_verified closed p ds first last limit :
  exists q r,
    fetch_verified_extension closed p (snapshot_of ds) first last limit = (q, Some r)
    /\ extends p q
    /\ forall ex, r = Ok ex ->
       exists ps, append_all p ps = Ok (q, map vr_inner (ex_records ex))
         /\ map vr_outer (ex_records ex)
            = outer_of (Z.of_nat (length ds) + 1) (blen (journal_of zero_hash ds))
                (chain_head zero_hash ds) ps
         /\ ex_snapshot ex = snapshot_of (ds ++ ps) /\ within_bounds (ex_snapshot ex).
Proof.
  destruct (fetch_verified_extension closed p (snapshot_of ds) first last limit) as [q res] eqn:E.
  destruct (fetch_verified_ok _ _ _ _ _ _ _ _ E) as (Hx & r & -> & Hr).
  exists q, r. split_and!; [done..|]. intros ex Hex.
  destruct (Hr ex Hex) as (ps & _ & Ha & Ho & Hs & Hb & _). by exists ps.
Qed.
End FetchFacts.
