(* ===== verification/ActuatorMirror.v ===== *)
(** * The durable mirror of the actuator's journal

    [actions/actuator_mirror.py]: the owner-only file, its replay with repair of a torn
    tail, the synchronisation that appends a verified extension, and the queries.

    The file is its bytes.  What the kernel answers to a system call (metadata, short
    writes, failures) and what the actuator answers are arguments of each operation;
    the size in a [stat] result is the length of the modelled file. *)

From S2P Require Import Prelude Sha256 CanonicalJson JsonDecode Frames Time Ipv4 Identities.
From S2P Require Import Contracts Egress Candidates Policy DecisionClock PolicyClient.
From S2P Require Import ActuatorClient ActuatorRecords ActuatorProtocol.
Local Open Scope Z_scope.
Local Open Scope agmind_scope.

(** ** Failures, bounds and metadata *)

(** [ActuatorJournalRetryable] and a cancellation leave [sync_once] as they are;
    [MirrorEscape] is any other exception. *)
Inductive mirror_exn :=
| ActuatorMirrorFatal (message : pystr) | ActuatorMirrorConflict (message : pystr)
| ActuatorMirrorBusy | MirrorRetryable | MirrorCancelled | MirrorValueError | MirrorEscape.

#[export] Instance mirror_exn_eq_dec : EqDecision mirror_exn.
Proof. solve_decision. Defined.

Definition MIRROR_FRAME_PAYLOAD : Z := 65536.
Definition MAX_MIRROR_BYTES : Z := 64 * 1024 * 1024.
Definition MAX_MIRROR_RECORDS : Z := 65536.

(** The fields of [os.stat_result] the code looks at, without the size *)
Record meta := mkMeta {
  st_regular : bool; st_directory : bool; st_uid : Z; st_nlink : Z; st_imode : Z;
  st_dev : Z; st_ino : Z; st_mtime_ns : Z; st_ctime_ns : Z }.

#[export] Instance meta_eq_dec : EqDecision meta.
Proof. solve_decision. Defined.

Definition same_inode (a b : meta) : bool := (st_dev a =? st_dev b) && (st_ino a =? st_ino b).

Definition unchanged (a b : meta) : bool :=
  same_inode a b && (st_mtime_ns a =? st_mtime_ns b) && (st_ctime_ns a =? st_ctime_ns b).

Definition fatal {A} (message : string) : result mirror_exn A :=
  Err (ActuatorMirrorFatal (u message)).

Definition require (b : bool) (message : string) : result mirror_exn unit :=
  guard b (ActuatorMirrorFatal (u message)).

(** [_read_actuator_public_key] after its path check: the metadata before and after,
    of the open file and of its name, each [None] where the call fails, and the bytes of
    the file; 18 is the mask [0o022] *)
Definition read_actuator_public_key (content : bytes) (before after named : option meta)
  : result mirror_exn bytes :=
  let unavailable := ActuatorMirrorFatal (u "actuator public key is unavailable") in
  let* before := of_option unavailable before in
  require (st_regular before && (st_uid before =? 0) && (st_nlink before =? 1)
           && (Z.land (st_imode before) 18 =? 0) && (blen content =? 32))
    "actuator public key is not protected raw Ed25519" ;;*
  let public_key := take 33 content in
  let* after := of_option unavailable after in
  let* named := of_option unavailable named in
  require ((blen public_key =? 32) && unchanged before after && same_inode after named)
    "actuator public key changed while loading" ;;*
  Ok public_key.

(** The checks of [_safe_parent] on the opened directory; 448 is the mode [0o700] *)
Definition parent_is_safe (euid : Z) (opened named : meta) : bool :=
  st_directory opened && (st_uid opened =? euid) && (st_imode opened =? 448)
  && same_inode opened named.

(** The owner-only regular file behind the mirror's name; 384 is the mode [0o600] *)
Definition file_is_safe (euid : Z) (opened named : meta) : bool :=
  st_regular opened && (st_uid opened =? euid) && (st_nlink opened =? 1)
  && (st_imode opened =? 384) && same_inode opened named.

(** ** Replaying the file *)

Record ActuatorMirrorSnapshot := mkMirrorSnapshot {
  ms_count : Z; ms_bytes : Z; ms_head : pystr; ms_records : list VerifiedActuatorJournalRecord;
  ms_intents : list MirroredIntentState; ms_actions : list ActionRecordV1 }.

(** How the repair of a torn tail ends: [ftruncate] fails, or [fsync] after it *)
Inductive repair_end := Repaired | TruncateFailed | RepairSyncFailed.

Section Mirror.
Context (get_list : list header -> pystr -> list pystr) (crc32c : bytes -> Z).
Context (ed25519_verify : bytes -> bytes -> bytes -> bool) (public_key : bytes).

(** [_full_read]: [before] and [after] are the metadata around the read *)
Definition full_read (file : bytes) (before after : meta) : result mirror_exn bytes :=
  require (blen file <=? MAX_MIRROR_BYTES) "actuator mirror exceeds its byte bound" ;;*
  require (unchanged before after) "actuator mirror changed while replaying" ;;*
  Ok file.

(** The loop of [_snapshot_from_local] *)
Fixpoint replay_frames (p : ActuatorRecordProjection) (raw : bytes) (index : Z)
    (frames : list FrameRecord)
  : result mirror_exn (ActuatorRecordProjection * list VerifiedActuatorJournalRecord) :=
  match frames with
  | [] => Ok (p, [])
  | f :: frames =>
      let* (p, inner) :=
        catch_with (fun e => match e with
                             | ActuatorRecordError =>
                                 ActuatorMirrorFatal (u "actuator mirror signed payload chain is corrupt")
                             | InterpreterLimit => MirrorEscape
                             end) (append ed25519_verify public_key false p (payload f)) in
      let frame := take (size f) (drop (offset f) raw) in
      let record := mkVerifiedRecord
        (mkOuter index (Z.of_nat (offset f)) (Z.of_nat (size f)) (blen (payload f))
           (hex_encode (previous_hash f)) (hex_encode (record_hash f)) (payload f) frame) inner in
      let* (p, records) := replay_frames p raw (index + 1) frames in
      Ok (p, record :: records)
  end.

(** [_snapshot_from_local]: the file as it is left, and the snapshot with its projection *)
Definition snapshot_from_local (file : bytes) (before after : meta) (repair : repair_end)
  : bytes * result mirror_exn (ActuatorMirrorSnapshot * ActuatorRecordProjection) :=
  match full_read file before after with
  | Err e => (file, Err e)
  | Ok raw =>
      match decode_frames crc32c raw MIRROR_FRAME_PAYLOAD with
      | Err _ => (file, fatal "actuator mirror AGF1 chain is corrupt")
      | Ok decoded =>
          if MAX_MIRROR_RECORDS <? Z.of_nat (length (records decoded)) then
            (file, fatal "actuator mirror exceeds its record bound")
          else
            let '(file, repaired) :=
              if torn_tail decoded then
                match repair with
                | Repaired => (take (verified_bytes decoded) file, true)
                | TruncateFailed => (file, false)
                | RepairSyncFailed => (take (verified_bytes decoded) file, false)
                end
              else (file, true) in
            let raw := if torn_tail decoded then take (verified_bytes decoded) raw else raw in
            (file,
             require repaired "actuator mirror torn-tail repair is uncertain" ;;*
             let* (p, rs) := replay_frames new_projection raw 1 (records decoded) in
             Ok (mkMirrorSnapshot (Z.of_nat (length rs)) (Z.of_nat (verified_bytes decoded))
                   (match last rs with Some r => vo_frame_sha256 (vr_outer r) | None => ZERO_SHA256 end)
                   rs (intents p) (p_actions p), p))
      end
  end.

(** ** The mirror object *)

Record ActuatorMirror := mkMirror {
  m_file : bytes; m_projection : ActuatorRecordProjection; m_snapshot : ActuatorMirrorSnapshot;
  m_read_only : bool; m_fatal : option pystr; m_closed : bool }.

(** What the kernel says while the mirror is opened; [oe_file] is [None] when the file
    can neither be opened nor created *)
Record open_env := mkOpenEnv {
  oe_euid : Z; oe_parent : option (meta * meta); oe_file : option (meta * meta);
  oe_lock : bool; oe_created_synced : bool; oe_read : meta * meta; oe_repair : repair_end }.

(** [_open] on the file of the fixed path, [None] where there is none: the file as it is
    left and the mirror *)
Definition open_mirror (file : option bytes) (env : open_env)
  : option bytes * result mirror_exn ActuatorMirror :=
  let prepared :=
    guard (blen public_key =? 32) (ActuatorMirrorFatal (u "actuator mirror inputs are invalid")) ;;*
    let* (opened, named) := of_option
      (ActuatorMirrorFatal (u "actuator mirror parent is unavailable")) (oe_parent env) in
    require (parent_is_safe (oe_euid env) opened named) "actuator mirror parent is not owner-only" in
  match prepared with
  | Err e => (file, Err e)
  | Ok _ =>
      match oe_file env with
      | None => (file, match file with
                       | Some _ => fatal "actuator mirror file is unavailable"
                       | None => Err MirrorEscape
                       end)
      | Some (opened, named) =>
          let content := default [] file in
          let checks :=
            require (file_is_safe (oe_euid env) opened named && (blen content <=? MAX_MIRROR_BYTES))
              "actuator mirror file is unsafe" ;;*
            guard (oe_lock env) ActuatorMirrorBusy ;;*
            guard (bool_decide (file <> None) || oe_created_synced env) MirrorEscape in
          match checks with
          | Err e => (Some content, Err e)
          | Ok _ =>
              let '(content, replayed) :=
                snapshot_from_local content (oe_read env).1 (oe_read env).2 (oe_repair env) in
              (Some content,
               let* (snapshot, projection) := replayed in
               Ok (mkMirror content projection snapshot false None false))
          end
      end
  end.

(** [read_only] *)
Definition mirror_read_only (m : ActuatorMirror) : bool := m_read_only m || m_closed m.

(** [latest_for_intent] *)
Definition latest_for_intent (m : ActuatorMirror) (intent : pystr)
  : result mirror_exn (option MirroredIntentState) :=
  guard (is_prefixed_hex "int_" 32 intent) MirrorValueError ;;*
  Ok (List.find (fun s => bool_decide (mi_intent_id s = intent)) (ms_intents (m_snapshot m))).

(** [action_records] *)
Definition action_records (m : ActuatorMirror) (after limit : Z)
  : result mirror_exn (list ActionRecordV1) :=
  let records := ms_actions (m_snapshot m) in
  guard ((0 <=? after) && (after <=? Z.of_nat (length records)) && (1 <=? limit) && (limit <=? 100))
    MirrorValueError ;;*
  Ok (take (Z.to_nat limit) (drop (Z.to_nat after) records)).

(** [latest_for_action] *)
Definition latest_for_action (m : ActuatorMirror) (action : pystr)
  : result mirror_exn (option ActionRecordV1) :=
  guard (is_prefixed_hex "act_" 32 action) MirrorValueError ;;*
  Ok (List.find (fun r => bool_decide (ar_action_id r = Some action)) (rev (ms_actions (m_snapshot m)))).

(** [_latch_fatal]: the first message is kept *)
Definition latch_fatal (m : ActuatorMirror) (message : string) : ActuatorMirror :=
  mkMirror (m_file m) (m_projection m) (m_snapshot m) true
    (Some (default (u message) (m_fatal m))) (m_closed m).

(** [_binding_is_current] *)
Definition binding_is_current (euid : Z) (m : ActuatorMirror) (found : option (meta * meta))
    (expected_size : Z) : bool :=
  match found with
  | Some (opened, named) => file_is_safe euid opened named && (blen (m_file m) =? expected_size)
  | None => false
  end.

(** How the append of an extension ends: written and synchronised, or an [OSError] with
    some first bytes of it in the file *)
Inductive write_end := Written | WriteFailed (written : nat).

(** What the world does during one [sync_once] *)
Record sync_env := mkSyncEnv {
  se_euid : Z; se_token : Z; se_client_closed : bool; se_serve : list pystr -> pystr -> reply;
  se_before : option (meta * meta); se_write : write_end; se_after : option (meta * meta) }.

Definition with_projection (m : ActuatorMirror) (p : ActuatorRecordProjection) : ActuatorMirror :=
  mkMirror (m_file m) p (m_snapshot m) (m_read_only m) (m_fatal m) (m_closed m).

Definition with_file (m : ActuatorMirror) (file : bytes) : ActuatorMirror :=
  mkMirror file (m_projection m) (m_snapshot m) (m_read_only m) (m_fatal m) (m_closed m).

(** [rollback_extension] and the way the failure is raised *)
Definition abandon (m : ActuatorMirror) (p : ActuatorRecordProjection) (tok : Z)
    (fail : ActuatorMirror -> ActuatorMirror * mirror_exn)
  : ActuatorMirror * result mirror_exn ActuatorMirrorSnapshot :=
  match rollback_extension p tok with
  | Err _ => (with_projection m p, Err MirrorEscape)
  | Ok p => let '(m, e) := fail (with_projection m p) in (m, Err e)
  end.

Definition latched (message : string) (m : ActuatorMirror) : ActuatorMirror * mirror_exn :=
  (latch_fatal m message, ActuatorMirrorFatal (u message)).

(** [_prefix_conflict] *)
Definition prefix_conflict (m : ActuatorMirror) : ActuatorMirror * mirror_exn :=
  let message := "actuator journal prefix conflicts with durable mirror"%string in
  (latch_fatal m message, ActuatorMirrorConflict (u message)).

(** The handlers around [fetch_verified_extension] *)
Definition fetch_failed (e : journal_client_exn) (m : ActuatorMirror) : ActuatorMirror * mirror_exn :=
  match e with
  | ClientCancelled => (m, MirrorCancelled)
  | ActuatorJournalRetryable => (m, MirrorRetryable)
  | ActuatorJournalConflict => prefix_conflict m
  | ActuatorJournalFatal => latched "actuator journal verification failed" m
  | ActuatorIntentNotFound | ClientEscape =>
      latched "actuator journal sync failed outside its contract" m
  end.

(** [_mirror_snapshot] *)
Definition mirror_snapshot (local : ActuatorMirrorSnapshot)
    (remote : VerifiedActuatorJournalExtension) : ActuatorMirrorSnapshot :=
  mkMirrorSnapshot (sn_count (ex_snapshot remote)) (sn_bytes (ex_snapshot remote))
    (sn_head (ex_snapshot remote)) (ms_records local ++ ex_records remote) (ex_intents remote)
    (ex_actions remote).

(** [sync_once] after a fetch that returned *)
Definition append_remote (m : ActuatorMirror) (p : ActuatorRecordProjection) (env : sync_env)
    (remote : VerifiedActuatorJournalExtension)
  : ActuatorMirror * result mirror_exn ActuatorMirrorSnapshot :=
  let local := m_snapshot m in
  let commit (m : ActuatorMirror) (snapshot : ActuatorMirrorSnapshot) :=
    match commit_extension p (se_token env) with
    | Err _ => (with_projection m p, Err MirrorEscape)
    | Ok p => (mkMirror (m_file m) p snapshot (m_read_only m) (m_fatal m) (m_closed m), Ok snapshot)
    end in
  if negb (sn_count (ex_snapshot remote) =? ms_count local + Z.of_nat (length (ex_records remote))) then
    abandon m p (se_token env) (latched "actuator extension count is inconsistent")
  else if bool_decide (length (ex_records remote) = 0%nat) then commit m local
  else if negb (binding_is_current (se_euid env) m (se_before env) (ms_bytes local)) then
    abandon m p (se_token env) (latched "actuator mirror file binding changed")
  else
    let data := concat (map (fun r => vo_frame (vr_outer r)) (ex_records remote)) in
    match se_write env with
    | WriteFailed n =>
        abandon (with_file m (m_file m ++ take n data)) p (se_token env)
          (latched "actuator mirror durability is uncertain")
    | Written =>
        let m := with_file m (m_file m ++ data) in
        if negb (binding_is_current (se_euid env) m (se_after env) (sn_bytes (ex_snapshot remote))) then
          abandon m p (se_token env) (latched "actuator mirror durable size or binding is invalid")
        else commit m (mirror_snapshot local remote)
    end.

(** [sync_once].  [None] would be a fetch that does not end. *)
Definition sync_once (m : ActuatorMirror) (page_limit : Z) (env : sync_env)
  : ActuatorMirror * option (result mirror_exn ActuatorMirrorSnapshot) :=
  if m_closed m then (m, Some (fatal "actuator mirror is closed"))
  else if m_read_only m then
    (m, Some (Err (ActuatorMirrorFatal (default (u "actuator mirror is read-only") (m_fatal m)))))
  else
    let local := m_snapshot m in
    match begin_extension (m_projection m) (se_token env) with
    | Err _ => (m, Some (Err MirrorEscape))
    | Ok p =>
        match fetch_verified_extension get_list crc32c ed25519_verify public_key (se_serve env)
                (se_client_closed env) p
                (mkSnapshot (ms_count local) (ms_bytes local) (ms_head local))
                (head (ms_records local)) (last (ms_records local)) page_limit with
        | (p, None) => (with_projection m p, None)
        | (p, Some (Err e)) =>
            let '(m, r) := abandon m p (se_token env) (fetch_failed e) in (m, Some r)
        | (p, Some (Ok remote)) =>
            let '(m, r) := append_remote m p env remote in (m, Some r)
        end
    end.

(** [close] *)
Definition close_mirror (m : ActuatorMirror) : ActuatorMirror :=
  mkMirror (m_file m) (m_projection m) (m_snapshot m) (m_read_only m) (m_fatal m) true.
End Mirror.

(** ** What replaying a file gives *)

Section MirrorFacts.
Context (get_list : list header -> pystr -> list pystr) (crc32c : bytes -> Z).
Context (crc_range : forall x, 0 <= crc32c x < 2 ^ 32).
Context (ed25519_verify : bytes -> bytes -> bytes -> bool) (public_key : bytes).

Abbreviation frame_of := (Frames.frame_of crc32c).
Abbreviation frames_of := (Frames.frames_of crc32c).
Abbreviation journal_of := (Frames.journal_of crc32c).
Abbreviation chain_head := (Frames.chain_head crc32c).
Abbreviation outer_of := (ActuatorProtocol.outer_of crc32c).
Abbreviation snapshot_of := (ActuatorProtocol.snapshot_of crc32c).
Abbreviation append_all := (ActuatorRecords.append_all ed25519_verify public_key).
Abbreviation extends := (ActuatorRecords.extends ed25519_verify public_key).
Abbreviation replay_frames := (ActuatorMirror.replay_frames ed25519_verify public_key).
Abbreviation snapshot_from_local :=
  (ActuatorMirror.snapshot_from_local crc32c ed25519_verify public_key).
Abbreviation open_mirror := (ActuatorMirror.open_mirror crc32c ed25519_verify public_key).
Abbreviation sync_once := (ActuatorMirror.sync_once get_list crc32c ed25519_verify public_key).

(** The failure of a replay *)
Definition replay_exn (e : record_exn) : mirror_exn :=
  match e with
  | ActuatorRecordError => ActuatorMirrorFatal (u "actuator mirror signed payload chain is corrupt")
  | InterpreterLimit => MirrorEscape
  end.

(** Payloads that the signed record chain accepts, with what it makes of them *)
Definition accepted (ps : list bytes) (p : ActuatorRecordProjection)
    (vs : list VerifiedActuatorPayload) : Prop :=
  payloads_ok MIRROR_FRAME_PAYLOAD ps /\ append_all new_projection ps = Ok (p, vs).

(** The records and the snapshot of a list of accepted payloads *)
Definition records_of (ps : list bytes) (vs : list VerifiedActuatorPayload)
  : list VerifiedActuatorJournalRecord :=
  zip_with mkVerifiedRecord (outer_of 1 0 zero_hash ps) vs.

Definition snapshot_for (ps : list bytes) (p : ActuatorRecordProjection)
    (vs : list VerifiedActuatorPayload) : ActuatorMirrorSnapshot :=
  mkMirrorSnapshot (Z.of_nat (length ps)) (blen (journal_of zero_hash ps))
    (hex_encode (chain_head zero_hash ps)) (records_of ps vs) (intents p) (p_actions p).

Lemma append_all_length p ps q vs : append_all p ps = Ok (q, vs) -> length vs = length ps.
Proof.
  revert p vs. induction ps as [|x ps IH]; intros p vs H; cbn [ActuatorRecords.append_all] in H.
  - by injection H as <- <-.
  - apply rbind_ok in H as ([p1 v] & _ & H). apply rbind_ok in H as ([p2 ws] & Hr & H).
    injection H as <- <-. cbn. f_equal. by eapply IH.
Qed.

Lemma frame_slice pre p prev rest :
  length prev = 32%nat ->
  take (76 + length p) (drop (length pre) (pre ++ frame_of p prev ++ rest)) = frame_of p prev.
Proof.
  intros H. rewrite drop_app_length, <- (frame_of_length crc32c p prev H). apply take_app_length.
Qed.

(** The loop is the signed record chain over the payloads, with their outer records. *)
Lemma replay_frames_eq p pre prev ps index :
  length prev = 32%nat ->
  replay_frames p (pre ++ journal_of prev ps) index (frames_of prev (length pre) ps)
  = (let* (q, vs) := catch_with replay_exn (append_all p ps) in
     Ok (q, zip_with mkVerifiedRecord (outer_of index (Z.of_nat (length pre)) prev ps) vs)).
Proof.
  revert p pre prev index. induction ps as [|x ps IH]; intros p pre prev index Hp; [done|].
  cbn [Frames.frames_of ActuatorMirror.replay_frames ActuatorRecords.append_all payload size offset
       previous_hash record_hash Frames.journal_of ActuatorProtocol.outer_of].
  change (fun e => match e with ActuatorRecordError => _ | InterpreterLimit => _ end)
    with replay_exn.
  destruct (append _ _ false p x) as [[p1 v]|e]; [|done]. cbn [catch_with rbind].
  rewrite frame_slice by done.
  specialize (IH p1 (pre ++ frame_of x prev) (hash_of crc32c x prev) (index + 1)).
  rewrite length_app, <- app_assoc, frame_of_length in IH by done.
  rewrite IH by apply hash_of_length.
  destruct (append_all p1 ps) as [[q vs]|e]; [|done]. cbn [catch_with rbind zip_with].
  do 5 f_equal; [unfold FRAME_OVERHEAD, blen; f_equal; lia|].
  unfold blen. rewrite frame_of_length by done. lia.
Qed.
Lemma outer_last index off prev ps :
  match last (outer_of index off prev ps) with
  | Some o => vo_frame_sha256 o | None => hex_encode prev end = hex_encode (chain_head prev ps).
Proof.
  revert index off prev. induction ps as [|x ps IH]; intros index off prev; [done|].
  cbn [ActuatorProtocol.outer_of]. rewrite last_cons.
  specialize (IH (index + 1) (off + blen (frame_of x prev)) (hash_of crc32c x prev)).
  destruct (last (outer_of _ _ _ ps)); exact IH.
Qed.

Lemma zip_outer os vs :
  length os = length vs -> map vr_outer (zip_with mkVerifiedRecord os vs) = os.
Proof.
  revert vs. induction os as [|o os IH]; intros [|v vs] H; try done. injection H as H. cbn.
  by rewrite IH.
Qed.

Lemma records_of_outer ps vs :
  length vs = length ps -> map vr_outer (records_of ps vs) = outer_of 1 0 zero_hash ps.
Proof. intros H. apply zip_outer. by rewrite outer_of_length. Qed.

Lemma records_of_length ps vs : length vs = length ps -> length (records_of ps vs) = length ps.
Proof. intros H. by rewrite <- (length_map vr_outer), records_of_outer, outer_of_length. Qed.

Lemma records_of_head ps vs :
  length vs = length ps ->
  match last (records_of ps vs) with
  | Some r => vo_frame_sha256 (vr_outer r) | None => ZERO_SHA256 end
  = hex_encode (chain_head zero_hash ps).
Proof.
  intros H. rewrite <- (outer_last 1 0 zero_hash ps), <- (records_of_outer ps vs H).
  change (map vr_outer (records_of ps vs)) with (vr_outer <$> records_of ps vs).
  rewrite fmap_last. by destruct (last (records_of ps vs)).
Qed.

Lemma replay_whole ps p vs :
  append_all new_projection ps = Ok (p, vs) ->
  replay_frames new_projection (journal_of zero_hash ps) 1 (frames_of zero_hash 0 ps)
  = Ok (p, records_of ps vs).
Proof.
  intros H. pose proof (replay_frames_eq new_projection [] zero_hash ps 1 eq_refl) as E.
  cbn [app length] in E. rewrite E, H. done.
Qed.

(** The snapshot that [_snapshot_from_local] builds from accepted payloads *)
Lemma snapshot_for_eq ps p vs :
  append_all new_projection ps = Ok (p, vs) ->
  mkMirrorSnapshot (Z.of_nat (length (records_of ps vs))) (Z.of_nat (length (journal_of zero_hash ps)))
    (match last (records_of ps vs) with
     | Some r => vo_frame_sha256 (vr_outer r) | None => ZERO_SHA256 end)
    (records_of ps vs) (intents p) (p_actions p)
  = snapshot_for ps p vs.
Proof.
  intros H%append_all_length. unfold snapshot_for. rewrite records_of_head, records_of_length by done.
  done.
Qed.

(** A file within the bounds of the mirror *)
Definition fits (ps : list bytes) : Prop :=
  Z.of_nat (length ps) <= MAX_MIRROR_RECORDS /\ blen (journal_of zero_hash ps) <= MAX_MIRROR_BYTES.

Lemma max_mirror_payload : 0 < MIRROR_FRAME_PAYLOAD <= 0xFFFFFFFF.
Proof. unfold MIRROR_FRAME_PAYLOAD. lia. Qed.

(** Whatever replay accepts is a journal of accepted payloads, and the file is left
    holding exactly it. *)
Lemma local_sound file before after repair file' s p :
  snapshot_from_local file before after repair = (file', Ok (s, p)) ->
  exists ps vs, accepted ps p vs /\ s = snapshot_for ps p vs /\ file' = journal_of zero_hash ps
    /\ fits ps /\ exists tail, file = journal_of zero_hash ps ++ tail.
Proof.
  unfold ActuatorMirror.snapshot_from_local. intros H.
  destruct (full_read file before after) as [raw|e] eqn:Er; [|done].
  apply rbind_ok in Er as (u1 & Hb%guard_ok & Er). apply rbind_ok in Er as (u2 & _ & Er).
  injection Er as <-. apply Z.leb_le in Hb.
  destruct (decode_frames crc32c file MIRROR_FRAME_PAYLOAD) as [d|e] eqn:Ed; [|done].
  apply decode_frames_sound_aux in Ed as (He & Hf & Hv & Hnt).
  apply encode_chain_ok in He as [Hok Hj]; [|exact max_mirror_payload|done].
  set (ps := map payload (records d)) in *.
  assert (Hraw : take (verified_bytes d) file = file \/ torn_tail d = true).
  { destruct (torn_tail d); [by right|left]. by rewrite Hnt, take_ge. }
  destruct (MAX_MIRROR_RECORDS <? Z.of_nat (length (records d))) eqn:Em; [done|].
  apply Z.ltb_ge in Em.
  match type of H with context [if torn_tail d then ?a else ?b] =>
    set (fr := if torn_tail d then a else b) in H end.
  destruct fr as [f2 ok] eqn:Efr. injection H as -> H. apply rbind_ok in H as (u3 & Hrep%guard_ok & H).
  assert (Ef : file' = journal_of zero_hash ps
    /\ (if torn_tail d then take (verified_bytes d) file else file) = journal_of zero_hash ps).
  { unfold fr in Efr. destruct (torn_tail d).
    - destruct repair; injection Efr as <- <-; try done; by rewrite Hj.
    - destruct Hraw as [Hraw|]; [|done]. injection Efr as <- <-. by rewrite <- Hj, Hraw. }
  destruct Ef as [-> Ef]. rewrite Ef, Hf in H. fold ps in H.
  pose proof (replay_frames_eq new_projection [] zero_hash ps 1 eq_refl) as E. cbn [app length] in E.
  rewrite E in H. clear E. destruct (append_all new_projection ps) as [[q vs]|e] eqn:Ea; [|done].
  cbn [catch_with rbind] in H. injection H as <- <-. exists ps, vs.
  assert (Hvb : verified_bytes d = length (journal_of zero_hash ps)).
  { rewrite <- Hj, length_take, Nat.min_l; done. }
  split_and!; try done.
  - rewrite Hvb. by apply snapshot_for_eq.
  - split; [unfold ps; by rewrite length_map|]. rewrite <- Hj. unfold blen in *.
    rewrite length_take. lia.
  - exists (drop (verified_bytes d) file). by rewrite <- Hj, take_drop.
Qed.

Lemma accepted_take all p vs j :
  accepted all p vs -> exists q, accepted (take j all) q (take j vs).
Proof.
  intros [Hok Ha]. rewrite <- (take_drop j all), append_all_app in Ha.
  apply rbind_ok in Ha as ([q ws] & Hq & Ha). apply rbind_ok in Ha as ([r xs] & Hr & Ha).
  injection Ha as <- <-. exists q. split; [by apply Forall_take|]. rewrite Hq. do 2 f_equal.
  apply append_all_length in Hq as Hl. apply append_all_length in Hr as Hl2.
  rewrite length_take in Hl. rewrite length_drop in Hl2.
  destruct (decide (j <= length all)%nat).
  - rewrite take_app_le by lia. by rewrite take_ge by lia.
  - assert (length xs = 0%nat) by lia. destruct xs; [|done]. rewrite app_nil_r. by rewrite take_ge by lia.
Qed.

Lemma journal_take_length ps j :
  (length (journal_of zero_hash (take j ps)) <= length (journal_of zero_hash ps))%nat.
Proof. rewrite <- (take_drop j ps) at 2. rewrite journal_of_app, length_app. lia. Qed.

(** Replaying any first part of a mirrored file keeps its whole frames. *)
Lemma local_prefix all p vs k before after :
  accepted all p vs -> fits all -> (k <= length (journal_of zero_hash all))%nat ->
  unchanged before after = true ->
  exists j q, (j <= length all)%nat /\ accepted (take j all) q (take j vs)
    /\ (length (journal_of zero_hash (take j all)) <= k)%nat
    /\ ((j < length all)%nat -> (k < length (journal_of zero_hash (take (S j) all)))%nat)
    /\ snapshot_from_local (take k (journal_of zero_hash all)) before after Repaired
       = (journal_of zero_hash (take j all), Ok (snapshot_for (take j all) q (take j vs), q)).
Proof.
  intros Hacc [Hn Hb] Hk Hu.
  destruct (decode_frames_prefix crc32c crc_range MIRROR_FRAME_PAYLOAD all k)
    as (j & Hj & Hlo & Hhi & Hd); [exact max_mirror_payload|apply Hacc|exact Hk|].
  destruct (accepted_take _ _ _ j Hacc) as [q [Hok Ha]]. exists j, q. split_and!; try done.
  unfold ActuatorMirror.snapshot_from_local, full_read.
  assert (E : (blen (take k (journal_of zero_hash all)) <=? MAX_MIRROR_BYTES) = true).
  { apply Z.leb_le. unfold blen in *. rewrite length_take. lia. }
  rewrite E, Hu. cbn [require guard rbind]. rewrite Hd. cbn [records torn_tail verified_bytes].
  pose proof (frames_of_length crc32c zero_hash 0 (take j all)) as Hl.
  rewrite (proj2 (Z.ltb_ge _ _)) by (rewrite Hl, length_take; lia).
  assert (Ht : take (length (journal_of zero_hash (take j all))) (take k (journal_of zero_hash all))
    = journal_of zero_hash (take j all)).
  { rewrite take_take, Nat.min_l by lia. rewrite <- (take_drop j all) at 2.
    by rewrite journal_of_app, take_app_length. }
  rewrite Ht. case_bool_decide as Hne.
  - cbn [require guard rbind]. rewrite (replay_whole _ _ _ Ha). cbn [rbind].
    by rewrite snapshot_for_eq.
  - assert (E2 : take k (journal_of zero_hash all) = journal_of zero_hash (take j all)).
    { rewrite <- Ht. rewrite take_take. f_equal. lia. }
    rewrite E2. cbn [require guard rbind]. rewrite (replay_whole _ _ _ Ha). cbn [rbind].
    by rewrite snapshot_for_eq.
Qed.

(** ** What one synchronisation does *)

Lemma append_all_strip p ps :
  append_all (strip p) ps = strip_res (append_all p ps).
Proof.
  revert p. induction ps as [|x ps IH]; intros p; [done|]. cbn [ActuatorRecords.append_all].
  rewrite strip_append. destruct (append _ _ false p x) as [[q v]|e]; [|done]. cbn [strip_res rbind].
  rewrite IH. by destruct (append_all q ps) as [[r vs]|e].
Qed.

Lemma accepted_strip ps p vs : accepted ps p vs -> strip p = p.
Proof.
  intros [_ H]. pose proof (append_all_strip new_projection ps) as E.
  change (strip new_projection) with new_projection in E. rewrite H in E. cbn [strip_res] in E.
  congruence.
Qed.

Lemma accepted_app ps p vs p1 qs q ws :
  accepted ps p vs -> strip p1 = p -> payloads_ok MIRROR_FRAME_PAYLOAD qs ->
  append_all p1 qs = Ok (q, ws) -> accepted (ps ++ qs) (strip q) (vs ++ ws).
Proof.
  intros [Hok Ha] Hs Hq Hr. split; [by apply Forall_app|]. rewrite append_all_app, Ha. cbn [rbind].
  rewrite <- Hs, append_all_strip, Hr. done.
Qed.

Lemma zip_records rs : zip_with mkVerifiedRecord (map vr_outer rs) (map vr_inner rs) = rs.
Proof. induction rs as [|[o v] rs IH]; [done|]. cbn. by rewrite IH. Qed.

Lemma records_of_app ps vs qs rs :
  length vs = length ps ->
  map vr_outer rs = outer_of (Z.of_nat (length ps) + 1) (blen (journal_of zero_hash ps))
                      (chain_head zero_hash ps) qs ->
  records_of (ps ++ qs) (vs ++ map vr_inner rs) = records_of ps vs ++ rs.
Proof.
  intros Hl Ho. unfold records_of. rewrite outer_of_app, zip_with_app by by rewrite outer_of_length.
  f_equal. rewrite <- (zip_records rs) at 2. rewrite Ho. f_equal. f_equal; lia.
Qed.

(** A mirror whose snapshot and projection are those of accepted payloads, and whose file
    is the journal of them and of accepted payloads after them, up to some byte: the
    file stops there only when the mirror is latched *)
Record mirror_state (m : ActuatorMirror) (ps : list bytes) (vs : list VerifiedActuatorPayload)
    (ext : list bytes) : Prop := mkMirrorState {
  mi_accepted : accepted ps (m_projection m) vs;
  mi_snapshot : m_snapshot m = snapshot_for ps (m_projection m) vs;
  mi_extension : exists q ws, accepted (ps ++ ext) q ws;
  mi_fits : fits (ps ++ ext);
  mi_file : exists n, m_file m = journal_of zero_hash ps
                                 ++ take n (journal_of (chain_head zero_hash ps) ext);
  mi_whole : m_read_only m = false -> ext = [] }.

(** How a synchronisation ends *)
Inductive sync_effect (m : ActuatorMirror) (ps : list bytes) (vs : list VerifiedActuatorPayload)
  : ActuatorMirror -> result mirror_exn ActuatorMirrorSnapshot -> Prop :=
| sync_refused e :
    mirror_read_only m = true \/ e = MirrorRetryable \/ e = MirrorCancelled ->
    sync_effect m ps vs m (Err e)
| sync_latched e message qs q ws n :
    m_read_only m = false -> e <> MirrorRetryable -> e <> MirrorCancelled ->
    accepted (ps ++ qs) q ws -> fits (ps ++ qs) ->
    sync_effect m ps vs
      (mkMirror (m_file m ++ take n (journal_of (chain_head zero_hash ps) qs)) (m_projection m)
         (m_snapshot m) true (Some (default message (m_fatal m))) (m_closed m)) (Err e)
| sync_extended qs q ws :
    m_read_only m = false ->
    accepted (ps ++ qs) q (vs ++ ws) -> fits (ps ++ qs) ->
    sync_effect m ps vs
      (mkMirror (m_file m ++ journal_of (chain_head zero_hash ps) qs) q
         (snapshot_for (ps ++ qs) q (vs ++ ws)) (m_read_only m) (m_fatal m) (m_closed m))
      (Ok (snapshot_for (ps ++ qs) q (vs ++ ws))).

Lemma abandon_eq m p tok p1 p2 fail :
  begin_extension p tok = Ok p1 -> extends p1 p2 ->
  abandon m p2 tok fail = (let '(m, e) := fail (with_projection m p) in (m, Err e)).
Proof. intros Hb Hx. unfold abandon. by rewrite (proj1 (transaction_ends _ _ _ _ _ _ Hb Hx)). Qed.

Lemma sync_latched_same m ps vs ext e message :
  mirror_state m ps vs ext -> m_read_only m = false -> e <> MirrorRetryable -> e <> MirrorCancelled ->
  sync_effect m ps vs (latch_fatal (with_projection m (m_projection m)) message) (Err e).
Proof.
  intros Hm Hro He1 He2. pose proof (mi_whole _ _ _ _ Hm Hro) as ->.
  destruct (mi_extension _ _ _ _ Hm) as (q & ws & Ha).
  pose proof (sync_latched m ps vs e (u message) [] q ws 0 Hro He1 He2 Ha (mi_fits _ _ _ _ Hm)) as H.
  cbn [take] in H. by rewrite app_nil_r in H.
Qed.

(** The mirror's own cursor *)
Lemma local_cursor m ps vs ext :
  mirror_state m ps vs ext ->
  mkSnapshot (ms_count (m_snapshot m)) (ms_bytes (m_snapshot m)) (ms_head (m_snapshot m))
  = snapshot_of ps.
Proof. intros Hm. by rewrite (mi_snapshot _ _ _ _ Hm). Qed.

Lemma append_remote_effect m ps vs p1 p2 qs remote env m' r :
  mirror_state m ps vs [] -> m_read_only m = false ->
  begin_extension (m_projection m) (se_token env) = Ok p1 -> extends p1 p2 ->
  payloads_ok MIRROR_FRAME_PAYLOAD qs ->
  append_all p1 qs = Ok (p2, map vr_inner (ex_records remote)) ->
  map vr_outer (ex_records remote)
    = outer_of (Z.of_nat (length ps) + 1) (blen (journal_of zero_hash ps)) (chain_head zero_hash ps) qs ->
  ex_snapshot remote = snapshot_of (ps ++ qs) -> fits (ps ++ qs) ->
  (qs <> [] -> ex_intents remote = intents p2 /\ ex_actions remote = p_actions p2) ->
  append_remote m p2 env remote = (m', r) -> sync_effect m ps vs m' r.
Proof.
  intros Hm Hro Hb Hx Hok Ha Ho Hs Hf Hi. pose proof (mi_accepted _ _ _ _ Hm) as Hacc.
  pose proof (accepted_app _ _ _ _ _ _ _ Hacc (proj2 (begin_strip _ _ _ Hb)) Hok Ha) as Hacc2.
  assert (Hlen : length (ex_records remote) = length qs).
  { by rewrite <- (length_map vr_outer), Ho, outer_of_length. }
  assert (Hdata : concat (map (fun x => vo_frame (vr_outer x)) (ex_records remote))
    = journal_of (chain_head zero_hash ps) qs).
  { rewrite <- (map_map vr_outer vo_frame), Ho. apply outer_of_frames. }
  assert (Hlv : length vs = length ps) by (destruct Hacc; by eapply append_all_length).
  unfold append_remote. cbv zeta. rewrite Hdata, Hlen. rewrite !(abandon_eq _ _ _ _ _ _ Hb Hx).
  rewrite (proj2 (transaction_ends _ _ _ _ _ _ Hb Hx)). cbn [latched].
  destruct (negb (sn_count _ =? _)) eqn:Ec.
  { intros [= <- <-]. by eapply sync_latched_same. }
  case_bool_decide as Hz.
  { intros [= <- <-]. destruct qs; [|done]. cbn [ActuatorRecords.append_all] in Ha. injection Ha as <- _.
    rewrite (proj2 (begin_strip _ _ _ Hb)), (mi_snapshot _ _ _ _ Hm).
    assert (Hacc3 : accepted (ps ++ []) (m_projection m) (vs ++ [])) by by rewrite !app_nil_r.
    pose proof (sync_extended m ps vs [] _ _ Hro Hacc3 Hf) as H.
    cbn [Frames.journal_of] in H. by rewrite !app_nil_r in H. }
  destruct (negb (binding_is_current _ m (se_before env) _)) eqn:Eb.
  { intros [= <- <-]. by eapply sync_latched_same. }
  destruct (se_write env) as [|n].
  2:{ rewrite (abandon_eq _ _ _ _ _ _ Hb Hx). cbn [latched]. intros [= <- <-].
      by refine (sync_latched m ps vs _ (u _) qs _ _ n Hro _ _ Hacc2 Hf). }
  destruct (negb (binding_is_current _ _ (se_after env) _)) eqn:Ea2; intros [= <- <-].
  - set (message := u "actuator mirror durable size or binding is invalid").
    assert (H : sync_effect m ps vs _ (Err (ActuatorMirrorFatal message)))
      by by refine (sync_latched m ps vs _ message qs _ _
           (length (journal_of (chain_head zero_hash ps) qs)) Hro _ _ Hacc2 Hf).
    by rewrite take_ge in H.
  - assert (Esnap : mirror_snapshot (m_snapshot m) remote
      = snapshot_for (ps ++ qs) (strip p2) (vs ++ map vr_inner (ex_records remote))).
    { unfold mirror_snapshot, snapshot_for. rewrite Hs, (mi_snapshot _ _ _ _ Hm).
      cbn [snapshot_of sn_count sn_bytes sn_head snapshot_for ms_records].
      destruct (Hi ltac:(by intros ->)) as [-> ->]. by rewrite (records_of_app ps vs qs). }
    rewrite Esnap. exact (sync_extended m ps vs qs _ _ Hro Hacc2 Hf).
Qed.

Lemma fetch_failed_effect m ps vs ext e m' e' :
  mirror_state m ps vs ext -> m_read_only m = false ->
  fetch_failed e (with_projection m (m_projection m)) = (m', e') -> sync_effect m ps vs m' (Err e').
Proof.
  intros Hm Hro H.
  assert (Em : with_projection m (m_projection m) = m) by by destruct m.
  destruct e; cbn [fetch_failed latched prefix_conflict] in H; injection H as <- <-;
    try (by eapply sync_latched_same); rewrite Em; apply sync_refused; auto.
Qed.

(** Every synchronisation ends, in one of the three ways. *)
Lemma sync_once_effect m ps vs ext limit env :
  mirror_state m ps vs ext ->
  exists m' r, sync_once m limit env = (m', Some r) /\ sync_effect m ps vs m' r.
Proof.
  intros Hm. unfold ActuatorMirror.sync_once.
  destruct (m_closed m) eqn:Hc.
  { eexists m, _. split; [done|]. apply sync_refused. left. unfold mirror_read_only. rewrite Hc. apply orb_true_r. }
  destruct (m_read_only m) eqn:Hro.
  { eexists m, _. split; [done|]. apply sync_refused. left. unfold mirror_read_only. by rewrite Hro. }
  pose proof (mi_whole _ _ _ _ Hm Hro) as ->.
  destruct (begin_extension (m_projection m) (se_token env)) as [p1|] eqn:Hb.
  2:{ pose proof (accepted_strip _ _ _ (mi_accepted _ _ _ _ Hm)) as Hs. unfold begin_extension in Hb.
      destruct (p_transaction (m_projection m)) eqn:Et; [|done].
      apply (f_equal p_transaction) in Hs. cbn [strip p_transaction] in Hs. congruence. }
  cbv zeta. rewrite (local_cursor _ _ _ _ Hm).
  destruct (fetch_verified_extension _ _ _ _ _ _ p1 (snapshot_of ps) _ _ limit) as [p2 res] eqn:Ef.
  apply fetch_verified_ok in Ef as (Hx & r & -> & Hr).
  destruct r as [remote|e].
  - destruct (Hr remote eq_refl) as (qs & Hok & Ha & Ho & Hs & [Hb1 Hb2] & Hi).
    destruct (append_remote m p2 env remote) as [m' r] eqn:Ea. exists m', r. split; [done|].
    eapply append_remote_effect; eauto. rewrite Hs in Hb1, Hb2. by split.
  - rewrite (abandon_eq _ _ _ _ _ _ Hb Hx).
    destruct (fetch_failed e _) as [m' e'] eqn:Ee. exists m', (Err e'). split; [done|].
    by eapply fetch_failed_effect.
Qed.

(** ** Every mirror the program can hold *)

(** Opened on any file, synchronised any number of times, closed *)
Inductive mirror_run : ActuatorMirror -> Prop :=
| run_open file env file' m : open_mirror file env = (file', Ok m) -> mirror_run m
| run_sync m limit env m' r : mirror_run m -> sync_once m limit env = (m', r) -> mirror_run m'
| run_close m : mirror_run m -> mirror_run (close_mirror m).

Lemma open_sound file env file' m :
  open_mirror file env = (file', Ok m) ->
  exists ps vs, mirror_state m ps vs [] /\ file' = Some (m_file m) /\ m_read_only m = false
    /\ exists tail, default [] file = m_file m ++ tail.
Proof.
  unfold ActuatorMirror.open_mirror. intros H.
  destruct (guard (blen public_key =? 32) _ ;;* _) as [u1|e]; [|done].
  destruct (oe_file env) as [[opened named]|]; [|by destruct file].
  destruct (require (file_is_safe _ _ _ && _) _ ;;* _) as [u2|e]; [|done].
  destruct (snapshot_from_local _ _ _ _) as [content r] eqn:El. injection H as <- H.
  apply rbind_ok in H as ([s p] & -> & H). injection H as <-.
  apply local_sound in El as (ps & vs & Hacc & -> & -> & Hf & Htail). exists ps, vs.
  split_and!; try done. split; cbn; rewrite ?app_nil_r; try done; [by eexists _, _|].
  exists 0%nat. by rewrite app_nil_r.
Qed.

Lemma whole_file m ps vs :
  mirror_state m ps vs [] -> m_file m = journal_of zero_hash ps.
Proof.
  intros Hm. destruct (mi_file _ _ _ _ Hm) as [n ->]. cbn [Frames.journal_of].
  by rewrite take_nil, app_nil_r.
Qed.

Lemma sync_effect_state m ps vs ext m' r :
  mirror_state m ps vs ext -> sync_effect m ps vs m' r ->
  exists ps' vs' ext', mirror_state m' ps' vs' ext'.
Proof.
  intros Hm H. inversion H as [e He|e message qs q ws n Hro He1 He2 Hacc Hf|qs q ws Hro Hacc Hf]; subst.
  - eauto.
  - exists ps, vs, qs. pose proof (mi_whole _ _ _ _ Hm Hro) as ->.
    split; cbn; try done; [apply Hm|apply Hm|by eexists _, _|]. exists n. by rewrite (whole_file m ps vs Hm).
  - exists (ps ++ qs), (vs ++ ws), []. pose proof (mi_whole _ _ _ _ Hm Hro) as ->.
    split; cbn; rewrite ?app_nil_r; try done; [by eexists _, _|]. exists 0%nat.
    by rewrite (whole_file m ps vs Hm), journal_of_app, app_nil_r.
Qed.

Lemma run_state m : mirror_run m -> exists ps vs ext, mirror_state m ps vs ext.
Proof.
  induction 1 as [file env file' m H|m limit env m' r _ (ps & vs & ext & Hm) H|m _ (ps & vs & ext & Hm)].
  - apply open_sound in H as (ps & vs & Hm & _). eauto.
  - destruct (sync_once_effect m ps vs ext limit env Hm) as (m1 & r1 & E & He).
    rewrite E in H. injection H as <- _. by eapply sync_effect_state.
  - exists ps, vs, ext. destruct Hm. by split.
Qed.

(** What the mirror shows is exactly what its file proves.  Opened on any file, after
    any synchronisations against any actuator, with any failures, short writes and
    cancellations, the snapshot and the projection are those of one list of payloads that
    the signed record chain accepts from its start; the file begins with the AGF1 journal
    of these payloads, and is exactly it as long as the mirror is not latched. *)
Theorem mirror_faithful m :
  mirror_run m ->
  exists ps vs tail, append_all new_projection ps = Ok (m_projection m, vs)
    /\ m_snapshot m = snapshot_for ps (m_projection m) vs
    /\ m_file m = journal_of zero_hash ps ++ tail /\ (m_read_only m = false -> tail = [])
    /\ Z.of_nat (length ps) <= MAX_MIRROR_RECORDS.
Proof.
  intros (ps & vs & ext & Hm)%run_state. destruct (mi_file _ _ _ _ Hm) as [n Hn].
  exists ps, vs, (take n (journal_of (chain_head zero_hash ps) ext)). split_and!.
  - apply Hm.
  - apply Hm.
  - exact Hn.
  - intros Hro. rewrite (mi_whole _ _ _ _ Hm Hro). cbn [Frames.journal_of]. apply take_nil.
  - pose proof (proj1 (mi_fits _ _ _ _ Hm)) as H. rewrite length_app in H. lia.
Qed.

(** A system that lets the owner open the file *)
Definition opens (env : open_env) : Prop :=
  (exists o n, oe_parent env = Some (o, n) /\ parent_is_safe (oe_euid env) o n = true)
  /\ (exists o n, oe_file env = Some (o, n) /\ file_is_safe (oe_euid env) o n = true)
  /\ oe_lock env = true /\ unchanged (oe_read env).1 (oe_read env).2 = true
  /\ oe_repair env = Repaired.

Lemma open_eq file env :
  blen public_key = 32 -> opens env -> blen file <= MAX_MIRROR_BYTES ->
  open_mirror (Some file) env
  = (let '(content, replayed) := snapshot_from_local file (oe_read env).1 (oe_read env).2 Repaired in
     (Some content, let* (snapshot, projection) := replayed in
                    Ok (mkMirror content projection snapshot false None false))).
Proof.
  intros Hk ((o & n & Hp & Hsafe) & (o2 & n2 & Hf & Hsafe2) & Hl & _ & Hr) Hb.
  unfold ActuatorMirror.open_mirror. rewrite Hk, Hp, Hf, Hl, Hr. cbn [Z.eqb Pos.eqb guard rbind of_option].
  rewrite Hsafe. cbn [default require guard rbind]. rewrite Hsafe2, (proj2 (Z.leb_le _ _)) by done. done.
Qed.

Lemma accepted_split ps p vs ext q ws :
  accepted ps p vs -> accepted (ps ++ ext) q ws -> exists ws2, ws = vs ++ ws2.
Proof.
  intros [_ Ha] [_ Hb]. rewrite append_all_app, Ha in Hb. cbn [rbind] in Hb.
  apply rbind_ok in Hb as ([r xs] & _ & Hb). injection Hb as <- <-. by eexists.
Qed.

(** C21: Nothing the mirror has shown is lost.  Reopening the file of any mirror the
    program can hold, after a clean end or after a crash at any byte of an append,
    succeeds, repairs a torn tail, and gives a mirror whose records begin with all the
    records shown before; if the mirror was not latched, it is the same snapshot and the
    same projection. *)
Theorem mirror_survives_restart m env :
  mirror_run m -> blen public_key = 32 -> opens env ->
  exists m', open_mirror (Some (m_file m)) env = (Some (m_file m'), Ok m')
    /\ ms_records (m_snapshot m) `prefix_of` ms_records (m_snapshot m')
    /\ (m_read_only m = false ->
          m_snapshot m' = m_snapshot m /\ m_projection m' = m_projection m /\ m_file m' = m_file m).
Proof.
  intros (ps & vs & ext & Hm)%run_state Hk He. destruct (mi_file _ _ _ _ Hm) as [n Hn].
  destruct (mi_extension _ _ _ _ Hm) as (q & ws & Hacc). pose proof (mi_fits _ _ _ _ Hm) as Hfits.
  set (k := (length (journal_of zero_hash ps)
             + Nat.min n (length (journal_of (chain_head zero_hash ps) ext)))%nat).
  assert (Efile : m_file m = take k (journal_of zero_hash (ps ++ ext))).
  { rewrite Hn, journal_of_app. unfold k. rewrite take_app_add.
    rewrite <- take_take. by rewrite (take_ge (journal_of (chain_head zero_hash ps) ext) (length _)). }
  assert (Hk2 : (k <= length (journal_of zero_hash (ps ++ ext)))%nat).
  { rewrite journal_of_app, length_app. unfold k. lia. }
  destruct (local_prefix (ps ++ ext) q ws k (oe_read env).1 (oe_read env).2)
    as (j & q1 & Hj & Hacc1 & Hlo & Hhi & Hloc); [done..|apply He|].
  assert (Hps : (length ps <= j)%nat).
  { destruct (decide (length ps <= j)%nat) as [|Hlt]; [done|].
    specialize (Hhi ltac:(rewrite length_app; lia)). rewrite take_app_le in Hhi by lia.
    pose proof (journal_take_length ps (S j)). unfold k in Hhi. lia. }
  rewrite open_eq, Efile, Hloc; [|done|done|]; last first.
  { rewrite Efile. destruct Hfits as [_ Hb]. unfold blen in *. rewrite length_take. lia. }
  exists (mkMirror (journal_of zero_hash (take j (ps ++ ext))) q1
            (snapshot_for (take j (ps ++ ext)) q1 (take j ws)) false None false).
  split; [done|]. cbn [m_file m_snapshot m_projection].
  destruct (accepted_split _ _ _ _ _ _ (mi_accepted _ _ _ _ Hm) Hacc) as [ws2 ->].
  assert (Hvs : length vs = length ps) by (destruct (mi_accepted _ _ _ _ Hm); by eapply append_all_length).
  rewrite (mi_snapshot _ _ _ _ Hm). split.
  - rewrite (take_app_ge ps), (take_app_ge vs) by lia. cbn [snapshot_for ms_records].
    unfold records_of. rewrite outer_of_app, zip_with_app by (rewrite outer_of_length; lia).
    by eexists.
  - intros Hro. pose proof (mi_whole _ _ _ _ Hm Hro) as ->. rewrite app_nil_r in *.
    assert (Hl2 : length ws2 = 0%nat).
    { destruct Hacc as [_ Hacc%append_all_length]. rewrite length_app in Hacc. lia. }
    destruct ws2; [|done]. rewrite app_nil_r in *. rewrite !take_ge in * by lia.
    assert (q1 = m_projection m) as ->.
    { pose proof (proj2 Hacc1) as E1. rewrite (proj2 (mi_accepted _ _ _ _ Hm)) in E1. congruence. }
    done.
Qed.

(** Opening a whole journal *)
Lemma open_whole ps p vs env :
  accepted ps p vs -> fits ps -> blen public_key = 32 -> opens env ->
  open_mirror (Some (journal_of zero_hash ps)) env
  = (Some (journal_of zero_hash ps),
     Ok (mkMirror (journal_of zero_hash ps) p (snapshot_for ps p vs) false None false)).
Proof.
  intros Ha Hf Hk He. rewrite open_eq by (done || apply Hf).
  destruct (local_prefix ps p vs (length (journal_of zero_hash ps)) (oe_read env).1 (oe_read env).2 Ha Hf
    (le_n _) ltac:(apply He)) as (j & q & Hj & Hq & Hlo & Hhi & Hl).
  assert (Ej : take j ps = ps).
  { apply take_ge. destruct (decide (j < length ps)%nat) as [Hlt|]; [|lia]. specialize (Hhi Hlt).
    pose proof (journal_take_length ps (S j)). lia. }
  rewrite take_ge in Hl by lia. rewrite Hl. pose proof (append_all_length _ _ _ _ (proj2 Ha)) as Hlv.
  assert (Ev : take j vs = vs).
  { apply take_ge. apply (f_equal length) in Ej. rewrite length_take in Ej. lia. }
  rewrite Ej, Ev in *. assert (q = p) as ->; [|done].
  pose proof (proj2 Hq) as E. rewrite (proj2 Ha) in E. congruence.
Qed.

(** C22: A synchronisation is a transaction, and it always ends.  If it succeeds, the
    snapshot it returns has the old records followed by new ones, and exactly the frames
    of the new ones were appended to the file.  If it fails, the snapshot and the
    projection (with every dictionary changed while pages were verified) are as before,
    the file has at most gained bytes, and the mirror is unchanged or latched read-only;
    a transport failure or a cancellation leaves it unchanged. *)
Theorem sync_transactional m limit env :
  mirror_run m ->
  exists m' r, sync_once m limit env = (m', Some r)
    /\ match r with
       | Ok s =>
           m_snapshot m' = s /\ m_read_only m' = false
           /\ exists new, ms_records s = ms_records (m_snapshot m) ++ new
              /\ m_file m' = m_file m ++ concat (map (fun x => vo_frame (vr_outer x)) new)
       | Err e =>
           m_snapshot m' = m_snapshot m /\ m_projection m' = m_projection m
           /\ m_file m `prefix_of` m_file m' /\ (m' = m \/ m_read_only m' = true)
           /\ (e = MirrorRetryable \/ e = MirrorCancelled -> m' = m)
       end.
Proof.
  intros (ps & vs & ext & Hm)%run_state.
  destruct (sync_once_effect m ps vs ext limit env Hm) as (m' & r & E & He).
  exists m', r. split; [exact E|].
  inversion He as [e He'|e message qs q ws n Hro He1 He2 Hacc Hf|qs q ws Hro Hacc Hf]; subst; cbn.
  - split_and!; auto.
  - split_and!; try done; [by eexists|by right|by intros [?|?]].
  - split_and!; try done. rewrite (mi_snapshot _ _ _ _ Hm). cbn [snapshot_for ms_records].
    destruct (mi_accepted _ _ _ _ Hm) as [_ Hl%append_all_length].
    destruct Hacc as [_ Hl2%append_all_length]. rewrite !length_app in Hl2.
    unfold records_of. rewrite outer_of_app, zip_with_app by (rewrite outer_of_length; lia).
    eexists. split; [reflexivity|]. rewrite <- (outer_of_frames crc32c (1 + Z.of_nat (length ps))
      (0 + blen (journal_of zero_hash ps))). f_equal. f_equal.
    rewrite <- (map_map vr_outer vo_frame). f_equal. symmetry. apply zip_outer.
    rewrite outer_of_length. lia.
Qed.

(** C1: What the mirror reports as applied was approved.  Across networks, files, crashes
    and restarts, every record of an application, verification, expiry, abort or uncertain
    result in the snapshot of a mirror comes after an APPROVED record of the same plan, in
    which a local administrator approved it on the boot it was prepared on and inside the
    approval window by both clocks. *)
Theorem mirrored_effect_was_approved m i r :
  mirror_run m -> ms_actions (m_snapshot m) !! i = Some r -> ar_state r ∈ kernel_states ->
  approved_before (m_projection m) i r.
Proof.
  intros (ps & vs & ext & Hm)%run_state. rewrite (mi_snapshot _ _ _ _ Hm). cbn [snapshot_for ms_actions].
  destruct (mi_accepted _ _ _ _ Hm) as [_ Ha%append_all_extends].
  exact (approvals_extends _ _ _ Ha i r).
Qed.
End MirrorFacts.

(** ** A mirrored plan that was applied *)

Definition owner_dir : meta := mkMeta false true 1000 2 448 1 2 3 4.
Definition owner_file : meta := mkMeta true false 1000 1 384 1 5 6 7.
Definition sample_open : open_env :=
  mkOpenEnv 1000 (Some (owner_dir, owner_dir)) (Some (owner_file, owner_file)) true true
    (owner_file, owner_file) Repaired.
Definition unreachable_actuator : sync_env :=
  mkSyncEnv 1000 1 false (fun _ _ => TransportFailed) None Written None.

Lemma sample_opens : opens sample_open.
Proof. split_and!; try done; by eexists _, _. Qed.

Lemma sample_chain_fits : fits crc32c_bitwise sample_chain /\ payloads_ok MIRROR_FRAME_PAYLOAD sample_chain.
Proof.
  assert (H : (Z.of_nat (length sample_chain) <=? MAX_MIRROR_RECORDS)
    && (blen (Frames.journal_of crc32c_bitwise zero_hash sample_chain) <=? MAX_MIRROR_BYTES)
    && forallb (fun p => Z.of_nat (length p) <=? MIRROR_FRAME_PAYLOAD) sample_chain = true)
    by (vm_cast_no_check (eq_refl true)).
  apply andb_true_iff in H as [[H1%Z.leb_le H2%Z.leb_le]%andb_true_iff H3]. split; [by split|].
  rewrite forallb_forall in H3. apply List.Forall_forall. intros p Hp. by apply Z.leb_le, H3.
Qed.

Abbreviation sample_run :=
  (mirror_run sample_get_list crc32c_bitwise any_signature journal_key).

Lemma sample_mirror : exists m, sample_run m /\ m_read_only m = false
  /\ map ar_state (ms_actions (m_snapshot m)) = [PREPARED; APPROVED; APPLIED].
Proof.
  pose proof sample_chain_accepted as H. unfold chain_accepted in H.
  destruct (ActuatorRecords.append_all any_signature journal_key new_projection sample_chain)
    as [[p vs]|e] eqn:E; [|discriminate H].
  apply andb_true_iff in H as [[H1%bool_decide_eq_true _]%andb_true_iff _].
  destruct sample_chain_fits as [Hf Hok]. eexists. split; [|split].
  - eapply run_open. apply (open_whole crc32c_bitwise crc32c_bitwise_range any_signature journal_key
      sample_chain p vs sample_open); [by split|exact Hf|reflexivity|exact sample_opens].
  - reflexivity.
  - exact H1.
Qed.

Lemma mirror_faithful_witness : exists m ps, sample_run m
  /\ m_file m = Frames.journal_of crc32c_bitwise zero_hash ps.
Proof.
  destruct sample_mirror as (m & Hm & Hro & _).
  destruct (mirror_faithful sample_get_list crc32c_bitwise any_signature journal_key m Hm)
    as (ps & vs & tail & _ & _ & Hf & Ht & _).
  exists m, ps. split; [exact Hm|]. rewrite Hf, (Ht Hro). apply app_nil_r.
Defined.

Lemma mirror_survives_restart_witness : exists m m', sample_run m
  /\ open_mirror crc32c_bitwise any_signature journal_key (Some (m_file m)) sample_open
     = (Some (m_file m'), Ok m')
  /\ m_snapshot m' = m_snapshot m.
Proof.
  destruct sample_mirror as (m & Hm & Hro & _).
  destruct (mirror_survives_restart sample_get_list crc32c_bitwise crc32c_bitwise_range any_signature
    journal_key m sample_open Hm eq_refl sample_opens) as (m' & Ho & _ & Hs).
  exists m, m'. split; [exact Hm|]. split; [exact Ho|]. exact (proj1 (Hs Hro)).
Defined.

Lemma sync_transactional_witness : exists m m' r, sample_run m
  /\ sync_once sample_get_list crc32c_bitwise any_signature journal_key m 100 unreachable_actuator
     = (m', Some r).
Proof.
  destruct sample_mirror as (m & Hm & _).
  destruct (sync_transactional sample_get_list crc32c_bitwise any_signature journal_key m 100
    unreachable_actuator Hm) as (m' & r & E & _).
  exists m, m', r. split; [exact Hm|exact E].
Defined.

Lemma mirrored_effect_was_approved_witness : exists m r, sample_run m
  /\ ms_actions (m_snapshot m) !! 2%nat = Some r /\ ar_state r = APPLIED
  /\ approved_before (m_projection m) 2 r.
Proof.
  destruct sample_mirror as (m & Hm & _ & Hs).
  assert (Hl : exists r, ms_actions (m_snapshot m) !! 2%nat = Some r /\ ar_state r = APPLIED).
  { destruct (ms_actions (m_snapshot m)) as [|r0 [|r1 [|r2 l]]]; try discriminate Hs.
    exists r2. split; [reflexivity|]. cbn in Hs. congruence. }
  destruct Hl as (r & Hr & Hst). exists m, r. split; [exact Hm|]. split; [exact Hr|]. split; [exact Hst|].
  apply (mirrored_effect_was_approved sample_get_list crc32c_bitwise any_signature journal_key m 2 r Hm Hr).
  rewrite Hst. apply (proj1 (bool_decide_eq_true _)). vm_compute. reflexivity.
Defined.
