(* ===== verification/ActuatorHonest.v ===== *)
(** * The mirror and an honest actuator

    An actuator that answers every page request with the page of one journal of accepted
    records: its pages survive the wire, every check of the client passes, and one
    [sync_once] brings the mirror to the head of the journal. *)

From S2P Require Import Prelude Sha256 CanonicalJson JsonDecode Frames Time Ipv4 Identities.
From S2P Require Import Contracts Egress Candidates Policy DecisionClock PolicyClient.
From S2P Require Import DecisionIntent ActuatorClient ActuatorRecords ActuatorProtocol.
From S2P Require Import ActuatorMirror.
Local Open Scope Z_scope.
Local Open Scope agmind_scope.

(** ** base64 *)

Lemma b64_table n :
  0 <= n < 64 -> b64_value (b64_char n) = Some n /\ (b64_char n =? 61) = false.
Proof.
  intros Hn.
  assert (E : forallb (fun n => bool_decide (b64_value (b64_char n) = Some n)
    && negb (b64_char n =? 61)) (seqZ 0 64) = true) by reflexivity.
  rewrite forallb_forall in E. specialize (E n ltac:(apply list_elem_of_In, elem_of_seqZ; lia)).
  apply andb_true_iff in E as [E1%bool_decide_eq_true E2%negb_true_iff]. by split.
Qed.

Lemma b64_value_char n : 0 <= n < 64 -> b64_value (b64_char n) = Some n.
Proof. apply b64_table. Qed.

Lemma b64_char_pad n : 0 <= n < 64 -> (b64_char n =? 61) = false.
Proof. apply b64_table. Qed.

Lemma byte_of_eq z a : z = byte_val a -> byte_of z = a.
Proof. intros ->. apply byte_of_val. Qed.

Ltac b64_digits :=
  repeat (rewrite b64_value_char by (Z.div_mod_to_equations; lia); cbn [mbind option_bind]);
  rewrite ?b64_char_pad by (Z.div_mod_to_equations; lia).

Lemma b64_roundtrip raw : b64decode (b64encode raw) = Some raw.
Proof.
  remember (length raw) as n eqn:Hn. assert (Hle : (length raw <= n)%nat) by lia. clear Hn.
  revert raw Hle. induction n as [|n IH]; intros raw Hle; [by destruct raw; [|cbn in Hle; lia]|].
  destruct raw as [|a [|b [|c raw]]]; [done|..]; cbn [b64encode b64decode].
  all: pose proof (byte_val_range a).
  - b64_digits. cbn [andb]. do 2 f_equal. apply byte_of_eq. Z.div_mod_to_equations; lia.
  - pose proof (byte_val_range b). b64_digits. cbn [andb]. b64_digits.
    change (61 =? 61) with true. cbv iota.
    do 2 f_equal; [|f_equal]; apply byte_of_eq; Z.div_mod_to_equations; lia.
  - pose proof (byte_val_range b). pose proof (byte_val_range c). b64_digits. cbn [andb]. b64_digits.
    rewrite IH by (cbn in Hle; lia). cbn [mbind option_bind].
    do 2 f_equal; [|f_equal; [|f_equal]]; apply byte_of_eq; Z.div_mod_to_equations; lia.
Qed.

Lemma b64_length raw : (3 * length (b64encode raw) <= 4 * (length raw + 2))%nat.
Proof.
  remember (length raw) as n eqn:Hn. assert (Hle : (length raw <= n)%nat) by lia. clear Hn.
  revert raw Hle. induction n as [n IH] using lt_wf_ind; intros raw Hle.
  destruct raw as [|a [|b [|c raw]]]; cbn [b64encode length] in *; try lia.
  specialize (IH (n - 3)%nat ltac:(lia) raw ltac:(lia)). lia.
Qed.

Lemma decode_encode_base64 raw : decode_payload_base64 (b64encode raw) = Ok raw.
Proof.
  unfold decode_payload_base64. rewrite b64_roundtrip. cbn [of_option rbind].
  by rewrite bool_decide_eq_true_2.
Qed.

(** ** Pages on the wire *)

Definition snapshot_valid (s : ActuatorJournalSnapshot) : Prop :=
  0 <= sn_count s <= MAX_JOURNAL_RECORDS /\ 0 <= sn_bytes s <= MAX_JOURNAL_BYTES
  /\ HEX64 (sn_head s) = true.

Definition wire_valid (w : JournalRecordWire) : Prop :=
  1 <= w_index w <= MAX_JOURNAL_RECORDS /\ 0 <= w_offset w <= MAX_JOURNAL_BYTES
  /\ FRAME_OVERHEAD <= w_size w <= MAX_PAGE_PAYLOAD + FRAME_OVERHEAD
  /\ 0 <= w_payload_length w <= MAX_PAGE_PAYLOAD
  /\ HEX64 (w_previous w) = true /\ HEX64 (w_frame_sha256 w) = true
  /\ Z.of_nat (length (w_base64 w)) <= 90000.

Definition page_valid (p : JournalPageWire) : Prop :=
  snapshot_valid (pg_snapshot p) /\ 0 <= pg_after p <= MAX_JOURNAL_RECORDS
  /\ Forall wire_valid (pg_records p) /\ (length (pg_records p) <= 100)%nat
  /\ 0 <= pg_next_after p <= MAX_JOURNAL_RECORDS.

Definition snapshot_fields (s : ActuatorJournalSnapshot) : list (pystr * option json) :=
  map (fun kv => (kv.1, Some kv.2)) (snapshot_dump s).

Definition wire_fields (w : JournalRecordWire) : list (pystr * option json) :=
  map (fun kv => (kv.1, Some kv.2)) (record_wire_dump w).

Definition page_fields (p : JournalPageWire) : list (pystr * option json) :=
  map (fun kv => (kv.1, Some kv.2)) (page_dump p).

Lemma snapshot_nodup s : NoDup (map fst (snapshot_fields s)).
Proof. apply (bool_decide_eq_true (NoDup snapshot_keys)). vm_compute. reflexivity. Qed.

Lemma wire_nodup w : NoDup (map fst (wire_fields w)).
Proof. apply (bool_decide_eq_true (NoDup record_wire_keys)). vm_compute. reflexivity. Qed.

Lemma page_nodup p : NoDup (map fst (page_fields p)).
Proof. apply (bool_decide_eq_true (NoDup page_keys)). vm_compute. reflexivity. Qed.

Lemma snapshot_canon s :
  snapshot_valid s -> snapshot_validate (canon_obj (snapshot_dump s)) = Ok s.
Proof.
  intros (Hc & Hb & Hh). change (snapshot_dump s) with (dump_of (snapshot_fields s)).
  pose proof (snapshot_nodup s) as Hnd. unfold snapshot_validate. do 4 read_canon Hnd.
  rewrite check_true by done. by destruct s.
Qed.

Lemma wire_canon w :
  wire_valid w -> record_wire_validate (canon_obj (record_wire_dump w)) = Ok w.
Proof.
  intros (Hi & Ho & Hs & Hl & Hp & Hf & Hb). change (record_wire_dump w) with (dump_of (wire_fields w)).
  pose proof (wire_nodup w) as Hnd. unfold record_wire_validate. do 8 read_canon Hnd.
  rewrite Hp, Hf, check_true by (by apply Z.leb_le). by destruct w.
Qed.

Lemma wires_canon ws :
  Forall wire_valid ws ->
  map_res (fun v => let* d := as_doc v in record_wire_validate d)
    (map canon (map (fun w => JObj (record_wire_dump w)) ws)) = Ok ws.
Proof.
  induction 1 as [|w ws Hw _ IH]; [done|]. cbn [map map_res].
  change (canon (JObj (record_wire_dump w))) with (JObj (canon_obj (record_wire_dump w))).
  cbn [as_doc rbind]. rewrite wire_canon by done. cbn [rbind]. by rewrite IH.
Qed.

Lemma page_canon p : page_valid p -> page_validate (canon_obj (page_dump p)) = Ok p.
Proof.
  intros (Hs & Ha & Hw & Hl & Hn). change (page_dump p) with (dump_of (page_fields p)).
  pose proof (page_nodup p) as Hnd. unfold page_validate. do 2 read_canon Hnd.
  eapply rbind_step; [eapply dict_field_eq; rewrite (get_canon_dump _ _ Hnd);
    exact (eq_refl (Some (JObj (canon_obj (snapshot_dump (pg_snapshot p))))))|cbv beta].
  eapply rbind_step; [by apply snapshot_canon|cbv beta]. read_canon Hnd.
  eapply rbind_step.
  { rewrite (get_canon_dump _ _ Hnd).
    change (canon <$> assoc (u "records") (page_fields p))
      with (Some (JArr (map canon (map (fun w => JObj (record_wire_dump w)) (pg_records p))))).
    cbv iota. rewrite !length_map, check_true by (apply Z.leb_le; lia). cbn [rbind].
    by apply wires_canon. }
  cbv beta. read_canon Hnd.
  assert (Eb : bool_field (u "more") (canon_obj (dump_of (page_fields p))) = Ok (pg_more p)).
  { unfold bool_field. rewrite (get_canon_dump _ _ Hnd). reflexivity. }
  rewrite Eb. by destruct p.
Qed.

Lemma flat_dump_unique d :
  NoDup (map fst d) -> Forall (fun kv => unique_keys kv.2 = true) d -> unique_keys (JObj d) = true.
Proof.
  intros Hn Hf. cbn [unique_keys]. apply andb_true_iff. split; [by apply bool_decide_eq_true|].
  apply forallb_forall. rewrite List.Forall_forall in Hf. exact Hf.
Qed.

Lemma page_unique p : unique_keys (JObj (page_dump p)) = true.
Proof.
  pose proof (page_nodup p) as Hnd. unfold page_fields in Hnd. rewrite map_map in Hnd.
  apply flat_dump_unique; [exact Hnd|]. unfold page_dump. repeat constructor; cbn [snd].
  cbn [unique_keys]. rewrite forallb_map_eq. apply forallb_forall. intros w _.
  pose proof (wire_nodup w) as Hw. unfold wire_fields in Hw. rewrite map_map in Hw.
  apply flat_dump_unique; [exact Hw|]. repeat constructor.
Qed.

(** A page survives the wire. *)
Lemma decode_page_complete p raw :
  page_valid p -> canonical_json (JObj (page_dump p)) = Ok raw -> blen raw <= MAX_PAGE_BYTES ->
  snapshot_from_wire (pg_snapshot p) = Ok (pg_snapshot p) ->
  decode_page raw = Ok (p, pg_snapshot p).
Proof.
  intros Hv Hraw Hl Hs. unfold decode_page, decode_canonical.
  assert (E : decode_strict page_keys page_validate raw MAX_PAGE_BYTES = Ok p).
  { unfold decode_strict.
    rewrite (canonical_json_roundtrip_aux _ raw MAX_PAGE_BYTES (page_unique p) Hraw Hl). cbn [rbind].
    change (canon_obj (page_dump p)) with (canon_obj (dump_of (page_fields p))).
    rewrite required_present by (apply page_nodup || reflexivity).
    rewrite no_nulls by reflexivity. cbn [guard negb rbind]. by apply page_canon. }
  rewrite E. cbn [rbind]. rewrite Hraw. cbn [rbind]. rewrite check_true by (by apply bool_decide_eq_true).
  cbn [rbind catch_with]. by rewrite Hs.
Qed.

(** ** The pages of an honest actuator *)

Section Honest.
Context (get_list : list header -> pystr -> list pystr) (crc32c : bytes -> Z).
Context (crc_range : forall x, 0 <= crc32c x < 2 ^ 32).
Context (ed25519_verify : bytes -> bytes -> bytes -> bool) (public_key : bytes).

Abbreviation frame_of := (Frames.frame_of crc32c).
Abbreviation journal_of := (Frames.journal_of crc32c).
Abbreviation chain_head := (Frames.chain_head crc32c).
Abbreviation outer_of := (ActuatorProtocol.outer_of crc32c).
Abbreviation snapshot_of := (ActuatorProtocol.snapshot_of crc32c).
Abbreviation append_all := (ActuatorRecords.append_all ed25519_verify public_key).
Abbreviation accepted := (ActuatorMirror.accepted ed25519_verify public_key).
Abbreviation fits := (ActuatorMirror.fits crc32c).
Abbreviation with_inner := (ActuatorProtocol.with_inner ed25519_verify public_key).

(** The wire form of a verified record *)
Definition wire_of (o : VerifiedOuterRecord) : JournalRecordWire :=
  mkWire (vo_index o) (vo_offset o) (vo_size o) (vo_payload_length o) (vo_previous o)
    (vo_frame_sha256 o) (b64encode (vo_payload o)).

(** The page of [ps ++ qs ++ rest] that holds [qs] *)
Definition page_of (ps qs rest : list bytes) : JournalPageWire :=
  let after := Z.of_nat (length ps) in
  let next := after + Z.of_nat (length qs) in
  mkPage (snapshot_of (ps ++ qs ++ rest)) after
    (map wire_of (outer_of (after + 1) (blen (journal_of zero_hash ps)) (chain_head zero_hash ps) qs))
    next (next <? Z.of_nat (length (ps ++ qs ++ rest))).

(** Every record of a chain passes the checks against it. *)
Lemma verify_outer_complete index offset previous ps :
  length previous = 32%nat -> payloads_ok MAX_PAGE_PAYLOAD ps ->
  verify_outer_records crc32c index offset previous (map wire_of (outer_of index offset previous ps))
  = Ok (outer_of index offset previous ps, offset + blen (journal_of previous ps),
        chain_head previous ps).
Proof.
  intros Hp Hok. revert index offset previous Hp.
  induction Hok as [|p ps Hl Hok IH]; intros index offset previous Hp.
  { cbn. unfold blen. cbn. by rewrite Z.add_0_r. }
  cbn [ActuatorProtocol.outer_of map verify_outer_records wire_of w_base64 w_index w_offset w_payload_length
       w_size w_previous w_frame_sha256 vo_index vo_offset vo_size vo_payload_length vo_previous
       vo_frame_sha256 vo_payload].
  rewrite decode_encode_base64. cbn [rbind]. rewrite !Z.eqb_refl, bool_decide_eq_true_2 by done.
  cbn [andb guard rbind].
  rewrite (proj2 (encode_frame_ok crc32c p previous MAX_PAGE_PAYLOAD (frame_of p previous)))
    by (split_and!; try done; unfold MAX_PAGE_PAYLOAD; lia). cbn [catch_with rbind].
  rewrite drop_hash by done.
  assert (Es : (blen (frame_of p previous) =? blen p + FRAME_OVERHEAD) = true).
  { apply Z.eqb_eq. unfold blen, FRAME_OVERHEAD. rewrite frame_of_length by done. lia. }
  rewrite Es, bool_decide_eq_true_2 by done. cbn [andb guard rbind].
  rewrite IH by apply hash_of_length. cbn [rbind]. do 3 f_equal.
  cbn [Frames.journal_of]. unfold blen. rewrite length_app. lia.
Qed.

Lemma with_inner_complete p outer q vs :
  append_all p (map vo_payload outer) = Ok (q, vs) ->
  with_inner p outer = (q, Ok (zip_with mkVerifiedRecord outer vs)).
Proof.
  revert p vs. induction outer as [|o outer IH]; intros p vs H;
    cbn [map ActuatorRecords.append_all] in H; [by injection H as <- <-|].
  apply rbind_ok in H as ([p1 v] & Ha & H). apply rbind_ok in H as ([p2 ws] & Hr & H).
  injection H as <- <-. cbn [ActuatorProtocol.with_inner]. rewrite Ha, (IH _ _ Hr). done.
Qed.
(** The head of no non-empty prefix is the hash that stands for the empty journal. *)
Definition heads_ok (all : list bytes) : Prop :=
  forall ps, ps `prefix_of` all -> ps <> [] -> chain_head zero_hash ps <> zero_hash.

Lemma journal_bytes_lower prev ps :
  length prev = 32%nat -> (76 * length ps <= length (journal_of prev ps))%nat.
Proof.
  revert prev. induction ps as [|p ps IH]; intros prev H; cbn [length Frames.journal_of]; [lia|].
  rewrite length_app, frame_of_length by done. specialize (IH _ (hash_of_length crc32c p prev)). lia.
Qed.

Lemma zero_head ps all :
  heads_ok all -> ps `prefix_of` all ->
  bool_decide (hex_encode (chain_head zero_hash ps) = ZERO_SHA256) = bool_decide (length ps = 0%nat).
Proof.
  intros Hh Hp. apply bool_decide_ext. change ZERO_SHA256 with (hex_encode zero_hash). split.
  - intros E%hex_encode_inj. destruct ps as [|p ps]; [done|]. by destruct (Hh (p :: ps) Hp).
  - intros H. by destruct ps.
Qed.

Lemma snapshot_wire_ok ps all :
  heads_ok all -> ps `prefix_of` all -> snapshot_from_wire (snapshot_of ps) = Ok (snapshot_of ps).
Proof.
  intros Hh Hp. unfold snapshot_from_wire. cbn [ActuatorProtocol.snapshot_of sn_count sn_bytes sn_head].
  rewrite (zero_head _ _ Hh Hp).
  pose proof (journal_bytes_lower zero_hash ps eq_refl) as Hl.
  assert (E1 : (Z.of_nat (length ps) * FRAME_OVERHEAD <=? blen (journal_of zero_hash ps)) = true).
  { apply Z.leb_le. unfold FRAME_OVERHEAD, blen. lia. }
  assert (E2 : (Z.of_nat (length ps) =? 0) = bool_decide (length ps = 0%nat)).
  { case_bool_decide; [apply Z.eqb_eq|apply Z.eqb_neq]; lia. }
  assert (E3 : (blen (journal_of zero_hash ps) =? 0) = bool_decide (length ps = 0%nat)).
  { case_bool_decide as E; [|apply Z.eqb_neq; unfold blen; lia]. by destruct ps. }
  rewrite E1, E2, E3, !Bool.eqb_reflx. done.
Qed.

(** ** What a page request is answered with *)

(** A plain 200 JSON response with this body *)
Definition plain (r : http_response) (raw : bytes) : Prop :=
  status_code r = 200 /\ body r = inl raw
  /\ get_list (raw_headers r) (u "content-encoding") = []
  /\ get_list (raw_headers r) (u "content-length") = []
  /\ get_list (raw_headers r) (u "content-type") = [u "application/json"].

(** The page after [ps] of a journal [ps ++ tail]: some first records of [tail], at least
    one if there is one, at most [limit], within the page's byte bound *)
Definition answers (a : reply) (ps tail : list bytes) (limit : Z) : Prop :=
  exists r raw qs rest, a = Response r /\ plain r raw /\ tail = qs ++ rest
    /\ Z.of_nat (length qs) <= limit /\ (tail <> [] -> qs <> [])
    /\ canonical_json (JObj (page_dump (page_of ps qs rest))) = Ok raw
    /\ blen raw <= MAX_PAGE_BYTES.

Definition honest (serve : list pystr -> pystr -> reply) (all : list bytes) : Prop :=
  (forall past, answers (serve past (page_target 0 1 None)) [] all 1)
  /\ forall past ps tail limit, all = ps ++ tail -> 1 <= limit <= 100 ->
     answers (serve past (page_target (Z.of_nat (length ps)) limit (Some (snapshot_of all)))) ps tail limit.

Lemma get_response_plain r raw limit :
  plain r raw -> blen raw <= limit -> get_response get_list (Response r) limit = Ok raw.
Proof.
  intros (Hs & Hb & He & Hl & Ht) Hn. unfold get_response. cbn [reply_response rbind].
  rewrite He, bool_decide_eq_true_2 by done. cbn [negb].
  unfold journal_declared_length, json_content, journal_read_bounded. rewrite Hl, Ht, Hs, Hb.
  cbn [rbind]. change (200 =? 200) with true. rewrite bool_decide_eq_true_2 by done. cbn [negb].
  by rewrite (proj2 (Z.leb_le _ _) Hn).
Qed.

Lemma HEX64_hash h : length h = 32%nat -> HEX64 (hex_encode h) = true.
Proof. intros H. unfold HEX64. pose proof (hex_encode_is_hex h) as E. by rewrite H in E. Qed.

Lemma outer_wires_valid index offset previous qs :
  1 <= index -> 0 <= offset -> length previous = 32%nat -> payloads_ok MAX_PAGE_PAYLOAD qs ->
  index + Z.of_nat (length qs) <= MAX_JOURNAL_RECORDS + 1 ->
  offset + blen (journal_of previous qs) <= MAX_JOURNAL_BYTES ->
  Forall wire_valid (map wire_of (outer_of index offset previous qs)).
Proof.
  intros Hi Ho Hp Hok. revert index offset previous Hi Ho Hp.
  induction Hok as [|p qs Hl Hok IH]; intros index offset previous Hi Ho Hp Hn Hb; [constructor|].
  cbn [length Frames.journal_of] in Hn, Hb. unfold blen in Hb. rewrite length_app in Hb.
  cbn [ActuatorProtocol.outer_of map]. constructor.
  - unfold wire_valid, wire_of. cbn. unfold MAX_PAGE_PAYLOAD, FRAME_OVERHEAD, blen in *.
    split_and!; try lia; [by apply HEX64_hash|apply HEX64_hash, hash_of_length|].
    pose proof (b64_length p). lia.
  - apply IH; unfold blen in *; try lia. apply hash_of_length.
Qed.

Lemma page_of_valid ps qs rest :
  payloads_ok MAX_PAGE_PAYLOAD (ps ++ qs ++ rest) -> fits (ps ++ qs ++ rest) ->
  (length qs <= 100)%nat -> page_valid (page_of ps qs rest).
Proof.
  intros Hok [Hn Hb] Hl. apply Forall_app in Hok as [_ [Hq _]%Forall_app].
  unfold MAX_MIRROR_RECORDS, MAX_MIRROR_BYTES in *. unfold blen in Hb.
  rewrite !journal_of_app, !length_app in Hb. rewrite !length_app in Hn.
  unfold page_valid, page_of, snapshot_valid.
  cbn [pg_snapshot pg_after pg_records pg_next_after ActuatorProtocol.snapshot_of sn_count sn_bytes sn_head].
  unfold MAX_JOURNAL_RECORDS, MAX_JOURNAL_BYTES.
  split_and!; unfold blen; rewrite ?journal_of_app, ?length_app; try lia.
  - by apply HEX64_hash, chain_head_length.
  - apply outer_wires_valid; unfold MAX_JOURNAL_RECORDS, MAX_JOURNAL_BYTES, blen; try lia; [|done].
    by apply chain_head_length.
  - by rewrite length_map, outer_of_length.
Qed.

Lemma blen_journal_app ps qs :
  blen (journal_of zero_hash (ps ++ qs))
  = blen (journal_of zero_hash ps) + blen (journal_of (chain_head zero_hash ps) qs).
Proof. rewrite journal_of_app. unfold blen. rewrite length_app. lia. Qed.

Lemma chain_head_app prev ps qs : chain_head prev (ps ++ qs) = chain_head (chain_head prev ps) qs.
Proof. unfold Frames.chain_head. apply foldl_app. Qed.

(** The page passes every check of [_verify_outer_page]. *)
Lemma verify_page_complete ps qs rest limit :
  payloads_ok MAX_PAGE_PAYLOAD (ps ++ qs ++ rest) -> heads_ok (ps ++ qs ++ rest) ->
  Z.of_nat (length qs) <= limit -> (qs ++ rest <> [] -> qs <> []) ->
  verify_outer_page crc32c (page_of ps qs rest) (snapshot_of (ps ++ qs ++ rest))
    (Z.of_nat (length ps)) (blen (journal_of zero_hash ps)) (chain_head zero_hash ps) limit
  = Ok (outer_of (Z.of_nat (length ps) + 1) (blen (journal_of zero_hash ps)) (chain_head zero_hash ps) qs,
        blen (journal_of zero_hash (ps ++ qs)), chain_head zero_hash (ps ++ qs)).
Proof.
  intros Hok Hh Hl Hne. apply Forall_app in Hok as [_ [Hq _]%Forall_app].
  unfold verify_outer_page. cbn [page_of pg_snapshot pg_after pg_records pg_next_after pg_more].
  rewrite (snapshot_wire_ok _ _ Hh) by done. cbn [rbind].
  rewrite bool_decide_eq_true_2, Z.eqb_refl, length_map, outer_of_length by done.
  rewrite (proj2 (Z.leb_le _ _) Hl). cbn [andb guard rbind].
  rewrite verify_outer_complete; [|by apply chain_head_length|done]. cbn [rbind].
  rewrite Z.eqb_refl. cbn [ActuatorProtocol.snapshot_of sn_count].
  rewrite (proj2 (Z.leb_le _ _)) by (rewrite !length_app; lia). rewrite Bool.eqb_reflx.
  assert (E : (Z.of_nat (length ps) + Z.of_nat (length qs) <? Z.of_nat (length (ps ++ qs ++ rest)))
    && bool_decide (map wire_of (outer_of (Z.of_nat (length ps) + 1) (blen (journal_of zero_hash ps))
                     (chain_head zero_hash ps) qs) = []) = false).
  { destruct qs as [|q qs]; [|apply andb_false_r]. destruct rest as [|x rest]; [|by destruct Hne].
    apply andb_false_iff. left. apply Z.ltb_ge. rewrite !length_app. cbn. lia. }
  rewrite E. cbn [andb negb guard rbind]. by rewrite blen_journal_app, chain_head_app.
Qed.

Section Fetch.
Context (serve : list pystr -> pystr -> reply) (all : list bytes).
Context (all_ok : payloads_ok MAX_PAGE_PAYLOAD all) (all_fits : fits all) (all_heads : heads_ok all).
Context (server_honest : honest serve all).

Abbreviation get_page := (ActuatorProtocol.get_page get_list crc32c serve).
Abbreviation fetch_suffix :=
  (ActuatorProtocol.fetch_suffix get_list crc32c ed25519_verify public_key serve).

(** What is verified of an honest answer *)
Lemma answer_complete a ps tail limit :
  all = ps ++ tail -> limit <= 100 -> answers a ps tail limit ->
  exists page qs rest, tail = qs ++ rest /\ Z.of_nat (length qs) <= limit /\ (tail <> [] -> qs <> [])
    /\ (let* raw := get_response get_list a MAX_PAGE_BYTES in decode_page raw) = Ok (page, snapshot_of all)
    /\ verify_outer_page crc32c page (snapshot_of all) (Z.of_nat (length ps))
         (blen (journal_of zero_hash ps)) (chain_head zero_hash ps) limit
       = Ok (outer_of (Z.of_nat (length ps) + 1) (blen (journal_of zero_hash ps)) (chain_head zero_hash ps) qs,
             blen (journal_of zero_hash (ps ++ qs)), chain_head zero_hash (ps ++ qs)).
Proof.
  intros Ha Hl (r & raw & qs & rest & -> & Hplain & -> & Hn & Hne & Hraw & Hb).
  rewrite Ha in all_ok, all_fits, all_heads.
  exists (page_of ps qs rest), qs, rest. split_and!; try done.
  - rewrite (get_response_plain _ _ _ Hplain Hb). cbn [rbind].
    rewrite (decode_page_complete _ _ (page_of_valid _ _ _ all_ok all_fits ltac:(lia)) Hraw Hb); [by subst|].
    by eapply snapshot_wire_ok.
  - subst all. by apply verify_page_complete.
Qed.

Lemma get_page_complete past ps tail limit :
  all = ps ++ tail -> 1 <= limit <= 100 ->
  exists past' qs rest, tail = qs ++ rest /\ Z.of_nat (length qs) <= limit /\ (tail <> [] -> qs <> [])
    /\ get_page past (snapshot_of all) (Z.of_nat (length ps)) (blen (journal_of zero_hash ps))
         (chain_head zero_hash ps) limit
       = (past', Ok (outer_of (Z.of_nat (length ps) + 1) (blen (journal_of zero_hash ps))
                       (chain_head zero_hash ps) qs,
                     blen (journal_of zero_hash (ps ++ qs)), chain_head zero_hash (ps ++ qs))).
Proof.
  intros Ha Hl. destruct (answer_complete _ ps tail limit Ha ltac:(lia)
    (proj2 server_honest past ps tail limit Ha Hl)) as (page & qs & rest & Ht & Hn & Hne & Hd & Hv).
  eexists _, qs, rest. split_and!; [done..|]. unfold ActuatorProtocol.get_page. f_equal.
  apply rbind_ok in Hd as (raw & Hg & Hd). rewrite Hg. cbn [rbind]. rewrite Hd. cbn [rbind].
  rewrite bool_decide_eq_true_2 by done. exact Hv.
Qed.

Lemma fetch_suffix_complete fuel past ps tail limit p ext q vs :
  all = ps ++ tail -> 1 <= limit <= 100 -> (length tail <= fuel)%nat ->
  append_all p tail = Ok (q, vs) ->
  fetch_suffix fuel past (snapshot_of all) limit (Z.of_nat (length ps)) (blen (journal_of zero_hash ps))
    (chain_head zero_hash ps) p ext
  = (q, Some (Ok (ext ++ zip_with mkVerifiedRecord
                    (outer_of (Z.of_nat (length ps) + 1) (blen (journal_of zero_hash ps))
                       (chain_head zero_hash ps) tail) vs,
                  Z.of_nat (length all), blen (journal_of zero_hash all), chain_head zero_hash all))).
Proof.
  revert past ps tail p ext vs. induction fuel as [|fuel IH]; intros past ps tail p ext vs Ha Hl Hf Hp.
  all: cbn [ActuatorProtocol.fetch_suffix ActuatorProtocol.snapshot_of sn_count].
  all: destruct tail as [|x tail];
    [rewrite app_nil_r in Ha; subst ps; rewrite Z.ltb_irrefl; cbn [ActuatorRecords.append_all] in Hp;
     injection Hp as <- <-; cbn [zip_with]; by rewrite app_nil_r|].
  { cbn in Hf. lia. }
  rewrite (proj2 (Z.ltb_lt _ _)) by (rewrite Ha, length_app; cbn [length]; lia).
  destruct (get_page_complete past ps (x :: tail) limit Ha Hl) as (past' & qs & rest & Ht & Hn & Hne & ->).
  rewrite outer_of_length, bool_decide_eq_false_2; [|intros E; apply Hne; [done|by destruct qs]].
  rewrite Ht in Hp, Hf |- *. rewrite append_all_app in Hp. apply rbind_ok in Hp as ([p1 ws] & Hq & Hp).
  apply rbind_ok in Hp as ([p2 xs] & Hr & Hp). injection Hp as <- <-.
  rewrite (with_inner_complete p _ p1 ws) by (by rewrite outer_of_payloads).
  pose proof (append_all_length _ _ _ _ _ _ Hq) as Hlw.
  specialize (IH past' (ps ++ qs) rest p1 (ext ++ zip_with mkVerifiedRecord
    (outer_of (Z.of_nat (length ps) + 1) (blen (journal_of zero_hash ps)) (chain_head zero_hash ps) qs) ws) xs).
  rewrite length_app, Nat2Z.inj_add in IH. rewrite IH; [|by rewrite Ha, Ht, app_assoc|done| |done].
  2:{ rewrite length_app in Hf. assert (qs <> []) as Hq0 by (by apply Hne). destruct qs; [done|]. cbn in Hf. lia. }
  rewrite blen_journal_app, chain_head_app, <- app_assoc, (outer_of_app _ _ _ _ qs rest), zip_with_app
    by (by rewrite outer_of_length).
  by replace (Z.of_nat (length ps) + Z.of_nat (length qs) + 1)
    with (Z.of_nat (length ps) + 1 + Z.of_nat (length qs)) by lia.
Qed.

Lemma first_page_complete :
  exists past qs rest, all = qs ++ rest /\ (length qs <= 1)%nat /\ (all <> [] -> qs <> [])
    /\ first_page get_list crc32c serve
       = (past, Ok (snapshot_of all, outer_of 1 0 zero_hash qs, blen (journal_of zero_hash qs),
                    chain_head zero_hash qs)).
Proof.
  destruct (answer_complete _ [] all 1 eq_refl ltac:(lia) (proj1 server_honest []))
    as (page & qs & rest & Ht & Hn & Hne & Hd & Hv).
  exists [page_target 0 1 None], qs, rest. split_and!; [done|lia|done|]. unfold first_page. f_equal.
  apply rbind_ok in Hd as (raw & Hg & Hd). rewrite Hg. cbn [rbind]. rewrite Hd. cbn [rbind].
  change (Z.of_nat (length [])) with 0 in Hv. change (blen (journal_of zero_hash [])) with 0 in Hv.
  change (chain_head zero_hash []) with zero_hash in Hv. by rewrite Hv.
Qed.

(** The last record of a non-empty prefix *)
Lemma outer_of_last front d :
  last (outer_of 1 0 zero_hash (front ++ [d]))
  = Some (mkOuter (Z.of_nat (length front) + 1) (blen (journal_of zero_hash front))
            (blen d + FRAME_OVERHEAD) (blen d) (hex_encode (chain_head zero_hash front))
            (hex_encode (chain_head zero_hash (front ++ [d]))) d
            (frame_of d (chain_head zero_hash front))).
Proof.
  rewrite outer_of_app. cbn [ActuatorProtocol.outer_of]. rewrite last_snoc, chain_head_app.
  do 2 f_equal; lia.
Qed.

Lemma boundary_complete past front d qs qs1 rest1 l :
  all = front ++ d :: qs -> all = qs1 ++ rest1 -> length qs1 = 1%nat ->
  Some (vr_outer l) = last (outer_of 1 0 zero_hash (front ++ [d])) ->
  exists past' b, boundary_record get_list crc32c serve past (snapshot_of all) (snapshot_of (front ++ [d]))
    (outer_of 1 0 zero_hash qs1) l = (past', Ok b) /\ vo_frame b = vo_frame (vr_outer l).
Proof.
  intros Ha Ha1 Hl1 Hl. rewrite outer_of_last in Hl. unfold boundary_record. injection Hl as ->.
  cbn [ActuatorProtocol.snapshot_of sn_count vo_previous vo_offset vo_frame]. rewrite length_app.
  cbn [length]. destruct (Z.of_nat (length front + 1) =? 1) eqn:E.
  - apply Z.eqb_eq in E. destruct front as [|x front]; [|cbn in E; lia].
    destruct qs1 as [|x [|y qs1]]; try done. rewrite Ha in Ha1. injection Ha1 as <- _.
    by eexists _, _.
  - unfold fromhex. rewrite hex_decode_encode. cbn [of_option].
    replace (Z.of_nat (length front + 1) - 1) with (Z.of_nat (length front)) by lia.
    destruct (get_page_complete past front (d :: qs) 1 Ha ltac:(lia))
      as (past' & qs2 & rest & Ht & Hn & Hne & ->).
    destruct qs2 as [|x [|y qs2]]; [by destruct Hne|injection Ht as <- _|cbn in Hn; lia].
    by eexists _, _.
Qed.

Abbreviation fetch_start := (ActuatorProtocol.fetch_start get_list crc32c ed25519_verify public_key serve).

Lemma fetch_start_complete p past ds qs qs1 rest1 l q vs :
  all = ds ++ qs -> qs <> [] -> all = qs1 ++ rest1 -> length qs1 = 1%nat ->
  vr_outer <$> l = last (outer_of 1 0 zero_hash ds) ->
  append_all p qs = Ok (q, vs) ->
  exists past' ps tail p1 us ws,
    qs = ps ++ tail /\ vs = us ++ ws /\ append_all p1 tail = Ok (q, ws)
    /\ length us = length ps
    /\ fetch_start p (snapshot_of ds) l past (snapshot_of all) (outer_of 1 0 zero_hash qs1)
         (blen (journal_of zero_hash qs1)) (chain_head zero_hash qs1)
       = (p1, Ok (past', zip_with mkVerifiedRecord
                    (outer_of (Z.of_nat (length ds) + 1) (blen (journal_of zero_hash ds))
                       (chain_head zero_hash ds) ps) us,
                  Z.of_nat (length (ds ++ ps)), blen (journal_of zero_hash (ds ++ ps)),
                  chain_head zero_hash (ds ++ ps))).
Proof.
  intros Ha Hne Ha1 Hl1 Hl Hp. unfold ActuatorProtocol.fetch_start.
  cbn [ActuatorProtocol.snapshot_of sn_count sn_bytes sn_head].
  destruct ds as [|d0 ds0].
  - cbn [length]. change (Z.of_nat 0 =? 0) with true. cbv iota. cbn [app] in Ha. subst qs.
    rewrite take_ge by (rewrite outer_of_length; lia). rewrite Ha1, append_all_app in Hp.
    apply rbind_ok in Hp as ([p1 us] & Hq & Hp). apply rbind_ok in Hp as ([p2 ws] & Hr & Hp).
    injection Hp as <- <-.
    rewrite (with_inner_complete p _ p1 us) by (by rewrite outer_of_payloads).
    exists past, qs1, rest1, p1, us, ws. split_and!; try done; [by eapply append_all_length|].
    cbn [app]. rewrite Hl1. done.
  - destruct (exists_last (l := d0 :: ds0) ltac:(done)) as (front & d & Eds). rewrite Eds in *.
    rewrite <- app_assoc in Ha. cbn [app] in Ha.
    rewrite (proj2 (Z.eqb_neq _ _)) by (rewrite length_app; cbn; lia).
    destruct l as [l|]; [|by rewrite outer_of_last in Hl].
    destruct (boundary_complete past front d qs qs1 rest1 l Ha Ha1 Hl1 Hl) as (past' & b & Hb & Hf).
    unfold ActuatorProtocol.snapshot_of in Hb |- *. rewrite Hb, bool_decide_eq_true_2 by done.
    cbn [guard rbind]. unfold fromhex. rewrite hex_decode_encode. cbn [of_option catch_with rbind].
    exists past', [], qs, p, [], vs. split_and!; try done. by rewrite !app_nil_r.
Qed.

(** What [fetch_verified_extension] returns for the rest [qs] of the journal *)
Definition rest_extension (ds qs : list bytes) (vs : list VerifiedActuatorPayload)
    (q : ActuatorRecordProjection) : VerifiedActuatorJournalExtension :=
  if bool_decide (length qs = 0%nat) then mkExtension (snapshot_of all) [] [] []
  else mkExtension (snapshot_of all)
         (zip_with mkVerifiedRecord (outer_of (Z.of_nat (length ds) + 1) (blen (journal_of zero_hash ds))
            (chain_head zero_hash ds) qs) vs) (intents q) (p_actions q).

Lemma fetch_locked_complete p ds qs first l limit q vs :
  all = ds ++ qs -> 1 <= limit <= 100 ->
  vr_outer <$> first = head (outer_of 1 0 zero_hash ds) ->
  vr_outer <$> l = last (outer_of 1 0 zero_hash ds) ->
  append_all p qs = Ok (q, vs) ->
  fetch_extension_locked get_list crc32c ed25519_verify public_key serve p (snapshot_of ds) first l limit
  = (q, Some (Ok (rest_extension ds qs vs q))).
Proof.
  intros Ha Hlim Hf Hl Hp. unfold fetch_extension_locked.
  destruct first_page_complete as (past & qs1 & rest1 & Ha1 & Hl1 & Hne1 & ->).
  cbn [ActuatorProtocol.snapshot_of sn_count sn_bytes sn_head]. rewrite outer_of_length.
  assert (E1 : (Z.of_nat (length ds) <=? Z.of_nat (length all)) = true).
  { apply Z.leb_le. rewrite Ha, length_app. lia. }
  assert (E2 : (Z.of_nat (length all) <=? 0) || bool_decide (length qs1 = 1%nat) = true).
  { apply orb_true_iff. destruct all as [|x al]; [by left|right]. apply bool_decide_eq_true.
    assert (qs1 <> []) by (by apply Hne1). destruct qs1; [done|]. cbn in *. lia. }
  assert (E3 : (Z.of_nat (length ds) <=? 0)
    || match head (outer_of 1 0 zero_hash qs1), first with
       | Some o, Some r => bool_decide (vo_frame o = vo_frame (vr_outer r)) | _, _ => false end = true).
  { apply orb_true_iff. destruct ds as [|d ds]; [by left|right].
    assert (qs1 <> []) by (apply Hne1; by rewrite Ha). destruct qs1 as [|x qs1]; [done|].
    rewrite Ha in Ha1. injection Ha1 as <- _. destruct first as [r|]; [|done].
    cbn [fmap option_fmap option_map head ActuatorProtocol.outer_of] in *. injection Hf as Hf.
    apply bool_decide_eq_true. by rewrite Hf. }
  rewrite E1, E2, E3. cbn [guard rbind]. unfold rest_extension.
  destruct (Z.of_nat (length all) =? Z.of_nat (length ds)) eqn:E4.
  - apply Z.eqb_eq in E4. rewrite Ha, length_app in E4. destruct qs; [|cbn in E4; lia].
    rewrite app_nil_r in Ha. subst ds. rewrite !bool_decide_eq_true_2 by done.
    cbn [ActuatorRecords.append_all] in Hp. by injection Hp as <- _.
  - assert (Hq : qs <> []).
    { intros ->. rewrite app_nil_r in Ha. subst ds. by rewrite Z.eqb_refl in E4. }
    assert (Hq1 : length qs1 = 1%nat).
    { assert (qs1 <> []) by (apply Hne1; rewrite Ha; by destruct ds). destruct qs1; [done|]. cbn in *. lia. }
    destruct (fetch_start_complete p past ds qs qs1 rest1 l q vs Ha Hq Ha1 Hq1 Hl Hp)
      as (past' & ps & tail & p1 & us & ws & -> & -> & Hr & Hlu & E5).
    unfold ActuatorProtocol.snapshot_of in E5 |- *. rewrite E5. clear E5.
    rewrite app_assoc in Ha. cbn [sn_count sn_bytes sn_head].
    pose proof (fetch_suffix_complete (Z.to_nat (Z.of_nat (length all) - Z.of_nat (length (ds ++ ps))))
      past' (ds ++ ps) tail limit p1 (zip_with mkVerifiedRecord
        (outer_of (Z.of_nat (length ds) + 1) (blen (journal_of zero_hash ds)) (chain_head zero_hash ds) ps) us)
      q ws Ha Hlim) as Hs.
    unfold ActuatorProtocol.snapshot_of in Hs. rewrite Hs; [|rewrite Ha, !length_app; lia|done].
    rewrite !Z.eqb_refl, bool_decide_eq_true_2 by done. cbn [andb guard rbind].
    rewrite bool_decide_eq_false_2 by (by destruct ps, tail).
    rewrite (outer_of_app _ _ _ _ ps tail), zip_with_app by (by rewrite outer_of_length).
    rewrite blen_journal_app, chain_head_app, length_app, Nat2Z.inj_add.
    by replace (Z.of_nat (length ds) + Z.of_nat (length ps) + 1)
      with (Z.of_nat (length ds) + 1 + Z.of_nat (length ps)) by lia.
Qed.

(** The cursor of the mirror passes the checks of [fetch_verified_extension]. *)
Lemma fetch_complete p ds qs first l limit q vs :
  all = ds ++ qs -> 1 <= limit <= 100 ->
  vr_outer <$> first = head (outer_of 1 0 zero_hash ds) ->
  vr_outer <$> l = last (outer_of 1 0 zero_hash ds) ->
  (forall r, l = Some r -> p_previous p = vp_sha256 (vr_inner r)) ->
  append_all p qs = Ok (q, vs) ->
  fetch_verified_extension get_list crc32c ed25519_verify public_key serve false p (snapshot_of ds)
    first l limit
  = (q, Some (Ok (rest_extension ds qs vs q))).
Proof.
  intros Ha Hlim Hf Hl Hprev Hp. unfold fetch_verified_extension.
  assert (Hpre : ds `prefix_of` all) by (rewrite Ha; by eexists).
  pose proof (snapshot_wire_ok ds all all_heads Hpre) as Hw. unfold snapshot_from_wire in Hw.
  apply rbind_ok in Hw as (u1 & Hw%guard_ok & _).
  apply andb_true_iff in Hw as [[_ Hw2]%andb_true_iff Hw3].
  rewrite (proj2 (Z.leb_le 1 limit)), (proj2 (Z.leb_le limit 100)) by lia. cbn [andb guard rbind].
  rewrite Hw2, Hw3. cbn [ActuatorProtocol.snapshot_of sn_count sn_bytes sn_head].
  rewrite <- (fetch_locked_complete p ds qs first l limit q vs Ha Hlim Hf Hl Hp).
  destruct ds as [|d0 ds0].
  { cbn in Hf, Hl. destruct first, l; done. }
  destruct (exists_last (l := d0 :: ds0) ltac:(done)) as (front & d & Eds).
  assert (Hlast : l <> None /\ first <> None).
  { split; intros ->; [|done]. rewrite Eds, outer_of_last in Hl. done. }
  destruct l as [l|]; [|by destruct Hlast]. destruct first as [first|]; [|by destruct Hlast].
  specialize (Hprev l eq_refl). cbn [fmap option_fmap option_map head ActuatorProtocol.outer_of] in Hf.
  injection Hf as Hf. rewrite Hf, Hprev. rewrite Eds, outer_of_last in Hl. injection Hl as Hl. rewrite Hl.
  rewrite Eds. cbn [vo_index vo_offset vo_previous vo_size vo_frame_sha256].
  rewrite !bool_decide_eq_true_2 by done.
  assert (E1 : (Z.of_nat (length front) + 1 =? Z.of_nat (length (front ++ [d]))) = true).
  { apply Z.eqb_eq. rewrite length_app. cbn. lia. }
  assert (E2 : (blen (journal_of zero_hash front) + (blen d + FRAME_OVERHEAD)
    =? blen (journal_of zero_hash (front ++ [d]))) = true).
  { apply Z.eqb_eq. rewrite blen_journal_app. cbn [Frames.journal_of]. rewrite app_nil_r.
    unfold blen, FRAME_OVERHEAD. rewrite frame_of_length by by apply chain_head_length. lia. }
  rewrite E1, E2. cbn [absent andb guard rbind negb].
  rewrite (proj2 (Z.eqb_neq (Z.of_nat (length (front ++ [d]))) 0)) by (rewrite length_app; cbn; lia).
  done.
Qed.
End Fetch.

(** ** Catching up *)

Abbreviation mirror_state := (ActuatorMirror.mirror_state crc32c ed25519_verify public_key).
Abbreviation mirror_run := (ActuatorMirror.mirror_run get_list crc32c ed25519_verify public_key).
Abbreviation snapshot_for := (ActuatorMirror.snapshot_for crc32c).
Abbreviation records_of := (ActuatorMirror.records_of crc32c).
Abbreviation sync_once := (ActuatorMirror.sync_once get_list crc32c ed25519_verify public_key).

Lemma decode_whole ps :
  payloads_ok MIRROR_FRAME_PAYLOAD ps ->
  exists d, decode_frames crc32c (journal_of zero_hash ps) MIRROR_FRAME_PAYLOAD = Ok d
    /\ map payload (records d) = ps.
Proof.
  intros Hok.
  destruct (decode_frames_prefix crc32c crc_range MIRROR_FRAME_PAYLOAD ps
    (length (journal_of zero_hash ps)) max_mirror_payload Hok (le_n _)) as (j & Hj & _ & Hhi & Hd).
  assert (j = length ps) as ->.
  { destruct (decide (j < length ps)%nat) as [Hlt|]; [|lia]. specialize (Hhi Hlt).
    pose proof (journal_take_length crc32c ps (S j)). lia. }
  rewrite !take_ge in Hd by lia. eexists. split; [exact Hd|]. cbn [records]. clear.
  generalize zero_hash as h, 0%nat as o. induction ps as [|p ps IH]; intros h o; [done|].
  cbn. by rewrite IH.
Qed.

Lemma journal_of_inj ps qs :
  payloads_ok MIRROR_FRAME_PAYLOAD ps -> payloads_ok MIRROR_FRAME_PAYLOAD qs ->
  journal_of zero_hash ps = journal_of zero_hash qs -> ps = qs.
Proof.
  intros (d & Hd & <-)%decode_whole (e & He & <-)%decode_whole E. rewrite E in Hd. congruence.
Qed.

Lemma append_all_previous p ps q vs :
  append_all p ps = Ok (q, vs) ->
  p_previous q = match last vs with Some v => vp_sha256 v | None => p_previous p end.
Proof.
  revert p vs. induction ps as [|x ps IH]; intros p vs H; cbn [ActuatorRecords.append_all] in H.
  - by injection H as <- <-.
  - apply rbind_ok in H as ([p1 v] & Ha & H). apply rbind_ok in H as ([p2 ws] & Hr & H).
    injection H as <- <-. apply IH in Hr. rewrite last_cons. apply append_step in Ha as (_ & _ & _ & _ & _ & _ & Hv).
    rewrite Hr. by destruct (last ws).
Qed.

Lemma zip_inner os vs :
  length os = length vs -> map vr_inner (zip_with mkVerifiedRecord os vs) = vs.
Proof.
  revert os. induction vs as [|v vs IH]; intros [|o os] H; try done. injection H as H. cbn.
  by rewrite IH.
Qed.

Lemma records_of_inner ps vs : length vs = length ps -> map vr_inner (records_of ps vs) = vs.
Proof. intros H. apply zip_inner. by rewrite outer_of_length. Qed.

(** Accepted payloads after an accepted prefix, inside a transaction *)
Lemma append_rest ds p vs qs q ws p1 tok :
  accepted ds p vs -> accepted (ds ++ qs) q ws -> begin_extension p tok = Ok p1 ->
  exists p2 us, append_all p1 qs = Ok (p2, us) /\ strip p2 = q /\ ws = vs ++ us.
Proof.
  intros [_ Ha] [_ Hb] Hbeg. rewrite append_all_app, Ha in Hb. cbn [rbind] in Hb.
  apply rbind_ok in Hb as ([q1 us] & Hq & Hb). injection Hb as <- <-.
  rewrite <- (proj2 (begin_strip _ _ _ Hbeg)), append_all_strip in Hq.
  destruct (append_all p1 qs) as [[p2 us2]|e]; [|done]. injection Hq as <- <-. by exists p2, us2.
Qed.

(** The system lets the mirror append. *)
Definition writable (env : sync_env) : Prop :=
  se_client_closed env = false /\ se_write env = Written
  /\ (exists o n, se_before env = Some (o, n) /\ file_is_safe (se_euid env) o n = true)
  /\ (exists o n, se_after env = Some (o, n) /\ file_is_safe (se_euid env) o n = true).

Lemma append_remote_complete m ds vs qs us p1 p2 env :
  mirror_state m ds vs [] -> begin_extension (m_projection m) (se_token env) = Ok p1 ->
  append_all p1 qs = Ok (p2, us) -> writable env ->
  append_remote m p2 env (rest_extension (ds ++ qs) ds qs us p2)
  = (mkMirror (journal_of zero_hash (ds ++ qs)) (strip p2) (snapshot_for (ds ++ qs) (strip p2) (vs ++ us))
       (m_read_only m) (m_fatal m) (m_closed m),
     Ok (snapshot_for (ds ++ qs) (strip p2) (vs ++ us))).
Proof.
  intros Hm Hb Ha (_ & Hw & (o1 & n1 & Hbef & Hs1) & (o2 & n2 & Haft & Hs2)).
  pose proof (append_all_extends _ _ _ _ _ _ Ha) as Hx.
  pose proof (append_all_length _ _ _ _ _ _ Ha) as Hlu.
  assert (Hlv : length vs = length ds) by (destruct (mi_accepted _ _ _ _ _ _ _ Hm); by eapply append_all_length).
  pose proof (whole_file _ _ _ m ds vs Hm) as Hfile.
  unfold append_remote, rest_extension. rewrite (proj2 (transaction_ends _ _ _ _ _ _ Hb Hx)), Hw.
  destruct qs as [|x qs].
  - cbn [length]. rewrite bool_decide_eq_true_2 by done. cbn [ex_snapshot ex_records length].
    destruct us; [|done]. rewrite !app_nil_r, (mi_snapshot _ _ _ _ _ _ _ Hm).
    cbn [ActuatorProtocol.snapshot_of ActuatorMirror.snapshot_for sn_count ms_count].
    change (Z.of_nat 0) with 0. rewrite Z.add_0_r, Z.eqb_refl. cbn [negb]. rewrite bool_decide_eq_true_2 by done.
    cbn [ActuatorRecords.append_all] in Ha. injection Ha as <-. rewrite (proj2 (begin_strip _ _ _ Hb)), Hfile. done.
  - set (all := ds ++ x :: qs). rewrite bool_decide_eq_false_2 by done. cbn [ex_snapshot ex_records].
    set (rs := zip_with _ _ us).
    assert (Ho : map vr_outer rs = outer_of (Z.of_nat (length ds) + 1) (blen (journal_of zero_hash ds))
      (chain_head zero_hash ds) (x :: qs)) by (apply zip_outer; by rewrite outer_of_length).
    assert (Hi : map vr_inner rs = us) by (apply zip_inner; by rewrite outer_of_length).
    assert (Hlr : length rs = S (length qs)).
    { by rewrite <- (length_map vr_outer), Ho, outer_of_length. }
    assert (Hdata : concat (map (fun r => vo_frame (vr_outer r)) rs)
      = journal_of (chain_head zero_hash ds) (x :: qs)).
    { rewrite <- (map_map vr_outer vo_frame), Ho. apply outer_of_frames. }
    rewrite Hlr, Hdata, (mi_snapshot _ _ _ _ _ _ _ Hm).
    cbn [ActuatorProtocol.snapshot_of ActuatorMirror.snapshot_for sn_count ms_count ms_bytes sn_bytes].
    rewrite (proj2 (Z.eqb_eq _ _)) by (unfold all; rewrite length_app; cbn [length]; lia). cbn [negb].
    rewrite bool_decide_eq_false_2 by done. unfold binding_is_current. rewrite Hbef, Haft, Hs1, Hs2.
    cbn [m_file with_file andb]. rewrite Hfile, Z.eqb_refl. cbn [negb].
    rewrite <- journal_of_app. fold all. rewrite Z.eqb_refl. cbn [negb].
    assert (Es : mirror_snapshot (snapshot_for ds (m_projection m) vs)
        (mkExtension (snapshot_of all) rs (intents p2) (p_actions p2))
      = snapshot_for all (strip p2) (vs ++ us)).
    { unfold mirror_snapshot, ActuatorMirror.snapshot_for. cbn. f_equal.
      pose proof (records_of_app crc32c ds vs (x :: qs) rs Hlv Ho) as R. by rewrite Hi in R. }
    unfold ActuatorMirror.snapshot_for, ActuatorProtocol.snapshot_of in Es |- *. by rewrite Es.
Qed.

(** The mirror's cursor, as it is handed to the client *)
Lemma mirror_cursor_ends m ds vs :
  mirror_state m ds vs [] ->
  vr_outer <$> head (ms_records (m_snapshot m)) = head (outer_of 1 0 zero_hash ds)
  /\ vr_outer <$> last (ms_records (m_snapshot m)) = last (outer_of 1 0 zero_hash ds)
  /\ forall r, last (ms_records (m_snapshot m)) = Some r ->
       p_previous (m_projection m) = vp_sha256 (vr_inner r).
Proof.
  intros Hm. destruct (mi_accepted _ _ _ _ _ _ _ Hm) as [_ Ha].
  pose proof (append_all_length _ _ _ _ _ _ Ha) as Hl. rewrite (mi_snapshot _ _ _ _ _ _ _ Hm).
  cbn [ActuatorMirror.snapshot_for ms_records]. rewrite <- (records_of_outer crc32c ds vs Hl).
  split_and!.
  - by destruct (records_of ds vs).
  - symmetry. apply fmap_last.
  - intros r Hr. rewrite (append_all_previous _ _ _ _ Ha).
    rewrite <- (records_of_inner ds vs Hl) at 1.
    change (map vr_inner (records_of ds vs)) with (vr_inner <$> records_of ds vs).
    by rewrite fmap_last, Hr.
Qed.

(** C25: Against an honest actuator one synchronisation catches up.  If the actuator answers
    with the pages of a journal that continues the mirror's file and that the signed record
    chain accepts, in pages of any size, and the file can be written, then [sync_once]
    succeeds: the snapshot, the projection and the file are those of the whole journal. *)
Theorem sync_catches_up m ds qs q vs limit env :
  mirror_run m -> m_read_only m = false -> m_closed m = false -> m_file m = journal_of zero_hash ds ->
  accepted (ds ++ qs) q vs -> fits (ds ++ qs) -> heads_ok (ds ++ qs) ->
  honest (se_serve env) (ds ++ qs) -> writable env -> 1 <= limit <= 100 ->
  exists m', sync_once m limit env = (m', Some (Ok (snapshot_for (ds ++ qs) q vs)))
    /\ m_snapshot m' = snapshot_for (ds ++ qs) q vs /\ m_projection m' = q
    /\ m_file m' = journal_of zero_hash (ds ++ qs) /\ m_read_only m' = false.
Proof.
  intros (ps & ws & ext & Hm)%run_state Hro Hc Hfile Hacc Hfits Hheads Hhon Hw Hlim.
  pose proof (mi_whole _ _ _ _ _ _ _ Hm Hro) as ->.
  pose proof (mi_accepted _ _ _ _ _ _ _ Hm) as Ha.
  assert (ps = ds) as ->.
  { apply journal_of_inj; [apply Ha|by destruct Hacc as [[Hok _]%Forall_app _]|]. by rewrite <- (whole_file _ _ _ m ps ws Hm). }
  destruct (mirror_cursor_ends m ds ws Hm) as (Hfirst & Hlast & Hprev).
  unfold ActuatorMirror.sync_once. rewrite Hc, Hro.
  assert (Hb : exists p1, begin_extension (m_projection m) (se_token env) = Ok p1).
  { pose proof (accepted_strip _ _ _ _ _ Ha) as Hs. unfold begin_extension.
    apply (f_equal p_transaction) in Hs. cbn [strip p_transaction] in Hs. rewrite <- Hs. by eexists. }
  destruct Hb as [p1 Hb]. rewrite Hb.
  destruct (append_rest ds _ ws qs q vs p1 _ Ha Hacc Hb) as (p2 & us & Hp & Hst & ->).
  cbv zeta. rewrite (local_cursor _ _ _ _ _ _ _ Hm). destruct Hw as (Hcl & Hw). rewrite Hcl.
  rewrite (fetch_complete (se_serve env) (ds ++ qs) (proj1 Hacc) Hfits Hheads Hhon p1 ds qs _ _ limit p2 us
    eq_refl Hlim Hfirst Hlast); [|..|exact Hp].
  2:{ intros r Hr. rewrite <- (Hprev r Hr). by rewrite <- (proj2 (begin_strip _ _ _ Hb)). }
  rewrite (append_remote_complete m ds ws qs us p1 p2 env Hm Hb Hp (conj Hcl Hw)).
  subst q. eexists. split; [reflexivity|]. cbn. by split_and!.
Qed.
End Honest.

(** ** A journal of one reservation, served one record per page *)

Definition first_record : list bytes := Eval vm_compute in take 1 sample_chain.

Lemma first_record_fits :
  fits crc32c_bitwise first_record
  /\ exists p v, accepted any_signature journal_key first_record p [v].
Proof.
  assert (H : (blen (Frames.journal_of crc32c_bitwise zero_hash first_record) <=? MAX_MIRROR_BYTES)
    && forallb (fun p => Z.of_nat (length p) <=? MIRROR_FRAME_PAYLOAD) first_record
    && match ActuatorRecords.append_all any_signature journal_key new_projection first_record with
       | Ok (_, [_]) => true | _ => false end = true) by (vm_cast_no_check (eq_refl true)).
  apply andb_true_iff in H as [[H1%Z.leb_le H2]%andb_true_iff H3]. split; [by split|].
  destruct (ActuatorRecords.append_all _ _ _ _) as [[p [|v [|]]]|] eqn:E; try discriminate H3.
  exists p, v. split; [|exact E].
  rewrite forallb_forall in H2. apply List.Forall_forall. intros x Hx. by apply Z.leb_le, H2.
Qed.

Definition page_bytes (n : nat) : bytes :=
  match canonical_json (JObj (page_dump (page_of crc32c_bitwise (take n first_record)
          (take 1 (drop n first_record)) (drop 1 (drop n first_record))))) with
  | Ok raw => raw | Err _ => [] end.

Definition one_record_response (n : nat) : http_response :=
  mkResponse 200 [(bstr "content-type", bstr "application/json")] (inl (page_bytes n)).

(** The digit after [after=] in the request *)
Definition requested (target : pystr) : nat :=
  match drop 26 target with c :: _ => Z.to_nat (c - 48) | [] => 0%nat end.

Definition sample_server (_ : list pystr) (target : pystr) : reply :=
  Response (one_record_response (requested target)).

Definition sample_pages_ok : bool :=
  forallb (fun n =>
    is_ok (canonical_json (JObj (page_dump (page_of crc32c_bitwise (take n first_record)
      (take 1 (drop n first_record)) (drop 1 (drop n first_record))))))
    && (blen (page_bytes n) <=? MAX_PAGE_BYTES)
    && (bool_decide (n = 0%nat)
        || negb (bool_decide (Frames.chain_head crc32c_bitwise zero_hash (take n first_record) = zero_hash))))
    (seq 0 (S (length first_record))).

Lemma sample_pages : sample_pages_ok = true.
Proof. vm_cast_no_check (eq_refl true). Qed.

Lemma sample_page n :
  (n <= length first_record)%nat ->
  canonical_json (JObj (page_dump (page_of crc32c_bitwise (take n first_record)
    (take 1 (drop n first_record)) (drop 1 (drop n first_record))))) = Ok (page_bytes n)
  /\ blen (page_bytes n) <= MAX_PAGE_BYTES
  /\ (n <> 0%nat -> Frames.chain_head crc32c_bitwise zero_hash (take n first_record) <> zero_hash).
Proof.
  intros Hn. pose proof sample_pages as H. unfold sample_pages_ok in H. rewrite forallb_forall in H.
  specialize (H n ltac:(apply in_seq; lia)).
  apply andb_true_iff in H as [[H1 H2%Z.leb_le]%andb_true_iff H3]. split_and!.
  - unfold page_bytes in *. destruct (canonical_json _) as [raw|e]; [reflexivity|discriminate H1].
  - exact H2.
  - intros Hne. apply orb_true_iff in H3 as [H3%bool_decide_eq_true|H3]; [done|].
    by apply negb_true_iff, bool_decide_eq_false in H3.
Qed.

Lemma sample_heads : heads_ok crc32c_bitwise first_record.
Proof.
  intros ps [rest Hp] Hne.
  assert (Ep : ps = take (length ps) first_record) by (by rewrite Hp, take_app_length).
  rewrite Ep. apply sample_page; [rewrite Hp, length_app; lia|]. by destruct ps.
Qed.

Lemma sample_answers past target ps tail limit :
  first_record = ps ++ tail -> requested target = length ps -> 1 <= limit ->
  answers sample_get_list crc32c_bitwise (sample_server past target) ps tail limit.
Proof.
  intros Ha Ht Hl.
  assert (Ep : take (length ps) first_record = ps) by (by rewrite Ha, take_app_length).
  assert (Ed : drop (length ps) first_record = tail) by (by rewrite Ha, drop_app_length).
  destruct (sample_page (length ps)) as (Hraw & Hb & _); [rewrite Ha, length_app; lia|].
  rewrite Ep, Ed in Hraw.
  exists (one_record_response (length ps)), (page_bytes (length ps)), (take 1 tail), (drop 1 tail).
  unfold sample_server. rewrite Ht. split; [reflexivity|]. split; [by split_and!|].
  split; [by rewrite take_drop|]. split; [rewrite length_take; lia|].
  split; [by destruct tail|]. split; [exact Hraw|exact Hb].
Qed.

Lemma sample_honest : honest sample_get_list crc32c_bitwise sample_server first_record.
Proof.
  split.
  - intros past. by apply sample_answers.
  - intros past ps tail limit Ha Hl. apply sample_answers; [exact Ha| |lia].
    assert (Hn : (length ps <= length first_record)%nat) by (rewrite Ha, length_app; lia).
    change (length first_record) with 1%nat in Hn.
    destruct ps as [|a [|b ps]]; cbn [length] in Hn |- *; try reflexivity. lia.
Qed.

Definition empty_mirror : ActuatorMirror :=
  mkMirror [] new_projection (mkMirrorSnapshot 0 0 ZERO_SHA256 [] [] []) false None false.

Definition sample_sync : sync_env :=
  mkSyncEnv 1000 1 false sample_server (Some (owner_file, owner_file)) Written
    (Some (owner_file, owner_file)).

Lemma sync_catches_up_witness : exists m',
  (sync_once sample_get_list crc32c_bitwise any_signature journal_key empty_mirror 100 sample_sync).1 = m'
  /\ m_file m' = Frames.journal_of crc32c_bitwise zero_hash first_record
  /\ ms_count (m_snapshot m') = 1.
Proof.
  destruct first_record_fits as (Hf & p & v & Ha).
  destruct (sync_catches_up sample_get_list crc32c_bitwise crc32c_bitwise_range any_signature journal_key
    empty_mirror [] first_record p [v] 100 sample_sync) as (m' & Hs & Hsn & _ & Hfile & _).
  - apply (run_open _ _ _ _ None sample_open (Some [])). reflexivity.
  - reflexivity.
  - reflexivity.
  - reflexivity.
  - exact Ha.
  - exact Hf.
  - exact sample_heads.
  - exact sample_honest.
  - split; [reflexivity|]. split; [reflexivity|].
    split; exists owner_file, owner_file; (split; reflexivity).
  - lia.
  - exists m'. rewrite Hs. split; [reflexivity|]. split; [exact Hfile|]. by rewrite Hsn.
Defined.
