(* ===== verification/PccContracts.v ===== *)
(** * The PCC contracts

    The correlation request, the retained trigger, the Docker networks, the
    boot-transition hops and the correlation snapshot of [contracts.py], as values with
    their validation, and the digests that bind them ([canonicaljson.py]).

    The models are frozen and strict, and an optional field is absent rather than null:
    a field that is not set is [None].  Literal fields with one value are not stored.
    [ipaddress] is modelled for both address families, since Docker networks may be
    IPv6. *)

From S2P Require Import Prelude Sha256 CanonicalJson JsonDecode Time Ipv4 Identities Contracts.
From S2P Require Import Candidates SpecialUse.
Local Open Scope Z_scope.
Local Open Scope agmind_scope.

(** ** IPv6 addresses *)

(** [_parse_hextet]: at most four hexadecimal digits of either case *)
Definition hextet_digit (c : Z) : option Z :=
  if is_digit c then Some (c - 48)
  else if (97 <=? c) && (c <=? 102) then Some (c - 87)
  else if (65 <=? c) && (c <=? 70) then Some (c - 55) else None.

Fixpoint hex_digits (acc : Z) (s : pystr) : option Z :=
  match s with
  | [] => Some acc
  | c :: s => d ← hextet_digit c; hex_digits (acc * 16 + d) s
  end.

Definition parse_hextet (s : pystr) : option Z :=
  if bool_decide (s = []) || bool_decide (4 < length s)%nat then None else hex_digits 0 s.

(** [int] over hextets, most significant first *)
Fixpoint hextets_value (acc : Z) (parts : list pystr) : option Z :=
  match parts with
  | [] => Some acc
  | s :: parts => h ← parse_hextet s; hextets_value (acc * 65536 + h) parts
  end.

(** ['%x' % n] *)
Fixpoint hex_text_from (fuel : nat) (n : Z) : pystr :=
  match fuel with
  | O => []
  | S fuel => if n <? 16 then [hex_char n] else hex_text_from fuel (n / 16) ++ [hex_char (n mod 16)]
  end.

Definition hex_text (n : Z) : pystr := hex_text_from 4 n.

(** The indices of the empty parts strictly inside the list *)
Definition skip_indices (parts : list pystr) : list nat :=
  List.filter (fun i => bool_decide (parts !! i = Some [])) (seq 1 (length parts - 2)).

(** [_ip_int_from_string] of [IPv6Address] *)
Definition ipv6_int (s : pystr) : option Z :=
  if bool_decide (s = []) then None
  else
    let parts := split_on 58 s in
    if bool_decide (length parts < 3)%nat then None
    else
      parts ← match last parts with
              | Some tail =>
                  if bool_decide (46 ∈ tail) then
                    v4 ← ipv4_of_text tail;
                    Some (take (length parts - 1) parts
                          ++ [hex_text (v4 / 65536); hex_text (v4 mod 65536)])
                  else Some parts
              | None => Some parts
              end;
      if bool_decide (9 < length parts)%nat then None
      else
        match skip_indices parts with
        | _ :: _ :: _ => None
        | [skip] =>
            let first_empty := bool_decide (head parts = Some []) in
            let last_empty := bool_decide (last parts = Some []) in
            let hi := if first_empty then (skip - 1)%nat else skip in
            let lo0 := (length parts - skip - 1)%nat in
            let lo := if last_empty then (lo0 - 1)%nat else lo0 in
            if (first_empty && negb (bool_decide (hi = 0%nat)))
               || (last_empty && negb (bool_decide (lo = 0%nat)))
               || bool_decide (8 <= hi + lo)%nat then None
            else
              high ← hextets_value 0 (take hi parts);
              hextets_value (high * 2 ^ (16 * Z.of_nat (8 - (hi + lo))))
                (drop (length parts - lo) parts)
        | [] =>
            if negb (bool_decide (length parts = 8%nat)) || bool_decide (head parts = Some [])
               || bool_decide (last parts = Some []) then None
            else hextets_value 0 parts
        end.

(** [_split_scope_id] *)
Definition split_scope (s : pystr) : option (pystr * option pystr) :=
  match split_on 37 s with
  | [addr] => Some (addr, None)
  | [addr; scope] => if bool_decide (scope = []) then None else Some (addr, Some scope)
  | _ => None
  end.

Record ipv6_address := mkV6 { v6_int : Z; v6_scope : option pystr }.

(** [IPv6Address(text)] *)
Definition ipv6_of_text (s : pystr) : option ipv6_address :=
  if bool_decide (47 ∈ s) then None
  else '(addr, scope) ← split_scope s; n ← ipv6_int addr; Some (mkV6 n scope).

(** [_string_from_ip_int]: eight hextets, the first longest run of two or more zero
    hextets written as [::] *)
Definition hextets (n : Z) : list Z :=
  map (fun i => n / 2 ^ (16 * Z.of_nat i) mod 65536) [7; 6; 5; 4; 3; 2; 1; 0]%nat.

Fixpoint zero_run (l : list Z) : nat :=
  match l with x :: l => if x =? 0 then S (zero_run l) else 0%nat | [] => 0%nat end.

(** The first position of the longest run of zeros, with its length *)
Fixpoint best_run (i : nat) (l : list Z) (best : nat * nat) : nat * nat :=
  match l with
  | [] => best
  | _ :: l' =>
      let r := zero_run l in
      best_run (S i) l' (if bool_decide (best.2 < r)%nat then (i, r) else best)
  end.

Fixpoint join_colon (ps : list pystr) : pystr :=
  match ps with
  | [] => []
  | [p] => p
  | p :: ps => p ++ [58] ++ join_colon ps
  end.

Definition compress_hextets (l : list Z) : pystr :=
  let '(start, len) := best_run 0 l (0%nat, 0%nat) in
  let texts := map hex_text l in
  if bool_decide (1 < len)%nat then
    let texts := take start texts ++ [[]] ++ drop (start + len) texts
                 ++ (if bool_decide ((start + len)%nat = length l) then [[]] else []) in
    join_colon ((if bool_decide (start = 0%nat) then [[]] else []) ++ texts)
  else join_colon texts.

Definition ipv6_text (a : ipv6_address) : pystr :=
  compress_hextets (hextets (v6_int a))
  ++ match v6_scope a with Some scope => [37] ++ scope | None => [] end.

(** [ipv4_mapped is not None] *)
Definition ipv4_mapped (a : ipv6_address) : bool := v6_int a / 2 ^ 32 =? 0xFFFF.

Record ipv6_network := mkNet6 { net6_address : ipv6_address; net6_prefixlen : Z }.

Definition netmask6 (prefixlen : Z) : Z := 2 ^ 128 - 2 ^ (128 - prefixlen).

(** [IPv6Network(text, strict=True)] *)
Definition ipv6_network_of_text (s : pystr) : option ipv6_network :=
  let make addr p :=
    a ← ipv6_of_text addr;
    if Z.land (v6_int a) (netmask6 p) =? v6_int a then Some (mkNet6 a p) else None in
  match split_on 47 s with
  | [addr] => make addr 128
  | [addr; mask] =>
      if negb (bool_decide (mask = [])) && forallb is_digit mask && (digits_value mask <=? 128)
      then make addr (digits_value mask) else None
  | _ => None
  end.

Definition ipv6_network_text (n : ipv6_network) : pystr :=
  ipv6_text (net6_address n) ++ [47] ++ str_of_int (net6_prefixlen n).

(** ** Either family *)

Inductive ip_address := V4Address (n : Z) | V6Address (a : ipv6_address).
Inductive ip_network := V4Network (n : ipv4_network) | V6Network (n : ipv6_network).

(** [ipaddress.ip_address] *)
Definition ip_address_of (s : pystr) : result py_exn ip_address :=
  match ipv4_of_text s with
  | Some n => Ok (V4Address n)
  | None => let* a := of_option ValueError (ipv6_of_text s) in Ok (V6Address a)
  end.

(** [ipaddress.ip_network(s, strict=True)] *)
Definition ip_network_of (s : pystr) : result py_exn ip_network :=
  match ipv4_network_of_text s with
  | Some n => Ok (V4Network n)
  | None => let* n := of_option ValueError (ipv6_network_of_text s) in Ok (V6Network n)
  end.

Definition ip_address_text (a : ip_address) : pystr :=
  match a with V4Address n => ipv4_text n | V6Address a => ipv6_text a end.

Definition ip_network_text (n : ip_network) : pystr :=
  match n with V4Network n => ipv4_network_text n | V6Network n => ipv6_network_text n end.

(** [_pcc_canonical_network] *)
Definition pcc_canonical_network (value : pystr) : result py_exn unit :=
  check (ascii_ok 64 1 value) ;;*
  let* network := ip_network_of value in
  check (match network with
         | V4Network _ => true
         | V6Network n => negb (ipv4_mapped (net6_address n))
         end) ;;*
  check (bool_decide (ip_network_text network = value)).

(** [_pcc_canonical_address] *)
Definition pcc_canonical_address (value : pystr) : result py_exn unit :=
  check (ascii_ok 64 1 value) ;;*
  let* address := ip_address_of value in
  check (match address with V4Address _ => true | V6Address a => negb (ipv4_mapped a) end) ;;*
  check (bool_decide (ip_address_text address = value)).

Fixpoint all_res (f : pystr -> result py_exn unit) (values : list pystr) : result py_exn unit :=
  match values with
  | [] => Ok tt
  | value :: values => f value ;;* all_res f values
  end.

(** [_pcc_network_tuple], [_pcc_address_tuple] *)
Definition pcc_network_tuple (values : list pystr) : result py_exn unit :=
  check (is_sorted_unique values) ;;* all_res pcc_canonical_network values.

Definition pcc_address_tuple (values : list pystr) : result py_exn unit :=
  check (is_sorted_unique values) ;;* all_res pcc_canonical_address values.

(** [_pcc_ipv4_network_tuple], [_pcc_ipv4_address_tuple] *)
Definition pcc_ipv4_network_tuple (values : list pystr) : bool :=
  is_sorted_unique values
  && forallb (fun value => ascii_ok 18 1 value && is_ok (canonical_ipv4_network value)) values.

Definition pcc_ipv4_address_tuple (values : list pystr) : bool :=
  is_sorted_unique values
  && forallb (fun value => ascii_ok 15 1 value && is_ok (canonical_ipv4_address value)) values.

(** [_pcc_ascii_tuple] *)
Definition pcc_ascii_tuple (values : list pystr) : bool :=
  is_sorted_unique values && forallb short_ascii values.

(** ** The narrow request *)

Record PCCCorrelationSnapshotRequestV1 := mkRequest {
  q_event_id : pystr; q_content_sha256 : pystr; q_sequence : Z; q_ttl : Z }.

Definition REQUEST_SCHEMA : pystr := u "agmind.pcc-correlation-snapshot-request.v1".

Definition request_validate (q : PCCCorrelationSnapshotRequestV1) : result py_exn unit :=
  check (EVENT_ID (q_event_id q) && HEX64 (q_content_sha256 q)
         && in_range 1 MAX_UINT64 (q_sequence q) && in_range 30 300 (q_ttl q)).

Definition request_dump (q : PCCCorrelationSnapshotRequestV1) : document :=
  [(u "schema_version", JStr REQUEST_SCHEMA); (u "trigger_event_id", JStr (q_event_id q));
   (u "trigger_content_sha256", JStr (q_content_sha256 q));
   (u "trigger_source_sequence", JInt (q_sequence q));
   (u "requested_ttl_seconds", JInt (q_ttl q))].

(** [pcc_correlation_request_sha256] *)
Definition pcc_correlation_request_sha256 (q : PCCCorrelationSnapshotRequestV1) : result py_exn pystr :=
  request_validate q ;;*
  let* canonical := canonical_json (JObj (request_dump q)) in
  Ok (sha256_hex canonical).

(** ** The retained trigger *)

Record PCCFalcoTriggerProjectionV1 := mkTrigger {
  t_event_id : pystr; t_content_sha256 : pystr; t_normalized_sha256 : pystr; t_sequence : Z;
  t_source_version : pystr; t_host_id : pystr; t_boot_id : pystr; t_event_time : pystr;
  t_ingest_time : pystr; t_clock_uncertainty_ms : Z; t_generation : Z; t_revision : Z;
  t_container_id : pystr; t_container_start : pystr; t_release_id : pystr; t_rawres : option Z;
  t_res : pystr; t_successful : bool; t_investigation : bool; t_image_id : pystr;
  t_repo_digests : list pystr; t_spec_sha256 : pystr; t_proc_name : option pystr;
  t_proc_exe : option pystr; t_proc_parent : option pystr; t_destination : pystr; t_port : Z;
  t_protocol : pystr; t_missing : list pystr; t_flags : list pystr; t_raw_sha256 : pystr }.

Definition SUCCESS_RESULTS : list pystr := map u ["EINPROGRESS"; "EINPROGRESS(115)"]%string.

Definition opt_utf8 (o : option pystr) : bool := opt_ok (utf8_ok 512 1) o.

(** Types, bounds and field validators *)
Definition trigger_fields_ok (t : PCCFalcoTriggerProjectionV1) : bool :=
  EVENT_ID (t_event_id t) && HEX64 (t_content_sha256 t) && HEX64 (t_normalized_sha256 t)
  && HEX64 (t_spec_sha256 t) && HEX64 (t_raw_sha256 t)
  && in_range 1 MAX_UINT64 (t_sequence t) && short_ascii (t_source_version t)
  && short_ascii (t_res t) && short_ascii (t_protocol t)
  && t_successful t && negb (t_investigation t)
  && UUID4 (t_host_id t) && UUID4 (t_boot_id t)
  && valid_timestamp (t_event_time t) && valid_timestamp (t_ingest_time t)
  && valid_timestamp (t_container_start t)
  && in_range 0 2000 (t_clock_uncertainty_ms t) && in_range 1 MAX_UINT64 (t_generation t)
  && in_range 1 MAX_UINT64 (t_revision t) && HEX64 (t_container_id t)
  && is_prefixed_hex "rel_" 32 (t_release_id t)
  && match t_rawres t with Some n => in_range MIN_INT64 MAX_INT64 n | None => true end
  && opt_utf8 (t_proc_name t) && opt_utf8 (t_proc_exe t) && opt_utf8 (t_proc_parent t)
  && is_prefixed_hex "sha256:" 64 (t_image_id t)
  && canonical_strings 16 256 (t_repo_digests t)
  && valid_ipv4 (t_destination t) && in_range 1 65535 (t_port t)
  && bool_decide (length (t_missing t) <= 32)%nat && pcc_ascii_tuple (t_missing t)
  && bool_decide (length (t_flags t) <= 64)%nat && pcc_ascii_tuple (t_flags t).

(** The result tuple describes a successful connect. *)
Definition result_valid (t : PCCFalcoTriggerProjectionV1) : bool :=
  if bool_decide (t_res t = u "SUCCESS") then
    match t_rawres t with Some n => 0 <=? n | None => false end
  else if bool_decide (t_res t ∈ SUCCESS_RESULTS) then
    match t_rawres t with Some n => n <? 0 | None => true end
  else false.

Definition present {A} (o : option A) : bool := match o with Some _ => true | None => false end.

(** [candidate_projection_is_self_consistent] *)
Definition candidate_projection_is_self_consistent (t : PCCFalcoTriggerProjectionV1)
  : result py_exn unit :=
  check (result_valid t) ;;*
  check (present (t_proc_name t) && present (t_proc_exe t) && present (t_proc_parent t)) ;;*
  check (bool_decide (t_missing t = [])) ;;*
  let* release := release_id (t_image_id t) (t_spec_sha256 t) in
  check (bool_decide (release = t_release_id t)).

Definition trigger_validate (t : PCCFalcoTriggerProjectionV1) : result py_exn unit :=
  check (trigger_fields_ok t) ;;* candidate_projection_is_self_consistent t.

Definition TRIGGER_SCHEMA : pystr := u "agmind.pcc-falco-trigger-projection.v1".

Definition strings (l : list pystr) : json := JArr (map JStr l).

Definition trigger_dump (t : PCCFalcoTriggerProjectionV1) : document := dump_of
  [(u "schema_version", Some (JStr TRIGGER_SCHEMA)); (u "event_id", Some (JStr (t_event_id t)));
   (u "content_sha256", Some (JStr (t_content_sha256 t)));
   (u "normalized_fields_sha256", Some (JStr (t_normalized_sha256 t)));
   (u "source_sequence", Some (JInt (t_sequence t)));
   (u "source_id", Some (JStr (u "agmind-observerd")));
   (u "source_version", Some (JStr (t_source_version t))); (u "host_id", Some (JStr (t_host_id t)));
   (u "boot_id", Some (JStr (t_boot_id t))); (u "event_time", Some (JStr (t_event_time t)));
   (u "ingest_time", Some (JStr (t_ingest_time t)));
   (u "clock_uncertainty_ms", Some (JInt (t_clock_uncertainty_ms t)));
   (u "inventory_generation", Some (JInt (t_generation t)));
   (u "inventory_revision", Some (JInt (t_revision t)));
   (u "container_id", Some (JStr (t_container_id t)));
   (u "container_start_time", Some (JStr (t_container_start t)));
   (u "release_id", Some (JStr (t_release_id t))); (u "detector_rule", Some (JStr DETECTOR_RULE));
   (u "detector_rule_version", Some (JStr DETECTOR_RULE_VERSION));
   (u "falco_version", Some (JStr (u "0.44.1"))); (u "evt_rawres", JInt <$> t_rawres t);
   (u "evt_res", Some (JStr (t_res t))); (u "successful_connect", Some (JBool (t_successful t)));
   (u "investigation_only", Some (JBool (t_investigation t)));
   (u "image_id", Some (JStr (t_image_id t))); (u "repo_digests", Some (strings (t_repo_digests t)));
   (u "immutable_spec_sha256", Some (JStr (t_spec_sha256 t)));
   (u "proc_name", JStr <$> t_proc_name t); (u "proc_exe_path", JStr <$> t_proc_exe t);
   (u "proc_parent_name", JStr <$> t_proc_parent t);
   (u "destination_ipv4", Some (JStr (t_destination t))); (u "destination_port", Some (JInt (t_port t)));
   (u "l4_protocol", Some (JStr (t_protocol t)));
   (u "missing_required_fields", Some (strings (t_missing t)));
   (u "coverage_flags", Some (strings (t_flags t)));
   (u "raw_event_sha256", Some (JStr (t_raw_sha256 t)))].

(** ** Docker networks *)

Record PCCDockerNetworkV1 := mkDockerNetwork {
  n_id : pystr; n_driver : pystr; n_subnets : list pystr; n_gateways : list pystr }.

Definition network_validate (n : PCCDockerNetworkV1) : result py_exn unit :=
  check (HEX64 (n_id n) && short_ascii (n_driver n)
         && bool_decide (length (n_subnets n) <= 32)%nat
         && bool_decide (length (n_gateways n) <= 32)%nat) ;;*
  pcc_network_tuple (n_subnets n) ;;* pcc_address_tuple (n_gateways n).

Definition network_dump (n : PCCDockerNetworkV1) : document :=
  [(u "network_id", JStr (n_id n)); (u "driver", JStr (n_driver n));
   (u "subnet_cidrs", strings (n_subnets n)); (u "gateway_addresses", strings (n_gateways n))].

Definition networks_json (ns : list PCCDockerNetworkV1) : json :=
  JArr (map (fun n => JObj (network_dump n)) ns).

Definition total (f : PCCDockerNetworkV1 -> list pystr) (ns : list PCCDockerNetworkV1) : nat :=
  foldr (fun n acc => (length (f n) + acc)%nat) 0%nat ns.

Definition MAX_DOCKER_NETWORK_BYTES : Z := 16 * 1024.

(** [docker_networks_are_canonical], and the same bounds of the digest *)
Definition docker_networks_ok (ns : list PCCDockerNetworkV1) : bool :=
  bool_decide (length ns <= 64)%nat && is_sorted_unique (map n_id ns)
  && bool_decide (total n_subnets ns <= 128)%nat && bool_decide (total n_gateways ns <= 128)%nat.

Fixpoint all_networks (ns : list PCCDockerNetworkV1) : result py_exn unit :=
  match ns with
  | [] => Ok tt
  | n :: ns => network_validate n ;;* all_networks ns
  end.

(** [pcc_docker_network_snapshot_sha256] *)
Definition pcc_docker_network_snapshot_sha256 (ns : list PCCDockerNetworkV1) : result py_exn pystr :=
  check (bool_decide (length ns <= 64)%nat) ;;*
  all_networks ns ;;*
  check (docker_networks_ok ns) ;;*
  let* canonical := canonical_json (networks_json ns) in
  check (Z.of_nat (length canonical) <=? MAX_DOCKER_NETWORK_BYTES) ;;*
  Ok (sha256_hex (bstr "AGMIND_DOCKER_NETWORK_SNAPSHOT_V1" ++ NUL ++ canonical)).

(** ** Boot transitions *)

Inductive boundary_type := BootBoundary | KeyTransition | KeyEpochStart.

#[export] Instance boundary_type_eq_dec : EqDecision boundary_type.
Proof. solve_decision. Defined.

Definition boundary_text (b : boundary_type) : pystr :=
  match b with
  | BootBoundary => u "observer_boot_boundary"
  | KeyTransition => u "observer_key_transition"
  | KeyEpochStart => u "observer_key_epoch_start"
  end.

(** The five companion fields, present or absent together in every valid hop *)
Record companion := mkCompanion {
  co_type : option boundary_type; co_event_id : option pystr; co_content_sha256 : option pystr;
  co_sequence : option Z; co_boot_id : option pystr }.

Record PCCBootTransitionHopV1 := mkHop {
  h_type : boundary_type; h_event_id : pystr; h_content_sha256 : pystr; h_sequence : Z;
  h_boot_id : pystr; h_previous_boot_id : pystr; h_previous_sequence : Z; h_companion : companion }.

Definition hop_fields_ok (h : PCCBootTransitionHopV1) : bool :=
  let c := h_companion h in
  EVENT_ID (h_event_id h) && HEX64 (h_content_sha256 h) && in_range 1 MAX_UINT64 (h_sequence h)
  && UUID4 (h_boot_id h) && UUID4 (h_previous_boot_id h)
  && in_range 0 MAX_UINT64 (h_previous_sequence h)
  && negb (bool_decide (co_type c = Some BootBoundary))
  && opt_ok EVENT_ID (co_event_id c) && opt_ok HEX64 (co_content_sha256 c)
  && match co_sequence c with Some n => in_range 1 MAX_UINT64 n | None => true end
  && opt_ok UUID4 (co_boot_id c).

Definition companion_present (c : companion) : list bool :=
  [present (co_type c); present (co_event_id c); present (co_content_sha256 c);
   present (co_sequence c); present (co_boot_id c)].

(** [boundary_and_rotation_pair_are_exact] *)
Definition boundary_and_rotation_pair_are_exact (h : PCCBootTransitionHopV1) : bool :=
  let c := h_companion h in
  negb (bool_decide (h_boot_id h = h_previous_boot_id h))
  && (h_previous_sequence h <? h_sequence h)
  && match h_type h with
     | BootBoundary => negb (existsb id (companion_present c))
     | KeyTransition =>
         forallb id (companion_present c)
         && negb (bool_decide (co_event_id c = Some (h_event_id h)))
         && bool_decide (co_type c = Some KeyEpochStart)
         && bool_decide (co_sequence c = Some (h_sequence h + 1))
         && bool_decide (co_boot_id c = Some (h_boot_id h))
     | KeyEpochStart =>
         forallb id (companion_present c)
         && negb (bool_decide (co_event_id c = Some (h_event_id h)))
         && bool_decide (co_type c = Some KeyTransition)
         && match co_sequence c with Some n => n + 1 =? h_sequence h | None => false end
         && bool_decide (co_boot_id c = Some (h_previous_boot_id h))
     end.

Definition hop_validate (h : PCCBootTransitionHopV1) : bool :=
  hop_fields_ok h && boundary_and_rotation_pair_are_exact h.

Definition hop_dump (h : PCCBootTransitionHopV1) : document :=
  let c := h_companion h in dump_of
  [(u "boundary_event_type", Some (JStr (boundary_text (h_type h))));
   (u "event_id", Some (JStr (h_event_id h))); (u "content_sha256", Some (JStr (h_content_sha256 h)));
   (u "source_sequence", Some (JInt (h_sequence h))); (u "boot_id", Some (JStr (h_boot_id h)));
   (u "previous_boot_id", Some (JStr (h_previous_boot_id h)));
   (u "previous_source_sequence", Some (JInt (h_previous_sequence h)));
   (u "rotation_companion_event_type", (fun b => JStr (boundary_text b)) <$> co_type c);
   (u "rotation_companion_event_id", JStr <$> co_event_id c);
   (u "rotation_companion_content_sha256", JStr <$> co_content_sha256 c);
   (u "rotation_companion_source_sequence", JInt <$> co_sequence c);
   (u "rotation_companion_boot_id", JStr <$> co_boot_id c)].

(** Where the prefix of the chain ends *)
Definition hop_end (h : PCCBootTransitionHopV1) : Z :=
  Z.max (h_sequence h) (default 0 (co_sequence (h_companion h))).

Definition hop_events (h : PCCBootTransitionHopV1) : list pystr :=
  h_event_id h :: option_list (co_event_id (h_companion h)).

(** The loop of [pcc_boot_transition_chain_sha256] *)
Fixpoint chain_ok (events boots : list pystr) (prior : option PCCBootTransitionHopV1)
    (hops : list PCCBootTransitionHopV1) : bool :=
  match hops with
  | [] => true
  | h :: hops =>
      forallb (fun e => negb (bool_decide (e ∈ events))) (hop_events h)
      && negb (bool_decide (h_boot_id h ∈ boots))
      && match prior with
         | None => true
         | Some p =>
             bool_decide (h_previous_boot_id h = h_boot_id p) && (hop_end p <? h_sequence h)
             && (hop_end p <=? h_previous_sequence h)
         end
      && chain_ok (events ++ hop_events h) (boots ++ [h_boot_id h]) (Some h) hops
  end.

Definition MAX_BOOT_TRANSITION_HOPS : nat := N.to_nat 1024.

(** [pcc_boot_transition_chain_sha256] *)
Definition pcc_boot_transition_chain_sha256 (hops : list PCCBootTransitionHopV1) : result py_exn pystr :=
  match hops with
  | [] => Err ValueError
  | first :: _ =>
      check (bool_decide (length hops <= MAX_BOOT_TRANSITION_HOPS)%nat) ;;*
      check (forallb hop_validate hops) ;;*
      check (chain_ok [] [h_previous_boot_id first] None hops) ;;*
      let* canonical := canonical_json (JArr (map (fun h => JObj (hop_dump h)) hops)) in
      Ok (sha256_hex (bstr "AGMIND_BOOT_TRANSITION_CHAIN_V1" ++ NUL ++ canonical))
  end.

(** ** The correlation snapshot *)

Inductive pcc_outcome := Complete | Failed.

#[export] Instance pcc_outcome_eq_dec : EqDecision pcc_outcome.
Proof. solve_decision. Defined.

Record PCCCorrelationSnapshotV1 := mkPcc {
  s_outcome : pcc_outcome; s_request_sha256 : pystr; s_trigger : PCCFalcoTriggerProjectionV1;
  s_decision_time : pystr; s_detector_sha256 : option pystr; s_ttl : Z;
  s_registry_sha256 : option pystr; s_operator_networks : option (list pystr);
  s_operator_addresses : option (list pystr); s_operator_sha256 : option pystr;
  s_management_networks : option (list pystr); s_management_addresses : option (list pystr);
  s_management_sha256 : option pystr; s_networks : option (list PCCDockerNetworkV1);
  s_network_sha256 : option pystr; s_container_id : option pystr; s_started_at : option pystr;
  s_image_id : option pystr; s_repo_digests : option (list pystr); s_spec_sha256 : option pystr;
  s_generation : option Z; s_revision : option Z; s_observed_at : option pystr;
  s_network_mode : option pystr; s_network_driver : option pystr; s_privileged : option bool;
  s_cap_add : option (list pystr); s_cap_drop : option (list pystr);
  s_effective_net_admin : option bool; s_running : option bool;
  s_failure_reasons : option (list pystr); s_coverage_through : Z; s_hop_count : option Z;
  s_chain_sha256 : option pystr }.

Definition PCC_FAILURE_REASONS : list pystr := map u
  ["mutation_read_only"; "reconcile_required"; "docker_reconcile_gap"; "routine_drop_pending";
   "inventory_stale"; "docker_network_snapshot_unavailable"; "docker_network_snapshot_overflow";
   "detector_bundle_unavailable"; "special_use_registry_unavailable";
   "operator_denylist_unavailable"; "management_denylist_unavailable"; "container_not_running";
   "container_identity_changed"; "observer_boot_changed"]%string.

Definition opt_sat {A} (p : A -> bool) (o : option A) : bool :=
  match o with Some x => p x | None => true end.

(** [decision_time_is_microsecond_exact]: at most six digits after the point *)
Definition microsecond_exact (value : pystr) : bool :=
  valid_timestamp value
  && match split_on 46 value with [_; rest] => bool_decide (length rest <= 7)%nat | _ => true end.

(** Types, bounds and field validators *)
Definition snapshot_fields_ok (s : PCCCorrelationSnapshotV1) : bool :=
  HEX64 (s_request_sha256 s) && microsecond_exact (s_decision_time s)
  && opt_ok HEX64 (s_detector_sha256 s) && in_range 30 300 (s_ttl s)
  && opt_sat (fun h => bool_decide (h = PCC_SPECIAL_USE_REGISTRY_SHA256)) (s_registry_sha256 s)
  && opt_sat (fun l => bool_decide (length l <= 128)%nat && pcc_ipv4_network_tuple l)
       (s_operator_networks s)
  && opt_sat (fun l => bool_decide (length l <= 128)%nat && pcc_ipv4_address_tuple l)
       (s_operator_addresses s)
  && opt_ok HEX64 (s_operator_sha256 s)
  && opt_sat (fun l => bool_decide (length l <= 128)%nat && pcc_ipv4_network_tuple l)
       (s_management_networks s)
  && opt_sat (fun l => bool_decide (length l <= 128)%nat && pcc_ipv4_address_tuple l)
       (s_management_addresses s)
  && opt_ok HEX64 (s_management_sha256 s)
  && opt_sat (fun ns => is_ok (all_networks ns) && docker_networks_ok ns) (s_networks s)
  && opt_ok HEX64 (s_network_sha256 s) && opt_ok HEX64 (s_container_id s)
  && opt_ok valid_timestamp (s_started_at s) && opt_ok (is_prefixed_hex "sha256:" 64) (s_image_id s)
  && opt_sat (canonical_strings 16 256) (s_repo_digests s) && opt_ok HEX64 (s_spec_sha256 s)
  && opt_sat (in_range 1 MAX_UINT64) (s_generation s)
  && opt_sat (in_range 1 MAX_UINT64) (s_revision s) && opt_ok valid_timestamp (s_observed_at s)
  && opt_ok (ascii_ok 128 1) (s_network_mode s) && opt_ok short_ascii (s_network_driver s)
  && opt_sat (fun l => bool_decide (length l <= 128)%nat && pcc_ascii_tuple l) (s_cap_add s)
  && opt_sat (fun l => bool_decide (length l <= 128)%nat && pcc_ascii_tuple l) (s_cap_drop s)
  && opt_sat (fun l => negb (bool_decide (l = []))
                       && forallb (fun r => bool_decide (r ∈ PCC_FAILURE_REASONS)) l
                       && is_sorted_unique l) (s_failure_reasons s)
  && in_range 1 MAX_UINT64 (s_coverage_through s) && opt_sat (in_range 1 1024) (s_hop_count s)
  && opt_ok HEX64 (s_chain_sha256 s).

(** Which of the fields of [_PCC_COMPLETE_FIELDS] are set *)
Definition complete_fields (s : PCCCorrelationSnapshotV1) : list bool :=
  [present (s_detector_sha256 s); present (s_registry_sha256 s); present (s_operator_networks s);
   present (s_operator_addresses s); present (s_operator_sha256 s);
   present (s_management_networks s); present (s_management_addresses s);
   present (s_management_sha256 s); present (s_networks s); present (s_network_sha256 s);
   present (s_container_id s); present (s_started_at s); present (s_image_id s);
   present (s_repo_digests s); present (s_spec_sha256 s); present (s_generation s);
   present (s_revision s); present (s_observed_at s); present (s_network_mode s);
   present (s_network_driver s); present (s_privileged s); present (s_cap_add s);
   present (s_cap_drop s); present (s_effective_net_admin s); present (s_running s)].

Definition failed_fields (s : PCCCorrelationSnapshotV1) : list bool :=
  [present (s_failure_reasons s); present (s_hop_count s); present (s_chain_sha256 s)].

Definition snapshot_dump_pcc (s : PCCCorrelationSnapshotV1) : document := dump_of
  [(u "schema_version", Some (JStr (u "agmind.pcc-correlation-snapshot.v1")));
   (u "outcome", Some (JStr (match s_outcome s with Complete => u "complete" | Failed => u "failed" end)));
   (u "request_sha256", Some (JStr (s_request_sha256 s)));
   (u "trigger", Some (JObj (trigger_dump (s_trigger s))));
   (u "decision_time", Some (JStr (s_decision_time s)));
   (u "detector_bundle_sha256", JStr <$> s_detector_sha256 s);
   (u "requested_ttl_seconds", Some (JInt (s_ttl s)));
   (u "special_use_registry_sha256", JStr <$> s_registry_sha256 s);
   (u "operator_denied_networks", strings <$> s_operator_networks s);
   (u "operator_denied_addresses", strings <$> s_operator_addresses s);
   (u "operator_denylist_sha256", JStr <$> s_operator_sha256 s);
   (u "management_denied_networks", strings <$> s_management_networks s);
   (u "management_denied_addresses", strings <$> s_management_addresses s);
   (u "management_denylist_sha256", JStr <$> s_management_sha256 s);
   (u "docker_networks", networks_json <$> s_networks s);
   (u "docker_network_snapshot_sha256", JStr <$> s_network_sha256 s);
   (u "docker_container_id", JStr <$> s_container_id s);
   (u "docker_started_at", JStr <$> s_started_at s); (u "image_id", JStr <$> s_image_id s);
   (u "repo_digests", strings <$> s_repo_digests s);
   (u "immutable_spec_sha256", JStr <$> s_spec_sha256 s);
   (u "inventory_generation", JInt <$> s_generation s);
   (u "inventory_revision", JInt <$> s_revision s);
   (u "inventory_observed_at", JStr <$> s_observed_at s);
   (u "network_mode", JStr <$> s_network_mode s); (u "network_driver", JStr <$> s_network_driver s);
   (u "privileged", JBool <$> s_privileged s); (u "configured_cap_add", strings <$> s_cap_add s);
   (u "configured_cap_drop", strings <$> s_cap_drop s);
   (u "effective_cap_net_admin", JBool <$> s_effective_net_admin s);
   (u "running", JBool <$> s_running s); (u "failure_reasons", strings <$> s_failure_reasons s);
   (u "coverage_through_sequence", Some (JInt (s_coverage_through s)));
   (u "hard_limits_version", Some (JStr (u "pcc-hard-limits-v1")));
   (u "boot_transition_hop_count", JInt <$> s_hop_count s);
   (u "boot_transition_chain_sha256", JStr <$> s_chain_sha256 s)].

Definition MAX_COMPLETE_BYTES : Z := 24 * 1024.

(** The bindings of a complete snapshot: its digests, and the trigger's inventory *)
Definition complete_bindings (s : PCCCorrelationSnapshotV1) : result py_exn unit :=
  let t := s_trigger s in
  match s_operator_networks s, s_operator_addresses s, s_management_networks s,
        s_management_addresses s, s_networks s with
  | Some on, Some oa, Some mn, Some ma, Some ns =>
      let* operator := pcc_operator_denylist_sha256 on oa in
      check (bool_decide (s_operator_sha256 s = Some operator)) ;;*
      let* management := pcc_management_denylist_sha256 mn ma in
      check (bool_decide (s_management_sha256 s = Some management)) ;;*
      let* networks := pcc_docker_network_snapshot_sha256 ns in
      check (bool_decide (s_network_sha256 s = Some networks)) ;;*
      let* canonical := canonical_json (networks_json ns) in
      check (Z.of_nat (length canonical) <=? MAX_DOCKER_NETWORK_BYTES) ;;*
      check (bool_decide (s_container_id s = Some (t_container_id t))
             && bool_decide (s_started_at s = Some (t_container_start t))
             && bool_decide (s_image_id s = Some (t_image_id t))
             && bool_decide (s_repo_digests s = Some (t_repo_digests t))
             && bool_decide (s_spec_sha256 s = Some (t_spec_sha256 t))
             && bool_decide (s_generation s = Some (t_generation t))
             && bool_decide (s_revision s = Some (t_revision t))) ;;*
      let* normalized := canonical_json (JObj (snapshot_dump_pcc s)) in
      check (Z.of_nat (length normalized) <=? MAX_COMPLETE_BYTES)
  | _, _, _, _, _ => Err ValueError
  end.

(** The shape of a failed snapshot *)
Definition failed_shape (s : PCCCorrelationSnapshotV1) : result py_exn unit :=
  match s_failure_reasons s with
  | None => Err ValueError
  | Some reasons =>
      check (negb (existsb id (complete_fields s))) ;;*
      (if bool_decide (reasons = [u "observer_boot_changed"]) then
         check (present (s_hop_count s) && present (s_chain_sha256 s))
       else
         check (negb (bool_decide (u "observer_boot_changed" ∈ reasons))
                && negb (present (s_hop_count s)) && negb (present (s_chain_sha256 s)))) ;;*
      match s_chain_sha256 s with Some h => let* _ := fromhex h in Ok tt | None => Ok tt end
  end.

(** [outcome_and_cross_bindings_are_exact] *)
Definition outcome_and_cross_bindings_are_exact (s : PCCCorrelationSnapshotV1) : result py_exn unit :=
  let t := s_trigger s in
  let* request := pcc_correlation_request_sha256
    (mkRequest (t_event_id t) (t_content_sha256 t) (t_sequence t) (s_ttl s)) in
  check (bool_decide (request = s_request_sha256 s)) ;;*
  check (t_sequence t <=? s_coverage_through s) ;;*
  match s_outcome s with
  | Complete =>
      check (forallb id (complete_fields s) && negb (existsb id (failed_fields s))) ;;*
      complete_bindings s
  | Failed => failed_shape s
  end.

(** [PCCCorrelationSnapshotV1.model_validate(..., strict=True)] *)
Definition pcc_validate (s : PCCCorrelationSnapshotV1) : result py_exn unit :=
  trigger_validate (s_trigger s) ;;* check (snapshot_fields_ok s) ;;*
  outcome_and_cross_bindings_are_exact s.

(** ** Boot transition chains *)

(** Each hop continues the one before: it leaves the boot that one entered, after its
    last record. *)
Definition continues (p h : PCCBootTransitionHopV1) : Prop :=
  h_previous_boot_id h = h_boot_id p /\ hop_end p <= h_previous_sequence h < h_sequence h.

Fixpoint linked (p : PCCBootTransitionHopV1) (hops : list PCCBootTransitionHopV1) : Prop :=
  match hops with [] => True | h :: hops => continues p h /\ linked h hops end.

Lemma hop_events_nodup h : hop_validate h = true -> NoDup (hop_events h).
Proof.
  intros [_ H]%andb_true_iff. unfold boundary_and_rotation_pair_are_exact in H. cbv zeta in H.
  apply andb_true_iff in H as [_ H]. unfold hop_events.
  destruct (co_event_id (h_companion h)) as [e|] eqn:E; cbn [option_list]; [|apply NoDup_singleton].
  apply NoDup_cons. split; [|apply NoDup_singleton]. intros Heq%list_elem_of_singleton.
  unfold companion_present in H. rewrite E in H. destruct (h_type h); [cbn [existsb id present] in H|..].
  - by destruct (present _).
  - breflect. by rewrite Heq in *.
  - breflect. by rewrite Heq in *.
Qed.

Lemma hop_order h : hop_validate h = true -> h_previous_sequence h < h_sequence h.
Proof.
  intros [_ H]%andb_true_iff. unfold boundary_and_rotation_pair_are_exact in H. cbv zeta in H.
  apply andb_true_iff in H as [[_ H]%andb_true_iff _]. by apply Z.ltb_lt in H.
Qed.

(** The loop of the chain check, with what it has seen *)
Lemma chain_sound hops : forall events boots prior,
  forallb hop_validate hops = true -> chain_ok events boots prior hops = true -> NoDup events -> NoDup boots ->
  NoDup (events ++ concat (map hop_events hops)) /\ NoDup (boots ++ map h_boot_id hops)
  /\ match prior with Some p => linked p hops | None => match hops with [] => True | h :: t => linked h t end end.
Proof.
  induction hops as [|h hops IH]; intros events boots prior Hv H Ne Nb.
  { cbn. rewrite !app_nil_r. split_and!; try done. by destruct prior. }
  cbn [forallb] in Hv. apply andb_true_iff in Hv as [Hh Hv]. cbn [chain_ok] in H.
  apply andb_true_iff in H as [H Hrest]. apply andb_true_iff in H as [H Hp].
  apply andb_true_iff in H as [He Hb]. apply negb_true_iff, bool_decide_eq_false in Hb.
  destruct (IH _ _ _ Hv Hrest) as (E & B & L).
  - apply NoDup_app. split; [done|]. split; [|by apply hop_events_nodup]. intros e Hin1 Hin2.
    rewrite forallb_forall in He. apply list_elem_of_In in Hin2. specialize (He e Hin2).
    by apply negb_true_iff, bool_decide_eq_false in He.
  - apply NoDup_app. split; [done|]. split; [|apply NoDup_singleton]. by intros b Hin ->%list_elem_of_singleton.
  - cbn [map concat]. rewrite <- app_assoc in E, B. split; [exact E|]. split; [exact B|].
    destruct prior as [p|]; [|exact L]. split; [|exact L]. apply andb_true_iff in Hp as [[Hp _]%andb_true_iff Hq].
    apply bool_decide_eq_true in Hp. apply Z.leb_le in Hq. pose proof (hop_order h Hh). done.
Qed.

(** C28: an accepted chain of boot transitions is a real history: not empty and at most 1024
    hops, every boundary and rotation event distinct, no boot entered twice or re-entered,
    each hop leaving the boot the previous one entered and strictly after its last record. *)
Theorem boot_chain_is_history hops digest :
  pcc_boot_transition_chain_sha256 hops = Ok digest ->
  exists first rest, hops = first :: rest /\ (length hops <= MAX_BOOT_TRANSITION_HOPS)%nat
    /\ NoDup (concat (map hop_events hops)) /\ NoDup (h_previous_boot_id first :: map h_boot_id hops)
    /\ linked first rest.
Proof.
  destruct hops as [|first rest]; [done|]. unfold pcc_boot_transition_chain_sha256. intros H.
  apply rbind_ok in H as (u1 & Hl%guard_ok%bool_decide_eq_true & H).
  apply rbind_ok in H as (u2 & Hv%guard_ok & H). apply rbind_ok in H as (u3 & Hc%guard_ok & _).
  destruct (chain_sound _ _ _ _ Hv Hc) as (E & B & L); [apply NoDup_nil; done|apply NoDup_singleton|].
  exists first, rest. by split_and!.
Qed.

Definition sample_hops : list PCCBootTransitionHopV1 :=
  let boot n := u (String (Ascii.ascii_of_nat (48 + n)) "2222222-2222-4222-8222-222222222222")%string in
  let event n := u "evt_" ++ sha256_hex [byte_of n] in
  let digest n := sha256_hex [byte_of n] in
  [mkHop BootBoundary (event 1) (digest 2) 10 (boot 1%nat) (boot 0%nat) 9 (mkCompanion None None None None None);
   mkHop KeyTransition (event 3) (digest 4) 20 (boot 2%nat) (boot 1%nat) 15
     (mkCompanion (Some KeyEpochStart) (Some (event 5)) (Some (digest 6)) (Some 21) (Some (boot 2%nat)))].

Lemma boot_chain_is_history_witness : exists first rest,
  sample_hops = first :: rest /\ (length sample_hops <= MAX_BOOT_TRANSITION_HOPS)%nat
  /\ NoDup (concat (map hop_events sample_hops)) /\ NoDup (h_previous_boot_id first :: map h_boot_id sample_hops)
  /\ linked first rest.
Proof.
  assert (E : is_ok (pcc_boot_transition_chain_sha256 sample_hops) = true) by (vm_cast_no_check (eq_refl true)).
  destruct (pcc_boot_transition_chain_sha256 sample_hops) as [d|] eqn:H; [|discriminate E].
  apply (boot_chain_is_history _ _ H).
Defined.
