(* ===== verification/Correlation.v ===== *)
(** * The PCC correlation kernel

    [correlation/pcc.py] with [IncidentV1] of [incidents/models.py]: the pure,
    fail-closed reduction of one authenticated correlation snapshot and its local context
    to an incident, with a containment candidate, an existing candidate, or the reasons
    why there is none.

    Issuance of inputs and contexts (weak references, live fingerprints, deep copies) is
    not part of the model: the kernel is the deterministic function of values behind it. *)

From S2P Require Import Prelude Sha256 CanonicalJson JsonDecode Time Ipv4 Identities Contracts.
From S2P Require Import Candidates SpecialUse PccContracts.
Local Open Scope Z_scope.
Local Open Scope agmind_scope.

(** [CorrelationProjectionError], an exception of the standard library, a failed
    assertion or an inexact result *)
Inductive corr_exn := CorrelationProjectionError | CorrPyError (e : py_exn) | AssertionError.

Definition lift {A} (r : result py_exn A) : result corr_exn A := catch_with CorrPyError r.

(** ** Incidents *)

Record IncidentV1 := mkIncident {
  i_incident_id : pystr; i_primary_event_id : pystr; i_primary_sequence : Z; i_host_id : pystr;
  i_boot_id : pystr; i_detector_rule : pystr; i_detector_version : pystr; i_event_time : pystr;
  i_ingest_time : pystr; i_successful : bool; i_investigation : bool;
  i_container_id : option pystr; i_started_at : option pystr; i_proc_name : option pystr;
  i_proc_exe : option pystr; i_proc_parent : option pystr; i_destination : option pystr;
  i_port : option Z; i_protocol : option pystr; i_missing : list pystr; i_flags : list pystr;
  i_evidence_ids : list pystr; i_reasons : list pystr; i_authority_event_id : pystr }.

Definition CORRELATION_REASON_CODES : list pystr := map u
  ["detector_not_pinned"; "connect_not_successful"; "sensor_fields_incomplete";
   "authoritative_identity_incomplete"; "investigation_only"; "detector_bundle_not_pinned";
   "mutation_read_only"; "reconcile_required"; "docker_reconcile_gap"; "routine_drop_pending";
   "inventory_stale"; "docker_network_snapshot_unavailable"; "docker_network_snapshot_overflow";
   "detector_bundle_unavailable"; "special_use_registry_unavailable";
   "operator_denylist_unavailable"; "management_denylist_unavailable"; "container_not_running";
   "container_identity_changed"; "observer_boot_changed"; "event_stale"; "clock_uncertain";
   "historical_coverage_incomplete"; "critical_coverage_gap"; "correlation_proof_mismatch";
   "destination_not_public"; "docker_destination"; "operator_destination";
   "management_destination"; "target_not_running"; "shared_network_namespace";
   "unsupported_network_mode"; "unsupported_network_driver"; "privileged_target";
   "target_cap_net_admin"; "ttl_out_of_bounds"; "candidate_cooldown"]%string.

(** [_canonical_strings(..., ascii_only=True)] *)
Definition canonical_ascii (max_items : nat) (values : list pystr) : bool :=
  bool_decide (length values <= max_items)%nat && is_sorted_unique values
  && forallb short_ascii values.

(** Types, bounds and field validators of [IncidentV1] *)
Definition incident_fields_ok (i : IncidentV1) : bool :=
  is_prefixed_hex "inc_" 64 (i_incident_id i) && EVENT_ID (i_primary_event_id i)
  && EVENT_ID (i_authority_event_id i) && in_range 1 MAX_UINT64 (i_primary_sequence i)
  && UUID4 (i_host_id i) && UUID4 (i_boot_id i) && utf8_ok 512 1 (i_detector_rule i)
  && opt_utf8 (i_proc_name i) && opt_utf8 (i_proc_exe i) && opt_utf8 (i_proc_parent i)
  && short_ascii (i_detector_version i) && opt_ok short_ascii (i_protocol i)
  && valid_timestamp (i_event_time i) && valid_timestamp (i_ingest_time i)
  && opt_ok valid_timestamp (i_started_at i) && opt_ok HEX64 (i_container_id i)
  && opt_ok valid_ipv4 (i_destination i) && opt_sat (in_range 1 65535) (i_port i)
  && canonical_ascii 32 (i_missing i) && canonical_ascii 64 (i_flags i)
  && event_ids_ok 2 (i_evidence_ids i)
  && forallb (fun r => bool_decide (r ∈ CORRELATION_REASON_CODES)) (i_reasons i)
  && is_sorted_unique (i_reasons i).

(** [identity_and_authority_are_exact] *)
Definition identity_and_authority_are_exact (i : IncidentV1) : result py_exn unit :=
  let* incident := incident_id (i_primary_event_id i) in
  check (bool_decide (incident = i_incident_id i)) ;;*
  let expected :=
    if bool_decide (i_authority_event_id i = i_primary_event_id i) then [i_primary_event_id i]
    else sort_str [i_primary_event_id i; i_authority_event_id i] in
  check (bool_decide (i_evidence_ids i = expected)).

(** [IncidentV1.model_validate(..., strict=True)] *)
Definition incident_validate (i : IncidentV1) : result py_exn IncidentV1 :=
  check (incident_fields_ok i) ;;* identity_and_authority_are_exact i ;;* Ok i.

(** ** What the kernel is given *)

(** [AuthenticatedPCCInput], as far as the kernel reads it *)
Record AuthenticatedPCCInput := mkAuthenticated {
  a_host_id : pystr; a_boot_id : pystr; a_event_id : pystr; a_snapshot : PCCCorrelationSnapshotV1 }.

Record CandidateDuplicateKey := mkKey {
  k_host_id : pystr; k_boot_id : pystr; k_container_id : pystr; k_started_at : pystr;
  k_detector_sha256 : pystr; k_destination : pystr }.

#[export] Instance key_eq_dec : EqDecision CandidateDuplicateKey.
Proof. solve_decision. Defined.

(** [CandidateDuplicateKey.__post_init__] *)
Definition key_validate (k : CandidateDuplicateKey) : result py_exn CandidateDuplicateKey :=
  check (UUID4 (k_host_id k) && UUID4 (k_boot_id k) && HEX64 (k_container_id k)) ;;*
  let* _ := parse_rfc3339nano_utc_ns (k_started_at k) in
  check (HEX64 (k_detector_sha256 k) && is_ok (canonical_ipv4_address (k_destination k))) ;;* Ok k.

Record HistoricalCoverageAssessment := mkAssessment {
  v_host_id : pystr; v_boot_id : pystr; v_trigger_event_id : pystr; v_trigger_sequence : Z;
  v_through_sequence : Z; v_window_start : option pystr; v_window_end : pystr; v_complete : bool;
  v_critical_gap : bool; v_snapshot_sha256 : option pystr }.

(** [HistoricalCoverageAssessment.__post_init__] *)
Definition assessment_validate (v : HistoricalCoverageAssessment) : result py_exn unit :=
  check (UUID4 (v_host_id v) && UUID4 (v_boot_id v) && EVENT_ID (v_trigger_event_id v)
         && in_range 1 MAX_UINT64 (v_trigger_sequence v)
         && in_range 1 MAX_UINT64 (v_through_sequence v)) ;;*
  let* start := parse_optional_ns (v_window_start v) in
  let* stop := parse_rfc3339nano_utc_ns (v_window_end v) in
  check (negb (v_complete v && negb (present start))
         && negb (v_complete v && match start with Some s => stop <? s | None => false end)) ;;*
  if v_complete v then check (match v_snapshot_sha256 v with Some h => HEX64 h | None => false end)
  else check (negb (v_critical_gap v) && negb (present (v_snapshot_sha256 v))).

Record ActiveCandidateObservation := mkActive {
  ac_key : CandidateDuplicateKey; ac_candidate_id : pystr; ac_sequence : Z; ac_event_id : pystr }.

Inductive terminal_state :=
  TVerified | TExpired | TStaleAbort | TRejected | TFailedDirty | TExpiredUnapplied.

Record TerminalCandidateObservation := mkTerminal {
  te_key : CandidateDuplicateKey; te_candidate_id : pystr; te_state : terminal_state;
  te_terminal_at : pystr }.

(** [CorrelationContext]: raw authority, or the authority-free context of failed
    snapshots *)
Record raw_context := mkRaw {
  x_pinned_detector : pystr; x_registry : ParsedSpecialUseRegistry;
  x_coverage : HistoricalCoverageAssessment; x_lookup : CandidateDuplicateKey;
  x_active : option ActiveCandidateObservation; x_terminal : option TerminalCandidateObservation }.

Inductive CorrelationContext := RawContext (x : raw_context) | FailedOnly.

Inductive CorrelationResult :=
| CandidateCreated (incident : IncidentV1) (candidate : ContainmentCandidateV1)
| InvestigationOnly (incident : IncidentV1) (reasons : list pystr)
| Duplicate (incident : IncidentV1) (existing : pystr)
| Rejected (incident : IncidentV1) (reasons : list pystr).

(** ** The kernel *)

Definition MAX_TRIGGER_AGE_NS : Z := 30 * 1000000000.
Definition MAX_INVENTORY_AGE_NS : Z := 10 * 1000000000.
Definition COOLDOWN_NS : Z := 10 * 60 * 1000000000.

(** [_incident_from_snapshot] *)
Definition incident_from_snapshot (s : PCCCorrelationSnapshotV1) (authority : pystr)
    (reasons : list pystr) : result py_exn IncidentV1 :=
  let t := s_trigger s in
  let* identifier := incident_id (t_event_id t) in
  incident_validate (mkIncident identifier (t_event_id t) (t_sequence t) (t_host_id t)
    (t_boot_id t) DETECTOR_RULE DETECTOR_RULE_VERSION (t_event_time t) (t_ingest_time t)
    (t_successful t) (t_investigation t) (Some (t_container_id t)) (Some (t_container_start t))
    (t_proc_name t) (t_proc_exe t) (t_proc_parent t) (Some (t_destination t)) (Some (t_port t))
    (Some (t_protocol t)) (t_missing t) (t_flags t) (sort_str [t_event_id t; authority]) reasons
    authority).

(** [_incident] *)
Definition incident (a : AuthenticatedPCCInput) (reasons : list pystr) : result corr_exn IncidentV1 :=
  lift (incident_from_snapshot (a_snapshot a) (a_event_id a) reasons).

(** [_rejected], with the check of [Rejected.__post_init__] *)
Definition rejected (a : AuthenticatedPCCInput) (reasons : list pystr)
  : result corr_exn CorrelationResult :=
  let* i := incident a reasons in
  guard (negb (bool_decide (reasons = []))) (CorrPyError TypeError) ;;* Ok (Rejected i reasons).

(** [_one_rejection] *)
Definition one_rejection (a : AuthenticatedPCCInput) (reason : string)
  : result corr_exn CorrelationResult := rejected a [u reason].

Definition investigation (a : AuthenticatedPCCInput) (reason : string)
  : result corr_exn CorrelationResult :=
  let* i := incident a [u reason] in Ok (InvestigationOnly i [u reason]).

(** [_duplicate_key] *)
Definition duplicate_key (a : AuthenticatedPCCInput) : result corr_exn CandidateDuplicateKey :=
  let s := a_snapshot a in
  match s_container_id s, s_started_at s, s_detector_sha256 s with
  | Some container, Some started, Some detector =>
      lift (key_validate (mkKey (a_host_id a) (a_boot_id a) container started detector
              (t_destination (s_trigger s))))
  | _, _, _ => Err CorrelationProjectionError
  end.

(** [any(...)] over fallible tests, left to right, stopping at the first success *)
Fixpoint any_res {A} (f : A -> result py_exn bool) (l : list A) : result py_exn bool :=
  match l with
  | [] => Ok false
  | x :: l => let* b := f x in if b then Ok true else any_res f l
  end.

(** [ipaddress.IPv4Address] and [ipaddress.IPv4Network(value, strict=True)] *)
Definition ipv4_value (s : pystr) : result py_exn Z := of_option ValueError (ipv4_of_text s).
Definition ipv4_net (s : pystr) : result py_exn ipv4_network :=
  of_option ValueError (ipv4_network_of_text s).

(** [_address_in_denies] *)
Definition address_in_denies (address : Z) (networks addresses : list pystr) : result py_exn bool :=
  let* exact := any_res (fun v => let* n := ipv4_value v in Ok (address =? n)) addresses in
  if exact then Ok true
  else any_res (fun v => let* n := ipv4_net v in Ok (in_network address n)) networks.

(** [_docker_destination] *)
Definition docker_destination (address : Z) (networks : list PCCDockerNetworkV1) : result py_exn bool :=
  any_res (fun n =>
    let* gateway := any_res (fun raw =>
      let* g := ip_address_of raw in
      Ok (match g with V4Address g => address =? g | V6Address _ => false end)) (n_gateways n) in
    if gateway then Ok true
    else any_res (fun raw =>
      let* net := ip_network_of raw in
      Ok (match net with V4Network net => in_network address net | V6Network _ => false end))
      (n_subnets n)) networks.

(** [str.casefold] on ASCII text, which the contract requires *)
Definition casefold (s : pystr) : pystr :=
  map (fun c => if (65 <=? c) && (c <=? 90) then c + 32 else c) s.

(** [_configured_net_admin] *)
Definition configured_net_admin (values : list pystr) : bool :=
  existsb (fun v => bool_decide (casefold v ∈ map u ["net_admin"; "cap_net_admin"; "all"]%string)) values.

(** [_coverage_binding_matches] *)
Definition coverage_binding_matches (a : AuthenticatedPCCInput) (v : HistoricalCoverageAssessment)
  : result py_exn bool :=
  let s := a_snapshot a in
  let t := s_trigger s in
  let* trigger_ns := parse_rfc3339nano_utc_ns (t_event_time t) in
  let expected := trigger_ns - t_clock_uncertainty_ms t * 1000000 in
  let* start_matches :=
    match v_window_start v with
    | None => Ok (expected <? MIN_TIMESTAMP_NS)
    | Some w => let* w := parse_rfc3339nano_utc_ns w in Ok (w =? expected)
    end in
  if negb (bool_decide (v_host_id v = a_host_id a) && bool_decide (v_boot_id v = a_boot_id a)
           && bool_decide (v_trigger_event_id v = t_event_id t)
           && (v_trigger_sequence v =? t_sequence t)
           && (v_through_sequence v =? s_coverage_through s) && start_matches) then Ok false
  else
    let* window_end := parse_rfc3339nano_utc_ns (v_window_end v) in
    let* decision := parse_rfc3339nano_utc_ns (s_decision_time s) in
    Ok (window_end =? decision).

(** [_candidate] *)
Definition candidate (a : AuthenticatedPCCInput) (v : HistoricalCoverageAssessment)
  : result corr_exn ContainmentCandidateV1 :=
  let s := a_snapshot a in
  let t := s_trigger s in
  match s_detector_sha256 s, s_container_id s, s_started_at s, s_image_id s, s_repo_digests s,
        s_spec_sha256 s, s_generation s, s_revision s, s_network_sha256 s, s_registry_sha256 s,
        s_operator_sha256 s, s_management_sha256 s, v_snapshot_sha256 v with
  | Some detector, Some container, Some started, Some image, Some repos, Some spec, Some generation,
    Some revision, Some network, Some registry, Some operator, Some management, Some coverage =>
      lift (
        let* identifier := candidate_id (t_event_id t) container started (t_destination t) detector in
        let* incident := incident_id (t_event_id t) in
        candidate_validate (mkCandidate identifier incident (a_host_id a) (a_boot_id a)
          (t_event_id t) (t_sequence t) (a_event_id a) container started image repos spec generation
          revision (t_destination t) (t_port t) (t_protocol t) (s_ttl s) detector coverage network
          registry operator management (sort_str [t_event_id t; a_event_id a]) (s_decision_time s)))
  | _, _, _, _, _, _, _, _, _, _, _, _, _ => Err CorrelationProjectionError
  end.

(** [age] within [0 .. limit] *)
Definition fresh (age limit : Z) : bool := (0 <=? age) && (age <=? limit).

(** The network stack the rule can act on *)
Definition network_rejection (s : PCCCorrelationSnapshotV1) : option string :=
  match s_network_mode s with
  | None => Some "unsupported_network_mode"%string
  | Some raw =>
      let mode := casefold raw in
      if bool_decide (mode = u "container") || bool_decide (u "container:" `prefix_of` mode)
      then Some "shared_network_namespace"%string
      else if bool_decide (mode ∈ map u ["host"; "none"]%string) then Some "unsupported_network_mode"%string
      else if bool_decide (casefold <$> s_network_driver s = Some (u "bridge")) then None
      else Some "unsupported_network_driver"%string
  end.

(** The checks of the target's runtime, in order *)
Definition target_rejection (s : PCCCorrelationSnapshotV1) : result corr_exn (option string) :=
  if negb (bool_decide (s_running s = Some true)) then Ok (Some "target_not_running"%string)
  else
    match network_rejection s with
    | Some reason => Ok (Some reason)
    | None =>
        if negb (bool_decide (s_privileged s = Some false)) then Ok (Some "privileged_target"%string)
        else
          let* caps := of_option AssertionError (s_cap_add s) in
          Ok (if configured_net_admin caps || negb (bool_decide (s_effective_net_admin s = Some false))
              then Some "target_cap_net_admin"%string
              else if negb ((30 <=? s_ttl s) && (s_ttl s <=? 300)) then Some "ttl_out_of_bounds"%string
              else None)
    end.

(** The checks of the destination, in order *)
Definition destination_rejection (s : PCCCorrelationSnapshotV1) (registry : ParsedSpecialUseRegistry)
  : result corr_exn (option string) :=
  let t := s_trigger s in
  let* destination := lift (ipv4_value (t_destination t)) in
  let* reachable := lift (is_globally_reachable registry (t_destination t)) in
  if negb reachable then Ok (Some "destination_not_public"%string)
  else
    let* networks := of_option AssertionError (s_networks s) in
    let* docker := lift (docker_destination destination networks) in
    if docker : bool then Ok (Some "docker_destination"%string)
    else
      let* on := of_option AssertionError (s_operator_networks s) in
      let* oa := of_option AssertionError (s_operator_addresses s) in
      let* operator := lift (address_in_denies destination on oa) in
      if operator : bool then Ok (Some "operator_destination"%string)
      else
        let* mn := of_option AssertionError (s_management_networks s) in
        let* ma := of_option AssertionError (s_management_addresses s) in
        let* management := lift (address_in_denies destination mn ma) in
        Ok (if management : bool then Some "management_destination"%string else None).

(** The freshness and coverage checks, in order *)
Definition time_rejection (a : AuthenticatedPCCInput) (x : raw_context) (decision : Z)
  : result corr_exn (option string) :=
  let s := a_snapshot a in
  let t := s_trigger s in
  let* event := lift (parse_rfc3339nano_utc_ns (t_event_time t)) in
  if negb (fresh (decision - event) MAX_TRIGGER_AGE_NS) then Ok (Some "event_stale"%string)
  else
    match s_observed_at s with
    | None => Ok (Some "authoritative_identity_incomplete"%string)
    | Some observed =>
        let* observed := lift (parse_rfc3339nano_utc_ns observed) in
        if negb (fresh (decision - observed) MAX_INVENTORY_AGE_NS) then Ok (Some "inventory_stale"%string)
        else if 2000 <? t_clock_uncertainty_ms t then Ok (Some "clock_uncertain"%string)
        else
          let v := x_coverage x in
          if negb (v_complete v) then Ok (Some "historical_coverage_incomplete"%string)
          else if v_critical_gap v then Ok (Some "critical_coverage_gap"%string)
          else
            let* matches := lift (coverage_binding_matches a v) in
            Ok (if negb matches || negb (present (v_snapshot_sha256 v))
                then Some "correlation_proof_mismatch"%string else None)
    end.

(** [(a, b) > (c, d)] for a sequence and an event ID *)
Definition order_after (n : Z) (e : pystr) (n' : Z) (e' : pystr) : bool :=
  (n' <? n) || ((n =? n') && str_ltb e' e).

(** An active candidate with the same key *)
Definition active_duplicate (a : AuthenticatedPCCInput) (key : CandidateDuplicateKey)
    (active : ActiveCandidateObservation) : result corr_exn CorrelationResult :=
  let t := s_trigger (a_snapshot a) in
  guard (bool_decide (ac_key active = key)) CorrelationProjectionError ;;*
  guard (negb (order_after (ac_sequence active) (ac_event_id active) (t_sequence t) (t_event_id t)))
    CorrelationProjectionError ;;*
  let* expected := lift (candidate_id (ac_event_id active) (k_container_id key) (k_started_at key)
    (k_destination key) (k_detector_sha256 key)) in
  guard (bool_decide (ac_candidate_id active = expected)) CorrelationProjectionError ;;*
  let* i := incident a [] in
  Ok (Duplicate i (ac_candidate_id active)).

(** Whether a terminal observation of the key is still cooling down *)
Definition cooling_down (key : CandidateDuplicateKey) (decision : Z)
    (terminal : option TerminalCandidateObservation) : result corr_exn bool :=
  match terminal with
  | None => Ok false
  | Some terminal =>
      guard (bool_decide (te_key terminal = key)) CorrelationProjectionError ;;*
      let* at_ns := lift (parse_rfc3339nano_utc_ns (te_terminal_at terminal)) in
      Ok (decision - at_ns <? COOLDOWN_NS)
  end.

(** [_correlate_pcc_values]; [registry_sha256] is the authority of the registry *)
Definition correlate_pcc_values (a : AuthenticatedPCCInput) (context : CorrelationContext)
    (registry_sha256 : pystr) : result corr_exn CorrelationResult :=
  let s := a_snapshot a in
  let t := s_trigger s in
  match s_outcome s with
  | Failed =>
      let* reasons := of_option CorrelationProjectionError (s_failure_reasons s) in rejected a reasons
  | Complete =>
      match context with
      | FailedOnly => one_rejection a "correlation_proof_mismatch"
      | RawContext x =>
          if negb (bool_decide (s_detector_sha256 s = Some (x_pinned_detector x))) then
            one_rejection a "detector_bundle_not_pinned"
          else if negb (t_successful t) then investigation a "connect_not_successful"
          else if negb (bool_decide (t_missing t = [])) then investigation a "sensor_fields_incomplete"
          else if t_investigation t then investigation a "investigation_only"
          else
            let* decision := lift (parse_rfc3339nano_utc_ns (s_decision_time s)) in
            let* late := time_rejection a x decision in
            match late with
            | Some reason => one_rejection a reason
            | None =>
                let* key := duplicate_key a in
                if negb (bool_decide (a_host_id a = t_host_id t) && bool_decide (a_boot_id a = t_boot_id t)
                         && bool_decide (x_lookup x = key)) then
                  one_rejection a "correlation_proof_mismatch"
                else if negb (bool_decide (s_registry_sha256 s = Some registry_sha256)) then
                  one_rejection a "correlation_proof_mismatch"
                else
                  let* denied := destination_rejection s (x_registry x) in
                  match denied with
                  | Some reason => one_rejection a reason
                  | None =>
                      let* unfit := target_rejection s in
                      match unfit with
                      | Some reason => one_rejection a reason
                      | None =>
                          match x_active x with
                          | Some active => active_duplicate a key active
                          | None =>
                              let* cooling := cooling_down key decision (x_terminal x) in
                              if cooling : bool then one_rejection a "candidate_cooldown"
                              else
                                let* c := candidate a (x_coverage x) in
                                let* i := incident a [] in
                                guard (bool_decide (i_incident_id i = c_incident_id c)
                                       && bool_decide (i_reasons i = []))
                                  (CorrPyError TypeError) ;;*
                                Ok (CandidateCreated i c)
                          end
                      end
                  end
            end
      end
  end.

(** [_validate_pcc_facts_binding] after its type checks, and [_correlate_pcc_facts]:
    the trigger must be the snapshot's own *)
Definition correlate_pcc_facts (t : PCCFalcoTriggerProjectionV1) (a : AuthenticatedPCCInput)
    (context : CorrelationContext) (registry_sha256 : pystr) : result corr_exn CorrelationResult :=
  let* x := lift (canonical_json (JObj (trigger_dump t))) in
  let* y := lift (canonical_json (JObj (trigger_dump (s_trigger (a_snapshot a))))) in
  guard (bool_decide (x = y)) (CorrPyError ValueError) ;;*
  correlate_pcc_values a context registry_sha256.

(** ** Direct incidents *)

(** The fields of a Falco event that a direct incident takes over *)
Record falco_facts := mkFalco {
  f_rule : pystr; f_rule_version : pystr; f_successful : bool; f_investigation : bool;
  f_missing : list pystr; f_container_id : option pystr; f_started_at : option pystr;
  f_proc_name : option pystr; f_proc_exe : option pystr; f_proc_parent : option pystr;
  f_destination : option pystr; f_port : option Z; f_protocol : option pystr }.

(** [_incident_from_frozen_falco] *)
Definition incident_from_frozen_falco (f : falco_facts) (event : pystr) (sequence : Z)
    (host boot event_time ingest_time : pystr) (flags : list pystr) : result py_exn IncidentV1 :=
  let* reason :=
    if negb (f_successful f) then Ok "connect_not_successful"%string
    else if negb (bool_decide (f_missing f = [])) then Ok "sensor_fields_incomplete"%string
    else if f_investigation f then Ok "investigation_only"%string
    else Err ValueError in
  let* identifier := incident_id event in
  incident_validate (mkIncident identifier event sequence host boot (f_rule f) (f_rule_version f)
    event_time ingest_time (f_successful f) (f_investigation f) (f_container_id f) (f_started_at f)
    (f_proc_name f) (f_proc_exe f) (f_proc_parent f) (f_destination f) (f_port f) (f_protocol f)
    (f_missing f) flags [event] [u reason] event).

(** ** What a created candidate guarantees *)

Lemma any_res_false {A} (f : A -> result py_exn bool) l :
  any_res f l = Ok false -> forall x, x ∈ l -> f x = Ok false.
Proof.
  induction l as [|y l IH]; intros H x Hx; [by apply elem_of_nil in Hx|]. cbn [any_res] in H.
  apply rbind_ok in H as (b & Hb & H). destruct b; [done|].
  apply elem_of_cons in Hx as [->|Hx]; [done|]. by apply IH.
Qed.

Lemma rejected_result a reasons r :
  rejected a reasons = Ok r -> exists i, r = Rejected i reasons /\ i_reasons i = reasons /\ reasons <> [].
Proof.
  unfold rejected, incident, incident_from_snapshot, incident_validate. intros H.
  apply rbind_ok in H as (i & Hi%catch_ok & H). apply rbind_ok in H as (u1 & Hn%guard_ok & H).
  injection H as <-. apply rbind_ok in Hi as (n & _ & Hi). apply rbind_ok in Hi as (u2 & _ & Hi).
  apply rbind_ok in Hi as (u3 & _ & Hi). injection Hi as <-.
  eexists. split; [reflexivity|]. split; [reflexivity|]. by apply negb_true_iff, bool_decide_eq_false in Hn.
Qed.

Lemma investigation_result a reason r :
  investigation a reason = Ok r -> exists i, r = InvestigationOnly i [u reason].
Proof. unfold investigation. intros H. apply rbind_ok in H as (i & _ & H). injection H as <-. by eexists. Qed.

Lemma active_result a key active r :
  active_duplicate a key active = Ok r -> exists i, r = Duplicate i (ac_candidate_id active).
Proof.
  unfold active_duplicate. intros H. apply rbind_ok in H as (u1 & _ & H). apply rbind_ok in H as (u2 & _ & H).
  apply rbind_ok in H as (e & _ & H). apply rbind_ok in H as (u3 & _ & H). apply rbind_ok in H as (i & _ & H).
  injection H as <-. by eexists.
Qed.

(** An address is denied by text lists when it equals a listed address or lies in a
    listed network. *)
Definition denied (address : Z) (networks addresses : list pystr) : Prop :=
  (exists v, v ∈ addresses /\ ipv4_of_text v = Some address)
  \/ exists v n, v ∈ networks /\ ipv4_network_of_text v = Some n /\ in_network address n = true.

Lemma denies_false address networks addresses :
  address_in_denies address networks addresses = Ok false -> ~ denied address networks addresses.
Proof.
  unfold address_in_denies. intros H. apply rbind_ok in H as (b & Ha & H). destruct b; [done|].
  intros [(v & Hv & Hn)|(v & n & Hv & Hn & Hin)].
  - pose proof (any_res_false _ _ Ha v Hv) as E. unfold ipv4_value in E. rewrite Hn in E. cbn in E.
    by rewrite Z.eqb_refl in E.
  - pose proof (any_res_false _ _ H v Hv) as E. unfold ipv4_net in E. rewrite Hn in E. cbn in E. congruence.
Qed.

(** The address is a gateway of a Docker network or lies in one of its subnets. *)
Definition docker_address (address : Z) (networks : list PCCDockerNetworkV1) : Prop :=
  exists n, n ∈ networks
    /\ ((exists v, v ∈ n_gateways n /\ ipv4_of_text v = Some address)
        \/ exists v net, v ∈ n_subnets n /\ ipv4_network_of_text v = Some net
             /\ in_network address net = true).

Lemma docker_false address networks :
  docker_destination address networks = Ok false -> ~ docker_address address networks.
Proof.
  unfold docker_destination. intros H (n & Hn & Hd). pose proof (any_res_false _ _ H n Hn) as E.
  cbv beta in E. apply rbind_ok in E as (g & Hg & E). destruct g; [done|].
  destruct Hd as [(v & Hv & Ha)|(v & net & Hv & Hnet & Hin)].
  - pose proof (any_res_false _ _ Hg v Hv) as F. unfold ip_address_of in F. rewrite Ha in F. cbn in F.
    by rewrite Z.eqb_refl in F.
  - pose proof (any_res_false _ _ E v Hv) as F. unfold ip_network_of in F. rewrite Hnet in F. cbn in F.
    congruence.
Qed.

(** The destination is public and outside Docker, the operator's and the management's
    ranges. *)
Record destination_safe (s : PCCCorrelationSnapshotV1) (registry : ParsedSpecialUseRegistry) : Prop :=
  mkDestinationSafe {
  ds_reachable : is_globally_reachable registry (t_destination (s_trigger s)) = Ok true;
  ds_address : exists address networks on oa mn ma,
    ipv4_of_text (t_destination (s_trigger s)) = Some address /\ s_networks s = Some networks
    /\ s_operator_networks s = Some on /\ s_operator_addresses s = Some oa
    /\ s_management_networks s = Some mn /\ s_management_addresses s = Some ma
    /\ ~ docker_address address networks /\ ~ denied address on oa /\ ~ denied address mn ma }.

Lemma destination_ok s registry :
  destination_rejection s registry = Ok None -> destination_safe s registry.
Proof.
  unfold destination_rejection, lift, ipv4_value. intros H.
  apply rbind_ok in H as (address & Ha%catch_ok%of_option_ok & H).
  apply rbind_ok in H as (reach & Hr%catch_ok & H). destruct reach; [|done]. cbn [negb] in H.
  apply rbind_ok in H as (ns & Hns%of_option_ok & H). apply rbind_ok in H as (d & Hd%catch_ok & H).
  destruct d; [done|]. apply rbind_ok in H as (on & Hon%of_option_ok & H).
  apply rbind_ok in H as (oa & Hoa%of_option_ok & H). apply rbind_ok in H as (o & Ho%catch_ok & H).
  destruct o; [done|]. apply rbind_ok in H as (mn & Hmn%of_option_ok & H).
  apply rbind_ok in H as (ma & Hma%of_option_ok & H). apply rbind_ok in H as (m & Hm%catch_ok & H).
  destruct m; [done|]. split; [exact Hr|]. exists address, ns, on, oa, mn, ma.
  split_and!; try done; [by apply docker_false|by apply denies_false..].
Qed.

(** The target runs unprivileged on a bridge of its own network namespace, without
    [NET_ADMIN], for a bounded time. *)
Record target_fit (s : PCCCorrelationSnapshotV1) : Prop := mkTargetFit {
  tf_running : s_running s = Some true; tf_privileged : s_privileged s = Some false;
  tf_effective : s_effective_net_admin s = Some false;
  tf_caps : exists caps, s_cap_add s = Some caps /\ configured_net_admin caps = false;
  tf_mode : exists mode, s_network_mode s = Some mode /\ casefold mode <> u "container"
    /\ ~ u "container:" `prefix_of` casefold mode /\ casefold mode <> u "host"
    /\ casefold mode <> u "none";
  tf_driver : casefold <$> s_network_driver s = Some (u "bridge");
  tf_ttl : 30 <= s_ttl s <= 300 }.

Lemma network_ok s :
  network_rejection s = None ->
  casefold <$> s_network_driver s = Some (u "bridge")
  /\ exists mode, s_network_mode s = Some mode /\ casefold mode <> u "container"
     /\ ~ u "container:" `prefix_of` casefold mode /\ casefold mode <> u "host"
     /\ casefold mode <> u "none".
Proof.
  unfold network_rejection. destruct (s_network_mode s) as [mode|]; [|done]. cbv zeta.
  destruct (bool_decide_reflect (casefold mode = u "container")) as [|H1]; [done|].
  destruct (bool_decide_reflect (u "container:" `prefix_of` casefold mode)) as [|H2]; [done|].
  destruct (bool_decide_reflect (casefold mode ∈ map u ["host"; "none"]%string)) as [|H3]; [done|].
  destruct (bool_decide_reflect (casefold <$> s_network_driver s = Some (u "bridge"))) as [H4|]; [|done].
  intros _. split; [done|]. exists mode. split_and!; try done.
  - intros E. apply H3. rewrite E. by left.
  - intros E. apply H3. rewrite E. right. by left.
Qed.

Lemma target_ok s : target_rejection s = Ok None -> target_fit s.
Proof.
  unfold target_rejection. intros H.
  destruct (bool_decide_reflect (s_running s = Some true)) as [Hr|]; [|done]. cbn [negb] in H.
  destruct (network_rejection s) as [|] eqn:En; [done|]. apply network_ok in En as [Hd Hm].
  destruct (bool_decide_reflect (s_privileged s = Some false)) as [Hp|]; [|done]. cbn [negb] in H.
  apply rbind_ok in H as (caps & Hc%of_option_ok & H).
  destruct (configured_net_admin caps) eqn:Ec; [done|].
  destruct (bool_decide_reflect (s_effective_net_admin s = Some false)) as [He|]; [|done]. cbn [negb orb] in H.
  destruct ((30 <=? s_ttl s) && (s_ttl s <=? 300)) eqn:Et; [|done]. breflect.
  split; try done; by exists caps.
Qed.

(** Trigger and inventory are fresh, and the historical coverage of the window is
    complete, without a critical gap and bound to this trigger. *)
Record timely (a : AuthenticatedPCCInput) (x : raw_context) (decision : Z) : Prop := mkTimely {
  ti_event : exists event, parse_rfc3339nano_utc_ns (t_event_time (s_trigger (a_snapshot a))) = Ok event
    /\ 0 <= decision - event <= MAX_TRIGGER_AGE_NS;
  ti_inventory : exists text observed, s_observed_at (a_snapshot a) = Some text
    /\ parse_rfc3339nano_utc_ns text = Ok observed /\ 0 <= decision - observed <= MAX_INVENTORY_AGE_NS;
  ti_clock : t_clock_uncertainty_ms (s_trigger (a_snapshot a)) <= 2000;
  ti_complete : v_complete (x_coverage x) = true; ti_gap : v_critical_gap (x_coverage x) = false;
  ti_bound : coverage_binding_matches a (x_coverage x) = Ok true }.

Lemma fresh_true age limit : fresh age limit = true -> 0 <= age <= limit.
Proof. unfold fresh. intros H. breflect. lia. Qed.

Lemma time_ok a x decision : time_rejection a x decision = Ok None -> timely a x decision.
Proof.
  unfold time_rejection, lift. intros H. apply rbind_ok in H as (event & He%catch_ok & H).
  destruct (fresh (decision - event) _) eqn:Hf; [|done]. cbn [negb] in H.
  destruct (s_observed_at (a_snapshot a)) as [text|] eqn:Et; [|done].
  apply rbind_ok in H as (observed & Ho%catch_ok & H).
  destruct (fresh (decision - observed) _) eqn:Hg; [|done]. cbn [negb] in H.
  destruct (2000 <? _) eqn:Hc; [done|]. apply Z.ltb_ge in Hc.
  destruct (v_complete (x_coverage x)) eqn:Hv; [|done]. cbn [negb] in H.
  destruct (v_critical_gap (x_coverage x)) eqn:Hq; [done|].
  apply rbind_ok in H as (m & Hm%catch_ok & H). destruct m; [|done].
  split; try done.
  - exists event. split; [exact He|by apply fresh_true].
  - exists text, observed. split; [done|]. split; [exact Ho|by apply fresh_true].
Qed.

(** Everything that holds when a candidate is created *)
Record candidate_conditions (a : AuthenticatedPCCInput) (x : raw_context) (registry_sha256 : pystr)
    (decision : Z) : Prop := mkConditions {
  cc_complete : s_outcome (a_snapshot a) = Complete;
  cc_decision : parse_rfc3339nano_utc_ns (s_decision_time (a_snapshot a)) = Ok decision;
  cc_pinned : s_detector_sha256 (a_snapshot a) = Some (x_pinned_detector x);
  cc_connect : t_successful (s_trigger (a_snapshot a)) = true
    /\ t_missing (s_trigger (a_snapshot a)) = [] /\ t_investigation (s_trigger (a_snapshot a)) = false;
  cc_timely : timely a x decision;
  cc_host : a_host_id a = t_host_id (s_trigger (a_snapshot a))
    /\ a_boot_id a = t_boot_id (s_trigger (a_snapshot a));
  cc_key : duplicate_key a = Ok (x_lookup x);
  cc_registry : s_registry_sha256 (a_snapshot a) = Some registry_sha256;
  cc_destination : destination_safe (a_snapshot a) (x_registry x);
  cc_target : target_fit (a_snapshot a);
  cc_active : x_active x = None;
  cc_cooldown : forall terminal, x_terminal x = Some terminal ->
    te_key terminal = x_lookup x
    /\ exists at_ns, parse_rfc3339nano_utc_ns (te_terminal_at terminal) = Ok at_ns
        /\ COOLDOWN_NS <= decision - at_ns }.

Lemma cooling_ok key decision terminal :
  cooling_down key decision terminal = Ok false ->
  forall t, terminal = Some t -> te_key t = key
    /\ exists at_ns, parse_rfc3339nano_utc_ns (te_terminal_at t) = Ok at_ns
        /\ COOLDOWN_NS <= decision - at_ns.
Proof.
  intros H t ->. cbn [cooling_down] in H. apply rbind_ok in H as (u1 & Hk%guard_ok%bool_decide_eq_true & H).
  unfold lift in H. apply rbind_ok in H as (n & Hn%catch_ok & H). injection H as H. apply Z.ltb_ge in H.
  split; [done|]. by exists n.
Qed.

Ltac no_candidate :=
  match goal with
  | H : one_rejection _ _ = Ok (CandidateCreated _ _) |- _ =>
      apply rejected_result in H as (? & ? & _); discriminate
  | H : rejected _ _ = Ok (CandidateCreated _ _) |- _ =>
      apply rejected_result in H as (? & ? & _); discriminate
  | H : investigation _ _ = Ok (CandidateCreated _ _) |- _ =>
      apply investigation_result in H as (? & ?); discriminate
  | H : active_duplicate _ _ _ = Ok (CandidateCreated _ _) |- _ =>
      apply active_result in H as (? & ?); discriminate
  end.

Lemma created_conditions a context registry_sha256 i c :
  correlate_pcc_values a context registry_sha256 = Ok (CandidateCreated i c) ->
  exists x decision, context = RawContext x /\ candidate_conditions a x registry_sha256 decision
    /\ candidate a (x_coverage x) = Ok c /\ incident a [] = Ok i.
Proof.
  unfold correlate_pcc_values. intros H. cbv zeta in H.
  destruct (s_outcome (a_snapshot a)) eqn:Ho;
    [|apply rbind_ok in H as (rs & _ & H); no_candidate].
  destruct context as [x|]; [|no_candidate].
  destruct (bool_decide_reflect (s_detector_sha256 (a_snapshot a) = Some (x_pinned_detector x)))
    as [Hd|]; cbn [negb] in H; [|no_candidate].
  destruct (t_successful _) eqn:Hs; cbn [negb] in H; [|no_candidate].
  destruct (bool_decide_reflect (t_missing (s_trigger (a_snapshot a)) = [])) as [Hm|];
    cbn [negb] in H; [|no_candidate].
  destruct (t_investigation _) eqn:Hi; [no_candidate|]. unfold lift in H.
  apply rbind_ok in H as (decision & Hdec%catch_ok & H). apply rbind_ok in H as (late & Ht & H).
  destruct late as [r|]; [no_candidate|]. apply time_ok in Ht.
  apply rbind_ok in H as (key & Hk & H).
  match type of H with (if negb ?b then _ else _) = _ => destruct b eqn:Hb end; cbn [negb] in H; [|no_candidate].
  apply andb_true_iff in Hb as [[Hh%bool_decide_eq_true Hbt%bool_decide_eq_true]%andb_true_iff
    Hl%bool_decide_eq_true].
  match type of H with (if negb (bool_decide ?P) then _ else _) = _ =>
    destruct (bool_decide_reflect P) as [Hreg|] end; cbn [negb] in H; [|no_candidate].
  apply rbind_ok in H as (den & Hdest & H). destruct den as [r|]; [no_candidate|].
  apply rbind_ok in H as (unfit & Htar & H). destruct unfit as [r|]; [no_candidate|].
  destruct (x_active x) as [act|] eqn:Ha; [no_candidate|].
  apply rbind_ok in H as (cool & Hc & H). destruct cool; [no_candidate|].
  apply rbind_ok in H as (c1 & Hcand & H). apply rbind_ok in H as (i1 & Hinc & H).
  apply rbind_ok in H as (u1 & _ & H). injection H as <- <-.
  exists x, decision. split; [reflexivity|]. split; [|by split].
  split; try done; [by subst key|by apply destination_ok|by apply target_ok|].
  subst key. by apply cooling_ok.
Qed.

(** ** Text of the contracts is ASCII *)

Definition is_ascii (s : pystr) : Prop := Forall (fun c => 0 <= c < 128) s.

Lemma ascii_bytes_total s : is_ascii s -> exists b, ascii_bytes s = Ok b.
Proof.
  intros H. unfold ascii_bytes, ascii_encode.
  assert (E : forallb (fun c => (0 <=? c) && (c <? 128)) s = true).
  { apply forallb_forall. intros c Hc. unfold is_ascii in H. rewrite List.Forall_forall in H.
    specialize (H c Hc). apply andb_true_iff. split; [apply Z.leb_le|apply Z.ltb_lt]; lia. }
  rewrite E. by eexists.
Qed.

Lemma literal_is_ascii s : forallb (fun c => (0 <=? c) && (c <? 128)) s = true -> is_ascii s.
Proof.
  intros H. rewrite forallb_forall in H. apply List.Forall_forall. intros c Hc. specialize (H c Hc). lia.
Qed.

Lemma is_hex_ascii n s : is_hex n s = true -> is_ascii s.
Proof.
  unfold is_hex. intros [_ H]%andb_true_iff. rewrite forallb_forall in H. apply List.Forall_forall.
  intros c Hc. specialize (H c Hc). unfold is_hex_lower in H. lia.
Qed.

Lemma prefixed_ascii prefix n s :
  is_ascii (u prefix) -> is_prefixed_hex prefix n s = true -> is_ascii s.
Proof.
  intros Hp. unfold is_prefixed_hex. intros [H1 H2]%andb_true_iff. apply bool_decide_eq_true in H1.
  rewrite <- (take_drop (length (u prefix)) s). apply Forall_app. split; [by rewrite H1|].
  by eapply is_hex_ascii.
Qed.

Lemma event_id_ascii s : EVENT_ID s = true -> is_ascii s.
Proof. apply prefixed_ascii. by apply literal_is_ascii. Qed.

Lemma digits_are_ascii s : Forall (fun c => is_digit c = true) s -> is_ascii s.
Proof. intros H. eapply Forall_impl; [exact H|]. intros c Hc. unfold is_digit in Hc. lia. Qed.

Lemma timestamp_ascii s : valid_timestamp s = true -> is_ascii s.
Proof.
  unfold valid_timestamp. destruct (parse_rfc3339nano_utc_ns s) as [ns|] eqn:E; [|done]. intros _.
  apply parse_spec in E as (m & (Hy & Hmo & Hd & Hh & Hmi & Hs & Hf) & -> & _).
  assert (F : is_ascii (fraction_text (m_fraction m))).
  { unfold fraction_text. destruct (m_fraction m) as [f|]; [|by apply literal_is_ascii].
    apply Forall_app. split; [by apply literal_is_ascii|]. apply Forall_app.
    split; [apply digits_are_ascii; apply Hf|by apply literal_is_ascii]. }
  unfold match_text.
  repeat (apply Forall_app; split); try exact F; try (by apply literal_is_ascii); apply digits_are_ascii;
    match goal with H : field_ok _ ?x |- Forall _ ?x => apply H end.
Qed.

Lemma ipv4_ascii s : valid_ipv4 s = true -> is_ascii s.
Proof.
  unfold valid_ipv4. destruct (canonical_ipv4_address s) as [n|] eqn:E; [|done]. intros _.
  unfold canonical_ipv4_address in E. apply rbind_ok in E as (a & _ & E).
  apply rbind_ok in E as (u1 & Ht%guard_ok%bool_decide_eq_true & _). rewrite <- Ht. unfold ipv4_text.
  assert (D : forall z, is_ascii (str_of_int (z mod 256))).
  { intros z. pose proof (Z.mod_pos_bound z 256 ltac:(lia)). unfold str_of_int.
    rewrite (proj2 (Z.ltb_ge _ _)) by lia. apply digits_are_ascii.
    by destruct (dec_nonneg_spec (z mod 256) ltac:(lia)) as (_ & Hd & _). }
  repeat (apply Forall_app; split); try apply D; by apply literal_is_ascii.
Qed.

(** ** The kernel returns *)

(** A conjunction of tests, as hypothesis and as goal *)
Ltac split_bools :=
  repeat match goal with H : andb _ _ = true |- _ => apply andb_true_iff in H as [? ?] end.
Ltac join_bools :=
  repeat match goal with |- andb _ _ = true => apply andb_true_iff; split end; try assumption.

Lemma prefixed_sha prefix m : is_prefixed_hex prefix 64 (u prefix ++ sha256_hex m) = true.
Proof.
  unfold is_prefixed_hex. rewrite take_app_length, drop_app_length, bool_decide_true by reflexivity.
  apply sha256_hex_is_hex.
Qed.

Lemma incident_id_total e : is_ascii e ->
  exists i, incident_id e = Ok i /\ is_prefixed_hex "inc_" 64 i = true.
Proof.
  intros (b & Hb)%ascii_bytes_total. unfold incident_id. rewrite Hb. cbn [rbind].
  eexists. split; [reflexivity|]. apply (prefixed_sha "inc_").
Qed.

Lemma candidate_id_total e c s d g :
  is_ascii e -> is_ascii c -> is_ascii s -> is_ascii d -> is_ascii g ->
  exists i, candidate_id e c s d g = Ok i /\ is_prefixed_hex "cand_" 64 i = true.
Proof.
  intros (b1 & H1)%ascii_bytes_total (b2 & H2)%ascii_bytes_total (b3 & H3)%ascii_bytes_total
    (b4 & H4)%ascii_bytes_total (b5 & H5)%ascii_bytes_total.
  unfold candidate_id. cbn [map_res]. rewrite H1, H2, H3, H4, H5. cbn [rbind].
  eexists. split; [reflexivity|]. apply (prefixed_sha "cand_").
Qed.

(** Two distinct event IDs are canonical evidence. *)
Lemma pair_evidence e1 e2 :
  EVENT_ID e1 = true -> EVENT_ID e2 = true -> e1 <> e2 -> event_ids_ok 2 (sort_str [e1; e2]) = true.
Proof.
  intros H1 H2 Hne. pose proof (sort_str_perm [e1; e2]) as P.
  assert (L : length (sort_str [e1; e2]) = 2%nat) by (rewrite P; reflexivity).
  unfold event_ids_ok. rewrite L. repeat (apply andb_true_iff; split); try reflexivity.
  - apply is_sorted_unique_spec. split; [rewrite P|apply sort_str_sorted].
    apply NoDup_cons. split; [by rewrite list_elem_of_singleton|apply NoDup_singleton].
  - rewrite (forallb_perm _ _ _ P). cbn [forallb]. by rewrite H1, H2.
Qed.

(** An input as the authentication of envelopes issues it: a validated snapshot under an
    event of its own. *)
Record authentic (a : AuthenticatedPCCInput) : Prop := mkAuthentic {
  au_snapshot : pcc_validate (a_snapshot a) = Ok tt;
  au_event : EVENT_ID (a_event_id a) = true;
  au_other : t_event_id (s_trigger (a_snapshot a)) <> a_event_id a;
  au_host : UUID4 (a_host_id a) = true;
  au_boot : UUID4 (a_boot_id a) = true }.

Definition reasons_ok (reasons : list pystr) : bool :=
  forallb (fun r => bool_decide (r ∈ CORRELATION_REASON_CODES)) reasons && is_sorted_unique reasons.

(** The incident of a result *)
Definition incident_of (r : CorrelationResult) : IncidentV1 :=
  match r with
  | CandidateCreated i _ | InvestigationOnly i _ | Duplicate i _ | Rejected i _ => i
  end.

Definition reasons_of (r : CorrelationResult) : list pystr :=
  match r with InvestigationOnly _ l | Rejected _ l => l | _ => [] end.

(** A valid incident about the trigger of the input, with the given reasons *)
Definition reports (a : AuthenticatedPCCInput) (reasons : list pystr) (i : IncidentV1) : Prop :=
  incident_validate i = Ok i /\ i_reasons i = reasons
  /\ incident_id (t_event_id (s_trigger (a_snapshot a))) = Ok (i_incident_id i)
  /\ i_primary_event_id i = t_event_id (s_trigger (a_snapshot a))
  /\ i_authority_event_id i = a_event_id a.

Lemma trigger_valid a : authentic a -> trigger_fields_ok (s_trigger (a_snapshot a)) = true.
Proof.
  intros [H _ _ _ _]. unfold pcc_validate, trigger_validate in H.
  apply rbind_ok in H as (u1 & H & _). by apply rbind_ok in H as (u2 & H%guard_ok & _).
Qed.

Lemma incident_total a reasons :
  authentic a -> reasons_ok reasons = true -> exists i, incident a reasons = Ok i /\ reports a reasons i.
Proof.
  intros Ha [Hr1 Hr2]%andb_true_iff. pose proof (trigger_valid a Ha) as Ht.
  destruct Ha as [_ He Hne _ _]. unfold incident, incident_from_snapshot, lift.
  unfold trigger_fields_ok, pcc_ascii_tuple, opt_utf8 in Ht. split_bools.
  assert (Hev : EVENT_ID (t_event_id (s_trigger (a_snapshot a))) = true) by done.
  destruct (incident_id_total _ (event_id_ascii _ Hev)) as (n & Hn & Hp). rewrite Hn. cbn [rbind].
  match goal with |- context [incident_validate ?i] => assert (E : incident_validate i = Ok i) end.
  - unfold incident_validate. rewrite check_true; [cbn [rbind]|].
    + unfold identity_and_authority_are_exact.
      cbn [i_primary_event_id i_incident_id i_authority_event_id i_evidence_ids]. rewrite Hn. cbn [rbind].
      rewrite check_true by (by apply bool_decide_eq_true). cbn [rbind].
      rewrite (bool_decide_false (a_event_id a = _)) by congruence.
      by rewrite check_true by (by apply bool_decide_eq_true).
    + unfold incident_fields_ok, canonical_ascii, opt_utf8. cbn -[is_sorted_unique short_ascii in_range].
      join_bools; try reflexivity; by apply pair_evidence.
  - rewrite E. cbn [catch_with]. eexists. split; [reflexivity|]. unfold reports.
    split; [exact E|]. by cbn.
Qed.

(** [returns r Q]: the computation ends with a value of [Q], not with an exception. *)
Definition returns {E A} (r : result E A) (Q : A -> Prop) : Prop :=
  match r with Ok x => Q x | Err _ => False end.

Lemma returns_bind {E A B} (r : result E A) (k : A -> result E B) (P : A -> Prop) (Q : B -> Prop) :
  returns r P -> (forall x, P x -> returns (k x) Q) -> returns (rbind r k) Q.
Proof. destruct r as [x|e]; cbn; [auto|contradiction]. Qed.

Lemma returns_weaken {E A} (r : result E A) (P Q : A -> Prop) :
  returns r P -> (forall x, P x -> Q x) -> returns r Q.
Proof. destruct r; cbn; auto. Qed.

Lemma returns_ok {E A} (r : result E A) : is_ok r = true -> returns r (fun x => r = Ok x).
Proof. by destruct r. Qed.

Lemma returns_lift {A} (r : result py_exn A) Q : returns r Q -> returns (lift r) Q.
Proof. by destruct r. Qed.

Lemma returns_guard {E} b (e : E) (Q : unit -> Prop) : b = true -> Q tt -> returns (guard b e) Q.
Proof. by intros ->. Qed.

Lemma any_res_returns {A} (f : A -> result py_exn bool) l :
  (forall x, x ∈ l -> returns (f x) (fun _ => True)) -> returns (any_res f l) (fun _ => True).
Proof.
  induction l as [|y l IH]; intros H; [done|]. cbn [any_res].
  eapply returns_bind; [apply H; by left|]. intros b _. destruct b; [done|].
  apply IH. intros x Hx. apply H. by right.
Qed.

(** ** Each check of the kernel returns on a validated snapshot *)

Lemma valid_time_returns s : valid_timestamp s = true -> returns (parse_rfc3339nano_utc_ns s) (fun _ => True).
Proof. unfold valid_timestamp. by destruct (parse_rfc3339nano_utc_ns s). Qed.

Lemma valid_address_returns s : valid_ipv4 s = true -> returns (ipv4_value s) (fun _ => True).
Proof.
  unfold valid_ipv4. destruct (canonical_ipv4_address s) as [n|] eqn:E; [|done]. intros _.
  apply canonical_ipv4_address_ok in E as [Hn ->]. unfold ipv4_value. by rewrite ipv4_of_text_text.
Qed.

Lemma forallb_in {A} (p : A -> bool) l x : forallb p l = true -> x ∈ l -> p x = true.
Proof. rewrite forallb_forall. intros H Hx. apply H. by apply list_elem_of_In. Qed.

Lemma denies_return address networks addresses :
  pcc_ipv4_network_tuple networks = true -> pcc_ipv4_address_tuple addresses = true ->
  returns (address_in_denies address networks addresses) (fun _ => True).
Proof.
  intros [_ Hn]%andb_true_iff [_ Ha]%andb_true_iff. unfold address_in_denies.
  eapply returns_bind with (P := fun _ => True); [|intros [|] _; [done|]].
  - apply any_res_returns. intros v [_ Hv]%(forallb_in _ _ _ Ha)%andb_true_iff.
    eapply returns_bind; [by apply valid_address_returns|done].
  - apply any_res_returns. intros v [_ Hv]%(forallb_in _ _ _ Hn)%andb_true_iff. unfold canonical_ipv4_network in Hv.
    unfold ipv4_net. by destruct (ipv4_network_of_text v).
Qed.

Lemma all_res_in f l x : all_res f l = Ok tt -> x ∈ l -> f x = Ok tt.
Proof.
  induction l as [|y l IH]; intros H Hx; [by apply elem_of_nil in Hx|]. cbn [all_res] in H.
  apply rbind_ok in H as ([] & Hy & H). apply elem_of_cons in Hx as [->|Hx]; [done|by apply IH].
Qed.

Lemma all_networks_in ns n : all_networks ns = Ok tt -> n ∈ ns -> network_validate n = Ok tt.
Proof.
  induction ns as [|m ns IH]; intros H Hx; [by apply elem_of_nil in Hx|]. cbn [all_networks] in H.
  apply rbind_ok in H as ([] & Hy & H). apply elem_of_cons in Hx as [->|Hx]; [done|by apply IH].
Qed.

Lemma docker_returns address ns :
  all_networks ns = Ok tt -> returns (docker_destination address ns) (fun _ => True).
Proof.
  intros H. apply any_res_returns. intros n Hn. pose proof (all_networks_in _ _ H Hn) as V.
  unfold network_validate in V. apply rbind_ok in V as (u1 & _ & V). apply rbind_ok in V as (u2 & Hs & V).
  unfold pcc_network_tuple in Hs. apply rbind_ok in Hs as (u3 & _ & Hs).
  unfold pcc_address_tuple in V. apply rbind_ok in V as (u4 & _ & V).
  destruct u2. eapply returns_bind with (P := fun _ => True); [|intros [|] _; [done|]].
  - apply any_res_returns. intros v Hv. pose proof (all_res_in _ _ _ V Hv) as W.
    unfold pcc_canonical_address in W. apply rbind_ok in W as (u5 & _ & W).
    apply rbind_ok in W as (g & -> & _). done.
  - apply any_res_returns. intros v Hv. pose proof (all_res_in _ _ _ Hs Hv) as W.
    unfold pcc_canonical_network in W. apply rbind_ok in W as (u5 & _ & W).
    apply rbind_ok in W as (g & -> & _). done.
Qed.

Lemma present_some {A} (o : option A) : present o = true -> exists x, o = Some x.
Proof. destruct o; [by eexists|done]. Qed.

Lemma snapshot_valid a : authentic a -> snapshot_fields_ok (a_snapshot a) = true.
Proof.
  intros [H _ _ _ _]. unfold pcc_validate in H. apply rbind_ok in H as (u1 & _ & H).
  by apply rbind_ok in H as (u2 & H%guard_ok & _).
Qed.

Lemma complete_present a :
  authentic a -> s_outcome (a_snapshot a) = Complete -> forallb id (complete_fields (a_snapshot a)) = true.
Proof.
  intros [H _ _ _ _] Ho. unfold pcc_validate in H. apply rbind_ok in H as (u1 & _ & H).
  apply rbind_ok in H as (u2 & _ & H). unfold outcome_and_cross_bindings_are_exact in H.
  apply rbind_ok in H as (d & _ & H). apply rbind_ok in H as (u3 & _ & H). apply rbind_ok in H as (u4 & _ & H).
  rewrite Ho in H. apply rbind_ok in H as (u5 & H%guard_ok & _). by apply andb_true_iff in H as [H _].
Qed.

(** What the kernel's checks use of a complete snapshot *)
Record complete_view (s : PCCCorrelationSnapshotV1) : Prop := mkView {
  cv_inventory : exists container started detector image repos spec generation revision network registry
      operator management,
    s_container_id s = Some container /\ s_started_at s = Some started
    /\ s_detector_sha256 s = Some detector /\ s_image_id s = Some image /\ s_repo_digests s = Some repos
    /\ s_spec_sha256 s = Some spec /\ s_generation s = Some generation /\ s_revision s = Some revision
    /\ s_network_sha256 s = Some network /\ s_registry_sha256 s = Some registry
    /\ s_operator_sha256 s = Some operator /\ s_management_sha256 s = Some management
    /\ HEX64 container = true /\ valid_timestamp started = true /\ HEX64 detector = true
    /\ is_prefixed_hex "sha256:" 64 image = true /\ canonical_strings 16 256 repos = true
    /\ HEX64 spec = true /\ in_range 1 MAX_UINT64 generation = true /\ in_range 1 MAX_UINT64 revision = true
    /\ HEX64 network = true /\ HEX64 registry = true /\ HEX64 operator = true /\ HEX64 management = true;
  cv_lists : exists on oa mn ma ns caps,
    s_operator_networks s = Some on /\ s_operator_addresses s = Some oa
    /\ s_management_networks s = Some mn /\ s_management_addresses s = Some ma
    /\ s_networks s = Some ns /\ s_cap_add s = Some caps
    /\ pcc_ipv4_network_tuple on = true /\ pcc_ipv4_address_tuple oa = true
    /\ pcc_ipv4_network_tuple mn = true /\ pcc_ipv4_address_tuple ma = true
    /\ all_networks ns = Ok tt;
  cv_observed : opt_ok valid_timestamp (s_observed_at s) = true;
  cv_decision : valid_timestamp (s_decision_time s) = true;
  cv_ttl : in_range 30 300 (s_ttl s) = true }.

Lemma complete_view_of a : authentic a -> s_outcome (a_snapshot a) = Complete -> complete_view (a_snapshot a).
Proof.
  intros Ha Ho. pose proof (complete_present a Ha Ho) as P. pose proof (snapshot_valid a Ha) as F.
  unfold complete_fields in P. cbn [forallb id] in P. unfold snapshot_fields_ok, microsecond_exact in F.
  split_bools.
  repeat match goal with
  | H : present ?o = true |- _ => let E := fresh "E" in apply present_some in H as [? E]; rewrite E in *
  end.
  cbn [opt_ok opt_sat] in *. split_bools. split; try assumption.
  - repeat eexists; try eassumption; try reflexivity.
    match goal with H : bool_decide (?h = PCC_SPECIAL_USE_REGISTRY_SHA256) = true |- HEX64 ?h = true =>
      apply bool_decide_eq_true in H; by rewrite H end.
  - repeat eexists; try eassumption; try reflexivity. by apply is_ok_tt.
  - by match goal with E : s_observed_at _ = Some _ |- _ => rewrite E end.
Qed.

(** What the registry, the coverage history and the candidate index promise about a
    context: a valid assessment, and observations of the looked-up key only, an active one
    not after the trigger and named by its own facts. *)
Record context_ok (a : AuthenticatedPCCInput) (x : raw_context) : Prop := mkContextOk {
  co_assessment : assessment_validate (x_coverage x) = Ok tt;
  co_active : forall act, x_active x = Some act ->
    ac_key act = x_lookup x
    /\ order_after (ac_sequence act) (ac_event_id act) (t_sequence (s_trigger (a_snapshot a)))
         (t_event_id (s_trigger (a_snapshot a))) = false
    /\ candidate_id (ac_event_id act) (k_container_id (ac_key act)) (k_started_at (ac_key act))
         (k_destination (ac_key act)) (k_detector_sha256 (ac_key act)) = Ok (ac_candidate_id act);
  co_terminal : forall t, x_terminal x = Some t ->
    te_key t = x_lookup x /\ valid_timestamp (te_terminal_at t) = true }.

Lemma trigger_times a : authentic a ->
  valid_timestamp (t_event_time (s_trigger (a_snapshot a))) = true
  /\ valid_ipv4 (t_destination (s_trigger (a_snapshot a))) = true
  /\ EVENT_ID (t_event_id (s_trigger (a_snapshot a))) = true.
Proof. intros H%trigger_valid. unfold trigger_fields_ok in H. by split_bools. Qed.

Lemma assessment_times v :
  assessment_validate v = Ok tt ->
  opt_ok valid_timestamp (v_window_start v) = true /\ valid_timestamp (v_window_end v) = true
  /\ (v_complete v = true -> exists h, v_snapshot_sha256 v = Some h /\ HEX64 h = true).
Proof.
  unfold assessment_validate, parse_optional_ns, valid_timestamp. intros H.
  apply rbind_ok in H as (u1 & _ & H). apply rbind_ok in H as (start & Hs & H).
  apply rbind_ok in H as (stop & -> & H). apply rbind_ok in H as (u2 & _ & H).
  split; [|split; [done|]].
  - destruct (v_window_start v) as [w|]; [|done]. cbn [opt_ok]. by apply rbind_ok in Hs as (n & -> & _).
  - intros E. rewrite E in H. apply guard_ok in H. destruct (v_snapshot_sha256 v) as [h|]; [by exists h|done].
Qed.

Lemma binding_returns a v :
  authentic a -> valid_timestamp (s_decision_time (a_snapshot a)) = true -> assessment_validate v = Ok tt ->
  returns (coverage_binding_matches a v) (fun _ => True).
Proof.
  intros Ha Hd (Hs & He & _)%assessment_times. destruct (trigger_times a Ha) as (Ht & _ & _).
  unfold coverage_binding_matches. cbv zeta.
  eapply returns_bind; [by apply valid_time_returns|]. intros trigger _.
  eapply returns_bind with (P := fun _ => True).
  - destruct (v_window_start v) as [w|]; [|done]. cbn [opt_ok] in Hs.
    eapply returns_bind; [by apply valid_time_returns|done].
  - intros m _. destruct (negb _); [done|].
    eapply returns_bind; [by apply valid_time_returns|]. intros e _.
    eapply returns_bind; [by apply valid_time_returns|done].
Qed.

Definition a_reason (o : option string) : Prop :=
  forall reason, o = Some reason -> u reason ∈ CORRELATION_REASON_CODES.

Lemma reason_known reason : bool_decide (u reason ∈ CORRELATION_REASON_CODES) = true -> a_reason (Some reason).
Proof. intros H%bool_decide_eq_true r [= <-]. exact H. Qed.

Lemma no_reason : a_reason None.
Proof. by intros r. Qed.

Ltac known := first [exact no_reason | apply reason_known; vm_compute; reflexivity].

Lemma time_returns a x decision :
  authentic a -> complete_view (a_snapshot a) -> assessment_validate (x_coverage x) = Ok tt ->
  returns (time_rejection a x decision) a_reason.
Proof.
  intros Ha V Hv. destruct (trigger_times a Ha) as (Ht & _ & _). unfold time_rejection. cbv zeta.
  eapply returns_bind; [by apply returns_lift, valid_time_returns|]. intros event _.
  destruct (negb _); [known|]. pose proof (cv_observed _ V) as Ho.
  destruct (s_observed_at (a_snapshot a)) as [o|]; [|known].
  eapply returns_bind; [by apply returns_lift, valid_time_returns|]. intros observed _.
  destruct (negb _); [known|]. destruct (_ <? _); [known|]. destruct (negb (v_complete _)); [known|].
  destruct (v_critical_gap _); [known|].
  eapply returns_bind; [apply returns_lift, binding_returns; auto using cv_decision|]. intros m _.
  cbn [returns]. destruct (_ || _); known.
Qed.

Lemma destination_returns a x :
  authentic a -> complete_view (a_snapshot a) ->
  returns (destination_rejection (a_snapshot a) (x_registry x)) a_reason.
Proof.
  intros Ha V. destruct (trigger_times a Ha) as (_ & Hd & _).
  destruct (cv_lists _ V) as (on & oa & mn & ma & ns & caps & Eon & Eoa & Emn & Ema & Ens & _ & Hon & Hoa
    & Hmn & Hma & Hns). unfold destination_rejection. cbv zeta.
  eapply returns_bind; [by apply returns_lift, valid_address_returns|]. intros d _.
  eapply returns_bind with (P := fun _ => True).
  { apply returns_lift. unfold is_globally_reachable, reachability_for. unfold valid_ipv4 in Hd.
    by destruct (canonical_ipv4_address _). }
  intros [|] _; cbn [negb]; [|known]. rewrite Ens. cbn [of_option rbind].
  eapply returns_bind; [by apply returns_lift, docker_returns|]. intros [|] _; [known|].
  rewrite Eon, Eoa. cbn [of_option rbind].
  eapply returns_bind; [by apply returns_lift, denies_return|]. intros [|] _; [known|].
  rewrite Emn, Ema. cbn [of_option rbind].
  eapply returns_bind; [by apply returns_lift, denies_return|]. intros [|] _; known.
Qed.

Lemma target_returns s : complete_view s -> returns (target_rejection s) a_reason.
Proof.
  intros V. destruct (cv_lists _ V) as (on & oa & mn & ma & ns & caps & _ & _ & _ & _ & _ & Ec & _).
  unfold target_rejection, network_rejection. destruct (negb _); [known|].
  destruct (s_network_mode s) as [mode|]; [|known]. cbv zeta.
  repeat (match goal with |- context [if ?b then _ else _] => destruct b end; try known).
  all: rewrite Ec; cbn [of_option rbind returns].
  all: repeat (match goal with |- context [if ?b then _ else _] => destruct b end; try known).
Qed.

Lemma hex64_ascii s : HEX64 s = true -> is_ascii s.
Proof. apply is_hex_ascii. Qed.

Lemma key_returns a :
  authentic a -> complete_view (a_snapshot a) -> returns (duplicate_key a) (fun _ => True).
Proof.
  intros Ha V. destruct (cv_inventory _ V) as (container & started & detector & ? & ? & ? & ? & ? & ? & ? & ? & ?
    & E1 & E2 & E3 & _ & _ & _ & _ & _ & _ & _ & _ & _ & H1 & H2 & H3 & _).
  destruct (trigger_times a Ha) as (_ & Hd & _). destruct Ha as [_ _ _ Hh Hb].
  unfold duplicate_key. cbv zeta. rewrite E1, E2, E3. apply returns_lift. unfold key_validate. cbn [k_host_id
    k_boot_id k_container_id k_started_at k_detector_sha256 k_destination].
  rewrite check_true by (by rewrite Hh, Hb, H1). cbn [rbind].
  eapply returns_bind; [by apply valid_time_returns|]. intros ns _.
  rewrite check_true; [done|]. rewrite H3. exact Hd.
Qed.

(** The candidate of a complete snapshot is valid and belongs to the trigger's incident. *)
Lemma candidate_total a v :
  authentic a -> complete_view (a_snapshot a) -> assessment_validate v = Ok tt -> v_complete v = true ->
  returns (candidate a v) (fun c => candidate_validate c = Ok c /\ c_snapshot_event_id c = a_event_id a
    /\ incident_id (t_event_id (s_trigger (a_snapshot a))) = Ok (c_incident_id c)).
Proof.
  intros Ha V (_ & _ & Hv)%assessment_times Hc. destruct (Hv Hc) as (h & Eh & Hh).
  destruct (cv_inventory _ V) as (container & started & detector & image & repos & spec & generation & revision
    & network & registry & operator & management & E1 & E2 & E3 & E4 & E5 & E6 & E7 & E8 & E9 & E10 & E11 & E12
    & Vc & Vs & Vd & Vi & Vr & Vp & Vg & Vv & Vn & Vy & Vo & Vm).
  pose proof (cv_decision _ V) as Vt. pose proof (cv_ttl _ V) as Vl. pose proof (trigger_valid a Ha) as Ht.
  unfold trigger_fields_ok in Ht. split_bools.
  assert (Hev : EVENT_ID (t_event_id (s_trigger (a_snapshot a))) = true) by assumption.
  assert (Hip : valid_ipv4 (t_destination (s_trigger (a_snapshot a))) = true) by assumption.
  destruct (incident_id_total _ (event_id_ascii _ Hev)) as (n & Hn & Hnp).
  destruct (candidate_id_total _ _ _ _ _ (event_id_ascii _ Hev) (hex64_ascii _ Vc) (timestamp_ascii _ Vs)
    (ipv4_ascii _ Hip) (hex64_ascii _ Vd)) as (m & Hm & Hmp). destruct Ha as [_ He Hne Hh2 Hb].
  unfold candidate. cbv zeta. rewrite E1, E2, E3, E4, E5, E6, E7, E8, E9, E10, E11, E12, Eh, Hm, Hn. cbn [rbind].
  match goal with |- context [candidate_validate ?c] => assert (E : candidate_validate c = Ok c) end;
    [|by rewrite E].
  unfold candidate_validate. rewrite check_true; [cbn [rbind]|].
  - unfold identity_and_evidence_are_exact. cbn [c_primary_event_id c_incident_id c_container_id c_started_at
      c_destination c_detector_sha256 c_candidate_id c_snapshot_event_id c_evidence_ids].
    rewrite Hn, Hm. cbn [rbind]. do 2 rewrite check_true by (by apply bool_decide_eq_true). cbn [rbind].
    rewrite check_true by (apply negb_true_iff, bool_decide_eq_false; congruence).
    by rewrite check_true by (by apply bool_decide_eq_true).
  - unfold candidate_fields_ok. cbn -[is_prefixed_hex in_range canonical_strings]. join_bools.
    by apply pair_evidence.
Qed.

(** A result as the services rely on it: a valid incident about the trigger, which records the
    reasons given; a candidate is valid and of that incident; without one there are reasons. *)
Definition result_ok (a : AuthenticatedPCCInput) (r : CorrelationResult) : Prop :=
  reports a (reasons_of r) (incident_of r)
  /\ match r with
     | CandidateCreated i c =>
         candidate_validate c = Ok c /\ c_incident_id c = i_incident_id i /\ c_snapshot_event_id c = a_event_id a
     | Duplicate _ existing => is_prefixed_hex "cand_" 64 existing = true
     | InvestigationOnly _ reasons | Rejected _ reasons =>
         reasons <> [] /\ forall reason, reason ∈ reasons -> reason ∈ CORRELATION_REASON_CODES
     end.

Lemma incident_returns a reasons :
  authentic a -> reasons_ok reasons = true -> returns (incident a reasons) (reports a reasons).
Proof. intros Ha Hr. by destruct (incident_total a reasons Ha Hr) as (i & -> & Hi). Qed.

Lemma rejected_returns a reasons :
  authentic a -> reasons_ok reasons = true -> reasons <> [] -> returns (rejected a reasons) (result_ok a).
Proof.
  intros Ha Hr Hne. unfold rejected. eapply returns_bind; [by apply incident_returns|]. intros i Hi.
  rewrite bool_decide_false by done. cbn. split; [exact Hi|]. split; [done|]. intros r Hin.
  apply andb_true_iff in Hr as [Hr _]. apply (bool_decide_eq_true _), (forallb_in _ _ _ Hr Hin).
Qed.

Lemma reason_singleton reason : u reason ∈ CORRELATION_REASON_CODES -> reasons_ok [u reason] = true.
Proof.
  intros H. unfold reasons_ok. cbn [forallb]. rewrite bool_decide_true by done. cbn [andb].
  apply is_sorted_unique_spec. split; [apply NoDup_singleton|repeat constructor].
Qed.

Lemma one_returns a reason :
  authentic a -> a_reason (Some reason) -> returns (one_rejection a reason) (result_ok a).
Proof. intros Ha Hr. apply rejected_returns; [done|by apply reason_singleton, Hr|done]. Qed.

Lemma investigation_returns a reason :
  authentic a -> a_reason (Some reason) -> returns (investigation a reason) (result_ok a).
Proof.
  intros Ha Hr. specialize (Hr _ eq_refl). unfold investigation.
  eapply returns_bind; [by apply incident_returns, reason_singleton|]. intros i Hi. cbn.
  split; [exact Hi|]. split; [done|]. intros r ->%list_elem_of_singleton. exact Hr.
Qed.

Lemma failed_reasons a :
  authentic a -> s_outcome (a_snapshot a) = Failed ->
  exists reasons, s_failure_reasons (a_snapshot a) = Some reasons /\ reasons_ok reasons = true /\ reasons <> [].
Proof.
  intros Ha Ho. pose proof (snapshot_valid a Ha) as F. destruct Ha as [H _ _ _ _].
  unfold pcc_validate in H. apply rbind_ok in H as (u1 & _ & H). apply rbind_ok in H as (u2 & _ & H).
  unfold outcome_and_cross_bindings_are_exact in H.
  apply rbind_ok in H as (d & _ & H). apply rbind_ok in H as (u3 & _ & H). apply rbind_ok in H as (u4 & _ & H).
  rewrite Ho in H. unfold failed_shape in H. destruct (s_failure_reasons (a_snapshot a)) as [reasons|] eqn:E; [|done].
  exists reasons. split; [done|]. unfold snapshot_fields_ok in F. rewrite E in F. cbn [opt_sat] in F. split_bools.
  match goal with H : negb (bool_decide (reasons = [])) = true |- _ =>
    apply negb_true_iff, bool_decide_eq_false in H; split; [|exact H] end.
  unfold reasons_ok. join_bools. apply forallb_forall. intros r Hr.
  match goal with H : forallb (fun r => bool_decide (r ∈ PCC_FAILURE_REASONS)) reasons = true |- _ =>
    rewrite forallb_forall in H; specialize (H r Hr); apply bool_decide_eq_true in H; rename H into Hin end.
  assert (S : forallb (fun r => bool_decide (r ∈ CORRELATION_REASON_CODES)) PCC_FAILURE_REASONS = true)
    by (vm_compute; reflexivity).
  by apply (forallb_in _ _ _ S).
Qed.

Lemma active_returns a x act :
  authentic a -> context_ok a x -> x_active x = Some act ->
  returns (active_duplicate a (x_lookup x) act) (result_ok a).
Proof.
  intros Ha Hx Hact. destruct (co_active _ _ Hx _ Hact) as (Hk & Ho & Hc).
  unfold active_duplicate. rewrite <- Hk, bool_decide_true by done. cbn [guard rbind]. rewrite Ho.
  cbn [negb guard rbind]. rewrite Hc. cbn [lift catch_with rbind]. rewrite bool_decide_true by done. cbn [guard rbind].
  eapply returns_bind; [by apply incident_returns|]. intros i Hi. cbn. split; [exact Hi|].
  unfold candidate_id in Hc. apply rbind_ok in Hc as (fs & _ & Hc). injection Hc as <-. apply (prefixed_sha "cand_").
Qed.

Lemma cooling_returns a x decision :
  context_ok a x -> returns (cooling_down (x_lookup x) decision (x_terminal x)) (fun _ => True).
Proof.
  intros Hx. unfold cooling_down. destruct (x_terminal x) as [t|] eqn:E; [|done].
  destruct (co_terminal _ _ Hx _ E) as [Hk Ht]. rewrite bool_decide_true by done. cbn [guard rbind].
  eapply returns_bind; [by apply returns_lift, valid_time_returns|done].
Qed.

Lemma created_returns a x :
  authentic a -> complete_view (a_snapshot a) -> context_ok a x -> v_complete (x_coverage x) = true ->
  returns (let* c := candidate a (x_coverage x) in
           let* i := incident a [] in
           guard (bool_decide (i_incident_id i = c_incident_id c) && bool_decide (i_reasons i = []))
             (CorrPyError TypeError) ;;*
           Ok (CandidateCreated i c)) (result_ok a).
Proof.
  intros Ha V Hx Hc.
  eapply returns_bind; [by apply (candidate_total a _ Ha V (co_assessment _ _ Hx))|]. intros c (Hv & He & Hn).
  eapply returns_bind; [by apply incident_returns|]. intros i Hi. pose proof Hi as (_ & Hr & Hid & _).
  rewrite Hn in Hid. injection Hid as Hid. rewrite !bool_decide_true by done. by cbn.
Qed.

(** C23: the correlation kernel is total on what the authenticated services hand it: for a
    validated snapshot under an event of its own, any context with a valid coverage
    assessment and observations of the looked-up key, it returns (no exception, no failed
    assertion) a well-formed result: the incident validates, is about the snapshot's
    trigger and carries exactly the reasons of the result, a created candidate validates and
    belongs to that incident, and every other outcome names known reasons or an existing
    candidate. *)
Theorem correlation_total a context registry_sha256 :
  authentic a ->
  (forall x, context = RawContext x -> context_ok a x) ->
  exists r, correlate_pcc_values a context registry_sha256 = Ok r /\ result_ok a r.
Proof.
  intros Ha Hctx.
  assert (R : returns (correlate_pcc_values a context registry_sha256) (result_ok a)).
  2: { destruct (correlate_pcc_values a context registry_sha256) as [r|]; [by exists r|contradiction]. }
  unfold correlate_pcc_values. cbv zeta. destruct (s_outcome (a_snapshot a)) eqn:Ho.
  2: { destruct (failed_reasons a Ha Ho) as (reasons & -> & Hr & Hne). by apply rejected_returns. }
  destruct context as [x|]; [|apply one_returns; [done|known]]. specialize (Hctx x eq_refl).
  pose proof (complete_view_of a Ha Ho) as V. pose proof (co_assessment _ _ Hctx) as Hv.
  destruct (negb _); [apply one_returns; [done|known]|].
  destruct (negb _); [apply investigation_returns; [done|known]|].
  destruct (negb _); [apply investigation_returns; [done|known]|].
  destruct (t_investigation _); [apply investigation_returns; [done|known]|].
  eapply returns_bind; [by apply returns_lift, valid_time_returns, cv_decision|]. intros decision _.
  pose proof (time_returns a x decision Ha V Hv) as T.
  destruct (time_rejection a x decision) as [late|] eqn:Et; [|contradiction]. cbn [rbind returns] in T |- *.
  destruct late as [reason|]; [by apply one_returns|]. apply time_ok, ti_complete in Et.
  eapply returns_bind; [by apply key_returns|]. intros key _.
  match goal with |- context [negb (?b && bool_decide (x_lookup x = key))] => destruct b end; cbn [andb negb];
    [|apply one_returns; [done|known]].
  destruct (bool_decide_reflect (x_lookup x = key)) as [<-|]; cbn [negb]; [|apply one_returns; [done|known]].
  destruct (negb _); [apply one_returns; [done|known]|].
  eapply returns_bind; [by apply destination_returns|]. intros [reason|] Hr; [by apply one_returns|].
  eapply returns_bind; [by apply target_returns|]. intros [reason|] Hr2; [by apply one_returns|].
  destruct (x_active x) as [act|] eqn:Eact; [by apply active_returns|].
  eapply returns_bind; [by apply (cooling_returns a)|]. intros [|] _; [apply one_returns; [done|known]|].
  by apply created_returns.
Qed.

(** The facts a candidate takes over *)
Record takes_over (a : AuthenticatedPCCInput) (v : HistoricalCoverageAssessment) (c : ContainmentCandidateV1)
  : Prop := mkTakesOver {
  to_source : c_host_id c = a_host_id a /\ c_boot_id c = a_boot_id a;
  to_evidence : c_primary_sequence c = t_sequence (s_trigger (a_snapshot a))
    /\ c_snapshot_event_id c = a_event_id a
    /\ c_evidence_ids c = sort_str [t_event_id (s_trigger (a_snapshot a)); a_event_id a];
  to_detector : s_detector_sha256 (a_snapshot a) = Some (c_detector_sha256 c);
  to_created : c_created_at c = s_decision_time (a_snapshot a);
  to_event : c_primary_event_id c = t_event_id (s_trigger (a_snapshot a));
  to_destination : c_destination c = t_destination (s_trigger (a_snapshot a))
    /\ c_port c = t_port (s_trigger (a_snapshot a)) /\ c_protocol c = t_protocol (s_trigger (a_snapshot a));
  to_container : s_container_id (a_snapshot a) = Some (c_container_id c)
    /\ s_started_at (a_snapshot a) = Some (c_started_at c) /\ s_image_id (a_snapshot a) = Some (c_image_id c)
    /\ s_repo_digests (a_snapshot a) = Some (c_repo_digests c) /\ s_spec_sha256 (a_snapshot a) = Some (c_spec_sha256 c)
    /\ s_generation (a_snapshot a) = Some (c_generation c) /\ s_revision (a_snapshot a) = Some (c_revision c);
  to_ttl : c_ttl c = s_ttl (a_snapshot a);
  to_policy : s_registry_sha256 (a_snapshot a) = Some (c_registry_sha256 c)
    /\ s_operator_sha256 (a_snapshot a) = Some (c_operator_sha256 c)
    /\ s_management_sha256 (a_snapshot a) = Some (c_management_sha256 c)
    /\ s_network_sha256 (a_snapshot a) = Some (c_network_sha256 c)
    /\ v_snapshot_sha256 v = Some (c_coverage_sha256 c) }.

Lemma candidate_takes_over a v c :
  candidate a v = Ok c -> candidate_validate c = Ok c /\ takes_over a v c.
Proof.
  unfold candidate. cbv zeta. intros H.
  repeat match type of H with match ?o with Some _ => _ | None => _ end = _ =>
    let E := fresh "E" in destruct o eqn:E; [|discriminate H] end.
  unfold lift in H. apply catch_ok in H. apply rbind_ok in H as (m & _ & H). apply rbind_ok in H as (n & _ & H).
  assert (E13 : forall d, candidate_validate d = Ok c -> d = c).
  { intros d Hd. unfold candidate_validate in Hd. apply rbind_ok in Hd as (u1 & _ & Hd).
    apply rbind_ok in Hd as (u2 & _ & Hd). by injection Hd. }
  pose proof (E13 _ H) as <-. split; [exact H|]. by split.
Qed.

(** C2: a containment candidate is created only when every condition of the rule holds, at
    the nanosecond: a complete snapshot of a successful connect seen by the pinned detector,
    the event at most 30 s and the inventory at most 10 s before the decision, clock
    uncertainty of at most 2 s, historical coverage complete without a critical gap and bound
    to this trigger and window, the authority's host and boot, a globally reachable
    destination outside every Docker subnet and gateway and outside the operator's and the
    management's lists, a running unprivileged container on its own bridge without
    NET_ADMIN, a TTL of 30 to 300 s, no active candidate of the same key and none ended in
    the last ten minutes; the candidate validates and takes over exactly these facts. *)
Theorem candidate_created_safe a context registry_sha256 i c :
  correlate_pcc_values a context registry_sha256 = Ok (CandidateCreated i c) ->
  exists x decision, context = RawContext x /\ candidate_conditions a x registry_sha256 decision
    /\ candidate_validate c = Ok c /\ takes_over a (x_coverage x) c.
Proof.
  intros (x & decision & -> & Hc & Hcand & _)%created_conditions. exists x, decision.
  apply candidate_takes_over in Hcand as [Hv Ht]. by split_and!.
Qed.

(** ** A snapshot and its evaluation *)

Definition corr_digest (n : Z) : pystr := sha256_hex [byte_of n].
Definition corr_id (r : result py_exn pystr) : pystr := match r with Ok i => i | Err _ => [] end.

Definition sample_trigger : PCCFalcoTriggerProjectionV1 := Eval vm_compute in
  mkTrigger (u "evt_" ++ corr_digest 1) (corr_digest 2) (corr_digest 3) 7 (u "1.0.0") sample_host sample_boot
    (u "2026-01-01T00:01:00.5Z") (u "2026-01-01T00:01:01Z") 15 3 4 (corr_digest 4) (u "2026-01-01T00:00:00Z")
    (corr_id (release_id (u "sha256:" ++ corr_digest 5) (corr_digest 6))) (Some 0) (u "SUCCESS") true false
    (u "sha256:" ++ corr_digest 5) [] (corr_digest 6) (Some (u "curl")) (Some (u "/usr/bin/curl"))
    (Some (u "sh")) (u "93.184.216.34") 443 (u "tcp") [] [] (corr_digest 7).

Definition sample_networks : list PCCDockerNetworkV1 :=
  [mkDockerNetwork (corr_digest 8) (u "bridge") [u "172.17.0.0/16"] [u "172.17.0.1"]].

Definition sample_pcc : PCCCorrelationSnapshotV1 := Eval vm_compute in
  let t := sample_trigger in
  mkPcc Complete
    (corr_id (pcc_correlation_request_sha256 (mkRequest (t_event_id t) (t_content_sha256 t) (t_sequence t) 90)))
    t (u "2026-01-01T00:01:02Z") (Some (corr_digest 9)) 90 (Some PCC_SPECIAL_USE_REGISTRY_SHA256)
    (Some [u "10.0.0.0/8"]) (Some []) (Some (corr_id (pcc_operator_denylist_sha256 [u "10.0.0.0/8"] [])))
    (Some []) (Some [u "198.51.100.7"])
    (Some (corr_id (pcc_management_denylist_sha256 [] [u "198.51.100.7"])))
    (Some sample_networks) (Some (corr_id (pcc_docker_network_snapshot_sha256 sample_networks)))
    (Some (t_container_id t)) (Some (t_container_start t)) (Some (t_image_id t)) (Some (t_repo_digests t))
    (Some (t_spec_sha256 t)) (Some (t_generation t)) (Some (t_revision t)) (Some (u "2026-01-01T00:01:01.9Z"))
    (Some (u "bridge")) (Some (u "bridge")) (Some false) (Some []) (Some [u "NET_RAW"]) (Some false) (Some true)
    None 9 None None.

Definition sample_authenticated : AuthenticatedPCCInput := Eval vm_compute in
  mkAuthenticated sample_host sample_boot (u "evt_" ++ corr_digest 10) sample_pcc.

Definition sample_context : raw_context := Eval vm_compute in
  let t := sample_trigger in
  mkRaw (corr_digest 9)
    (match ParsedSpecialUseRegistry_new sample_entries with Ok r => r | Err _ => mkRegistry [] [] end)
    (mkAssessment sample_host sample_boot (t_event_id t) 7 9 (Some (u "2026-01-01T00:01:00.485Z"))
       (u "2026-01-01T00:01:02Z") true false (Some (corr_digest 11)))
    (mkKey sample_host sample_boot (t_container_id t) (t_container_start t) (corr_digest 9) (t_destination t))
    None None.

Definition is_created (r : result corr_exn CorrelationResult) : bool :=
  match r with Ok (CandidateCreated _ _) => true | _ => false end.

Lemma candidate_created_safe_witness : exists i c x decision,
  correlate_pcc_values sample_authenticated (RawContext sample_context) PCC_SPECIAL_USE_REGISTRY_SHA256
    = Ok (CandidateCreated i c)
  /\ RawContext sample_context = RawContext x
  /\ candidate_conditions sample_authenticated x PCC_SPECIAL_USE_REGISTRY_SHA256 decision
  /\ candidate_validate c = Ok c /\ takes_over sample_authenticated (x_coverage x) c.
Proof.
  assert (E : is_created (correlate_pcc_values sample_authenticated (RawContext sample_context)
                PCC_SPECIAL_USE_REGISTRY_SHA256) = true) by (vm_compute; reflexivity).
  destruct (correlate_pcc_values _ _ _) as [[i c| | |]|] eqn:H; try discriminate E.
  destruct (candidate_created_safe _ _ _ _ _ H) as (x & d & Hx & Hc). exists i, c, x, d. by split_and!; try apply Hc.
Defined.

Lemma sample_authentic : authentic sample_authenticated.
Proof.
  split; [apply is_ok_tt; vm_cast_no_check (eq_refl true)|vm_compute; reflexivity|vm_compute; discriminate
    |vm_compute; reflexivity..].
Qed.

Lemma correlation_total_witness : exists r,
  correlate_pcc_values sample_authenticated (RawContext sample_context) PCC_SPECIAL_USE_REGISTRY_SHA256 = Ok r
  /\ result_ok sample_authenticated r.
Proof.
  apply (correlation_total sample_authenticated (RawContext sample_context) _ sample_authentic).
  intros x [= <-]. split; [vm_compute; reflexivity|discriminate..].
Defined.
