(* ===== verification/Historical.v ===== *)
(** * Historical coverage

    [coverage/historical.py]: coverage of the window between a trigger and its decision,
    reduced again from the authenticated evidence up to the snapshot's prefix, and the
    effect of coverage records that arrive later; with the logical-primary identities of
    [evidence/dedup.py].  The path authority issued through weak references, the replay
    memo digests and the diagnostic counters are not part of the model. *)

From S2P Require Import Prelude Sha256 CanonicalJson JsonDecode Time Ipv4 Identities Contracts.
From S2P Require Import EvidenceStore CoverageReducer SpecialUse PccContracts Correlation.
From S2P Require Import CoverageGrammar.
Local Open Scope Z_scope.
Local Open Scope agmind_scope.

Inductive history_exn :=
  HistoricalCoverageUnavailable | HistoricalCoverageConflict | HistoryPyError (e : py_exn).

Definition conflict {E A} (r : result E A) : result history_exn A :=
  catch_with (fun _ => HistoricalCoverageConflict) r.

Definition escape {A} (r : result py_exn A) : result history_exn A := catch_with HistoryPyError r.

(** ** Logical primaries *)

Inductive dedup_kind := DedupFalco | DedupCoverage | DedupOther.

#[export] Instance dedup_kind_eq_dec : EqDecision dedup_kind.
Proof. solve_decision. Defined.

Definition dedup_text (k : dedup_kind) : string :=
  match k with DedupFalco => "falco_connect" | DedupCoverage => "coverage" | DedupOther => "other" end%string.

(** [_logical_primary_key] *)
Definition logical_primary_key (e : EventEnvelopeV1) (bind_boot : bool) : dedup_kind * list pystr :=
  let boot := if bind_boot then [boot_id e] else [] in
  if bool_decide (event_type e = u "falco_connect") then
    (DedupFalco, host_id e :: boot ++ [event_type e; source_payload_hash e])
  else if bool_decide (event_type e = u "coverage") then
    (DedupCoverage, host_id e :: boot ++ [event_type e; normalized_fields_sha256 e; source_payload_hash e])
  else (DedupOther, [e_event_id e]).

(** [_logical_primary_identity] with [version] 1 or 2 *)
Definition logical_primary_identity (e : EventEnvelopeV1) (version : Z) : result py_exn (dedup_kind * pystr) :=
  check ((version =? 1) || (version =? 2)) ;;*
  let domain := if version =? 1 then bstr "AGMIND_PROJECTION_DEDUP_V1" ++ NUL
                else bstr "AGMIND_PROJECTION_DEDUP_V2" ++ NUL in
  let '(kind, key) := logical_primary_key e (version =? 2) in
  let* canonical := canonical_json (JArr (map JStr key)) in
  Ok (kind, sha256_hex (domain ++ bstr (dedup_text kind) ++ NUL ++ canonical)).

#[export] Instance assessment_eq_dec : EqDecision HistoricalCoverageAssessment.
Proof. solve_decision. Defined.

(** ** Prepared records *)

(** [HistoricalCoverageRecord] and [_PreparedHistoricalRecord] *)
Record PreparedHistoricalRecord := mkHistorical {
  hr_record : StoredEvidenceRecord; hr_class : CoverageClassification; hr_key : dedup_kind * pystr;
  hr_envelope : EventEnvelopeV1; hr_coverage : option CoverageEventV1 }.

(** [_prepare_historical_record].  The bytes must be the canonical form of what they decode
    to, so decoding strictly or with [json.loads] accepts the same records. *)
Definition prepare_historical_record (record : StoredEvidenceRecord)
  : result history_exn PreparedHistoricalRecord :=
  let raw := canonical_envelope record in
  let* decoded := conflict (decode_json raw (Z.of_nat (length raw))) in
  let* e := conflict (EventEnvelopeV1_validate decoded) in
  let* again := escape (canonical_json (JObj decoded)) in
  let* stored := escape (canonical_json (JObj (stored_envelope record))) in
  guard (bool_decide (again = raw) && bool_decide (stored = raw)
         && bool_decide (e_event_id e = ref_event_id (ref record))
         && (source_sequence e =? ref_source_sequence (ref record))
         && bool_decide (sha256_hex raw = content_sha256 (ref record))) HistoricalCoverageConflict ;;*
  let* coverage :=
    if bool_decide (event_type e = u "coverage") then
      let* c := conflict (CoverageEventV1_validate (normalized_fields e)) in Ok (Some c)
    else Ok None in
  let* class := conflict (classify_coverage_record e coverage) in
  let* key := escape (logical_primary_identity e 2) in
  Ok (mkHistorical record class key e coverage).

(** ** Episodes *)

Record HistoricalCriticalEpisode := mkEpisode {
  he_component : pystr; he_kind : pystr; he_opened_at : pystr; he_open_event_id : pystr;
  he_closed_at : option pystr; he_close_event_id : option pystr }.

(** A closed episode, with the check of [HistoricalCriticalEpisode.__post_init__]: an
    identity needs a time *)
Definition new_episode (component kind opened open_event_id : pystr) (closed : option pystr)
    (close_event_id : pystr) : result history_exn HistoricalCriticalEpisode :=
  guard (present closed) (HistoryPyError ValueError) ;;*
  Ok (mkEpisode component kind opened open_event_id closed (Some close_event_id)).

(** [_OpenEpisode] *)
Record OpenEpisode := mkOpenEpisode {
  oe_scope_boot_id : option pystr; oe_component : pystr; oe_kind : pystr; oe_opened_at : pystr;
  oe_open_event_id : pystr; oe_open_sequence : Z; oe_latest_event_id : pystr; oe_latest_sequence : Z;
  oe_reason_code : pystr; oe_dropped_count : option Z; oe_fields_sha256 : pystr; oe_payload_hash : pystr }.

(** [_DockerRecovery] *)
Record HistoricalRecovery := mkHistoricalRecovery {
  dr_generation : Z; dr_opened_at : pystr; dr_closed_at : pystr; dr_open_event_id : pystr;
  dr_event_id : pystr; dr_sequence : Z }.

(** [_SequenceEpisode] *)
Record SequenceEpisode := mkSequenceEpisode {
  se_start : Z; se_end : Z; se_opened_at : pystr; se_open_event_id : pystr; se_open_sequence : Z;
  se_baseline : option HistoricalRecovery }.

(** [_ClosedSummary] *)
Record ClosedSummary := mkSummary { cs_episode : HistoricalCriticalEpisode; cs_dependencies : list pystr }.

(** Dictionaries in insertion order *)
Section Dict.
Context {K V : Type} `{EqDecision K}.

Fixpoint dict_get (k : K) (d : list (K * V)) : option V :=
  match d with
  | [] => None
  | (k', v) :: d => if bool_decide (k = k') then Some v else dict_get k d
  end.

(** [d[k] = v]: in place if the key is there, else at the end *)
Fixpoint dict_set (k : K) (v : V) (d : list (K * V)) : list (K * V) :=
  match d with
  | [] => [(k, v)]
  | (k', v') :: d => if bool_decide (k = k') then (k, v) :: d else (k', v') :: dict_set k v d
  end.

Definition dict_del (k : K) (d : list (K * V)) : list (K * V) :=
  List.filter (fun kv => negb (bool_decide (k = kv.1))) d.
End Dict.

Definition episode_key_type : Type := option pystr * pystr * pystr * pystr.

(** What the reduction is about *)
Record reduction := mkReduction {
  rd_host_id : pystr; rd_boot_id : pystr; rd_trigger_event_id : pystr; rd_trigger_sequence : Z;
  rd_through : Z; rd_window : HistoricalCoverageWindow }.

(** The variables of the loop *)
Record history := mkHistory {
  h_active : list (episode_key_type * OpenEpisode); h_pretrigger : list ClosedSummary;
  h_recent : list ClosedSummary; h_recent_ids : list pystr;
  h_docker : list ((pystr * Z) * OpenEpisode); h_latest : option HistoricalRecovery;
  h_sequences : list ((Z * Z * pystr) * SequenceEpisode); h_last_sequence : Z;
  h_boot : option pystr }.

Definition start_history : history := mkHistory [] [] [] [] [] None [] 0 None.

Definition with_active (h : history) active :=
  mkHistory active (h_pretrigger h) (h_recent h) (h_recent_ids h) (h_docker h) (h_latest h) (h_sequences h)
    (h_last_sequence h) (h_boot h).
Definition with_summaries (h : history) pretrigger recent :=
  mkHistory (h_active h) pretrigger recent (h_recent_ids h) (h_docker h) (h_latest h) (h_sequences h)
    (h_last_sequence h) (h_boot h).
Definition with_recent_ids (h : history) ids :=
  mkHistory (h_active h) (h_pretrigger h) (h_recent h) ids (h_docker h) (h_latest h) (h_sequences h)
    (h_last_sequence h) (h_boot h).
Definition with_docker (h : history) docker latest :=
  mkHistory (h_active h) (h_pretrigger h) (h_recent h) (h_recent_ids h) docker latest (h_sequences h)
    (h_last_sequence h) (h_boot h).
Definition with_sequences (h : history) sequences :=
  mkHistory (h_active h) (h_pretrigger h) (h_recent h) (h_recent_ids h) (h_docker h) (h_latest h) sequences
    (h_last_sequence h) (h_boot h).
Definition with_position (h : history) sequence boot :=
  mkHistory (h_active h) (h_pretrigger h) (h_recent h) (h_recent_ids h) (h_docker h) (h_latest h)
    (h_sequences h) sequence boot.

Definition COLLECTION_CAP : Z := 4096.

(** [_append_bounded] *)
Definition append_bounded {A} (l : list A) (x : A) : result history_exn (list A) :=
  guard (negb (Z.of_nat (length l) =? COLLECTION_CAP)) HistoricalCoverageUnavailable ;;* Ok (l ++ [x]).

(** [_retain_closed_summary] *)
Definition retain_closed_summary (rd : reduction) (h : history) (sequence : Z) (s : ClosedSummary)
  : result history_exn history :=
  if sequence <=? rd_trigger_sequence rd then
    let* l := append_bounded (h_pretrigger h) s in Ok (with_summaries h l (h_recent h))
  else
    let* l := append_bounded (h_recent h) s in Ok (with_summaries h (h_pretrigger h) l).

(** The summary kept when the interval of a closed episode meets the window *)
Definition retain_if_met (rd : reduction) (h : history) (sequence : Z) (s : ClosedSummary)
  : result history_exn history :=
  let* hit := escape (interval_intersects_window (he_opened_at (cs_episode s)) (he_closed_at (cs_episode s))
                        (rd_window rd)) in
  if hit : bool then retain_closed_summary rd h sequence s else Ok h.

(** ** The prepared prefix *)

(** The records with their ordinals and whether each is the first of its logical key *)
Record indexed := mkIndexed { ix_ordinal : nat; ix_record : PreparedHistoricalRecord; ix_primary : bool }.

Fixpoint index_from (n : nat) (seen : list (dedup_kind * pystr)) (l : list PreparedHistoricalRecord)
  : list indexed :=
  match l with
  | [] => []
  | p :: l =>
      let primary := negb (bool_decide (hr_key p ∈ seen)) in
      mkIndexed n p primary :: index_from (S n) (if primary then hr_key p :: seen else seen) l
  end.

Definition ix_sequence (x : indexed) : Z := source_sequence (hr_envelope (ix_record x)).

(** [ordinal_by_sequence.get]: the last record of the sequence *)
Definition ordinal_of (prefix : list indexed) (sequence : Z) : option nat :=
  last (map ix_ordinal (List.filter (fun x => ix_sequence x =? sequence) prefix)).

(** [_prepared_prefix_primary] *)
Definition prepared_prefix_primary (prefix : list indexed) (x : indexed) : result history_exn bool :=
  guard (bool_decide (ordinal_of prefix (ix_sequence x) = Some (ix_ordinal x))) HistoricalCoverageConflict ;;*
  Ok (ix_primary x).

(** [_HistoricalPreparedPrefix.before] *)
Definition before (prefix : list indexed) (sequence : Z) : list indexed :=
  List.filter (fun x => ix_sequence x <? sequence) prefix.

Definition is_generic (a : CoverageAction) : bool :=
  match a with GenericOpen | GenericClose => true | _ => false end.

(** [_episode_key] *)
Definition episode_key (p : PreparedHistoricalRecord) (c : CoverageEventV1) : episode_key_type :=
  (if bool_decide (scope (hr_class p) = Some ProcessScope) then Some (boot_id (hr_envelope p)) else None,
   component c, kind c, opened_at c).

(** The record is generic coverage of the key *)
Definition generic_of (key : episode_key_type) (x : indexed) : bool :=
  match hr_coverage (ix_record x) with
  | Some c => is_generic (action (hr_class (ix_record x))) && bool_decide (episode_key (ix_record x) c = key)
  | None => false
  end.

(** [_episode_was_closed] over the records before *)
Fixpoint episode_was_closed (prefix : list indexed) (key : episode_key_type) (closed : bool)
    (l : list indexed) : result history_exn bool :=
  match l with
  | [] => Ok closed
  | x :: l =>
      let* primary := prepared_prefix_primary prefix x in
      if negb (primary && generic_of key x) then episode_was_closed prefix key closed l
      else if bool_decide (action (hr_class (ix_record x)) = GenericClose) then
        episode_was_closed prefix key true l
      else if closed then Ok true
      else episode_was_closed prefix key closed l
  end.

(** [_sequence_range_was_seen] *)
Fixpoint sequence_range_was_seen (prefix : list indexed) (start stop : Z) (l : list indexed)
  : result history_exn bool :=
  match l with
  | [] => Ok false
  | x :: l =>
      match hr_coverage (ix_record x) with
      | Some c =>
          if bool_decide (action (hr_class (ix_record x)) = SequenceOpen) then
            let* primary := prepared_prefix_primary prefix x in
            match affected_source_sequence_start c, affected_source_sequence_end c with
            | Some a, Some b =>
                if primary && negb ((stop <? a) || (b <? start)) then Ok true
                else sequence_range_was_seen prefix start stop l
            | _, _ => sequence_range_was_seen prefix start stop l
            end
          else sequence_range_was_seen prefix start stop l
      | None => sequence_range_was_seen prefix start stop l
      end
  end.

(** [_docker_episode_was_seen] *)
Fixpoint docker_episode_was_seen (prefix : list indexed) (opened : pystr) (generation : Z) (l : list indexed)
  : result history_exn bool :=
  match l with
  | [] => Ok false
  | x :: l =>
      match hr_coverage (ix_record x) with
      | Some c =>
          if bool_decide (action (hr_class (ix_record x)) = DockerOpen) && bool_decide (opened_at c = opened)
             && bool_decide (reconcile_generation c = Some generation) then
            let* primary := prepared_prefix_primary prefix x in
            if primary : bool then Ok true else docker_episode_was_seen prefix opened generation l
          else docker_episode_was_seen prefix opened generation l
      | None => docker_episode_was_seen prefix opened generation l
      end
  end.

(** The loop over earlier records of a self-contained close: none used the key *)
Fixpoint key_is_unused (prefix : list indexed) (key : episode_key_type) (l : list indexed)
  : result history_exn unit :=
  match l with
  | [] => Ok tt
  | x :: l =>
      let* primary := prepared_prefix_primary prefix x in
      guard (negb (primary && generic_of key x)) HistoricalCoverageConflict ;;*
      key_is_unused prefix key l
  end.

(** ** One record *)

(** [len(active) + len(docker_active) + len(sequence_active) == _COLLECTION_CAP] *)
Definition room (h : history) : result history_exn unit :=
  guard (negb (Z.of_nat (length (h_active h) + length (h_docker h) + length (h_sequences h)) =? COLLECTION_CAP))
    HistoricalCoverageUnavailable.

Definition opened_episode (boot : option pystr) (e : EventEnvelopeV1) (c : CoverageEventV1)
    (count : option Z) : OpenEpisode :=
  mkOpenEpisode boot (component c) (kind c) (opened_at c) (e_event_id e) (source_sequence e) (e_event_id e)
    (source_sequence e) (reason_code c) count (normalized_fields_sha256 e) (source_payload_hash e).

Definition reduce_docker_open (prefix : list indexed) (h : history) (e : EventEnvelopeV1) (c : CoverageEventV1)
  : result history_exn history :=
  match reconcile_generation c with
  | None => Err HistoricalCoverageConflict
  | Some generation =>
      let key := (opened_at c, generation) in
      guard (negb (present (dict_get key (h_docker h)))) HistoricalCoverageConflict ;;*
      let* seen := docker_episode_was_seen prefix (opened_at c) generation (before prefix (source_sequence e)) in
      guard (negb seen) HistoricalCoverageConflict ;;*
      room h ;;*
      Ok (with_docker h (dict_set key (opened_episode None e c None) (h_docker h)) (h_latest h))
  end.

Definition reduce_docker_close (rd : reduction) (h : history) (e : EventEnvelopeV1) (c : CoverageEventV1)
  : result history_exn history :=
  match reconcile_generation c, closed_at c with
  | Some generation, Some closed =>
      let key := (opened_at c, generation) in
      match dict_get key (h_docker h) with
      | None => Err HistoricalCoverageConflict
      | Some opened =>
          guard (match h_latest h with Some r => dr_generation r <? generation | None => true end)
            HistoricalCoverageConflict ;;*
          let h := with_docker h (dict_del key (h_docker h)) (h_latest h) in
          let* h := retain_if_met rd h (source_sequence e)
            (mkSummary (mkEpisode (oe_component opened) (oe_kind opened) (oe_opened_at opened)
                          (oe_open_event_id opened) (Some closed) (Some (e_event_id e)))
               [oe_open_event_id opened; e_event_id e]) in
          Ok (with_docker h (h_docker h)
                (Some (mkHistoricalRecovery generation (oe_opened_at opened) closed (oe_open_event_id opened)
                         (e_event_id e) (source_sequence e))))
      end
  | _, _ => Err HistoricalCoverageConflict
  end.

Definition reduce_sequence_open (prefix : list indexed) (h : history) (e : EventEnvelopeV1) (c : CoverageEventV1)
  : result history_exn history :=
  match affected_source_sequence_start c, affected_source_sequence_end c with
  | Some start, Some stop =>
      let key := (start, stop, opened_at c) in
      guard (negb (present (dict_get key (h_sequences h)))) HistoricalCoverageConflict ;;*
      let* seen := sequence_range_was_seen prefix start stop (before prefix (source_sequence e)) in
      guard (negb seen) HistoricalCoverageConflict ;;*
      room h ;;*
      Ok (with_sequences h (dict_set key (mkSequenceEpisode start stop (opened_at c) (e_event_id e)
            (source_sequence e) (h_latest h)) (h_sequences h)))
  | _, _ => Err HistoricalCoverageConflict
  end.

(** [not (end < trigger or start > through)] *)
Definition range_hits (rd : reduction) (start stop : Z) : bool :=
  negb ((stop <? rd_trigger_sequence rd) || (rd_through rd <? start)).

(** The recovery that a sequence close needs *)
Definition recovery_matches (e : EventEnvelopeV1) (opened : SequenceEpisode) (generation : Z) (closed : pystr)
    (latest : HistoricalRecovery) : bool :=
  (dr_sequence latest <? source_sequence e) && (se_open_sequence opened <? dr_sequence latest)
  && (dr_generation latest =? generation) && bool_decide (dr_closed_at latest = closed)
  && match se_baseline opened with Some b => dr_generation b <? generation | None => true end.

Definition reduce_sequence_close (rd : reduction) (h : history) (e : EventEnvelopeV1) (c : CoverageEventV1)
  : result history_exn history :=
  match affected_source_sequence_start c, affected_source_sequence_end c, reconcile_generation c, closed_at c with
  | Some start, Some stop, Some generation, Some closed =>
      let key := (start, stop, opened_at c) in
      match dict_get key (h_sequences h), h_latest h with
      | Some opened, Some latest =>
          guard (recovery_matches e opened generation closed latest) HistoricalCoverageConflict ;;*
          let h := with_sequences h (dict_del key (h_sequences h)) in
          let dependencies :=
            [se_open_event_id opened; e_event_id e; dr_open_event_id latest; dr_event_id latest]
            ++ match se_baseline opened with Some b => [dr_open_event_id b; dr_event_id b] | None => [] end in
          let* hit := escape (interval_intersects_window (se_opened_at opened) (Some closed) (rd_window rd)) in
          if hit || range_hits rd (se_start opened) (se_end opened) then
            retain_closed_summary rd h (source_sequence e)
              (mkSummary (mkEpisode (u "observer") (u "observer_sequence_gap") (se_opened_at opened)
                            (se_open_event_id opened) (Some closed) (Some (e_event_id e))) dependencies)
          else Ok h
      | _, _ => Err HistoricalCoverageConflict
      end
  | _, _, _, _ => Err HistoricalCoverageConflict
  end.

Definition reduce_generic_open (prefix : list indexed) (h : history) (p : PreparedHistoricalRecord)
    (c : CoverageEventV1) : result history_exn history :=
  let e := hr_envelope p in
  let key := episode_key p c in
  match dict_get key (h_active h) with
  | None =>
      let* closed := episode_was_closed prefix key false (before prefix (source_sequence e)) in
      guard (negb closed) HistoricalCoverageConflict ;;*
      room h ;;*
      Ok (with_active h (dict_set key (opened_episode key.1.1.1 e c (dropped_count c)) (h_active h)))
  | Some opened =>
      guard (counter_update_ok (counter_required (hr_class p)) (oe_dropped_count opened) (dropped_count c))
        HistoricalCoverageConflict ;;*
      guard (present key.1.1.1 || bool_decide (reason_code c = oe_reason_code opened))
        HistoricalCoverageConflict ;;*
      Ok (with_active h (dict_set key
            (mkOpenEpisode (oe_scope_boot_id opened) (oe_component opened) (oe_kind opened) (oe_opened_at opened)
               (oe_open_event_id opened) (oe_open_sequence opened) (e_event_id e) (source_sequence e)
               (reason_code c) (dropped_count c) (normalized_fields_sha256 e) (source_payload_hash e))
            (h_active h)))
  end.

Definition reduce_generic_close (rd : reduction) (prefix : list indexed) (h : history)
    (p : PreparedHistoricalRecord) (c : CoverageEventV1) : result history_exn history :=
  let e := hr_envelope p in
  let key := episode_key p c in
  match dict_get key (h_active h) with
  | Some opened =>
      guard (counter_close_ok (counter_required (hr_class p)) (oe_dropped_count opened) (dropped_count c))
        HistoricalCoverageConflict ;;*
      let* episode := new_episode (oe_component opened) (oe_kind opened) (oe_opened_at opened)
        (oe_open_event_id opened) (closed_at c) (e_event_id e) in
      retain_if_met rd (with_active h (dict_del key (h_active h))) (source_sequence e)
        (mkSummary episode [oe_open_event_id opened; oe_latest_event_id opened; e_event_id e])
  | None =>
      key_is_unused prefix key (before prefix (source_sequence e)) ;;*
      let* episode := new_episode (component c) (kind c) (opened_at c) (e_event_id e) (closed_at c) (e_event_id e) in
      retain_if_met rd h (source_sequence e) (mkSummary episode [e_event_id e])
  end.

(** A Falco stop is an episode of its own. *)
Definition reduce_falco_stop (rd : reduction) (h : history) (e : EventEnvelopeV1) (c : CoverageEventV1)
  : result history_exn history :=
  let* episode := new_episode (component c) (kind c) (opened_at c) (e_event_id e) (closed_at c) (e_event_id e) in
  retain_if_met rd h (source_sequence e) (mkSummary episode [e_event_id e]).

(** The effect of one considered record *)
Definition reduce_action (rd : reduction) (prefix : list indexed) (h : history) (p : PreparedHistoricalRecord)
  : result history_exn history :=
  let e := hr_envelope p in
  match hr_coverage p with
  | None => Ok h
  | Some c =>
      match action (hr_class p) with
      | DockerOpen => reduce_docker_open prefix h e c
      | DockerClose => reduce_docker_close rd h e c
      | SequenceOpen => reduce_sequence_open prefix h e c
      | SequenceClose => reduce_sequence_close rd h e c
      | GenericOpen => reduce_generic_open prefix h p c
      | GenericClose => reduce_generic_close rd prefix h p c
      | FalcoStop => reduce_falco_stop rd h e c
      | _ => Ok h
      end
  end.

(** A new boot ends the episodes of a process. *)
Definition enter_boot (h : history) (boot : pystr) : history :=
  let active :=
    match h_boot h with
    | Some b =>
        if bool_decide (boot = b) then h_active h
        else List.filter (fun kv => bool_decide (oe_scope_boot_id kv.2 = None)) (h_active h)
    | None => h_active h
    end in
  with_position (with_active h active) (h_last_sequence h) (Some boot).

(** The body of the loop *)
Definition reduce_record (rd : reduction) (prefix : list indexed) (h : history) (x : indexed)
  : result history_exn history :=
  let p := ix_record x in
  let e := hr_envelope p in
  guard (bool_decide (host_id e = rd_host_id rd) && (h_last_sequence h <? source_sequence e))
    HistoricalCoverageConflict ;;*
  let h := with_position h (source_sequence e) (h_boot h) in
  if rd_through rd <? source_sequence e then Ok h
  else
    let* primary := prepared_prefix_primary prefix x in
    if negb primary then Ok h
    else
      let h := enter_boot h (boot_id e) in
      let* h :=
        if present (hr_coverage p) && (rd_trigger_sequence rd <? source_sequence e) then
          let* ids := append_bounded (h_recent_ids h) (e_event_id e) in Ok (with_recent_ids h ids)
        else Ok h in
      reduce_action rd prefix h p.

Fixpoint reduce_records (rd : reduction) (prefix : list indexed) (h : history) (l : list indexed)
  : result history_exn history :=
  match l with
  | [] => Ok h
  | x :: l => let* h := reduce_record rd prefix h x in reduce_records rd prefix h l
  end.

(** ** The timeline *)

Record HistoricalCoverageTimeline := mkTimeline {
  tl_assessment : HistoricalCoverageAssessment; tl_intervals : list HistoricalCriticalEpisode;
  tl_event_ids : list pystr }.

(** [if identifier not in final_ids: _append_bounded(...)] for each identifier *)
Fixpoint add_ids (ids new : list pystr) : result history_exn (list pystr) :=
  match new with
  | [] => Ok ids
  | i :: new =>
      if bool_decide (i ∈ ids) then add_ids ids new
      else let* ids := append_bounded ids i in add_ids ids new
  end.

Fixpoint add_summary_ids (ids : list pystr) (l : list ClosedSummary) : result history_exn (list pystr) :=
  match l with
  | [] => Ok ids
  | s :: l => let* ids := add_ids ids (cs_dependencies s) in add_summary_ids ids l
  end.

(** The episodes still open at the end *)
Fixpoint add_open (rd : reduction) (intervals : list HistoricalCriticalEpisode) (ids : list pystr)
    (l : list OpenEpisode) : result history_exn (list HistoricalCriticalEpisode * list pystr) :=
  match l with
  | [] => Ok (intervals, ids)
  | o :: l =>
      let* hit := escape (interval_intersects_window (oe_opened_at o) None (rd_window rd)) in
      if hit : bool then
        let* intervals := append_bounded intervals
          (mkEpisode (oe_component o) (oe_kind o) (oe_opened_at o) (oe_open_event_id o) None None) in
        let* ids := add_ids ids [oe_open_event_id o; oe_latest_event_id o] in
        add_open rd intervals ids l
      else add_open rd intervals ids l
  end.

(** [structural_incomplete]: a sequence gap still open meets the window or the range *)
Fixpoint structural_incomplete (rd : reduction) (incomplete : bool) (l : list SequenceEpisode)
  : result history_exn bool :=
  match l with
  | [] => Ok incomplete
  | s :: l =>
      let* hit := escape (interval_intersects_window (se_opened_at s) None (rd_window rd)) in
      structural_incomplete rd (incomplete || hit || range_hits rd (se_start s) (se_end s)) l
  end.

(** Tuples of strings, compared from the left *)
Fixpoint tuple_leb (l r : list pystr) : bool :=
  match l, r with
  | [], _ => true
  | _ :: _, [] => false
  | x :: l, y :: r => if bool_decide (x = y) then tuple_leb l r else str_leb x y
  end.

Definition episode_order (i : HistoricalCriticalEpisode) : list pystr :=
  [he_opened_at i; he_component i; he_kind i; he_open_event_id i; default [] (he_close_event_id i)].

Definition episode_leb (i j : HistoricalCriticalEpisode) : bool := tuple_leb (episode_order i) (episode_order j).

Definition episode_dump (i : HistoricalCriticalEpisode) : document := dump_of
  [(u "component", Some (JStr (he_component i))); (u "kind", Some (JStr (he_kind i)));
   (u "opened_at", Some (JStr (he_opened_at i))); (u "open_event_id", Some (JStr (he_open_event_id i)));
   (u "closed_at", JStr <$> he_closed_at i); (u "close_event_id", JStr <$> he_close_event_id i)].

(** [_bounded_for_test] *)
Definition bounded {A} (l : list A) : result history_exn unit :=
  guard (Z.of_nat (length l) <=? COLLECTION_CAP) HistoricalCoverageUnavailable.

Definition COVERAGE_HASH_DOMAIN : bytes := bstr "AGMIND_CORRELATION_COVERAGE_V1" ++ NUL.

(** [_coverage_snapshot_sha256] *)
Definition coverage_snapshot_sha256 (rd : reduction) (window_start : pystr)
    (intervals : list HistoricalCriticalEpisode) (ids : list pystr) : result history_exn pystr :=
  let intervals := py_sort episode_leb intervals in
  bounded intervals ;;*
  let ids := sort_str (remove_dups ids) in
  bounded ids ;;*
  let* canonical := escape (canonical_json (JObj
    [(u "host_id", JStr (rd_host_id rd)); (u "boot_id", JStr (rd_boot_id rd));
     (u "trigger_event_id", JStr (rd_trigger_event_id rd));
     (u "trigger_source_sequence", JInt (rd_trigger_sequence rd));
     (u "coverage_through_sequence", JInt (rd_through rd)); (u "window_start", JStr window_start);
     (u "window_end", JStr (window_end (rd_window rd)));
     (u "intersecting_intervals", JArr (map (fun i => JObj (episode_dump i)) intervals));
     (u "coverage_event_ids", strings ids)])) in
  Ok (sha256_hex (COVERAGE_HASH_DOMAIN ++ canonical)).

(** The end of [_reduce_historical_coverage_result]: the timeline of a reduced history *)
Definition conclude (rd : reduction) (h : history) : result history_exn HistoricalCoverageTimeline :=
  let summaries := h_pretrigger h ++ h_recent h in
  let* ids := add_summary_ids (h_recent_ids h) summaries in
  let* (intervals, ids) := add_open rd (map cs_episode summaries) ids (map snd (h_docker h) ++ map snd (h_active h)) in
  let* incomplete := structural_incomplete rd false (map snd (h_sequences h)) in
  let intervals := py_sort episode_leb intervals in
  bounded intervals ;;*
  let ids := sort_str (remove_dups ids) in
  bounded ids ;;*
  let complete := complete (rd_window rd) && negb incomplete in
  let* digest :=
    if complete then
      let* start := of_option HistoricalCoverageConflict (window_start (rd_window rd)) in
      let* d := coverage_snapshot_sha256 rd start intervals ids in Ok (Some d)
    else Ok None in
  let assessment := mkAssessment (rd_host_id rd) (rd_boot_id rd) (rd_trigger_event_id rd)
    (rd_trigger_sequence rd) (rd_through rd) (window_start (rd_window rd)) (window_end (rd_window rd)) complete
    (complete && negb (bool_decide (intervals = []))) digest in
  escape (assessment_validate assessment) ;;*
  Ok (mkTimeline assessment intervals ids).

(** [_reduce_historical_coverage] *)
Definition reduce_historical_coverage (records : list StoredEvidenceRecord) (host boot trigger_event_id : pystr)
    (trigger_sequence : Z) (trigger_event_time : pystr) (clock_uncertainty_ms through : Z) (window_end : pystr)
  : result history_exn HistoricalCoverageTimeline :=
  let* prepared := map_res prepare_historical_record records in
  let prefix := index_from 0 [] prepared in
  let* window := escape (historical_coverage_window trigger_event_time clock_uncertainty_ms window_end) in
  let rd := mkReduction host boot trigger_event_id trigger_sequence through window in
  let* h := reduce_records rd prefix start_history prefix in
  conclude rd h.

(** ** Late coverage *)

(** The actions the filter selects *)
Definition may_be_critical (a : CoverageAction) : bool :=
  match a with
  | DockerOpen | DockerClose | SequenceOpen | SequenceClose | GenericOpen | GenericClose | FalcoStop => true
  | _ => false
  end.

(** The actions whose interval the full check compares with the window *)
Definition is_critical (a : CoverageAction) : bool :=
  match a with
  | DockerOpen | DockerClose | SequenceOpen | SequenceClose | GenericOpen | GenericClose | FalcoStop => true
  | _ => false
  end.

(** [_late_coverage_may_invalidate_candidate] *)
Definition late_coverage_may_invalidate_candidate (record : StoredEvidenceRecord) : result history_exn bool :=
  let* p := prepare_historical_record record in
  Ok (present (hr_coverage p) && may_be_critical (action (hr_class p))).

(** [_late_coverage_invalidates_candidate_values]; [sequence] is the source sequence of the
    authenticated snapshot *)
Definition late_coverage_invalidates_candidate_values (a : AuthenticatedPCCInput) (sequence : Z)
    (record : StoredEvidenceRecord) : result history_exn bool :=
  let* p := prepare_historical_record record in
  match hr_coverage p with
  | None => Ok false
  | Some c =>
      let e := hr_envelope p in
      let s := a_snapshot a in
      let t := s_trigger s in
      guard (bool_decide (s_outcome s = Complete) && bool_decide (a_host_id a = t_host_id t)
             && bool_decide (a_boot_id a = t_boot_id t) && (t_sequence t <? sequence)
             && (s_coverage_through s =? sequence - 1) && bool_decide (host_id e = a_host_id a)
             && (sequence <? source_sequence e)) HistoricalCoverageConflict ;;*
      let act := action (hr_class p) in
      let* sequence_intersects :=
        match act with
        | SequenceOpen | SequenceClose =>
            match affected_source_sequence_start c, affected_source_sequence_end c with
            | Some start, Some stop =>
                Ok (negb ((stop <? t_sequence t) || (s_coverage_through s <? start)))
            | _, _ => Err HistoricalCoverageConflict
            end
        | _ => Ok false
        end in
      let* time_intersects :=
        if is_critical act
           && (negb (bool_decide (scope (hr_class p) = Some ProcessScope))
               || bool_decide (boot_id e = a_boot_id a)) then
          let* window := escape (historical_coverage_window (t_event_time t) (t_clock_uncertainty_ms t)
                                   (s_decision_time s)) in
          escape (interval_intersects_window (opened_at c) (closed_at c) window)
        else Ok false in
      Ok (time_intersects || sequence_intersects)
  end.

(** C38: the cheap filter for late coverage never hides a record that matters: whenever the
    full check finds that a late record invalidates a candidate, the filter selects the
    record. *)
Theorem late_filter_complete a sequence record :
  late_coverage_invalidates_candidate_values a sequence record = Ok true ->
  late_coverage_may_invalidate_candidate record = Ok true.
Proof.
  unfold late_coverage_invalidates_candidate_values, late_coverage_may_invalidate_candidate. intros H.
  apply rbind_ok in H as (p & -> & H). cbn [rbind]. destruct (hr_coverage p) as [c|]; [|done].
  apply rbind_ok in H as (u1 & _ & H). apply rbind_ok in H as (si & Hs & H).
  apply rbind_ok in H as (ti & Ht & H). cbn [present andb]. f_equal.
  destruct (action (hr_class p)); try done; cbn [is_critical andb] in Ht; injection Ht as <-;
    injection Hs as <-; done.
Qed.

(** ** What the reduction keeps *)

Section Dict_facts.
Context {K V : Type} `{EqDecision K}.
Implicit Types d : list (K * V).

Lemma dict_get_in k v d : dict_get k d = Some v -> (k, v) ∈ d.
Proof.
  induction d as [|[k' v'] d IH]; [done|]. cbn [dict_get].
  destruct (bool_decide_reflect (k = k')) as [->|]; [intros [= ->]; by left|]. intros H. right. by apply IH.
Qed.

Lemma dict_set_same k v d : (k, v) ∈ dict_set k v d.
Proof.
  induction d as [|[k' v'] d IH]; cbn [dict_set]; [by left|].
  destruct (bool_decide _); [by left|]. by right.
Qed.

Lemma dict_set_other k v d x : x ∈ d -> x.1 <> k -> x ∈ dict_set k v d.
Proof.
  induction d as [|[k' v'] d IH]; intros Hx Hk; [by apply elem_of_nil in Hx|]. cbn [dict_set].
  apply elem_of_cons in Hx as [->|Hx]; case_bool_decide as E; cbn in *.
  - congruence.
  - by left.
  - by right.
  - right. by apply IH.
Qed.

Lemma dict_set_sub k v d x : x ∈ dict_set k v d -> x = (k, v) \/ x ∈ d.
Proof.
  induction d as [|[k' v'] d IH]; cbn [dict_set]; [intros ->%list_elem_of_singleton; by left|].
  case_bool_decide as E; intros [->|Hx]%elem_of_cons; [by left|right; by right|right; by left|].
  destruct (IH Hx) as [->|]; [by left|right; by right].
Qed.

Lemma dict_del_spec k d x : x ∈ dict_del k d <-> x ∈ d /\ x.1 <> k.
Proof.
  unfold dict_del. rewrite !list_elem_of_In, filter_In, negb_true_iff, bool_decide_eq_false. intuition congruence.
Qed.
End Dict_facts.

Section Soundness.
Variable rd : reduction.
Implicit Types p q : PreparedHistoricalRecord.

(** The instants of a complete window *)
Definition in_window (t : Z) : Prop :=
  complete (rd_window rd) = true
  /\ exists start, window_start_ns (rd_window rd) = Some start /\ start <= t <= window_end_ns (rd_window rd).

(** No instant of the window lies in the interval: one at or after its opening is after its
    closing. *)
Definition misses (opened : pystr) (closed : option pystr) : Prop :=
  forall t o, in_window t -> parse_rfc3339nano_utc_ns opened = Ok o -> o <= t ->
  exists text c, closed = Some text /\ parse_rfc3339nano_utc_ns text = Ok c /\ c < t.

Lemma not_hit opened closed :
  interval_intersects_window opened closed (rd_window rd) = Ok false -> misses opened closed.
Proof.
  intros H t o (Hc & start & Hs & Ht) Ho Hle. unfold interval_intersects_window in H. rewrite Hs, Hc, Ho in H.
  cbn [rbind] in H. apply rbind_ok in H as (oc & Hoc & H). apply rbind_ok in H as (u1 & _ & H). injection H as H.
  rewrite (proj2 (Z.leb_le _ _)) in H by lia. cbn [andb] in H. destruct oc as [c|]; [|done].
  unfold parse_optional_ns in Hoc. destruct closed as [text|]; [|done].
  apply rbind_ok in Hoc as (n & Hn & Hoc). injection Hoc as ->. apply Z.leb_gt in H.
  exists text, c. split_and!; try done. lia.
Qed.

(** The outage that a closing record ends, or a Falco stop is, misses the window; a closed
    sequence gap also misses the range of sequences. *)
Definition outage_misses p : Prop :=
  match hr_coverage p with
  | None => True
  | Some c =>
      match action (hr_class p) with
      | DockerClose | GenericClose | FalcoStop => misses (opened_at c) (closed_at c)
      | SequenceClose =>
          misses (opened_at c) (closed_at c)
          /\ exists start stop, affected_source_sequence_start c = Some start
               /\ affected_source_sequence_end c = Some stop /\ range_hits rd start stop = false
      | _ => True
      end
  end.

(** [q] ends the outage that [p] opens. *)
Definition ends_docker (key : pystr * Z) q : Prop :=
  exists c, hr_coverage q = Some c /\ action (hr_class q) = DockerClose
    /\ opened_at c = key.1 /\ reconcile_generation c = Some key.2.

Definition ends_sequence (key : Z * Z * pystr) q : Prop :=
  exists c, hr_coverage q = Some c /\ action (hr_class q) = SequenceClose
    /\ affected_source_sequence_start c = Some key.1.1 /\ affected_source_sequence_end c = Some key.1.2
    /\ opened_at c = key.2.

Definition ends_generic (key : episode_key_type) q : Prop :=
  exists c, hr_coverage q = Some c /\ action (hr_class q) = GenericClose /\ episode_key q c = key.

(** The boot of a process-scoped key has ended. *)
Definition leaves_boot (key : episode_key_type) q : Prop :=
  exists b, key.1.1.1 = Some b /\ boot_id (hr_envelope q) <> b.

Definition summaries (h : history) : list ClosedSummary := h_pretrigger h ++ h_recent h.

Definition in_dict {K V} (k : K) (d : list (K * V)) : Prop := exists v, (k, v) ∈ d.

(** What [p] opened is still tracked, or a later record ended it. *)
Definition pending p (later : list PreparedHistoricalRecord) (h : history) : Prop :=
  match hr_coverage p with
  | None => True
  | Some c =>
      match action (hr_class p) with
      | DockerOpen =>
          exists g, reconcile_generation c = Some g
            /\ (in_dict (opened_at c, g) (h_docker h) \/ Exists (ends_docker (opened_at c, g)) later)
      | SequenceOpen =>
          exists start stop, affected_source_sequence_start c = Some start
            /\ affected_source_sequence_end c = Some stop
            /\ (in_dict (start, stop, opened_at c) (h_sequences h)
                \/ Exists (ends_sequence (start, stop, opened_at c)) later)
      | GenericOpen =>
          in_dict (episode_key p c) (h_active h)
          \/ Exists (fun q => ends_generic (episode_key p c) q \/ leaves_boot (episode_key p c) q) later
      | _ => True
      end
  end.

(** The dictionaries say of each key what the key says. *)
Record keyed (h : history) : Prop := mkKeyed {
  ke_docker : forall k o, (k, o) ∈ h_docker h -> oe_opened_at o = k.1;
  ke_sequences : forall k s, (k, s) ∈ h_sequences h -> k = (se_start s, se_end s, se_opened_at s);
  ke_active : forall k o, (k, o) ∈ h_active h -> oe_opened_at o = k.2 /\ oe_scope_boot_id o = k.1.1.1;
  ke_boot : forall k o b, (k, o) ∈ h_active h -> k.1.1.1 = Some b -> h_boot h = Some b }.

(** One considered record: closed outages in the window are kept, dictionaries lose only what
    the record ends, and what it opens is there. *)
Record effect p (h h' : history) : Prop := mkEffect {
  ef_summaries : summaries h' = [] -> summaries h = [] /\ outage_misses p;
  ef_docker : forall k, in_dict k (h_docker h) -> in_dict k (h_docker h') \/ ends_docker k p;
  ef_sequences : forall k, in_dict k (h_sequences h) -> in_dict k (h_sequences h') \/ ends_sequence k p;
  ef_active : forall k, in_dict k (h_active h) -> in_dict k (h_active h') \/ ends_generic k p;
  ef_opened : pending p [] h';
  ef_boot : h_boot h' = h_boot h;
  ef_keyed : keyed h' }.

Lemma retain_spec h sequence s h' :
  retain_closed_summary rd h sequence s = Ok h' ->
  summaries h' <> [] /\ h_docker h' = h_docker h /\ h_sequences h' = h_sequences h
  /\ h_active h' = h_active h /\ h_boot h' = h_boot h.
Proof.
  unfold retain_closed_summary, append_bounded. destruct (_ <=? _); intros H.
  all: apply rbind_ok in H as (l & H1 & H); apply rbind_ok in H1 as (u1 & _ & H1); injection H1 as <-;
    injection H as <-; cbn; split_and!; try done; by destruct (h_pretrigger h), (h_recent h).
Qed.

Lemma retain_if_spec h sequence s h' :
  retain_if_met rd h sequence s = Ok h' ->
  (summaries h' = [] -> summaries h = [] /\ misses (he_opened_at (cs_episode s)) (he_closed_at (cs_episode s)))
  /\ h_docker h' = h_docker h /\ h_sequences h' = h_sequences h
  /\ h_active h' = h_active h /\ h_boot h' = h_boot h.
Proof.
  unfold retain_if_met. intros H. apply rbind_ok in H as (hit & Hh%catch_ok & H). destruct hit.
  - apply retain_spec in H as (Hn & ?). by split.
  - injection H as <-. split; [|done]. intros Hs. split; [done|by apply not_hit].
Qed.

Lemma keyed_same h h' :
  keyed h -> h_docker h' = h_docker h -> h_sequences h' = h_sequences h -> h_active h' = h_active h ->
  h_boot h' = h_boot h -> keyed h'.
Proof. intros [H1 H2 H3 H4] E1 E2 E3 E4. split; rewrite ?E1, ?E2, ?E3, ?E4; done. Qed.

(** Records that change no dictionary *)
Lemma effect_stop p c h h' :
  hr_coverage p = Some c -> action (hr_class p) = FalcoStop -> keyed h ->
  reduce_falco_stop rd h (hr_envelope p) c = Ok h' -> effect p h h'.
Proof.
  intros Hc Ha Hk H. unfold reduce_falco_stop, new_episode in H. apply rbind_ok in H as (ep & He & H).
  apply rbind_ok in He as (u1 & _ & He). injection He as <-.
  apply retain_if_spec in H as (Hs & E1 & E2 & E3 & E4). cbn in Hs.
  split; rewrite ?E1, ?E2, ?E3; auto; [|by unfold pending; rewrite Hc, Ha|by eapply keyed_same].
  unfold outage_misses. rewrite Hc, Ha. done.
Qed.

Lemma in_dict_set {K V} `{EqDecision K} (k k' : K) (v : V) d : in_dict k' d -> in_dict k' (dict_set k v d).
Proof.
  intros [w Hw]. destruct (decide (k' = k)) as [->|Hne]; [exists v; apply dict_set_same|].
  exists w. by apply dict_set_other.
Qed.

Lemma in_dict_del {K V} `{EqDecision K} (k k' : K) (d : list (K * V)) :
  in_dict k' d -> in_dict k' (dict_del k d) \/ k' = k.
Proof.
  intros [w Hw]. destruct (decide (k' = k)) as [->|Hne]; [by right|left].
  exists w. by apply dict_del_spec.
Qed.

Lemma effect_docker_open prefix p c h h' :
  hr_coverage p = Some c -> action (hr_class p) = DockerOpen -> keyed h ->
  reduce_docker_open prefix h (hr_envelope p) c = Ok h' -> effect p h h'.
Proof.
  intros Hc Ha Hk H. unfold reduce_docker_open in H.
  destruct (reconcile_generation c) as [g|] eqn:Hg; [|done]. cbv zeta in H.
  apply rbind_ok in H as (u1 & _ & H). apply rbind_ok in H as (seen & _ & H). apply rbind_ok in H as (u2 & _ & H).
  apply rbind_ok in H as (u3 & _ & H). injection H as <-. split; cbn; auto.
  - unfold outage_misses. by rewrite Hc, Ha.
  - intros k Hin. left. by apply in_dict_set.
  - unfold pending. rewrite Hc, Ha. exists g. split; [done|]. left. eexists. apply dict_set_same.
  - destruct Hk as [H1 H2 H3 H4]. split; try done. cbn. intros k o [[= -> ->]|Hin]%dict_set_sub; [done|]. by apply H1.
Qed.

Lemma effect_docker_close p c h h' :
  hr_coverage p = Some c -> action (hr_class p) = DockerClose -> keyed h ->
  reduce_docker_close rd h (hr_envelope p) c = Ok h' -> effect p h h'.
Proof.
  intros Hc Ha Hk H. unfold reduce_docker_close in H.
  destruct (reconcile_generation c) as [g|] eqn:Hg; [|done]. destruct (closed_at c) as [cl|] eqn:Hcl; [|done].
  cbv zeta in H. destruct (dict_get (opened_at c, g) (h_docker h)) as [o|] eqn:Ho; [|done].
  apply dict_get_in in Ho. pose proof (ke_docker _ Hk _ _ Ho) as Eo. cbn in Eo.
  apply rbind_ok in H as (u1 & _ & H). apply rbind_ok in H as (h1 & H1 & H). injection H as <-.
  apply retain_if_spec in H1 as (Hs & E1 & E2 & E3 & E4). cbn in Hs, E1, E2, E3, E4.
  split; cbn; rewrite ?E1, ?E2, ?E3; auto.
  - unfold outage_misses. rewrite Hc, Ha, Hcl, <- Eo. apply Hs.
  - intros k Hin. destruct (in_dict_del (opened_at c, g) k (h_docker h) Hin) as [| ->]; [by left|right].
    exists c. by split_and!.
  - unfold pending. by rewrite Hc, Ha.
  - destruct Hk as [K1 K2 K3 K4]. split; cbn; rewrite ?E1, ?E2, ?E3, ?E4; try done.
    intros k o' [Hin _]%dict_del_spec. by apply K1.
Qed.

Lemma effect_sequence_open prefix p c h h' :
  hr_coverage p = Some c -> action (hr_class p) = SequenceOpen -> keyed h ->
  reduce_sequence_open prefix h (hr_envelope p) c = Ok h' -> effect p h h'.
Proof.
  intros Hc Ha Hk H. unfold reduce_sequence_open in H.
  destruct (affected_source_sequence_start c) as [a|] eqn:Hs; [|done].
  destruct (affected_source_sequence_end c) as [b|] eqn:He; [|done]. cbv zeta in H.
  apply rbind_ok in H as (u1 & _ & H). apply rbind_ok in H as (seen & _ & H). apply rbind_ok in H as (u2 & _ & H).
  apply rbind_ok in H as (u3 & _ & H). injection H as <-. split; cbn; auto.
  - unfold outage_misses. by rewrite Hc, Ha.
  - intros k Hin. left. by apply in_dict_set.
  - unfold pending. rewrite Hc, Ha. exists a, b. split_and!; try done. left. eexists. apply dict_set_same.
  - destruct Hk as [H1 H2 H3 H4]. split; try done. cbn. intros k o [[= -> ->]|Hin]%dict_set_sub; [done|]. by apply H2.
Qed.

Lemma effect_sequence_close p c h h' :
  hr_coverage p = Some c -> action (hr_class p) = SequenceClose -> keyed h ->
  reduce_sequence_close rd h (hr_envelope p) c = Ok h' -> effect p h h'.
Proof.
  intros Hc Ha Hk H. unfold reduce_sequence_close in H.
  destruct (affected_source_sequence_start c) as [a|] eqn:Hs; [|done].
  destruct (affected_source_sequence_end c) as [b|] eqn:He; [|done].
  destruct (reconcile_generation c) as [g|]; [|done]. destruct (closed_at c) as [cl|] eqn:Hcl; [|done]. cbv zeta in H.
  destruct (dict_get (a, b, opened_at c) (h_sequences h)) as [o|] eqn:Ho; [|done].
  destruct (h_latest h) as [latest|]; [|done].
  apply dict_get_in in Ho. pose proof (ke_sequences _ Hk _ _ Ho) as Eo. injection Eo as Ea Eb Et.
  apply rbind_ok in H as (u1 & _ & H). apply rbind_ok in H as (hit & Hh%catch_ok & H).
  assert (E : h_docker h' = h_docker h /\ h_sequences h' = dict_del (a, b, opened_at c) (h_sequences h)
    /\ h_active h' = h_active h /\ h_boot h' = h_boot h
    /\ (summaries h' = [] -> summaries h = [] /\ hit || range_hits rd (se_start o) (se_end o) = false)).
  { destruct (hit || _) eqn:Hr; [|by injection H as <-]. apply retain_spec in H as (Hn & ? & ? & ? & ?). by split_and!. }
  destruct E as (E1 & E2 & E3 & E4 & Hsum). split; cbn; rewrite ?E1, ?E2, ?E3; auto.
  - intros [Hs0 [-> Hr]%orb_false_iff]%Hsum. split; [done|]. unfold outage_misses. rewrite Hc, Ha, Hcl.
    split; [apply not_hit; by rewrite Et|]. exists a, b. rewrite Hs, He. split_and!; try done. by rewrite Ea, Eb.
  - intros k Hin. destruct (in_dict_del (a, b, opened_at c) k (h_sequences h) Hin) as [| ->]; [by left|right].
    exists c. by split_and!.
  - unfold pending. by rewrite Hc, Ha.
  - destruct Hk as [K1 K2 K3 K4]. split; rewrite ?E1, ?E2, ?E3, ?E4; try done.
    intros k s [Hin _]%dict_del_spec. by apply K2.
Qed.

(** A process-scoped key names the boot of its record. *)
Definition current (p : PreparedHistoricalRecord) (h : history) : Prop := h_boot h = Some (boot_id (hr_envelope p)).

Lemma episode_key_boot p c b : (episode_key p c).1.1.1 = Some b -> b = boot_id (hr_envelope p).
Proof. unfold episode_key. cbn. case_bool_decide; congruence. Qed.

Lemma effect_generic_open prefix p c h h' :
  hr_coverage p = Some c -> action (hr_class p) = GenericOpen -> keyed h -> current p h ->
  reduce_generic_open prefix h p c = Ok h' -> effect p h h'.
Proof.
  intros Hc Ha Hk Hb H. unfold reduce_generic_open in H. cbv zeta in H.
  assert (E : exists o, h' = with_active h (dict_set (episode_key p c) o (h_active h))
                /\ oe_opened_at o = opened_at c /\ oe_scope_boot_id o = (episode_key p c).1.1.1).
  { destruct (dict_get (episode_key p c) (h_active h)) as [o|] eqn:Ho.
    - apply dict_get_in in Ho. destruct (ke_active _ Hk _ _ Ho) as [Eo Es].
      apply rbind_ok in H as (u1 & _ & H). apply rbind_ok in H as (u2 & _ & H). injection H as <-.
      eexists. split; [reflexivity|]. by split.
    - apply rbind_ok in H as (cl & _ & H). apply rbind_ok in H as (u1 & _ & H). apply rbind_ok in H as (u2 & _ & H).
      injection H as <-. eexists. split; [reflexivity|]. by split. }
  destruct E as (o & -> & Eo & Es). split; cbn; auto.
  - unfold outage_misses. by rewrite Hc, Ha.
  - intros k Hin. left. by apply in_dict_set.
  - unfold pending. rewrite Hc, Ha. left. eexists. apply dict_set_same.
  - destruct Hk as [K1 K2 K3 K4]. split; try done; cbn.
    + intros k o' [[= -> ->]|Hin]%dict_set_sub; [done|]. by apply K3.
    + intros k o' b [[= -> ->]|Hin]%dict_set_sub Hkb; [|by eapply K4].
      apply episode_key_boot in Hkb as ->. exact Hb.
Qed.

Lemma effect_generic_close prefix p c h h' :
  hr_coverage p = Some c -> action (hr_class p) = GenericClose -> keyed h ->
  reduce_generic_close rd prefix h p c = Ok h' -> effect p h h'.
Proof.
  intros Hc Ha Hk H. unfold reduce_generic_close, new_episode in H. cbv zeta in H.
  destruct (dict_get (episode_key p c) (h_active h)) as [o|] eqn:Ho.
  - apply dict_get_in in Ho. destruct (ke_active _ Hk _ _ Ho) as [Eo _]. cbn in Eo.
    apply rbind_ok in H as (u1 & _ & H). apply rbind_ok in H as (ep & He & H).
    apply rbind_ok in He as (u2 & _ & He). injection He as <-.
    apply retain_if_spec in H as (Hs & E1 & E2 & E3 & E4). cbn in Hs, E1, E2, E3, E4.
    split; rewrite ?E1, ?E2, ?E3; auto.
    + unfold outage_misses. rewrite Hc, Ha, <- Eo. exact Hs.
    + intros k Hin. destruct (in_dict_del (episode_key p c) k (h_active h) Hin) as [| ->]; [by left|right].
      exists c. by split_and!.
    + unfold pending. by rewrite Hc, Ha.
    + destruct Hk as [K1 K2 K3 K4]. split; rewrite ?E1, ?E2, ?E3, ?E4; try done.
      * intros k o' [Hin _]%dict_del_spec. by apply K3.
      * intros k o' b [Hin _]%dict_del_spec. by eapply K4.
  - apply rbind_ok in H as (u1 & _ & H). apply rbind_ok in H as (ep & He & H).
    apply rbind_ok in He as (u2 & _ & He). injection He as <-.
    apply retain_if_spec in H as (Hs & E1 & E2 & E3 & E4). cbn in Hs.
    split; rewrite ?E1, ?E2, ?E3; auto; [|by unfold pending; rewrite Hc, Ha|by eapply keyed_same].
    unfold outage_misses. by rewrite Hc, Ha.
Qed.

Lemma action_effect prefix p h h' :
  keyed h -> current p h -> reduce_action rd prefix h p = Ok h' -> effect p h h'.
Proof.
  intros Hk Hb H. unfold reduce_action in H. cbv zeta in H.
  assert (Hn : (hr_coverage p = None \/ exists c, hr_coverage p = Some c /\ is_critical (action (hr_class p)) = false) ->
               h' = h -> effect p h h').
  { intros Hp ->. split; auto; unfold outage_misses, pending; destruct (hr_coverage p) as [c|]; try done;
      destruct Hp as [|(c' & _ & Hp)]; try done; by destruct (action (hr_class p)). }
  destruct (hr_coverage p) as [c|] eqn:Hc; [|injection H as <-; apply Hn; auto].
  destruct (action (hr_class p)) eqn:Ha; try (injection H as <-; apply Hn; [right; by exists c|done]).
  - by eapply effect_docker_open.
  - by eapply effect_docker_close.
  - by eapply effect_sequence_open.
  - by eapply effect_sequence_close.
  - by eapply effect_stop.
  - by eapply effect_generic_open.
  - by eapply effect_generic_close.
Qed.

(** ** The loop *)

(** What is known of a history after the considered records [cs] *)
Record tracked (cs : list PreparedHistoricalRecord) (h : history) : Prop := mkTracked {
  tr_closed : summaries h = [] -> forall p, p ∈ cs -> outage_misses p;
  tr_open : forall d1 p d2, cs = d1 ++ p :: d2 -> pending p d2 h;
  tr_keyed : keyed h }.

(** Leaving a boot drops only episodes of that boot. *)
Lemma enter_boot_keyed h boot : keyed h -> keyed (enter_boot h boot).
Proof.
  intros [K1 K2 K3 K4]. unfold enter_boot. split; cbn; try done.
  - destruct (h_boot h) as [b|] eqn:Hb; [case_bool_decide|]; try done.
    intros k o Hin. apply list_elem_of_In, filter_In in Hin as [Hin _]. apply K3. by apply list_elem_of_In.
  - intros k o b Hin Hk. destruct (h_boot h) as [b0|] eqn:Hb; [case_bool_decide as E|].
    + subst b0. by rewrite <- (K4 k o b Hin Hk).
    + apply list_elem_of_In, filter_In in Hin as [Hin Hs]. cbn in Hs. apply bool_decide_eq_true in Hs.
      apply list_elem_of_In in Hin. destruct (K3 _ _ Hin) as [_ Hc]. congruence.
    + by specialize (K4 k o b Hin Hk).
Qed.

Lemma enter_boot_active h p k :
  keyed h -> in_dict k (h_active h) ->
  in_dict k (h_active (enter_boot h (boot_id (hr_envelope p)))) \/ leaves_boot k p.
Proof.
  intros [_ _ K3 K4] [o Hin]. unfold enter_boot. cbn.
  destruct (h_boot h) as [b|] eqn:Hb; [case_bool_decide as E|]; try (left; by exists o).
  destruct k as [[[sc cp] kd] op]. destruct sc as [b'|]; [right|left].
  - exists b'. split; [done|]. specialize (K4 _ _ b' Hin eq_refl). congruence.
  - exists o. apply list_elem_of_In, filter_In. split; [by apply list_elem_of_In|]. cbn. apply bool_decide_eq_true.
    by destruct (K3 _ _ Hin).
Qed.

Lemma exists_snoc {A} (P : A -> Prop) l x : Exists P l -> Exists P (l ++ [x]).
Proof. intros H. apply Exists_app. by left. Qed.

Lemma exists_last {A} (P : A -> Prop) l x : P x -> Exists P (l ++ [x]).
Proof. intros H. apply Exists_app. right. by apply Exists_cons_hd. Qed.

Lemma pending_step p later h h1 h' q :
  pending p later h -> keyed h -> h_docker h1 = h_docker h -> h_sequences h1 = h_sequences h ->
  h_active h1 = h_active (enter_boot h (boot_id (hr_envelope q))) -> effect q h1 h' ->
  pending p (later ++ [q]) h'.
Proof.
  intros Hp Hk Ed Es Ea Hq. unfold pending in *. destruct (hr_coverage p) as [c|]; [|done].
  destruct (action (hr_class p)); try done.
  - destruct Hp as (g & Hg & [Hin|Hex]); exists g; (split; [done|]); [|right; by apply exists_snoc].
    rewrite <- Ed in Hin. destruct (ef_docker _ _ _ Hq _ Hin) as [|He]; [by left|right; by apply exists_last].
  - destruct Hp as (a & b & Hs & He & [Hin|Hex]); exists a, b; (split; [done|]); (split; [done|]);
      [|right; by apply exists_snoc].
    rewrite <- Es in Hin. destruct (ef_sequences _ _ _ Hq _ Hin) as [|Hx]; [by left|right; by apply exists_last].
  - destruct Hp as [Hin|Hex]; [|right; by apply exists_snoc].
    destruct (enter_boot_active h q _ Hk Hin) as [Hin1|Hl]; [|right; apply exists_last; by right].
    rewrite <- Ea in Hin1. destruct (ef_active _ _ _ Hq _ Hin1) as [|He]; [by left|].
    right. apply exists_last. by left.
Qed.

Definition is_considered (x : indexed) : bool := (ix_sequence x <=? rd_through rd) && ix_primary x.

Definition considered (l : list indexed) : list PreparedHistoricalRecord :=
  map ix_record (List.filter is_considered l).

Lemma tracked_snoc cs h h1 h' q :
  tracked cs h -> h_docker h1 = h_docker h -> h_sequences h1 = h_sequences h ->
  h_active h1 = h_active (enter_boot h (boot_id (hr_envelope q))) -> summaries h1 = summaries h ->
  effect q h1 h' -> tracked (cs ++ [q]) h'.
Proof.
  intros [T1 T2 T3] Ed Es Ea Esum Hq. split; [..|apply Hq].
  - intros H0. destruct (ef_summaries _ _ _ Hq H0) as [H1 Hm]. rewrite Esum in H1.
    intros p [Hp| ->%list_elem_of_singleton]%elem_of_app; [by apply T1|done].
  - intros d1 p d2 E. destruct (List.app_eq_app _ _ _ _ E) as (l & [[-> El]|[-> El]]).
    + destruct l as [|y l]; cbn in El; injection El as -> ->; [apply Hq|].
      eapply pending_step; [by apply (T2 d1 y l)|done..].
    + destruct l as [|y l]; cbn in El; [injection El as <- <-; apply Hq|].
      apply (f_equal length) in El. cbn in El. rewrite length_app in El. cbn in El. lia.
Qed.

Lemma record_tracked prefix cs h x h' :
  tracked cs h -> reduce_record rd prefix h x = Ok h' ->
  tracked (cs ++ considered [x]) h'.
Proof.
  intros T H. unfold reduce_record in H. cbv zeta in H. apply rbind_ok in H as (u1 & _ & H).
  assert (Tp : tracked cs (with_position h (source_sequence (hr_envelope (ix_record x))) (h_boot h))).
  { destruct T as [T1 T2 T3]. split; [exact T1|exact T2|]. by eapply keyed_same. }
  unfold considered, is_considered, ix_sequence. cbn [List.filter]. rewrite Z.leb_antisym.
  destruct (rd_through rd <? _) eqn:Ht; cbn [negb andb].
  { injection H as <-. by rewrite app_nil_r. }
  apply rbind_ok in H as (primary & Hp & H).
  assert (primary = ix_primary x) as ->.
  { unfold prepared_prefix_primary in Hp. apply rbind_ok in Hp as (u2 & _ & Hp). by injection Hp. }
  destruct (ix_primary x); cbn [negb] in H; [|injection H as <-; by rewrite app_nil_r].
  apply rbind_ok in H as (h1 & H1 & H). cbn [map].
  assert (E : h_docker h1 = h_docker h /\ h_sequences h1 = h_sequences h
    /\ h_active h1 = h_active (enter_boot h (boot_id (hr_envelope (ix_record x)))) /\ summaries h1 = summaries h
    /\ keyed h1 /\ current (ix_record x) h1).
  { assert (K : keyed (enter_boot (with_position h (source_sequence (hr_envelope (ix_record x))) (h_boot h))
                         (boot_id (hr_envelope (ix_record x))))) by apply enter_boot_keyed, Tp.
    destruct (present _ && _); [|by injection H1 as <-; split_and!].
    apply rbind_ok in H1 as (ids & _ & H1). injection H1 as <-. split_and!; try done. by eapply keyed_same. }
  destruct E as (E1 & E2 & E3 & E4 & K1 & C1).
  eapply tracked_snoc; try eassumption. by eapply action_effect.
Qed.

Lemma records_tracked prefix l : forall cs h h',
  tracked cs h -> reduce_records rd prefix h l = Ok h' -> tracked (cs ++ considered l) h'.
Proof.
  induction l as [|x l IH]; intros cs h h' T H; cbn [reduce_records] in H.
  - injection H as <-. unfold considered. by rewrite app_nil_r.
  - apply rbind_ok in H as (h1 & H1 & H). apply (record_tracked _ _ _ _ _ T) in H1.
    apply (IH _ _ _ H1) in H. unfold considered in *. cbn [List.filter] in *.
    destruct (is_considered x); cbn [map] in H |- *; [by rewrite <- app_assoc in H|by rewrite app_nil_r in H].
Qed.

Lemma start_tracked : tracked [] start_history.
Proof.
  split; [intros _ p Hp; by apply elem_of_nil in Hp| |split; cbn; intros k o *; intros Hin; by apply elem_of_nil in Hin].
  intros d1 p d2 E. by destruct d1.
Qed.

(** ** The end of the reduction *)

Lemma add_open_grows l : forall intervals ids intervals' ids',
  add_open rd intervals ids l = Ok (intervals', ids') ->
  intervals' = [] -> intervals = [] /\ forall o, o ∈ l -> misses (oe_opened_at o) None.
Proof.
  induction l as [|o l IH]; intros intervals ids intervals' ids' H E; cbn [add_open] in H.
  - injection H as <- _. split; [done|]. intros o Ho. by apply elem_of_nil in Ho.
  - apply rbind_ok in H as (hit & Hh%catch_ok & H). destruct hit.
    + apply rbind_ok in H as (i1 & Hi & H). apply rbind_ok in H as (ids1 & _ & H).
      destruct (IH _ _ _ _ H E) as [-> _]. unfold append_bounded in Hi. apply rbind_ok in Hi as (u1 & _ & Hi).
      injection Hi as Hi. by destruct intervals.
    + destruct (IH _ _ _ _ H E) as [-> Hl]. split; [done|].
      intros o' [->|Hin]%elem_of_cons; [by apply not_hit|by apply Hl].
Qed.

Lemma structural_sound l : forall incomplete,
  structural_incomplete rd incomplete l = Ok false ->
  incomplete = false /\ forall s, s ∈ l -> misses (se_opened_at s) None /\ range_hits rd (se_start s) (se_end s) = false.
Proof.
  induction l as [|s l IH]; intros incomplete H; cbn [structural_incomplete] in H.
  - injection H as ->. split; [done|]. intros s Hs. by apply elem_of_nil in Hs.
  - apply rbind_ok in H as (hit & Hh%catch_ok & H). apply IH in H as [Hb Hl].
    apply orb_false_iff in Hb as [[-> ->]%orb_false_iff Hr]. split; [done|].
    intros s' [->|Hin]%elem_of_cons; [|by apply Hl]. split; [by apply not_hit|done].
Qed.

Lemma py_sort_nil {A} (leb : A -> A -> bool) l : py_sort leb l = [] -> l = [].
Proof. intros H. apply Permutation_nil_r. rewrite <- H. symmetry. apply py_sort_perm. Qed.

(** What an outage that [p] opened can do to a clean window: it misses it, or it was ended by
    a later record, whose own interval misses it. *)
Definition opening_harmless (p : PreparedHistoricalRecord) (later : list PreparedHistoricalRecord) : Prop :=
  match hr_coverage p with
  | None => True
  | Some c =>
      match action (hr_class p) with
      | DockerOpen =>
          misses (opened_at c) None
          \/ exists g, reconcile_generation c = Some g /\ Exists (ends_docker (opened_at c, g)) later
      | SequenceOpen =>
          exists start stop, affected_source_sequence_start c = Some start
            /\ affected_source_sequence_end c = Some stop
            /\ (misses (opened_at c) None /\ range_hits rd start stop = false
                \/ Exists (ends_sequence (start, stop, opened_at c)) later)
      | GenericOpen =>
          misses (opened_at c) None
          \/ Exists (fun q => ends_generic (episode_key p c) q \/ leaves_boot (episode_key p c) q) later
      | _ => True
      end
  end.

Lemma conclude_clean cs h t :
  tracked cs h -> conclude rd h = Ok t ->
  v_complete (tl_assessment t) = true -> v_critical_gap (tl_assessment t) = false ->
  complete (rd_window rd) = true /\ (forall p, p ∈ cs -> outage_misses p)
  /\ forall d1 p d2, cs = d1 ++ p :: d2 -> opening_harmless p d2.
Proof.
  intros [T1 T2 [K1 K2 K3 K4]] H Hc Hg. unfold conclude in H. cbv zeta in H.
  apply rbind_ok in H as (ids & _ & H). apply rbind_ok in H as ([intervals ids2] & Ho & H).
  apply rbind_ok in H as (incomplete & Hs & H). apply rbind_ok in H as (u1 & _ & H).
  apply rbind_ok in H as (u2 & _ & H). apply rbind_ok in H as (digest & _ & H). apply rbind_ok in H as (u3 & _ & H).
  injection H as <-. cbn [tl_assessment v_complete v_critical_gap] in Hc, Hg. rewrite Hc in Hg. cbn [andb] in Hg.
  apply negb_false_iff, bool_decide_eq_true, py_sort_nil in Hg.
  apply andb_true_iff in Hc as [Hw ->%negb_true_iff]. apply structural_sound in Hs as [_ Hs].
  destruct (add_open_grows _ _ _ _ _ Ho Hg) as [Hsum Hopen].
  apply map_eq_nil in Hsum. split; [done|]. split; [by apply T1|]. intros d1 p d2 E. specialize (T2 _ _ _ E).
  unfold pending in T2. unfold opening_harmless. destruct (hr_coverage p) as [c|]; [|done].
  destruct (action (hr_class p)); try done.
  - destruct T2 as (g & Hgen & [[o Hin]|Hex]); [left|right; by exists g].
    pose proof (K1 _ _ Hin) as Eo. cbn in Eo. rewrite <- Eo. apply Hopen, elem_of_app. left. apply list_elem_of_fmap. by exists ((opened_at c, g), o).
  - destruct T2 as (a & b & Ha & Hb & [[o Hin]|Hex]); exists a, b; (split; [done|]); (split; [done|]); [left|by right].
    pose proof (K2 _ _ Hin) as Ek. injection Ek as -> -> ->.
    apply Hs, list_elem_of_fmap. by exists ((se_start o, se_end o, opened_at c), o).
  - destruct T2 as [[o Hin]|Hex]; [left|by right]. destruct (K3 _ _ Hin) as [Eo _]. cbn in Eo. rewrite <- Eo.
    apply Hopen, elem_of_app. right. apply list_elem_of_fmap. by exists (episode_key p c, o).
Qed.
End Soundness.

(** The reduction for a snapshot: its trigger, its prefix and its decision *)
Definition reduce_for (a : AuthenticatedPCCInput) (records : list StoredEvidenceRecord)
  : result history_exn HistoricalCoverageTimeline :=
  let s := a_snapshot a in
  let t := s_trigger s in
  reduce_historical_coverage records (a_host_id a) (a_boot_id a) (t_event_id t) (t_sequence t) (t_event_time t)
    (t_clock_uncertainty_ms t) (s_coverage_through s) (s_decision_time s).

(** No outage in the window: every outage that a considered record closes, and every one it
    opens and no later record ends, misses it. *)
Definition clean (rd : reduction) (records : list StoredEvidenceRecord) : Prop :=
  exists prepared, map_res prepare_historical_record records = Ok prepared
    /\ complete (rd_window rd) = true
    /\ let cs := considered rd (index_from 0 [] prepared) in
       (forall p, p ∈ cs -> outage_misses rd p)
       /\ forall d1 p d2, cs = d1 ++ p :: d2 -> opening_harmless rd p d2.

Lemma reduction_clean records host boot event sequence time uncertainty through stop t :
  reduce_historical_coverage records host boot event sequence time uncertainty through stop = Ok t ->
  v_complete (tl_assessment t) = true -> v_critical_gap (tl_assessment t) = false ->
  exists w, historical_coverage_window time uncertainty stop = Ok w
    /\ clean (mkReduction host boot event sequence through w) records.
Proof.
  intros H Hc Hg. unfold reduce_historical_coverage in H. cbv zeta in H.
  apply rbind_ok in H as (prepared & Hp & H). apply rbind_ok in H as (w & Hw%catch_ok & H).
  apply rbind_ok in H as (h & Hr & H). exists w. split; [done|].
  apply (records_tracked _ _ _ _ _ _ (start_tracked _)) in Hr.
  destruct (conclude_clean _ _ _ _ Hr H Hc Hg) as (H1 & H2 & H3). exists prepared. by split_and!.
Qed.

(** C3: a containment candidate rests on an unbroken observation of its window.  When the
    kernel creates one in a context whose coverage was reduced from the evidence for this
    snapshot, then at every instant between the trigger (less its clock uncertainty) and the
    decision no outage is on record: neither one that a record up to the snapshot's prefix
    closes, nor one opened there and not ended by a later record, nor a sequence gap that
    reaches into the sequences from the trigger to the prefix.  A process-scoped outage may
    also end with its boot. *)
Theorem created_candidate_observed a x registry_sha256 i c records t :
  correlate_pcc_values a (RawContext x) registry_sha256 = Ok (CandidateCreated i c) ->
  reduce_for a records = Ok t -> x_coverage x = tl_assessment t ->
  exists w, historical_coverage_window (t_event_time (s_trigger (a_snapshot a)))
      (t_clock_uncertainty_ms (s_trigger (a_snapshot a))) (s_decision_time (a_snapshot a)) = Ok w
    /\ clean (mkReduction (a_host_id a) (a_boot_id a) (t_event_id (s_trigger (a_snapshot a)))
                (t_sequence (s_trigger (a_snapshot a))) (s_coverage_through (a_snapshot a)) w) records.
Proof.
  intros (x' & decision & [= <-] & Hc & _)%created_conditions Hr Hx.
  apply (reduction_clean _ _ _ _ _ _ _ _ _ _ Hr); rewrite <- Hx; apply Hc.
Qed.

(** ** A Docker gap that ended before the window *)

Definition stored (e : EventEnvelopeV1) : StoredEvidenceRecord :=
  let raw := match canonical_json (JObj (envelope_dump e)) with Ok raw => raw | Err _ => [] end in
  let digest := sha256_hex raw in
  mkStored (envelope_dump e) raw PROTECTED (event_time e)
    (mkRef sample_segment sample_path 0 2048 digest (e_event_id e) (source_sequence e) digest).

Definition gap_records : list StoredEvidenceRecord := Eval vm_compute in
  [stored (coverage_envelope 3 1 (docker_coverage (at_second "1") None (u "observer_startup") 1) docker_flags);
   stored (coverage_envelope 5 1 (docker_coverage (at_second "1") (Some (at_second "3")) (u "observer_startup") 1)
             docker_flags)].

Definition observed_context : raw_context := Eval vm_compute in
  match reduce_for sample_authenticated gap_records with
  | Ok t => mkRaw (x_pinned_detector sample_context) (x_registry sample_context) (tl_assessment t)
              (x_lookup sample_context) None None
  | Err _ => sample_context
  end.

Definition reduces_to (v : HistoricalCoverageAssessment) (r : result history_exn HistoricalCoverageTimeline) : bool :=
  match r with Ok t => bool_decide (tl_assessment t = v) | Err _ => false end.

(** A Docker gap reported late, open since before the window *)
Definition late_record : StoredEvidenceRecord := Eval vm_compute in
  stored (coverage_envelope 12 1 (docker_coverage (at_second "1") None (u "observer_startup") 1) docker_flags).

Lemma created_candidate_observed_witness : exists i c t w,
  correlate_pcc_values sample_authenticated (RawContext observed_context) PCC_SPECIAL_USE_REGISTRY_SHA256
    = Ok (CandidateCreated i c)
  /\ reduce_for sample_authenticated gap_records = Ok t
  /\ historical_coverage_window (t_event_time (s_trigger (a_snapshot sample_authenticated)))
      (t_clock_uncertainty_ms (s_trigger (a_snapshot sample_authenticated)))
      (s_decision_time (a_snapshot sample_authenticated)) = Ok w
  /\ clean (mkReduction (a_host_id sample_authenticated) (a_boot_id sample_authenticated)
       (t_event_id (s_trigger (a_snapshot sample_authenticated)))
       (t_sequence (s_trigger (a_snapshot sample_authenticated)))
       (s_coverage_through (a_snapshot sample_authenticated)) w) gap_records.
Proof.
  assert (E : is_created (correlate_pcc_values sample_authenticated (RawContext observed_context)
                PCC_SPECIAL_USE_REGISTRY_SHA256) = true) by (vm_cast_no_check (eq_refl true)).
  assert (F : reduces_to (x_coverage observed_context) (reduce_for sample_authenticated gap_records) = true)
    by (vm_cast_no_check (eq_refl true)).
  destruct (correlate_pcc_values sample_authenticated _ _) as [[i c| | |]|] eqn:H; try discriminate E.
  destruct (reduce_for sample_authenticated gap_records) as [t|] eqn:G; [|discriminate F].
  cbn [reduces_to] in F. apply bool_decide_eq_true in F.
  destruct (created_candidate_observed _ _ _ _ _ _ _ H G (eq_sym F)) as (w & Hw & Hc).
  exists i, c, t, w. split; [reflexivity|]. split; [reflexivity|]. split; [exact Hw|exact Hc].
Defined.

Lemma late_filter_complete_witness :
  late_coverage_may_invalidate_candidate late_record = Ok true.
Proof.
  apply (late_filter_complete sample_authenticated 10). vm_compute. reflexivity.
Defined.
