(* ===== verification/FalcoParser.v ===== *)
(** * The Falco parser and redaction

    One body of Falco's HTTP output ([falco_adapter/parser.py]): hashed, decoded as
    strict JSON in which numbers with a fraction are recognised but never read, and then
    either a metrics heartbeat or one event of the pinned rule, reduced to the bounded
    facts of [FalcoConnectV1] ([falco_adapter/redaction.py], [contracts.py]).

    The theorems say what leaves the adapter: the time is the exact instant Falco wrote
    in canonical form, nothing outside the pinned fields has any influence, an event
    never claims authority, and its canonical bytes fit a delivery and read back.

    How [strftime] writes the years before 1000 depends on the platform, so it is a
    parameter; for the years of four digits it is documented. *)

From S2P Require Import Prelude Sha256 CanonicalJson JsonDecode Time Ipv4 Identities Contracts.
From S2P Require Import CoverageGrammar ActuatorProtocol PccContracts JsonSize.
From Stdlib Require Import SpecFloat.
Local Open Scope Z_scope.
Local Open Scope agmind_scope.

(** ** [FalcoConnectV1] *)

(** [int | str] *)
Inductive start_ts := StartInt (z : Z) | StartText (s : pystr).

#[export] Instance start_ts_eq_dec : EqDecision start_ts.
Proof. solve_decision. Defined.

(** [evt_type] is the literal ["connect"] *)
Record FalcoConnectV1 := mkConnect {
  fc_rule : pystr; fc_rule_version : pystr; fc_falco_version : pystr; fc_event_time : pystr;
  fc_rawres : option Z; fc_res : pystr; fc_success : bool; fc_investigation_only : bool;
  fc_id_prefix : option pystr; fc_full_id : option pystr; fc_start_ts : option start_ts;
  fc_docker_container_id : option pystr; fc_docker_started_at : option pystr; fc_image_id : option pystr;
  fc_repo_digests : list pystr; fc_spec_sha256 : option pystr; fc_inventory_revision : option Z;
  fc_proc_name : option pystr; fc_proc_exe_path : option pystr; fc_proc_parent_name : option pystr;
  fc_destination_ipv4 : option pystr; fc_destination_port : option Z; fc_l4_protocol : option pystr;
  fc_missing : list pystr; fc_raw_sha256 : pystr }.

#[export] Instance connect_eq_dec : EqDecision FalcoConnectV1.
Proof. solve_decision. Defined.

(** [[0-9a-f]{12,64}] *)
Definition id_prefix_ok (s : pystr) : bool :=
  bool_decide (12 <= length s)%nat && bool_decide (length s <= 64)%nat && forallb is_hex_lower s.

(** The field validators of [FalcoConnectV1] *)
Definition connect_fields_ok (c : FalcoConnectV1) : bool :=
  utf8_ok 512 1 (fc_rule c) && opt_utf8 (fc_proc_name c) && opt_utf8 (fc_proc_exe_path c)
  && opt_utf8 (fc_proc_parent_name c)
  && short_ascii (fc_rule_version c) && short_ascii (fc_falco_version c) && short_ascii (fc_res c)
  && opt_ok short_ascii (fc_l4_protocol c)
  && opt_ok id_prefix_ok (fc_id_prefix c)
  && opt_ok HEX64 (fc_full_id c) && opt_ok HEX64 (fc_docker_container_id c)
  && opt_ok valid_timestamp (fc_docker_started_at c) && valid_timestamp (fc_event_time c)
  && opt_ok (is_prefixed_hex "sha256:" 64) (fc_image_id c)
  && opt_ok HEX64 (fc_spec_sha256 c) && HEX64 (fc_raw_sha256 c)
  && opt_ok valid_ipv4 (fc_destination_ipv4 c)
  && repo_digests_ok (fc_repo_digests c)
  && is_sorted_unique (fc_missing c) && forallb short_ascii (fc_missing c).

(** The sensor facts, by name: which of them the event lacks *)
Definition sensor_facts (c : FalcoConnectV1) : list (pystr * bool) :=
  [(u "falco_container_id_prefix", present (fc_id_prefix c));
   (u "falco_container_start_ts", present (fc_start_ts c));
   (u "proc_name", present (fc_proc_name c)); (u "proc_exe_path", present (fc_proc_exe_path c));
   (u "proc_parent_name", present (fc_proc_parent_name c));
   (u "destination_ipv4", present (fc_destination_ipv4 c));
   (u "destination_port", present (fc_destination_port c));
   (u "l4_protocol", present (fc_l4_protocol c))].

Definition omitted (facts : list (pystr * bool)) : list pystr :=
  map fst (List.filter (fun kv => negb kv.2) facts).

Definition FALCO_SENSOR_REQUIRED_FIELDS : list pystr := keys
  ["destination_ipv4"; "destination_port"; "falco_container_id_prefix"; "falco_container_start_ts";
   "l4_protocol"; "proc_exe_path"; "proc_name"; "proc_parent_name"]%string.

(** The three rejections of a result tuple, and the success it amounts to *)
Definition completed_success (res : pystr) (rawres : option Z) : bool :=
  bool_decide (res = u "SUCCESS") && match rawres with Some n => 0 <=? n | None => false end.

Definition nonblocking_success (res : pystr) (rawres : option Z) : bool :=
  bool_decide (res ∈ SUCCESS_RESULTS) && match rawres with Some n => n <? 0 | None => true end.

Definition contradictory (res : pystr) (rawres : option Z) : bool :=
  (bool_decide (res = u "SUCCESS") && negb (completed_success res rawres))
  || (bool_decide (res ∈ SUCCESS_RESULTS) && negb (nonblocking_success res rawres))
  || (negb (bool_decide (res ∈ u "SUCCESS" :: SUCCESS_RESULTS))
      && match rawres with Some n => 0 <=? n | None => false end).

Definition start_ok (s : start_ts) : bool :=
  match s with StartInt z => (MIN_INT64 <=? z) && (z <=? MAX_INT64) | StartText t => short_ascii t end.

(** [result_and_candidate_semantics] *)
Definition result_and_candidate_semantics (c : FalcoConnectV1) : bool :=
  let lacking := omitted (sensor_facts c) in
  match fc_start_ts c with Some s => start_ok s | None => true end
  && negb (contradictory (fc_res c) (fc_rawres c))
  && bool_decide (fc_success c = completed_success (fc_res c) (fc_rawres c)
                                 || nonblocking_success (fc_res c) (fc_rawres c))
  && forallb (fun f => bool_decide (f ∈ FALCO_SENSOR_REQUIRED_FIELDS)) (fc_missing c)
  && forallb (fun f => bool_decide (f ∈ lacking)) (fc_missing c)
  && forallb (fun f => bool_decide (f ∈ fc_missing c)) lacking
  && (bool_decide (lacking = []) || fc_investigation_only c)
  && (fc_investigation_only c
      || (fc_success c && bool_decide (lacking = [])
          && present (fc_docker_container_id c) && present (fc_docker_started_at c)
          && present (fc_image_id c) && present (fc_spec_sha256 c) && present (fc_inventory_revision c)
          && bool_decide (fc_missing c = [])))
  && (fc_success c || fc_investigation_only c).

(** The bounds of [Field] *)
Definition connect_bounds (c : FalcoConnectV1) : bool :=
  opt_sat (fun z => (MIN_INT64 <=? z) && (z <=? MAX_INT64)) (fc_rawres c)
  && opt_sat (fun z => (0 <=? z) && (z <=? MAX_UINT64)) (fc_inventory_revision c)
  && opt_sat (fun z => (1 <=? z) && (z <=? 65535)) (fc_destination_port c)
  && bool_decide (length (fc_repo_digests c) <= 16)%nat && bool_decide (length (fc_missing c) <= 32)%nat.

(** [FalcoConnectV1(...)] on values of the declared types *)
Definition new_connect (c : FalcoConnectV1) : result py_exn FalcoConnectV1 :=
  check (connect_bounds c && connect_fields_ok c && result_and_candidate_semantics c) ;;* Ok c.

Definition connect_keys : list pystr := keys
  ["detector_rule"; "detector_rule_version"; "falco_version"; "event_time"; "evt_type"; "evt_rawres";
   "evt_res"; "successful_connect"; "investigation_only"; "falco_container_id_prefix";
   "falco_container_full_id"; "falco_container_start_ts"; "docker_container_id"; "docker_started_at";
   "image_id"; "repo_digests"; "immutable_spec_sha256"; "inventory_revision"; "proc_name";
   "proc_exe_path"; "proc_parent_name"; "destination_ipv4"; "destination_port"; "l4_protocol";
   "missing_required_fields"; "raw_event_sha256"]%string.

Definition connect_required : list pystr := keys
  ["detector_rule"; "detector_rule_version"; "falco_version"; "event_time"; "evt_type"; "evt_res";
   "successful_connect"; "investigation_only"; "repo_digests"; "missing_required_fields";
   "raw_event_sha256"]%string.

Definition start_field (key : pystr) (doc : document) : result py_exn (option start_ts) :=
  match get key doc with
  | None | Some JNull => Ok None
  | Some (JInt z) => Ok (Some (StartInt z))
  | Some (JStr s) => Ok (Some (StartText s))
  | _ => Err ValueError
  end.

(** [FalcoConnectV1.model_validate(doc, strict=True)] *)
Definition connect_validate (doc : document) : result py_exn FalcoConnectV1 :=
  no_extra connect_keys doc ;;*
  let* rule := str_field (u "detector_rule") doc in
  let* rule_version := str_field (u "detector_rule_version") doc in
  let* falco_version := str_field (u "falco_version") doc in
  let* event_time := str_field (u "event_time") doc in
  literal_field (u "evt_type") [u "connect"] doc ;;*
  let* rawres := opt_int_field (u "evt_rawres") MIN_INT64 MAX_INT64 doc in
  let* res := str_field (u "evt_res") doc in
  let* success := bool_field (u "successful_connect") doc in
  let* investigation_only := bool_field (u "investigation_only") doc in
  let* id_prefix := opt_str_field (u "falco_container_id_prefix") doc in
  let* full_id := opt_str_field (u "falco_container_full_id") doc in
  let* start := start_field (u "falco_container_start_ts") doc in
  let* docker_container_id := opt_str_field (u "docker_container_id") doc in
  let* docker_started_at := opt_str_field (u "docker_started_at") doc in
  let* image_id := opt_str_field (u "image_id") doc in
  let* repo_digests := str_list_field (u "repo_digests") 0 16 doc in
  let* spec_sha256 := opt_str_field (u "immutable_spec_sha256") doc in
  let* inventory_revision := opt_int_field (u "inventory_revision") 0 MAX_UINT64 doc in
  let* proc_name := opt_str_field (u "proc_name") doc in
  let* proc_exe_path := opt_str_field (u "proc_exe_path") doc in
  let* proc_parent_name := opt_str_field (u "proc_parent_name") doc in
  let* destination_ipv4 := opt_str_field (u "destination_ipv4") doc in
  let* destination_port := opt_int_field (u "destination_port") 1 65535 doc in
  let* l4_protocol := opt_str_field (u "l4_protocol") doc in
  let* missing := str_list_field (u "missing_required_fields") 0 32 doc in
  let* raw_sha256 := str_field (u "raw_event_sha256") doc in
  new_connect (mkConnect rule rule_version falco_version event_time rawres res success investigation_only
    id_prefix full_id start docker_container_id docker_started_at image_id repo_digests spec_sha256
    inventory_revision proc_name proc_exe_path proc_parent_name destination_ipv4 destination_port
    l4_protocol missing raw_sha256).

Definition start_json (s : start_ts) : json :=
  match s with StartInt z => JInt z | StartText t => JStr t end.

Definition connect_fields (c : FalcoConnectV1) : list (pystr * option json) :=
  [(u "detector_rule", Some (JStr (fc_rule c)));
   (u "detector_rule_version", Some (JStr (fc_rule_version c)));
   (u "falco_version", Some (JStr (fc_falco_version c)));
   (u "event_time", Some (JStr (fc_event_time c)));
   (u "evt_type", Some (JStr (u "connect")));
   (u "evt_rawres", JInt <$> fc_rawres c);
   (u "evt_res", Some (JStr (fc_res c)));
   (u "successful_connect", Some (JBool (fc_success c)));
   (u "investigation_only", Some (JBool (fc_investigation_only c)));
   (u "falco_container_id_prefix", JStr <$> fc_id_prefix c);
   (u "falco_container_full_id", JStr <$> fc_full_id c);
   (u "falco_container_start_ts", start_json <$> fc_start_ts c);
   (u "docker_container_id", JStr <$> fc_docker_container_id c);
   (u "docker_started_at", JStr <$> fc_docker_started_at c);
   (u "image_id", JStr <$> fc_image_id c);
   (u "repo_digests", Some (strings (fc_repo_digests c)));
   (u "immutable_spec_sha256", JStr <$> fc_spec_sha256 c);
   (u "inventory_revision", JInt <$> fc_inventory_revision c);
   (u "proc_name", JStr <$> fc_proc_name c);
   (u "proc_exe_path", JStr <$> fc_proc_exe_path c);
   (u "proc_parent_name", JStr <$> fc_proc_parent_name c);
   (u "destination_ipv4", JStr <$> fc_destination_ipv4 c);
   (u "destination_port", JInt <$> fc_destination_port c);
   (u "l4_protocol", JStr <$> fc_l4_protocol c);
   (u "missing_required_fields", Some (strings (fc_missing c)));
   (u "raw_event_sha256", Some (JStr (fc_raw_sha256 c)))].

(** [connect.model_dump(exclude_none=True)] *)
Definition connect_dump (c : FalcoConnectV1) : document := dump_of (connect_fields c).

(** ** Times of Falco *)

(** [(?P<zone>Z|[+-][0-9]{2}:?[0-9]{2})] *)
Inductive zone := Zulu | Offset (east : bool) (hours minutes : pystr).

(** [(?P<fraction>\.[0-9]{1,9})?] *)
Definition falco_fraction (t : pystr) : option (option pystr * pystr) :=
  match t with
  | c :: t' =>
      if c =? 46 then
        let '(ds, rest) := span_digits t' in
        if bool_decide (1 <= length ds <= 9)%nat then Some (Some ds, rest) else None
      else Some (None, t)
  | [] => Some (None, [])
  end.

Definition skip_colon (t : pystr) : pystr :=
  match t with c :: t' => if c =? 58 then t' else t | [] => [] end.

Definition falco_zone (t : pystr) : option zone :=
  match t with
  | c :: t' =>
      if c =? 90 then (if bool_decide (t' = []) then Some Zulu else None)
      else if (c =? 43) || (c =? 45) then
        h ← take_digits 2 t'; m ← take_digits 2 (skip_colon h.2);
        if bool_decide (m.2 = []) then Some (Offset (c =? 43) h.1 m.1) else None
      else None
  | [] => None
  end.

(** [FALCO_TIMESTAMP.fullmatch] *)
Definition match_falco_time (value : pystr) : option (timestamp_match * zone) :=
  y ← take_digits 4 value; t ← expect 45 y.2;
  mo ← take_digits 2 t; t ← expect 45 mo.2;
  d ← take_digits 2 t; t ← expect 84 d.2;
  h ← take_digits 2 t; t ← expect 58 h.2;
  mi ← take_digits 2 t; t ← expect 58 mi.2;
  s ← take_digits 2 t;
  f ← falco_fraction s.2;
  z ← falco_zone f.2;
  Some (mkTimestamp y.1 mo.1 d.1 h.1 mi.1 s.1 f.1, z).

(** The offset of a zone in seconds; the code bounds the hours and the minutes *)
Definition zone_offset (z : zone) : result py_exn Z :=
  match z with
  | Zulu => Ok 0
  | Offset east hours minutes =>
      let hours := digits_value hours in
      let minutes := digits_value minutes in
      guard (negb ((23 <? hours) || (59 <? minutes))) ValueError ;;*
      Ok ((if east then 1 else -1) * (hours * 3600 + minutes * 60))
  end.

(** [dt.datetime.fromisoformat] on a date and a clock: the seconds since the epoch *)
Definition fromisoformat_seconds (m : timestamp_match) : result py_exn Z :=
  let year := digits_value (m_year m) in
  let month := digits_value (m_month m) in
  let day := digits_value (m_day m) in
  let hour := digits_value (m_hour m) in
  let minute := digits_value (m_minute m) in
  let second := digits_value (m_second m) in
  guard ((1 <=? year) && ((1 <=? month) && (month <=? 12))
         && ((1 <=? day) && (day <=? month_length year month))
         && (hour <=? 23) && (minute <=? 59) && (second <=? 59)) ValueError ;;*
  Ok (((days_from_civil year month day * 24 + hour) * 60 + minute) * 60 + second).

(** The last ordinal of [datetime]: 31 December 9999 *)
Definition MAXORDINAL : Z := 3652059.

Section Parser.
(** [strftime("%Y")] of a year *)
Variable strftime_Y : Z -> pystr.

(** [normalize_falco_time]; [astimezone] raises [OverflowError] outside the years 1 to 9999 *)
Definition normalize_falco_time (value : option json) : result py_exn pystr :=
  match value with
  | Some (JStr s) =>
      let* (m, z) := of_option ValueError (match_falco_time s) in
      guard (negb (bool_decide (take 5 s = u "0000-"))) ValueError ;;*
      let* offset := zone_offset z in
      let* local := fromisoformat_seconds m in
      let utc := local - offset in
      let ordinal := utc / SECONDS_PER_DAY + UNIX_EPOCH_ORDINAL in
      guard ((1 <=? ordinal) && (ordinal <=? MAXORDINAL)) OverflowError ;;*
      let calendar := fromordinal ordinal in
      let second_of_day := utc mod SECONDS_PER_DAY in
      let fraction := rstrip0 (default [] (m_fraction m)) in
      let suffix := if bool_decide (fraction = []) then [] else 46 :: fraction in
      Ok (strftime_Y calendar.1 ++ [45] ++ pad 2 calendar.2.1 ++ [45] ++ pad 2 calendar.2.2
          ++ [84] ++ pad 2 (second_of_day / 3600) ++ [58] ++ pad 2 (second_of_day mod 3600 / 60)
          ++ [58] ++ pad 2 (second_of_day mod 3600 mod 60) ++ suffix ++ [90])
  | _ => Err TypeError
  end.

(** ** Redaction *)

Definition FALCO_VERSION : pystr := u "0.44.1".
Definition CONNECT_RULE : pystr := u "AGmind PCC Suspicious Process Outbound Connect".
Definition CONNECT_RULE_TAG : pystr := u "agmind-pcc-rules-v1".
Definition CONNECT_SOURCE : pystr := u "syscall".

(** [value is None or value == "<NA>"] *)
Definition is_missing (v : option json) : bool :=
  match v with
  | None | Some JNull => true
  | Some (JStr s) => bool_decide (s = u "<NA>")
  | _ => false
  end.

(** [_bounded_text] *)
Definition bounded_text (maximum : nat) (v : option json) : result py_exn (option pystr) :=
  if is_missing v then Ok None
  else match v with
  | Some (JStr s) =>
      let* encoded := of_option ValueError (utf8_encode s) in
      guard (bool_decide (1 <= length encoded)%nat && bool_decide (length encoded <= maximum)%nat)
        ValueError ;;*
      guard (negb (existsb is_surrogate s)) ValueError ;;*
      Ok (Some s)
  | _ => Err TypeError
  end.

(** [_bounded_ascii] *)
Definition bounded_ascii (v : option json) : result py_exn (option pystr) :=
  let* text := bounded_text 64 v in
  match text with
  | None => Ok None
  | Some s =>
      let* encoded := of_option ValueError (ascii_encode s) in
      guard (forallb (fun b => (0x20 <=? byte_val b) && (byte_val b <=? 0x7E)) encoded) ValueError ;;*
      Ok (Some s)
  end.

(** [_required_ascii] *)
Definition required_ascii (v : option json) : result py_exn pystr :=
  let* text := bounded_ascii v in of_option ValueError text.

(** [_int64] *)
Definition int64 (v : option json) : result py_exn Z :=
  match v with
  | Some (JInt z) => guard ((MIN_INT64 <=? z) && (z <=? MAX_INT64)) ValueError ;;* Ok z
  | _ => Err TypeError
  end.

(** [_optional_int64] *)
Definition optional_int64 (v : option json) : result py_exn (option Z) :=
  if is_missing v then Ok None else let* z := int64 v in Ok (Some z).

(** A bounded text that must also satisfy a test *)
Definition ascii_where (p : pystr -> bool) (v : option json) : result py_exn (option pystr) :=
  let* text := bounded_ascii v in
  guard (opt_ok p text) ValueError ;;* Ok text.

(** [_container_prefix], [_container_full_id] and [_destination_ipv4] *)
Definition container_prefix := ascii_where id_prefix_ok.
Definition container_full_id := ascii_where HEX64.
Definition destination_ipv4_of := ascii_where valid_ipv4.

(** [_container_start] *)
Definition container_start (v : option json) : result py_exn (option start_ts) :=
  if is_missing v then Ok None
  else match v with
  | Some (JBool _) => Err TypeError
  | Some (JInt _) => let* z := int64 v in Ok (Some (StartInt z))
  | _ => let* text := bounded_ascii v in Ok (StartText <$> text)
  end.

(** [_destination_port] *)
Definition destination_port_of (v : option json) : result py_exn (option Z) :=
  if is_missing v then Ok None
  else match v with
  | Some (JInt z) => guard ((1 <=? z) && (z <=? 65535)) ValueError ;;* Ok (Some z)
  | _ => Err TypeError
  end.

(** [_output_fields] *)
Definition output_fields (event : document) : result py_exn document :=
  match get (u "output_fields") event with Some (JObj m) => Ok m | _ => Err TypeError end.

Definition field_equals (key : string) (v : json) (event : document) : bool :=
  match get (u key) event, v with
  | Some (JStr s), JStr t => bool_decide (s = t)
  | Some (JArr [JStr s]), JArr [JStr t] => bool_decide (s = t)
  | _, _ => false
  end.

(** [redact_falco_event] *)
Definition redact_falco_event (event : document) (raw_event_sha256 : pystr) : result py_exn FalcoConnectV1 :=
  guard (field_equals "rule" (JStr CONNECT_RULE) event) ValueError ;;*
  guard (field_equals "source" (JStr CONNECT_SOURCE) event) ValueError ;;*
  guard (field_equals "priority" (JStr (u "Notice")) event) ValueError ;;*
  guard (field_equals "tags" (JArr [JStr CONNECT_RULE_TAG]) event) ValueError ;;*
  let* fields := output_fields event in
  let* evt_type := required_ascii (get (u "evt.type") fields) in
  guard (bool_decide (evt_type = u "connect")) ValueError ;;*
  let* rawres := optional_int64 (get (u "evt.rawres") fields) in
  let* result := required_ascii (get (u "evt.res") fields) in
  guard (negb (contradictory result rawres)) ValueError ;;*
  let* id_prefix := container_prefix (get (u "container.id") fields) in
  let* start := container_start (get (u "container.start_ts") fields) in
  let* proc_name := bounded_text 512 (get (u "proc.name") fields) in
  let* proc_exe_path := bounded_text 512 (get (u "proc.exepath") fields) in
  let* proc_parent_name := bounded_text 512 (get (u "proc.pname") fields) in
  let* destination := destination_ipv4_of (get (u "fd.rip") fields) in
  let* port := destination_port_of (get (u "fd.rport") fields) in
  let* protocol := bounded_ascii (get (u "fd.l4proto") fields) in
  let missing := sort_str (omitted
    [(u "falco_container_id_prefix", present id_prefix); (u "falco_container_start_ts", present start);
     (u "proc_name", present proc_name); (u "proc_exe_path", present proc_exe_path);
     (u "proc_parent_name", present proc_parent_name); (u "destination_ipv4", present destination);
     (u "destination_port", present port); (u "l4_protocol", present protocol)]) in
  let* event_time := normalize_falco_time (get (u "time") event) in
  let* full_id := container_full_id (get (u "container.full_id") fields) in
  new_connect (mkConnect CONNECT_RULE CONNECT_RULE_TAG FALCO_VERSION event_time rawres result
    (completed_success result rawres || nonblocking_success result rawres) true
    id_prefix full_id start None None None [] None None proc_name proc_exe_path proc_parent_name
    destination port protocol missing raw_event_sha256).

(** ** Bodies *)

Definition FALCO_MAX_BODY_BYTES : Z := 65536.
Definition METRICS_RULE : pystr := u "Falco internal: metrics snapshot".
Definition METRICS_SOURCE : pystr := u "internal".
Definition METRICS_PRIORITY : pystr := u "Informational".
Definition CONFIG_HASH_FIELD : string := "falco.sha256_config_file.falco_yaml".
Definition RULES_HASH_FIELD : string := "falco.sha256_rules_file.agmind_pcc_yaml".
Definition MAX_FLOAT_TOKEN_CHARACTERS : Z := 128.
Definition MAX_FLOAT_DECIMAL_EXPONENT : Z := 308.

(** [Decimal(token)] of a JSON number: coefficient and exponent *)
Definition decimal_of (token : pystr) : option (Z * Z) :=
  let body := if starts_with_minus token then tail token else token in
  let '(whole, rest) := span_digits body in
  let '(fraction, rest) := match rest with
    | c :: rest' => if c =? 46 then span_digits rest' else ([], rest)
    | [] => ([], [])
    end in
  let coefficient := digits_value (whole ++ fraction) in
  let places := Z.of_nat (length fraction) in
  match rest with
  | [] => Some (coefficient, - places)
  | c :: rest =>
      if (c =? 101) || (c =? 69) then
        let sign := match rest with d :: _ => if d =? 45 then -1 else 1 | [] => 1 end in
        let ds := match rest with d :: ds => if (d =? 43) || (d =? 45) then ds else rest | [] => [] end in
        let '(ds, rest) := span_digits ds in
        if bool_decide (rest = []) && bool_decide (1 <= length ds)%nat
        then Some (coefficient, sign * digits_value ds - places) else None
      else None
  end.

(** [_parse_bounded_decimal].  Only the type of the value is ever looked at, so one value
    stands for all of them. *)
Definition parse_bounded_decimal (token : pystr) : result py_exn json :=
  guard (Z.of_nat (length token) <=? MAX_FLOAT_TOKEN_CHARACTERS) ValueError ;;*
  let* (coefficient, exponent) := of_option ValueError (decimal_of token) in
  let adjusted := exponent + Z.of_nat (length (dec_nonneg coefficient)) - 1 in
  guard ((Z.abs exponent <=? MAX_FLOAT_DECIMAL_EXPONENT)
         && ((coefficient =? 0) || (Z.abs adjusted <=? MAX_FLOAT_DECIMAL_EXPONENT))) ValueError ;;*
  Ok (JFloat S754_nan).

(** [_contains_decimal] *)
Fixpoint contains_decimal (v : json) : bool :=
  match v with
  | JFloat _ => true
  | JArr l => existsb contains_decimal l
  | JObj m => existsb (fun kv => contains_decimal kv.2) m
  | _ => false
  end.

(** [_decode_raw_object] *)
Definition decode_raw_object (raw : bytes) : result py_exn document :=
  guard (Z.of_nat (length raw) <=? FALCO_MAX_BODY_BYTES) ValueError ;;*
  let* text := of_option ValueError (utf8_decode raw) in
  validate_json_depth text ;;*
  let* (value, rest) := scan_once parse_bounded_decimal (S (length text)) (skip_ws text) in
  guard (bool_decide (skip_ws rest = [])) ValueError ;;*
  match value with
  | JObj m => validate_unicode value ;;* Ok m
  | _ => Err TypeError
  end.

(** [FalcoMetricsHeartbeat] *)
Record FalcoMetricsHeartbeat := mkHeartbeat {
  hb_event_time : pystr; hb_raw_sha256 : pystr; hb_falco_version : pystr; hb_engine_name : pystr;
  hb_config_sha256 : pystr; hb_rules_sha256 : pystr; hb_outputs_drops : Z; hb_scap_drops : Z }.

#[export] Instance heartbeat_eq_dec : EqDecision FalcoMetricsHeartbeat.
Proof. solve_decision. Defined.

(** [digest_is_hex] and [counter_is_uint64] *)
Definition heartbeat_ok (h : FalcoMetricsHeartbeat) : bool :=
  HEX64 (hb_raw_sha256 h) && HEX64 (hb_config_sha256 h) && HEX64 (hb_rules_sha256 h)
  && is_uint64 (hb_outputs_drops h) && is_uint64 (hb_scap_drops h).

(** [_required_string] *)
Definition required_string (fields : document) (name : string) : result py_exn pystr :=
  match get (u name) fields with
  | Some (JStr s) => guard (negb (bool_decide (s = []))) ValueError ;;* Ok s
  | _ => Err ValueError
  end.

(** [_required_counter] *)
Definition required_counter (fields : document) (name : string) : result py_exn Z :=
  match get (u name) fields with
  | Some (JInt z) => guard (is_uint64 z) ValueError ;;* Ok z
  | _ => Err TypeError
  end.

(** [_parse_metrics] *)
Definition parse_metrics (doc : document) (raw_event_sha256 : pystr) : result py_exn FalcoMetricsHeartbeat :=
  guard (field_equals "source" (JStr METRICS_SOURCE) doc) ValueError ;;*
  guard (field_equals "priority" (JStr METRICS_PRIORITY) doc) ValueError ;;*
  let* fields := output_fields doc in
  let* event_time := normalize_falco_time (get (u "time") doc) in
  let* version := required_string fields "falco.version" in
  let* engine := required_string fields "scap.engine_name" in
  let* config := required_string fields CONFIG_HASH_FIELD in
  let* rules := required_string fields RULES_HASH_FIELD in
  let* outputs := required_counter fields "falco.outputs_queue_num_drops" in
  let* scap := required_counter fields "scap.n_drops" in
  let h := mkHeartbeat event_time raw_event_sha256 version engine config rules outputs scap in
  check (heartbeat_ok h) ;;* Ok h.

Inductive falco_body := Connect (c : FalcoConnectV1) | Heartbeat (h : FalcoMetricsHeartbeat).

#[export] Instance falco_body_eq_dec : EqDecision falco_body.
Proof. solve_decision. Defined.

(** [parse_falco_body] *)
Definition parse_falco_body (raw : bytes) : result py_exn falco_body :=
  let hash := sha256_hex raw in
  let* doc := decode_raw_object raw in
  if field_equals "rule" (JStr METRICS_RULE) doc then
    let* h := parse_metrics doc hash in Ok (Heartbeat h)
  else
    guard (negb (contains_decimal (JObj doc))) ValueError ;;*
    let* c := redact_falco_event doc hash in Ok (Connect c).
End Parser.

(** ** The time of an event *)

(** Linear arithmetic with divisions by constants. *)
Local Ltac Zify.zify_post_hook ::= Z.div_mod_to_equations.

(** What a Falco time denotes: the clock it shows, read as UTC, less its offset. *)
Definition falco_instant (s : pystr) : option Z :=
  match match_falco_time s with
  | Some (m, z) =>
      match zone_offset z, parse_rfc3339nano_utc_ns (match_text m) with
      | Ok offset, Ok local => Some (local - offset * NANOSECONDS_PER_SECOND)
      | _, _ => None
      end
  | None => None
  end.

Lemma falco_fraction_sound t f rest : falco_fraction t = Some (f, rest) -> fraction_ok f.
Proof.
  unfold falco_fraction. destruct t as [|c t]; [by intros [= <- <-]|].
  destruct (c =? 46); [|by intros [= <- <-]].
  destruct (span_digits t) as [ds r] eqn:E. case_bool_decide; [|done]. intros [= <- <-].
  by apply span_digits_sound in E as [? _].
Qed.

Lemma match_falco_time_sound s m z :
  match_falco_time s = Some (m, z) -> match_ok m /\ take 5 s = m_year m ++ [45].
Proof.
  unfold match_falco_time. intros H.
  repeat match goal with
  | H : mbind _ _ = Some _ |- _ =>
      let x := fresh "x" in let E := fresh "E" in apply bind_Some in H as (x & E & H)
  end.
  injection H as <- <-.
  repeat match goal with
  | E : falco_fraction _ = Some ?p |- _ => destruct p; apply falco_fraction_sound in E
  | p : (pystr * pystr)%type |- _ => destruct p; cbn [fst snd] in *
  | E : take_digits _ _ = Some _ |- _ => apply take_digits_sound in E as (? & ? & ->)
  | E : expect _ _ = Some _ |- _ => apply expect_sound in E as ->
  end.
  split; [by unfold match_ok, field_ok|]. cbn [m_year].
  match goal with H : length ?y = 4%nat |- _ =>
    revert H; clear; by destruct y as [|? [|? [|? [|? [|]]]]]
  end.
Qed.

(** [fromisoformat] reads the clock the verified parser reads, without the fraction. *)
Lemma fromisoformat_parse m :
  match_ok m ->
  match parse_rfc3339nano_utc_ns (match_text m) with
  | Ok ns => exists local, fromisoformat_seconds m = Ok local
             /\ ns = local * NANOSECONDS_PER_SECOND + fraction_ns (m_fraction m)
  | Err _ => fromisoformat_seconds m = Err ValueError
  end.
Proof.
  intros Hm. unfold parse_rfc3339nano_utc_ns, fromisoformat_seconds.
  rewrite match_timestamp_text by done. cbn [of_option rbind].
  destruct Hm as ([Hy Hyl] & Hmo & Hd & [Hh _] & [Hmi _] & [Hs _] & _).
  apply digits_value_range in Hy, Hh, Hmi, Hs. rewrite Hyl in Hy. change (10 ^ Z.of_nat 4) with 10000 in Hy.
  rewrite (proj2 (Z.leb_le (digits_value (m_year m)) 9999)) by lia.
  rewrite !(proj2 (Z.leb_le 0 _)) by lia. cbn [andb]. rewrite !andb_true_r.
  unfold guard. repeat (destruct (_ <=? _); cbn [andb rbind]; try reflexivity).
  eexists. split; reflexivity.
Qed.

Lemma rstrip0_ljust9 f : rstrip0 (ljust9 f) = rstrip0 f.
Proof.
  unfold ljust9. destruct (rstrip0_spec f) as [k Hk]. rewrite Hk at 1. rewrite <- app_assoc, <- repeat_app.
  by apply rstrip0_zeros, rstrip0_last.
Qed.

(** The fraction the formatter writes is the one read, without its trailing zeros. *)
Lemma fraction_suffix f :
  fraction_ok f ->
  (if fraction_ns f =? 0 then [] else [46] ++ rstrip0 (pad 9 (fraction_ns f)))
  = (if bool_decide (rstrip0 (default [] f) = []) then [] else 46 :: rstrip0 (default [] f)).
Proof.
  destruct f as [f|]; [|done]. intros [Hd Hl]. cbn [fraction_ns from_option id].
  assert (Hj : digits (ljust9 f) /\ length (ljust9 f) = 9%nat).
  { unfold ljust9. split; [apply Forall_app; split; [done|apply digits_repeat]|].
    rewrite length_app, repeat_length. lia. }
  destruct Hj as [Hjd Hjl]. rewrite pad_unique by (done || lia). rewrite rstrip0_ljust9.
  destruct (Z.eqb_spec (digits_value (ljust9 f)) 0) as [Hz|Hnz].
  - assert (E : ljust9 f = repeat 48 9).
    { apply digits_value_inj; [done|apply digits_repeat|by rewrite Hjl, repeat_length|]. by rewrite Hz. }
    by rewrite <- (rstrip0_ljust9 f), E.
  - rewrite bool_decide_eq_false_2; [done|]. intros E. rewrite <- (rstrip0_ljust9 f) in E.
    by apply rstrip0_nonempty in Hnz; rewrite E in Hnz; simpl in Hnz; lia.
Qed.

(** Instants of the years 1000 to 9999 *)
Definition YEAR_1000_NS : Z := -30610224000000000000.

Lemma year_1000_parsed : parse_rfc3339nano_utc_ns (u "1000-01-01T00:00:00Z") = Ok YEAR_1000_NS.
Proof. vm_compute. reflexivity. Qed.

Lemma fromordinal_four_digits ordinal :
  YEAR_1000_NS / (NANOSECONDS_PER_SECOND * SECONDS_PER_DAY) + UNIX_EPOCH_ORDINAL <= ordinal ->
  1000 <= (fromordinal ordinal).1.
Proof.
  change (_ + UNIX_EPOCH_ORDINAL) with 364878. intros Ho.
  destruct (fromordinal_spec ordinal) as [(Hy & Hm & Hd) Heq]; [lia|].
  destruct (fromordinal ordinal) as [y [m d]]. simpl in *.
  rewrite month_length_eq in Hd by done. rewrite days_from_civil_spec in Heq by done.
  pose proof (day_of_year_range _ _ _ Hm Hd). destruct (decide (1000 <= y)); [done|].
  pose proof (days_before_year_mono y 1000 ltac:(lia)) as Hu.
  change (days_before_year 1000) with 364877 in Hu. lia.
Qed.

(** In range, the instant and the day it falls on *)
Lemma instant_range utc f :
  0 <= f < NANOSECONDS_PER_SECOND ->
  let ns := utc * NANOSECONDS_PER_SECOND + f in
  ns / NANOSECONDS_PER_SECOND = utc /\ ns mod NANOSECONDS_PER_SECOND = f
  /\ (MIN_TIMESTAMP_NS <=? ns) && (ns <=? MAX_TIMESTAMP_NS)
     = (1 <=? utc / SECONDS_PER_DAY + UNIX_EPOCH_ORDINAL)
       && (utc / SECONDS_PER_DAY + UNIX_EPOCH_ORDINAL <=? MAXORDINAL).
Proof.
  intros Hf ns. subst ns. unfold NANOSECONDS_PER_SECOND, MIN_TIMESTAMP_NS, MAX_TIMESTAMP_NS,
    SECONDS_PER_DAY, UNIX_EPOCH_ORDINAL, MAXORDINAL in *. split; [lia|]. split; [lia|].
  apply eq_true_iff_eq. rewrite !andb_true_iff, !Z.leb_le. lia.
Qed.

Section Times.
Variable strftime_Y : Z -> pystr.
Hypothesis strftime_four_digits : forall y, 1000 <= y <= 9999 -> strftime_Y y = pad 4 y.

(** C37: [normalize_falco_time] is exact.  A string that denotes no instant is a
    [ValueError]; an instant of the years 1000 to 9999 is written as the canonical UTC text
    of that very instant, to the nanosecond; and an instant beyond the years 1 to 9999,
    which only an offset can reach, escapes as an [OverflowError]. *)
Theorem falco_time_exact s :
  match falco_instant s with
  | None => normalize_falco_time strftime_Y (Some (JStr s)) = Err ValueError
  | Some ns =>
      if (MIN_TIMESTAMP_NS <=? ns) && (ns <=? MAX_TIMESTAMP_NS)
      then YEAR_1000_NS <= ns ->
           normalize_falco_time strftime_Y (Some (JStr s)) = format_rfc3339nano_utc_ns ns
      else normalize_falco_time strftime_Y (Some (JStr s)) = Err OverflowError
  end.
Proof.
  unfold falco_instant, normalize_falco_time.
  destruct (match_falco_time s) as [[m z]|] eqn:Em; [|done]. cbn [of_option rbind].
  apply match_falco_time_sound in Em as [Hm ->]. pose proof (fromisoformat_parse m Hm) as Hp.
  destruct Hm as (Hy & _ & _ & _ & _ & _ & Hf).
  destruct (zone_offset z) as [offset|e] eqn:Ez.
  2:{ unfold guard. case_bool_decide; [done|]. cbn [negb rbind]. destruct z; [done|].
      cbn in Ez. unfold guard in Ez. destruct (negb _); [done|]. by injection Ez as <-. }
  cbn [rbind]. unfold guard at 1.
  destruct (parse_rfc3339nano_utc_ns (match_text m)) as [local|e] eqn:Ep.
  2:{ case_bool_decide; [done|]. cbn [negb rbind]. by rewrite Hp. }
  destruct Hp as (local' & Hl & ->). rewrite bool_decide_eq_false_2.
  2:{ intros E. apply (app_inj_tail _ (u "0000")) in E as [E _]. unfold fromisoformat_seconds in Hl. by rewrite E in Hl. }
  cbn [negb rbind]. rewrite Hl. cbn [rbind]. set (utc := local' - offset).
  pose proof (fraction_ns_range _ Hf) as Hfr.
  replace (_ - _) with (utc * NANOSECONDS_PER_SECOND + fraction_ns (m_fraction m)) by (subst utc; lia).
  destruct (instant_range utc _ Hfr) as (Hq & Hr & Hb). rewrite Hb.
  destruct ((1 <=? _) && (_ <=? MAXORDINAL)) eqn:E; [|reflexivity]. cbn [guard rbind]. intros H1000.
  unfold format_rfc3339nano_utc_ns. rewrite Hb, Hq, Hr. cbn [guard rbind]. rewrite fraction_suffix by done.
  rewrite strftime_four_digits; [by rewrite <- !app_assoc|]. breflect. split.
  - apply fromordinal_four_digits. revert H1000 Hfr. clear. 
    unfold YEAR_1000_NS, NANOSECONDS_PER_SECOND, SECONDS_PER_DAY, UNIX_EPOCH_ORDINAL. lia.
  - by apply fromordinal_year.
Qed.
End Times.

(** ** What leaves the adapter fits and reads back *)

Lemma within_short s : short_ascii s = true -> within 64 s.
Proof. apply (within_ascii 64 1). Qed.

Lemma within_hex64 s : HEX64 s = true -> within 64 s.
Proof. apply (within_hex 64). Qed.

Lemma within_id_prefix s : id_prefix_ok s = true -> within 64 s.
Proof. unfold id_prefix_ok. intros H. breflect. apply (within_chars 64); [by apply hex_chars|lia]. Qed.

Lemma within_image s : is_prefixed_hex "sha256:" 64 s = true -> within 71 s.
Proof. apply (within_prefixed "sha256:" 64). repeat constructor; lia. Qed.

#[local] Hint Resolve within_short within_hex64 within_id_prefix within_image : sizes.

(** Every valid event can be written in the bytes a delivery holds. *)
Lemma connect_fits c :
  new_connect c = Ok c ->
  exists raw, canonical_json (JObj (connect_dump c)) = Ok raw
    /\ 1 <= Z.of_nat (length raw) <= FALCO_MAX_BODY_BYTES.
Proof.
  unfold new_connect, check. intros (? & H%guard_ok & _)%rbind_ok.
  apply andb_true_iff in H as [[Hb Hf]%andb_true_iff Hs].
  repeat (apply andb_true_iff in Hs as [Hs _]).
  unfold connect_bounds, opt_sat in Hb. unfold connect_fields_ok, repo_digests_ok, opt_utf8 in Hf. breflect.
  unfold connect_dump, connect_fields. eapply model_fits.
  - repeat (eapply Forall2_cons_2; [bound_field|]); [..|by apply Forall2_nil_2].
    + apply (opt_within _ _ _ (6 + 6 * 24 + 6 * 64)); [lia|]. intros s E. rewrite E in Hs. destruct s as [z|t].
      * eapply field_within_mono; [eapply int_within; [by apply literal_within|]|cbn; lia]. cbn in Hs. breflect.
        unfold MIN_CANONICAL_INTEGER, MAX_CANONICAL_INTEGER, MIN_INT64, MAX_INT64, MAX_UINT64 in *. lia.
      * eapply field_within_mono; [eapply str_within; [by apply literal_within|by apply within_short]|cbn; lia].
    + apply (strings_within _ _ (literal_within (u "repo_digests") eq_refl) 256 16); [lia| |lia]. eapply forallb_Forall; [|eassumption]. apply within_utf8.
    + apply (strings_within _ _ (literal_within (u "missing_required_fields") eq_refl) 64 32); [lia| |lia]. eapply forallb_Forall; [|eassumption]. apply within_short.
  - by vm_compute.
Qed.

#[export] Instance bool_field_proper k : Proper (doc_equiv ==> eq) (bool_field k).
Proof. intros d1 d2 H. unfold bool_field. by rewrite (H k). Qed.

#[export] Instance start_field_proper k : Proper (doc_equiv ==> eq) (start_field k).
Proof. intros d1 d2 H. unfold start_field. by rewrite (H k). Qed.

#[export] Instance connect_validate_proper : Proper (doc_equiv ==> eq) connect_validate.
Proof.
  intros d1 d2 H. unfold connect_validate. reads H.
  rewrite !(bool_field_proper _ d1 d2 H), (start_field_proper _ d1 d2 H). done.
Qed.

Lemma connect_keys_nodup : NoDup connect_keys.
Proof. apply (bool_decide_eq_true (NoDup connect_keys)). vm_compute. reflexivity. Qed.

Lemma bool_field_eq k d b : get k d = Some (JBool b) -> bool_field k d = Ok b.
Proof. intros H. unfold bool_field. by rewrite H. Qed.

Lemma start_field_eq k d o : get k d = start_json <$> o -> start_field k d = Ok o.
Proof. intros H. unfold start_field. rewrite H. by destruct o as [[]|]. Qed.

Lemma new_connect_ok c c' :
  new_connect c = Ok c' <->
  c' = c /\ connect_bounds c = true /\ connect_fields_ok c = true /\ result_and_candidate_semantics c = true.
Proof.
  unfold new_connect, check. rewrite rbind_ok. split.
  - intros (? & H%guard_ok & [= <-]). apply andb_true_iff in H as [H ?]. by apply andb_true_iff in H as [??].
  - intros (-> & H1 & H2 & H3). exists tt. by rewrite guard_ok, H1, H2, H3.
Qed.

(** Validation of a dump reads every field back. *)
Lemma connect_validate_dump c : new_connect c = Ok c -> connect_validate (connect_dump c) = Ok c.
Proof.
  intros Hc. assert (Hnd : NoDup (map fst (connect_fields c))) by exact connect_keys_nodup.
  pose proof Hc as (_ & Hb & _)%new_connect_ok. unfold connect_bounds, opt_sat in Hb. breflect.
  repeat match goal with H : match _ with _ => _ end = true |- _ => pose proof (opt_sat_range H); clear H end.
  unfold connect_validate, connect_dump.
  repeat first
  [ read_dump Hnd
  | eapply rbind_step;
    [first [eapply bool_field_eq | eapply start_field_eq]; rewrite (get_dump_of _ _ Hnd); reflexivity|cbv beta]].
  by destruct c.
Qed.

Lemma connect_flat c : Forall flat_field (connect_fields c).
Proof.
  unfold connect_fields. repeat (apply Forall_cons_2; [|]); try apply Forall_nil_2; unfold flat_field; cbn [snd];
    try (by split); try apply flat_strings;
    match goal with |- match _ <$> ?o with _ => _ end => by destruct o as [[]|] || by destruct o end.
Qed.

Lemma connect_not_null c : forallb not_null_field (connect_fields c) = true.
Proof.
  apply forallb_forall. intros kv Hkv%list_elem_of_In. unfold connect_fields in Hkv.
  repeat (apply elem_of_cons in Hkv as [->|Hkv]); try (by apply elem_of_nil in Hkv); unfold not_null_field;
    cbn [snd]; try done;
    match goal with |- match _ <$> ?o with _ => _ end = _ => by destruct o as [[]|] || by destruct o end.
Qed.

(** The canonical bytes of a valid event decode to it. *)
Lemma connect_reads_back c raw :
  new_connect c = Ok c -> canonical_json (JObj (connect_dump c)) = Ok raw ->
  Z.of_nat (length raw) <= FALCO_MAX_BODY_BYTES ->
  decode_strict connect_required connect_validate raw FALCO_MAX_BODY_BYTES = Ok c.
Proof.
  intros Hc Hraw Hl. eapply (flat_model_roundtrip _ _ (connect_fields c)).
  - apply connect_validate_proper.
  - exact connect_keys_nodup.
  - apply connect_flat.
  - apply connect_not_null.
  - reflexivity.
  - by apply connect_validate_dump.
  - exact Hraw.
  - exact Hl.
Qed.

(** ** What an accepted event says *)

(** A fact is the value of its field, and a fact that is absent is a field that is
    missing. *)
Definition transcribed (fields : document) (kv : string * option json) : Prop :=
  match kv.2 with
  | Some v => get (u kv.1) fields = Some v
  | None => is_missing (get (u kv.1) fields) = true
  end.

(** The facts of an event and the Falco fields they come from *)
Definition falco_facts_of (c : FalcoConnectV1) : list (string * option json) :=
  [("evt.rawres", JInt <$> fc_rawres c); ("evt.res", Some (JStr (fc_res c)));
   ("container.id", JStr <$> fc_id_prefix c); ("container.full_id", JStr <$> fc_full_id c);
   ("container.start_ts", start_json <$> fc_start_ts c);
   ("proc.name", JStr <$> fc_proc_name c); ("proc.exepath", JStr <$> fc_proc_exe_path c);
   ("proc.pname", JStr <$> fc_proc_parent_name c); ("fd.rip", JStr <$> fc_destination_ipv4 c);
   ("fd.rport", JInt <$> fc_destination_port c); ("fd.l4proto", JStr <$> fc_l4_protocol c)]%string.

Lemma bounded_text_value n v o :
  bounded_text n v = Ok o -> match o with Some s => v = Some (JStr s) | None => is_missing v = true end.
Proof.
  unfold bounded_text. destruct (is_missing v) eqn:E; [by intros [= <-]|].
  destruct v as [[]|]; try done. intros H. inv_ok. by subst o.
Qed.

Lemma bounded_ascii_value v o :
  bounded_ascii v = Ok o -> match o with Some s => v = Some (JStr s) | None => is_missing v = true end.
Proof.
  unfold bounded_ascii. intros (t & Ht%bounded_text_value & H)%rbind_ok.
  destruct t as [s|]; [|by injection H as <-].
  apply rbind_ok in H as (? & _ & H). apply rbind_ok in H as (? & _ & H). by injection H as <-.
Qed.

Lemma required_ascii_value v s : required_ascii v = Ok s -> v = Some (JStr s).
Proof. unfold required_ascii. intros (t & Ht%bounded_ascii_value & ->%of_option_ok)%rbind_ok. done. Qed.

Lemma ascii_where_value p v o :
  ascii_where p v = Ok o -> match o with Some s => v = Some (JStr s) | None => is_missing v = true end.
Proof.
  unfold ascii_where. intros (t & Ht%bounded_ascii_value & H)%rbind_ok.
  apply rbind_ok in H as (? & _ & H). by injection H as <-.
Qed.

Lemma optional_int64_value v o :
  optional_int64 v = Ok o -> match o with Some z => v = Some (JInt z) | None => is_missing v = true end.
Proof.
  unfold optional_int64, int64. destruct (is_missing v) eqn:E; [by intros [= <-]|].
  destruct v as [[]|]; try done. intros H. inv_ok. by subst.
Qed.

Lemma container_start_value v o :
  container_start v = Ok o ->
  match o with Some s => v = Some (start_json s) | None => is_missing v = true end.
Proof.
  unfold container_start, int64. destruct (is_missing v) eqn:E; [by intros [= <-]|].
  destruct v as [[]|]; try done; intros H; inv_ok; subst; try done.
  all: match goal with H : bounded_ascii _ = Ok ?t |- _ => apply bounded_ascii_value in H; destruct t end;
    naive_solver.
Qed.

Lemma destination_port_value v o :
  destination_port_of v = Ok o -> match o with Some z => v = Some (JInt z) | None => is_missing v = true end.
Proof.
  unfold destination_port_of. destruct (is_missing v) eqn:E; [by intros [= <-]|].
  destruct v as [[]|]; try done. intros H. inv_ok. by subst.
Qed.

Lemma field_equals_str k t d : field_equals k (JStr t) d = true -> get (u k) d = Some (JStr t).
Proof.
  unfold field_equals. generalize (get (u k) d). intros [[| | | |s|l|]|]; try done.
  - by intros ->%bool_decide_eq_true.
  - by destruct l as [|[] [|]].
Qed.

Section Accepted.
Variable strftime_Y : Z -> pystr.

Lemma redact_ok event hash c :
  redact_falco_event strftime_Y event hash = Ok c ->
  new_connect c = Ok c
  /\ get (u "rule") event = Some (JStr CONNECT_RULE)
  /\ (exists fields, get (u "output_fields") event = Some (JObj fields)
      /\ get (u "evt.type") fields = Some (JStr (u "connect"))
      /\ Forall (transcribed fields) (falco_facts_of c))
  /\ normalize_falco_time strftime_Y (get (u "time") event) = Ok (fc_event_time c)
  /\ fc_missing c = sort_str (omitted (sensor_facts c))
  /\ fc_investigation_only c = true /\ fc_raw_sha256 c = hash
  /\ fc_docker_container_id c = None /\ fc_docker_started_at c = None /\ fc_image_id c = None
  /\ fc_spec_sha256 c = None /\ fc_inventory_revision c = None /\ fc_repo_digests c = [].
Proof.
  unfold redact_falco_event. intros H. apply rbind_ok in H as (? & Hrule%guard_ok & H).
  do 3 (apply rbind_ok in H as (? & _ & H)).
  apply rbind_ok in H as (fields & Hfields & H). apply rbind_ok in H as (ty & Hty%required_ascii_value & H).
  apply rbind_ok in H as (? & Hc%guard_ok & H). apply bool_decide_eq_true in Hc. subst ty.
  apply rbind_ok in H as (rawres & Hraw%optional_int64_value & H).
  apply rbind_ok in H as (res & Hres%required_ascii_value & H). apply rbind_ok in H as (? & _ & H).
  apply rbind_ok in H as (prefix & Hprefix%ascii_where_value & H).
  apply rbind_ok in H as (start & Hstart%container_start_value & H).
  apply rbind_ok in H as (name & Hname%bounded_text_value & H).
  apply rbind_ok in H as (exe & Hexe%bounded_text_value & H).
  apply rbind_ok in H as (parent & Hparent%bounded_text_value & H).
  apply rbind_ok in H as (dst & Hdst%ascii_where_value & H).
  apply rbind_ok in H as (port & Hport%destination_port_value & H).
  apply rbind_ok in H as (proto & Hproto%bounded_ascii_value & H).
  apply rbind_ok in H as (time & Htime & H). apply rbind_ok in H as (full & Hfull%ascii_where_value & H).
  pose proof H as (Ec & _)%new_connect_ok. split; [by rewrite Ec in H |- *|]. subst c.
  split_and!; try done.
  - by apply field_equals_str.
  - unfold output_fields in Hfields. destruct (get (u "output_fields") event) as [[]|] eqn:Eo; try done.
    injection Hfields as <-. eexists. split_and!; [done|done|].
    unfold falco_facts_of, transcribed. repeat apply Forall_cons_2; try apply Forall_nil_2; cbn [fst snd fc_rawres
      fc_res fc_id_prefix fc_full_id fc_start_ts fc_proc_name fc_proc_exe_path fc_proc_parent_name
      fc_destination_ipv4 fc_destination_port fc_l4_protocol]; try done;
    match goal with |- match _ <$> ?o with _ => _ end => by destruct o end.
Qed.

(** C4: what an accepted Falco event says.  It is a valid event of the pinned rule, each
    of its facts is the value of the Falco field it comes from and each absent fact is a
    field Falco did not give; its time is the normalised time of the event, its digest that
    of the received bytes and its list of missing facts exact; and it claims no authority:
    it is for investigation only and names no Docker container, image or inventory. *)
Theorem falco_event_faithful raw c :
  parse_falco_body strftime_Y raw = Ok (Connect c) ->
  exists event fields,
    decode_raw_object raw = Ok event
    /\ get (u "rule") event = Some (JStr CONNECT_RULE)
    /\ get (u "output_fields") event = Some (JObj fields)
    /\ get (u "evt.type") fields = Some (JStr (u "connect"))
    /\ Forall (transcribed fields) (falco_facts_of c)
    /\ normalize_falco_time strftime_Y (get (u "time") event) = Ok (fc_event_time c)
    /\ fc_raw_sha256 c = sha256_hex raw
    /\ fc_missing c = sort_str (omitted (sensor_facts c))
    /\ fc_investigation_only c = true
    /\ fc_docker_container_id c = None /\ fc_docker_started_at c = None /\ fc_image_id c = None
    /\ fc_spec_sha256 c = None /\ fc_inventory_revision c = None /\ fc_repo_digests c = []
    /\ connect_validate (connect_dump c) = Ok c.
Proof.
  unfold parse_falco_body. intros (event & Hd & H)%rbind_ok.
  destruct (field_equals _ _ _); [by apply rbind_ok in H as (? & _ & [=])|].
  apply rbind_ok in H as (? & _ & H). apply rbind_ok in H as (c' & Hc & [= ->]).
  apply redact_ok in Hc as (Hv & Hr & (fields & Hf & Ht & Hfacts) & Htime & Hm & Hi & Hh & Hauth).
  exists event, fields. split_and!; try done; try apply Hauth. by apply connect_validate_dump.
Qed.

(** Every accepted event can be delivered: its canonical bytes are between 1 and 65536,
    the limits of a delivery, and the strict decoder reads exactly the event back from
    them. *)
Theorem falco_event_deliverable raw c :
  parse_falco_body strftime_Y raw = Ok (Connect c) ->
  exists body,
    canonical_json (JObj (connect_dump c)) = Ok body
    /\ 1 <= Z.of_nat (length body) <= FALCO_MAX_BODY_BYTES
    /\ decode_strict connect_required connect_validate body FALCO_MAX_BODY_BYTES = Ok c.
Proof.
  unfold parse_falco_body. intros (event & Hd & H)%rbind_ok.
  destruct (field_equals _ _ _); [by apply rbind_ok in H as (? & _ & [=])|].
  apply rbind_ok in H as (? & _ & H). apply rbind_ok in H as (c' & Hc & [= ->]).
  apply redact_ok in Hc as (Hv & _). destruct (connect_fits c Hv) as (body & Hb & Hl).
  exists body. split_and!; try done; try apply Hl. apply connect_reads_back; [done|done|lia].
Qed.

Lemma parse_heartbeat_ok raw h : parse_falco_body strftime_Y raw = Ok (Heartbeat h) -> heartbeat_ok h = true.
Proof.
  unfold parse_falco_body. intros (event & _ & H)%rbind_ok.
  destruct (field_equals _ _ _); [|apply rbind_ok in H as (? & _ & H); by apply rbind_ok in H as (? & _ & [=])].
  apply rbind_ok in H as (h' & Hh & [= ->]). unfold parse_metrics in Hh.
  repeat (apply rbind_ok in Hh as (? & ? & Hh)). injection Hh as <-.
  by match goal with H : check _ = Ok _ |- _ => apply guard_ok in H end.
Qed.

Lemma parse_connect_ok raw c : parse_falco_body strftime_Y raw = Ok (Connect c) -> new_connect c = Ok c.
Proof.
  unfold parse_falco_body. intros (event & _ & H)%rbind_ok.
  destruct (field_equals _ _ _); [by apply rbind_ok in H as (? & _ & [=])|].
  apply rbind_ok in H as (? & _ & H). apply rbind_ok in H as (c' & Hc & [= ->]). by apply redact_ok in Hc as [? _].
Qed.
End Accepted.

(** ** Witnesses *)

(** One way to write years, which is the documented one for four digits *)
Lemma dec_nonneg_four_digits y : 1000 <= y <= 9999 -> dec_nonneg y = pad 4 y.
Proof.
  intros Hy. unfold pad. destruct (dec_nonneg_spec y ltac:(lia)) as (Hv & Hd & _).
  apply digits_value_range in Hd. rewrite Hv in Hd.
  destruct (decide (length (dec_nonneg y) <= 3)%nat) as [Hl|Hl].
  - assert (10 ^ Z.of_nat (length (dec_nonneg y)) <= 10 ^ 3) by (apply Z.pow_le_mono_r; lia). lia.
  - by replace (4 - length (dec_nonneg y))%nat with 0%nat by lia.
Qed.

(** [falco_time_exact] for the time of an event with an offset, and for one that leaves the
    calendar *)
Lemma falco_time_exact_witness :
  normalize_falco_time dec_nonneg (Some (JStr (u "2026-03-01T01:30:00.120+02:00")))
    = Ok (u "2026-02-28T23:30:00.12Z")
  /\ normalize_falco_time dec_nonneg (Some (JStr (u "0001-01-01T00:30:00+01:00"))) = Err OverflowError.
Proof.
  split.
  - assert (E : falco_instant (u "2026-03-01T01:30:00.120+02:00") = Some 1772321400120000000) by reflexivity.
    pose proof (falco_time_exact dec_nonneg dec_nonneg_four_digits (u "2026-03-01T01:30:00.120+02:00")) as H.
    rewrite E in H. change ((_ <=? _) && _) with true in H. rewrite H; [reflexivity|].
    by unfold YEAR_1000_NS.
  - exact (falco_time_exact dec_nonneg dec_nonneg_four_digits (u "0001-01-01T00:30:00+01:00")).
Defined.

Definition sample_event : document :=
  [(u "rule", JStr CONNECT_RULE); (u "source", JStr CONNECT_SOURCE); (u "priority", JStr (u "Notice"));
   (u "tags", JArr [JStr CONNECT_RULE_TAG]); (u "time", JStr (u "2026-03-01T01:30:00.120+02:00"));
   (u "output", JStr (u "discarded"));
   (u "output_fields", JObj
     [(u "evt.type", JStr (u "connect")); (u "evt.rawres", JInt 0); (u "evt.res", JStr (u "SUCCESS"));
      (u "container.id", JStr (u "0123456789ab")); (u "container.start_ts", JInt 1772321000);
      (u "proc.name", JStr (u "curl")); (u "proc.exepath", JStr (u "/usr/bin/curl"));
      (u "proc.pname", JStr (u "<NA>")); (u "proc.cmdline", JStr (u "discarded too"));
      (u "fd.rip", JStr (u "198.51.100.7")); (u "fd.rport", JInt 443); (u "fd.l4proto", JStr (u "tcp"))])].

Definition sample_body : bytes := Eval vm_compute in
  match canonical_json (JObj sample_event) with Ok raw => raw | Err _ => [] end.

Definition sample_connect : FalcoConnectV1 := Eval vm_compute in
  mkConnect CONNECT_RULE CONNECT_RULE_TAG FALCO_VERSION (u "2026-02-28T23:30:00.12Z") (Some 0) (u "SUCCESS")
    true true (Some (u "0123456789ab")) None (Some (StartInt 1772321000)) None None None [] None None
    (Some (u "curl")) (Some (u "/usr/bin/curl")) None (Some (u "198.51.100.7")) (Some 443) (Some (u "tcp"))
    [u "proc_parent_name"] (sha256_hex sample_body).

#[local] Instance body_result_eq_dec : EqDecision (result py_exn falco_body).
Proof. solve_decision. Defined.

Lemma sample_body_parsed :
  bool_decide (parse_falco_body dec_nonneg sample_body = Ok (Connect sample_connect)) = true.
Proof. vm_cast_no_check (eq_refl true). Qed.

Lemma falco_event_faithful_witness :
  parse_falco_body dec_nonneg sample_body = Ok (Connect sample_connect)
  /\ exists event fields, decode_raw_object sample_body = Ok event
    /\ get (u "output_fields") event = Some (JObj fields)
    /\ Forall (transcribed fields) (falco_facts_of sample_connect).
Proof.
  split; [exact (bool_decide_eq_true_1 _ sample_body_parsed)|].
  destruct (falco_event_faithful dec_nonneg sample_body sample_connect
    (bool_decide_eq_true_1 _ sample_body_parsed)) as (event & fields & H1 & _ & H2 & _ & H3 & _).
  exists event, fields. exact (conj H1 (conj H2 H3)).
Defined.

Lemma falco_event_deliverable_witness : exists body,
  canonical_json (JObj (connect_dump sample_connect)) = Ok body
  /\ 1 <= Z.of_nat (length body) <= FALCO_MAX_BODY_BYTES
  /\ decode_strict connect_required connect_validate body FALCO_MAX_BODY_BYTES = Ok sample_connect.
Proof.
  exact (falco_event_deliverable dec_nonneg sample_body sample_connect
    (bool_decide_eq_true_1 _ sample_body_parsed)).
Defined.
