(* ===== verification/FalcoRuntime.v ===== *)
(** * The Falco adapter at run time

    The running part of [falco_adapter/main.py]: the bounded outbox with its one inflight
    item, the heartbeat watchdog, the runtime that admits bodies and reports coverage, the
    delivery worker and the HTTP answers.

    Handlers are written in a small state and exception monad over the whole runtime, since
    an exception leaves behind what was assigned before it.  Every reading of the two
    clocks is a separate reading: the clocks are functions of the number of readings so
    far, about which nothing is assumed unless a theorem says so.  The handlers of one event
    loop do not overlap; the points where the worker waits for the network or sleeps are
    the states of its task, and any number of bodies may arrive while it waits.

    [rt_emitted] is a history variable: the coverage admitted to the outbox, in order. *)

From Stdlib Require Import SpecFloat.
From stdpp Require Import gmap.
From S2P Require Import Prelude.
From S2P Require Import Sha256.
From S2P Require Import CanonicalJson.
From S2P Require Import JsonDecode.
From S2P Require Import Time.
From S2P Require Import Ipv4.
From S2P Require Import Identities.
From S2P Require Import Contracts.
From S2P Require Import CoverageGrammar.
From S2P Require Import CoverageReducer.
From S2P Require Import PccContracts.
From S2P Require Import Historical.
From S2P Require Import JsonSize.
From S2P Require Import FalcoParser.
Local Open Scope Z_scope.
Local Open Scope agmind_scope.

Definition f_sub : float -> float -> float := SFsub 53 1024.
Definition f_mul : float -> float -> float := SFmul 53 1024.

(** ** Coverage inputs *)

Inductive CoverageKind :=
| AdapterStart | AdapterStop | ParseRejection | QueueDrop | DeliveryFailure | HeartbeatGap | HeartbeatLease
| ConfigurationMismatch | KernelEventDrop | OutputsQueueDrop.

#[export] Instance coverage_kind_eq_dec : EqDecision CoverageKind.
Proof. solve_decision. Defined.

Definition all_kinds : list CoverageKind :=
  [AdapterStart; AdapterStop; ParseRejection; QueueDrop; DeliveryFailure; HeartbeatGap; HeartbeatLease;
   ConfigurationMismatch; KernelEventDrop; OutputsQueueDrop].

Definition kind_text (k : CoverageKind) : pystr := u
  match k with
  | AdapterStart => "falco_adapter_start" | AdapterStop => "falco_adapter_stop"
  | ParseRejection => "falco_parse_rejection" | QueueDrop => "falco_queue_drop"
  | DeliveryFailure => "falco_delivery_failure" | HeartbeatGap => "falco_heartbeat_gap"
  | HeartbeatLease => "falco_heartbeat_lease" | ConfigurationMismatch => "falco_configuration_mismatch"
  | KernelEventDrop => "falco_kernel_event_drop" | OutputsQueueDrop => "falco_outputs_queue_drop"
  end%string.

Definition kind_index (k : CoverageKind) : nat :=
  match k with
  | AdapterStart => 0 | AdapterStop => 1 | ParseRejection => 2 | QueueDrop => 3 | DeliveryFailure => 4
  | HeartbeatGap => 5 | HeartbeatLease => 6 | ConfigurationMismatch => 7 | KernelEventDrop => 8
  | OutputsQueueDrop => 9
  end.

#[export] Instance coverage_kind_countable : Countable CoverageKind.
Proof. apply (inj_countable kind_index (fun n => all_kinds !! n)). by intros []. Defined.

(** The kinds that are points: they are emitted closed *)
Definition is_point (k : CoverageKind) : bool :=
  match k with AdapterStart | AdapterStop | HeartbeatLease => true | _ => false end.

Record FalcoAdapterCoverageInputV1 := mkInput {
  fi_kind : CoverageKind; fi_opened_at : pystr; fi_closed_at : option pystr; fi_dropped_count : option Z;
  fi_reason : pystr; fi_source : pystr }.

#[export] Instance coverage_input_eq_dec : EqDecision FalcoAdapterCoverageInputV1.
Proof. solve_decision. Defined.

(** Its field validators and [interval_is_ordered] *)
Definition input_ok (v : FalcoAdapterCoverageInputV1) : bool :=
  opt_sat (fun n => (1 <=? n) && (n <=? MAX_UINT64)) (fi_dropped_count v)
  && valid_timestamp (fi_opened_at v) && opt_ok valid_timestamp (fi_closed_at v)
  && short_ascii (fi_reason v) && HEX64 (fi_source v)
  && match fi_closed_at v with Some c => datetime_us (fi_opened_at v) <=? datetime_us c | None => true end
  && (negb (is_point (fi_kind v))
      || (bool_decide (fi_closed_at v = Some (fi_opened_at v)) && bool_decide (fi_dropped_count v = None))).

Definition coverage_input_fields (v : FalcoAdapterCoverageInputV1) : list (pystr * option json) :=
  [(u "kind", Some (JStr (kind_text (fi_kind v)))); (u "opened_at", Some (JStr (fi_opened_at v)));
   (u "closed_at", JStr <$> fi_closed_at v); (u "dropped_count", JInt <$> fi_dropped_count v);
   (u "reason_code", Some (JStr (fi_reason v))); (u "source_payload_sha256", Some (JStr (fi_source v)))].

Definition coverage_input_dump (v : FalcoAdapterCoverageInputV1) : document := dump_of (coverage_input_fields v).

(** [AdapterSettings] *)
Record AdapterSettings := mkSettings { set_config_sha256 : pystr; set_rules_sha256 : pystr; set_socket : pystr }.

Definition OBSERVER_SOCKET : pystr := u "/run/agmind-sais/observer-ingest/socket".

Definition new_settings (s : AdapterSettings) : result py_exn AdapterSettings :=
  guard (HEX64 (set_config_sha256 s) && HEX64 (set_rules_sha256 s)) ValueError ;;*
  guard (bool_decide (head (set_socket s) = Some 47)) ValueError ;;* Ok s.

(** ** The outbox *)

Inductive adapter_exn := RuntimeError | AdapterPyError (e : py_exn).

#[export] Instance adapter_exn_eq_dec : EqDecision adapter_exn.
Proof. solve_decision. Defined.

Inductive delivery_path := FALCO_EVENT_PATH | FALCO_COVERAGE_PATH.

(** An item; [di_object] is the identity of the Python object *)
Record DeliveryItem := mkItem {
  di_object : nat; di_path : delivery_path; di_body : bytes; di_expires : option float }.

Definition new_item (object : nat) (path : delivery_path) (body : bytes) (expires : option float)
  : result adapter_exn DeliveryItem :=
  guard (negb (bool_decide (body = []) || (FALCO_MAX_BODY_BYTES <? Z.of_nat (length body))))
    (AdapterPyError ValueError) ;;*
  Ok (mkItem object path body expires).

Definition ROUTINE_CAPACITY : nat := 1024.
Definition PRIORITY_CAPACITY : nat := 16.

Record BoundedOutbox := mkOutbox {
  ob_routine : list DeliveryItem; ob_priority : list (pystr * DeliveryItem); ob_inflight : option DeliveryItem }.

Definition new_outbox : BoundedOutbox := mkOutbox [] [] None.

(** The property [empty] *)
Definition outbox_empty (b : BoundedOutbox) : bool :=
  negb (present (ob_inflight b)) && bool_decide (length (ob_routine b) = 0)%nat
  && bool_decide (length (ob_priority b) = 0)%nat.

(** [self._inflight is None and bool(self._priority or self._routine)] *)
Definition available (b : BoundedOutbox) : bool :=
  negb (present (ob_inflight b))
  && negb (bool_decide (length (ob_routine b) = 0)%nat && bool_decide (length (ob_priority b) = 0)%nat).

Definition admit_routine (item : DeliveryItem) (b : BoundedOutbox) : BoundedOutbox * Z :=
  if bool_decide (length (ob_routine b) = ROUTINE_CAPACITY)
  then (mkOutbox (tail (ob_routine b) ++ [item]) (ob_priority b) (ob_inflight b), 1)
  else (mkOutbox (ob_routine b ++ [item]) (ob_priority b) (ob_inflight b), 0).

Definition admit_priority (key : pystr) (item : DeliveryItem) (b : BoundedOutbox)
  : result adapter_exn BoundedOutbox :=
  guard (present (dict_get key (ob_priority b))
         || bool_decide (length (ob_priority b) < PRIORITY_CAPACITY)%nat) RuntimeError ;;*
  Ok (mkOutbox (ob_routine b) (dict_set key item (ob_priority b)) (ob_inflight b)).

Definition CRITICAL_PRIORITY_KEYS : list pystr := map kind_text
  [AdapterStop; ParseRejection; QueueDrop; DeliveryFailure; HeartbeatGap; ConfigurationMismatch;
   KernelEventDrop; OutputsQueueDrop].

Definition priority_class (key : pystr) : Z :=
  if bool_decide (key ∈ CRITICAL_PRIORITY_KEYS) then 0
  else if bool_decide (key = kind_text HeartbeatLease) then 2 else 1.

(** [min(self._priority, key=self._priority_class)]: the first key of the least class *)
Fixpoint min_key (best : pystr) (keys : list pystr) : pystr :=
  match keys with
  | [] => best
  | k :: keys => min_key (if priority_class k <? priority_class best then k else best) keys
  end.

(** [get], once the condition it waits for holds *)
Definition outbox_get (b : BoundedOutbox) : option (DeliveryItem * BoundedOutbox) :=
  if negb (available b) then None
  else match ob_priority b with
  | (k, _) :: rest =>
      let key := min_key k (map fst rest) in
      item ← dict_get key (ob_priority b);
      Some (item, mkOutbox (ob_routine b) (dict_del key (ob_priority b)) (Some item))
  | [] =>
      match ob_routine b with
      | item :: rest => Some (item, mkOutbox rest [] (Some item))
      | [] => None
      end
  end.

(** [ack] and [discard_inflight] *)
Definition outbox_ack (item : DeliveryItem) (b : BoundedOutbox) : result adapter_exn BoundedOutbox :=
  guard (bool_decide (di_object <$> ob_inflight b = Some (di_object item))) RuntimeError ;;*
  Ok (mkOutbox (ob_routine b) (ob_priority b) None).

(** ** The runtime *)

Record HeartbeatWatchdog := mkWatchdog {
  wd_last_monotonic : float; wd_last_wall : pystr; wd_last_event_time : option pystr;
  wd_last_counters : option (Z * Z); wd_pending_rebase : option (Z * Z);
  wd_opened : gmap CoverageKind pystr; wd_drop_totals : gmap CoverageKind Z }.

(** Where the delivery task is: not created, at the top of its loop, waiting for an item,
    waiting for the observer's answer, asleep before a retry, or over (returned or ended by an
    exception) *)
Inductive worker :=
| NoTask | Top | Waiting | Posting (item : DeliveryItem) (delay : float) (reported : bool) (timeout : float)
| Sleeping (item : DeliveryItem) (delay : float) (reported : bool) | Finished.

Record AdapterRuntime := mkRuntime {
  rt_outbox : BoundedOutbox; rt_watchdog : HeartbeatWatchdog; rt_task : worker; rt_accepting : bool;
  rt_started : bool; rt_drain_deadline : option float; rt_queue_dropped : Z;
  rt_queue_drop_opened_at : option pystr; rt_delivery_failure_opened_at : option pystr;
  rt_delivered_heartbeat : option float; rt_rejection_opened_at : option pystr; rt_rejection_count : Z;
  rt_rejection_source : option pystr; rt_reads : nat; rt_objects : nat;
  rt_emitted : list FalcoAdapterCoverageInputV1 }.

Definition with_outbox b (rt : AdapterRuntime) : AdapterRuntime :=
  mkRuntime b (rt_watchdog rt) (rt_task rt) (rt_accepting rt) (rt_started rt) (rt_drain_deadline rt)
    (rt_queue_dropped rt) (rt_queue_drop_opened_at rt) (rt_delivery_failure_opened_at rt)
    (rt_delivered_heartbeat rt) (rt_rejection_opened_at rt) (rt_rejection_count rt) (rt_rejection_source rt)
    (rt_reads rt) (rt_objects rt) (rt_emitted rt).
Definition with_watchdog w (rt : AdapterRuntime) : AdapterRuntime :=
  mkRuntime (rt_outbox rt) w (rt_task rt) (rt_accepting rt) (rt_started rt) (rt_drain_deadline rt)
    (rt_queue_dropped rt) (rt_queue_drop_opened_at rt) (rt_delivery_failure_opened_at rt)
    (rt_delivered_heartbeat rt) (rt_rejection_opened_at rt) (rt_rejection_count rt) (rt_rejection_source rt)
    (rt_reads rt) (rt_objects rt) (rt_emitted rt).
Definition with_task t (rt : AdapterRuntime) : AdapterRuntime :=
  mkRuntime (rt_outbox rt) (rt_watchdog rt) t (rt_accepting rt) (rt_started rt) (rt_drain_deadline rt)
    (rt_queue_dropped rt) (rt_queue_drop_opened_at rt) (rt_delivery_failure_opened_at rt)
    (rt_delivered_heartbeat rt) (rt_rejection_opened_at rt) (rt_rejection_count rt) (rt_rejection_source rt)
    (rt_reads rt) (rt_objects rt) (rt_emitted rt).
Definition with_flags accepting started (rt : AdapterRuntime) : AdapterRuntime :=
  mkRuntime (rt_outbox rt) (rt_watchdog rt) (rt_task rt) accepting started (rt_drain_deadline rt)
    (rt_queue_dropped rt) (rt_queue_drop_opened_at rt) (rt_delivery_failure_opened_at rt)
    (rt_delivered_heartbeat rt) (rt_rejection_opened_at rt) (rt_rejection_count rt) (rt_rejection_source rt)
    (rt_reads rt) (rt_objects rt) (rt_emitted rt).
Definition with_deadline deadline (rt : AdapterRuntime) : AdapterRuntime :=
  mkRuntime (rt_outbox rt) (rt_watchdog rt) (rt_task rt) (rt_accepting rt) (rt_started rt) deadline
    (rt_queue_dropped rt) (rt_queue_drop_opened_at rt) (rt_delivery_failure_opened_at rt)
    (rt_delivered_heartbeat rt) (rt_rejection_opened_at rt) (rt_rejection_count rt) (rt_rejection_source rt)
    (rt_reads rt) (rt_objects rt) (rt_emitted rt).
Definition with_queue n opened (rt : AdapterRuntime) : AdapterRuntime :=
  mkRuntime (rt_outbox rt) (rt_watchdog rt) (rt_task rt) (rt_accepting rt) (rt_started rt)
    (rt_drain_deadline rt) n opened (rt_delivery_failure_opened_at rt) (rt_delivered_heartbeat rt)
    (rt_rejection_opened_at rt) (rt_rejection_count rt) (rt_rejection_source rt) (rt_reads rt)
    (rt_objects rt) (rt_emitted rt).
Definition with_failure opened (rt : AdapterRuntime) : AdapterRuntime :=
  mkRuntime (rt_outbox rt) (rt_watchdog rt) (rt_task rt) (rt_accepting rt) (rt_started rt)
    (rt_drain_deadline rt) (rt_queue_dropped rt) (rt_queue_drop_opened_at rt) opened
    (rt_delivered_heartbeat rt) (rt_rejection_opened_at rt) (rt_rejection_count rt) (rt_rejection_source rt)
    (rt_reads rt) (rt_objects rt) (rt_emitted rt).
Definition with_delivered t (rt : AdapterRuntime) : AdapterRuntime :=
  mkRuntime (rt_outbox rt) (rt_watchdog rt) (rt_task rt) (rt_accepting rt) (rt_started rt)
    (rt_drain_deadline rt) (rt_queue_dropped rt) (rt_queue_drop_opened_at rt)
    (rt_delivery_failure_opened_at rt) t (rt_rejection_opened_at rt) (rt_rejection_count rt)
    (rt_rejection_source rt) (rt_reads rt) (rt_objects rt) (rt_emitted rt).
Definition with_rejection opened n source (rt : AdapterRuntime) : AdapterRuntime :=
  mkRuntime (rt_outbox rt) (rt_watchdog rt) (rt_task rt) (rt_accepting rt) (rt_started rt)
    (rt_drain_deadline rt) (rt_queue_dropped rt) (rt_queue_drop_opened_at rt)
    (rt_delivery_failure_opened_at rt) (rt_delivered_heartbeat rt) opened n source (rt_reads rt)
    (rt_objects rt) (rt_emitted rt).
Definition with_reads n (rt : AdapterRuntime) : AdapterRuntime :=
  mkRuntime (rt_outbox rt) (rt_watchdog rt) (rt_task rt) (rt_accepting rt) (rt_started rt)
    (rt_drain_deadline rt) (rt_queue_dropped rt) (rt_queue_drop_opened_at rt)
    (rt_delivery_failure_opened_at rt) (rt_delivered_heartbeat rt) (rt_rejection_opened_at rt)
    (rt_rejection_count rt) (rt_rejection_source rt) n (rt_objects rt) (rt_emitted rt).
Definition with_objects n (rt : AdapterRuntime) : AdapterRuntime :=
  mkRuntime (rt_outbox rt) (rt_watchdog rt) (rt_task rt) (rt_accepting rt) (rt_started rt)
    (rt_drain_deadline rt) (rt_queue_dropped rt) (rt_queue_drop_opened_at rt)
    (rt_delivery_failure_opened_at rt) (rt_delivered_heartbeat rt) (rt_rejection_opened_at rt)
    (rt_rejection_count rt) (rt_rejection_source rt) (rt_reads rt) n (rt_emitted rt).
Definition with_emitted l (rt : AdapterRuntime) : AdapterRuntime :=
  mkRuntime (rt_outbox rt) (rt_watchdog rt) (rt_task rt) (rt_accepting rt) (rt_started rt)
    (rt_drain_deadline rt) (rt_queue_dropped rt) (rt_queue_drop_opened_at rt)
    (rt_delivery_failure_opened_at rt) (rt_delivered_heartbeat rt) (rt_rejection_opened_at rt)
    (rt_rejection_count rt) (rt_rejection_source rt) (rt_reads rt) (rt_objects rt) l.

Definition with_opened opened (w : HeartbeatWatchdog) : HeartbeatWatchdog :=
  mkWatchdog (wd_last_monotonic w) (wd_last_wall w) (wd_last_event_time w) (wd_last_counters w)
    (wd_pending_rebase w) opened (wd_drop_totals w).
Definition with_totals totals (w : HeartbeatWatchdog) : HeartbeatWatchdog :=
  mkWatchdog (wd_last_monotonic w) (wd_last_wall w) (wd_last_event_time w) (wd_last_counters w)
    (wd_pending_rebase w) (wd_opened w) totals.
Definition with_pending pending (w : HeartbeatWatchdog) : HeartbeatWatchdog :=
  mkWatchdog (wd_last_monotonic w) (wd_last_wall w) (wd_last_event_time w) (wd_last_counters w)
    pending (wd_opened w) (wd_drop_totals w).
Definition with_valid monotonic wall event_time counters (w : HeartbeatWatchdog) : HeartbeatWatchdog :=
  mkWatchdog monotonic wall event_time counters (wd_pending_rebase w) (wd_opened w) (wd_drop_totals w).

(** ** Handlers *)

(** A handler: the runtime it leaves and its result or exception *)
Definition act (A : Type) : Type := AdapterRuntime -> AdapterRuntime * result adapter_exn A.

Definition ret {A} (a : A) : act A := fun rt => (rt, Ok a).
Definition raise {A} (e : adapter_exn) : act A := fun rt => (rt, Err e).
Definition bind {A B} (m : act A) (k : A -> act B) : act B :=
  fun rt => match m rt with (rt, Ok a) => k a rt | (rt, Err e) => (rt, Err e) end.
Definition gets {A} (f : AdapterRuntime -> A) : act A := fun rt => (rt, Ok (f rt)).
Definition update (f : AdapterRuntime -> AdapterRuntime) : act unit := fun rt => (f rt, Ok tt).
Definition of_result {A} (r : result adapter_exn A) : act A := fun rt => (rt, r).
Definition of_py {A} (r : result py_exn A) : act A := of_result (catch_with AdapterPyError r).

Notation "'let!' x := m 'in' k" := (bind m (fun x => k))
  (at level 10, x pattern, m at level 100, k at level 200) : agmind_scope.
Notation "m ;;! k" := (bind m (fun _ => k)) (at level 199, right associativity) : agmind_scope.

Section Runtime.
(** [strftime("%Y")]; the wall clock in microseconds and the monotonic clock at each reading;
    the expected identity of Falco *)
Context (strftime_Y : Z -> pystr) (now_at : nat -> Z) (monotonic_at : nat -> float)
  (settings : AdapterSettings).

(** [_timestamp] of an aware datetime *)
Definition timestamp (us : Z) : pystr :=
  let seconds := us / 1000000 in
  let calendar := fromordinal (seconds / SECONDS_PER_DAY + UNIX_EPOCH_ORDINAL) in
  let second_of_day := seconds mod SECONDS_PER_DAY in
  strftime_Y calendar.1 ++ [45] ++ pad 2 calendar.2.1 ++ [45] ++ pad 2 calendar.2.2
  ++ [84] ++ pad 2 (second_of_day / 3600) ++ [58] ++ pad 2 (second_of_day mod 3600 / 60)
  ++ [58] ++ pad 2 (second_of_day mod 3600 mod 60)
  ++ (if us mod 1000000 =? 0 then [] else 46 :: rstrip0 (pad 6 (us mod 1000000))) ++ [90].

(** [self._timestamp(self._now())] *)
Definition now : act pystr := fun rt =>
  (with_reads (S (rt_reads rt)) rt, Ok (timestamp (now_at (rt_reads rt)))).

(** [self._monotonic()] *)
Definition monotonic : act float := fun rt =>
  (with_reads (S (rt_reads rt)) rt, Ok (monotonic_at (rt_reads rt))).

(** [value or self._timestamp(self._now())] *)
Definition or_now (value : option pystr) : act pystr :=
  match value with Some (c :: s) => ret (c :: s) | _ => now end.

(** A new object *)
Definition fresh_object : act nat := fun rt => (with_objects (S (rt_objects rt)) rt, Ok (rt_objects rt)).

Definition HEARTBEAT_TIMEOUT_SECONDS : float := f_of_int 15.
Definition SHUTDOWN_DRAIN_SECONDS : float := f_of_int 5.
Definition DELIVERY_TIMEOUT_SECONDS : float := f_of_int 2.
Definition MAX_RETRY_SECONDS : float := f_of_int 5.

(** [FalcoAdapterCoverageInputV1(...)] *)
Definition new_input (v : FalcoAdapterCoverageInputV1) : act FalcoAdapterCoverageInputV1 :=
  of_result (guard (input_ok v) (AdapterPyError ValueError) ;;* Ok v).

(** [_admit_coverage] *)
Definition admit_coverage (v : FalcoAdapterCoverageInputV1) : act unit :=
  let! body := of_py (canonical_json (JObj (coverage_input_dump v))) in
  let! expires :=
    match fi_kind v with
    | HeartbeatLease => let! t := monotonic in ret (Some (f_add t HEARTBEAT_TIMEOUT_SECONDS))
    | _ => ret None
    end in
  let! object := fresh_object in
  let! item := of_result (new_item object FALCO_COVERAGE_PATH body expires) in
  let! b := gets rt_outbox in
  let! b := of_result (admit_priority (kind_text (fi_kind v)) item b) in
  update (with_outbox b) ;;!
  update (fun rt => with_emitted (rt_emitted rt ++ [v]) rt).

(** [_emit_point_coverage] *)
Definition emit_point_coverage (kind : CoverageKind) (reason : string) (source : pystr) (dropped : option Z)
    (opened_at closed_at : option pystr) : act unit :=
  let! opened := or_now opened_at in
  let! v := new_input (mkInput kind opened closed_at dropped (u reason) source) in
  admit_coverage v.

(** [HeartbeatWatchdog._open] *)
Definition wd_open (kind : CoverageKind) (reason : string) (source : pystr) (dropped : option Z)
    (opened_at : option pystr) : act unit :=
  let! default := or_now opened_at in
  let! w := gets rt_watchdog in
  let start := match wd_opened w !! kind with Some s => s | None => default end in
  update (with_watchdog (with_opened (<[kind := start]> (wd_opened w)) w)) ;;!
  let! v := new_input (mkInput kind start None dropped (u reason) source) in
  admit_coverage v.

(** [HeartbeatWatchdog._close] *)
Definition wd_close (kind : CoverageKind) (source closed_at : pystr) : act unit :=
  let! w := gets rt_watchdog in
  match wd_opened w !! kind with
  | None => ret tt
  | Some opened =>
      let! v := new_input (mkInput kind opened (Some closed_at) (wd_drop_totals w !! kind) (u "recovered") source) in
      admit_coverage v ;;!
      let! w := gets rt_watchdog in
      update (with_watchdog (with_totals (delete kind (wd_drop_totals w))
        (with_opened (delete kind (wd_opened w)) w)))
  end.

(** [open_initial_gap] *)
Definition open_initial_gap (started_at : pystr) : act unit :=
  let! t := monotonic in
  update (fun rt => with_watchdog (with_valid t started_at None (wd_last_counters (rt_watchdog rt))
    (rt_watchdog rt)) rt) ;;!
  wd_open HeartbeatGap "awaiting_initial_heartbeat"
    (sha256_hex (bstr "AGMIND_FALCO_AWAITING_INITIAL_HEARTBEAT_V1" ++ NUL)) None (Some started_at).

(** [HeartbeatWatchdog.ready] *)
Definition wd_ready : act bool :=
  let! w := gets rt_watchdog in
  if negb (present (wd_last_event_time w)) then ret false
  else
    let! t := monotonic in
    ret (f_leb (f_sub t (wd_last_monotonic w)) HEARTBEAT_TIMEOUT_SECONDS
         && negb (present (wd_opened w !! HeartbeatGap))
         && negb (present (wd_opened w !! ConfigurationMismatch))).

(** [_identity_mismatch] *)
Definition identity_mismatch (h : FalcoMetricsHeartbeat) : option string :=
  if negb (bool_decide (hb_falco_version h = u "0.44.1")) then Some "falco_version_mismatch"%string
  else if negb (bool_decide (hb_engine_name h = u "modern_bpf")) then Some "falco_engine_mismatch"%string
  else if negb (bool_decide (hb_config_sha256 h = set_config_sha256 settings))
  then Some "falco_config_hash_mismatch"%string
  else if negb (bool_decide (hb_rules_sha256 h = set_rules_sha256 settings))
  then Some "falco_rules_hash_mismatch"%string
  else None.

(** [_record_drop_delta] *)
Definition record_drop_delta (kind : CoverageKind) (reason : string) (source : pystr) (delta : Z)
    (received_at : pystr) : act unit :=
  if delta =? 0 then wd_close kind source received_at
  else
    let! w := gets rt_watchdog in
    let cumulative := Z.min MAX_UINT64 (default 0 (wd_drop_totals w !! kind) + delta) in
    update (with_watchdog (with_totals (<[kind := cumulative]> (wd_drop_totals w)) w)) ;;!
    wd_open kind reason source (Some cumulative) (Some (wd_last_wall w)).

(** [_record_counter_changes] *)
Definition record_counter_changes (previous current : Z * Z) (source received_at : pystr) : act unit :=
  record_drop_delta KernelEventDrop "falco_kernel_drop_counter_increase" source
    (current.2 - previous.2) received_at ;;!
  record_drop_delta OutputsQueueDrop "falco_outputs_queue_counter_increase" source
    (current.1 - previous.1) received_at.

(** A mismatch is open and the heartbeat renews nothing *)
Definition refuse (reason : string) (source : pystr) : act bool :=
  let! w := gets rt_watchdog in
  wd_open ConfigurationMismatch reason source None (Some (wd_last_wall w)) ;;! ret false.

(** The counters went back from [p] to [c] *)
Definition rolled_back (c p : Z * Z) : bool := (c.1 <? p.1) || (c.2 <? p.2).

(** The rest of [observe] once the identity and the counters are accepted *)
Definition renew (previous : option (Z * Z)) (current : Z * Z) (h : FalcoMetricsHeartbeat)
    (receipt_wall : pystr) (receipt_monotonic : float) : act bool :=
  let source := hb_raw_sha256 h in
  match previous with
  | Some p => record_counter_changes p current source receipt_wall
  | None => ret tt
  end ;;!
  wd_close HeartbeatGap source receipt_wall ;;!
  wd_close ConfigurationMismatch source receipt_wall ;;!
  let! v := new_input (mkInput HeartbeatLease receipt_wall (Some receipt_wall) None (u "valid_heartbeat") source) in
  admit_coverage v ;;!
  update (fun rt => with_watchdog (with_valid receipt_monotonic receipt_wall (Some (hb_event_time h))
    (Some current) (rt_watchdog rt)) rt) ;;!
  ret true.

(** [observe], with the receipt times that [admit_raw] passes *)
Definition observe (h : FalcoMetricsHeartbeat) (receipt_wall : pystr) (receipt_monotonic : float) : act bool :=
  match identity_mismatch h with
  | Some reason => refuse reason (hb_raw_sha256 h)
  | None =>
      let current := (hb_outputs_drops h, hb_scap_drops h) in
      let! w := gets rt_watchdog in
      match wd_pending_rebase w with
      | Some pending =>
          if rolled_back current pending then
            update (with_watchdog (with_pending (Some current) w)) ;;!
            refuse "falco_counter_rollback" (hb_raw_sha256 h)
          else
            update (with_watchdog (with_pending None w)) ;;!
            renew (Some pending) current h receipt_wall receipt_monotonic
      | None =>
          match wd_last_counters w with
          | Some previous =>
              if rolled_back current previous then
                update (with_watchdog (with_pending (Some current) w)) ;;!
                refuse "falco_counter_rollback" (hb_raw_sha256 h)
              else renew (Some previous) current h receipt_wall receipt_monotonic
          | None => renew None current h receipt_wall receipt_monotonic
          end
      end
  end.

(** [check] *)
Definition wd_check : act unit :=
  let! t := monotonic in
  let! w := gets rt_watchdog in
  if f_leb (f_sub t (wd_last_monotonic w)) HEARTBEAT_TIMEOUT_SECONDS then ret tt
  else wd_open HeartbeatGap "falco_heartbeat_timeout"
    (sha256_hex (bstr "AGMIND_FALCO_HEARTBEAT_TIMEOUT_V1" ++ NUL)) None (Some (wd_last_wall w)).

(** [_derived_hash] *)
Definition derived_hash (label : string) : pystr :=
  sha256_hex (bstr "AGMIND_FALCO_ADAPTER_COVERAGE_V1" ++ NUL ++ bstr label).

(** The [except] branch of [admit_raw] *)
Definition reject_body (received_at raw_hash : pystr) : act unit :=
  update (fun rt => with_rejection
    (Some match rt_rejection_opened_at rt with Some s => s | None => received_at end)
    (Z.min MAX_UINT64 (rt_rejection_count rt + 1)) (Some raw_hash) rt) ;;!
  let! count := gets rt_rejection_count in
  let! opened := gets rt_rejection_opened_at in
  emit_point_coverage ParseRejection "invalid_falco_body" raw_hash (Some count) opened None.

(** The end of a series of rejected bodies: a valid heartbeat *)
Definition recover_rejections (received_at : pystr) : act unit :=
  let! opened := gets rt_rejection_opened_at in
  let! source := gets rt_rejection_source in
  match opened, source with
  | Some o, Some s =>
      let! count := gets rt_rejection_count in
      emit_point_coverage ParseRejection "valid_heartbeat_recovered" s (Some count) (Some o)
        (Some received_at) ;;!
      update (with_rejection None 0 None)
  | _, _ => ret tt
  end.

(** A routine event, and the coverage of the one it may push out *)
Definition admit_event (c : FalcoConnectV1) (raw_hash : pystr) : act unit :=
  let! body := of_py (canonical_json (JObj (connect_dump c))) in
  let! object := fresh_object in
  let! item := of_result (new_item object FALCO_EVENT_PATH body None) in
  let! b := gets rt_outbox in
  let '(b, dropped) := admit_routine item b in
  update (with_outbox b) ;;!
  if dropped =? 0 then ret tt
  else
    update (fun rt => with_queue (rt_queue_dropped rt + dropped) (rt_queue_drop_opened_at rt) rt) ;;!
    let! opened := gets rt_queue_drop_opened_at in
    match opened with
    | Some _ => ret tt
    | None => let! t := now in update (fun rt => with_queue (rt_queue_dropped rt) (Some t) rt)
    end ;;!
    let! n := gets rt_queue_dropped in
    let! opened := gets rt_queue_drop_opened_at in
    emit_point_coverage QueueDrop "routine_capacity_exceeded" raw_hash (Some n) opened None.

(** [admit_raw] *)
Definition admit_raw (raw : bytes) : act unit :=
  let! accepting := gets rt_accepting in
  if negb accepting then raise RuntimeError
  else
    let! received_at := now in
    let! received_monotonic := monotonic in
    let raw_hash := sha256_hex raw in
    match parse_falco_body strftime_Y raw with
    | Err OverflowError => raise (AdapterPyError OverflowError)
    | Err e => reject_body received_at raw_hash ;;! raise (AdapterPyError e)
    | Ok (Heartbeat h) =>
        let! valid := observe h received_at received_monotonic in
        if valid : bool then recover_rejections received_at else ret tt
    | Ok (Connect c) => admit_event c raw_hash
    end.

(** [delivery_failed] *)
Definition delivery_failed (item : DeliveryItem) : act unit :=
  let! opened := gets rt_delivery_failure_opened_at in
  match opened with
  | Some _ => ret tt
  | None => let! t := now in update (with_failure (Some t))
  end ;;!
  let! opened := gets rt_delivery_failure_opened_at in
  emit_point_coverage DeliveryFailure "observer_delivery_failed" (sha256_hex (di_body item)) None opened None.

(** [delivery_recovered] *)
Definition delivery_recovered (item : DeliveryItem) : act unit :=
  let source := sha256_hex (di_body item) in
  let! closed_at := now in
  let! failed := gets rt_delivery_failure_opened_at in
  match failed with
  | Some _ =>
      emit_point_coverage DeliveryFailure "observer_delivery_recovered" source None failed (Some closed_at) ;;!
      update (with_failure None)
  | None => ret tt
  end ;;!
  match di_expires item with
  | Some _ => let! t := monotonic in update (with_delivered (Some t))
  | None => ret tt
  end ;;!
  let! dropping := gets rt_queue_drop_opened_at in
  let! b := gets rt_outbox in
  match dropping with
  | Some _ =>
      if bool_decide (length (ob_routine b) < ROUTINE_CAPACITY)%nat then
        let! n := gets rt_queue_dropped in
        emit_point_coverage QueueDrop "routine_queue_recovered" source (Some n) dropping (Some closed_at) ;;!
        update (with_queue 0 None)
      else ret tt
  | None => ret tt
  end.

(** The property [ready] *)
Definition ready : act bool :=
  let! rt := gets id in
  if negb (rt_started rt && rt_accepting rt
           && match rt_task rt with NoTask | Finished => false | _ => true end
           && negb (present (rt_delivery_failure_opened_at rt)))
  then ret false
  else
    match rt_delivered_heartbeat rt with
    | None => ret false
    | Some delivered =>
        let! t := monotonic in
        if f_leb (f_sub t delivered) HEARTBEAT_TIMEOUT_SECONDS then wd_ready else ret false
    end.

(** [begin_shutdown] *)
Definition begin_shutdown : act unit :=
  update (fun rt => with_flags false (rt_started rt) rt) ;;!
  let! deadline := gets rt_drain_deadline in
  match deadline with
  | Some _ => ret tt
  | None => let! t := monotonic in update (with_deadline (Some (f_add t SHUTDOWN_DRAIN_SECONDS)))
  end.

(** [AdapterRuntime(settings)] *)
Definition new_runtime : AdapterRuntime :=
  mkRuntime new_outbox
    (mkWatchdog (monotonic_at 0) (timestamp (now_at 1)) None None None ∅ ∅)
    NoTask false false None 0 None None None None 0 None 2 0 [].

(** [start] *)
Definition start : act unit :=
  let! task := gets rt_task in
  match task with
  | NoTask =>
      let! started_at := now in
      emit_point_coverage AdapterStart "adapter_started" (derived_hash "adapter_started") None
        (Some started_at) (Some started_at) ;;!
      open_initial_gap started_at ;;!
      update (with_task Top) ;;!
      update (with_flags true true)
  | _ => raise RuntimeError
  end.

(** [shutdown] up to waiting for the task *)
Definition shutdown : act unit :=
  begin_shutdown ;;!
  let! stopped_at := now in
  emit_point_coverage AdapterStop "adapter_stopping" (derived_hash "adapter_stopping") None
    (Some stopped_at) (Some stopped_at) ;;!
  let! task := gets rt_task in
  match task with
  | NoTask => ret tt
  | _ => let! t := monotonic in ret tt
  end.

(** [shutdown] once the task has ended or was cancelled *)
Definition shutdown_end : act unit := update (with_task NoTask).

(** ** The worker *)

(** [_remaining] *)
Definition remaining : act (option float) :=
  let! deadline := gets rt_drain_deadline in
  match deadline with
  | None => ret None
  | Some d =>
      let! t := monotonic in
      let r := f_sub d t in ret (Some (if f_ltb (f_of_int 0) r then r else f_of_int 0))
  end.

Definition is_over (r : option float) : bool :=
  match r with Some r => f_leb r (f_of_int 0) | None => false end.

Definition at_most (limit : float) (r : option float) : float :=
  match r with Some r => if f_ltb r limit then r else limit | None => limit end.

(** One turn of the loop of [deliver_next], up to the request *)
Definition cycle (item : DeliveryItem) (delay : float) (reported : bool) : act worker :=
  wd_check ;;!
  let! expired :=
    match di_expires item with
    | Some e => let! t := monotonic in ret (f_leb e t)
    | None => ret false
    end in
  if expired : bool then
    let! b := gets rt_outbox in
    let! b := of_result (outbox_ack item b) in
    update (with_outbox b) ;;! ret Top
  else
    let! r := remaining in
    if is_over r then ret Finished
    else ret (Posting item delay reported (at_most DELIVERY_TIMEOUT_SECONDS r)).

(** [self._drain_deadline is not None and ... self._monotonic() >= self._drain_deadline] *)
Definition deadline_passed : act bool :=
  let! deadline := gets rt_drain_deadline in
  match deadline with
  | None => ret false
  | Some d => let! t := monotonic in ret (f_leb d t)
  end.

(** [0.125] *)
Definition FIRST_DELAY : float := f_div (f_of_int 1) (f_of_int 8).

(** The top of the loop of [_run], before it waits *)
Definition run_top : act worker :=
  let! rt := gets id in
  let! over := if present (rt_drain_deadline rt) && outbox_empty (rt_outbox rt) then ret true
               else deadline_passed in
  ret (if over : bool then Finished else Waiting).

(** [wait_available] returned: with an item to deliver or after its timeout *)
Definition run_wake (timed_out : bool) : act worker :=
  let! over := deadline_passed in
  if over : bool then ret Finished
  else if timed_out then wd_check ;;! ret Top
  else
    let! b := gets rt_outbox in
    match outbox_get b with
    | None => ret Waiting
    | Some (item, b) => update (with_outbox b) ;;! cycle item FIRST_DELAY false
    end.

(** The observer answered: acknowledged, or a failure of the request *)
Definition after_post (item : DeliveryItem) (delay : float) (reported ok : bool) : act worker :=
  if ok then
    let! b := gets rt_outbox in
    let! b := of_result (outbox_ack item b) in
    update (with_outbox b) ;;!
    delivery_recovered item ;;!
    ret Top
  else
    (if reported then ret tt else delivery_failed item) ;;!
    let! r := remaining in
    if is_over r then ret Finished
    else ret (Sleeping item (if f_ltb MAX_RETRY_SECONDS (f_mul delay (f_of_int 2)) then MAX_RETRY_SECONDS
                             else f_mul delay (f_of_int 2)) true).

(** The task ends with the exception of a turn *)
Definition turn (m : act worker) (rt : AdapterRuntime) : AdapterRuntime :=
  match m rt with (rt, Ok t) => with_task t rt | (rt, Err _) => with_task Finished rt end.

(** What the event loop may do next *)
Inductive event :=
| Start | Body (raw : bytes) | Turn | Wake (timed_out : bool) | Answer (ok : bool) | Awake | Shutdown | ShutdownEnd.

Definition step (e : event) (rt : AdapterRuntime) : AdapterRuntime :=
  match e, rt_task rt with
  | Start, _ => (start rt).1
  | Body raw, _ => (admit_raw raw rt).1
  | Turn, Top => turn run_top rt
  | Wake timed_out, Waiting =>
      if timed_out || available (rt_outbox rt) then turn (run_wake timed_out) rt else rt
  | Answer ok, Posting item delay reported _ => turn (after_post item delay reported ok) rt
  | Awake, Sleeping item delay reported => turn (cycle item delay reported) rt
  | Shutdown, _ => (shutdown rt).1
  | ShutdownEnd, _ => (shutdown_end rt).1
  | _, _ => rt
  end.

(** ** HTTP *)

(** [_bounded_body]: [None] for a body that is too large *)
Fixpoint falco_bounded_body (body : bytes) (chunks : list bytes) : option bytes :=
  match chunks with
  | [] => Some body
  | c :: chunks =>
      if FALCO_MAX_BODY_BYTES <? Z.of_nat (length body) + Z.of_nat (length c) then None
      else falco_bounded_body (body ++ c) chunks
  end.

(** The route [POST /v1/falco/raw]: the runtime it leaves and the status of the response *)
Definition falco_raw (content_type : option pystr) (chunks : list bytes) (rt : AdapterRuntime)
  : AdapterRuntime * Z :=
  if negb (bool_decide (content_type = Some (u "application/json"))) then (rt, 415)
  else match falco_bounded_body [] chunks with
  | None => (rt, 413)
  | Some raw =>
      match admit_raw raw rt with
      | (rt, Ok _) => (rt, 202)
      | (rt, Err RuntimeError) => (rt, 503)
      | (rt, Err (AdapterPyError OverflowError)) => (rt, 500)
      | (rt, Err (AdapterPyError _)) => (rt, 400)
      end
  end.
End Runtime.

(** [ObserverUDSClient.post]: which responses acknowledge a delivery *)
Definition ack_validate (doc : document) : result py_exn pystr :=
  no_extra [u "event_id"] doc ;;*
  let* event_id := str_field (u "event_id") doc in check (EVENT_ID event_id) ;;* Ok event_id.

Definition post_accepted (status : Z) (content : bytes) : bool :=
  (status =? 201) && is_ok (decode_strict [u "event_id"] ack_validate content 1024).
