(* ===== verification/FalcoEpisodes.v ===== *)
(** * The Falco adapter keeps its promises

    Proofs about [FalcoRuntime]: what the adapter reports about itself forms proper episodes
    that the coverage grammar accepts, its queues stay within their bounds, and readiness is
    claimed only without an open outage. *)

From Stdlib Require Import SpecFloat.
From stdpp Require Import gmap.
From S2P Require Import Prelude.
From S2P Require Import Sha256.
From S2P Require Import CanonicalJson.
From S2P Require Import JsonDecode.
From S2P Require Import Time.
From S2P Require Import Ipv4.
From S2P Require Import Identities.
From S2P Require Import Contracts.
From S2P Require Import CoverageGrammar.
From S2P Require Import CoverageReducer.
From S2P Require Import PccContracts.
From S2P Require Import Historical.
From S2P Require Import JsonSize.
From S2P Require Import FalcoParser.
From S2P Require Import FalcoRuntime.
Local Open Scope Z_scope.
Local Open Scope agmind_scope.

(** ** Times *)

Section Timestamps.
Context (strftime_Y : Z -> pystr).
Hypothesis strftime_four_digits : forall y, 1000 <= y <= 9999 -> strftime_Y y = pad 4 y.

Lemma rstrip0_pad_micro m :
  0 <= m < 1000000 -> (m * 1000 =? 0) = (m =? 0) /\ rstrip0 (pad 9 (m * 1000)) = rstrip0 (pad 6 m).
Proof.
  intros Hm. split; [apply eq_true_iff_eq; rewrite !Z.eqb_eq; lia|].
  destruct (pad_spec 6 m) as (Hd & Hl & Hv); [lia|cbn; lia|].
  assert (E : pad 9 (m * 1000) = ljust9 (pad 6 m)).
  { rewrite <- (pad_unique 9 (ljust9 (pad 6 m))); [|lia| |].
    - f_equal. unfold ljust9. rewrite Hl. cbn [Nat.sub repeat]. unfold digits_value in *.
      rewrite fold_left_app, Hv. cbn. lia.
    - unfold ljust9. apply Forall_app. split; [done|apply digits_repeat].
    - unfold ljust9. rewrite length_app, repeat_length. lia. }
  by rewrite E, rstrip0_ljust9.
Qed.

Lemma timestamp_format us :
  YEAR_1000_NS <= us * 1000 <= MAX_TIMESTAMP_NS ->
  format_rfc3339nano_utc_ns (us * 1000) = Ok (timestamp strftime_Y us).
Proof.
  intros Hus. unfold format_rfc3339nano_utc_ns, timestamp.
  assert (Hs : us * 1000 / NANOSECONDS_PER_SECOND = us / 1000000
               /\ us * 1000 mod NANOSECONDS_PER_SECOND = us mod 1000000 * 1000).
  { unfold NANOSECONDS_PER_SECOND. Z.to_euclidean_division_equations. lia. }
  destruct Hs as [-> ->]. pose proof (Z.mod_pos_bound us 1000000 ltac:(lia)) as Hm.
  destruct (rstrip0_pad_micro _ Hm) as [-> ->].
  unfold YEAR_1000_NS, MIN_TIMESTAMP_NS, MAX_TIMESTAMP_NS in *. unfold guard.
  rewrite !(proj2 (Z.leb_le _ _)) by lia. cbn [andb rbind].
  rewrite strftime_four_digits; [by rewrite <- !app_assoc|]. split.
  - apply fromordinal_four_digits. unfold YEAR_1000_NS, NANOSECONDS_PER_SECOND, SECONDS_PER_DAY, UNIX_EPOCH_ORDINAL.
    Z.to_euclidean_division_equations. lia.
  - apply fromordinal_year. unfold SECONDS_PER_DAY, UNIX_EPOCH_ORDINAL.
    Z.to_euclidean_division_equations. lia.
Qed.

(** A timestamp of the clock reads as the instant it was taken. *)
Lemma timestamp_parsed us :
  YEAR_1000_NS <= us * 1000 <= MAX_TIMESTAMP_NS ->
  parse_rfc3339nano_utc_ns (timestamp strftime_Y us) = Ok (us * 1000).
Proof.
  intros Hus. pose proof (timestamp_format us Hus) as H.
  destruct (civil_of_ns (us * 1000)) as (y & mo & d & h & mi & se & ns & Hf & E).
  { unfold YEAR_1000_NS, MIN_TIMESTAMP_NS in *. lia. }
  rewrite E, format_civil in H by done. injection H as <-.
  rewrite E. by apply parse_stamp.
Qed.
End Timestamps.

(** A text of the clock: a valid time of whole microseconds *)
Definition clock_time (s : pystr) : bool :=
  match parse_rfc3339nano_utc_ns s with Ok ns => ns mod 1000 =? 0 | Err _ => false end.

Lemma clock_valid s : clock_time s = true -> valid_timestamp s = true.
Proof. unfold clock_time, valid_timestamp. by destruct (parse_rfc3339nano_utc_ns s). Qed.

(** ** Episodes *)

(** Which kinds count what they dropped *)
Definition counted (k : CoverageKind) : bool := bool_decide (kind_text k ∈ FALCO_COUNTED_KINDS).

(** An open episode: when it opened and the last count reported *)
Definition episode : Type := pystr * option Z.

(** What one input does to the episode of a kind; [None]: it breaks the protocol *)
Definition episode_step (k : CoverageKind) (st : option (option episode)) (v : FalcoAdapterCoverageInputV1)
  : option (option episode) :=
  o ← st;
  if negb (bool_decide (fi_kind v = k)) then Some o
  else match o, fi_closed_at v with
  | None, None =>
      if bool_decide (present (fi_dropped_count v) = counted k)
      then Some (Some (fi_opened_at v, fi_dropped_count v)) else None
  | Some (opened, n), None =>
      if bool_decide (fi_opened_at v = opened) && counter_update_ok (counted k) n (fi_dropped_count v)
      then Some (Some (opened, fi_dropped_count v)) else None
  | Some (opened, n), Some _ =>
      if bool_decide (fi_opened_at v = opened) && counter_close_ok (counted k) n (fi_dropped_count v)
      then Some None else None
  | None, Some _ => None
  end.

(** The episode of a kind after a sequence of inputs *)
Definition replay (k : CoverageKind) (l : list FalcoAdapterCoverageInputV1) : option (option episode) :=
  fold_left (episode_step k) l (Some None).

(** The episode of a kind as the runtime holds it *)
Definition open_of (rt : AdapterRuntime) (k : CoverageKind) : option episode :=
  match k with
  | ParseRejection => (fun s => (s, Some (rt_rejection_count rt))) <$> rt_rejection_opened_at rt
  | QueueDrop => (fun s => (s, Some (rt_queue_dropped rt))) <$> rt_queue_drop_opened_at rt
  | DeliveryFailure => (fun s => (s, None)) <$> rt_delivery_failure_opened_at rt
  | HeartbeatGap | ConfigurationMismatch | KernelEventDrop | OutputsQueueDrop =>
      (fun s => (s, wd_drop_totals (rt_watchdog rt) !! k)) <$> wd_opened (rt_watchdog rt) !! k
  | _ => None
  end.

(** Its times are texts of the clock *)
Definition times_ok (v : FalcoAdapterCoverageInputV1) : bool :=
  clock_time (fi_opened_at v) && opt_ok clock_time (fi_closed_at v).

(** The reason of an input is one its kind has in the coverage grammar *)
Definition reason_ok (v : FalcoAdapterCoverageInputV1) : bool :=
  match falco_point (kind_text (fi_kind v)), falco_open_reasons (kind_text (fi_kind v)) with
  | Some (_, reason, _), _ => bool_decide (fi_reason v = reason)
  | None, Some reasons =>
      bool_decide (present (fi_dropped_count v) = counted (fi_kind v))
      && match fi_closed_at v with
         | None => bool_decide (fi_reason v ∈ reasons)
         | Some _ => bool_decide (fi_reason v = falco_close_reason (kind_text (fi_kind v)))
         end
  | None, None => false
  end.

(** ** The observer's envelope of an input *)

(** [falcoAdapterCoverageSeverities] of [host/observerd/ingest_api.go] *)
Definition coverage_severity (k : CoverageKind) : pystr :=
  match k with AdapterStart | HeartbeatLease => u "INFO" | _ => u "CRITICAL" end.

(** The coverage event of [IngestFalcoCoverage] *)
Definition observer_coverage (v : FalcoAdapterCoverageInputV1) : CoverageEventV1 :=
  mkCoverage (u "falco-adapter") (kind_text (fi_kind v)) (coverage_severity (fi_kind v)) (fi_opened_at v)
    (fi_closed_at v) None None (fi_dropped_count v) (fi_reason v) None.

(** An envelope it wraps the event in: only closed coverage has no flag *)
Definition wraps (v : FalcoAdapterCoverageInputV1) (e : EventEnvelopeV1) : Prop :=
  event_type e = u "coverage" /\ normalized_fields e = coverage_dump (observer_coverage v)
  /\ coverage_flags e = (if present (fi_closed_at v) then [] else [kind_text (fi_kind v)])
  /\ event_time e = default (fi_opened_at v) (fi_closed_at v)
  /\ coverage_context_is_empty e = true.

(** What the coverage grammar should make of it *)
Definition input_action (v : FalcoAdapterCoverageInputV1) : CoverageAction :=
  match fi_kind v with
  | AdapterStart => FalcoStart | AdapterStop => FalcoStop | HeartbeatLease => FalcoLease
  | _ => if present (fi_closed_at v) then GenericClose else GenericOpen
  end.

Lemma first_selected_point e c cl :
  kind c ∈ falco_point_kinds -> classify_falco_point e c = Ok (Some cl) -> first_selected classifiers e c = Ok cl.
Proof.
  intros Hk Hc. unfold classifiers. cbn [first_selected].
  rewrite classify_docker_other by (revert Hk; apply kinds_disjoint; by vm_compute). cbn [rbind].
  rewrite classify_sequence_other by (revert Hk; apply kinds_disjoint; by vm_compute). cbn [rbind].
  by rewrite Hc.
Qed.

Lemma first_selected_generic e c cl :
  kind c ∈ falco_generic_kinds -> classify_falco_generic e c = Ok (Some cl) -> first_selected classifiers e c = Ok cl.
Proof.
  intros Hk Hc. unfold classifiers. cbn [first_selected].
  rewrite classify_docker_other by (revert Hk; apply kinds_disjoint; by vm_compute). cbn [rbind].
  rewrite classify_sequence_other by (revert Hk; apply kinds_disjoint; by vm_compute). cbn [rbind].
  rewrite classify_falco_point_other by (revert Hk; apply kinds_disjoint; by vm_compute). cbn [rbind].
  by rewrite Hc.
Qed.

Lemma clock_parsed s : clock_time s = true -> exists ns, parse_rfc3339nano_utc_ns s = Ok ns /\ ns = datetime_us s * 1000.
Proof.
  unfold clock_time, datetime_us. destruct (parse_rfc3339nano_utc_ns s) as [ns|]; [|done].
  intros H%Z.eqb_eq. exists ns. split; [done|]. cbn. Z.to_euclidean_division_equations. lia.
Qed.

Lemma point_classified v e :
  is_point (fi_kind v) = true -> input_ok v = true -> times_ok v = true -> reason_ok v = true -> wraps v e ->
  exists ns, parse_rfc3339nano_utc_ns (fi_opened_at v) = Ok ns
    /\ classify_coverage_record e (Some (observer_coverage v))
       = Ok (mkClass (input_action v) (Some ProcessScope) false (Some ns) (Some ns)).
Proof.
  intros Hk Hv Ht Hr (Htype & Hf & Hfl & Htime & Hctx). unfold input_ok in Hv. breflect.
  apply andb_true_iff in Ht as [Ht _]. apply clock_parsed in Ht as (ns & Hns & _). exists ns. split; [done|].
  rewrite classify_coverage_event by done. destruct v as [k o c n r h]. cbn [fi_kind fi_opened_at fi_closed_at
    fi_dropped_count fi_reason] in *.
  match goal with H : negb _ || _ = true |- _ => rewrite Hk in H; cbn [negb orb] in H end. breflect. subst c n.
  apply first_selected_point; [destruct k; try done; apply (bool_decide_eq_true_1 _); by vm_compute|].
  unfold classify_falco_point, reason_ok in *. cbn [kind component severity reason_code closed_at opened_at
    observer_coverage fi_kind fi_reason fi_opened_at fi_closed_at present default from_option] in *.
  destruct (falco_point (kind_text k)) as [[[sev reason] act]|] eqn:Ep; [|by destruct k].
  assert (sev = coverage_severity k /\ act = input_action (mkInput k o (Some o) None r h)) as [-> ->].
  { destruct k; try done; vm_compute in Ep; by injection Ep as <- <- <-. }
  apply bool_decide_eq_true_1 in Hr as ->. rewrite Hf, Hfl, Htime, Hctx.
  assert (Hkeys : keys_are (coverage_dump (observer_coverage (mkInput k o (Some o) None reason h)))
    (keys ["component"; "kind"; "severity"; "opened_at"; "closed_at"; "reason_code"]%string) = true) by (by vm_compute).
  rewrite Hkeys, !bool_decide_eq_true_2 by done. cbn [andb check guard rbind]. by rewrite Hns.
Qed.

Lemma generic_classified v e :
  is_point (fi_kind v) = false -> input_ok v = true -> times_ok v = true -> reason_ok v = true -> wraps v e ->
  exists opened closed, parse_rfc3339nano_utc_ns (fi_opened_at v) = Ok opened
    /\ parse_optional_ns (fi_closed_at v) = Ok closed
    /\ classify_coverage_record e (Some (observer_coverage v))
       = Ok (mkClass (input_action v) (Some ProcessScope) (counted (fi_kind v)) (Some opened) closed).
Proof.
  intros Hk Hv Ht Hr (Htype & Hf & Hfl & Htime & Hctx). unfold input_ok in Hv. breflect.
  rewrite classify_coverage_event by done. destruct v as [k o c n r h]. cbn [fi_kind fi_opened_at fi_closed_at
    fi_dropped_count fi_reason] in *.
  apply andb_true_iff in Ht as [Ho Hc]. cbn [fi_opened_at fi_closed_at] in *.
  apply clock_parsed in Ho as (ns & Hns & Eo).
  assert (Hpc : exists closed, parse_optional_ns c = Ok closed
    /\ match closed with Some t => ns <=? t | None => true end = true).
  { destruct c as [c|]; [|by exists None]. cbn in Hc. apply clock_parsed in Hc as (ns' & Hns' & Ec).
    exists (Some ns'). cbn [parse_optional_ns]. rewrite Hns'. split; [done|]. breflect. apply Z.leb_le. lia. }
  destruct Hpc as (closed & Hpc & Hle). exists ns, closed. split_and!; [done|done|].
  apply first_selected_generic; [destruct k; try done; apply (bool_decide_eq_true_1 _); by vm_compute|].
  assert (Hp : falco_point (kind_text k) = None) by (destruct k; try done; by vm_compute).
  unfold classify_falco_generic, reason_ok in *. cbn [kind component severity reason_code closed_at opened_at
    dropped_count observer_coverage fi_kind fi_reason fi_opened_at fi_closed_at fi_dropped_count] in *.
  rewrite Hp in Hr. destruct (falco_open_reasons (kind_text k)) as [reasons|]; [|done].
  apply andb_true_iff in Hr as [Hn%bool_decide_eq_true_1 Hr].
  rewrite (bool_decide_eq_true_2 (u "falco-adapter" = _)) by done. cbn [negb].
  change (bool_decide (kind_text k ∈ FALCO_COUNTED_KINDS)) with (counted k). rewrite <- Hn.
  assert (Hkeys : keys_are (normalized_fields e)
    (keys ["component"; "kind"; "severity"; "opened_at"; "reason_code"]%string
     ++ (if present n then [u "dropped_count"] else [])
     ++ (if bool_decide (c = None) then [] else [u "closed_at"])) = true) by (rewrite Hf; by destruct n, c; vm_compute).
  rewrite Hkeys, Hfl, Htime, Hctx, Hns, Hpc. clear Hkeys.
  assert (coverage_severity k = u "CRITICAL" /\ input_action (mkInput k o c n r h)
    = if bool_decide (c = None) then GenericOpen else GenericClose) as [-> ->] by (by destruct k, c).
  assert (Hpos : match n with Some m => present n && (0 <? m) | None => negb (present n) end = true).
  { destruct n as [m|]; [|done]. cbn in *. breflect. apply Z.ltb_lt. lia. }
  rewrite Hpos. destruct c as [c|]; cbn [default from_option present] in *.
  - rewrite (bool_decide_eq_false_2 (Some c = None)) by done. rewrite Hr, !bool_decide_eq_true_2 by done.
    cbn [andb check guard rbind]. by rewrite Hle.
  - rewrite (bool_decide_eq_true_2 (None = None)) by done. rewrite Hr, !bool_decide_eq_true_2 by done.
    cbn [andb check guard rbind]. by rewrite Hle.
Qed.

(** ** The invariant *)

(** The observer's limits for the two routes, [falcoIngestMaxBytes] and the limit of the
    coverage route in [host/observerd/ingest_api.go] *)
Definition route_limit (path : delivery_path) : Z :=
  match path with FALCO_EVENT_PATH => FALCO_MAX_BODY_BYTES | FALCO_COVERAGE_PATH => 4096 end.

Definition item_ok (item : DeliveryItem) : Prop :=
  1 <= Z.of_nat (length (di_body item)) <= route_limit (di_path item).

Record outbox_ok (b : BoundedOutbox) : Prop := mkOutboxOk {
  ok_items : Forall item_ok (ob_routine b) /\ Forall (fun kv => item_ok kv.2) (ob_priority b);
  ok_keys : NoDup (map fst (ob_priority b));
  ok_kinds : Forall (fun kv => kv.1 ∈ map kind_text all_kinds) (ob_priority b);
  ok_routine : (length (ob_routine b) <= ROUTINE_CAPACITY)%nat }.

Record watchdog_ok (w : HeartbeatWatchdog) : Prop := mkWatchdogOk {
  ok_wall : clock_time (wd_last_wall w) = true;
  ok_opened : forall k s, wd_opened w !! k = Some s -> clock_time s = true;
  ok_totals : forall k n, wd_drop_totals w !! k = Some n -> 1 <= n <= MAX_UINT64;
  ok_counted : forall k, is_Some (wd_drop_totals w !! k) <-> counted k = true /\ is_Some (wd_opened w !! k) }.

Definition rejections_ok (opened : option pystr) (count : Z) (source : option pystr) : Prop :=
  match opened with
  | Some s => clock_time s = true /\ 1 <= count <= MAX_UINT64
              /\ exists h, source = Some h /\ HEX64 h = true
  | None => count = 0
  end.

Definition queue_ok (opened : option pystr) (dropped : Z) (objects : nat) : Prop :=
  match opened with
  | Some s => clock_time s = true /\ 1 <= dropped <= Z.of_nat objects
  | None => dropped = 0
  end.

Record inv (rt : AdapterRuntime) : Prop := mkInv {
  inv_outbox : outbox_ok (rt_outbox rt);
  inv_watchdog : watchdog_ok (rt_watchdog rt);
  inv_rejection : rejections_ok (rt_rejection_opened_at rt) (rt_rejection_count rt) (rt_rejection_source rt);
  inv_queue : queue_ok (rt_queue_drop_opened_at rt) (rt_queue_dropped rt) (rt_objects rt);
  inv_failure : opt_ok clock_time (rt_delivery_failure_opened_at rt) = true;
  inv_emitted : Forall (fun v => input_ok v = true /\ times_ok v = true /\ reason_ok v = true) (rt_emitted rt);
  inv_log : forall k, is_point k = false -> replay k (rt_emitted rt) = Some (open_of rt k) }.

(** *** The outbox *)

Lemma dict_get_keys {V} k (d : list (pystr * V)) : present (dict_get k d) = bool_decide (k ∈ map fst d).
Proof.
  induction d as [|[k' v] d IH]; cbn [dict_get map fst]; [by rewrite bool_decide_eq_false_2 by apply not_elem_of_nil|].
  destruct (bool_decide_reflect (k = k')) as [<-|Hk].
  - by rewrite bool_decide_eq_true_2 by (by left).
  - rewrite IH. apply bool_decide_ext. rewrite elem_of_cons. split; [by right|by intros [?|?]].
Qed.

Lemma dict_set_keys {V} k v (d : list (pystr * V)) :
  map fst (dict_set k v d) = if bool_decide (k ∈ map fst d) then map fst d else map fst d ++ [k].
Proof.
  induction d as [|[k' v'] d IH]; cbn [dict_set map fst];
    [by rewrite bool_decide_eq_false_2 by apply not_elem_of_nil|].
  destruct (bool_decide_reflect (k = k')) as [<-|Hk]; cbn [map fst].
  - by rewrite bool_decide_eq_true_2 by (by left).
  - rewrite IH. destruct (bool_decide_reflect (k ∈ map fst d)).
    + by rewrite bool_decide_eq_true_2 by (by right).
    + by rewrite bool_decide_eq_false_2 by (by intros [?|?]%elem_of_cons).
Qed.

Lemma kind_text_inj k1 k2 : kind_text k1 = kind_text k2 -> k1 = k2.
Proof. destruct k1, k2; try done; intros H; exfalso; revert H; apply (bool_decide_eq_false_1 (_ = _)); by vm_compute. Qed.

Lemma kind_in k : kind_text k ∈ map kind_text all_kinds.
Proof. apply list_elem_of_fmap. exists k. split; [done|]. apply (bool_decide_eq_true_1 _). by destruct k. Qed.

(** Pending priority items have distinct kinds, so there are never more than ten. *)
Lemma priority_bounded b : outbox_ok b -> (length (ob_priority b) <= 10)%nat.
Proof.
  intros [_ Hn Hk _]. rewrite <- (length_map fst). change 10%nat with (length (map kind_text all_kinds)).
  apply submseteq_length, NoDup_submseteq; [done|]. intros x (kv & -> & Hin)%list_elem_of_fmap.
  rewrite Forall_forall in Hk. by apply Hk.
Qed.

Lemma admit_priority_ok k item b :
  outbox_ok b -> item_ok item ->
  exists b', admit_priority (kind_text k) item b = Ok b' /\ outbox_ok b'
    /\ ob_routine b' = ob_routine b /\ ob_inflight b' = ob_inflight b.
Proof.
  intros Hb Hitem. unfold admit_priority. pose proof (priority_bounded b Hb) as Hl. destruct Hb as [[Hi Hj] Hn Hk Hr].
  rewrite (bool_decide_eq_true_2 (length _ < _)%nat) by (unfold PRIORITY_CAPACITY; lia).
  rewrite orb_true_r. cbn [guard rbind]. eexists. split; [reflexivity|]. split; [|done].
  constructor; cbn [ob_priority ob_routine]; [| | |done].
  - split; [done|]. rewrite Forall_forall in *. intros x Hx. apply dict_set_sub in Hx as [->|Hx]; [done|by apply Hj].
  - rewrite dict_set_keys. case_bool_decide as E; [done|]. apply NoDup_app. split; [done|]. split.
    + intros x Hx ->%list_elem_of_singleton. done.
    + apply NoDup_singleton.
  - rewrite Forall_forall in *. intros x Hx. apply dict_set_sub in Hx as [->|Hx]; [apply kind_in|by apply Hk].
Qed.

(** *** Emission *)

(** What admitting an input changes: the clock, the objects, the outbox and the history *)
Definition emitted_as (v : FalcoAdapterCoverageInputV1) (rt rt' : AdapterRuntime) : Prop :=
  outbox_ok (rt_outbox rt')
  /\ (ob_inflight (rt_outbox rt') = ob_inflight (rt_outbox rt) /\ ob_routine (rt_outbox rt') = ob_routine (rt_outbox rt))
  /\ (rt_objects rt <= rt_objects rt')%nat
  /\ rt' = with_emitted (rt_emitted rt ++ [v]) (with_outbox (rt_outbox rt')
       (with_objects (rt_objects rt') (with_reads (rt_reads rt') rt))).

(** Every valid input is small. *)
Lemma input_fits v :
  input_ok v = true ->
  exists raw, canonical_json (JObj (coverage_input_dump v)) = Ok raw /\ 1 <= Z.of_nat (length raw) <= 4096.
Proof.
  unfold input_ok, opt_sat. intros H. breflect. unfold coverage_input_dump, coverage_input_fields. eapply model_fits.
  - assert (Hk : within 64 (kind_text (fi_kind v))).
    { destruct (fi_kind v); apply (within_ascii 64 1); by vm_compute. }
    repeat (eapply Forall2_cons_2; [bound_field|]). by apply Forall2_nil_2.
  - by vm_compute.
Qed.

(** The parts of the invariant that do not mention the history *)
Definition parts_ok (rt : AdapterRuntime) : Prop :=
  watchdog_ok (rt_watchdog rt)
  /\ rejections_ok (rt_rejection_opened_at rt) (rt_rejection_count rt) (rt_rejection_source rt)
  /\ queue_ok (rt_queue_drop_opened_at rt) (rt_queue_dropped rt) (rt_objects rt)
  /\ opt_ok clock_time (rt_delivery_failure_opened_at rt) = true.

Lemma inv_parts rt : inv rt -> parts_ok rt.
Proof. by intros []. Qed.

Lemma queue_ok_mono opened n a b : (a <= b)%nat -> queue_ok opened n a -> queue_ok opened n b.
Proof. unfold queue_ok. destruct opened; [|done]. intros Hab (Hv & Hn). split; [done|lia]. Qed.

Lemma episodes_snoc k l v : replay k (l ++ [v]) = episode_step k (replay k l) v.
Proof. unfold replay. by rewrite fold_left_app. Qed.

(** An emission from a state whose parts are right, and whose episodes follow from those
    of the invariant, gives the invariant. *)
Lemma inv_emission rt0 rt rt' v :
  inv rt0 -> rt_emitted rt = rt_emitted rt0 -> parts_ok rt -> emitted_as v rt rt' ->
  input_ok v = true -> times_ok v = true -> reason_ok v = true ->
  (forall k, is_point k = false -> episode_step k (Some (open_of rt0 k)) v = Some (open_of rt k)) ->
  inv rt'.
Proof.
  intros Hinv Hem (Hw & Hr & Hq & Hf) (Hb & _ & Ho & E) Hv Ht Hreason Hstep.
  assert (Hopen : forall k, open_of rt' k = open_of rt k) by (rewrite E; by intros []).
  constructor; [done|by rewrite E|by rewrite E| |by rewrite E| |].
  - eapply queue_ok_mono; [exact Ho|]. by rewrite E.
  - rewrite E. cbn. rewrite Hem. apply Forall_app. split; [apply Hinv|]. by repeat constructor.
  - intros k Hk. rewrite Hopen, E. cbn [rt_emitted with_emitted].
    rewrite Hem, episodes_snoc, (inv_log _ Hinv k Hk). by apply Hstep.
Qed.

Lemma episode_step_other k o v : fi_kind v <> k -> episode_step k (Some o) v = Some o.
Proof. intros H. unfold episode_step. cbn. by rewrite bool_decide_eq_false_2. Qed.

(** An input that opens or prolongs the interval of [k] *)
Lemma step_open rt0 rt k v :
  fi_kind v = k -> fi_closed_at v = None -> open_of rt k = Some (fi_opened_at v, fi_dropped_count v) ->
  present (fi_dropped_count v) = counted k ->
  match open_of rt0 k with
  | Some (s, n) => s = fi_opened_at v /\ counter_update_ok (counted k) n (fi_dropped_count v) = true
  | None => True
  end ->
  (forall k', k' <> k -> open_of rt k' = open_of rt0 k') ->
  forall k', is_point k' = false -> episode_step k' (Some (open_of rt0 k')) v = Some (open_of rt k').
Proof.
  intros Hk Hc Ho Hp Hprior Hothers k' _. destruct (decide (k' = k)) as [->|Hne].
  - unfold episode_step. cbn [mbind option_bind]. rewrite Hk, Hc, Ho, bool_decide_eq_true_2 by done. cbn [negb].
    destruct (open_of rt0 k) as [[s n]|].
    + destruct Hprior as [-> Hn]. by rewrite bool_decide_eq_true_2, Hn.
    + by rewrite bool_decide_eq_true_2.
  - rewrite episode_step_other by congruence. by rewrite Hothers.
Qed.

(** An input that closes it with its last count *)
Lemma step_close rt0 rt k v :
  fi_kind v = k -> present (fi_closed_at v) = true -> open_of rt0 k = Some (fi_opened_at v, fi_dropped_count v) ->
  present (fi_dropped_count v) = counted k -> open_of rt k = None ->
  (forall k', k' <> k -> open_of rt k' = open_of rt0 k') ->
  forall k', is_point k' = false -> episode_step k' (Some (open_of rt0 k')) v = Some (open_of rt k').
Proof.
  intros Hk Hc Ho Hp Hclosed Hothers k' _. destruct (decide (k' = k)) as [->|Hne].
  - unfold episode_step. cbn [mbind option_bind]. rewrite Hk, Ho, Hclosed, bool_decide_eq_true_2 by done. cbn [negb].
    destruct (fi_closed_at v); [|done]. rewrite bool_decide_eq_true_2 by done. cbn [andb].
    destruct (fi_dropped_count v) as [n|]; cbn in Hp; rewrite <- Hp; cbn; [by rewrite Z.leb_refl|done].
  - rewrite episode_step_other by congruence. by rewrite Hothers.
Qed.

Lemma emitted_as_watchdog v w rt rt' :
  emitted_as v rt rt' -> emitted_as v (with_watchdog w rt) (with_watchdog w rt').
Proof. intros (Hb & [Hi Hr] & Ho & E). unfold emitted_as. cbn. split_and!; try done. by rewrite E. Qed.

Lemma emitted_as_failure v o rt rt' :
  emitted_as v rt rt' -> emitted_as v (with_failure o rt) (with_failure o rt').
Proof. intros (Hb & [Hi Hr] & Ho & E). unfold emitted_as. cbn. split_and!; try done. by rewrite E. Qed.

Lemma emitted_as_queue v n o rt rt' :
  emitted_as v rt rt' -> emitted_as v (with_queue n o rt) (with_queue n o rt').
Proof. intros (Hb & [Hi Hr] & Ho & E). unfold emitted_as. cbn. split_and!; try done. by rewrite E. Qed.

Lemma emitted_as_rejection v o n h rt rt' :
  emitted_as v rt rt' -> emitted_as v (with_rejection o n h rt) (with_rejection o n h rt').
Proof. intros (Hb & [Hi Hr] & Ho & E). unfold emitted_as. cbn. split_and!; try done. by rewrite E. Qed.

(** *** Handlers keep the invariant *)

(** What the handlers leave to the worker *)
Definition frame (rt rt' : AdapterRuntime) : Prop :=
  rt_task rt' = rt_task rt /\ ob_inflight (rt_outbox rt') = ob_inflight (rt_outbox rt)
  /\ (rt_objects rt <= rt_objects rt')%nat.

#[export] Instance frame_preorder : PreOrder frame.
Proof.
  split; [by intros rt|]. intros a b c (H1 & H2 & H3) (H4 & H5 & H6).
  split_and!; [congruence|congruence|lia].
Qed.

(** [m] keeps the invariant from [rt], whether it returns or raises; [Q] holds of what it returns. *)
Definition after {A} (rt : AdapterRuntime) (m : act A) (Q : A -> Prop) : Prop :=
  inv (m rt).1 /\ frame rt (m rt).1 /\ match (m rt).2 with Ok a => Q a | Err _ => True end.

Lemma after_ret {A} rt (a : A) (Q : A -> Prop) : inv rt -> Q a -> after rt (ret a) Q.
Proof. by intros ??. Qed.

Lemma after_raise {A} rt e (Q : A -> Prop) : inv rt -> after rt (raise e) Q.
Proof. by intros ?. Qed.

Lemma after_bind {A B} rt (m : act A) (k : A -> act B) P Q :
  after rt m P -> (forall a rt', inv rt' -> P a -> after rt' (k a) Q) -> after rt (bind m k) Q.
Proof.
  unfold after, bind. intros (Hi & Hf & HP) Hk. destruct (m rt) as [rt' [a|e]]; cbn in *; [|done].
  destruct (Hk a rt' Hi HP) as (? & Hf' & ?). split_and!; try done; by etransitivity.
Qed.

Lemma after_gets {A B} rt (f : AdapterRuntime -> A) (k : A -> act B) Q :
  after rt (k (f rt)) Q -> after rt (bind (gets f) k) Q.
Proof. done. Qed.

Lemma after_conseq {A} rt (m : act A) (P Q : A -> Prop) :
  after rt m P -> (forall a, P a -> Q a) -> after rt m Q.
Proof. intros (? & ? & H) HPQ. split_and!; try done. destruct (m rt).2; auto. Qed.

(** Steps that change nothing the invariant mentions *)
Lemma inv_reads n rt : inv rt -> inv (with_reads n rt).
Proof. by intros []. Qed.

Lemma inv_delivered t rt : inv rt -> inv (with_delivered t rt).
Proof. by intros []. Qed.

Lemma inv_flags a b rt : inv rt -> inv (with_flags a b rt).
Proof. by intros []. Qed.

Lemma inv_deadline t rt : inv rt -> inv (with_deadline t rt).
Proof. by intros []. Qed.

Lemma inv_task t rt : inv rt -> inv (with_task t rt).
Proof. by intros []. Qed.

Lemma inv_watchdog_update w rt :
  inv rt -> watchdog_ok w -> wd_opened w = wd_opened (rt_watchdog rt) ->
  wd_drop_totals w = wd_drop_totals (rt_watchdog rt) -> inv (with_watchdog w rt).
Proof.
  intros [] Hw E1 E2. constructor; try done. intros k Hk.
  change (replay k (rt_emitted rt) = Some (open_of (with_watchdog w rt) k)).
  rewrite inv_log0 by done. unfold open_of. cbn [rt_watchdog with_watchdog]. by rewrite E1, E2.
Qed.

Section Handlers.
Context (strftime_Y : Z -> pystr) (now_at : nat -> Z) (monotonic_at : nat -> float)
  (settings : AdapterSettings).
Hypothesis strftime_four_digits : forall y, 1000 <= y <= 9999 -> strftime_Y y = pad 4 y.

(** The wall clock stays within the years 1000 to 9999. *)
Hypothesis clock_in_range : forall n, YEAR_1000_NS <= now_at n * 1000 <= MAX_TIMESTAMP_NS.

Lemma admit_coverage_ok v rt :
  outbox_ok (rt_outbox rt) -> input_ok v = true ->
  exists rt', admit_coverage monotonic_at v rt = (rt', Ok tt) /\ emitted_as v rt rt'.
Proof.
  intros Hb Hv. destruct (input_fits v Hv) as (raw & Hraw & Hl).
  assert (Hn : forall n e, new_item n FALCO_COVERAGE_PATH raw e = Ok (mkItem n FALCO_COVERAGE_PATH raw e)).
  { intros n e. unfold new_item. rewrite bool_decide_eq_false_2 by (intros ->; cbn in Hl; lia). cbn [orb].
    by rewrite (proj2 (Z.ltb_ge _ _)) by (unfold FALCO_MAX_BODY_BYTES; lia). }
  assert (He : exists rt0 e,
    match fi_kind v with
    | HeartbeatLease => let! t := monotonic monotonic_at in ret (Some (f_add t HEARTBEAT_TIMEOUT_SECONDS))
    | _ => ret None
    end rt = (rt0, Ok e) /\ rt0 = with_reads (rt_reads rt0) rt).
  { destruct (fi_kind v); (do 2 eexists; split; [reflexivity|by destruct rt]). }
  destruct He as (rt0 & e & He & E0). revert E0. generalize (rt_reads rt0). intros n ->.
  unfold admit_coverage, of_py, of_result. rewrite Hraw.
  unfold bind at 1. cbn [catch_with]. unfold bind at 1. rewrite He.
  unfold bind, fresh_object, gets, update. rewrite Hn. cbn [rt_outbox with_objects].
  destruct (admit_priority_ok (fi_kind v) (mkItem (rt_objects rt) FALCO_COVERAGE_PATH raw e) (rt_outbox rt))
    as (b' & Hb' & Hok & Hro & Hi); [done|done|].
  cbn [rt_outbox rt_objects with_reads]. rewrite Hb'. eexists. split; [reflexivity|].
  unfold emitted_as. cbn. split_and!; [done|done|done|lia|done].
Qed.

Local Abbreviation now := (now strftime_Y now_at).
Local Abbreviation monotonic := (monotonic monotonic_at).
Local Abbreviation or_now := (or_now strftime_Y now_at).
Local Abbreviation admit_coverage := (admit_coverage monotonic_at).
Local Abbreviation wd_open := (wd_open strftime_Y now_at monotonic_at).
Local Abbreviation wd_close := (wd_close monotonic_at).
Local Abbreviation emit_point_coverage := (emit_point_coverage strftime_Y now_at monotonic_at).

Lemma clock_now n : clock_time (timestamp strftime_Y (now_at n)) = true.
Proof.
  unfold clock_time. rewrite (timestamp_parsed strftime_Y) by done. apply Z.eqb_eq, Z.mod_mul. lia.
Qed.

Lemma after_now rt : inv rt -> after rt now (fun s => clock_time s = true).
Proof.
  intros H. split_and!; [by apply inv_reads|done|]. cbn. apply clock_now.
Qed.

Lemma after_monotonic rt : inv rt -> after rt monotonic (fun _ => True).
Proof. intros H. split_and!; [by apply inv_reads|done|done]. Qed.

Lemma or_now_some s : clock_time s = true -> or_now (Some s) = ret s.
Proof. by destruct s. Qed.

Lemma new_input_ok v : input_ok v = true -> new_input v = ret v.
Proof. intros H. unfold new_input. by rewrite H. Qed.

(** [_open] with a valid start emits the input it builds *)
Lemma wd_open_emits k reason source dropped wall rt :
  clock_time wall = true -> outbox_ok (rt_outbox rt) ->
  let start := default wall (wd_opened (rt_watchdog rt) !! k) in
  let v := mkInput k start None dropped (u reason) source in
  input_ok v = true ->
  exists rt', wd_open k reason source dropped (Some wall) rt = (rt', Ok tt)
    /\ emitted_as v (with_watchdog (with_opened (<[k := start]> (wd_opened (rt_watchdog rt))) (rt_watchdog rt)) rt) rt'.
Proof.
  intros Hwall Hb start v Hv. unfold FalcoRuntime.wd_open. rewrite or_now_some by done.
  unfold bind at 1, ret at 1, bind at 1, gets at 1.
  assert (E : match wd_opened (rt_watchdog rt) !! k with Some s => s | None => wall end = start)
    by (subst start; by destruct (_ !! k)).
  rewrite E. fold v. unfold bind at 1, update at 1. rewrite new_input_ok by done. unfold bind at 1, ret at 1.
  by apply admit_coverage_ok.
Qed.

(** The kinds the watchdog opens and closes *)
Definition watched (k : CoverageKind) : Prop :=
  k = HeartbeatGap \/ k = ConfigurationMismatch \/ k = KernelEventDrop \/ k = OutputsQueueDrop.

Lemma watched_not_point k : watched k -> is_point k = false.
Proof. by intros [->|[->|[->| ->]]]. Qed.

Lemma watched_open rt k :
  watched k -> open_of rt k = (fun s => (s, wd_drop_totals (rt_watchdog rt) !! k)) <$> wd_opened (rt_watchdog rt) !! k.
Proof. by intros [->|[->|[->| ->]]]. Qed.

Lemma input_ok_open k start dropped reason source :
  is_point k = false -> opt_sat (fun n => (1 <=? n) && (n <=? MAX_UINT64)) dropped = true ->
  clock_time start = true -> short_ascii (u reason) = true -> HEX64 source = true ->
  input_ok (mkInput k start None dropped (u reason) source) = true.
Proof.
  intros Hk Hd Hs%clock_valid Hr Hh. unfold input_ok. cbn -[short_ascii HEX64 valid_timestamp].
  by rewrite Hd, Hs, Hr, Hh, Hk.
Qed.

(** A watchdog with one more interval open, and its count *)
Lemma watchdog_ok_open w k start totals :
  watchdog_ok w -> clock_time start = true ->
  (forall k' n, totals !! k' = Some n -> 1 <= n <= MAX_UINT64) ->
  (forall k', is_Some (totals !! k') <-> counted k' = true /\ is_Some ((<[k := start]> (wd_opened w)) !! k')) ->
  watchdog_ok (with_opened (<[k := start]> (wd_opened w)) (with_totals totals w)).
Proof.
  intros [] Hs Ht Hc. constructor; cbn; [done| |done|done].
  intros k' s'. destruct (decide (k = k')) as [<-|Hk].
  - rewrite lookup_insert_eq. by intros [= <-].
  - rewrite lookup_insert_ne by done. apply ok_opened0.
Qed.

Lemma open_of_watchdog w rt k :
  open_of (with_watchdog w rt) k
  = match k with
    | HeartbeatGap | ConfigurationMismatch | KernelEventDrop | OutputsQueueDrop =>
        (fun s => (s, wd_drop_totals w !! k)) <$> wd_opened w !! k
    | _ => open_of rt k
    end.
Proof. by destruct k. Qed.

Lemma emitted_frame v rt rt' : emitted_as v rt rt' -> frame rt rt'.
Proof. intros (_ & (Hi & _) & Ho & E). split_and!; [by rewrite E|done|done]. Qed.

(** Opening or prolonging an interval of the watchdog, once the new total of the kind is set *)
Lemma wd_open_keeps rt k reason source wall totals :
  inv rt -> watched k -> clock_time wall = true ->
  (exists reasons, falco_open_reasons (kind_text k) = Some reasons /\ u reason ∈ reasons) ->
  short_ascii (u reason) = true -> HEX64 source = true ->
  (forall k', k' <> k -> totals !! k' = wd_drop_totals (rt_watchdog rt) !! k') ->
  present (totals !! k) = counted k ->
  opt_sat (fun n => (1 <=? n) && (n <=? MAX_UINT64)) (totals !! k) = true ->
  (is_Some (wd_opened (rt_watchdog rt) !! k) ->
   counter_update_ok (counted k) (wd_drop_totals (rt_watchdog rt) !! k) (totals !! k) = true) ->
  let rt1 := with_watchdog (with_totals totals (rt_watchdog rt)) rt in
  exists rt', wd_open k reason source (totals !! k) (Some wall) rt1 = (rt', Ok tt) /\ inv rt' /\ frame rt rt'.
Proof.
  intros Hinv Hk Hwall (reasons & Hreasons & Hin) Hr Hs Hothers Hpres Hrange Hupdate rt1.
  set (start := default wall (wd_opened (rt_watchdog rt) !! k)).
  pose proof (inv_watchdog _ Hinv) as Hw. pose proof (watched_not_point k Hk) as Hnp.
  assert (Hstart : clock_time start = true).
  { unfold start. destruct (wd_opened _ !! k) eqn:E; [|done]. by eapply ok_opened. }
  assert (Hpoint : falco_point (kind_text k) = None) by (destruct Hk as [->|[->|[->| ->]]]; by vm_compute).
  set (v := mkInput k start None (totals !! k) (u reason) source).
  assert (Hv : input_ok v = true) by (by apply input_ok_open).
  destruct (wd_open_emits k reason source (totals !! k) wall rt1) as (rt' & Hrun & Hem); [done|apply Hinv|done|].
  exists rt'. split; [done|]. split; [|exact (emitted_frame _ _ _ Hem)].
  eapply (inv_emission rt); [done| | |exact Hem|done| | |]; [done| |by apply andb_true_iff|  |].
  - split_and!; [|apply Hinv|apply Hinv|apply Hinv].
    apply (watchdog_ok_open (rt_watchdog rt) k start totals); [done|done| |].
    + intros k' n Hn. destruct (decide (k' = k)) as [->|Hne].
      * rewrite Hn in Hrange. cbn in Hrange. breflect. lia.
      * rewrite Hothers in Hn by done. by eapply ok_totals.
    + intros k'. destruct (decide (k' = k)) as [->|Hne].
      * rewrite lookup_insert_eq. destruct (totals !! k); cbn in Hpres; rewrite <- Hpres.
        { split; intros _; [split; [done|]|]; by eexists. }
        split; [by intros [? [=]]|by intros [[=] _]].
      * rewrite Hothers, lookup_insert_ne by done. by apply ok_counted.
  - unfold reason_ok. cbn [fi_kind fi_dropped_count fi_closed_at fi_reason v]. rewrite Hpoint, Hreasons, Hpres.
    by rewrite !bool_decide_eq_true_2.
  - eapply (step_open _ _ k); [done|done| |done| |].
    + rewrite watched_open by done. cbn [rt_watchdog with_watchdog wd_opened wd_drop_totals with_opened with_totals rt1].
      by rewrite lookup_insert_eq.
    + rewrite watched_open by done. cbn [fi_opened_at fi_dropped_count v]. unfold start.
      destruct (wd_opened (rt_watchdog rt) !! k) as [s|] eqn:Es; [|done]. cbn. rewrite ?Es.
      split; [done|]. by apply Hupdate.
    + intros k' Hne. unfold rt1. rewrite open_of_watchdog.
      destruct k'; try done; cbn [wd_opened wd_drop_totals with_opened with_totals rt_watchdog with_watchdog];
      by rewrite Hothers, lookup_insert_ne.
Qed.

Lemma after_exact {A} rt rt' (m : act A) a (Q : A -> Prop) :
  m rt = (rt', Ok a) -> inv rt' -> frame rt rt' -> Q a -> after rt m Q.
Proof. intros E ???. unfold after. by rewrite E. Qed.

(** Opening or prolonging a gap or a mismatch *)
Lemma after_wd_open k reason source wall rt :
  inv rt -> k = HeartbeatGap \/ k = ConfigurationMismatch -> clock_time wall = true ->
  (exists reasons, falco_open_reasons (kind_text k) = Some reasons /\ u reason ∈ reasons) ->
  short_ascii (u reason) = true -> HEX64 source = true ->
  after rt (wd_open k reason source None (Some wall)) (fun _ => True).
Proof.
  intros Hinv Hk Hwall Hreasons Hr Hs.
  assert (Hcount : counted k = false) by (destruct Hk as [-> | ->]; by vm_compute).
  assert (Htot : wd_drop_totals (rt_watchdog rt) !! k = None).
  { apply eq_None_not_Some. rewrite (ok_counted _ (inv_watchdog _ Hinv)), Hcount. by intros []. }
  destruct (wd_open_keeps rt k reason source wall (wd_drop_totals (rt_watchdog rt))) as (rt' & Hrun & Hinv' & Hf);
    try done; try (by rewrite Htot, ?Hcount).
  - unfold watched. tauto.
  - rewrite Htot in Hrun. eapply after_exact; [|done|done|done]. rewrite <- Hrun. f_equal. by destruct rt as [? []].
Qed.

(** Closing an interval of the watchdog *)
Lemma after_wd_close k source closed rt :
  inv rt -> watched k -> HEX64 source = true -> clock_time closed = true ->
  after rt (wd_close k source closed) (fun _ => True).
Proof.
  intros Hinv Hk Hs Hclosed. pose proof (inv_watchdog _ Hinv) as Hw. pose proof (watched_not_point k Hk) as Hnp.
  unfold FalcoRuntime.wd_close. apply after_gets.
  destruct (wd_opened (rt_watchdog rt) !! k) as [opened|] eqn:Eo; [|by apply after_ret].
  set (v := mkInput k opened (Some closed) (wd_drop_totals (rt_watchdog rt) !! k) (u "recovered") source).
  destruct (input_ok v) eqn:Hv; [rewrite new_input_ok by done|unfold new_input; rewrite Hv; by apply after_raise].
  destruct (admit_coverage_ok v rt) as (rt' & Hrun & Hem); [apply Hinv|done|].
  set (w' := with_totals (delete k (wd_drop_totals (rt_watchdog rt)))
               (with_opened (delete k (wd_opened (rt_watchdog rt))) (rt_watchdog rt))).
  assert (Ew : rt_watchdog rt' = rt_watchdog rt) by (destruct Hem as (_ & _ & _ & ->); done).
  eapply (after_exact _ (with_watchdog w' rt')); [|  |exact (emitted_frame _ _ _ Hem)|done].
  { unfold bind, ret, gets, update. rewrite Hrun. by rewrite Ew. }
  apply (emitted_as_watchdog v w') in Hem.
  assert (Hpres : present (wd_drop_totals (rt_watchdog rt) !! k) = counted k).
  { pose proof (ok_counted _ Hw k) as Hc. rewrite Eo in Hc. destruct (wd_drop_totals _ !! k), (counted k); try done.
    - by destruct (proj1 Hc (ltac:(eauto))).
    - by destruct (proj2 Hc) as [? [=]]. }
  eapply (inv_emission rt); [done| | |exact Hem|done| | |]; [done| |by apply andb_true_iff; split; [by eapply ok_opened|]| |].
  - split_and!; [|apply Hinv|apply Hinv|apply Hinv]. destruct Hw. constructor; cbn; [done| | |].
    + intros k' s' [_ ?]%lookup_delete_Some. by eapply ok_opened0.
    + intros k' n [_ ?]%lookup_delete_Some. by eapply ok_totals0.
    + intros k'. destruct (decide (k = k')) as [<-|Hne].
      * rewrite !lookup_delete_eq. split; [by intros [? [=]]|by intros [_ [? [=]]]].
      * by rewrite !lookup_delete_ne.
  - unfold reason_ok. cbn [fi_kind fi_dropped_count fi_closed_at fi_reason v]. rewrite Hpres.
    rewrite bool_decide_eq_true_2 by done. destruct Hk as [->|[->|[->| ->]]]; by vm_compute.
  - eapply (step_close _ _ k); [done|done| |done| |].
    + rewrite watched_open by done. by rewrite Eo.
    + rewrite watched_open by done. cbn [rt_watchdog with_watchdog wd_opened with_opened with_totals w'].
      by rewrite lookup_delete_eq.
    + intros k' Hne. rewrite open_of_watchdog.
      destruct k'; try done; cbn [wd_opened wd_drop_totals with_opened with_totals rt_watchdog with_watchdog w'];
      by rewrite !lookup_delete_ne.
Qed.

(** A counter that did not go back: the interval closes, or opens or grows by the difference *)
Lemma after_record_drop_delta k reason source delta received rt :
  inv rt -> k = KernelEventDrop \/ k = OutputsQueueDrop -> 0 <= delta ->
  (exists reasons, falco_open_reasons (kind_text k) = Some reasons /\ u reason ∈ reasons) ->
  short_ascii (u reason) = true -> HEX64 source = true -> clock_time received = true ->
  after rt (record_drop_delta strftime_Y now_at monotonic_at k reason source delta received) (fun _ => True).
Proof.
  intros Hinv Hk Hd Hreasons Hr Hs Hrec. pose proof (inv_watchdog _ Hinv) as Hw.
  assert (Hwatched : watched k) by (unfold watched; tauto).
  unfold record_drop_delta. destruct (Z.eqb_spec delta 0) as [->|Hne]; [by apply after_wd_close|].
  apply after_gets. set (prior := default 0 (wd_drop_totals (rt_watchdog rt) !! k)).
  assert (Hprior : 0 <= prior <= MAX_UINT64).
  { unfold prior. destruct (wd_drop_totals _ !! k) eqn:E; [|by cbn]. apply (ok_totals _ Hw) in E. cbn. lia. }
  set (n := Z.min MAX_UINT64 (prior + delta)). set (totals := <[k := n]> (wd_drop_totals (rt_watchdog rt))).
  assert (Hcount : counted k = true) by (destruct Hk as [-> | ->]; by vm_compute).
  assert (Et : totals !! k = Some n) by (apply lookup_insert_eq).
  destruct (wd_open_keeps rt k reason source (wd_last_wall (rt_watchdog rt)) totals) as (rt' & Hrun & Hinv' & Hf);
    try done.
  - apply Hw.
  - intros k' Hk'. by apply lookup_insert_ne.
  - by rewrite Et, Hcount.
  - rewrite Et. cbn [opt_sat]. apply andb_true_iff. unfold n, MAX_UINT64 in *. split; apply Z.leb_le; lia.
  - intros Hopen. destruct (proj2 (ok_counted _ Hw k) (conj Hcount Hopen)) as [m Hm].
    rewrite Hcount, Et, Hm. cbn [counter_update_ok]. unfold n, prior. rewrite Hm. cbn [default from_option].
    apply (ok_totals _ Hw) in Hm. apply orb_true_iff. rewrite Z.ltb_lt, andb_true_iff, !Z.eqb_eq. cbn. lia.
  - rewrite Et in Hrun. by eapply after_exact.
Qed.

Lemma after_update {A} rt f (k : act A) Q :
  frame rt (f rt) -> after (f rt) k Q -> after rt (update f ;;! k) Q.
Proof.
  intros Hf (Hi & Hf' & HQ). unfold after, bind, update. split_and!; [done|by etransitivity|done].
Qed.

Lemma after_seq {A B} rt (m : act A) (k : act B) Q :
  after rt m (fun _ => True) -> (forall rt', inv rt' -> after rt' k Q) -> after rt (m ;;! k) Q.
Proof. intros Hm Hk. eapply after_bind; [exact Hm|]. intros _ rt' Hi _. by apply Hk. Qed.

Lemma after_assoc {A B C} rt (m : act A) (k : A -> act B) (k' : B -> act C) Q :
  after rt (bind (bind m k) k') Q -> after rt (bind m (fun a => bind (k a) k')) Q.
Proof. unfold after, bind. by destruct (m rt) as [? []]. Qed.

(** The points: start, stop and lease *)
Lemma after_point k at_ reason source rt :
  inv rt -> is_point k = true -> clock_time at_ = true -> short_ascii (u reason) = true -> HEX64 source = true ->
  (exists sev act, falco_point (kind_text k) = Some (sev, u reason, act)) ->
  after rt (let! v := new_input (mkInput k at_ (Some at_) None (u reason) source) in admit_coverage v) (fun _ => True).
Proof.
  intros Hinv Hk Hat Hr Hs (sev & a & Hp). set (v := mkInput k at_ (Some at_) None (u reason) source).
  assert (Hv : input_ok v = true).
  { unfold input_ok. cbn -[short_ascii HEX64 valid_timestamp]. rewrite (clock_valid _ Hat), Hr, Hs, Hk, Z.leb_refl.
    cbn [andb negb orb].
    by rewrite !bool_decide_eq_true_2. }
  rewrite new_input_ok by done. destruct (admit_coverage_ok v rt) as (rt' & Hrun & Hem); [apply Hinv|done|].
  eapply after_exact; [exact Hrun| |exact (emitted_frame _ _ _ Hem)|done].
  eapply (inv_emission rt); [done|done|by apply inv_parts|exact Hem|done|by apply andb_true_iff| |].
  - unfold reason_ok. cbn [fi_kind fi_reason v]. rewrite Hp. by rewrite bool_decide_eq_true_2.
  - intros k' Hk'. apply episode_step_other. cbn. intros <-. congruence.
Qed.

Lemma heartbeat_source h : heartbeat_ok h = true -> HEX64 (hb_raw_sha256 h) = true.
Proof. unfold heartbeat_ok. intros H. by breflect. Qed.

Definition MISMATCH_REASONS : list string :=
  ["falco_version_mismatch"; "falco_engine_mismatch"; "falco_config_hash_mismatch";
   "falco_rules_hash_mismatch"; "falco_counter_rollback"].

Lemma identity_mismatch_reason h reason : identity_mismatch settings h = Some reason -> reason ∈ MISMATCH_REASONS.
Proof.
  unfold identity_mismatch. intros H. apply (bool_decide_eq_true_1 _).
  repeat match type of H with (if ?b then _ else _) = _ => destruct b; [injection H as <-; done|] end. done.
Qed.

Lemma after_refuse reason source rt :
  inv rt -> reason ∈ MISMATCH_REASONS -> HEX64 source = true ->
  after rt (refuse strftime_Y now_at monotonic_at reason source) (fun _ => True).
Proof.
  intros Hinv Hin Hs. unfold refuse. apply after_gets. apply after_seq; [|intros rt' Hi; by apply after_ret].
  assert (Hb : forallb (fun r => bool_decide (u r ∈ default [] (falco_open_reasons (kind_text ConfigurationMismatch)))
                                 && short_ascii (u r)) MISMATCH_REASONS = true) by (by vm_compute).
  rewrite forallb_forall in Hb. apply list_elem_of_In, Hb in Hin. breflect.
  apply after_wd_open; [done|by right|apply Hinv| |done|done]. by eexists.
Qed.

Lemma after_record_counter_changes p c source received rt :
  inv rt -> rolled_back c p = false -> HEX64 source = true -> clock_time received = true ->
  after rt (record_counter_changes strftime_Y now_at monotonic_at p c source received) (fun _ => True).
Proof.
  intros Hinv Hc Hs Hrec. unfold rolled_back in Hc. apply orb_false_iff in Hc as [H1%Z.ltb_ge H2%Z.ltb_ge].
  unfold record_counter_changes. apply after_seq.
  - apply after_record_drop_delta; [done|by left|lia| |by vm_compute|done|done].
    eexists. split; [by vm_compute|]. by left.
  - intros rt' Hi. apply after_record_drop_delta; [done|by right|lia| |by vm_compute|done|done].
    eexists. split; [by vm_compute|]. by left.
Qed.

Lemma after_renew previous current h wall t rt :
  inv rt -> (forall p, previous = Some p -> rolled_back current p = false) -> heartbeat_ok h = true ->
  clock_time wall = true ->
  after rt (renew strftime_Y now_at monotonic_at previous current h wall t) (fun _ => True).
Proof.
  intros Hinv Hp Hh%heartbeat_source Hw. unfold renew. apply after_seq.
  { destruct previous as [p|]; [|by apply after_ret]. apply after_record_counter_changes; [done|by apply Hp|done|done]. }
  clear rt Hinv. intros rt Hinv. apply after_seq; [apply after_wd_close; [done|by left|done|done]|].
  clear rt Hinv. intros rt Hinv. apply after_seq; [apply after_wd_close; [done|by right; left|done|done]|].
  clear rt Hinv. intros rt Hinv.
  apply after_assoc. apply after_seq; [apply after_point; try done; do 2 eexists; by vm_compute|].
  clear rt Hinv. intros rt Hinv. apply after_update; [done|]. apply after_ret; [|done].
  apply inv_watchdog_update; [done| |done|done]. destruct (inv_watchdog _ Hinv). by constructor.
Qed.

Lemma after_observe h wall t rt :
  inv rt -> heartbeat_ok h = true -> clock_time wall = true ->
  after rt (observe strftime_Y now_at monotonic_at settings h wall t) (fun _ => True).
Proof.
  intros Hinv Hh Hwall. unfold observe. pose proof (heartbeat_source h Hh) as Hs.
  assert (Hrb : "falco_counter_rollback"%string ∈ MISMATCH_REASONS) by (apply (bool_decide_eq_true_1 _); by vm_compute).
  assert (Hpending : forall p, inv (with_watchdog (with_pending p (rt_watchdog rt)) rt)).
  { intros p. apply inv_watchdog_update; [done| |done|done]. by destruct (inv_watchdog _ Hinv). }
  destruct (identity_mismatch settings h) as [reason|] eqn:E.
  { apply after_refuse; [done|by eapply identity_mismatch_reason|done]. }
  apply after_gets. destruct (wd_pending_rebase _) as [pending|].
  - destruct (rolled_back _ pending) eqn:Er.
    + apply after_update; [done|]. by apply after_refuse.
    + apply after_update; [done|]. apply after_renew; try done. by intros p [= <-].
  - destruct (wd_last_counters _) as [previous|].
    + destruct (rolled_back _ previous) eqn:Er.
      * apply after_update; [done|]. by apply after_refuse.
      * apply after_renew; try done. by intros p [= <-].
    + by apply after_renew.
Qed.

Lemma after_check rt : inv rt -> after rt (wd_check strftime_Y now_at monotonic_at) (fun _ => True).
Proof.
  intros Hinv. unfold wd_check. eapply after_bind; [by apply after_monotonic|]. intros t rt' Hi _.
  apply after_gets. destruct (f_leb _ _); [by apply after_ret|].
  apply after_wd_open; [done|by left|apply Hi| |by vm_compute|apply sha256_hex_is_hex].
  eexists. split; [by vm_compute|]. apply (bool_decide_eq_true_1 _). by vm_compute.
Qed.

(** *** The runtime's own intervals *)

(** Emitting an opening with a valid input *)
Lemma emit_runs rt k reason source n opened :
  let v := mkInput k opened None n (u reason) source in
  outbox_ok (rt_outbox rt) -> input_ok v = true -> clock_time opened = true ->
  exists rt', emit_point_coverage k reason source n (Some opened) None rt = (rt', Ok tt) /\ emitted_as v rt rt'.
Proof.
  intros v Hb Hv Ho. unfold FalcoRuntime.emit_point_coverage. rewrite or_now_some by done.
  unfold bind at 1, ret at 1. rewrite new_input_ok by done. by apply admit_coverage_ok.
Qed.

(** Emitting it from a state that already shows the interval *)
Lemma after_emit_open rt0 rt k reason source n opened :
  let v := mkInput k opened None n (u reason) source in
  inv rt0 -> rt_emitted rt = rt_emitted rt0 -> outbox_ok (rt_outbox rt) -> parts_ok rt -> input_ok v = true ->
  clock_time opened = true -> reason_ok v = true ->
  (forall k', is_point k' = false -> episode_step k' (Some (open_of rt0 k')) v = Some (open_of rt k')) ->
  after rt (emit_point_coverage k reason source n (Some opened) None) (fun _ => True).
Proof.
  intros v Hinv He Hb Hparts Hv Ho Hr Hstep. destruct (emit_runs rt k reason source n opened) as (rt' & Hrun & Hem); try done.
  eapply after_exact; [exact Hrun| |exact (emitted_frame _ _ _ Hem)|done].
  eapply inv_emission; try done. by apply andb_true_iff.
Qed.

(** Emitting a closing and then forgetting the interval *)
Lemma after_emit_close f rt k reason source n opened closed :
  let v := mkInput k opened (Some closed) n (u reason) source in
  inv rt -> clock_time opened = true -> clock_time closed = true -> reason_ok v = true ->
  (forall v rt', emitted_as v rt rt' -> emitted_as v (f rt) (f rt')) ->
  rt_emitted (f rt) = rt_emitted rt -> frame rt (f rt) -> parts_ok (f rt) ->
  (forall k', is_point k' = false -> episode_step k' (Some (open_of rt k')) v = Some (open_of (f rt) k')) ->
  after rt (emit_point_coverage k reason source n (Some opened) (Some closed) ;;! update f) (fun _ => True).
Proof.
  intros v Hinv Ho Hc Hr Hf He Hframe Hparts Hstep. unfold FalcoRuntime.emit_point_coverage. rewrite or_now_some by done.
  destruct (input_ok v) eqn:Hv.
  - destruct (admit_coverage_ok v rt) as (rt' & Hrun & Hem); [apply Hinv|done|]. apply Hf in Hem.
    eapply (after_exact _ (f rt')); [| |etransitivity; [exact Hframe|exact (emitted_frame _ _ _ Hem)]|done].
    + unfold bind at 1, bind at 1, ret at 1, bind at 1. fold v.
      rewrite new_input_ok by done. unfold ret at 1. by rewrite Hrun.
    + eapply inv_emission; try done. by apply andb_true_iff.
  - unfold after, bind, ret, new_input. fold v. by rewrite Hv.
Qed.

Lemma after_flat {A B C} rt (m : act A) (k : A -> act B) (k' : B -> act C) Q :
  after rt (bind m (fun a => bind (k a) k')) Q -> after rt (bind (bind m k) k') Q.
Proof. unfold after, bind. by destruct (m rt) as [? []]. Qed.

(** A reading of the wall clock changes nothing else. *)
Lemma after_now_then {A} (k : pystr -> act A) rt Q :
  (forall t n, clock_time t = true -> after (with_reads n rt) (k t) Q) -> after rt (bind now k) Q.
Proof.
  intros Hk. unfold after, bind, FalcoRuntime.now. apply Hk. apply clock_now.
Qed.

Lemma after_monotonic_then {A} (k : float -> act A) rt Q :
  (forall t n, after (with_reads n rt) (k t) Q) -> after rt (bind monotonic k) Q.
Proof. intros Hk. unfold after, bind, FalcoRuntime.monotonic. apply Hk. Qed.

Lemma valid_hash raw : HEX64 (sha256_hex raw) = true.
Proof. apply sha256_hex_is_hex. Qed.

Lemma after_reject_body received raw_hash rt :
  inv rt -> clock_time received = true -> HEX64 raw_hash = true ->
  after rt (reject_body strftime_Y now_at monotonic_at received raw_hash) (fun _ => True).
Proof.
  intros Hinv Hr Hh. unfold reject_body. apply after_update; [done|]. apply after_gets, after_gets.
  cbn [rt_rejection_count rt_rejection_opened_at with_rejection]. pose proof (inv_rejection _ Hinv) as Hrej.
  set (opened := match rt_rejection_opened_at rt with Some s => s | None => received end).
  set (n := Z.min MAX_UINT64 (rt_rejection_count rt + 1)).
  assert (Hn : clock_time opened = true /\ 1 <= n <= MAX_UINT64).
  { unfold rejections_ok, opened, n, MAX_UINT64 in *. destruct (rt_rejection_opened_at rt).
    - destruct Hrej as (? & ? & _). split; [done|lia].
    - rewrite Hrej. split; [done|lia]. }
  destruct Hn as [Ho Hn].
  eapply (after_emit_open rt); [done|done|apply Hinv| | |done| |].
  - split_and!; [apply Hinv| |apply Hinv|apply Hinv]. cbn. split_and!; [done|lia|lia|by eexists].
  - apply input_ok_open; [done| |done|by vm_compute|done]. cbn. apply andb_true_iff. split; apply Z.leb_le; lia.
  - by vm_compute.
  - eapply (step_open _ _ ParseRejection); [done|done|done|by vm_compute| |by intros []].
    cbn. unfold opened, n. destruct (rt_rejection_opened_at rt); [|done]. destruct Hrej as (_ & Hc & _).
    cbn. split; [done|]. apply orb_true_iff. rewrite Z.ltb_lt, andb_true_iff, !Z.eqb_eq. unfold MAX_UINT64 in *. lia.
Qed.

Lemma after_recover_rejections received rt :
  inv rt -> clock_time received = true ->
  after rt (recover_rejections strftime_Y now_at monotonic_at received) (fun _ => True).
Proof.
  intros Hinv Hrec. unfold recover_rejections. apply after_gets, after_gets. pose proof (inv_rejection _ Hinv) as Hrej.
  destruct (rt_rejection_opened_at rt) as [opened|] eqn:Eo; [|by apply after_ret].
  destruct Hrej as (Ho & Hn & h & Es & Hh). rewrite Es. apply after_gets.
  apply after_emit_close; [done|done|done|by vm_compute|intros ??; apply emitted_as_rejection|done|done| |].
  - split_and!; [apply Hinv|done|apply Hinv|apply Hinv].
  - eapply (step_close _ _ ParseRejection); [done|done|cbn; by rewrite Eo|by vm_compute|done|by intros []].
Qed.

Lemma after_delivery_failed item rt :
  inv rt -> after rt (delivery_failed strftime_Y now_at monotonic_at item) (fun _ => True).
Proof.
  intros Hinv. unfold delivery_failed. apply after_gets.
  assert (Hgo : forall opened rt0 rt, inv rt0 -> clock_time opened = true -> rt = with_failure (Some opened) rt0 ->
    match rt_delivery_failure_opened_at rt0 with Some s => s = opened | None => True end ->
    after rt (let! opened := gets rt_delivery_failure_opened_at in
      emit_point_coverage DeliveryFailure "observer_delivery_failed" (sha256_hex (di_body item)) None opened None)
      (fun _ => True)).
  { intros opened rt0 rt1 Hi Ho -> Hprior. apply after_gets. cbn [rt_delivery_failure_opened_at with_failure].
    eapply (after_emit_open rt0); [done|done|apply Hi| | |done| |].
    - split_and!; try apply Hi. done.
    - apply input_ok_open; try done. apply valid_hash.
    - by vm_compute.
    - eapply (step_open _ _ DeliveryFailure); [done|done|done|by vm_compute| |by intros []].
      cbn [open_of]. destruct (rt_delivery_failure_opened_at rt0); [|done]. cbn. by split. }
  destruct (rt_delivery_failure_opened_at rt) as [opened|] eqn:Eo.
  - unfold bind at 1, ret at 1. eapply (Hgo opened rt); [done| | |by rewrite Eo].
    + pose proof (inv_failure _ Hinv) as Hf. by rewrite Eo in Hf.
    + destruct rt. cbn in *. by subst.
  - apply after_flat, after_now_then. intros t n Ht. apply after_update; [done|].
    apply (Hgo t (with_reads n rt)); [by apply inv_reads|done|done|]. cbn. by rewrite Eo.
Qed.

(** The two intervals a delivery may close *)
Lemma after_close_failure source closed rt :
  inv rt -> clock_time closed = true ->
  after rt (match rt_delivery_failure_opened_at rt with
    | Some s => emit_point_coverage DeliveryFailure "observer_delivery_recovered" source None (Some s) (Some closed) ;;!
                update (with_failure None)
    | None => ret tt
    end) (fun _ => True).
Proof.
  intros Hinv Hc. destruct (rt_delivery_failure_opened_at rt) as [opened|] eqn:Eo; [|by apply after_ret].
  pose proof (inv_failure _ Hinv) as Hf. rewrite Eo in Hf.
  apply after_emit_close; [done|done|done|by vm_compute|intros ??; apply emitted_as_failure|done|done| |].
  - split_and!; [apply Hinv|apply Hinv|apply Hinv|done].
  - eapply (step_close _ _ DeliveryFailure); [done|done|cbn; by rewrite Eo|by vm_compute|done|by intros []].
Qed.

Lemma after_close_queue source closed rt :
  inv rt -> clock_time closed = true ->
  after rt (match rt_queue_drop_opened_at rt with
    | Some s =>
        if bool_decide (length (ob_routine (rt_outbox rt)) < ROUTINE_CAPACITY)%nat then
          let! n := gets rt_queue_dropped in
          emit_point_coverage QueueDrop "routine_queue_recovered" source (Some n) (Some s) (Some closed) ;;!
          update (with_queue 0 None)
        else ret tt
    | None => ret tt
    end) (fun _ => True).
Proof.
  intros Hinv Hc. destruct (rt_queue_drop_opened_at rt) as [opened|] eqn:Eo; [|by apply after_ret].
  destruct (bool_decide _); [|by apply after_ret]. pose proof (inv_queue _ Hinv) as Hq. rewrite Eo in Hq.
  destruct Hq as [Ho Hn]. apply after_gets.
  apply after_emit_close; [done|done|done|by vm_compute|intros ??; apply emitted_as_queue|done|done| |].
  - split_and!; [apply Hinv|apply Hinv|done|apply Hinv].
  - eapply (step_close _ _ QueueDrop); [done|done|cbn; by rewrite Eo|by vm_compute|done|by intros []].
Qed.

Lemma after_delivery_recovered item rt :
  inv rt -> after rt (delivery_recovered strftime_Y now_at monotonic_at item) (fun _ => True).
Proof.
  intros Hinv. unfold delivery_recovered. eapply after_bind; [by apply after_now|]. clear rt Hinv. intros closed rt Hinv Hc.
  apply after_gets, after_seq.
  { pose proof (after_close_failure (sha256_hex (di_body item)) closed rt Hinv Hc) as H.
    by destruct (rt_delivery_failure_opened_at rt). }
  clear rt Hinv. intros rt Hinv. apply after_seq.
  { destruct (di_expires item); [|by apply after_ret]. eapply after_bind; [by apply after_monotonic|].
    intros t rt' Hi _. split_and!; [by apply inv_delivered|done|done]. }
  clear rt Hinv. intros rt Hinv. apply after_gets, after_gets.
  pose proof (after_close_queue (sha256_hex (di_body item)) closed rt Hinv Hc) as H.
  by destruct (rt_queue_drop_opened_at rt).
Qed.

(** *** Bodies *)

Lemma after_result {A B} rt (r : result adapter_exn A) (k : A -> act B) Q :
  inv rt -> (forall a, r = Ok a -> after rt (k a) Q) -> after rt (bind (of_result r) k) Q.
Proof. intros Hi Hk. destruct r; [by apply Hk|]. by split_and!. Qed.

Lemma after_fresh {A} rt (k : nat -> act A) Q :
  after (with_objects (S (rt_objects rt)) rt) (k (rt_objects rt)) Q -> after rt (bind fresh_object k) Q.
Proof.
  intros (Hi & (H1 & H2 & H3) & HQ). unfold after, bind, fresh_object. split; [exact Hi|]. split; [|exact HQ].
  split_and!; [done|done|]. cbn [rt_objects with_objects] in H3. lia.
Qed.

Lemma inv_objects n rt : inv rt -> (rt_objects rt <= n)%nat -> inv (with_objects n rt).
Proof. intros [] Hn. constructor; try done. by eapply queue_ok_mono. Qed.

Lemma inv_outbox_update b rt : inv rt -> outbox_ok b -> inv (with_outbox b rt).
Proof. by intros [] ?. Qed.

Lemma admit_routine_ok item b b' dropped :
  outbox_ok b -> item_ok item -> admit_routine item b = (b', dropped) ->
  outbox_ok b' /\ ob_inflight b' = ob_inflight b /\ (dropped = 0 \/ dropped = 1).
Proof.
  intros [[Hi Hj] Hk Hn Hl] Hitem. unfold admit_routine, ROUTINE_CAPACITY in *. case_bool_decide as E; intros [= <- <-].
  - split; [|auto]. constructor; cbn; [|done|done|].
    { split; [|done]. apply Forall_app. split; [|by apply Forall_singleton]. by destruct Hi. }
    rewrite length_app. unfold ROUTINE_CAPACITY. destruct (ob_routine b); cbn in *; lia.
  - split; [|auto]. constructor; cbn; [|done|done|].
    { split; [|done]. apply Forall_app. split; [done|by apply Forall_singleton]. }
    rewrite length_app. cbn. unfold ROUTINE_CAPACITY. lia.
Qed.

Lemma new_item_ok object body item : new_item object FALCO_EVENT_PATH body None = Ok item -> item_ok item.
Proof.
  unfold new_item. intros H. apply rbind_ok in H as (? & Hg & [= <-]). apply guard_ok in Hg.
  unfold item_ok. cbn. breflect. destruct body; [done|]. split; [cbn [length]; lia|done].
Qed.

(** The interval of dropped events, opened or grown by one *)
Lemma after_emit_drop raw_hash rt opened rt1 n :
  inv rt -> HEX64 raw_hash = true -> clock_time opened = true ->
  1 <= rt_queue_dropped rt + 1 <= Z.of_nat (rt_objects rt) -> Z.of_nat (rt_objects rt) < 2 ^ 63 ->
  match rt_queue_drop_opened_at rt with Some s => s = opened | None => True end ->
  rt1 = with_reads n (with_queue (rt_queue_dropped rt + 1) (Some opened) rt) ->
  after rt1 (emit_point_coverage QueueDrop "routine_capacity_exceeded" raw_hash
    (Some (rt_queue_dropped rt + 1)) (Some opened) None) (fun _ => True).
Proof.
  intros Hinv Hh Ho Hn Hmax Hprior ->. eapply (after_emit_open rt); [done|done|apply Hinv| | |done| |].
  - split_and!; [apply Hinv|apply Hinv| |apply Hinv]. cbn. split; [done|lia].
  - apply input_ok_open; [done| |done|by vm_compute|done]. cbn. apply andb_true_iff. unfold MAX_UINT64.
    split; apply Z.leb_le; lia.
  - by vm_compute.
  - eapply (step_open _ _ QueueDrop); [done|done|done|by vm_compute| |by intros []].
    cbn [open_of]. destruct (rt_queue_drop_opened_at rt); [|done]. cbn. split; [done|].
    apply orb_true_iff. left. apply Z.ltb_lt. lia.
Qed.

Lemma after_admit_event c raw_hash rt :
  inv rt -> HEX64 raw_hash = true -> Z.of_nat (rt_objects rt) < 2 ^ 63 - 1 ->
  after rt (admit_event strftime_Y now_at monotonic_at c raw_hash) (fun _ => True).
Proof.
  intros Hinv Hh Hmax. unfold admit_event, of_py. apply after_result; [done|]. intros body _. apply after_fresh.
  set (rt1 := with_objects (S (rt_objects rt)) rt). assert (Hi1 : inv rt1) by (apply inv_objects; [done|lia]).
  apply after_result; [done|]. intros item Hitem%new_item_ok. apply after_gets.
  destruct (admit_routine item (rt_outbox rt1)) as [b dropped] eqn:E.
  apply admit_routine_ok in E as (Hb & Hin & Hd); [|apply Hi1|done].
  apply after_update; [split_and!; [done|exact Hin|done]|].
  assert (Hi2 : inv (with_outbox b rt1)) by (by apply inv_outbox_update).
  destruct Hd as [-> | ->]; [by apply after_ret|]. cbn [Z.eqb]. apply after_update; [done|]. apply after_gets.
  cbn [rt_queue_dropped rt_queue_drop_opened_at with_queue].
  assert (Hn : 1 <= rt_queue_dropped rt + 1 <= Z.of_nat (S (rt_objects rt))).
  { pose proof (inv_queue _ Hinv) as Hq. destruct (rt_queue_drop_opened_at rt); cbn in Hq; lia. }
  assert (Hq : match rt_queue_drop_opened_at rt with Some s => clock_time s = true | None => True end).
  { pose proof (inv_queue _ Hinv) as Hq. destruct (rt_queue_drop_opened_at rt); [apply Hq|done]. }
  pose proof (fun opened rt' n => after_emit_drop raw_hash (with_outbox b rt1) opened rt' n Hi2 Hh) as Hgo.
  cbn [rt_queue_dropped rt_queue_drop_opened_at rt_objects with_outbox with_objects rt1] in *.
  destruct (rt_queue_drop_opened_at rt) as [s|] eqn:Eo.
  - unfold bind at 1, ret at 1. apply after_gets, after_gets. eapply (Hgo s _ (rt_reads rt)); [done|done|lia|done|].
    by destruct rt.
  - apply after_flat, after_now_then. intros t n Ht. apply after_update; [done|]. apply after_gets, after_gets.
    eapply (Hgo t _ n); [done|done|lia|done|done].
Qed.

Lemma after_admit_raw raw rt :
  inv rt -> Z.of_nat (rt_objects rt) < 2 ^ 63 - 1 ->
  after rt (admit_raw strftime_Y now_at monotonic_at settings raw) (fun _ => True).
Proof.
  intros Hinv Hmax. unfold admit_raw. apply after_gets. destruct (negb _); [by apply after_raise|].
  apply after_now_then. intros received n Hr. apply after_monotonic_then. intros t n'.
  set (rt1 := with_reads n' _). assert (Hi : inv rt1) by (by do 2 apply inv_reads).
  destruct (parse_falco_body strftime_Y raw) as [[c|h]|e] eqn:Ep.
  - by apply after_admit_event; [|apply valid_hash|].
  - apply parse_heartbeat_ok in Ep. eapply after_bind; [by apply after_observe|]. intros valid rt' Hi' _.
    destruct valid; [by apply after_recover_rejections|by apply after_ret].
  - assert (Hreject : after rt1 (reject_body strftime_Y now_at monotonic_at received (sha256_hex raw) ;;!
        raise (A := unit) (AdapterPyError e)) (fun _ => True)).
    { apply after_seq; [apply after_reject_body; [done|done|apply valid_hash]|]. intros. by apply after_raise. }
    destruct e; [done|done|by apply after_raise].
Qed.

(** *** Start and shutdown *)

Lemma after_open_initial_gap started rt :
  inv rt -> clock_time started = true ->
  after rt (open_initial_gap strftime_Y now_at monotonic_at started) (fun _ => True).
Proof.
  intros Hinv Hs. unfold open_initial_gap. apply after_monotonic_then. intros t n. apply after_update; [done|].
  apply after_wd_open; [|by left|done| |by vm_compute|apply valid_hash].
  - apply inv_watchdog_update; [by apply inv_reads| |done|done]. by destruct (inv_watchdog _ Hinv).
  - eexists. split; [by vm_compute|]. apply (bool_decide_eq_true_1 _). by vm_compute.
Qed.

Lemma after_point_coverage k reason at_ label rt :
  inv rt -> is_point k = true -> clock_time at_ = true -> short_ascii (u reason) = true ->
  (exists sev act, falco_point (kind_text k) = Some (sev, u reason, act)) ->
  after rt (emit_point_coverage k reason (derived_hash label) None (Some at_) (Some at_)) (fun _ => True).
Proof.
  intros Hinv Hk Hat Hr Hp. unfold FalcoRuntime.emit_point_coverage. rewrite or_now_some by done.
  by apply after_point; [| | | |apply valid_hash|].
Qed.

Lemma after_begin_shutdown rt : inv rt -> after rt (begin_shutdown monotonic_at) (fun _ => True).
Proof.
  intros Hinv. unfold begin_shutdown. apply after_update; [done|]. apply after_gets.
  destruct (rt_drain_deadline _); [by apply after_ret; [apply inv_flags|]|].
  apply after_monotonic_then. intros t n. split_and!; [|done|done]. by apply inv_deadline, inv_reads, inv_flags.
Qed.

Lemma after_shutdown rt : inv rt -> after rt (shutdown strftime_Y now_at monotonic_at) (fun _ => True).
Proof.
  intros Hinv. unfold shutdown. apply after_seq; [by apply after_begin_shutdown|]. clear rt Hinv. intros rt Hinv.
  apply after_now_then. intros t n Ht. apply after_seq.
  - apply after_point_coverage; [by apply inv_reads|done|done|by vm_compute|do 2 eexists; by vm_compute].
  - intros rt' Hi. apply after_gets.
    destruct (rt_task rt'); [by apply after_ret|..]; (eapply after_bind; [by apply after_monotonic|]);
      intros; by apply after_ret.
Qed.

(** *** The worker *)

(** The item a task is busy with is the one in flight. *)
Definition worker_ok (t : worker) (rt : AdapterRuntime) : Prop :=
  match t with
  | Posting item _ _ _ | Sleeping item _ _ => ob_inflight (rt_outbox rt) = Some item /\ item_ok item
  | _ => True
  end.

(** A turn of the worker ends in a state it may stop in. *)
Definition turn_ok (rt : AdapterRuntime) (m : act worker) : Prop :=
  inv (m rt).1 /\ match (m rt).2 with Ok t => worker_ok t (m rt).1 | Err _ => True end.

Lemma turn_bind {A} rt (m : act A) k P :
  after rt m P -> (forall a rt', inv rt' -> frame rt rt' -> P a -> turn_ok rt' (k a)) -> turn_ok rt (bind m k).
Proof.
  unfold after, turn_ok, bind. intros (Hi & Hf & HP) Hk. destruct (m rt) as [rt' [a|e]]; cbn in *; [|done].
  by apply Hk.
Qed.

Lemma turn_gets {A} rt (f : AdapterRuntime -> A) k : turn_ok rt (k (f rt)) -> turn_ok rt (bind (gets f) k).
Proof. done. Qed.

Lemma turn_update rt f k : turn_ok (f rt) k -> turn_ok rt (update f ;;! k).
Proof. done. Qed.

Lemma after_deadline_passed rt : inv rt -> after rt (deadline_passed monotonic_at) (fun _ => True).
Proof.
  intros Hinv. unfold deadline_passed. apply after_gets. destruct (rt_drain_deadline rt); [|by apply after_ret].
  apply after_monotonic_then. intros. by apply after_ret; [apply inv_reads|].
Qed.

Lemma after_remaining rt : inv rt -> after rt (remaining monotonic_at) (fun _ => True).
Proof.
  intros Hinv. unfold remaining. apply after_gets. destruct (rt_drain_deadline rt); [|by apply after_ret].
  apply after_monotonic_then. intros. by apply after_ret; [apply inv_reads|].
Qed.

Lemma outbox_ack_ok item b :
  ob_inflight b = Some item -> outbox_ack item b = Ok (mkOutbox (ob_routine b) (ob_priority b) None).
Proof. intros E. unfold outbox_ack. by rewrite E, bool_decide_eq_true_2. Qed.

Lemma inv_acked rt : inv rt -> inv (with_outbox (mkOutbox (ob_routine (rt_outbox rt)) (ob_priority (rt_outbox rt)) None) rt).
Proof. intros Hinv. apply inv_outbox_update; [done|]. by destruct (inv_outbox _ Hinv). Qed.

Lemma cycle_ok item delay reported rt :
  inv rt -> ob_inflight (rt_outbox rt) = Some item -> item_ok item ->
  turn_ok rt (cycle strftime_Y now_at monotonic_at item delay reported).
Proof.
  intros Hinv Hin Hitem. unfold cycle. eapply turn_bind; [by apply after_check|]. intros _ rt1 Hi1 (_ & E1 & _) _.
  eapply (turn_bind _ _ _ (fun _ => True)).
  { destruct (di_expires item); [|by apply after_ret]. apply after_monotonic_then.
    intros. by apply after_ret; [apply inv_reads|]. }
  intros expired rt2 Hi2 (_ & E2 & _) _. destruct expired.
  - apply turn_gets. rewrite outbox_ack_ok by congruence. apply turn_update. split; [by apply inv_acked|done].
  - eapply turn_bind; [by apply after_remaining|]. intros r rt3 Hi3 (_ & E3 & _) _.
    destruct (is_over r); split; [done|done|done|]. cbn. split; [congruence|done].
Qed.

Lemma outbox_get_ok b item b' :
  outbox_ok b -> outbox_get b = Some (item, b') -> outbox_ok b' /\ ob_inflight b' = Some item /\ item_ok item.
Proof.
  intros [[Hi Hj] Hn Hk Hl]. unfold outbox_get. destruct (negb _); [done|].
  destruct (ob_priority b) as [|[k v] rest] eqn:Ep.
  - destruct (ob_routine b) as [|x rest]; [done|]. intros [= <- <-]. apply Forall_cons in Hi as [Hx Hrest].
    split_and!; [|done|done]. constructor; cbn in *; [done|done|done|lia].
  - rewrite <- Ep in *. set (key := min_key k (map fst rest)). intros (x & Hx & [= <- <-])%bind_Some.
    apply dict_get_in in Hx. rewrite Forall_forall in Hj. split_and!; [|done|by apply (Hj _ Hx)].
    assert (Hsub : dict_del key (ob_priority b) `sublist_of` ob_priority b) by apply filter_sublist.
    constructor; cbn; [|eapply sublist_NoDup; [exact Hn|by apply map_sublist]| |done].
    + split; [done|]. rewrite Forall_forall. intros y [Hy _]%dict_del_spec. by apply Hj.
    + rewrite Forall_forall in *. intros y [Hy _]%dict_del_spec. by apply Hk.
Qed.

Lemma run_top_ok rt : inv rt -> turn_ok rt (run_top monotonic_at).
Proof.
  intros Hinv. unfold run_top. eapply (turn_bind _ _ _ (fun x => x = rt)); [by apply after_ret|].
  intros x rt1 Hi _ _. eapply (turn_bind _ _ _ (fun _ => True)).
  { destruct (_ && _); [by apply after_ret|by apply after_deadline_passed]. }
  intros over rt2 Hi2 _ _. split; [done|]. by destruct over.
Qed.

Lemma run_wake_ok timed_out rt : inv rt -> turn_ok rt (run_wake strftime_Y now_at monotonic_at timed_out).
Proof.
  intros Hinv. unfold run_wake. eapply turn_bind; [by apply after_deadline_passed|]. intros over rt1 Hi1 _ _.
  destruct over; [done|]. destruct timed_out.
  { eapply turn_bind; [by apply after_check|]. done. }
  apply turn_gets. destruct (outbox_get (rt_outbox rt1)) as [[item b]|] eqn:E; [|done].
  apply outbox_get_ok in E as (Hb & Hin & Hitem); [|apply Hi1]. apply turn_update, cycle_ok; [|done|done].
  by apply inv_outbox_update.
Qed.

Lemma after_post_ok item delay reported answer rt :
  inv rt -> ob_inflight (rt_outbox rt) = Some item -> item_ok item ->
  turn_ok rt (after_post strftime_Y now_at monotonic_at item delay reported answer).
Proof.
  intros Hinv Hin Hitem. unfold after_post. destruct answer.
  - apply turn_gets. rewrite outbox_ack_ok by done. apply turn_update.
    eapply turn_bind; [by apply after_delivery_recovered, inv_acked|]. done.
  - eapply (turn_bind _ _ _ (fun _ => True)).
    { destruct reported; [by apply after_ret|by apply after_delivery_failed]. }
    intros _ rt1 Hi1 (_ & E1 & _) _. eapply turn_bind; [by apply after_remaining|]. intros r rt2 Hi2 (_ & E2 & _) _.
    destruct (is_over r); split; [done|done|done|]. cbn. split; [congruence|done].
Qed.

(** ** Reachable states *)

Definition state_ok (rt : AdapterRuntime) : Prop := inv rt /\ worker_ok (rt_task rt) rt.

Lemma turn_state m rt : turn_ok rt m -> state_ok (turn m rt).
Proof.
  unfold turn_ok, turn. destruct (m rt) as [rt' [t|e]]; cbn; intros [Hi Hw]; (split; [by apply inv_task|done]).
Qed.

Lemma after_state {A} rt (m : act A) Q : state_ok rt -> after rt m Q -> state_ok (m rt).1.
Proof.
  intros [_ Hw] (Hi & (Et & Ein & _) & _). split; [done|]. rewrite Et.
  unfold worker_ok in *. by destruct (rt_task rt); rewrite ?Ein.
Qed.

Lemma start_state rt : state_ok rt -> state_ok (start strftime_Y now_at monotonic_at rt).1.
Proof.
  intros Hs. pose proof Hs as [Hinv _]. unfold start. unfold bind at 1, gets.
  destruct (rt_task rt) eqn:Et; try done.
  enough (H : after rt (let! started_at := now in
      emit_point_coverage AdapterStart "adapter_started" (derived_hash "adapter_started") None
        (Some started_at) (Some started_at) ;;!
      open_initial_gap strftime_Y now_at monotonic_at started_at) (fun _ => True)).
  { destruct H as (Hi & (Ht & _) & _). rewrite Et in Ht. revert Hi Ht. unfold state_ok, bind, update.
    destruct (now rt) as [rt1 [t|]]; [|by intros ? ->].
    destruct (emit_point_coverage _ _ _ _ _ _ rt1) as [rt2 []]; [|by intros ? ->].
    destruct (open_initial_gap _ _ _ t rt2) as [rt3 []]; [|by intros ? ->].
    intros Hi _. split; [by apply inv_flags, inv_task|done]. }
  apply after_now_then. intros t n Ht. apply after_seq.
  - apply after_point_coverage; [by apply inv_reads|done|done|by vm_compute|do 2 eexists; by vm_compute].
  - intros rt' Hi. by apply after_open_initial_gap.
Qed.

Local Abbreviation step := (step strftime_Y now_at monotonic_at settings).
Local Abbreviation new_runtime := (new_runtime strftime_Y now_at monotonic_at).

(** The states of a process that has made fewer than 2^63 - 1 items *)
Inductive reachable : AdapterRuntime -> Prop :=
| reachable_new : reachable new_runtime
| reachable_step e rt : reachable rt -> Z.of_nat (rt_objects rt) < 2 ^ 63 - 1 -> reachable (step e rt).

Lemma initial_state_ok : state_ok new_runtime.
Proof.
  split; [|done]. constructor; try done.
  - by repeat constructor.
  - constructor; cbn; [apply clock_now|done|done|]. intros k. split; [by intros [? ?]|by intros [_ [? ?]]].
  - by intros [].
Qed.

Lemma step_state e rt : state_ok rt -> Z.of_nat (rt_objects rt) < 2 ^ 63 - 1 -> state_ok (step e rt).
Proof.
  intros Hs Hmax. pose proof Hs as [Hinv Hw]. unfold FalcoRuntime.step. destruct e.
  - destruct (rt_task rt); by apply start_state.
  - destruct (rt_task rt); by eapply after_state, after_admit_raw.
  - destruct (rt_task rt); try done. by apply turn_state, run_top_ok.
  - destruct (rt_task rt); try done. destruct (_ || _); [|done]. by apply turn_state, run_wake_ok.
  - destruct (rt_task rt); try done. destruct Hw. by apply turn_state, after_post_ok.
  - destruct (rt_task rt); try done. destruct Hw. by apply turn_state, cycle_ok.
  - destruct (rt_task rt); by eapply after_state, after_shutdown.
  - destruct (rt_task rt); (split; [by apply inv_task|done]).
Qed.

Lemma reachable_state rt : reachable rt -> state_ok rt.
Proof. induction 1; [apply initial_state_ok|by apply step_state]. Qed.

(** C16: what the adapter reports about itself, taken in order, is a proper sequence of
    episodes for every kind of outage: an episode opens once, each further report of it keeps
    its opening time and, where drops are counted, a count that grows or has reached its
    maximum, and it is closed once, with its opening time and its last count.  The episodes
    left open are exactly those the adapter still holds as open. *)
Theorem falco_coverage_episodes rt k :
  reachable rt -> is_point k = false -> replay k (rt_emitted rt) = Some (open_of rt k).
Proof. intros [Hinv _]%reachable_state Hk. by apply inv_log. Qed.

Lemma point_not_counted k : is_point k = true -> counted k = false.
Proof. destruct k; try done; intros _; by vm_compute. Qed.

(** C17: everything the adapter reports is understood by the coverage reducer.  Each report
    fits the observer's coverage route, and in the envelope the observer wraps it in, the
    coverage grammar reads exactly what was reported: start, stop, lease, the opening or the
    closing of an outage of the adapter's process, with its exact times. *)
Theorem falco_coverage_classified rt v e :
  reachable rt -> v ∈ rt_emitted rt -> wraps v e ->
  (exists body, canonical_json (JObj (coverage_input_dump v)) = Ok body
     /\ 1 <= Z.of_nat (length body) <= route_limit FALCO_COVERAGE_PATH)
  /\ exists opened closed, parse_rfc3339nano_utc_ns (fi_opened_at v) = Ok opened
     /\ parse_optional_ns (fi_closed_at v) = Ok closed
     /\ classify_coverage_record e (Some (observer_coverage v))
        = Ok (mkClass (input_action v) (Some ProcessScope) (counted (fi_kind v)) (Some opened) closed).
Proof.
  intros [Hinv _]%reachable_state Hin Hw. pose proof (inv_emitted _ Hinv) as He. rewrite Forall_forall in He.
  apply He in Hin as (Hv & Ht & Hr). split; [by apply input_fits|]. destruct (is_point (fi_kind v)) eqn:Hk.
  - destruct (point_classified v e) as (ns & Hns & Hcl); try done. exists ns, (Some ns).
    rewrite point_not_counted, Hcl by done. split_and!; [done| |done].
    unfold input_ok in Hv. rewrite Hk in Hv. cbn [negb orb] in Hv. breflect.
    match goal with H : fi_closed_at v = Some _ |- _ => rewrite H end. cbn [parse_optional_ns]. by rewrite Hns.
  - by apply generic_classified.
Qed.

(** C20: the outbox is bounded.  At most 1024 events wait, and at most ten reports, one of
    each kind, so a report of coverage is always admitted; every waiting body is within the
    limit of its route; and the item the delivery task is busy with is the one in flight, so
    its acknowledgement always matches. *)
Theorem falco_queues_bounded rt :
  reachable rt ->
  (length (ob_routine (rt_outbox rt)) <= 1024)%nat
  /\ (length (ob_priority (rt_outbox rt)) <= 10)%nat /\ NoDup (map fst (ob_priority (rt_outbox rt)))
  /\ Forall item_ok (ob_routine (rt_outbox rt) ++ map snd (ob_priority (rt_outbox rt)))
  /\ (forall k item, exists b, admit_priority (kind_text k) item (rt_outbox rt) = Ok b)
  /\ match rt_task rt with
     | Posting item _ _ _ | Sleeping item _ _ =>
         item_ok item /\ exists b, outbox_ack item (rt_outbox rt) = Ok b
     | _ => True
     end.
Proof.
  intros [Hinv Hw]%reachable_state. pose proof (inv_outbox _ Hinv) as Hb.
  pose proof (priority_bounded _ Hb) as Hl. destruct (Hb) as [[Hi Hj] Hn _ Hr]. split_and!; [done|done|done| | |].
  - apply Forall_app. split; [done|]. by apply Forall_map.
  - intros k item. unfold admit_priority. rewrite (bool_decide_eq_true_2 (length _ < _)%nat), orb_true_r
      by (unfold PRIORITY_CAPACITY; lia). by eexists.
  - unfold worker_ok in Hw. destruct (rt_task rt); try done; destruct Hw as [Hin Hitem];
      (split; [done|]); eexists; by apply outbox_ack_ok.
Qed.


(** *** Every body is accounted for *)

(** The limit on a body does not depend on how it is cut into chunks. *)
Lemma falco_bounded_body_spec chunks : forall body,
  Z.of_nat (length body) <= FALCO_MAX_BODY_BYTES ->
  falco_bounded_body body chunks
  = if FALCO_MAX_BODY_BYTES <? Z.of_nat (length (body ++ concat chunks)) then None else Some (body ++ concat chunks).
Proof.
  induction chunks as [|c chunks IH]; intros body Hb; cbn [falco_bounded_body concat].
  - rewrite app_nil_r. by rewrite (proj2 (Z.ltb_ge _ _)).
  - rewrite !length_app. destruct (Z.ltb_spec FALCO_MAX_BODY_BYTES (Z.of_nat (length body) + Z.of_nat (length c))) as [Hl|Hl].
    + by rewrite (proj2 (Z.ltb_lt _ _)) by lia.
    + rewrite IH by (rewrite length_app; lia). by rewrite <- app_assoc, !length_app.
Qed.

(** The report of a refused body *)
Definition rejection_of (rt : AdapterRuntime) (received raw_hash : pystr) : FalcoAdapterCoverageInputV1 :=
  mkInput ParseRejection (default received (rt_rejection_opened_at rt)) None
    (Some (Z.min MAX_UINT64 (rt_rejection_count rt + 1))) (u "invalid_falco_body") raw_hash.

Lemma reject_runs received raw_hash rt :
  inv rt -> clock_time received = true -> HEX64 raw_hash = true ->
  exists rt', reject_body strftime_Y now_at monotonic_at received raw_hash rt = (rt', Ok tt)
    /\ rt_emitted rt' = rt_emitted rt ++ [rejection_of rt received raw_hash].
Proof.
  intros Hinv Hr Hh. unfold reject_body. unfold bind at 1, update at 1, bind at 1, gets at 1, bind at 1, gets at 1.
  cbn [rt_rejection_count rt_rejection_opened_at with_rejection]. pose proof (inv_rejection _ Hinv) as Hrej.
  assert (E : match rt_rejection_opened_at rt with Some s => s | None => received end
              = default received (rt_rejection_opened_at rt)) by (by destruct (rt_rejection_opened_at rt)).
  rewrite E. assert (Hn : clock_time (default received (rt_rejection_opened_at rt)) = true /\ 0 <= rt_rejection_count rt).
  { unfold rejections_ok in Hrej. destruct (rt_rejection_opened_at rt); cbn; [split; [apply Hrej|]|split; [done|]]; lia. }
  destruct Hn as [Ho Hn]. edestruct emit_runs as (rt' & Hrun & Hem); [| |exact Ho|]; [| |exists rt'; split; [exact Hrun|]].
  - apply Hinv.
  - apply input_ok_open; [done| |done|by vm_compute|done]. cbn. unfold MAX_UINT64.
    apply andb_true_iff. split; apply Z.leb_le; lia.
  - by destruct Hem as (_ & _ & _ & ->).
Qed.

Lemma admit_routine_last item b b' d :
  admit_routine item b = (b', d) ->
  last (ob_routine b') = Some item /\ d = if bool_decide (length (ob_routine b) = ROUTINE_CAPACITY) then 1 else 0.
Proof. unfold admit_routine. case_bool_decide; intros [= <- <-]; cbn; by rewrite last_snoc. Qed.

(** The interval of dropped events has an opening time once an event was dropped. *)
Lemma drop_opened rt1 :
  (forall s, rt_queue_drop_opened_at rt1 = Some s -> clock_time s = true) ->
  exists t rt2, match rt_queue_drop_opened_at rt1 with
    | Some _ => ret tt
    | None => let! t := now in update (fun rt => with_queue (rt_queue_dropped rt) (Some t) rt)
    end rt1 = (rt2, Ok tt)
    /\ clock_time t = true /\ rt_queue_drop_opened_at rt2 = Some t /\ rt_queue_dropped rt2 = rt_queue_dropped rt1
    /\ rt_outbox rt2 = rt_outbox rt1 /\ rt_emitted rt2 = rt_emitted rt1.
Proof.
  intros Ho. destruct (rt_queue_drop_opened_at rt1) as [s|] eqn:E.
  - exists s, rt1. split_and!; try done. by apply Ho.
  - do 2 eexists. split; [reflexivity|]. split_and!; try done. apply clock_now.
Qed.

Lemma admit_event_runs c raw_hash rt :
  inv rt -> HEX64 raw_hash = true -> Z.of_nat (rt_objects rt) < 2 ^ 63 - 1 -> new_connect c = Ok c ->
  exists rt' body item, admit_event strftime_Y now_at monotonic_at c raw_hash rt = (rt', Ok tt)
    /\ canonical_json (JObj (connect_dump c)) = Ok body
    /\ last (ob_routine (rt_outbox rt')) = Some item /\ di_body item = body /\ di_path item = FALCO_EVENT_PATH
    /\ if bool_decide (length (ob_routine (rt_outbox rt)) = ROUTINE_CAPACITY) then
         exists t, rt_emitted rt' = rt_emitted rt
           ++ [mkInput QueueDrop t None (Some (rt_queue_dropped rt + 1)) (u "routine_capacity_exceeded") raw_hash]
       else rt_emitted rt' = rt_emitted rt.
Proof.
  intros Hinv Hh Hmax Hc. destruct (connect_fits c Hc) as (body & Hbody & Hl).
  set (item := mkItem (rt_objects rt) FALCO_EVENT_PATH body None).
  assert (Hitem : new_item (rt_objects rt) FALCO_EVENT_PATH body None = Ok item).
  { unfold new_item. rewrite bool_decide_eq_false_2 by (intros ->; cbn in Hl; lia). cbn [orb].
    by rewrite (proj2 (Z.ltb_ge _ _)) by lia. }
  unfold admit_event, of_py, of_result, bind at 1. rewrite Hbody. cbn [catch_with].
  unfold bind at 1, fresh_object, bind at 1. rewrite Hitem. unfold bind at 1, gets at 1.
  cbn [rt_outbox with_objects]. destruct (admit_routine item (rt_outbox rt)) as [b d] eqn:E.
  pose proof (admit_routine_ok _ _ _ _ (inv_outbox _ Hinv) (new_item_ok _ _ _ Hitem) E) as (Hb & _ & _).
  apply admit_routine_last in E as [Hlast ->]. unfold bind at 1, update at 1. case_bool_decide as Hfull; cbn [Z.eqb].
  2:{ eexists _, body, item. split; [reflexivity|]. by split_and!. }
  unfold bind at 1, update at 1, bind at 1, gets at 1.
  set (rt1 := with_queue _ _ _). pose proof (inv_queue _ Hinv) as Hq.
  destruct (drop_opened rt1) as (t & rt2 & Hrun & Ht & Eo & Ed & Eb & Ee).
  { intros s Es. cbn in Es. rewrite Es in Hq. apply Hq. }
  unfold bind at 1. rewrite Hrun. unfold bind, gets. rewrite Eo, Ed.
  destruct (emit_runs rt2 QueueDrop "routine_capacity_exceeded" raw_hash (Some (rt_queue_dropped rt + 1)) t)
    as (rt3 & Hrun3 & (_ & [_ Hro] & _ & Em)).
  - by rewrite Eb.
  - apply input_ok_open; [done| |done|by vm_compute|done]. cbn. unfold MAX_UINT64, queue_ok in *.
    apply andb_true_iff. destruct (rt_queue_drop_opened_at rt); split; apply Z.leb_le; lia.
  - done.
  - exists rt3, body, item. split; [exact Hrun3|]. rewrite Hro, Eb. split_and!; try done.
    exists t. rewrite Em. cbn. by rewrite Ee.
Qed.

(** C18: no body is lost in silence.  A body over the limit is refused with 413, however it was
    cut into chunks.  A running adapter refuses a body it cannot read with 400 and reports one
    more rejection, with the digest of the body; it answers an event with 202 only with the
    event at the end of the queue, and reports one more dropped event exactly when the queue was
    full.  (Heartbeats go to the watchdog.)  Only a time outside the calendar escapes this: it
    is a 500 without a report. *)
Theorem falco_bodies_accounted rt chunks rt' status :
  reachable rt -> Z.of_nat (rt_objects rt) < 2 ^ 63 - 1 -> rt_accepting rt = true ->
  falco_raw strftime_Y now_at monotonic_at settings (Some (u "application/json")) chunks rt = (rt', status) ->
  let raw := concat chunks in
  if FALCO_MAX_BODY_BYTES <? Z.of_nat (length raw) then rt' = rt /\ status = 413
  else match parse_falco_body strftime_Y raw with
  | Err OverflowError => status = 500 /\ rt_emitted rt' = rt_emitted rt
  | Err _ => status = 400 /\ exists received, rt_emitted rt' = rt_emitted rt ++ [rejection_of rt received (sha256_hex raw)]
  | Ok (Connect c) =>
      status = 202 /\ exists body item, canonical_json (JObj (connect_dump c)) = Ok body
        /\ last (ob_routine (rt_outbox rt')) = Some item /\ di_body item = body /\ di_path item = FALCO_EVENT_PATH
        /\ if bool_decide (length (ob_routine (rt_outbox rt)) = ROUTINE_CAPACITY) then
             exists t, rt_emitted rt' = rt_emitted rt ++ [mkInput QueueDrop t None (Some (rt_queue_dropped rt + 1))
               (u "routine_capacity_exceeded") (sha256_hex raw)]
           else rt_emitted rt' = rt_emitted rt
  | Ok (Heartbeat _) => True
  end.
Proof.
  intros [Hinv _]%reachable_state Hmax Ha Hf raw. unfold falco_raw in Hf.
  rewrite bool_decide_eq_true_2 in Hf by done. cbn [negb] in Hf.
  rewrite falco_bounded_body_spec in Hf by (by vm_compute). cbn [app] in Hf. fold raw in Hf.
  destruct (FALCO_MAX_BODY_BYTES <? _); [by injection Hf as <- <-|].
  unfold admit_raw in Hf. unfold bind at 1, gets at 1 in Hf. rewrite Ha in Hf. cbn [negb] in Hf.
  unfold bind at 1, FalcoRuntime.now at 1, bind at 1, FalcoRuntime.monotonic at 1 in Hf.
  set (received := timestamp strftime_Y _) in Hf. set (rt1 := with_reads _ (with_reads _ _)) in Hf.
  assert (Hi : inv rt1) by (by do 2 apply inv_reads).
  assert (Hr : clock_time received = true) by apply clock_now.
  destruct (parse_falco_body strftime_Y raw) as [[c|h]|e] eqn:Ep; [|done|].
  - destruct (admit_event_runs c (sha256_hex raw) rt1) as (rt2 & body & item & Hrun & H); try done.
    { apply valid_hash. }
    { by eapply parse_connect_ok. }
    rewrite Hrun in Hf. injection Hf as <- <-. split; [done|]. by exists body, item.
  - destruct (reject_runs received (sha256_hex raw) rt1 Hi Hr (valid_hash raw)) as (rt2 & Hrun & He).
    destruct e; [..|by injection Hf as <- <-];
      unfold bind at 1 in Hf; rewrite Hrun in Hf; injection Hf as <- <-; (split; [done|]); by exists received.
Qed.
End Handlers.

(** ** Witnesses *)

(** Clocks that tick a tenth of a second at every reading, the first of them for a day *)
Definition sample_now (n : nat) : Z := 1772321400000000 + 100000 * Z.min 864000 (Z.of_nat n).
Definition sample_monotonic (n : nat) : float := f_of_int (Z.of_nat (n / 10)).

Definition sample_settings : AdapterSettings :=
  mkSettings (sha256_hex (bstr "config")) (sha256_hex (bstr "rules")) OBSERVER_SOCKET.

Definition heartbeat_body (version : pystr) : bytes :=
  match canonical_json (JObj
    [(u "rule", JStr METRICS_RULE); (u "source", JStr METRICS_SOURCE); (u "priority", JStr METRICS_PRIORITY);
     (u "time", JStr (u "2026-02-28T23:30:00Z"));
     (u "output_fields", JObj
       [(u "falco.version", JStr version); (u "scap.engine_name", JStr (u "modern_bpf"));
        (u CONFIG_HASH_FIELD, JStr (set_config_sha256 sample_settings));
        (u RULES_HASH_FIELD, JStr (set_rules_sha256 sample_settings));
        (u "falco.outputs_queue_num_drops", JInt 0); (u "scap.n_drops", JInt 3)])])
  with Ok raw => raw | Err _ => [] end.

Definition sample_heartbeat : bytes := Eval vm_compute in heartbeat_body FALCO_VERSION.
Definition foreign_heartbeat : bytes := Eval vm_compute in heartbeat_body (u "0.43.0").

Definition sample_step : event -> AdapterRuntime -> AdapterRuntime :=
  step dec_nonneg sample_now sample_monotonic sample_settings.
Definition sample_start : AdapterRuntime := new_runtime dec_nonneg sample_now sample_monotonic.

(** Start, an invalid body, a valid heartbeat, then four deliveries *)
Definition sample_events : list event :=
  [Start; Body []; Body sample_heartbeat]
  ++ concat (repeat [Turn; Wake false; Answer true] 4).

Definition sample_runtime : AdapterRuntime := fold_left (fun rt e => sample_step e rt) sample_events sample_start.

Fixpoint small_run (rt : AdapterRuntime) (events : list event) : bool :=
  match events with
  | [] => true
  | e :: events => (Z.of_nat (rt_objects rt) <? 2 ^ 63 - 1) && small_run (sample_step e rt) events
  end.

Lemma sample_run_reachable rt events :
  reachable dec_nonneg sample_now sample_monotonic sample_settings rt -> small_run rt events = true ->
  reachable dec_nonneg sample_now sample_monotonic sample_settings (fold_left (fun rt e => sample_step e rt) events rt).
Proof.
  revert rt. induction events as [|e events IH]; intros rt Hrt; [done|]. cbn [small_run fold_left].
  intros [Hn%Z.ltb_lt Hr]%andb_true_iff. apply IH; [|done]. by apply reachable_step.
Qed.

Lemma sample_clock n : YEAR_1000_NS <= sample_now n * 1000 <= MAX_TIMESTAMP_NS.
Proof. unfold YEAR_1000_NS, MAX_TIMESTAMP_NS, sample_now. lia. Qed.

Lemma sample_runtime_reachable : reachable dec_nonneg sample_now sample_monotonic sample_settings sample_runtime.
Proof.
  apply sample_run_reachable; [apply reachable_new|].
  assert (H : small_run sample_start sample_events = true) by (vm_cast_no_check (eq_refl true)). exact H.
Qed.

(** The rejected body is one closed episode, counted once. *)
Lemma falco_coverage_episodes_witness :
  replay ParseRejection (rt_emitted sample_runtime) = Some None /\ length (rt_emitted sample_runtime) = 6%nat.
Proof.
  split; [|vm_compute; reflexivity].
  rewrite (falco_coverage_episodes dec_nonneg sample_now sample_monotonic sample_settings dec_nonneg_four_digits
    sample_clock sample_runtime ParseRejection sample_runtime_reachable eq_refl).
  vm_compute. reflexivity.
Defined.

(** Its closing, in an envelope of the observer *)
Definition sample_closing : FalcoAdapterCoverageInputV1 := Eval vm_compute in
  match rev (rt_emitted sample_runtime) with v :: _ => v | [] => mkInput ParseRejection [] None None [] [] end.

Definition sample_closing_envelope : EventEnvelopeV1 :=
  coverage_envelope 7 3 (observer_coverage sample_closing) [].

Lemma sample_closing_emitted : bool_decide (sample_closing ∈ rt_emitted sample_runtime) = true.
Proof. vm_cast_no_check (eq_refl true). Qed.

Lemma falco_coverage_classified_witness : exists opened closed,
  classify_coverage_record sample_closing_envelope (Some (observer_coverage sample_closing))
  = Ok (mkClass GenericClose (Some ProcessScope) true (Some opened) (Some closed)) /\ opened < closed.
Proof.
  destruct (falco_coverage_classified dec_nonneg sample_now sample_monotonic sample_settings dec_nonneg_four_digits
    sample_clock sample_runtime sample_closing sample_closing_envelope sample_runtime_reachable
    (bool_decide_eq_true_1 _ sample_closing_emitted)) as (_ & opened & closed & Ho & Hc & Hcl).
  - repeat split; vm_compute; reflexivity.
  - vm_compute in Ho, Hc. injection Ho as <-. injection Hc as <-.
    eexists _, _. split; [exact Hcl|]. lia.
Defined.

Lemma falco_queues_bounded_witness :
  (length (ob_priority (rt_outbox sample_runtime)) <= 10)%nat
  /\ exists b, admit_priority (kind_text HeartbeatGap) (mkItem 99 FALCO_COVERAGE_PATH (bstr "{}") None)
       (rt_outbox sample_runtime) = Ok b.
Proof.
  destruct (falco_queues_bounded dec_nonneg sample_now sample_monotonic sample_settings dec_nonneg_four_digits
    sample_clock sample_runtime sample_runtime_reachable) as (_ & Hp & _ & _ & Ha & _).
  split; [exact Hp|apply Ha].
Defined.

Lemma sample_is_ready : (ready sample_monotonic sample_runtime).2 = Ok true.
Proof. vm_compute. reflexivity. Qed.


(** A body of two chunks that is no Falco event *)
Definition sample_answer : AdapterRuntime * Z :=
  falco_raw dec_nonneg sample_now sample_monotonic sample_settings (Some (u "application/json"))
    [bstr "{"; bstr "}"] sample_runtime.

Lemma sample_answered :
  falco_raw dec_nonneg sample_now sample_monotonic sample_settings (Some (u "application/json"))
    [bstr "{"; bstr "}"] sample_runtime = (sample_answer.1, sample_answer.2).
Proof. unfold sample_answer. by destruct (falco_raw _ _ _ _ _ _ _). Qed.

Lemma sample_not_parsed : parse_falco_body dec_nonneg (concat [bstr "{"; bstr "}"]) = Err ValueError.
Proof. vm_compute. reflexivity. Qed.

Lemma falco_bodies_accounted_witness :
  sample_answer.2 = 400
  /\ exists received, rt_emitted sample_answer.1
       = rt_emitted sample_runtime ++ [rejection_of sample_runtime received (sha256_hex (bstr "{}"))].
Proof.
  assert (Hn : Z.of_nat (rt_objects sample_runtime) < 2 ^ 63 - 1) by (vm_compute; reflexivity).
  assert (Ha : rt_accepting sample_runtime = true) by (vm_compute; reflexivity).
  pose proof (falco_bodies_accounted dec_nonneg sample_now sample_monotonic sample_settings dec_nonneg_four_digits
    sample_clock sample_runtime [bstr "{"; bstr "}"] sample_answer.1 sample_answer.2 sample_runtime_reachable Hn Ha
    sample_answered) as H.
  cbv zeta in H. rewrite sample_not_parsed in H. exact H.
Defined.

(** ** Two weaknesses, on concrete runs *)

Definition run_from (now_at : nat -> Z) (rt : AdapterRuntime) (events : list event) : AdapterRuntime :=
  fold_left (fun rt e => step dec_nonneg now_at sample_monotonic sample_settings e rt) events rt.

Definition delivery : list event := [Turn; Wake false; Answer true].

(** The clock goes back between a failed delivery and the next successful one: closing the
    failure raises, and the delivery task is over although nobody asked for a shutdown. *)
Example backward_clock_ends_delivery :
  let rt := run_from (fun n => 1772321400000000 - 1000000 * Z.of_nat n)
              (new_runtime dec_nonneg (fun n => 1772321400000000 - 1000000 * Z.of_nat n) sample_monotonic)
              [Start; Turn; Wake false; Answer false; Awake; Answer true] in
  rt_task rt = Finished /\ rt_drain_deadline rt = None /\ rt_accepting rt = true
  /\ present (rt_delivery_failure_opened_at rt) = true.
Proof. vm_compute. split_and!; reflexivity. Qed.

(** Is the report waiting in the outbox? *)
Definition waiting (v : FalcoAdapterCoverageInputV1) (b : BoundedOutbox) : bool :=
  match canonical_json (JObj (coverage_input_dump v)) with
  | Ok body => existsb (fun kv => bool_decide (body = di_body kv.2)) (ob_priority b)
  | Err _ => false
  end.

(** A mismatch is reported and delivered, ends, and the next one begins before its closing
    was delivered: the closing was reported while nothing else waited, and yet it no longer
    waits, since the opening of the next episode has taken its place. *)
Example pending_close_is_lost :
  let rt0 := run_from sample_now sample_start ([Start; Body foreign_heartbeat] ++ delivery ++ delivery ++ delivery) in
  let rt1 := run_from sample_now rt0 [Body sample_heartbeat; Body foreign_heartbeat] in
  outbox_empty (rt_outbox rt0) = true
  /\ map (fun v => (fi_kind v, present (fi_closed_at v), waiting v (rt_outbox rt1)))
       (drop (length (rt_emitted rt0)) (rt_emitted rt1))
     = [(HeartbeatGap, true, true); (ConfigurationMismatch, true, false); (HeartbeatLease, true, true);
        (ConfigurationMismatch, false, true)].
Proof. vm_compute. split; reflexivity. Qed.
