(* ===== verification/AckJournal.v ===== *)
(** * The acknowledgement journal

    [AckJournal] of [ingest/ack_journal.py] and the part of [evidence/segments.py] it relies
    on: the order in which authenticated evidence may be acknowledged, and the commitment, a
    second file that is replaced atomically and names the last confirmed acknowledgement
    together with the size and digest of the journal up to it.

    A record is written as pending before the observer is told and as confirmed after it
    answered; a confirmation is also committed.  The disk is the commitment and the bytes of
    the journal.  What the file system, the owner checks of the store and other processes do
    is an argument of each operation: whether the journal is still bound to its file, where
    an append stops, whether a replacement happened.  The running digest of the content is
    the content itself, [a_hashed].  Replay snapshots and unpublished anchors, which other
    components use to compare two readings, and the temporary file of a replacement are not
    modelled. *)

From stdpp Require Import gmap.
From S2P Require Import Prelude.
From S2P Require Import Sha256.
From S2P Require Import CanonicalJson.
From S2P Require Import JsonDecode.
From S2P Require Import Frames.
From S2P Require Import Time.
From S2P Require Import Ipv4.
From S2P Require Import Identities.
From S2P Require Import Contracts.
From S2P Require Import EvidenceStore.
From S2P Require Import DecisionJournal.
From S2P Require Import JsonSize.
Local Open Scope Z_scope.
Local Open Scope agmind_scope.

(** ** Identities and records *)

Record AckIdentity := mkAck { ai_sequence : Z; ai_event_id : pystr; ai_content : pystr }.

#[export] Instance AckIdentity_eq_dec : EqDecision AckIdentity.
Proof. solve_decision. Defined.

(** [AckIdentity.from_ref] *)
Definition from_ref (r : EvidenceRef) : AckIdentity :=
  mkAck (ref_source_sequence r) (ref_event_id r) (content_sha256 r).

Inductive ack_kind := PendingAck | ConfirmedAck.

#[export] Instance ack_kind_eq_dec : EqDecision ack_kind.
Proof. solve_decision. Defined.

Definition ack_kind_text (k : ack_kind) : pystr :=
  u match k with PendingAck => "pending_ack" | ConfirmedAck => "confirmed_ack" end%string.

(** [_AckJournalRecordV1] *)
Record AckJournalRecordV1 := mkAckRecord { ar_kind : ack_kind; ar_identity : AckIdentity }.

#[export] Instance AckJournalRecordV1_eq_dec : EqDecision AckJournalRecordV1.
Proof. solve_decision. Defined.

Definition ACK_RECORD_SCHEMA : pystr := u "agmind.core-ack-journal-record.v1".

Definition ack_record_keys : list pystr := map u
  ["schema_version"; "kind"; "sequence"; "event_id"; "content_sha256"]%string.

Definition ack_kind_field (doc : document) : result py_exn ack_kind :=
  let* text := str_field (u "kind") doc in
  if bool_decide (text = ack_kind_text PendingAck) then Ok PendingAck
  else if bool_decide (text = ack_kind_text ConfirmedAck) then Ok ConfirmedAck
  else Err ValueError.

Definition ack_record_validate (doc : document) : result py_exn AckJournalRecordV1 :=
  no_extra ack_record_keys doc ;;*
  literal_field (u "schema_version") [ACK_RECORD_SCHEMA] doc ;;*
  let* kind := ack_kind_field doc in
  let* sequence := int_field (u "sequence") 1 MAX_UINT64 doc in
  let* event_id := str_field (u "event_id") doc in
  let* content := str_field (u "content_sha256") doc in
  check (EVENT_ID event_id) ;;*
  check (HEX64 content) ;;*
  Ok (mkAckRecord kind (mkAck sequence event_id content)).

Definition ack_record_fields (r : AckJournalRecordV1) : list (pystr * option json) :=
  [(u "schema_version", Some (JStr ACK_RECORD_SCHEMA)); (u "kind", Some (JStr (ack_kind_text (ar_kind r))));
   (u "sequence", Some (JInt (ai_sequence (ar_identity r))));
   (u "event_id", Some (JStr (ai_event_id (ar_identity r))));
   (u "content_sha256", Some (JStr (ai_content (ar_identity r))))].

Definition ack_record_dump (r : AckJournalRecordV1) : document := dump_of (ack_record_fields r).

Definition MAX_ACK_RECORD_BYTES : Z := 1024.

(** ** What the store says about acknowledgements *)

(** The store of one host with the ranges of sequences it has retired and the holes in the
    sequences it accepted *)
Record AckStore := mkAckStore {
  as_store : SegmentStore; as_retired : list (Z * Z); as_holes : list (Z * Z) }.

(** [acceptance_cursor] *)
Definition acceptance_cursor (s : AckStore) : Z :=
  match as_holes s with (start, _) :: _ => start - 1 | [] => last_sequence (as_store s) end.

(** [_validate_ack_identity], once the owner is checked *)
Definition validate_ack_identity (s : AckStore) (i : AckIdentity) : result store_exn EvidenceRef :=
  require_authenticated_recovered (as_store s) ;;*
  let* r := of_option AckAuthorityError (index (as_store s) !! ai_sequence i) in
  guard (bool_decide (ref_event_id r = ai_event_id i) && bool_decide (content_sha256 r = ai_content i))
    AckAuthorityError ;;*
  SegmentStore_resolve_authenticated_ref (as_store s) r ;;* Ok r.

(** [_validate_next_ack_ref] *)
Definition validate_next_ack_ref (s : AckStore) (r : EvidenceRef) (confirmed_through : Z)
  : result store_exn unit :=
  SegmentStore_resolve_authenticated_ref (as_store s) r ;;*
  let position := bisect_right (sequences (as_store s)) confirmed_through in
  let* sequence := of_option AckAuthorityError (sequences (as_store s) !! position) in
  let* next := of_option LookupError (index (as_store s) !! sequence) in
  guard (bool_decide (next = r)) AckAuthorityError ;;*
  guard (ref_source_sequence r <=? acceptance_cursor s) AckAuthorityError.

(** [_resolve_recovered_ack_identity]: the live reference, or nothing for retired evidence *)
Definition resolve_recovered_ack_identity (s : AckStore) (i : AckIdentity)
  : result store_exn (option EvidenceRef) :=
  match index (as_store s) !! ai_sequence i with
  | Some r =>
      guard (bool_decide (ref_event_id r = ai_event_id i) && bool_decide (content_sha256 r = ai_content i))
        AckAuthorityError ;;*
      guard (match record_positions (as_store s) !! ai_sequence i with
             | Some position => bool_decide (ref <$> stored_records (as_store s) !! position = Some r)
             | None => false
             end && bool_decide (accepted_ref (as_store s) !! ai_sequence i = Some r)) EvidenceCorrupt ;;*
      Ok (Some r)
  | None =>
      guard (bool_decide (length (List.filter
               (fun r => (r.1 <=? ai_sequence i) && (ai_sequence i <=? r.2)) (as_retired s)) = 1%nat))
        AckAuthorityError ;;*
      Ok None
  end.

(** [_validate_next_recovered_ack_identity] *)
Definition validate_next_recovered_ack_identity (s : AckStore) (i : AckIdentity) (confirmed_through : Z)
  : result store_exn unit :=
  resolve_recovered_ack_identity s i ;;*
  let live := match sequences (as_store s) !! bisect_right (sequences (as_store s)) confirmed_through with
              | Some q => [q] | None => [] end in
  let retired := map (fun r => Z.max r.1 (confirmed_through + 1))
                   (List.filter (fun r => confirmed_through <? r.2) (as_retired s)) in
  match live ++ retired with
  | [] => Err AckAuthorityError
  | q :: rest =>
      guard (ai_sequence i =? fold_left Z.min rest q) AckAuthorityError ;;*
      guard (ai_sequence i <=? acceptance_cursor s) AckAuthorityError
  end.

(** [_validate_recovered_ack_terminal] *)
Definition validate_recovered_ack_terminal (s : AckStore) (confirmed_through : Z) : result store_exn unit :=
  guard (forallb (fun r => (r.2 <? MAX_UINT64) && (r.2 + 1 <=? confirmed_through)) (as_retired s))
    AckAuthorityError.

(** ** The commitment *)

Inductive ack_phase := Initializing | Ready.

#[export] Instance ack_phase_eq_dec : EqDecision ack_phase.
Proof. solve_decision. Defined.

(** [_AckCommitmentV1] *)
Record AckCommitmentV1 := mkCommitment {
  ac_phase : ack_phase; ac_generation : Z; ac_confirmed : option AckIdentity; ac_prefix_size : Z;
  ac_prefix_sha256 : pystr }.

#[export] Instance AckCommitmentV1_eq_dec : EqDecision AckCommitmentV1.
Proof. solve_decision. Defined.

Definition EMPTY_SHA256 : pystr := sha256_hex [].

(** Its field bounds and [state_is_coherent] *)
Definition commitment_ok (c : AckCommitmentV1) : bool :=
  let genesis := (ac_generation c =? 0) && bool_decide (ac_confirmed c = None) && (ac_prefix_size c =? 0)
                 && bool_decide (ac_prefix_sha256 c = EMPTY_SHA256) in
  (0 <=? ac_generation c) && (ac_generation c <=? MAX_UINT64)
  && match ac_confirmed c with
     | Some i => (1 <=? ai_sequence i) && (ai_sequence i <=? MAX_UINT64) && EVENT_ID (ai_event_id i)
                 && HEX64 (ai_content i)
     | None => true
     end
  && (0 <=? ac_prefix_size c) && (ac_prefix_size c <=? MAX_UINT64) && HEX64 (ac_prefix_sha256 c)
  && match ac_phase c with
     | Initializing => genesis
     | Ready => genesis || negb ((ac_generation c =? 0) || bool_decide (ac_confirmed c = None) || (ac_prefix_size c =? 0))
     end.

(** [_ack_genesis_commitment] *)
Definition ack_genesis_commitment (phase : ack_phase) : AckCommitmentV1 := mkCommitment phase 0 None 0 EMPTY_SHA256.

(** ** The journal *)

Inductive ack_exn :=
| AckJournalCorrupt | AckJournalStateError | AckJournalAuthorityError | AckJournalUnhealthy
| AckOSError | AckStoreError (e : store_exn) | AckPyError (e : py_exn).

(** Open, closing with resources that could not be released, or closed *)
Inductive ack_life := Live | Closing | Closed.

#[export] Instance ack_life_eq_dec : EqDecision ack_life.
Proof. solve_decision. Defined.

(** What is on the disk *)
Record ack_disk := mkDisk { dk_commitment : option AckCommitmentV1; dk_journal : option bytes }.

Record AckJournal := mkAckJournal {
  a_file : bytes; a_commitment : AckCommitmentV1; a_hashed : bytes; a_previous : bytes;
  a_confirmed : option AckIdentity; a_pending : option AckIdentity; a_healthy : bool; a_life : ack_life;
  a_generation : Z; a_prefix_size : Z; a_prefix_sha256 : pystr; a_delivery : option token;
  a_retention : option token; a_revision : Z; a_tripped : bool }.

Definition disk_of (j : AckJournal) : ack_disk := mkDisk (Some (a_commitment j)) (Some (a_file j)).

(** The file and the committed prefix after an append or a publication *)
Definition with_ack_file file hashed previous (j : AckJournal) : AckJournal :=
  mkAckJournal file (a_commitment j) hashed previous (a_confirmed j) (a_pending j) (a_healthy j) (a_life j)
    (a_generation j) (a_prefix_size j) (a_prefix_sha256 j) (a_delivery j) (a_retention j) (a_revision j)
    (a_tripped j).
Definition with_commitment c (j : AckJournal) : AckJournal :=
  mkAckJournal (a_file j) c (a_hashed j) (a_previous j) (a_confirmed j) (a_pending j) (a_healthy j) (a_life j)
    (a_generation j) (a_prefix_size j) (a_prefix_sha256 j) (a_delivery j) (a_retention j) (a_revision j)
    (a_tripped j).
Definition with_state confirmed pending (j : AckJournal) : AckJournal :=
  mkAckJournal (a_file j) (a_commitment j) (a_hashed j) (a_previous j) confirmed pending (a_healthy j)
    (a_life j) (a_generation j) (a_prefix_size j) (a_prefix_sha256 j) (a_delivery j) (a_retention j)
    (a_revision j) (a_tripped j).
Definition with_prefix generation size sha (j : AckJournal) : AckJournal :=
  mkAckJournal (a_file j) (a_commitment j) (a_hashed j) (a_previous j) (a_confirmed j) (a_pending j)
    (a_healthy j) (a_life j) generation size sha (a_delivery j) (a_retention j) (a_revision j) (a_tripped j).
Definition with_leases delivery retention revision (j : AckJournal) : AckJournal :=
  mkAckJournal (a_file j) (a_commitment j) (a_hashed j) (a_previous j) (a_confirmed j) (a_pending j)
    (a_healthy j) (a_life j) (a_generation j) (a_prefix_size j) (a_prefix_sha256 j) delivery retention
    revision (a_tripped j).
Definition with_health healthy life revision tripped (j : AckJournal) : AckJournal :=
  mkAckJournal (a_file j) (a_commitment j) (a_hashed j) (a_previous j) (a_confirmed j) (a_pending j)
    healthy life (a_generation j) (a_prefix_size j) (a_prefix_sha256 j) (a_delivery j) (a_retention j)
    revision tripped.

(** [_bump_mutation_revision_locked] *)
Definition bump (j : AckJournal) : AckJournal :=
  with_leases (a_delivery j) (a_retention j) (a_revision j + 1) j.

(** [_mark_unhealthy_locked] *)
Definition mark_unhealthy (j : AckJournal) : AckJournal :=
  with_health false (a_life j) (if a_healthy j then a_revision j + 1 else a_revision j) (a_tripped j) j.

(** [_latch_corruption_locked], with the fence that the store is given when the lock is left *)
Definition latch_corruption (j : AckJournal) : AckJournal :=
  let j := mark_unhealthy j in with_health (a_healthy j) (a_life j) (a_revision j) true j.

(** What [_validate_ack_journal_owner] of the store does, and whether the file is the one
    the journal holds ([_bind_published_or_latch]) *)
Inductive owner_check := OwnerOk | OwnerIoUncertain | OwnerCorrupt | OwnerStateError | OwnerRefused (e : store_exn).

Record ack_env := mkEnv { env_owner : owner_check; env_bound : bool }.

(** [_bind_published_or_latch] *)
Definition bind_published_or_latch (bound : bool) (j : AckJournal) : AckJournal * result ack_exn unit :=
  if bound then (j, Ok tt) else (latch_corruption j, Err AckJournalCorrupt).

(** [_require_usable] *)
Definition require_ack_usable (env : ack_env) (j : AckJournal) : AckJournal * result ack_exn unit :=
  if negb (bool_decide (a_life j = Live)) then (j, Err AckJournalStateError)
  else if negb (a_healthy j) then (j, Err AckJournalUnhealthy)
  else match env_owner env with
  | OwnerIoUncertain => (mark_unhealthy j, Err AckOSError)
  | OwnerCorrupt => (latch_corruption j, Err AckJournalCorrupt)
  | OwnerStateError => (j, Err AckJournalStateError)
  | OwnerRefused e => (j, Err (AckStoreError e))
  | OwnerOk => bind_published_or_latch (env_bound env) j
  end.

Definition through (i : option AckIdentity) : Z := match i with Some i => ai_sequence i | None => 0 end.

(** [except _AckAuthorityError] *)
Definition authority {A} (r : result store_exn A) : result ack_exn A :=
  match r with
  | Ok a => Ok a
  | Err AckAuthorityError => Err AckJournalAuthorityError
  | Err e => Err (AckStoreError e)
  end.

(** How an append ends: done; the file is not the one held, before or after the write; or
    writing or synchronising fails with some bytes of the frame in the file *)
Inductive ack_append := Appended | UnboundBefore | ChangedDuring (written : nat) | WriteFailed (written : nat).

(** How the publication of a commitment ends: done, or failed with the file replaced or not,
    which is reported as corruption or as an error of the system *)
Inductive publication := Published | PublishFailed (replaced corrupt : bool).

Section Ack.
Context (crc32c : bytes -> Z).

(** [_append] *)
Definition ack_append_record (kind : ack_kind) (i : AckIdentity) (a : ack_append) (j : AckJournal)
  : AckJournal * result ack_exn unit :=
  let framed :=
    let* raw := catch_with AckPyError (canonical_json (JObj (ack_record_dump (mkAckRecord kind i)))) in
    catch_with (fun _ => AckPyError ValueError) (encode_frame crc32c raw (a_previous j) MAX_ACK_RECORD_BYTES) in
  match framed with
  | Err e => (j, Err e)
  | Ok frame =>
      match a with
      | UnboundBefore => (latch_corruption j, Err AckJournalCorrupt)
      | ChangedDuring n =>
          (latch_corruption (with_ack_file (a_file j ++ take n frame) (a_hashed j) (a_previous j) j), Err AckJournalCorrupt)
      | WriteFailed n =>
          (mark_unhealthy (with_ack_file (a_file j ++ take n frame) (a_hashed j) (a_previous j) j), Err AckOSError)
      | Appended =>
          (with_ack_file (a_file j ++ frame) (a_hashed j ++ frame) (drop (length frame - 32) frame) j, Ok tt)
      end
  end.

(** [_record_pending_locked] *)
Definition record_pending_locked (s : AckStore) (r : EvidenceRef) (env : ack_env) (a : ack_append) (j : AckJournal)
  : AckJournal * result ack_exn unit :=
  match require_ack_usable env j with
  | (j, Err e) => (j, Err e)
  | (j, Ok _) =>
      let i := from_ref r in
      match a_pending j with
      | Some pending =>
          if bool_decide (i = pending)
          then (j, authority (SegmentStore_resolve_authenticated_ref (as_store s) r ;;* Ok tt))
          else (j, Err AckJournalStateError)
      | None =>
          match authority (validate_next_ack_ref s r (through (a_confirmed j))) with
          | Err e => (j, Err e)
          | Ok _ =>
              match ack_append_record PendingAck i a j with
              | (j, Err e) => (j, Err e)
              | (j, Ok _) => (with_state (a_confirmed j) (Some i) j, Ok tt)
              end
          end
      end
  end.

(** [record_pending] *)
Definition record_pending (s : AckStore) (r : EvidenceRef) (env : ack_env) (a : ack_append) (j : AckJournal)
  : AckJournal * result ack_exn unit :=
  match a_retention j with
  | Some _ => (j, Err AckJournalStateError)
  | None => record_pending_locked s r env a (bump j)
  end.

(** The checks of [_publish_ack_ready_generation] before the file is replaced *)
Definition publishable (recovering : bool) (s : AckStore) (current : AckCommitmentV1) (file : bytes)
    (c : AckCommitmentV1) (i : AckIdentity) : result ack_exn unit :=
  guard (bool_decide (ac_phase current = Ready) && (ac_generation c =? ac_generation current + 1))
    AckJournalCorrupt ;;*
  match (if recovering then resolve_recovered_ack_identity s i
         else (let* r := validate_ack_identity s i in Ok (Some r))) with
  | Ok r => guard (match r with Some r => bool_decide (from_ref r = i) | None => true end) AckJournalCorrupt
  | Err AckAuthorityError => Err AckJournalCorrupt
  | Err e => Err (AckStoreError e)
  end ;;*
  guard ((ac_prefix_size c <=? Z.of_nat (length file))
         && bool_decide (sha256_hex (take (Z.to_nat (ac_prefix_size c)) file) = ac_prefix_sha256 c))
    AckJournalCorrupt ;;*
  guard (commitment_ok c) (AckPyError ValueError).

(** [_publish_ack_ready_generation]: the commitment on the disk and the result *)
Definition publish_ack_ready_generation (recovering : bool) (s : AckStore) (current : AckCommitmentV1)
    (file : bytes) (c : AckCommitmentV1) (i : AckIdentity) (p : publication)
  : AckCommitmentV1 * result ack_exn unit :=
  match publishable recovering s current file c i with
  | Err e => (current, Err e)
  | Ok _ =>
      match p with
      | Published => (c, Ok tt)
      | PublishFailed replaced corrupt =>
          (if replaced then c else current, Err (if corrupt then AckJournalCorrupt else AckOSError))
      end
  end.

(** [_record_confirmed_locked] *)
Definition record_confirmed_locked (s : AckStore) (r : EvidenceRef) (env : ack_env) (a : ack_append)
    (p : publication) (j : AckJournal) : AckJournal * result ack_exn unit :=
  match require_ack_usable env j with
  | (j, Err e) => (j, Err e)
  | (j, Ok _) =>
      let i := from_ref r in
      match a_pending j with
      | None =>
          if bool_decide (Some i = a_confirmed j)
          then (j, authority (SegmentStore_resolve_authenticated_ref (as_store s) r ;;* Ok tt))
          else (j, Err AckJournalStateError)
      | Some pending =>
          if negb (bool_decide (i = pending)) then (j, Err AckJournalStateError)
          else match authority (validate_ack_identity s i ;;*
                                SegmentStore_resolve_authenticated_ref (as_store s) r ;;* Ok tt) with
          | Err e => (j, Err e)
          | Ok _ =>
              match ack_append_record ConfirmedAck i a j with
              | (j, Err e) => (j, Err e)
              | (j, Ok _) =>
                  let c := mkCommitment Ready (a_generation j + 1) (Some i) (Z.of_nat (length (a_hashed j)))
                             (sha256_hex (a_hashed j)) in
                  match publish_ack_ready_generation false s (a_commitment j) (a_file j) c i p with
                  | (published, Err AckJournalCorrupt) =>
                      (latch_corruption (with_commitment published j), Err AckJournalCorrupt)
                  | (published, Err e) => (mark_unhealthy (with_commitment published j), Err e)
                  | (published, Ok _) =>
                      (with_state (Some i) None (with_prefix (ac_generation c) (ac_prefix_size c)
                         (ac_prefix_sha256 c) (with_commitment published j)), Ok tt)
                  end
              end
          end
      end
  end.

(** [record_confirmed] *)
Definition record_confirmed (s : AckStore) (r : EvidenceRef) (env : ack_env) (a : ack_append) (p : publication)
    (j : AckJournal) : AckJournal * result ack_exn unit :=
  match a_retention j with
  | Some _ => (j, Err AckJournalStateError)
  | None => record_confirmed_locked s r env a p (bump j)
  end.

(** ** Recovery *)

(** [_ConfirmedBoundary] *)
Record ConfirmedBoundary := mkBoundaryAt {
  cb_generation : Z; cb_confirmed : option AckIdentity; cb_prefix_size : Z; cb_prefix_sha256 : pystr }.

(** The loop variables of [_recover] *)
Record ack_recovery := mkAckRecovery {
  av_confirmed : option AckIdentity; av_pending : option AckIdentity; av_previous : bytes; av_hashed : bytes;
  av_generation : Z; av_boundaries : list ConfirmedBoundary }.

Definition ack_recovery_start : ack_recovery :=
  mkAckRecovery None None zero_hash [] 0 [mkBoundaryAt 0 None 0 EMPTY_SHA256].

(** [_decode_frame_record] *)
Definition decode_ack_record (raw : bytes) : result ack_exn AckJournalRecordV1 :=
  let* record := catch_with (fun _ => AckJournalCorrupt)
    (decode_strict ack_record_keys ack_record_validate raw MAX_ACK_RECORD_BYTES) in
  let* encoded := catch_with AckPyError (canonical_json (JObj (ack_record_dump record))) in
  guard (bool_decide (raw = encoded)) AckJournalCorrupt ;;* Ok record.

(** [except _AckAuthorityError] of [_recover_frame] and [_recover] *)
Definition corrupt {A} (r : result store_exn A) : result ack_exn A :=
  match r with
  | Ok a => Ok a
  | Err AckAuthorityError => Err AckJournalCorrupt
  | Err e => Err (AckStoreError e)
  end.

(** [_recover_frame] *)
Definition recover_ack (s : AckStore) (record : AckJournalRecordV1) (confirmed pending : option AckIdentity)
  : result ack_exn (option AckIdentity * option AckIdentity) :=
  let i := ar_identity record in
  match ar_kind record with
  | PendingAck =>
      guard (bool_decide (pending = None)) AckJournalCorrupt ;;*
      corrupt (validate_next_recovered_ack_identity s i (through confirmed)) ;;*
      Ok (confirmed, Some i)
  | ConfirmedAck =>
      guard (bool_decide (pending = Some i)) AckJournalCorrupt ;;*
      corrupt (resolve_recovered_ack_identity s i) ;;*
      Ok (Some i, None)
  end.

(** One round of the loop *)
Definition recover_ack_frame (s : AckStore) (v : ack_recovery) (frame : FrameRecord)
  : result ack_exn ack_recovery :=
  let* record := decode_ack_record (payload frame) in
  let* (confirmed, pending) := recover_ack s record (av_confirmed v) (av_pending v) in
  let* encoded := catch_with (fun _ => AckPyError ValueError)
    (encode_frame crc32c (payload frame) (previous_hash frame) MAX_ACK_RECORD_BYTES) in
  guard (bool_decide (length encoded = size frame)
         && bool_decide (drop (length encoded - 32) encoded = record_hash frame)) AckJournalCorrupt ;;*
  let hashed := av_hashed v ++ encoded in
  match ar_kind record with
  | PendingAck =>
      Ok (mkAckRecovery confirmed pending (record_hash frame) hashed (av_generation v) (av_boundaries v))
  | ConfirmedAck =>
      let generation := av_generation v + 1 in
      Ok (mkAckRecovery confirmed pending (record_hash frame) hashed generation
            (av_boundaries v ++ [mkBoundaryAt generation (Some (ar_identity record))
               (Z.of_nat (length hashed)) (sha256_hex hashed)]))
  end.

Fixpoint recover_ack_frames (s : AckStore) (v : ack_recovery) (frames : list FrameRecord)
  : result ack_exn ack_recovery :=
  match frames with
  | [] => Ok v
  | frame :: frames => let* v := recover_ack_frame s v frame in recover_ack_frames s v frames
  end.

(** [_commitment_matches_boundary] *)
Definition commitment_matches_boundary (c : AckCommitmentV1) (b : ConfirmedBoundary) : bool :=
  (ac_generation c =? cb_generation b) && (ac_prefix_size c =? cb_prefix_size b)
  && bool_decide (ac_prefix_sha256 c = cb_prefix_sha256 b) && bool_decide (ac_confirmed c = cb_confirmed b).

(** How the system answers recovery: all is well, the file changes while it is read, or the
    cut of a torn tail fails, done or not *)
Inductive ack_recover_io := RecoverFine | ChangedDuringRead | RepairFails (cut corrupt : bool).

Definition opened_ack (file : bytes) (c : AckCommitmentV1) (v : ack_recovery) (b : ConfirmedBoundary) : AckJournal :=
  mkAckJournal file c (av_hashed v) (av_previous v) (av_confirmed v) (av_pending v) true Live
    (cb_generation b) (cb_prefix_size b) (cb_prefix_sha256 b) None None 0 false.

(** The boundary the commitment is about, and the commitment after a confirmation that was
    written but not committed is committed *)
Definition settle_commitment (s : AckStore) (c : AckCommitmentV1) (file : bytes) (v : ack_recovery) (torn : bool)
    (p : publication) : AckCommitmentV1 * result ack_exn ConfirmedBoundary :=
  match ac_phase c with
  | Initializing =>
      (c, guard (bool_decide (c = ack_genesis_commitment Initializing) && bool_decide (file = [])
                 && (av_generation v =? 0) && bool_decide (av_pending v = None) && negb torn) AckJournalCorrupt ;;*
          of_option AckJournalCorrupt (head (av_boundaries v)))
  | Ready =>
      match List.find (commitment_matches_boundary c) (av_boundaries v) with
      | None => (c, Err AckJournalCorrupt)
      | Some boundary =>
          let ahead := av_generation v - ac_generation c in
          if (ahead <? 0) || (1 <? ahead) then (c, Err AckJournalCorrupt)
          else if ahead =? 1 then
            if negb (bool_decide (av_pending v = None)) || torn then (c, Err AckJournalCorrupt)
            else match last (av_boundaries v) with
            | Some next =>
                match cb_confirmed next with
                | Some i =>
                    if negb (cb_generation next =? ac_generation c + 1) then (c, Err AckJournalCorrupt)
                    else
                      let d := mkCommitment Ready (cb_generation next) (Some i) (cb_prefix_size next)
                                 (cb_prefix_sha256 next) in
                      let '(c, r) := publish_ack_ready_generation true s c file d i p in
                      (c, r ;;* Ok next)
                | None => (c, Err AckJournalCorrupt)
                end
            | None => (c, Err AckJournalCorrupt)
            end
          else (c, Ok boundary)
      end
  end.

(** [_recover]: the disk it leaves and the journal *)
Definition ack_recover (s : AckStore) (c : AckCommitmentV1) (file : bytes) (chunks : list positive)
    (io : ack_recover_io) (p : publication) : (AckCommitmentV1 * bytes) * result ack_exn AckJournal :=
  let read :=
    corrupt (validate_recovered_ack_terminal s (through (ac_confirmed c))) ;;*
    let '(frames, ending) := iter_frames crc32c (mkStream file chunks) MAX_ACK_RECORD_BYTES in
    let* v := recover_ack_frames s ack_recovery_start frames in
    let* torn := match ending with
                 | Finished => Ok None
                 | Raised (TornTail n) => Ok (Some n)
                 | Raised JournalCorrupt => Err AckJournalCorrupt
                 | Raised FrameValueError => Err (AckPyError ValueError)
                 end in
    guard (match io with ChangedDuringRead => false | _ => true end) AckJournalCorrupt ;;*
    corrupt (validate_recovered_ack_terminal s (through (av_confirmed v))) ;;*
    Ok (v, torn) in
  match read with
  | Err e => ((c, file), Err e)
  | Ok (v, torn) =>
      match settle_commitment s c file v (match torn with Some _ => true | None => false end) p with
      | (c, Err e) => ((c, file), Err e)
      | (c, Ok boundary) =>
          match torn with
          | None => ((c, file), Ok (opened_ack file c v boundary))
          | Some n =>
              match io with
              | RepairFails cut corrupt =>
                  ((c, if cut then take n file else file), Err (if corrupt then AckJournalCorrupt else AckOSError))
              | _ => ((c, take n file), Ok (opened_ack (take n file) c v boundary))
              end
          end
      end
  end.

(** How the creation of the empty file ends *)
Inductive create_end := Created | CreateFails (made corrupt : bool).

(** What the system and the store answer to [_open_bound]: whether the store hands over the
    journal and completes its initialisation, and the ends of its writes *)
Record open_io := mkOpenIo {
  oi_acquired : option ack_exn; oi_initializing : publication; oi_create : create_end;
  oi_chunks : list positive; oi_recover : ack_recover_io; oi_ahead : publication; oi_genesis : publication;
  oi_completed : option ack_exn }.

(** [_publish_ack_ready_genesis] and [_complete_ack_journal_initialization] *)
Definition complete_open (io : open_io) (j : AckJournal) : ack_disk * result ack_exn AckJournal :=
  let finish (j : AckJournal) :=
    (disk_of j, match oi_completed io with Some e => Err e | None => Ok j end) in
  match ac_phase (a_commitment j) with
  | Ready => finish j
  | Initializing =>
      let ready := with_commitment (ack_genesis_commitment Ready) j in
      match oi_genesis io with
      | Published => finish ready
      | PublishFailed replaced corrupt =>
          (disk_of (if replaced then ready else j), Err (if corrupt then AckJournalCorrupt else AckOSError))
      end
  end.

(** The rest of [_open_bound] once the file is open *)
Definition recover_open (s : AckStore) (c : AckCommitmentV1) (file : bytes) (io : open_io)
  : ack_disk * result ack_exn AckJournal :=
  match ack_recover s c file (oi_chunks io) (oi_recover io) (oi_ahead io) with
  | ((c, file), Err e) => (mkDisk (Some c) (Some file), Err e)
  | (_, Ok j) => complete_open io j
  end.

(** [_create_new], then the rest *)
Definition create_and_recover (s : AckStore) (c : AckCommitmentV1) (io : open_io)
  : ack_disk * result ack_exn AckJournal :=
  match oi_create io with
  | CreateFails made corrupt =>
      (mkDisk (Some c) (if made then Some [] else None), Err (if corrupt then AckJournalCorrupt else AckOSError))
  | Created => recover_open s c [] io
  end.

(** [open_and_recover] *)
Definition ack_open_and_recover (s : AckStore) (d : ack_disk) (io : open_io) : ack_disk * result ack_exn AckJournal :=
  match oi_acquired io, dk_commitment d with
  | Some e, _ => (d, Err e)
  | None, None => (d, Err AckJournalCorrupt)
  | None, Some c =>
      match dk_journal d, ac_phase c with
      | Some file, _ => recover_open s c file io
      | None, Initializing => create_and_recover s c io
      | None, Ready => (d, Err AckJournalCorrupt)
      end
  end.

(** [create_new] *)
Definition create_new (s : AckStore) (d : ack_disk) (io : open_io) : ack_disk * result ack_exn AckJournal :=
  match oi_acquired io, dk_commitment d, dk_journal d with
  | Some e, _, _ => (d, Err e)
  | None, None, None =>
      let c := ack_genesis_commitment Initializing in
      match oi_initializing io with
      | Published => create_and_recover s c io
      | PublishFailed replaced _ => (mkDisk (if replaced then Some c else None) None, Err AckJournalCorrupt)
      end
  | None, _, _ => (d, Err AckJournalCorrupt)
  end.

(** ** The other operations *)

Record AckJournalSnapshot := mkAckSnapshot {
  sn_confirmed : option AckIdentity; sn_pending : option AckIdentity; sn_healthy : bool }.

(** [_snapshot_locked]; [env_owner] is what [_validate_ack_commitment_binding] does *)
Definition ack_snapshot (env : ack_env) (j : AckJournal) : AckJournal * result ack_exn AckJournalSnapshot :=
  if negb (bool_decide (a_life j = Live)) then (j, Err AckJournalStateError)
  else
    let '(j, r) :=
      if a_healthy j then
        match env_owner env with
        | OwnerIoUncertain => (mark_unhealthy j, Err AckOSError)
        | OwnerCorrupt => (latch_corruption j, Err AckJournalCorrupt)
        | _ => bind_published_or_latch (env_bound env) j
        end
      else (j, Ok tt) in
    (j, r ;;* Ok (mkAckSnapshot (a_confirmed j) (a_pending j) (a_healthy j))).

(** [pending_request_body] *)
Definition pending_request_body (env : ack_env) (j : AckJournal) : AckJournal * result ack_exn (option bytes) :=
  match require_ack_usable env j with
  | (j, Err e) => (j, Err e)
  | (j, Ok _) =>
      (j, match a_pending j with
          | None => Ok None
          | Some i =>
              let* raw := catch_with AckPyError (canonical_json (JObj
                [(u "schema_version", JStr (u "agmind.observer-ack.v1")); (u "sequence", JInt (ai_sequence i));
                 (u "event_id", JStr (ai_event_id i)); (u "content_sha256", JStr (ai_content i))])) in
              Ok (Some raw)
          end)
  end.

(** [claim_delivery]; [lease] is the new object *)
Definition claim_delivery (env : ack_env) (same_store : bool) (lease : token) (j : AckJournal)
  : AckJournal * result ack_exn token :=
  match require_ack_usable env j with
  | (j, Err e) => (j, Err e)
  | (j, Ok _) =>
      if negb same_store then (j, Err AckJournalAuthorityError)
      else match a_delivery j with
      | Some _ => (j, Err AckJournalStateError)
      | None => (with_leases (Some lease) (a_retention j) (a_revision j) j, Ok lease)
      end
  end.

(** [_release_delivery_claim] of a lease that was not released *)
Definition release_delivery_claim (lease : token) (j : AckJournal) : AckJournal * result ack_exn unit :=
  if negb (bool_decide (a_delivery j = Some lease)) then (j, Err AckJournalStateError)
  else (with_leases None (a_retention j) (a_revision j) j, Ok tt).

(** [_acquire_retention_boundary] *)
Definition acquire_retention_boundary (env snapshot_env : ack_env) (same_store : bool) (confirmed_through : Z)
    (lease : token) (j : AckJournal) : AckJournal * result ack_exn token :=
  if negb (same_store && (1 <=? confirmed_through) && (confirmed_through <=? MAX_UINT64))
  then (j, Err AckJournalAuthorityError)
  else match a_retention j with
  | Some _ => (j, Err AckJournalStateError)
  | None =>
      match require_ack_usable env j with
      | (j, Err e) => (j, Err e)
      | (j, Ok _) =>
          match ack_snapshot snapshot_env j with
          | (j, Err e) => (j, Err e)
          | (j, Ok snapshot) =>
              if negb (sn_healthy snapshot) || negb (bool_decide (sn_pending snapshot = None))
                 || (through (sn_confirmed snapshot) <? confirmed_through)
              then (j, Err AckJournalAuthorityError)
              else (bump (with_leases (a_delivery j) (Some lease) (a_revision j) j), Ok lease)
          end
      end
  end.

(** [_release_retention_boundary] of a lease that was not released *)
Definition release_retention_boundary (lease : token) (j : AckJournal) : AckJournal * result ack_exn unit :=
  if negb (bool_decide (a_retention j = Some lease)) then (j, Err AckJournalStateError)
  else (bump (with_leases (a_delivery j) None (a_revision j) j), Ok tt).

(** What closing meets: the file bound and unchanged, the store's answer to the seal, and the
    release of the resources without error and of the journal by the store *)
Record close_io := mkCloseIo {
  ci_bound : bool; ci_content : bool; ci_seal : owner_check; ci_clean : bool; ci_released : bool }.

(** [_close_resources] *)
Definition close_resources (io : close_io) (j : AckJournal) : AckJournal :=
  with_health (a_healthy j) (if ci_released io then Closed else Closing) (a_revision j) (a_tripped j) j.

(** [close] *)
Definition close_ack (io : close_io) (j : AckJournal) : AckJournal * result ack_exn unit :=
  match a_retention j, a_life j with
  | Some _, _ => (j, Err AckJournalStateError)
  | None, Closed => (j, Ok tt)
  | None, Closing =>
      (close_resources io (bump j), if ci_clean io then Ok tt else Err AckJournalUnhealthy)
  | None, Live =>
      let j := with_leases None None (a_revision j + 1) j in
      let '(j, r) :=
        if negb (a_healthy j) then (j, Ok tt)
        else if negb (ci_bound io && ci_content io && bool_decide (a_file j = a_hashed j))
        then (latch_corruption j, Err AckJournalCorrupt)
        else match ci_seal io with
        | OwnerOk => (j, Ok tt)
        | OwnerIoUncertain => (mark_unhealthy j, Err AckOSError)
        | OwnerCorrupt => (latch_corruption j, Err AckJournalCorrupt)
        | OwnerStateError => (j, Err AckJournalStateError)
        | OwnerRefused e => (j, Err (AckStoreError e))
        end in
      (close_resources io j, r ;;* if ci_clean io then Ok tt else Err AckJournalUnhealthy)
  end.
End Ack.
