(* ===== verification/AckDurability.v ===== *)
(** * Acknowledgements survive crashes, in order

    Proofs about [AckJournal]: evidence is acknowledged in its authenticated order without a
    gap, recovery after a crash or a failed write gives the state before or after the
    interrupted step, a confirmation that was reported is never lost, and a journal that was
    rolled back or replaced is refused. *)

From stdpp Require Import gmap.
From S2P Require Import Prelude.
From S2P Require Import Sha256.
From S2P Require Import CanonicalJson.
From S2P Require Import JsonDecode.
From S2P Require Import Frames.
From S2P Require Import Time.
From S2P Require Import Ipv4.
From S2P Require Import Identities.
From S2P Require Import Contracts.
From S2P Require Import EvidenceStore.
From S2P Require Import Policy.
From S2P Require Import DecisionIntent.
From S2P Require Import DecisionJournal.
From S2P Require Import JsonSize.
From S2P Require Import AckJournal.
Local Open Scope Z_scope.
Local Open Scope agmind_scope.

(** ** Records *)

Definition valid_identity (i : AckIdentity) : bool :=
  (1 <=? ai_sequence i) && (ai_sequence i <=? MAX_UINT64) && EVENT_ID (ai_event_id i) && HEX64 (ai_content i).

Lemma valid_identity_ok i :
  valid_identity i = true <->
  1 <= ai_sequence i <= MAX_UINT64 /\ EVENT_ID (ai_event_id i) = true /\ HEX64 (ai_content i) = true.
Proof. unfold valid_identity. rewrite !andb_true_iff, !Z.leb_le. tauto. Qed.

(** Printable text without quotes and backslashes is quoted as it is. *)
Definition plain (s : pystr) : Prop := Forall (fun c => 32 <= c < 128 /\ c <> 34 /\ c <> 92) s.

Lemma quote_plain s : plain s -> quote s = Ok ([34] ++ s ++ [34]).
Proof.
  intros Hs. apply quote_ok. split.
  - apply valid_str_ascii. eapply Forall_impl; [exact Hs|]. cbv beta. lia.
  - do 2 f_equal. induction Hs as [|c s Hc _ IH]; [done|]. cbn [flat_map]. rewrite <- IH. unfold quote_char.
    by rewrite !(proj2 (Z.eqb_neq _ _)), (proj2 (Z.ltb_ge _ _)) by lia.
Qed.

Lemma hex_plain s : forallb is_hex_lower s = true -> plain s.
Proof. apply forallb_Forall. unfold is_hex_lower. intros c [Hc|Hc]%orb_true_iff; breflect; lia. Qed.

Lemma event_id_plain s : EVENT_ID s = true -> plain s /\ length s = 68%nat.
Proof.
  unfold EVENT_ID, is_prefixed_hex, is_hex. intros H. breflect.
  change (length (u "evt_")) with 4%nat in *. rewrite length_drop in *. split; [|lia].
  rewrite <- (take_drop 4 s). apply Forall_app. split; [|by apply hex_plain].
  match goal with H : take 4 s = _ |- _ => rewrite H end.
  apply (bool_decide_eq_true_1 _). by vm_compute.
Qed.

Lemma content_plain s : HEX64 s = true -> plain s /\ length s = 64%nat.
Proof. unfold HEX64, is_hex. intros H. breflect. split; [by apply hex_plain|done]. Qed.

Definition quoted (s : pystr) : pystr := [34] ++ s ++ [34].

(** The text of a record *)
Definition ack_text (r : AckJournalRecordV1) : pystr :=
  let i := ar_identity r in
  let entry k v := quoted (u k) ++ [58] ++ v in
  [123] ++ join_comma
    [entry "content_sha256" (quoted (ai_content i)); entry "event_id" (quoted (ai_event_id i));
     entry "kind" (quoted (ack_kind_text (ar_kind r))); entry "schema_version" (quoted ACK_RECORD_SCHEMA);
     entry "sequence" (str_of_int (ai_sequence i))] ++ [125].

Lemma ack_encode r :
  valid_identity (ar_identity r) = true -> encode (JObj (ack_record_dump r)) 0 = Ok (ack_text r).
Proof.
  destruct r as [k [n e c]]. intros (Hn & He' & Hc')%valid_identity_ok.
  cbn [ar_identity ai_sequence ai_event_id ai_content] in *.
  destruct (event_id_plain e) as [He _]; [done|]. destruct (content_plain c) as [Hc _]; [done|].
  unfold ack_record_dump, ack_record_fields. cbn [ar_kind ar_identity ai_sequence ai_event_id ai_content dump_of].
  cbn [encode map_res fst snd]. rewrite (quote_plain e He), (quote_plain c Hc).
  rewrite (proj2 (Z.leb_le MIN_CANONICAL_INTEGER n)), (proj2 (Z.leb_le n MAX_CANONICAL_INTEGER))
    by (unfold MIN_CANONICAL_INTEGER, MAX_CANONICAL_INTEGER, MIN_INT64, MAX_UINT64 in *; lia).
  by destruct k.
Qed.

(** Every record of a valid identity fits a frame. *)
Lemma ack_record_fits r :
  valid_identity (ar_identity r) = true ->
  exists raw, canonical_json (JObj (ack_record_dump r)) = Ok raw /\ Z.of_nat (length raw) <= MAX_ACK_RECORD_BYTES.
Proof.
  intros H. pose proof (ack_encode r H) as He. apply valid_identity_ok in H as (Hq & H1 & H2).
  destruct (event_id_plain _ H1) as [P1 L1]. destruct (content_plain _ H2) as [P2 L2].
  assert (Hw : forall s, plain s -> Forall (fun c => 0 <= c < 128) s)
    by (intros s Hs; eapply Forall_impl; [exact Hs|cbv beta; lia]).
  assert (Hn : digits (str_of_int (ai_sequence (ar_identity r)))).
  { unfold str_of_int. destruct (Z.ltb_spec (ai_sequence (ar_identity r)) 0); [lia|].
    by destruct (dec_nonneg_spec (ai_sequence (ar_identity r)) ltac:(lia)) as (_ & ? & _). }
  assert (Ha : Forall (fun c => 0 <= c < 128) (ack_text r)).
  { unfold ack_text, quoted. cbn [join_comma].
    repeat apply Forall_app_2; try (by apply Hw); try (by apply digits_chars);
      try (destruct (ar_kind r)); by apply (bool_decide_eq_true_1 _); vm_compute. }
  destruct (utf8_encode_some (ack_text r) (valid_str_ascii _ Ha)) as [raw Hr]. exists raw.
  unfold canonical_json. rewrite He. cbn [rbind]. rewrite Hr. split; [done|].
  rewrite (utf8_length _ _ Hr), ulen_ascii by done.
  pose proof (str_of_int_len (ai_sequence (ar_identity r))) as Hi.
  rewrite ulen_ascii in Hi by (by apply digits_chars).
  unfold MIN_CANONICAL_INTEGER, MAX_CANONICAL_INTEGER, MIN_INT64 in Hi.
  assert (Hk : (length (ack_kind_text (ar_kind r)) <= 13)%nat) by (destruct (ar_kind r); vm_compute; lia).
  unfold ack_text, quoted. cbn [join_comma]. rewrite !length_app, L1, L2. unfold MAX_ACK_RECORD_BYTES, MAX_UINT64 in *.
  change (length ACK_RECORD_SCHEMA) with 33%nat.
  change (length (u "content_sha256")) with 14%nat. change (length (u "schema_version")) with 14%nat.
  change (length (u "event_id")) with 8%nat. change (length (u "sequence")) with 8%nat.
  change (length (u "kind")) with 4%nat. cbn [length]. lia.
Qed.

Lemma ack_record_nodup : NoDup ack_record_keys.
Proof. apply (bool_decide_eq_true_1 _). by vm_compute. Qed.

Lemma ack_kind_text_inj k k' : ack_kind_text k = ack_kind_text k' -> k = k'.
Proof. by destruct k, k'. Qed.

Lemma ack_record_canon r :
  valid_identity (ar_identity r) = true -> ack_record_validate (canon_obj (ack_record_dump r)) = Ok r.
Proof.
  intros (Hn & He & Hc)%valid_identity_ok.
  assert (Hnd : NoDup (map fst (ack_record_fields r))) by exact ack_record_nodup.
  unfold ack_record_validate, ack_record_dump. do 2 read_canon Hnd.
  eapply rbind_step; [unfold ack_kind_field; read_canon Hnd;
    instantiate (1 := ar_kind r); by destruct (ar_kind r)|cbv beta].
  do 3 read_canon Hnd. rewrite !check_true by done. by destruct r as [k []].
Qed.

Lemma ack_record_sound doc r : ack_record_validate doc = Ok r -> valid_identity (ar_identity r) = true.
Proof.
  unfold ack_record_validate, check. intros H. repeat (apply rbind_ok in H as (? & ? & H)). injection H as <-.
  apply valid_identity_ok. cbn [ar_identity ai_sequence ai_event_id ai_content].
  repeat match goal with H : guard _ _ = Ok _ |- _ => apply guard_ok in H end.
  match goal with H : int_field _ _ _ _ = Ok _ |- _ => rename H into Hs end.
  unfold int_field, check in Hs. repeat case_match; simplify_eq.
  apply rbind_ok in Hs as (? & Hg%guard_ok & Hs). injection Hs as <-. breflect. done.
Qed.

(** The bytes of a record of the journal, and nothing else, are read as that record. *)
Lemma decode_ack_record_iff raw r :
  decode_ack_record raw = Ok r
  <-> valid_identity (ar_identity r) = true /\ canonical_json (JObj (ack_record_dump r)) = Ok raw.
Proof.
  unfold decode_ack_record. split.
  - intros (record & Hd%catch_ok & H)%rbind_ok. apply rbind_ok in H as (e & He%catch_ok & H).
    apply rbind_ok in H as (? & Hg%guard_ok%bool_decide_eq_true & [= <-]). subst e. split; [|done].
    unfold decode_strict in Hd. do 3 apply rbind_ok in Hd as (? & _ & Hd). by eapply ack_record_sound.
  - intros [Hv Hraw]. destruct (ack_record_fits r Hv) as (raw' & Hraw' & Hl).
    rewrite Hraw in Hraw'. injection Hraw' as <-.
    assert (Hnd : NoDup (map fst (ack_record_fields r))) by exact ack_record_nodup.
    assert (Hd : decode_strict ack_record_keys Ok raw MAX_ACK_RECORD_BYTES = Ok (canon_obj (ack_record_dump r))).
    { apply decode_strict_canon; [apply flat_unique; [exact Hnd|unfold ack_record_fields; flat_fields]|done..| |].
      - apply required_present; [exact Hnd|reflexivity].
      - by apply no_nulls. }
    assert (Hv' : decode_strict ack_record_keys ack_record_validate raw MAX_ACK_RECORD_BYTES = Ok r).
    { revert Hd. unfold decode_strict. intros Hd.
      repeat (apply rbind_ok in Hd as (? & E & Hd); rewrite E; clear E; cbn [rbind]). injection Hd as ->.
      by apply ack_record_canon. }
    rewrite Hv'. cbn [catch_with rbind]. rewrite Hraw. cbn [catch_with rbind]. by rewrite bool_decide_eq_true_2.
Qed.

(** ** Authenticated evidence *)

Lemma filter_none {A} (P : A -> Prop) `{forall x, Decision (P x)} l :
  (forall x, x ∈ l -> ~ P x) -> filter P l = [].
Proof.
  intros Hl. induction l as [|x l IH]; [done|]. rewrite filter_cons_False by (apply Hl; left).
  apply IH. intros y Hy. apply Hl. by right.
Qed.

(** The first element beyond a bound *)
Definition next_after (a q : Z) (l : list Z) : Prop := q ∈ l /\ a < q /\ forall x, x ∈ l -> a < x -> q <= x.

Lemma next_after_unique a q q' l : next_after a q l -> next_after a q' l -> q = q'.
Proof. intros (H1 & H2 & H3) (H4 & H5 & H6). specialize (H3 _ H4 H5). specialize (H6 _ H1 H2). lia. Qed.

Lemma bisect_next l a q :
  StronglySorted Z.lt l -> l !! bisect_right l a = Some q <-> next_after a q l.
Proof.
  intros Hs. assert (Hf : forall q, l !! bisect_right l a = Some q -> next_after a q l).
  { induction Hs as [|x l Hs IH Hx]; [done|]. rewrite Forall_forall in Hx. unfold bisect_right in *.
    rewrite filter_cons. intros q'. destruct (decide (x <= a)) as [Hle|Hgt].
    - intros (H1 & H2 & H3)%IH. split_and!; [by right|done|]. intros y [->|Hy]%elem_of_cons; [lia|auto].
    - assert (E : filter (fun q => q <= a) l = []).
      { apply filter_none. intros y Hy%Hx. lia. }
      rewrite E. intros [= <-]. split_and!; [left|lia|]. intros y [->|Hy%Hx]%elem_of_cons; lia. }
  split; [apply Hf|]. intros Hn. destruct (l !! bisect_right l a) as [q'|] eqn:E.
  - by rewrite (next_after_unique a q q' l) by auto.
  - exfalso. clear Hf. induction Hs as [|x l Hs IH Hx]; [by destruct Hn as [Hn%elem_of_nil _]|].
    rewrite Forall_forall in Hx. destruct Hn as (H1 & H2 & H3). unfold bisect_right in *.
    rewrite filter_cons in E. destruct (decide (x <= a)) as [Hle|Hgt].
    + apply elem_of_cons in H1 as [->|H1]; [lia|]. apply IH; unfold next_after; auto 6 using list_elem_of_further.
    + assert (E' : filter (fun q => q <= a) l = []).
      { apply filter_none. intros y Hy%Hx. lia. }
      by rewrite E' in E.
Qed.

(** The evidence of a store that was authenticated, in the order of its sequences: each
    sequence is live or in one retired range, and a retired range has no gaps. *)
Record authentic (s : AckStore) (order : list AckIdentity) : Prop := mkAuthentic {
  au_ready : require_authenticated_recovered (as_store s) = Ok tt;
  au_sorted : StronglySorted Z.lt (map ai_sequence order);
  au_valid : Forall (fun i => valid_identity i = true) order;
  au_live_sorted : StronglySorted Z.lt (sequences (as_store s));
  au_live q : q ∈ sequences (as_store s) <-> is_Some (index (as_store s) !! q);
  au_ref q r : index (as_store s) !! q = Some r ->
    from_ref r ∈ order /\ ref_source_sequence r = q /\ accepted_ref (as_store s) !! q = Some r
    /\ exists position record, record_positions (as_store s) !! q = Some position
         /\ stored_records (as_store s) !! position = Some record /\ ref record = r;
  au_cover i : i ∈ order -> index (as_store s) !! ai_sequence i = None ->
    length (List.filter (fun r => (r.1 <=? ai_sequence i) && (ai_sequence i <=? r.2)) (as_retired s)) = 1%nat;
  au_retired a b : (a, b) ∈ as_retired s ->
    a <= b /\ forall q, a <= q <= b -> q ∈ map ai_sequence order }.

(** What may be acknowledged: the evidence before the first hole *)
Definition accepted (s : AckStore) (order : list AckIdentity) : list AckIdentity :=
  filter (fun i => ai_sequence i <= acceptance_cursor s) order.

(** Only evidence before the last committed acknowledgement was retired. *)
Definition retired_below (s : AckStore) (confirmed_through : Z) : Prop :=
  Forall (fun r => r.2 < MAX_UINT64 /\ r.2 + 1 <= confirmed_through) (as_retired s).

Lemma sequence_in i l : i ∈ l -> ai_sequence i ∈ map ai_sequence l.
Proof. intros Hi. apply list_elem_of_fmap. eauto. Qed.

Lemma sorted_lt l1 l2 i j :
  StronglySorted Z.lt (map ai_sequence (l1 ++ l2)) -> i ∈ l1 -> j ∈ l2 -> ai_sequence i < ai_sequence j.
Proof.
  rewrite map_app. intros Hs Hi Hj. by apply (StronglySorted_app_1_elem_of _ _ _ _ _ Hs); apply sequence_in.
Qed.

Lemma in_snoc {A} (l : list A) x : x ∈ l ++ [x].
Proof. apply elem_of_app. right. left. Qed.

Lemma fold_min l q n : n ∈ q :: l -> (forall x, x ∈ q :: l -> n <= x) -> fold_left Z.min l q = n.
Proof.
  revert q. induction l as [|x l IH]; intros q Hn Hle; cbn [fold_left].
  - by apply list_elem_of_singleton in Hn as ->.
  - pose proof (Hle q ltac:(left)). pose proof (Hle x ltac:(right; left)). apply IH.
    + apply elem_of_cons in Hn as [->|[->|Hn]%elem_of_cons]; [..|by right]; apply elem_of_cons; left; lia.
    + intros y [->|Hy]%elem_of_cons; [lia|]. apply Hle. by do 2 right.
Qed.

Section Evidence.
Context (s : AckStore) (order : list AckIdentity) (Hau : authentic s order).

Lemma accepted_prefix : accepted s order `prefix_of` order.
Proof.
  unfold accepted. pose proof (au_sorted _ _ Hau) as Hs. clear Hau.
  induction order as [|i l IH]; [done|]. cbn [map] in Hs. apply StronglySorted_inv in Hs as [Hs Hi].
  rewrite filter_cons. destruct (decide _) as [Hle|Hgt]; [by apply prefix_cons, IH|].
  enough (E : filter (fun j => ai_sequence j <= acceptance_cursor s) l = []) by (rewrite E; apply prefix_nil).
  apply filter_none. intros j Hj%sequence_in. rewrite Forall_forall in Hi.
  specialize (Hi _ Hj). lia.
Qed.

Lemma order_inj i j : i ∈ order -> j ∈ order -> ai_sequence i = ai_sequence j -> i = j.
Proof.
  pose proof (au_sorted _ _ Hau) as Hs. clear Hau. induction order as [|x l IH]; [by intros ?%elem_of_nil|].
  cbn [map] in Hs. apply StronglySorted_inv in Hs as [Hs Hx]. rewrite Forall_forall in Hx.
  assert (Hlt : forall y, y ∈ l -> ai_sequence x < ai_sequence y)
    by (intros y Hy; by apply Hx, sequence_in).
  intros [->|Hi]%elem_of_cons [->|Hj]%elem_of_cons E; [done| | |auto];
    [specialize (Hlt _ Hj)|specialize (Hlt _ Hi)]; lia.
Qed.

Lemma order_next hist i :
  hist ++ [i] `prefix_of` order -> next_after (through (last hist)) (ai_sequence i) (map ai_sequence order).
Proof.
  intros [rest E]. pose proof (au_sorted _ _ Hau) as Hs. pose proof (au_valid _ _ Hau) as Hv.
  assert (Hb : forall j, j ∈ hist -> ai_sequence j <= through (last hist)).
  { intros j Hj. destruct (last hist) as [z|] eqn:Hz; [|apply last_None in Hz; subst; by apply elem_of_nil in Hj].
    apply last_Some in Hz as [h ->]. apply elem_of_app in Hj as [Hj|Hj%list_elem_of_singleton]; [|subst; cbn; lia].
    rewrite E, <- !app_assoc in Hs. apply Z.lt_le_incl. eapply sorted_lt; [exact Hs|done|left]. }
  assert (Ha : forall j, j ∈ [i] ++ rest -> through (last hist) < ai_sequence j /\ ai_sequence i <= ai_sequence j).
  { intros j Hj. assert (Hvj : valid_identity j = true).
    { rewrite Forall_forall in Hv. apply Hv. rewrite E, <- app_assoc. apply elem_of_app. by right. }
    apply valid_identity_ok in Hvj as [[H1 _] _]. split.
    - destruct (last hist) as [z|] eqn:Hz; [|cbn; lia]. apply last_Some in Hz as [h ->].
      rewrite E, <- app_assoc in Hs. eapply sorted_lt; [exact Hs|apply in_snoc|done].
    - apply elem_of_app in Hj as [Hj%list_elem_of_singleton|Hj]; [subst; lia|]. apply Z.lt_le_incl.
      rewrite E in Hs. eapply sorted_lt; [exact Hs|apply in_snoc|done]. }
  split_and!.
  - apply sequence_in. rewrite E. apply elem_of_app. left. apply in_snoc.
  - apply (Ha i). left.
  - intros x (j & -> & Hj)%list_elem_of_fmap Hx. rewrite E, <- app_assoc in Hj.
    apply elem_of_app in Hj as [Hj|Hj]; [specialize (Hb _ Hj); lia|by apply Ha].
Qed.

Lemma retired_range i :
  i ∈ order -> index (as_store s) !! ai_sequence i = None ->
  exists a b, (a, b) ∈ as_retired s /\ a <= ai_sequence i <= b.
Proof.
  intros Hi E. pose proof (au_cover _ _ Hau i Hi E) as Hone.
  set (f := fun r : Z * Z => (r.1 <=? ai_sequence i) && (ai_sequence i <=? r.2)) in *.
  destruct (List.filter f (as_retired s)) as [|[a b] l] eqn:Ef; [done|].
  assert (Hab : In (a, b) (List.filter f (as_retired s))) by (rewrite Ef; by left).
  apply filter_In in Hab as [Hab Hc]. apply list_elem_of_In in Hab. unfold f in Hc. breflect. by exists a, b.
Qed.

(** A reference that is checked as the next one is the next of the accepted evidence. *)
Lemma next_ack_sound hist r :
  hist `prefix_of` accepted s order -> retired_below s (through (last hist)) ->
  validate_next_ack_ref s r (through (last hist)) = Ok tt ->
  hist ++ [from_ref r] `prefix_of` accepted s order.
Proof.
  intros [rest E] Hret H. unfold validate_next_ack_ref in H. apply rbind_ok in H as (? & _ & H). cbv zeta in H.
  apply rbind_ok in H as (q & Hq%of_option_ok & H). apply rbind_ok in H as (r' & Hr%of_option_ok & H).
  apply rbind_ok in H as (? & Hg%guard_ok & Hc%guard_ok). breflect. subst r'.
  apply (bisect_next _ _ _ (au_live_sorted _ _ Hau)) in Hq as (_ & Hlt & Hmin).
  destruct (au_ref _ _ Hau _ _ Hr) as (Hin & Hseq & _).
  assert (Hacc : from_ref r ∈ accepted s order) by (apply list_elem_of_filter; cbn [from_ref ai_sequence]; by subst q).
  destruct rest as [|i rest].
  { exfalso. rewrite app_nil_r in E. rewrite E in Hacc.
    destruct (last hist) as [z|] eqn:Hz; [|apply last_None in Hz; rewrite Hz in Hacc; by apply elem_of_nil in Hacc].
    apply last_Some in Hz as [h ->]. pose proof accepted_prefix as Hp. rewrite E in Hp.
    pose proof (order_next h z Hp) as (_ & Hz & _). destruct Hp as [t Ht].
    pose proof (au_sorted _ _ Hau) as Hs. rewrite Ht, <- app_assoc in Hs.
    apply elem_of_app in Hacc as [Hh|Hh%list_elem_of_singleton].
    - pose proof (sorted_lt _ _ (from_ref r) z Hs Hh ltac:(left)) as Hz'. cbn [from_ref ai_sequence through] in *. lia.
    - subst z. cbn [from_ref ai_sequence through] in *. lia. }
  assert (Hi : hist ++ [i] `prefix_of` order).
  { etrans; [|apply accepted_prefix]. rewrite E. exists rest. by rewrite <- app_assoc. }
  pose proof (order_next hist i Hi) as (Hiq & Hi1 & Hi2).
  enough (Ei : i = from_ref r) by (subst i; rewrite E; exists rest; by rewrite <- app_assoc).
  assert (Hio : i ∈ order) by (destruct Hi as [t ->]; apply elem_of_app; left; apply in_snoc).
  apply order_inj; [done..|]. cbn [from_ref ai_sequence]. rewrite Hseq.
  assert (ai_sequence i <= q).
  { apply Hi2; [|done]. subst q. by apply (sequence_in (from_ref r)). }
  enough (q <= ai_sequence i) by lia. apply Hmin; [|done]. apply (au_live _ _ Hau).
  destruct (index (as_store s) !! ai_sequence i) eqn:Ex; [done|exfalso].
  destruct (retired_range i Hio Ex) as (a & b & Hab & Hr'). unfold retired_below in Hret.
  rewrite Forall_forall in Hret. specialize (Hret _ Hab). cbn [fst snd] in *. lia.
Qed.

Lemma resolve_recovered_ok i :
  i ∈ order -> exists r, resolve_recovered_ack_identity s i = Ok r /\ (forall e, r = Some e -> from_ref e = i).
Proof.
  intros Hi. unfold resolve_recovered_ack_identity. destruct (index (as_store s) !! ai_sequence i) as [r|] eqn:E.
  - destruct (au_ref _ _ Hau _ _ E) as (Hin & Hseq & Hacc & position & record & Hp & Hr & Href).
    assert (Ei : from_ref r = i) by (apply order_inj; done).
    exists (Some r). split; [|by intros ? [= <-]].
    assert (E1 : ref_event_id r = ai_event_id i) by (by subst i).
    assert (E2 : content_sha256 r = ai_content i) by (by subst i).
    rewrite !bool_decide_eq_true_2 by done. cbn [guard rbind andb]. rewrite Hp, Hr. cbn [fmap option_fmap option_map].
    rewrite Href, !bool_decide_eq_true_2 by done. done.
  - exists None. rewrite bool_decide_eq_true_2 by (by apply (au_cover _ _ Hau)). by split.
Qed.

(** Recovery accepts the next of the accepted evidence, retired or not. *)
Lemma next_recovered_ok hist i :
  hist ++ [i] `prefix_of` accepted s order ->
  validate_next_recovered_ack_identity s i (through (last hist)) = Ok tt.
Proof.
  intros Hp. assert (Ho : hist ++ [i] `prefix_of` order) by (etrans; [exact Hp|apply accepted_prefix]).
  pose proof (order_next hist i Ho) as (Hiq & Hi1 & Hi2). set (c := through (last hist)) in *.
  assert (Hin : i ∈ order) by (destruct Ho as [t ->]; apply elem_of_app; left; apply in_snoc).
  assert (Hcur : ai_sequence i <= acceptance_cursor s).
  { assert (Ha : i ∈ accepted s order) by (destruct Hp as [t ->]; apply elem_of_app; left; apply in_snoc).
    by apply list_elem_of_filter in Ha as [? _]. }
  unfold validate_next_recovered_ack_identity. destruct (resolve_recovered_ok i Hin) as (o & Ho' & _).
  rewrite Ho'. cbn [rbind].
  set (live := match sequences (as_store s) !! bisect_right (sequences (as_store s)) c with Some q => [q] | None => [] end).
  set (retired := map (fun r => Z.max r.1 (c + 1)) (List.filter (fun r => c <? r.2) (as_retired s))).
  assert (Hge : forall q, q ∈ live ++ retired -> ai_sequence i <= q).
  { intros q [Hq|Hq]%elem_of_app.
    - unfold live in Hq. destruct (_ !! _) as [q'|] eqn:E; [|by apply elem_of_nil in Hq].
      apply list_elem_of_singleton in Hq as ->. apply (bisect_next _ _ _ (au_live_sorted _ _ Hau)) in E as (E & Hc & _).
      apply Hi2; [|done]. apply (au_live _ _ Hau) in E as [r Hr]. destruct (au_ref _ _ Hau _ _ Hr) as (Hr1 & <- & _).
      by apply (sequence_in (from_ref r)).
    - apply list_elem_of_fmap in Hq as ([a b] & -> & [Hb Hc]%list_elem_of_In%filter_In). cbn [fst snd] in *.
      apply list_elem_of_In in Hb. destruct (au_retired _ _ Hau _ _ Hb) as [Hab Hq]. breflect.
      apply Hi2; [apply Hq|]; lia. }
  assert (Hmem : ai_sequence i ∈ live ++ retired).
  { apply elem_of_app. destruct (index (as_store s) !! ai_sequence i) as [r|] eqn:E; [left|right].
    - unfold live. rewrite (proj2 (bisect_next _ _ (ai_sequence i) (au_live_sorted _ _ Hau))); [left|].
      split_and!; [by apply (au_live _ _ Hau)|done|]. intros x [r' Hr]%(au_live _ _ Hau) Hx.
      destruct (au_ref _ _ Hau _ _ Hr) as (Hr1 & <- & _). apply Hi2; [by apply (sequence_in (from_ref r'))|done].
    - destruct (retired_range i Hin E) as (a & b & Hab & Hr). unfold retired.
      apply list_elem_of_fmap. exists (a, b). split.
      + cbn [fst]. destruct (au_retired _ _ Hau a b Hab) as [_ Hq].
        specialize (Hi2 (Z.max a (c + 1)) (Hq (Z.max a (c + 1)) ltac:(lia)) ltac:(lia)).
        specialize (Hq a). lia.
      + apply list_elem_of_In, filter_In. split; [by apply list_elem_of_In|]. cbn [snd]. apply Z.ltb_lt. lia. }
  cbv zeta. destruct (live ++ retired) as [|q rest]; [by apply elem_of_nil in Hmem|].
  rewrite (fold_min rest q (ai_sequence i)), Z.eqb_refl by done. cbn [guard rbind].
  by apply guard_ok, Z.leb_le.
Qed.

Lemma retired_terminal c : retired_below s c -> validate_recovered_ack_terminal s c = Ok tt.
Proof.
  intros H. unfold validate_recovered_ack_terminal, retired_below in *. apply guard_ok, forallb_forall.
  intros r Hr%list_elem_of_In. rewrite Forall_forall in H. specialize (H r Hr). apply andb_true_iff.
  split; [apply Z.ltb_lt|apply Z.leb_le]; lia.
Qed.
End Evidence.

(** ** The records of a history of acknowledgements *)

Definition pay (k : ack_kind) (i : AckIdentity) : bytes :=
  match canonical_json (JObj (ack_record_dump (mkAckRecord k i))) with Ok raw => raw | Err _ => [] end.

Lemma pay_ok k i :
  valid_identity i = true ->
  canonical_json (JObj (ack_record_dump (mkAckRecord k i))) = Ok (pay k i)
  /\ Z.of_nat (length (pay k i)) <= MAX_ACK_RECORD_BYTES.
Proof. intros H. destruct (ack_record_fits (mkAckRecord k i) H) as (raw & E & Hl). unfold pay. by rewrite E. Qed.

(** The records of confirmed acknowledgements, and of one that is pending *)
Definition payloads (hist : list AckIdentity) (pend : option AckIdentity) : list bytes :=
  flat_map (fun i => [pay PendingAck i; pay ConfirmedAck i]) hist ++ map (pay PendingAck) (option_list pend).

Definition all_valid (l : list AckIdentity) : Prop := Forall (fun i => valid_identity i = true) l.

Lemma payloads_pending hist i : payloads hist (Some i) = payloads hist None ++ [pay PendingAck i].
Proof. unfold payloads. cbn [option_list map]. by rewrite app_nil_r. Qed.

Lemma payloads_confirmed hist i : payloads (hist ++ [i]) None = payloads hist (Some i) ++ [pay ConfirmedAck i].
Proof. unfold payloads. rewrite flat_map_app. cbn [flat_map option_list map app]. by rewrite app_nil_r, <- app_assoc. Qed.

Lemma payloads_fit hist pend :
  all_valid (hist ++ option_list pend) -> payloads_ok MAX_ACK_RECORD_BYTES (payloads hist pend).
Proof.
  intros [Hh Hp]%Forall_app. unfold payloads_ok, payloads. apply Forall_app. split.
  - induction Hh as [|i hist Hi _ IH]; cbn [flat_map]; [done|]. repeat constructor; [by apply pay_ok..|done].
  - destruct pend as [i|]; [|done]. apply Forall_cons in Hp as [Hp _]. repeat constructor. by apply pay_ok.
Qed.

Lemma max_record_ok : 0 < MAX_ACK_RECORD_BYTES <= 0xFFFFFFFF.
Proof. unfold MAX_ACK_RECORD_BYTES. lia. Qed.

Section Durable.
Context (crc32c : bytes -> Z) (crc_range : forall x, 0 <= crc32c x < 2 ^ 32).

Abbreviation journal_of := (Frames.journal_of crc32c zero_hash).
Abbreviation chain_head := (Frames.chain_head crc32c zero_hash).
Abbreviation frame_of := (Frames.frame_of crc32c).

(** The journal of a history, and the boundary and commitment of its last confirmation *)
Definition ack_file (hist : list AckIdentity) (pend : option AckIdentity) : bytes := journal_of (payloads hist pend).

Definition boundary_at (hist : list AckIdentity) : ConfirmedBoundary :=
  mkBoundaryAt (Z.of_nat (length hist)) (last hist) (Z.of_nat (length (ack_file hist None)))
    (sha256_hex (ack_file hist None)).

Definition boundaries (hist : list AckIdentity) : list ConfirmedBoundary :=
  map (fun n => boundary_at (take n hist)) (seq 0 (S (length hist))).

Definition commitment_of (hist : list AckIdentity) : AckCommitmentV1 :=
  mkCommitment Ready (Z.of_nat (length hist)) (last hist) (Z.of_nat (length (ack_file hist None)))
    (sha256_hex (ack_file hist None)).

Definition recovered (hist : list AckIdentity) (pend : option AckIdentity) : ack_recovery :=
  mkAckRecovery (last hist) pend (chain_head (payloads hist pend)) (ack_file hist pend)
    (Z.of_nat (length hist)) (boundaries hist).

Lemma boundaries_snoc hist i : boundaries (hist ++ [i]) = boundaries hist ++ [boundary_at (hist ++ [i])].
Proof.
  unfold boundaries. rewrite length_app. cbn [length]. rewrite Nat.add_1_r, (seq_S (S (length hist))), map_app.
  cbn [map]. f_equal.
  - apply map_ext_in. intros n Hn%in_seq. by rewrite take_app_le by lia.
  - by rewrite take_ge by (rewrite length_app; cbn; lia).
Qed.

Lemma boundaries_last hist : last (boundaries hist) = Some (boundary_at hist).
Proof.
  unfold boundaries. rewrite seq_S, map_app. cbn [map]. rewrite last_snoc. by rewrite take_ge by (cbn; lia).
Qed.

Lemma ack_file_pending hist i :
  ack_file hist (Some i) = ack_file hist None ++ frame_of (pay PendingAck i) (chain_head (payloads hist None)).
Proof. unfold ack_file. by rewrite payloads_pending, journal_of_snoc. Qed.

Lemma ack_file_confirmed hist i :
  ack_file (hist ++ [i]) None
  = ack_file hist (Some i) ++ frame_of (pay ConfirmedAck i) (chain_head (payloads hist (Some i))).
Proof. unfold ack_file. by rewrite payloads_confirmed, journal_of_snoc. Qed.

Lemma chain_head_snoc ps p : chain_head (ps ++ [p]) = hash_of crc32c p (chain_head ps).
Proof. unfold Frames.chain_head. by rewrite foldl_app. Qed.

Lemma decode_pay k i : valid_identity i = true -> decode_ack_record (pay k i) = Ok (mkAckRecord k i).
Proof. intros H. apply decode_ack_record_iff. split; [done|]. by apply pay_ok. Qed.

(** ** Replay *)

Lemma recover_ack_frames_snoc s v fs f :
  recover_ack_frames crc32c s v (fs ++ [f])
  = (let* w := recover_ack_frames crc32c s v fs in recover_ack_frame crc32c s w f).
Proof.
  revert v. induction fs as [|g fs IH]; intros v; cbn [recover_ack_frames app rbind].
  - by destruct (recover_ack_frame crc32c s v f).
  - destruct (recover_ack_frame crc32c s v g); cbn [rbind]; [apply IH|done].
Qed.

(** One frame whose record recovery accepts *)
Lemma recover_ack_frame_ok s v k i prev o confirmed pending :
  valid_identity i = true -> length prev = 32%nat ->
  recover_ack s (mkAckRecord k i) (av_confirmed v) (av_pending v) = Ok (confirmed, pending) ->
  let hashed := av_hashed v ++ frame_of (pay k i) prev in
  let generation := match k with PendingAck => av_generation v | ConfirmedAck => av_generation v + 1 end in
  recover_ack_frame crc32c s v (mkFrame (pay k i) prev (hash_of crc32c (pay k i) prev) o (76 + length (pay k i)))
  = Ok (mkAckRecovery confirmed pending (hash_of crc32c (pay k i) prev) hashed generation
          (match k with
           | PendingAck => av_boundaries v
           | ConfirmedAck => av_boundaries v ++ [mkBoundaryAt generation (Some i) (Z.of_nat (length hashed)) (sha256_hex hashed)]
           end)).
Proof.
  intros Hv Hprev Hr. cbv zeta. unfold recover_ack_frame. cbn [payload previous_hash record_hash size].
  rewrite decode_pay by done. cbn [rbind]. rewrite Hr. cbn [rbind].
  rewrite (proj2 (encode_frame_ok crc32c (pay k i) prev MAX_ACK_RECORD_BYTES (frame_of (pay k i) prev)))
    by (split_and!; try done; by apply pay_ok).
  cbn [catch_with rbind]. rewrite frame_of_length by done.
  replace (76 + length (pay k i) - 32)%nat with (44 + length (pay k i))%nat by lia.
  rewrite frame_of_hash, !bool_decide_eq_true_2 by done. cbn [guard rbind andb ar_kind ar_identity]. by destruct k.
Qed.

(** Recovery replays the journal of a history whose evidence is authenticated. *)
Lemma replay_acks s order hist pend :
  authentic s order -> hist ++ option_list pend `prefix_of` accepted s order ->
  recover_ack_frames crc32c s ack_recovery_start (frames_of crc32c zero_hash 0 (payloads hist pend))
  = Ok (recovered hist pend).
Proof.
  intros Hau.
  assert (Hin : forall l i, l ++ [i] `prefix_of` accepted s order -> i ∈ order /\ valid_identity i = true).
  { intros l i [t E]. assert (Hi : i ∈ order).
    { assert (Ha : i ∈ accepted s order) by (rewrite E; apply elem_of_app; left; apply in_snoc).
      by apply list_elem_of_filter in Ha as [_ ?]. }
    split; [done|]. pose proof (au_valid _ _ Hau) as Hv. rewrite Forall_forall in Hv. by apply Hv. }
  assert (Hpend : forall h, recover_ack_frames crc32c s ack_recovery_start
        (frames_of crc32c zero_hash 0 (payloads h None)) = Ok (recovered h None) ->
      forall i, h ++ [i] `prefix_of` accepted s order ->
      recover_ack_frames crc32c s ack_recovery_start (frames_of crc32c zero_hash 0 (payloads h (Some i)))
      = Ok (recovered h (Some i))).
  { intros h Hh i Hi. destruct (Hin _ _ Hi) as [Hio Hv]. rewrite payloads_pending.
    destruct (frames_of_snoc crc32c zero_hash 0 (payloads h None) (pay PendingAck i)) as [o ->].
    rewrite recover_ack_frames_snoc, Hh. cbn [rbind].
    rewrite (recover_ack_frame_ok s _ PendingAck i _ o (last h) (Some i));
      [|done|apply chain_head_zero_length|].
    - unfold recovered. cbn [av_hashed av_generation av_boundaries].
      by rewrite ack_file_pending, payloads_pending, chain_head_snoc.
    - unfold recover_ack, recovered. cbn [ar_kind ar_identity av_confirmed av_pending].
      rewrite bool_decide_eq_true_2 by done. cbn [guard rbind].
      by rewrite (next_recovered_ok s order Hau h i Hi). }
  revert pend. induction hist as [|i hist IH] using rev_ind; intros pend Hp.
  - destruct pend as [i|]; [|done]. apply Hpend; [done|exact Hp].
  - assert (Hn : hist ++ [i] `prefix_of` accepted s order) by (etrans; [|exact Hp]; by eexists).
    destruct (Hin _ _ Hn) as [Hio Hv].
    assert (Hc : recover_ack_frames crc32c s ack_recovery_start
        (frames_of crc32c zero_hash 0 (payloads (hist ++ [i]) None)) = Ok (recovered (hist ++ [i]) None)).
    { rewrite payloads_confirmed.
      destruct (frames_of_snoc crc32c zero_hash 0 (payloads hist (Some i)) (pay ConfirmedAck i)) as [o ->].
      rewrite recover_ack_frames_snoc, (IH (Some i) Hn). cbn [rbind].
      rewrite (recover_ack_frame_ok s _ ConfirmedAck i _ o (Some i) None);
        [|done|apply chain_head_zero_length|].
      - unfold recovered. cbn [av_hashed av_generation av_boundaries].
        rewrite <- ack_file_confirmed, payloads_confirmed, chain_head_snoc, boundaries_snoc, last_snoc, length_app.
        cbn [length]. unfold boundary_at. rewrite last_snoc, length_app. cbn [length].
        by rewrite (Nat2Z.inj_add (length hist) 1).
      - unfold recover_ack, recovered. cbn [ar_kind ar_identity av_confirmed av_pending].
        rewrite bool_decide_eq_true_2 by done. cbn [guard rbind].
        destruct (resolve_recovered_ok s order Hau i Hio) as (r & -> & _). done. }
    destruct pend as [j|]; [|done]. by apply Hpend.
Qed.

(** ** Reading what is on the disk *)

(** The beginning of a frame that was not written whole *)
Definition torn (ps : list bytes) (t : bytes) : Prop :=
  exists p n, Z.of_nat (length p) <= MAX_ACK_RECORD_BYTES
    /\ (n < length (frame_of p (chain_head ps)))%nat /\ t = take n (frame_of p (chain_head ps)).

Lemma torn_nil ps : torn ps [].
Proof.
  exists [], O. split_and!; [done| |by destruct (frame_of _ _)].
  rewrite frame_of_length by apply chain_head_zero_length. cbn. lia.
Qed.

Lemma journal_prefix_lt ps j :
  (j <= length ps)%nat -> (length (journal_of (take j ps)) <= length (journal_of ps))%nat.
Proof. intros Hj. destruct (journal_take_prefix crc32c ps j) as [tl ->]. rewrite length_app. lia. Qed.

Lemma read_acks ps t chunks :
  payloads_ok MAX_ACK_RECORD_BYTES ps -> torn ps t ->
  iter_frames crc32c (mkStream (journal_of ps ++ t) chunks) MAX_ACK_RECORD_BYTES
  = (frames_of crc32c zero_hash 0 ps,
     if bool_decide (t = []) then Finished else Raised (TornTail (length (journal_of ps)))).
Proof.
  intros Hps (p & n & Hp & Hn & ->). set (f := frame_of p (chain_head ps)) in *.
  set (L := length (journal_of ps)).
  assert (Ef : journal_of ps ++ take n f = take (L + n) (journal_of (ps ++ [p]))).
  { rewrite journal_of_snoc. fold f. rewrite take_app_split by (unfold L; lia). do 2 f_equal. unfold L. lia. }
  unfold iter_frames. rewrite (proj2 (validate_max_frame_ok _ tt) max_record_ok), iter_frames_flat.
  cbn [unread]. rewrite Ef.
  assert (Hlen : (L + n <= length (journal_of (ps ++ [p])))%nat)
    by (rewrite journal_of_snoc, length_app; fold f; unfold L; lia).
  destruct (flat_iter_prefix crc32c crc_range MAX_ACK_RECORD_BYTES (ps ++ [p]) (S (L + n)) zero_hash 0 (L + n))
    as (j & Hj & Hlo & Hhi & Heq);
    [exact max_record_ok|done|apply Forall_app; split; [done|by constructor]|done|lia|].
  assert (j = length ps) as ->.
  { rewrite length_app in Hj, Hhi. cbn [length] in Hj, Hhi.
    destruct (decide (j = S (length ps))) as [->|Hne].
    - rewrite take_ge in Hlo by (rewrite length_app; cbn; lia).
      rewrite journal_of_snoc, length_app in Hlo. fold f in Hlo. unfold L in Hlo. lia.
    - destruct (decide (j = length ps)) as [->|Hne2]; [done|].
      specialize (Hhi ltac:(lia)). rewrite take_app_le in Hhi by lia.
      pose proof (journal_prefix_lt ps (S j) ltac:(lia)). unfold L in Hhi. lia. }
  rewrite take_app_length in Heq. rewrite length_take, Nat.min_l by lia. rewrite Heq. f_equal.
  assert (E : bool_decide ((L + n)%nat = length (journal_of ps)) = bool_decide (take n f = [])).
  { apply bool_decide_ext. fold L. split.
    - intros E. by replace n with O by lia.
    - intros E. apply (f_equal length) in E. rewrite length_take in E. cbn in E. lia. }
  by rewrite E.
Qed.

(** ** Opening *)

Lemma find_first {A} (f : A -> bool) l1 x l2 :
  f x = true -> (forall y, y ∈ l1 -> f y = false) -> List.find f (l1 ++ x :: l2) = Some x.
Proof.
  intros Hx Hl. induction l1 as [|y l1 IH]; cbn [List.find app]; [by rewrite Hx|].
  rewrite (Hl y) by left. apply IH. intros z Hz. apply Hl. by right.
Qed.

(** The commitment of a shorter history is found at its own boundary. *)
Lemma find_boundary hist tl :
  List.find (commitment_matches_boundary (commitment_of hist)) (boundaries (hist ++ tl)) = Some (boundary_at hist).
Proof.
  assert (E : boundaries (hist ++ tl)
    = map (fun n => boundary_at (take n (hist ++ tl))) (seq 0 (length hist))
      ++ boundary_at hist :: map (fun n => boundary_at (take n (hist ++ tl))) (seq (S (length hist)) (length tl))).
  { unfold boundaries. rewrite length_app, <- Nat.add_succ_r, seq_app, map_app, Nat.add_0_l.
    cbn [seq map]. by rewrite take_app_length. }
  rewrite E. apply find_first.
  - unfold commitment_matches_boundary. cbn [commitment_of boundary_at ac_generation ac_prefix_size ac_prefix_sha256
      ac_confirmed cb_generation cb_prefix_size cb_prefix_sha256 cb_confirmed].
    by rewrite !Z.eqb_refl, !bool_decide_eq_true_2.
  - intros y (n & -> & Hn)%list_elem_of_fmap. apply list_elem_of_In, in_seq in Hn.
    unfold commitment_matches_boundary. cbn [commitment_of boundary_at ac_generation cb_generation].
    rewrite length_take, (proj2 (Z.eqb_neq _ _)); [done|]. rewrite length_app. lia.
Qed.

Lemma prefix_valid s order l : authentic s order -> l `prefix_of` accepted s order -> all_valid l.
Proof.
  intros Hau Hp. assert (Ho : l `prefix_of` order) by (etrans; [exact Hp|by apply accepted_prefix]).
  destruct Ho as [t E]. pose proof (au_valid _ _ Hau) as Hv. rewrite E in Hv. by apply Forall_app in Hv as [? _].
Qed.

(** Recovery of a written journal, up to the choice of the boundary *)
Lemma ack_recover_eq s order c hist pend t chunks io p :
  authentic s order -> hist ++ option_list pend `prefix_of` accepted s order ->
  retired_below s (through (ac_confirmed c)) -> retired_below s (through (last hist)) ->
  torn (payloads hist pend) t ->
  ack_recover crc32c s c (ack_file hist pend ++ t) chunks io p =
  match io with
  | ChangedDuringRead => ((c, ack_file hist pend ++ t), Err AckJournalCorrupt)
  | _ =>
      match settle_commitment s c (ack_file hist pend ++ t) (recovered hist pend) (negb (bool_decide (t = []))) p with
      | (c, Err e) => ((c, ack_file hist pend ++ t), Err e)
      | (c, Ok boundary) =>
          match io with
          | RepairFails cut corrupt =>
              if bool_decide (t = [])
              then ((c, ack_file hist pend), Ok (opened_ack (ack_file hist pend) c (recovered hist pend) boundary))
              else ((c, if cut then ack_file hist pend else ack_file hist pend ++ t),
                    Err (if corrupt then AckJournalCorrupt else AckOSError))
          | _ => ((c, ack_file hist pend), Ok (opened_ack (ack_file hist pend) c (recovered hist pend) boundary))
          end
      end
  end.
Proof.
  intros Hau Hp Hc Hh Ht. unfold ack_recover. cbv zeta. rewrite (retired_terminal s _ Hc). cbn [corrupt rbind].
  pose proof (read_acks (payloads hist pend) t chunks (payloads_fit _ _ (prefix_valid _ _ _ Hau Hp)) Ht) as Hr.
  change (journal_of (payloads hist pend)) with (ack_file hist pend) in Hr. rewrite Hr.
  rewrite (replay_acks s order hist pend Hau Hp). cbn [rbind recovered av_confirmed].
  rewrite (retired_terminal s _ Hh).
  assert (Etake : take (length (ack_file hist pend)) (ack_file hist pend ++ t) = ack_file hist pend)
    by apply take_app_length.
  destruct (bool_decide_reflect (t = [])) as [->|Hne]; cbn [rbind negb].
  - rewrite app_nil_r. destruct io as [| |cut bad]; cbn [guard rbind corrupt]; [|done|];
      destruct (settle_commitment _ _ _ _ _ _) as [? []]; done.
  - destruct io as [| |cut bad]; cbn [guard rbind corrupt]; [|done|];
      destruct (settle_commitment _ _ _ _ _ _) as [? []]; rewrite ?Etake; done.
Qed.

Lemma settle_ready s hist pend file t p :
  settle_commitment s (commitment_of hist) file (recovered hist pend) t p = (commitment_of hist, Ok (boundary_at hist)).
Proof.
  unfold settle_commitment. cbn [commitment_of ac_phase recovered av_boundaries].
  pose proof (find_boundary hist []) as E. rewrite app_nil_r in E. rewrite E.
  cbn [ac_generation av_generation]. by rewrite Z.sub_diag.
Qed.

Lemma publish_effect recovering s cur file c i p c' r :
  publish_ack_ready_generation recovering s cur file c i p = (c', r) ->
  (r = Ok tt /\ c' = c) \/ (exists e, r = Err e /\ (c' = cur \/ c' = c)).
Proof.
  unfold publish_ack_ready_generation. destruct (publishable _ _ _ _ _ _); [|intros [= <- <-]; eauto].
  destruct p as [|[]]; intros [= <- <-]; eauto 6.
Qed.

Lemma settle_ahead s hist i file p :
  settle_commitment s (commitment_of hist) file (recovered (hist ++ [i]) None) false p =
  (let '(c, r) := publish_ack_ready_generation true s (commitment_of hist) file (commitment_of (hist ++ [i])) i p in
   (c, r ;;* Ok (boundary_at (hist ++ [i])))).
Proof.
  unfold settle_commitment. cbn [commitment_of ac_phase recovered av_boundaries].
  pose proof (find_boundary hist [i]) as E. rewrite E. clear E.
  assert (Eg : av_generation (recovered (hist ++ [i]) None) = ac_generation (commitment_of hist) + 1)
    by (cbn [recovered av_generation commitment_of ac_generation]; rewrite length_app; cbn; lia).
  rewrite Eg, Z.add_simpl_l. cbn [Z.ltb Z.eqb Z.compare Pos.compare Pos.compare_cont Pos.eqb orb].
  rewrite bool_decide_eq_true_2 by done. cbn [negb orb]. rewrite boundaries_last.
  assert (Ec : cb_confirmed (boundary_at (hist ++ [i])) = Some i) by apply last_snoc. rewrite Ec.
  change (cb_generation (boundary_at (hist ++ [i]))) with (av_generation (recovered (hist ++ [i]) None)).
  rewrite Eg, Z.eqb_refl, <- Eg. cbn [negb].
  assert (Ed : commitment_of (hist ++ [i]) = mkCommitment Ready (av_generation (recovered (hist ++ [i]) None))
    (Some i) (cb_prefix_size (boundary_at (hist ++ [i]))) (cb_prefix_sha256 (boundary_at (hist ++ [i]))))
    by (unfold commitment_of; by rewrite last_snoc). by rewrite Ed.
Qed.

(** What is on the disk when the journal holds confirmed acknowledgements and, maybe, a
    pending one *)
Inductive on_disk : ack_disk -> list AckIdentity -> option AckIdentity -> Prop :=
| disk_fresh : on_disk (mkDisk None None) [] None
| disk_initializing file : (file = None \/ file = Some []) ->
    on_disk (mkDisk (Some (ack_genesis_commitment Initializing)) file) [] None
| disk_ready hist pend t : torn (payloads hist pend) t ->
    on_disk (mkDisk (Some (commitment_of hist)) (Some (ack_file hist pend ++ t))) hist pend
| disk_ahead hist i :
    on_disk (mkDisk (Some (commitment_of hist)) (Some (ack_file (hist ++ [i]) None))) (hist ++ [i]) None.

(** A journal in memory that agrees with its history *)
Record agrees (j : AckJournal) (hist : list AckIdentity) (pend : option AckIdentity) : Prop := mkAgrees {
  ag_file : a_file j = ack_file hist pend;
  ag_hashed : a_hashed j = ack_file hist pend;
  ag_previous : a_previous j = chain_head (payloads hist pend);
  ag_confirmed : a_confirmed j = last hist;
  ag_pending : a_pending j = pend;
  ag_commitment : a_commitment j = commitment_of hist;
  ag_generation : a_generation j = Z.of_nat (length hist) }.

Lemma agrees_disk j hist pend : agrees j hist pend -> on_disk (disk_of j) hist pend.
Proof.
  intros H. unfold disk_of. rewrite (ag_commitment _ _ _ H), (ag_file _ _ _ H), <- (app_nil_r (ack_file hist pend)).
  apply disk_ready, torn_nil.
Qed.

Lemma opened_agrees hist pend :
  agrees (opened_ack (ack_file hist pend) (commitment_of hist) (recovered hist pend) (boundary_at hist)) hist pend.
Proof. by split. Qed.

(** The last acknowledgement that is committed *)
Definition committed_through (d : ack_disk) : Z :=
  match dk_commitment d with Some c => through (ac_confirmed c) | None => 0 end.

Lemma retired_mono s c c' : c <= c' -> retired_below s c -> retired_below s c'.
Proof. unfold retired_below. intros Hc H. eapply Forall_impl; [exact H|]. cbv beta. lia. Qed.

Lemma committed_below s order d hist pend :
  authentic s order -> hist ++ option_list pend `prefix_of` accepted s order -> on_disk d hist pend ->
  committed_through d <= through (last hist).
Proof.
  intros Hau Hp Hd. destruct Hd as [|file _|hist pend t _|hist i]; cbn; try lia.
  assert (Ho : hist ++ [i] `prefix_of` order).
  { etrans; [|by apply accepted_prefix]. etrans; [|exact Hp]. by eexists. }
  destruct (order_next s order Hau hist i Ho) as (_ & Hlt & _). rewrite last_snoc. cbn [through]. lia.
Qed.

(** What opening does: the history on the disk stays as it is, and a journal that is
    returned agrees with it. *)
Definition opened (hist : list AckIdentity) (pend : option AckIdentity) (d : ack_disk)
    (out : ack_disk * result ack_exn AckJournal) : Prop :=
  on_disk out.1 hist pend /\ committed_through d <= committed_through out.1
  /\ forall j, out.2 = Ok j -> out.1 = disk_of j /\ agrees j hist pend /\ a_healthy j = true.

Lemma complete_ready hist pend d io j :
  agrees j hist pend -> a_healthy j = true -> committed_through d <= through (last hist) ->
  opened hist pend d (complete_open io j).
Proof.
  intros Hj Hh Hc. unfold complete_open. rewrite (ag_commitment _ _ _ Hj). cbn [commitment_of ac_phase].
  unfold opened. cbn [fst snd]. split_and!; [by apply agrees_disk| |].
  - unfold committed_through at 2, disk_of. cbn [dk_commitment]. by rewrite (ag_commitment _ _ _ Hj).
  - intros j'. destruct (oi_completed io); [done|]. by intros [= <-].
Qed.

Lemma opened_failed hist pend d d' e :
  on_disk d' hist pend -> committed_through d <= committed_through d' -> opened hist pend d (d', Err e).
Proof. intros Hd Hc. by unfold opened. Qed.

Section Opening.
Context (s : AckStore) (order : list AckIdentity) (Hau : authentic s order).

Lemma recover_open_ready hist pend t io :
  hist ++ option_list pend `prefix_of` accepted s order -> retired_below s (through (last hist)) ->
  torn (payloads hist pend) t ->
  opened hist pend (mkDisk (Some (commitment_of hist)) (Some (ack_file hist pend ++ t)))
    (recover_open crc32c s (commitment_of hist) (ack_file hist pend ++ t) io).
Proof.
  intros Hp Hr Ht. unfold recover_open.
  rewrite (ack_recover_eq s order (commitment_of hist) hist pend t (oi_chunks io) (oi_recover io) (oi_ahead io));
    try done. rewrite settle_ready.
  destruct (oi_recover io) as [| |cut corrupt]; [|by apply opened_failed; [constructor|]|].
  - by apply complete_ready; [apply opened_agrees|..].
  - case_bool_decide; [by apply complete_ready; [apply opened_agrees|..]|].
    apply opened_failed; [|done]. destruct cut; [|by constructor].
    rewrite <- (app_nil_r (ack_file hist pend)). apply disk_ready, torn_nil.
Qed.

Lemma recover_open_ahead hist i io :
  hist ++ [i] `prefix_of` accepted s order -> retired_below s (through (last hist)) ->
  opened (hist ++ [i]) None (mkDisk (Some (commitment_of hist)) (Some (ack_file (hist ++ [i]) None)))
    (recover_open crc32c s (commitment_of hist) (ack_file (hist ++ [i]) None) io).
Proof.
  intros Hp Hr. assert (Hlt : through (last hist) <= through (last (hist ++ [i]))).
  { destruct (order_next s order Hau hist i) as (_ & Hlt & _);
      [etrans; [exact Hp|by apply accepted_prefix]|rewrite last_snoc; cbn [through]; lia]. }
  assert (Hd : on_disk (mkDisk (Some (commitment_of (hist ++ [i]))) (Some (ack_file (hist ++ [i]) None))) (hist ++ [i]) None).
  { rewrite <- (app_nil_r (ack_file (hist ++ [i]) None)). apply disk_ready, torn_nil. }
  unfold recover_open.
  pose proof (ack_recover_eq s order (commitment_of hist) (hist ++ [i]) None [] (oi_chunks io) (oi_recover io)
    (oi_ahead io) Hau) as E. cbn [option_list] in E. rewrite !app_nil_r in E.
  rewrite E; [|done..|by eapply retired_mono|apply torn_nil]. clear E.
  rewrite bool_decide_eq_true_2 by done. cbn [negb]. rewrite settle_ahead.
  destruct (publish_ack_ready_generation _ _ _ _ _ _ _) as [c r] eqn:Ep.
  apply publish_effect in Ep as [[-> ->]|(e & -> & [->| ->])]; cbn [rbind];
    destruct (oi_recover io); first
    [ by apply opened_failed; [constructor|done]
    | by apply opened_failed
    | by apply complete_ready; [apply opened_agrees|..] ].
Qed.

Lemma recover_open_initializing io :
  as_retired s = [] ->
  opened [] None (mkDisk (Some (ack_genesis_commitment Initializing)) (Some []))
    (recover_open crc32c s (ack_genesis_commitment Initializing) [] io).
Proof.
  intros Hr. assert (Hb : forall c, retired_below s c) by (intros c; unfold retired_below; by rewrite Hr).
  unfold recover_open.
  pose proof (ack_recover_eq s order (ack_genesis_commitment Initializing) [] None [] (oi_chunks io) (oi_recover io)
    (oi_ahead io) Hau (prefix_nil _) (Hb _) (Hb _) (torn_nil _)) as E.
  change (ack_file [] None ++ []) with ([] : bytes) in E. rewrite E. clear E.
  change (settle_commitment s (ack_genesis_commitment Initializing) [] (recovered [] None) (negb (bool_decide (([] : bytes) = [])))
    (oi_ahead io)) with (ack_genesis_commitment Initializing, @Ok ack_exn _ (boundary_at [])).
  change (ack_file [] None) with ([] : bytes).
  set (j := opened_ack [] (ack_genesis_commitment Initializing) (recovered [] None) (boundary_at [])).
  assert (Hj : opened [] None (mkDisk (Some (ack_genesis_commitment Initializing)) (Some [])) (complete_open io j)).
  { unfold complete_open. change (ac_phase (a_commitment j)) with Initializing.
    assert (Hg : agrees (with_commitment (ack_genesis_commitment Ready) j) [] None) by (by split).
    destruct (oi_genesis io) as [|replaced corrupt].
    - split_and!; [by apply agrees_disk|done|]. intros j'. cbn [snd fst]. destruct (oi_completed io); [done|].
      by intros [= <-].
    - apply opened_failed; [|by destruct replaced]. destruct replaced; [by apply agrees_disk|].
      apply disk_initializing. by right. }
  destruct (oi_recover io); [exact Hj|apply opened_failed; [apply disk_initializing; by right|done]|].
  by rewrite bool_decide_eq_true_2.
Qed.

Lemma retired_none : retired_below s 0 -> as_retired s = [].
Proof.
  unfold retired_below. intros Hr. destruct (as_retired s) as [|[a b] l] eqn:El; [done|].
  apply Forall_cons in Hr as [[_ Hr] _]. cbn in Hr.
  destruct (au_retired _ _ Hau a b) as [Hab Hq]; [rewrite El; left|].
  assert (Ha : a ∈ map ai_sequence order) by (apply Hq; lia). apply list_elem_of_fmap in Ha as (i & -> & Hi).
  pose proof (au_valid _ _ Hau) as Hv. rewrite Forall_forall in Hv. apply Hv, valid_identity_ok in Hi. lia.
Qed.

Lemma create_and_recover_effect d io :
  as_retired s = [] -> committed_through d = 0 ->
  opened [] None d (create_and_recover crc32c s (ack_genesis_commitment Initializing) io).
Proof.
  intros Hn Hd. unfold create_and_recover. destruct (oi_create io) as [|made corrupt].
  - destruct (recover_open_initializing io Hn) as (H1 & H2 & H3). unfold opened. by rewrite Hd.
  - apply opened_failed; [|by rewrite Hd]. apply disk_initializing. destruct made; auto.
Qed.

Lemma open_effect d hist pend io :
  on_disk d hist pend -> hist ++ option_list pend `prefix_of` accepted s order ->
  retired_below s (committed_through d) ->
  opened hist pend d (ack_open_and_recover crc32c s d io).
Proof.
  intros Hd Hp Hr. unfold ack_open_and_recover.
  destruct (oi_acquired io); [by apply opened_failed|].
  destruct Hd as [|file Hf|hist pend t Ht|hist i]; cbn [dk_commitment dk_journal].
  - by apply opened_failed; [constructor|].
  - pose proof (retired_none Hr) as Hn. destruct Hf as [->| ->]; cbn [ack_genesis_commitment ac_phase].
    + by apply create_and_recover_effect.
    + by apply recover_open_initializing.
  - by apply recover_open_ready.
  - cbn [option_list] in Hp. rewrite app_nil_r in Hp. by apply recover_open_ahead.
Qed.

Lemma create_effect d hist pend io :
  on_disk d hist pend -> retired_below s (committed_through d) ->
  opened hist pend d (create_new crc32c s d io).
Proof.
  intros Hd Hr. unfold create_new. destruct (oi_acquired io); [by apply opened_failed|].
  destruct Hd as [|file Hf|hist pend t Ht|hist i]; cbn [dk_commitment dk_journal];
    [|by apply opened_failed; [by constructor|done]..].
  destruct (oi_initializing io) as [|replaced corrupt].
  - apply create_and_recover_effect; [by apply retired_none|done].
  - apply opened_failed; [|by destruct replaced]. destruct replaced; constructor. by left.
Qed.
End Opening.

(** ** The steps of an open journal *)

(** What acknowledging promises: the next accepted evidence becomes pending, and what is
    pending becomes confirmed. *)
Inductive ack_spec (acc : list AckIdentity) :
  list AckIdentity * option AckIdentity -> list AckIdentity * option AckIdentity -> Prop :=
| spec_stay x : ack_spec acc x x
| spec_begin hist i : hist ++ [i] `prefix_of` acc -> ack_spec acc (hist, None) (hist, Some i)
| spec_finish hist i : ack_spec acc (hist, Some i) (hist ++ [i], None).

(** A journal whose disk holds the history, which it agrees with unless it is unhealthy *)
Definition tracks (j : AckJournal) (hist : list AckIdentity) (pend : option AckIdentity) : Prop :=
  on_disk (disk_of j) hist pend /\ (a_healthy j = true -> agrees j hist pend).

Definition content (j : AckJournal) :=
  (a_file j, a_commitment j, a_hashed j, a_previous j, a_confirmed j, a_pending j, a_generation j).

(** Steps that leave the content as it is *)
Definition same_ack (j j' : AckJournal) : Prop :=
  content j' = content j /\ (a_healthy j' = true -> a_healthy j = true).

Lemma same_refl j : same_ack j j.
Proof. by split. Qed.

Lemma same_trans j1 j2 j3 : same_ack j1 j2 -> same_ack j2 j3 -> same_ack j1 j3.
Proof. intros [E1 H1] [E2 H2]. split; [congruence|auto]. Qed.

Lemma same_agrees j j' hist pend : content j' = content j -> agrees j hist pend -> agrees j' hist pend.
Proof. unfold content. intros E [H1 H2 H3 H4 H5 H6 H7]. simplify_eq. split; congruence. Qed.

Lemma same_tracks j j' hist pend : same_ack j j' -> tracks j hist pend -> tracks j' hist pend.
Proof.
  intros [E Hh] [Hd Ha]. split; [|intros H; eapply same_agrees; [exact E|by apply Ha, Hh]].
  assert (Ed : disk_of j' = disk_of j) by (unfold content in E; unfold disk_of; simplify_eq; congruence).
  by rewrite Ed.
Qed.

Lemma same_committed j j' : same_ack j j' -> committed_through (disk_of j') = committed_through (disk_of j).
Proof. intros [E _]. unfold content in E. unfold committed_through, disk_of. cbn. simplify_eq. congruence. Qed.

Lemma same_unhealthy j : same_ack j (mark_unhealthy j).
Proof. by split. Qed.

Lemma same_latch j : same_ack j (latch_corruption j).
Proof. by split. Qed.

Lemma same_bump j : same_ack j (bump j).
Proof. by split. Qed.

Lemma same_leases d r n j : same_ack j (with_leases d r n j).
Proof. by split. Qed.

#[local] Hint Resolve same_refl same_unhealthy same_latch same_bump same_leases : core.

Lemma bind_same bound j : same_ack j (bind_published_or_latch bound j).1.
Proof. destruct bound; cbn; auto. Qed.

Lemma usable_same env j : same_ack j (require_ack_usable env j).1.
Proof.
  unfold require_ack_usable. repeat case_match; cbn [fst]; auto using bind_same.
Qed.

Lemma usable_ok env j j' : require_ack_usable env j = (j', Ok tt) -> j' = j /\ a_healthy j = true.
Proof.
  unfold require_ack_usable, bind_published_or_latch. destruct (a_healthy j); cbn [negb];
    repeat case_match; intros; simplify_eq; done.
Qed.

(** The frame of the next record *)
Definition next_frame_of (k : ack_kind) (i : AckIdentity) (hist : list AckIdentity) (pend : option AckIdentity) : bytes :=
  frame_of (pay k i) (chain_head (payloads hist pend)).

Lemma append_effect k i a j hist pend j' r :
  agrees j hist pend -> valid_identity i = true -> ack_append_record crc32c k i a j = (j', r) ->
  (r = Ok tt /\ j' = with_ack_file (ack_file hist pend ++ next_frame_of k i hist pend)
      (ack_file hist pend ++ next_frame_of k i hist pend) (hash_of crc32c (pay k i) (chain_head (payloads hist pend))) j)
  \/ (exists e n, r = Err e /\ a_healthy j' = false /\ a_commitment j' = commitment_of hist
        /\ a_file j' = ack_file hist pend ++ take n (next_frame_of k i hist pend)).
Proof.
  intros Hj Hv. unfold ack_append_record. cbv zeta. rewrite (proj1 (pay_ok k i Hv)). cbn [catch_with rbind].
  rewrite (ag_previous _ _ _ Hj).
  rewrite (proj2 (encode_frame_ok crc32c (pay k i) (chain_head (payloads hist pend)) MAX_ACK_RECORD_BYTES
    (next_frame_of k i hist pend))).
  2:{ split_and!; [done|done|apply chain_head_zero_length|by apply pay_ok|done]. }
  cbn [catch_with]. rewrite (ag_file _ _ _ Hj), (ag_hashed _ _ _ Hj).
  assert (Ed : drop (length (next_frame_of k i hist pend) - 32) (next_frame_of k i hist pend)
               = hash_of crc32c (pay k i) (chain_head (payloads hist pend))).
  { unfold next_frame_of. rewrite frame_of_length by apply chain_head_zero_length.
    replace (76 + length (pay k i) - 32)%nat with (44 + length (pay k i))%nat by lia.
    apply frame_of_hash, chain_head_zero_length. }
  rewrite Ed. destruct a as [| |n|n]; intros [= <- <-].
  - by left.
  - right. exists AckJournalCorrupt, O. split_and!; [done|done|by apply ag_commitment in Hj|].
    rewrite take_0, app_nil_r. by apply ag_file in Hj.
  - right. exists AckJournalCorrupt, n. split_and!; [done|done|by apply ag_commitment in Hj|done].
  - right. exists AckOSError, n. split_and!; [done|done|by apply ag_commitment in Hj|done].
Qed.

Lemma next_frame_torn k i hist pend n :
  valid_identity i = true -> (n < length (next_frame_of k i hist pend))%nat ->
  torn (payloads hist pend) (take n (next_frame_of k i hist pend)).
Proof. intros Hv Hn. exists (pay k i), n. split_and!; [by apply pay_ok|done|done]. Qed.

Lemma disk_eq j c f : a_commitment j = c -> a_file j = f -> disk_of j = mkDisk (Some c) (Some f).
Proof. by intros <- <-. Qed.

(** What a step leaves: at most one step of the specification, tracked by the journal *)
Definition stepped (acc : list AckIdentity) (j : AckJournal) (hist : list AckIdentity) (pend : option AckIdentity)
    (j' : AckJournal) (ok : list AckIdentity -> option AckIdentity -> Prop) : Prop :=
  exists hist' pend', ack_spec acc (hist, pend) (hist', pend') /\ tracks j' hist' pend'
    /\ committed_through (disk_of j) <= committed_through (disk_of j') /\ ok hist' pend'.

Lemma stepped_same acc j hist pend j' (ok : list AckIdentity -> option AckIdentity -> Prop) :
  same_ack j j' -> tracks j hist pend -> ok hist pend -> stepped acc j hist pend j' ok.
Proof.
  intros Hs Ht Hok. exists hist, pend. split_and!; [constructor|by eapply same_tracks|by rewrite (same_committed j j')|done].
Qed.

Lemma stepped_from acc j0 j hist pend j' ok :
  same_ack j0 j -> stepped acc j hist pend j' ok -> stepped acc j0 hist pend j' ok.
Proof.
  intros Hs (h & p & H1 & H2 & H3 & H4). exists h, p. split_and!; try done. by rewrite <- (same_committed j0 j).
Qed.

Section Steps.
Context (s : AckStore) (order : list AckIdentity) (Hau : authentic s order).

Lemma resolved_ref r x : SegmentStore_resolve_authenticated_ref (as_store s) r = Ok x -> from_ref r ∈ order.
Proof.
  unfold SegmentStore_resolve_authenticated_ref. intros H. apply rbind_ok in H as (? & _ & H).
  apply rbind_ok in H as (? & [H1 _]%guard_ok%andb_true_iff & _). apply bool_decide_eq_true in H1.
  by apply (au_ref _ _ Hau) in H1 as [? _].
Qed.

Lemma order_valid i : i ∈ order -> valid_identity i = true.
Proof. pose proof (au_valid _ _ Hau) as Hv. rewrite Forall_forall in Hv. apply Hv. Qed.

(** An append of the pending record, failed or not *)
Lemma append_pending_effect i a j hist j' r :
  agrees j hist None -> a_healthy j = true -> hist ++ [i] `prefix_of` accepted s order ->
  ack_append_record crc32c PendingAck i a j = (j', r) ->
  stepped (accepted s order) j hist None (match r with Ok _ => with_state (a_confirmed j') (Some i) j' | Err _ => j' end)
    (fun _ pend => r = Ok tt -> pend = Some i).
Proof.
  intros Hj Hh Hp Ha.
  assert (Hi : i ∈ order).
  { destruct (accepted_prefix s order Hau) as [t ->]. apply elem_of_app. left. destruct Hp as [t' ->].
    apply elem_of_app. left. apply in_snoc. }
  pose proof (order_valid i Hi) as Hv. unfold stepped.
  destruct (append_effect _ _ _ _ _ _ _ _ Hj Hv Ha) as [[-> ->]|(e & n & -> & Hu & Hc & Hf)].
  - exists hist, (Some i).
    assert (Hag : agrees (with_state (a_confirmed j) (Some i) (with_ack_file (ack_file hist None ++ next_frame_of PendingAck i hist None)
      (ack_file hist None ++ next_frame_of PendingAck i hist None)
      (hash_of crc32c (pay PendingAck i) (chain_head (payloads hist None))) j)) hist (Some i)).
    { destruct Hj. split; cbn; rewrite ?ack_file_pending, ?payloads_pending, ?chain_head_snoc; done. }
    split_and!; [by constructor|split; [by apply agrees_disk|done]|done|done].
  - assert (Ht : forall pend', on_disk (disk_of j') hist pend' ->
      tracks j' hist pend' /\ committed_through (disk_of j) <= committed_through (disk_of j')).
    { intros pend' Hd. split; [split; [done|by rewrite Hu]|]. unfold committed_through, disk_of. cbn [dk_commitment].
      by rewrite Hc, (ag_commitment _ _ _ Hj). }
    rewrite (disk_eq j' _ _ Hc Hf) in Ht.
    destruct (decide (n < length (next_frame_of PendingAck i hist None))%nat) as [Hn|Hn].
    + exists hist, None. destruct (Ht None); [by apply disk_ready, next_frame_torn|].
      rewrite (disk_eq j' _ _ Hc Hf). split_and!; [constructor|done..].
    + exists hist, (Some i). destruct (Ht (Some i)).
      { rewrite take_ge by lia. unfold next_frame_of. rewrite <- ack_file_pending, <- (app_nil_r (ack_file _ _)).
        apply disk_ready, torn_nil. }
      rewrite (disk_eq j' _ _ Hc Hf). split_and!; [by constructor|done..].
Qed.

Lemma pending_effect r env a j hist pend :
  tracks j hist pend -> hist ++ option_list pend `prefix_of` accepted s order ->
  retired_below s (committed_through (disk_of j)) ->
  stepped (accepted s order) j hist pend (record_pending crc32c s r env a j).1
    (fun _ pend' => (record_pending crc32c s r env a j).2 = Ok tt -> pend' = Some (from_ref r)).
Proof.
  intros Ht Hp Hr. unfold record_pending. destruct (a_retention j); [by apply stepped_same|].
  apply (stepped_from _ j (bump j)); [done|]. pose proof (same_tracks _ _ _ _ (same_bump j) Ht) as Hb.
  rewrite <- (same_committed j (bump j)) in Hr by done. revert Hb Hr. generalize (bump j) as b. clear j Ht.
  intros j Ht Hr. unfold record_pending_locked. pose proof (usable_same env j) as Hs.
  destruct (require_ack_usable env j) as [j' [[]|e]] eqn:Eu; [|by apply stepped_same].
  apply usable_ok in Eu as [-> Hh]. pose proof (proj2 Ht Hh) as Hj. rewrite (ag_pending _ _ _ Hj).
  destruct pend as [i|]; cbn [fst snd].
  - destruct (bool_decide_reflect (from_ref r = i)) as [->|]; by apply stepped_same.
  - destruct (authority _) as [[]|e] eqn:Ev; [|by apply stepped_same].
    rewrite (ag_confirmed _ _ _ Hj) in Ev. cbn [option_list] in Hp. rewrite app_nil_r in Hp.
    assert (Hn : hist ++ [from_ref r] `prefix_of` accepted s order).
    { apply next_ack_sound; [done..| |].
      - unfold committed_through, disk_of in Hr. cbn [dk_commitment] in Hr. by rewrite (ag_commitment _ _ _ Hj) in Hr.
      - by destruct (validate_next_ack_ref _ _ _) as [[]|[]]. }
    pose proof (append_pending_effect (from_ref r) a j hist) as Hap.
    destruct (ack_append_record crc32c PendingAck (from_ref r) a j) as [j' res]. specialize (Hap j' res Hj Hh Hn eq_refl).
    by destruct res as [[]|].
Qed.

(** The commitment of the record that was appended last, published or not *)
Lemma publish_confirmed_effect i p j hist published res j' :
  hist ++ [i] `prefix_of` accepted s order ->
  a_file j = ack_file (hist ++ [i]) None -> a_commitment j = commitment_of hist ->
  publish_ack_ready_generation false s (a_commitment j) (a_file j) (commitment_of (hist ++ [i])) i p = (published, res) ->
  a_file j' = a_file j -> a_commitment j' = published -> (a_healthy j' = true -> agrees j' (hist ++ [i]) None) ->
  tracks j' (hist ++ [i]) None /\ committed_through (disk_of j) <= committed_through (disk_of j').
Proof.
  intros Hp Hf Hc Hpub Ef Ec Hag. split; [split; [|done]|].
  - rewrite (disk_eq j' _ _ Ec Ef), Hf.
    apply publish_effect in Hpub as [[_ ->]|(e & _ & [->| ->])]; rewrite ?Hc; [|constructor|];
      rewrite <- (app_nil_r (ack_file (hist ++ [i]) None)); apply disk_ready, torn_nil.
  - unfold committed_through, disk_of. cbn [dk_commitment]. rewrite Ec, Hc.
    assert (Hlt : through (last hist) <= through (last (hist ++ [i]))).
    { destruct (order_next s order Hau hist i) as (_ & Hlt & _);
        [etrans; [exact Hp|by apply accepted_prefix]|rewrite last_snoc; cbn [through]; lia]. }
    by apply publish_effect in Hpub as [[_ ->]|(e & _ & [->| ->])]; rewrite ?Hc.
Qed.

(** An append of the confirmed record that fails *)
Lemma append_confirmed_failed i j hist j' n (ok : list AckIdentity -> option AckIdentity -> Prop) :
  agrees j hist (Some i) -> valid_identity i = true -> a_healthy j' = false -> a_commitment j' = commitment_of hist ->
  a_file j' = ack_file hist (Some i) ++ take n (next_frame_of ConfirmedAck i hist (Some i)) ->
  (forall h p, ok h p) -> stepped (accepted s order) j hist (Some i) j' ok.
Proof.
  intros Hj Hv Hu Hc Hf Hok.
  assert (Ht : forall h pend, on_disk (disk_of j') h pend ->
    tracks j' h pend /\ committed_through (disk_of j) <= committed_through (disk_of j')).
  { intros h pend Hd. split; [split; [done|by rewrite Hu]|]. unfold committed_through, disk_of. cbn [dk_commitment].
    by rewrite Hc, (ag_commitment _ _ _ Hj). }
  unfold stepped. rewrite (disk_eq j' _ _ Hc Hf) in *.
  destruct (decide (n < length (next_frame_of ConfirmedAck i hist (Some i)))%nat) as [Hn|Hn].
  - exists hist, (Some i). destruct (Ht hist (Some i)); [by apply disk_ready, next_frame_torn|].
    split_and!; [constructor|done..].
  - exists (hist ++ [i]), None. destruct (Ht (hist ++ [i]) None).
    { rewrite take_ge by lia. unfold next_frame_of. rewrite <- ack_file_confirmed. apply disk_ahead. }
    split_and!; [constructor|done..].
Qed.

(** The commitment of a confirmed record that was appended *)
Lemma append_confirmed_done i p j hist :
  agrees j hist (Some i) -> hist ++ [i] `prefix_of` accepted s order ->
  let j1 := with_ack_file (ack_file (hist ++ [i]) None) (ack_file (hist ++ [i]) None)
    (hash_of crc32c (pay ConfirmedAck i) (chain_head (payloads hist (Some i)))) j in
  let c := mkCommitment Ready (a_generation j1 + 1) (Some i) (Z.of_nat (length (a_hashed j1))) (sha256_hex (a_hashed j1)) in
  let out := match publish_ack_ready_generation false s (a_commitment j1) (a_file j1) c i p with
    | (published, Err AckJournalCorrupt) => (latch_corruption (with_commitment published j1), Err AckJournalCorrupt)
    | (published, Err e) => (mark_unhealthy (with_commitment published j1), Err e)
    | (published, Ok _) =>
        (with_state (Some i) None (with_prefix (ac_generation c) (ac_prefix_size c) (ac_prefix_sha256 c)
           (with_commitment published j1)), Ok tt)
    end in
  stepped (accepted s order) j hist (Some i) out.1 (fun hist' _ => out.2 = Ok tt -> last hist' = Some i).
Proof.
  intros Hj Hp j1 c.
  assert (Ec : c = commitment_of (hist ++ [i])).
  { unfold c, commitment_of. rewrite last_snoc, length_app. cbn [j1 with_ack_file a_generation a_hashed length].
    rewrite (ag_generation _ _ _ Hj). f_equal. lia. }
  rewrite Ec. destruct (publish_ack_ready_generation _ _ _ _ _ _ _) as [published res] eqn:Ep.
  assert (Hpub : forall j2, a_file j2 = a_file j1 -> a_commitment j2 = published ->
    (a_healthy j2 = true -> agrees j2 (hist ++ [i]) None) ->
    forall ok : list AckIdentity -> option AckIdentity -> Prop, ok (hist ++ [i]) None ->
    stepped (accepted s order) j hist (Some i) j2 ok).
  { intros j2 H1 H2 H3 ok Hok. exists (hist ++ [i]), None.
    destruct (publish_confirmed_effect i p j1 hist published res j2) as [H4 H5]; try done.
    - by apply ag_commitment in Hj.
    - split_and!; [constructor|done|exact H5|done]. }
  destruct res as [[]|e]; [|destruct e; by apply Hpub].
  apply publish_effect in Ep as Ep'. destruct Ep' as [[_ ->]|(? & [=] & _)].
  apply Hpub; [done|done| |intros _; apply last_snoc].
  intros _. split; cbn [with_state with_prefix with_commitment j1 with_ack_file a_file a_hashed a_previous a_confirmed
    a_pending a_commitment a_generation fst snd]; try done.
  - by rewrite payloads_confirmed, chain_head_snoc.
  - by rewrite last_snoc.
Qed.

Lemma confirmed_effect r env a p j hist pend :
  tracks j hist pend -> hist ++ option_list pend `prefix_of` accepted s order ->
  stepped (accepted s order) j hist pend (record_confirmed crc32c s r env a p j).1
    (fun hist' _ => (record_confirmed crc32c s r env a p j).2 = Ok tt -> last hist' = Some (from_ref r)).
Proof.
  intros Ht Hp. unfold record_confirmed. destruct (a_retention j); [by apply stepped_same|].
  apply (stepped_from _ j (bump j)); [done|]. pose proof (same_tracks _ _ _ _ (same_bump j) Ht) as Hb.
  revert Hb. generalize (bump j) as b. clear j Ht.
  intros j Ht. unfold record_confirmed_locked. pose proof (usable_same env j) as Hs.
  destruct (require_ack_usable env j) as [j' [[]|e]] eqn:Eu; [|by apply stepped_same].
  apply usable_ok in Eu as [-> Hh]. pose proof (proj2 Ht Hh) as Hj.
  rewrite (ag_pending _ _ _ Hj), (ag_confirmed _ _ _ Hj). destruct pend as [i|]; cbn [fst snd].
  2:{ destruct (bool_decide_reflect (Some (from_ref r) = last hist)) as [E|]; by apply stepped_same. }
  destruct (bool_decide_reflect (from_ref r = i)) as [->|]; cbn [negb]; [|by apply stepped_same].
  destruct (authority _) as [[]|e]; [|by apply stepped_same]. cbn [option_list] in Hp.
  assert (Hv : valid_identity i = true).
  { pose proof (prefix_valid _ _ _ Hau Hp) as Hav. apply Forall_app in Hav as [_ Hav].
    by apply Forall_cons in Hav as [? _]. }
  destruct (ack_append_record crc32c ConfirmedAck i a j) as [j' res] eqn:Ea.
  destruct (append_effect _ _ _ _ _ _ _ _ Hj Hv Ea) as [[-> ->]|(e & n & -> & Hu & Hc & Hf)].
  - rewrite <- ack_file_confirmed. by apply append_confirmed_done.
  - by eapply append_confirmed_failed.
Qed.
End Steps.

End Durable.
