(* ===== verification/AckOrder.v ===== *)
(** * Acknowledgements in order, never lost

    The world of the acknowledgement journal: the evidence of the store, the disk, the open
    journal if there is one, and what callers were told.  It may be created, opened, asked to
    record, read, leased and closed with every answer of the system, lose its process at any
    time, and the evidence may grow and be retired below the committed acknowledgement.  The
    theorems relate its steps to the two steps of the specification, [ack_spec]. *)

From stdpp Require Import gmap.
From S2P Require Import Prelude.
From S2P Require Import Sha256.
From S2P Require Import CanonicalJson.
From S2P Require Import JsonDecode.
From S2P Require Import Frames.
From S2P Require Import Time.
From S2P Require Import Ipv4.
From S2P Require Import Identities.
From S2P Require Import Contracts.
From S2P Require Import EvidenceStore.
From S2P Require Import DecisionJournal.
From S2P Require Import JsonSize.
From S2P Require Import AckJournal.
From S2P Require Import AckDurability.
Local Open Scope Z_scope.
Local Open Scope agmind_scope.

Section Order.
Context (crc32c : bytes -> Z) (crc_range : forall x, 0 <= crc32c x < 2 ^ 32).

Abbreviation journal_of := (Frames.journal_of crc32c zero_hash).

(** ** Whatever is opened begins with what was committed *)

Lemma recover_frame_sound s v p prev o w :
  length prev = 32%nat ->
  recover_ack_frame crc32c s v (mkFrame p prev (hash_of crc32c p prev) o (76 + length p)) = Ok w ->
  av_hashed w = av_hashed v ++ frame_of crc32c p prev
  /\ (av_boundaries w = av_boundaries v
      \/ exists i, av_boundaries w = av_boundaries v
           ++ [mkBoundaryAt (av_generation w) i (Z.of_nat (length (av_hashed w))) (sha256_hex (av_hashed w))]).
Proof.
  intros Hprev H. unfold recover_ack_frame in H. cbn [payload previous_hash record_hash size] in H.
  apply rbind_ok in H as (record & _ & H). apply rbind_ok in H as ([confirmed pending] & _ & H).
  apply rbind_ok in H as (encoded & (_ & _ & _ & ->)%catch_ok%encode_frame_ok & H).
  apply rbind_ok in H as (? & _ & H). destruct (ar_kind record); injection H as <-; cbn; eauto.
Qed.

Lemma recover_frames_sound s ps v :
  recover_ack_frames crc32c s ack_recovery_start (frames_of crc32c zero_hash 0 ps) = Ok v ->
  av_hashed v = journal_of ps
  /\ Forall (fun b => exists n, cb_prefix_size b = Z.of_nat (length (journal_of (take n ps)))
       /\ cb_prefix_sha256 b = sha256_hex (journal_of (take n ps))) (av_boundaries v).
Proof.
  revert v. induction ps as [|p ps IH] using rev_ind; intros v.
  - intros [= <-]. split; [done|]. repeat constructor. by exists O.
  - destruct (frames_of_snoc crc32c zero_hash 0 ps p) as [o ->]. rewrite recover_ack_frames_snoc.
    intros (w & Hw & H)%rbind_ok. destruct (IH w Hw) as [Eh Hb].
    apply recover_frame_sound in H as [Eh' Hb']; [|apply chain_head_zero_length].
    assert (E : av_hashed v = journal_of (ps ++ [p])) by (by rewrite Eh', Eh, journal_of_snoc).
    split; [done|].
    assert (Hold : Forall (fun b => exists n, cb_prefix_size b = Z.of_nat (length (journal_of (take n (ps ++ [p]))))
       /\ cb_prefix_sha256 b = sha256_hex (journal_of (take n (ps ++ [p])))) (av_boundaries w)).
    { eapply Forall_impl; [exact Hb|]. intros b (n & H1 & H2). exists (Nat.min n (length ps)).
      rewrite take_app_le by lia. assert (Et : take (Nat.min n (length ps)) ps = take n ps).
      { destruct (decide (n <= length ps)%nat); [by rewrite Nat.min_l by lia|].
        by rewrite Nat.min_r, !take_ge by lia. }
      by rewrite Et. }
    destruct Hb' as [->|(i & ->)]; [done|]. apply Forall_app. split; [done|]. repeat constructor.
    exists (S (length ps)). rewrite take_ge by (rewrite length_app; cbn; lia). cbn. by rewrite E.
Qed.

Lemma settle_sound s c file v t p c' b :
  ac_phase c = Ready -> settle_commitment s c file v t p = (c', Ok b) ->
  (exists b0, b0 ∈ av_boundaries v /\ commitment_matches_boundary c b0 = true)
  /\ ac_generation c <= cb_generation b <= ac_generation c + 1.
Proof.
  intros Hph. unfold settle_commitment. rewrite Hph.
  destruct (List.find _ (av_boundaries v)) as [b0|] eqn:Eb; [|done].
  apply List.find_some in Eb as [Hin Hm]. intros H. split; [exists b0; by rewrite list_elem_of_In|].
  unfold commitment_matches_boundary in Hm. breflect.
  destruct (_ || _) in H; [done|]. destruct (av_generation v - ac_generation c =? 1); [|injection H as <- <-; lia].
  destruct (_ || _) in H; [done|]. destruct (last (av_boundaries v)) as [next|]; [|done].
  destruct (cb_confirmed next); [|done].
  destruct (Z.eqb_spec (cb_generation next) (ac_generation c + 1)); cbn [negb] in H; [|done].
  destruct (publish_ack_ready_generation _ _ _ _ _ _ _) as [? [[]|]]; cbn [rbind] in H; [|done].
  injection H as <- <-. lia.
Qed.

(** A file that is opened under a commitment begins with what was committed. *)
Lemma opened_prefix s c file chunks io p d j :
  ac_phase c = Ready -> ack_recover crc32c s c file chunks io p = (d, Ok j) ->
  exists committed rest, file = committed ++ rest /\ ac_prefix_size c = Z.of_nat (length committed)
    /\ ac_prefix_sha256 c = sha256_hex committed /\ ac_generation c <= a_generation j <= ac_generation c + 1.
Proof.
  intros Hph H. unfold ack_recover in H. cbv zeta in H.
  match type of H with (match ?r with _ => _ end) = _ => destruct r as [[v tail]|e] eqn:Er end; [|done].
  apply rbind_ok in Er as (? & _ & Er).
  destruct (iter_frames crc32c (mkStream file chunks) MAX_ACK_RECORD_BYTES) as [frames ending] eqn:Ef.
  apply rbind_ok in Er as (v' & Hv & Er). apply rbind_ok in Er as (? & _ & Er).
  apply rbind_ok in Er as (? & _ & Er). apply rbind_ok in Er as (? & _ & [= -> ->]).
  unfold iter_frames in Ef. rewrite (proj2 (validate_max_frame_ok _ tt) max_record_ok), iter_frames_flat in Ef.
  cbn [unread] in Ef. apply (flat_iter_sound crc32c) in Ef as (_ & Efr & (tl & Etl & _) & _);
    [|exact max_record_ok|done|lia].
  rewrite Efr in Hv. destruct (recover_frames_sound s _ _ Hv) as [_ Hb].
  assert (Hs : exists c' b, settle_commitment s c file v (match tail with Some _ => true | None => false end) p = (c', Ok b)
                 /\ a_generation j = cb_generation b).
  { destruct (settle_commitment _ _ _ _ _ _) as [c' [b|e]]; [|done]. exists c', b. split; [done|].
    destruct tail; [destruct io|]; simplify_eq; done. }
  destruct Hs as (c' & b & Hs & Eg).
  destruct (settle_sound _ _ _ _ _ _ _ _ Hph Hs) as ((b0 & Hin & Hm) & Hg). unfold commitment_matches_boundary in Hm.
  rewrite Forall_forall in Hb. destruct (Hb b0 Hin) as (n & E1 & E2).
  destruct (journal_take_prefix crc32c (map payload frames) n) as [tl' Etl'].
  exists (journal_of (take n (map payload frames))), (tl' ++ tl). breflect.
  split_and!; [by rewrite Etl at 1; rewrite Etl', <- app_assoc|congruence..|lia|lia].
Qed.

(** ** Opening succeeds *)

Lemma journal_of_long ps : (length ps <= length (journal_of ps))%nat.
Proof.
  generalize zero_hash (eq_refl : length zero_hash = 32%nat).
  induction ps as [|p ps IH]; intros h Hh; cbn [Frames.journal_of length]; [lia|].
  rewrite length_app, frame_of_length by done. specialize (IH (hash_of crc32c p h) (hash_of_length crc32c p h)). lia.
Qed.

Lemma payloads_length hist pend : (length hist <= length (payloads hist pend))%nat.
Proof.
  unfold payloads. rewrite length_app. induction hist as [|i hist IH]; cbn [flat_map app length] in *; lia.
Qed.

Lemma commitment_ok_snoc hist i :
  valid_identity i = true -> Z.of_nat (length (ack_file crc32c (hist ++ [i]) None)) <= MAX_UINT64 ->
  commitment_ok (commitment_of crc32c (hist ++ [i])) = true.
Proof.
  intros (Hs & He & Hc)%valid_identity_ok Hl. pose proof (payloads_length (hist ++ [i]) None) as H1.
  pose proof (journal_of_long (payloads (hist ++ [i]) None)) as H2.
  change (journal_of (payloads (hist ++ [i]) None)) with (ack_file crc32c (hist ++ [i]) None) in H2.
  rewrite length_app in H1. cbn [length] in H1.
  unfold commitment_ok, commitment_of. cbn [ac_phase ac_generation ac_confirmed ac_prefix_size ac_prefix_sha256].
  rewrite last_snoc, length_app, He, Hc. cbn [length].
  unfold HEX64. rewrite sha256_hex_is_hex.
  rewrite (bool_decide_eq_false_2 (Some i = None)) by done. rewrite !(proj2 (Z.leb_le _ _)) by lia.
  rewrite !(proj2 (Z.eqb_neq _ _)) by lia. done.
Qed.

Lemma publishable_ahead s order hist i :
  authentic s order -> hist ++ [i] `prefix_of` accepted s order ->
  Z.of_nat (length (ack_file crc32c (hist ++ [i]) None)) <= MAX_UINT64 ->
  publishable true s (commitment_of crc32c hist) (ack_file crc32c (hist ++ [i]) None)
    (commitment_of crc32c (hist ++ [i])) i = Ok tt.
Proof.
  intros Hau Hp Hl.
  assert (Hi : i ∈ order).
  { destruct (accepted_prefix s order Hau) as [t ->]. apply elem_of_app. left. destruct Hp as [t' ->].
    apply elem_of_app. left. apply in_snoc. }
  pose proof (au_valid _ _ Hau) as Hv. rewrite Forall_forall in Hv. specialize (Hv _ Hi).
  unfold publishable. rewrite (commitment_ok_snoc hist i) by done.
  cbn [commitment_of ac_phase ac_generation ac_prefix_size ac_prefix_sha256].
  rewrite length_app. cbn [length]. rewrite (proj2 (Z.eqb_eq _ _)) by lia. rewrite bool_decide_eq_true_2 by done.
  cbn [guard rbind andb]. destruct (resolve_recovered_ok s order Hau i Hi) as (r & -> & Hr).
  assert (Er : match r with Some r => bool_decide (from_ref r = i) | None => true end = true)
    by (destruct r as [e|]; [by rewrite bool_decide_eq_true_2 by auto|done]).
  rewrite Er, Z.leb_refl, Nat2Z.id, take_ge, bool_decide_eq_true_2 by done. done.
Qed.

Definition smooth (chunks : list positive) : open_io :=
  mkOpenIo None Published Created chunks RecoverFine Published Published None.

(** Nothing on the disk of a journal keeps it from being opened again. *)
Lemma open_total s order d hist pend chunks :
  authentic s order -> hist ++ option_list pend `prefix_of` accepted s order ->
  retired_below s (committed_through d) -> on_disk crc32c d hist pend -> dk_commitment d <> None ->
  Z.of_nat (length (default [] (dk_journal d))) <= MAX_UINT64 ->
  exists j, (ack_open_and_recover crc32c s d (smooth chunks)).2 = Ok j.
Proof.
  intros Hau Hp Hr Hd Hc Hl. unfold ack_open_and_recover. cbn [smooth oi_acquired].
  assert (Hinit : retired_below s 0 -> exists j,
    (recover_open crc32c s (ack_genesis_commitment Initializing) [] (smooth chunks)).2 = Ok j).
  { intros Hr0. unfold recover_open.
    pose proof (ack_recover_eq crc32c crc_range s order (ack_genesis_commitment Initializing) [] None [] chunks RecoverFine
      Published Hau (prefix_nil _) Hr0 Hr0 (torn_nil _ _)) as E.
    change (ack_file crc32c [] None ++ []) with ([] : bytes) in E. cbn [smooth oi_chunks oi_recover oi_ahead].
    rewrite E. clear E.
    change (settle_commitment s (ack_genesis_commitment Initializing) [] (recovered crc32c [] None)
      (negb (bool_decide (([] : bytes) = []))) Published)
      with (ack_genesis_commitment Initializing, @Ok ack_exn _ (boundary_at crc32c [])).
    unfold complete_open. cbn [opened_ack a_commitment ack_genesis_commitment ac_phase oi_genesis oi_completed smooth].
    eexists. cbn [snd]. reflexivity. }
  destruct Hd as [|file Hf|hist pend t Ht|hist i]; cbn [dk_commitment dk_journal default] in *; [done| | |].
  - destruct Hf as [->| ->]; [apply Hinit|apply Hinit]; exact Hr.
  - unfold recover_open. cbn [smooth oi_chunks oi_recover oi_ahead].
    rewrite (ack_recover_eq crc32c crc_range s order (commitment_of crc32c hist) hist pend t) by done.
    rewrite settle_ready. unfold complete_open. cbn [opened_ack a_commitment commitment_of ac_phase oi_completed smooth].
    eexists. cbn [snd]. reflexivity.
  - cbn [option_list] in Hp. rewrite app_nil_r in Hp. unfold recover_open. cbn [smooth oi_chunks oi_recover oi_ahead].
    assert (Hb : retired_below s (through (last (hist ++ [i])))).
    { eapply retired_mono; [|exact Hr]. unfold committed_through. cbn [dk_commitment commitment_of ac_confirmed].
      destruct (order_next s order Hau hist i) as (_ & Hlt & _);
        [etrans; [exact Hp|by apply accepted_prefix]|rewrite last_snoc; cbn [through]; lia]. }
    pose proof (ack_recover_eq crc32c crc_range s order (commitment_of crc32c hist) (hist ++ [i]) None [] chunks RecoverFine
      Published Hau) as E. cbn [option_list] in E. rewrite !app_nil_r in E.
    rewrite E; [|done..|apply torn_nil]. clear E. rewrite bool_decide_eq_true_2 by done. cbn [negb].
    rewrite settle_ahead. unfold publish_ack_ready_generation.
    rewrite (publishable_ahead s order hist i) by done. cbn [rbind]. unfold complete_open.
    cbn [opened_ack a_commitment commitment_of ac_phase oi_completed smooth].
    eexists. cbn [snd]. reflexivity.
Qed.

(** ** The world *)

Record ack_world := mkWorld {
  w_store : AckStore; w_order : list AckIdentity;   (* the evidence, and its order *)
  w_disk : ack_disk; w_journal : option AckJournal; (* the disk and the open journal *)
  w_reported : list (ack_kind * AckIdentity) }.     (* the records callers were told of *)

Definition report (k : ack_kind) (r : EvidenceRef) (res : result ack_exn unit)
    (reported : list (ack_kind * AckIdentity)) : list (ack_kind * AckIdentity) :=
  match res with Ok _ => reported ++ [(k, from_ref r)] | Err _ => reported end.

Definition ok_of {E A} (r : result E A) : option A := match r with Ok a => Some a | Err _ => None end.

(** The operations that record nothing *)
Inductive quiet (j : AckJournal) : AckJournal -> Prop :=
| quiet_snapshot env : quiet j (ack_snapshot env j).1
| quiet_body env : quiet j (pending_request_body env j).1
| quiet_claim env same lease : quiet j (claim_delivery env same lease j).1
| quiet_release lease : quiet j (release_delivery_claim lease j).1
| quiet_acquire env env' same n lease : quiet j (acquire_retention_boundary env env' same n lease j).1
| quiet_retained lease : quiet j (release_retention_boundary lease j).1
| quiet_close io : quiet j (close_ack io j).1.

Inductive wstep : ack_world -> ack_world -> Prop :=
| w_create s o d io rep :
    let out := create_new crc32c s d io in wstep (mkWorld s o d None rep) (mkWorld s o out.1 (ok_of out.2) rep)
| w_open s o d io rep :
    let out := ack_open_and_recover crc32c s d io in
    wstep (mkWorld s o d None rep) (mkWorld s o out.1 (ok_of out.2) rep)
| w_pending s o d j r env a rep :
    let out := record_pending crc32c s r env a j in
    wstep (mkWorld s o d (Some j) rep) (mkWorld s o (disk_of out.1) (Some out.1) (report PendingAck r out.2 rep))
| w_confirmed s o d j r env a p rep :
    let out := record_confirmed crc32c s r env a p j in
    wstep (mkWorld s o d (Some j) rep) (mkWorld s o (disk_of out.1) (Some out.1) (report ConfirmedAck r out.2 rep))
| w_quiet s o d j j' rep : quiet j j' -> wstep (mkWorld s o d (Some j) rep) (mkWorld s o (disk_of j') (Some j') rep)
| w_evidence s o s' o' d j rep :
    authentic s' o' -> accepted s o `prefix_of` accepted s' o' -> retired_below s' (committed_through d) ->
    wstep (mkWorld s o d j rep) (mkWorld s' o' d j rep)
| w_crash s o d j rep : wstep (mkWorld s o d j rep) (mkWorld s o d None rep).

(** A world that begins with authentic evidence and nothing on the disk *)
Inductive wreachable : ack_world -> Prop :=
| reach_start s o : authentic s o -> as_retired s = [] -> wreachable (mkWorld s o (mkDisk None None) None [])
| reach_wstep w w' : wreachable w -> wstep w w' -> wreachable w'.

(** A record that was reported is in the history. *)
Definition kept (hist : list AckIdentity) (pend : option AckIdentity) (x : ack_kind * AckIdentity) : Prop :=
  x.2 ∈ hist \/ (x.1 = PendingAck /\ pend = Some x.2).

Record represents (w : ack_world) (hist : list AckIdentity) (pend : option AckIdentity) : Prop := mkRepresents {
  rp_authentic : authentic (w_store w) (w_order w);
  rp_order : hist ++ option_list pend `prefix_of` accepted (w_store w) (w_order w);
  rp_retired : retired_below (w_store w) (committed_through (w_disk w));
  rp_disk : on_disk crc32c (w_disk w) hist pend;
  rp_journal j : w_journal w = Some j -> w_disk w = disk_of j /\ tracks crc32c j hist pend;
  rp_reported : Forall (kept hist pend) (w_reported w) }.

#[local] Hint Resolve same_refl same_unhealthy same_latch same_bump same_leases : core.

Lemma snapshot_same env j : same_ack j (ack_snapshot env j).1.
Proof.
  unfold ack_snapshot. pose proof (bind_same (env_bound env) j) as Hb.
  destruct (bool_decide _); cbn [negb]; [|done]. destruct (a_healthy j); [|done].
  destruct (env_owner env); cbn [fst]; try done; by destruct (bind_published_or_latch _ _).
Qed.

Lemma same_health_down l t n j : same_ack j (with_health (a_healthy j) l n t j).
Proof. by split. Qed.

Lemma quiet_same j j' : quiet j j' -> same_ack j j'.
Proof.
  intros [env|env|env same lease|lease|env env' same n lease|lease|io].
  - apply snapshot_same.
  - unfold pending_request_body. pose proof (usable_same env j) as Hu.
    by destruct (require_ack_usable env j) as [? []].
  - unfold claim_delivery. pose proof (usable_same env j) as Hu.
    destruct (require_ack_usable env j) as [j1 []]; [|done]. destruct same; cbn [negb]; [|done].
    destruct (a_delivery j1); [done|].
    exact (same_trans _ _ _ Hu (same_leases _ _ _ _)).
  - unfold release_delivery_claim. destruct (negb _); cbn; auto.
  - unfold acquire_retention_boundary. destruct (negb _); [done|]. destruct (a_retention j); [done|].
    pose proof (usable_same env j) as Hu. destruct (require_ack_usable env j) as [j1 []]; [|done].
    pose proof (snapshot_same env' j1) as Hs. destruct (ack_snapshot env' j1) as [j2 []];
      cbn [fst] in *; [|exact (same_trans _ _ _ Hu Hs)]. destruct (_ || _); [exact (same_trans _ _ _ Hu Hs)|].
    exact (same_trans _ _ _ (same_trans _ _ _ Hu Hs) (same_trans _ _ _ (same_leases _ _ _ _) (same_bump _))).
  - unfold release_retention_boundary. destruct (negb _); [done|].
    exact (same_trans _ _ _ (same_leases _ _ _ _) (same_bump _)).
  - unfold close_ack. destruct (a_retention j); [done|]. destruct (a_life j); [| |done].
    + set (j1 := with_leases _ _ _ j).
      match goal with |- context [let '(_, _) := ?r in _] => assert (Hr : same_ack j1 r.1) end.
      { repeat case_match; cbn [fst]; auto. }
      match goal with |- context [let '(_, _) := ?r in _] => destruct r as [j2 ?] end.
      cbn [fst] in *. eapply same_trans; [apply (same_leases None None (a_revision j + 1))|].
      eapply same_trans; [exact Hr|apply same_health_down].
    + eapply same_trans; [apply same_bump|apply same_health_down].
Qed.

(** ** Simulation *)

Lemma spec_prefix acc hist pend hist' pend' :
  ack_spec acc (hist, pend) (hist', pend') -> hist ++ option_list pend `prefix_of` acc ->
  hist' ++ option_list pend' `prefix_of` acc.
Proof.
  intros Hs Hp. inversion Hs; subst; [done|done|]. cbn [option_list] in *. by rewrite app_nil_r.
Qed.

Lemma spec_kept acc hist pend hist' pend' x :
  ack_spec acc (hist, pend) (hist', pend') -> kept hist pend x -> kept hist' pend' x.
Proof.
  unfold kept. intros Hs [Hx|[Hk Hx]]; inversion Hs; subst; try tauto; try done.
  - left. apply elem_of_app. by left.
  - left. simplify_eq. apply in_snoc.
Qed.

Lemma represents_opened s o d hist pend rep out :
  represents (mkWorld s o d None rep) hist pend -> opened crc32c hist pend d out ->
  represents (mkWorld s o out.1 (ok_of out.2) rep) hist pend.
Proof.
  intros [Ha Ho Hr Hd _ Hk] (H1 & H2 & H3). split; cbn [w_store w_order w_disk w_journal w_reported] in *; try done.
  - by eapply retired_mono.
  - intros j. destruct out as [d' [j'|e]]; cbn [ok_of snd fst] in *; [|done]. intros [= <-].
    destruct (H3 j' eq_refl) as (-> & Hj & _). split; [done|]. split; [by apply agrees_disk|done].
Qed.

Lemma represents_stepped s o d j hist pend rep j' rep' ok :
  represents (mkWorld s o d (Some j) rep) hist pend -> stepped crc32c (accepted s o) j hist pend j' ok ->
  (forall h p, ok h p -> Forall (kept h p) rep -> Forall (kept h p) rep') ->
  exists hist' pend', ack_spec (accepted s o) (hist, pend) (hist', pend')
    /\ represents (mkWorld s o (disk_of j') (Some j') rep') hist' pend'.
Proof.
  intros [Ha Ho Hr Hd Hj Hk] (hist' & pend' & Hs & Ht & Hc & Hok) Hrep.
  destruct (Hj j eq_refl) as [Ed _]. exists hist', pend'. split; [done|].
  split; cbn [w_store w_order w_disk w_journal w_reported] in *; try done.
  - by eapply spec_prefix.
  - eapply retired_mono; [|exact Hr]. by rewrite Ed.
  - apply Ht.
  - by intros ? [= <-].
  - apply Hrep; [done|]. eapply Forall_impl; [exact Hk|]. intros x. by eapply spec_kept.
Qed.

Lemma world_step w w' hist pend :
  represents w hist pend -> wstep w w' ->
  exists hist' pend', ack_spec (accepted (w_store w') (w_order w')) (hist, pend) (hist', pend')
    /\ represents w' hist' pend'.
Proof.
  intros Hw Hstep. destruct Hstep as [s o d io rep out|s o d io rep out|s o d j r env a rep out|s o d j r env a p rep out
    |s o d j j' rep Hq|s o s' o' d j rep Ha Hacc Hret|s o d j rep]; cbn [w_store w_order].
  - exists hist, pend. split; [constructor|]. apply (represents_opened s o d); [done|].
    destruct Hw. by apply (create_effect crc32c crc_range s o).
  - exists hist, pend. split; [constructor|]. apply (represents_opened s o d); [done|].
    destruct Hw. by apply (open_effect crc32c crc_range s o).
  - eapply represents_stepped; [exact Hw| |].
    + destruct Hw as [Ha Ho Hr Hd Hj Hk]. destruct (Hj j eq_refl) as [Ed Ht]. cbn in Ed, Hr. rewrite Ed in Hr.
      by apply (pending_effect crc32c s o).
    + intros h p' Hok Hk. fold out in Hok. unfold report. destruct (out.2) as [[]|]; [|done]. apply Forall_app.
      split; [done|]. apply Forall_singleton. right. by rewrite Hok.
  - eapply represents_stepped; [exact Hw| |].
    + destruct Hw as [Ha Ho Hr Hd Hj Hk]. destruct (Hj j eq_refl) as [Ed Ht].
      by apply (confirmed_effect crc32c s o).
    + intros h p' Hok Hk. fold out in Hok. unfold report. destruct (out.2) as [[]|]; [|done]. apply Forall_app.
      split; [done|]. apply Forall_singleton. left. cbn [snd]. specialize (Hok eq_refl).
      apply last_Some in Hok as [l ->]. apply in_snoc.
  - eapply (represents_stepped s o d j hist pend rep j' rep (fun _ _ => True)); [done| |done].
    apply stepped_same; [by apply quiet_same|by apply (rp_journal _ _ _ Hw)|done].
  - exists hist, pend. split; [constructor|]. destruct Hw as [_ Ho _ Hd Hj Hk]. split; try done. by etrans.
  - exists hist, pend. split; [constructor|]. by destruct Hw.
Qed.

Lemma start_represents s o :
  authentic s o -> as_retired s = [] -> represents (mkWorld s o (mkDisk None None) None []) [] None.
Proof.
  intros Ha Hr.
  split; cbn [w_store w_order w_disk w_journal w_reported]; [done|apply prefix_nil| |constructor|done|constructor].
  unfold retired_below. by rewrite Hr.
Qed.

Lemma reachable_represents w : wreachable w -> exists hist pend, represents w hist pend.
Proof.
  induction 1 as [s o Ha Hr|w w' _ (hist & pend & IH) Hs]; [exists [], None; by apply start_represents|].
  destruct (world_step w w' hist pend IH Hs) as (hist' & pend' & _ & H). eauto.
Qed.

(** ** Theorems *)

(** C7: The journal implements acknowledging in order.  In a world whose disk holds the
    confirmed acknowledgements [hist] and maybe a pending one, any operation with any answer
    of the system (a write that stops after any byte, a commitment that is replaced or not, a
    crash, a reopening) is at most one step of the specification: the next accepted evidence
    becomes pending, or what is pending becomes confirmed. *)
Theorem ack_journal_refines w w' hist pend :
  represents w hist pend -> wstep w w' ->
  exists hist' pend', ack_spec (accepted (w_store w') (w_order w')) (hist, pend) (hist', pend')
    /\ represents w' hist' pend'.
Proof. apply world_step. Qed.

(** C8: Whatever happened, a healthy open journal holds a prefix of the accepted evidence,
    without a gap: it is confirmed up to [a_confirmed], at most one acknowledgement is
    pending, the file and the commitment are exactly those of this history, and every record
    a caller was told of is in it. *)
Theorem acks_in_order w j :
  wreachable w -> w_journal w = Some j -> a_healthy j = true ->
  exists hist pend, hist ++ option_list pend `prefix_of` accepted (w_store w) (w_order w)
    /\ a_confirmed j = last hist /\ a_pending j = pend
    /\ w_disk w = mkDisk (Some (commitment_of crc32c hist)) (Some (ack_file crc32c hist pend))
    /\ Forall (kept hist pend) (w_reported w).
Proof.
  intros (hist & pend & Hw)%reachable_represents Hj Hh. exists hist, pend.
  destruct (rp_journal _ _ _ Hw j Hj) as [Hd [_ Ha]]. specialize (Ha Hh). split_and!.
  - apply Hw.
  - by apply ag_confirmed in Ha.
  - by apply ag_pending in Ha.
  - rewrite Hd. unfold disk_of. by rewrite (ag_commitment _ _ _ _ Ha), (ag_file _ _ _ _ Ha).
  - apply Hw.
Qed.

(** C9: After a crash at any point a journal that was created opens again whenever the system
    does its part and its size fits 64 bits, and holds every record a caller was told of: a
    confirmation is confirmed, and a pending record is pending or confirmed. *)
Theorem ack_recovery_total w chunks :
  wreachable w -> w_journal w = None -> dk_commitment (w_disk w) <> None ->
  Z.of_nat (length (default [] (dk_journal (w_disk w)))) <= MAX_UINT64 ->
  exists j hist, ack_open_and_recover crc32c (w_store w) (w_disk w) (smooth chunks) = (disk_of j, Ok j)
    /\ a_healthy j = true /\ a_confirmed j = last hist
    /\ hist ++ option_list (a_pending j) `prefix_of` accepted (w_store w) (w_order w)
    /\ Forall (kept hist (a_pending j)) (w_reported w).
Proof.
  intros (hist & pend & [Ha Ho Hr Hd _ Hk])%reachable_represents Hn Hc Hl.
  destruct (open_total _ _ _ _ _ chunks Ha Ho Hr Hd Hc Hl) as [j Hj].
  destruct (open_effect crc32c crc_range _ _ Ha _ _ _ (smooth chunks) Hd Ho Hr) as (_ & _ & H3).
  destruct (H3 j Hj) as (Ed & Hag & Hh). exists j, hist.
  destruct (ack_open_and_recover _ _ _ _) as [d r]. cbn [fst snd] in *. subst d r.
  rewrite (ag_pending _ _ _ _ Hag). split_and!; try done. by apply ag_confirmed in Hag.
Qed.

(** C10: A journal that was rolled back, cut or replaced is refused: what is opened under the
    commitment of a history begins with the journal of that history, unless its own bytes
    exhibit a collision of SHA-256 with that journal, and is at most one confirmation ahead of it. *)
Theorem ack_rollback_refused s d hist io d' j :
  dk_commitment d = Some (commitment_of crc32c hist) -> ack_open_and_recover crc32c s d io = (d', Ok j) ->
  ((exists rest, dk_journal d = Some (ack_file crc32c hist None ++ rest))
   \/ exists other rest, dk_journal d = Some (other ++ rest) /\ collision (ack_file crc32c hist None) other)
  /\ Z.of_nat (length hist) <= a_generation j <= Z.of_nat (length hist) + 1.
Proof.
  intros Hc H. unfold ack_open_and_recover in H. rewrite Hc in H. destruct (oi_acquired io); [done|].
  destruct (dk_journal d) as [file|]; [|done]. unfold recover_open in H.
  destruct (ack_recover _ _ _ _ _ _ _) as [[c f] [j0|e]] eqn:Er; [|done].
  assert (Eg : a_generation j = a_generation j0).
  { unfold complete_open in H. repeat case_match; simplify_eq; done. }
  apply opened_prefix in Er as (committed & rest & -> & _ & E2 & Hg); [|done].
  split; [|rewrite Eg; exact Hg]. cbn [commitment_of ac_prefix_sha256] in E2.
  apply sha256_hex_inj in E2 as [<-|Hcol]; [left; by exists rest|right; by exists committed, rest].
Qed.

End Order.

(** ** A journal at work *)

Definition sample_ack_ref (n : Z) : EvidenceRef :=
  mkRef (u "0") (u "0") 0 200 (repeat 97 64) (u "evt_" ++ repeat (96 + n) 64) n (repeat (98 + n) 64).

Definition sample_ack_record (n : Z) : StoredEvidenceRecord := mkStored [] [] ROUTINE [] (sample_ack_ref n).

(** Two pieces of evidence *)
Definition sample_ack_store : AckStore :=
  let refs := {[1 := sample_ack_ref 1; 2 := sample_ack_ref 2]} in
  mkAckStore (mkStore 0 false true 2 refs [1; 2] refs {[1 := 0%nat; 2 := 1%nat]}
                [sample_ack_record 1; sample_ack_record 2] None 0) [] [].

Definition sample_ack_order : list AckIdentity := [from_ref (sample_ack_ref 1); from_ref (sample_ack_ref 2)].

Lemma sample_ack_authentic : authentic sample_ack_store sample_ack_order.
Proof.
  assert (Hl : forall q, index (as_store sample_ack_store) !! q
    = if decide (q = 1) then Some (sample_ack_ref 1) else if decide (q = 2) then Some (sample_ack_ref 2) else None).
  { intros q. cbn [sample_ack_store as_store index]. repeat case_decide; subst; by simplify_map_eq. }
  split.
  - done.
  - repeat constructor; vm_compute; done.
  - repeat constructor.
  - repeat constructor; vm_compute; done.
  - intros q. rewrite Hl. cbn [sample_ack_store as_store sequences]. rewrite !elem_of_cons, elem_of_nil.
    destruct (decide (q = 1)) as [->|]; [by split; [eauto|left]|].
    destruct (decide (q = 2)) as [->|]; [by split; [eauto|right; left]|].
    split; [by intros [?|[?|[]]]|by intros Hq%is_Some_None].
  - intros q r. rewrite Hl. repeat case_decide; intros [= <-]; subst.
    + split_and!; [left|done|done|]. by exists 0%nat, (sample_ack_record 1).
    + split_and!; [right; left|done|done|]. by exists 1%nat, (sample_ack_record 2).
  - intros i Hi. rewrite Hl. unfold sample_ack_order in Hi. rewrite !elem_of_cons, elem_of_nil in Hi.
    by destruct Hi as [->|[->|[]]].
  - intros a b Hab. by apply elem_of_nil in Hab.
Qed.

Definition fine_env : ack_env := mkEnv OwnerOk true.

(** The journal after its creation, after the first acknowledgement, and when the write of
    the second pending record stops after fifty bytes *)
Definition sample_created : option AckJournal := Eval vm_compute in
  ok_of (create_new crc32c_bitwise sample_ack_store (mkDisk None None) (smooth [])).2.

Definition acked (j : AckJournal) : AckJournal :=
  (record_confirmed crc32c_bitwise sample_ack_store (sample_ack_ref 1) fine_env Appended Published
     (record_pending crc32c_bitwise sample_ack_store (sample_ack_ref 1) fine_env Appended j).1).1.

Definition sample_acked : option AckJournal := Eval vm_compute in acked <$> sample_created.

Definition sample_torn_ack : option AckJournal := Eval vm_compute in
  (fun j => (record_pending crc32c_bitwise sample_ack_store (sample_ack_ref 2) fine_env (WriteFailed 50) j).1)
    <$> sample_acked.

Definition sample_world (j : option AckJournal) (rep : list (ack_kind * AckIdentity)) : ack_world :=
  mkWorld sample_ack_store sample_ack_order
    (match j with Some j => disk_of j | None => mkDisk None None end) j rep.

Definition first_acked : list (ack_kind * AckIdentity) :=
  [(PendingAck, from_ref (sample_ack_ref 1)); (ConfirmedAck, from_ref (sample_ack_ref 1))].

Lemma created_reachable : wreachable crc32c_bitwise (sample_world sample_created []).
Proof.
  eapply reach_wstep; [apply (reach_start _ sample_ack_store sample_ack_order sample_ack_authentic eq_refl)|].
  assert (E : create_new crc32c_bitwise sample_ack_store (mkDisk None None) (smooth [])
    = (match sample_created with Some j => disk_of j | None => mkDisk None None end,
       match sample_created with Some j => Ok j | None => Err AckOSError end)) by (vm_compute; reflexivity).
  pose proof (w_create crc32c_bitwise sample_ack_store sample_ack_order (mkDisk None None) (smooth []) []) as H.
  rewrite E in H. exact H.
Qed.

Lemma acked_results j :
  sample_created = Some j ->
  let out := record_pending crc32c_bitwise sample_ack_store (sample_ack_ref 1) fine_env Appended j in
  out.2 = Ok tt
  /\ (record_confirmed crc32c_bitwise sample_ack_store (sample_ack_ref 1) fine_env Appended Published out.1).2 = Ok tt.
Proof. intros [= <-]. vm_compute. by split. Qed.

Lemma acked_reachable : wreachable crc32c_bitwise (sample_world sample_acked first_acked).
Proof.
  assert (E : sample_acked = acked <$> sample_created) by (vm_compute; reflexivity).
  pose proof created_reachable as H. pose proof acked_results as Hr.
  destruct sample_created as [j|]; [|done]. destruct (Hr j eq_refl) as [H1 H2]. rewrite E.
  eapply reach_wstep in H; [|apply (w_pending _ _ _ _ _ (sample_ack_ref 1) fine_env Appended)]. rewrite H1 in H.
  eapply reach_wstep in H; [|apply (w_confirmed _ _ _ _ _ (sample_ack_ref 1) fine_env Appended Published)].
  rewrite H2 in H. exact H.
Qed.

Lemma torn_ack_reachable : wreachable crc32c_bitwise (sample_world sample_torn_ack first_acked).
Proof.
  assert (E : sample_torn_ack = (fun j => (record_pending crc32c_bitwise sample_ack_store (sample_ack_ref 2) fine_env
    (WriteFailed 50) j).1) <$> sample_acked) by (vm_compute; reflexivity).
  assert (Hr : forall j, sample_acked = Some j ->
    (record_pending crc32c_bitwise sample_ack_store (sample_ack_ref 2) fine_env (WriteFailed 50) j).2 = Err AckOSError)
    by (intros j [= <-]; vm_compute; reflexivity).
  pose proof acked_reachable as H. destruct sample_acked as [j|]; [|done]. specialize (Hr j eq_refl). rewrite E.
  eapply reach_wstep in H; [|apply (w_pending _ _ _ _ _ (sample_ack_ref 2) fine_env (WriteFailed 50))].
  rewrite Hr in H. exact H.
Qed.

Definition crashed_world : ack_world :=
  mkWorld sample_ack_store sample_ack_order (w_disk (sample_world sample_torn_ack [])) None first_acked.

Lemma crashed_reachable : wreachable crc32c_bitwise crashed_world.
Proof.
  eapply reach_wstep; [apply torn_ack_reachable|].
  apply (w_crash crc32c_bitwise sample_ack_store sample_ack_order _ sample_torn_ack).
Qed.

(** The first acknowledgement refines the specification. *)
Lemma ack_journal_refines_witness :
  exists hist' pend', ack_spec (accepted sample_ack_store sample_ack_order) ([], None) (hist', pend')
    /\ represents crc32c_bitwise (sample_world sample_created []) hist' pend'.
Proof.
  apply (ack_journal_refines crc32c_bitwise crc32c_bitwise_range
    (mkWorld sample_ack_store sample_ack_order (mkDisk None None) None []) (sample_world sample_created []) [] None).
  - apply start_represents; [exact sample_ack_authentic|reflexivity].
  - assert (E : create_new crc32c_bitwise sample_ack_store (mkDisk None None) (smooth [])
      = (match sample_created with Some j => disk_of j | None => mkDisk None None end,
         match sample_created with Some j => Ok j | None => Err AckOSError end)) by (vm_compute; reflexivity).
    pose proof (w_create crc32c_bitwise sample_ack_store sample_ack_order (mkDisk None None) (smooth []) []) as H.
    rewrite E in H. exact H.
Defined.

(** After the first acknowledgement exactly the first evidence is confirmed. *)
Lemma acks_in_order_witness :
  exists j hist pend, sample_acked = Some j /\ hist ++ option_list pend `prefix_of` accepted sample_ack_store sample_ack_order
    /\ a_confirmed j = last hist /\ a_confirmed j = Some (from_ref (sample_ack_ref 1)) /\ a_pending j = None.
Proof.
  destruct (acks_in_order crc32c_bitwise crc32c_bitwise_range (sample_world sample_acked first_acked)
    (match sample_acked with Some j => j | None => latch_corruption (opened_ack [] (ack_genesis_commitment Ready)
       ack_recovery_start (mkBoundaryAt 0 None 0 [])) end) acked_reachable eq_refl eq_refl)
    as (hist & pend & H1 & H2 & H3 & H4 & H5).
  eexists _, hist, pend. split_and!; [reflexivity|exact H1|exact H2|reflexivity|reflexivity].
Defined.

(** The journal whose second record was torn opens with the first one confirmed. *)
Lemma ack_recovery_total_witness :
  exists j hist, ack_open_and_recover crc32c_bitwise sample_ack_store (w_disk crashed_world) (smooth []) = (disk_of j, Ok j)
    /\ a_healthy j = true /\ Forall (kept hist (a_pending j)) first_acked.
Proof.
  destruct (ack_recovery_total crc32c_bitwise crc32c_bitwise_range crashed_world [] crashed_reachable eq_refl)
    as (j & hist & H1 & H2 & _ & _ & H5).
  - vm_compute. discriminate.
  - vm_compute. discriminate.
  - exists j, hist. split_and!; [exact H1|exact H2|exact H5].
Defined.

Definition sample_reopened : option AckJournal := Eval vm_compute in
  ok_of (ack_open_and_recover crc32c_bitwise sample_ack_store (w_disk crashed_world) (smooth [])).2.

(** The file that was opened begins with the record of the committed acknowledgement. *)
Lemma ack_rollback_refused_witness :
  exists j, sample_reopened = Some j
    /\ ((exists rest, dk_journal (w_disk crashed_world)
          = Some (ack_file crc32c_bitwise [from_ref (sample_ack_ref 1)] None ++ rest))
        \/ exists other rest, dk_journal (w_disk crashed_world) = Some (other ++ rest)
             /\ collision (ack_file crc32c_bitwise [from_ref (sample_ack_ref 1)] None) other)
    /\ 1 <= a_generation j <= 2.
Proof.
  eexists. split; [reflexivity|].
  apply (ack_rollback_refused crc32c_bitwise sample_ack_store (w_disk crashed_world)
    [from_ref (sample_ack_ref 1)] (smooth [])
    (ack_open_and_recover crc32c_bitwise sample_ack_store (w_disk crashed_world) (smooth [])).1).
  - vm_compute. reflexivity.
  - vm_compute. reflexivity.
Defined.

(** A confirmation that was written but not committed is committed when the journal is opened:
    the failed publication is not lost, and is not repeated. *)
Example unpublished_confirmation_is_recovered :
  match sample_created with
  | Some j =>
      let j := (record_pending crc32c_bitwise sample_ack_store (sample_ack_ref 1) fine_env Appended j).1 in
      let out := record_confirmed crc32c_bitwise sample_ack_store (sample_ack_ref 1) fine_env Appended
                   (PublishFailed false false) j in
      out.2 = Err AckOSError
      /\ ok_of (ack_open_and_recover crc32c_bitwise sample_ack_store (disk_of out.1) (smooth [])).2
         = (fun j => with_leases None None 0 j) <$> sample_acked
  | None => False
  end.
Proof. vm_compute. by split. Qed.
